(* ===== verification/_CoqProject ===== *)
-Q . S2P
Prelude.v
GoStd.v
Sha256.v
BlobStore.v
Contract.v
HotCache.v
LruCore.v
MemoryCache.v
CircuitBreaker.v
S3.v
S3Purge.v
Fs.v
DiskCache.v
DiskCacheLaws.v
DiskCacheProps.v
DiskCrash.v
DiskRefine.v
Guardrails.v
Db.v
Config.v
LocalFsDev.v
LocalStore.v
LocalDirs.v
LocalVersions.v
ContractLocal.v
LocalUploads.v
LocalRefine.v
Multipart.v
Singleflight.v
Pipeline.v
PipelineSafety.v
BlindPromote.v
PgStatus.v
MetaStore.v
DriveStore.v
ContentStore.v
TenantIsolation.v
Promotion.v
Jobs.v
Worker.v
Http.v
ChatApi.v
DriveApi.v
DedupApi.v
DriveIsolation.v
DedupSafety.v
Gateway.v
GatewaySafety.v
Lifecycle.v
Entry.v
