(* ===== verification/Prelude.v ===== *)
(** * KChat Drive gateway: verification library (root file)

    The program stores encrypted blobs behind two caches. A gateway serves an
    HTTP API; a worker runs background jobs; both read and write the same
    Postgres database, and reach blobs through a pipeline over a local cache
    (L1) and a durable object store (L2).

      clients -> server (chat API, Drive API, dedup API, probes, metrics)
                   |            |                        |
                   |        metadata stores -> Postgres <- status store
                   v                                         ^
                 pipeline ----------------------------------/
                   |        \
               L1: memory or disk cache   L2: S3 or local directory
                   ^
                 worker jobs (promotion, repair, purge, backup, rollup)

    ** How the files correspond to the code

    Shared: [Prelude] (scope, record update, errors, the state-and-error monad
    [M], tactics, list lemmas), [GoStd] (byte strings, machine integers, time,
    hex, readers, sorting, doubles), [Sha256] (executable SHA-256).

    Interfaces, as classes with a class of laws each: [BlobStore]
    (pkg/blobstore/blobstore.go: [Store], its part the pipeline uses, with
    [StoreLaws]; the whole [BlobStore.BlobStore] and [BlobInventory]), [HotCache]
    (pkg/hotcache/hotcache.go: [Cache], [CacheLaws]) and, in [Pipeline], the
    status store ([StatusStore], [StatusLaws]). The pipeline, the jobs and the
    gateway are proved against the laws. The two caches discharge theirs
    ([MemoryCache], [DiskCacheLaws]); of the providers the local one does
    ([LocalStore], with [head_sums]: its HEAD reports checksums), and the S3
    adapter does not: it reports checksums as the service sends them, and its
    HEAD asks for none ([BlindPromote]). The laws of a status store say that it
    answers its reads: the in-memory one does, the one over Postgres does as
    long as its link does not fail ([PgStatus]).

    Caches (pkg/hotcache): [LruCore] holds the structure both caches keep (two
    linked lists, index, byte counters), [MemoryCache] memory_cache.go,
    [DiskCache] disk_cache.go over the file system of [Fs]; [DiskCacheLaws] its
    invariant, [DiskCrash] its interleaved calls with crashes and restarts,
    [DiskRefine] its equivalence with the memory cache, [DiskCacheProps] the
    theorems and witnesses.

    Stores (pkg/blobstore): [S3] s3/s3.go over an abstract SDK client,
    [S3Purge] its purge over any client that lists and deletes versions as
    documented, [CircuitBreaker] s3/circuit_breaker.go, sequentially and as atomic steps of
    any number of goroutines; [LocalFsDev] local_fs_dev/local.go over [Fs],
    [LocalStore] its proof of [StoreLaws], [LocalDirs] the directories of keys
    none of which is a path prefix of another, [LocalVersions] the versions of a
    key and what every method does to them, [LocalUploads] the same for the
    staged uploads, [LocalRefine] the store of versions and uploads as an
    abstract specification and the proof that the provider refines it.
    [Contract] is the conformance suite of pkg/contracttest over any adapter,
    [ContractLocal] its run on the local provider.

    Pipeline (internal/blobio/pipeline.go): [Pipeline] the methods,
    [Singleflight] the sharing of concurrent promotes and restores,
    [Multipart] the goroutines of a multipart promote, [PipelineSafety] the
    invariant over any lawful cache, store and status store, [BlindPromote] two
    promotes over the S3 adapter.

    Metadata (internal/metadata): [Db] tables, constraints, transactions and
    link failures; [PgStatus] status_store.go, [MetaStore] store.go,
    [DriveStore] drive_store.go, [ContentStore] content_store.go and
    upload_session_store.go, [TenantIsolation] what the tenant-scoped methods
    read and write.

    Worker (internal/worker): [Promotion] the promotion job and its pool,
    [Jobs] the other jobs and [verifyChecksum], [Worker] building the process
    from its configuration, [Lifecycle] the processes themselves: Start, Stop
    and the Run loops with cmd/drive-worker/main.go as a machine of goroutines,
    tickers and a signal, and cmd/drive-gateway/main.go. [Entry] is the way to
    the two processes: flags, environment, configuration, the pool that
    [metadata.Open] makes and the embedded migrations.

    Server (internal/server): [Http] requests, responses and the handler monad,
    [ChatApi] chat_storage_api.go, [DriveApi] drive_api.go, [DedupApi]
    drive_dedup_api.go, [Gateway] server.go and metrics.go; [DriveIsolation],
    [DedupSafety] and [GatewaySafety] hold the theorems over whole sequences of
    requests.

    Settings: [Config] internal/config/config.go, [Guardrails]
    pkg/storageguardrails/guardrails.go.

    A Go struct is a record with the fields of the source, an operation a
    definition with its name; [(T, error)] is a [result T], a method that
    changes a state [S] an [M S T], whose state survives an error as in Go. A
    method that holds its mutex throughout is one step; where the source leaves
    a lock or uses channels and atomics, the steps between are those of a
    machine ([CircuitBreaker], [Multipart], [Singleflight], [Promotion],
    [DiskCrash], [Lifecycle]) and the theorems cover every schedule.

    ** What the theorems show

    - Caches: the bookkeeping agrees in every reachable state; Put implements a
      list-level eviction specification, stays within the capacity and never
      evicts a non-evictable entry; a stored body is read back; for calls that
      both read alike, a disk cache answers as a memory cache; after a crash
      between any two system calls the directory opens and serves only whole,
      committed bodies.
    - Stores: on keys none of which is a path prefix of another, the local
      provider answers as a store of versions does and keeps a version readable
      until it is purged or deleted; it passes the whole conformance suite; it
      concatenates the parts of an upload; it does not shorten a period of
      retention nor drop a COMPLIANCE lock. A purge over S3 removes the first
      thousand versions of the key that no lock protects, and nothing else. The
      breaker opens exactly after its threshold and runs one probe at a time
      under every interleaving.
    - Pipeline: over a store whose HEAD reports checksums and a status store
      that answers, a written blob stays readable, with its length and SHA-256,
      through any sequence of operations; a promote that reports success left
      the body in the store, or found one of its size there of which the HEAD
      said no more; a multipart promote is right and ends whatever the
      schedule; shared calls run once and nobody waits for ever.
    - Metadata: a status is read back as written; intents are settled once; the
      erasure generations of an entity have no gaps, and no repetitions unless
      two calls overlap; the outbox delivers no event a first time; batches of
      chunks are all or nothing.
    - Worker: a batch ends under every schedule, loses no blob and reports as
      promoted what is durable (over a store whose HEAD reports checksums); the
      repair scan raises exactly the alarms it should; a purge run ends and
      counts the directories two levels below the staging area, which are the
      staged uploads when keys have one component. A development worker without
      a database has no jobs, any other five. The process closes its parts once,
      after a signal, under no run of a job unless the grace period is over, and
      it always gets to its exit.
    - Server: over a database link that does not fail and with requests served
      one after another, requests of other tenants neither change a tenant's
      rows nor what it reads, and a content registered with at most 10000 chunks
      is found again; a commit answered with success names blobs that are there;
      an object put through the chat API is read back after any requests that do
      not write its key.

    Where the code does not do what it means to, the theorem carries the
    hypothesis that excludes the case, and a lemma shows the case by a run:
    for instance [DriveIsolation.failed_owner_check], [DedupSafety.ex_too_many],
    [Gateway.blob_replaces_media], [Worker.ticker_overflow],
    [MetaStore.claim_fresh_fails], [MetaStore.concurrent_erasures],
    [LocalFsDev.purge_removes_nested_keys], [Jobs.nested_uploads_miscounted],
    [BlindPromote.blind_promote], [PipelineSafety.stale_restore],
    [Lifecycle.long_request_skips_close].

    ** Fuel

    Recursion that is not structural carries fuel, and the theorems prove it
    sufficient: the eviction loops get one more than the entries of the two
    lists ([LruCore.evictMainLoop_spec]); a page loop of [Jobs.purgeLoop] one
    more than the uploads ([Jobs.pageAt_ends]); a breaker method a constant
    number of steps ([CircuitBreaker.methods_run_alone]); the schedules of
    [Multipart.drive] and [Promotion.drivePool] the measure every step
    decreases. Digits and spaces are consumed over the length of the string.

    ** Parameters

    The SDK client of S3, the text of SQL statements, [json.Unmarshal], reading
    the configuration file, the driver behind [sql.Open], the order a Go map is ranged over,
    the shuffle of a sample, the rounding of a timestamp by Postgres, the
    outcome of a system call that may fail, clocks. A hypothesis about one is
    documented behaviour, and witnesses instantiate it.

    ** Not modelled

    Two requests at the same time, other than by the machines above: a request
    is one step of the gateway, so races between handlers show only as the
    outcome a statement may have ([DriveIsolation.racing_registrations]), and
    [MetaStore.RecordErasure] has a machine of its own ([erasureStep]), as its
    statement reads a maximum that another call may be about to raise.
    The hit, miss and eviction counters of the caches, which wrap at 2^64 in the
    code, and the sum of the bytes used and the incoming body are unbounded. A
    statement of [Db] that failed had no effect: a commit whose reply is lost is
    left out.
    Context deadlines and request time-outs: a cancellation is an outcome a
    call may have. The HTTP connection itself, the HTML body of a redirect,
    percent-encoded paths, case folding of JSON field names beyond ASCII, log
    lines. What the limits of a pool of connections do; the SQL texts of
    embedded.go, which are the record types and constraints of [Db] and
    arguments of [Entry.EmbeddedMigrations]. The transport settings
    of the S3 client. fsync, and failures of the local provider's system calls
    other than missing and misplaced files.
*)
From Stdlib Require Export ZArith Lia Bool Permutation.
From Stdlib Require Export Strings.Byte.
From stdpp Require Export base option list gmap strings fin_maps sorting.

(** ** Scopes

    Arithmetic of the model is on [Z] (Go's [int], [int64], [uint64],
    [time.Duration]); the scope [go_scope] holds the monadic notations. *)
Declare Scope go_scope.
Delimit Scope go_scope with go.
Global Open Scope go_scope.
Global Open Scope Z_scope.

(** ** Record update

    [s <| f := v |>] is the Go assignment [s.f = v] on a copy of [s]. A
    record type becomes updatable by an instance of [Eta], its
    eta-expansion; the setter of a projection is obtained by abstracting
    the projection in it. *)
Class Eta (R : Type) : Type := eta_expand : R -> R.

Class Setter {R A : Type} (p : R -> A) : Type := upd : (A -> A) -> R -> R.

Ltac build_setter :=
  match goal with
  | |- @Setter ?R ?A ?p =>
      let i := constr:(_ : Eta R) in
      let e := eval hnf in i in
      match eval pattern p in e with
      | ?F _ => let t := eval cbv beta in (fun (g : A -> A) => F (fun r : R => g (p r))) in exact t
      end
  end.

Global Hint Extern 0 (Setter _) => build_setter : typeclass_instances.

Notation "s <| f := v |>" := (@upd _ _ f _ (fun _ => v) s)
  (at level 1, f at next level, left associativity,
   format "s  <| f  :=  v |>") : go_scope.

Global Arguments upd {R A} p {_} g r /.

(** ** Go errors

    An error value is a fresh error with its format string, one of the
    package-level sentinels, or an error that wraps another one
    ([fmt.Errorf] with the verb for wrapping). *)
Inductive sentinel : Type :=
(* pkg/blobstore *)
| BsNotFound | BsPreconditionFailed | BsThrottled | BsRetentionConflict
| BsVersionMismatch | BsChecksumMismatch | BsAmbiguousTimeout
(* pkg/hotcache *)
| HcCacheMiss
(* pkg/blobstore/s3 *)
| S3CircuitOpen
(* internal/metadata *)
| MdNotFound | MdConflict | MdNotCachable
(* standard library *)
| OsNotExist | SqlNoRows | CtxCanceled | CtxDeadlineExceeded | IoUnexpectedEOF.

#[export] Instance sentinel_eq_dec : EqDecision sentinel.
Proof. solve_decision. Defined.

Inductive error : Type :=
| ErrNew (msg : string)
| ErrSentinel (s : sentinel)
| ErrWrap (msg : string) (e : error).

#[export] Instance error_eq_dec : EqDecision error.
Proof. solve_decision. Defined.

(** [errors.Is] on a sentinel: walk the wrapped chain. *)
Fixpoint errors_Is (e : error) (t : sentinel) : bool :=
  match e with
  | ErrNew _ => false
  | ErrSentinel s => bool_decide (s = t)
  | ErrWrap _ e' => errors_Is e' t
  end.

(** ** Results and the state-and-error monad

    A Go function that returns [(T, error)] is a [result T]; one that also
    mutates a state [S] is an [M S T]. The state reached so far survives an
    error, as in Go. *)
Inductive result (A : Type) : Type :=
| Ok (a : A)
| Err (e : error).
Arguments Ok {A} a.
Arguments Err {A} e.

#[export] Instance result_eq_dec {A} `{EqDecision A} : EqDecision (result A).
Proof. solve_decision. Defined.

Definition is_Ok {A} (r : result A) : bool :=
  match r with Ok _ => true | Err _ => false end.

Definition M (S A : Type) : Type := S -> S * result A.

Definition ret {S A} (a : A) : M S A := fun s => (s, Ok a).
Definition throw {S A} (e : error) : M S A := fun s => (s, Err e).
Definition bind {S A B} (m : M S A) (k : A -> M S B) : M S B := fun s =>
  match m s with
  | (s', Ok a) => k a s'
  | (s', Err e) => (s', Err e)
  end.
(** [try m] hands both outcomes of [m] to the caller ([v, err := m()]). *)
Definition try {S A} (m : M S A) : M S (result A) := fun s =>
  let (s', r) := m s in (s', Ok r).
Definition lift {S A} (r : result A) : M S A := fun s => (s, r).
Definition gets {S A} (f : S -> A) : M S A := fun s => (s, Ok (f s)).
Definition modify {S} (f : S -> S) : M S unit := fun s => (f s, Ok tt).
(** [wrap msg m]: on error return [fmt.Errorf(msg, err)]. *)
Definition wrap {S A} (msg : string) (m : M S A) : M S A := fun s =>
  match m s with
  | (s', Ok a) => (s', Ok a)
  | (s', Err e) => (s', Err (ErrWrap msg e))
  end.
(** A guard clause: [if b { return err }]. *)
Definition fail_if {S} (b : bool) (e : error) : M S unit :=
  if b then throw e else ret tt.

#[export] Instance M_ret S : MRet (M S) := fun A => @ret S A.
#[export] Instance M_bind S : MBind (M S) := fun A B k m => @bind S A B m k.

(** ** Tactics *)

(** Destruct the scrutinee of a [match] in the goal or a hypothesis. *)
Ltac case_goal :=
  match goal with
  | |- context [match ?x with _ => _ end] => destruct x eqn:?
  end.
Ltac case_hyp :=
  match goal with
  | H : context [match ?x with _ => _ end] |- _ => destruct x eqn:?
  end.

(** Turn boolean tests of the code into propositions. *)
Ltac bool_hyps :=
  repeat match goal with
  | H : (_ && _)%bool = true |- _ => apply andb_true_iff in H as [? ?]
  | H : (_ || _)%bool = false |- _ => apply orb_false_iff in H as [? ?]
  | H : negb _ = true |- _ => apply negb_true_iff in H
  | H : negb _ = false |- _ => apply negb_false_iff in H
  | H : (_ =? _)%Z = true |- _ => apply Z.eqb_eq in H
  | H : (_ =? _)%Z = false |- _ => apply Z.eqb_neq in H
  | H : (_ <? _)%Z = true |- _ => apply Z.ltb_lt in H
  | H : (_ <? _)%Z = false |- _ => apply Z.ltb_ge in H
  | H : (_ <=? _)%Z = true |- _ => apply Z.leb_le in H
  | H : (_ <=? _)%Z = false |- _ => apply Z.leb_gt in H
  | H : (_ >? _)%Z = true |- _ => rewrite Z.gtb_ltb in H
  | H : (_ >? _)%Z = false |- _ => rewrite Z.gtb_ltb in H
  | H : (_ >=? _)%Z = true |- _ => rewrite Z.geb_leb in H
  | H : (_ >=? _)%Z = false |- _ => rewrite Z.geb_leb in H
  | H : bool_decide _ = true |- _ => apply bool_decide_eq_true in H
  | H : bool_decide _ = false |- _ => apply bool_decide_eq_false in H
  | H : String.eqb _ _ = true |- _ => apply String.eqb_eq in H
  | H : String.eqb _ _ = false |- _ => apply String.eqb_neq in H
  end.

(** Unfold the monad and compute. *)
Ltac run := unfold mret, M_ret, mbind, M_bind, bind, ret, throw, try, lift, gets, modify, wrap, fail_if in *; cbn in *.

(** Unfold the monad in the goal only, without reducing anything else. *)
Ltac unroll := unfold fail_if, mret, M_ret, mbind, M_bind, bind, ret, throw, try, lift, gets, modify;
  cbv beta iota zeta.

(** ** Lemmas on the monad *)
Lemma bind_Ok_inv {S A B} (m : M S A) (k : A -> M S B) s s' b :
  bind m k s = (s', Ok b) ->
  exists a s1, m s = (s1, Ok a) /\ k a s1 = (s', Ok b).
Proof.
  unfold bind. destruct (m s) as [s1 [a|e]]; [by eauto | by intros [=]].
Qed.

(** Both outcomes of the first part of a sequence. *)
Lemma bind_cases {S A B} (m : M S A) (k : A -> M S B) s s' res :
  bind m k s = (s', res) ->
  (exists e, m s = (s', Err e) /\ res = Err e) \/ (exists a s1, m s = (s1, Ok a) /\ k a s1 = (s', res)).
Proof.
  unfold bind. destruct (m s) as [s1 [a|e]]; [by eauto|]. intros [= <- <-]. by eauto.
Qed.

Lemma fail_if_Ok_inv {S} (b : bool) e (s s' : S) u :
  fail_if b e s = (s', Ok u) -> b = false /\ s' = s.
Proof. destruct b; cbn; [by intros [=] | by intros [= <- _]]. Qed.

(** ** Lemmas on lists *)
Lemma list_filter_all {A} (P : A -> Prop) `{forall x, Decision (P x)} (l : list A) :
  Forall P l -> filter P l = l.
Proof.
  induction 1 as [|x l Hx _ IH]; [done|]. rewrite filter_cons_True by done. by rewrite IH.
Qed.

Lemma elem_of_rev {A} (x : A) (l : list A) : x ∈ rev l <-> x ∈ l.
Proof. by rewrite !list_elem_of_In, <- in_rev. Qed.

(** Deleting at an index past the end leaves the list as it is. *)
Lemma delete_ge {A} (l : list A) (i : nat) : (length l <= i)%nat -> delete i l = l.
Proof. revert i. induction l as [|x l IH]; intros [|i]; cbn; try done; [lia|]. intros Hi. f_equal. apply IH. lia. Qed.

(** A run from the outcome it has. *)
Lemma run_eq {S A} (x : S * A) r : x.2 = r -> x = (x.1, r).
Proof. by intros <-; destruct x. Qed.

Lemma list_filter_ext_in {A} (P Q : A -> Prop) `{forall x, Decision (P x), forall x, Decision (Q x)} (l : list A) :
  (forall x, x ∈ l -> P x <-> Q x) -> filter P l = filter Q l.
Proof.
  induction l as [|x l IH]; [done|]. intros Hx. rewrite !filter_cons, IH by (intros y Hy; apply Hx; set_solver).
  assert (Hi : P x <-> Q x) by (apply Hx; set_solver).
  destruct (decide (P x)), (decide (Q x)); tauto || done.
Qed.

(** The sum of a measure over a list. *)
Definition sumOver {A} (f : A -> Z) (l : list A) : Z := foldr (fun x acc => f x + acc) 0 l.
Lemma sumOver_cons {A} (f : A -> Z) x l : sumOver f (x :: l) = f x + sumOver f l.
Proof. done. Qed.
Lemma sumOver_insert {A} (f : A -> Z) l i x x0 : l !! i = Some x0 -> sumOver f (<[i := x]> l) = sumOver f l - f x0 + f x.
Proof.
  revert i. induction l as [|y l IH]; intros [|i]; try done; cbn [lookup list_lookup].
  - intros [= ->]. change (f x + sumOver f l = f x0 + sumOver f l - f x0 + f x). lia.
  - intros Hi. change (f y + sumOver f (<[i := x]> l) = f y + sumOver f l - f x0 + f x). rewrite (IH _ Hi). lia.
Qed.
Lemma sumOver_replicate {A} (f : A -> Z) n x : sumOver f (replicate n x) = Z.of_nat n * f x.
Proof. induction n as [|n IH]; [done|]. cbn [replicate]. rewrite sumOver_cons, IH. lia. Qed.
Lemma sumOver_nonneg {A} (f : A -> Z) l : (forall x, 0 <= f x) -> 0 <= sumOver f l.
Proof. intros Hf. induction l as [|x l IH]; [done|]. rewrite sumOver_cons. specialize (Hf x). lia. Qed.
Lemma sumOver_member {A} (f : A -> Z) l i x : (forall x, 0 <= f x) -> l !! i = Some x -> f x <= sumOver f l.
Proof.
  intros Hf. revert i. induction l as [|y l IH]; intros [|i] Hi; try done; rewrite sumOver_cons.
  - injection Hi as ->. pose proof (sumOver_nonneg f l Hf). lia.
  - specialize (Hf y). specialize (IH i Hi). lia.
Qed.
