(* ===== verification/Sha256.v ===== *)
(** * [crypto/sha256]

    SHA-256 (FIPS 180-4) on 32-bit words, executable, so that every
    checksum the source computes is computed by the model as well. The
    theorems of the development treat [Sum256] as a function of the bytes
    and never unfold it. *)
From S2P Require Import Prelude GoStd.
Local Open Scope Z_scope.

Definition w32 (z : Z) : Z := Z.land z (2 ^ 32 - 1).
Definition rotr (n x : Z) : Z := Z.lor (Z.shiftr x n) (w32 (Z.shiftl x (32 - n))).

(** The first [n] primes from [p] on, by trial division. *)
Fixpoint primes_from (fuel : nat) (p : Z) (acc : list Z) (n : nat) : list Z :=
  match fuel with
  | O => acc
  | S fuel' =>
      if (n <=? length acc)%nat then acc
      else if existsb (fun q => p mod q =? 0) acc then primes_from fuel' (p + 1) acc n
      else primes_from fuel' (p + 1) (acc ++ [p]) n
  end.

(** The integer cube root below [2 ^ bits], bit by bit. *)
Fixpoint cbrt_bits (bits : nat) (x r : Z) : Z :=
  match bits with
  | O => r
  | S b =>
      let r' := r + 2 ^ Z.of_nat b in
      cbrt_bits b x (if r' ^ 3 <=? x then r' else r)
  end.

(** The round constants are the first 32 fraction bits of the cube roots
    of the first 64 primes, the initial hash those of the square roots of
    the first eight. *)
Definition K256 : list Z := Eval vm_compute in
  map (fun p => w32 (cbrt_bits 36 (p * 2 ^ 96) 0)) (primes_from 400 2 [] 64).

Definition H256 : list Z := Eval vm_compute in
  map (fun p => w32 (Z.sqrt (p * 2 ^ 64))) (primes_from 400 2 [] 8).

Definition be32 (z : Z) : list Z :=
  [Z.land (Z.shiftr z 24) 255; Z.land (Z.shiftr z 16) 255; Z.land (Z.shiftr z 8) 255; Z.land z 255].

(** Padding: a one bit, zeros, the 64-bit length. *)
Definition sha_pad (m : list Z) : list Z :=
  let l := Z.of_nat (length m) in
  let k := (55 - l) mod 64 in
  m ++ 128 :: repeat 0 (Z.to_nat k) ++ be32 (Z.shiftr (8 * l) 32) ++ be32 (w32 (8 * l)).

Fixpoint words (m : list Z) : list Z :=
  match m with
  | a :: b :: c :: d :: m' => (a * 2 ^ 24 + b * 2 ^ 16 + c * 2 ^ 8 + d) :: words m'
  | _ => []
  end.

(** Message schedule, most recent word first. *)
Fixpoint schedule (n : nat) (w : list Z) : list Z :=
  match n with
  | O => w
  | S n' =>
      let g i := nth i w 0 in
      let s0 := let x := g 14%nat in Z.lxor (Z.lxor (rotr 7 x) (rotr 18 x)) (Z.shiftr x 3) in
      let s1 := let x := g 1%nat in Z.lxor (Z.lxor (rotr 17 x) (rotr 19 x)) (Z.shiftr x 10) in
      schedule n' (w32 (g 15%nat + s0 + g 6%nat + s1) :: w)
  end.

Definition sha_round (st : list Z) (kw : Z * Z) : list Z :=
  match st with
  | [a; b; c; d; e; f; g; h] =>
      let s1 := Z.lxor (Z.lxor (rotr 6 e) (rotr 11 e)) (rotr 25 e) in
      let ch := Z.lxor (Z.land e f) (Z.land (Z.lxor e (2 ^ 32 - 1)) g) in
      let t1 := w32 (h + s1 + ch + fst kw + snd kw) in
      let s0 := Z.lxor (Z.lxor (rotr 2 a) (rotr 13 a)) (rotr 22 a) in
      let mj := Z.lxor (Z.lxor (Z.land a b) (Z.land a c)) (Z.land b c) in
      let t2 := w32 (s0 + mj) in
      [w32 (t1 + t2); a; b; c; w32 (d + t1); e; f; g]
  | _ => st
  end.

Definition sha_block (h : list Z) (blk : list Z) : list Z :=
  let w := rev (schedule 48 (rev blk)) in
  zip_with (fun x y => w32 (x + y)) h (foldl sha_round h (zip K256 w)).

Fixpoint sha_blocks (fuel : nat) (h : list Z) (w : list Z) : list Z :=
  match fuel, w with
  | O, _ | _, [] => h
  | S fuel', _ => sha_blocks fuel' (sha_block h (take 16 w)) (drop 16 w)
  end.

Definition byte_of_Z (z : Z) : byte :=
  match Byte.of_N (Z.to_N z) with Some b => b | None => x00 end.

(** [sha256.Sum256(data)]. *)
Definition Sum256 (data : bytes) : bytes :=
  let w := words (sha_pad (map (fun b => Z.of_N (Byte.to_N b)) data)) in
  map byte_of_Z (concat (map be32 (sha_blocks (length w) H256 w))).

(** [hex.EncodeToString(sum[:])], the form every checksum has in the source. *)
Definition sha256_hex (data : bytes) : string := hex_encode (Sum256 data).

Definition bytes_of_string (s : string) : bytes := String.list_byte_of_string s.

Example Sum256_empty :
  sha256_hex [] = "e3b0c44298fc1c149afbf4c8996fb92427ae41e4649b934ca495991b7852b855".
Proof. vm_compute. reflexivity. Qed.

Example Sum256_abc :
  sha256_hex (bytes_of_string "abc")
  = "ba7816bf8f01cfea414140de5dae2223b00361a396177a9cb410ff61f20015ad".
Proof. vm_compute. reflexivity. Qed.

(** The checksum is never the empty string: the tests [sum != ""] of the
    source separate "no checksum recorded" from every real one. *)
Lemma sha_round_length st kw : length st = 8%nat -> length (sha_round st kw) = 8%nat.
Proof. do 8 (destruct st as [|? st]; [done|]). by destruct st. Qed.

Lemma sha_block_length h blk : length h = 8%nat -> length (sha_block h blk) = 8%nat.
Proof.
  intros Hh. unfold sha_block. rewrite length_zip_with, Hh.
  enough (length (foldl sha_round h (zip K256 (rev (schedule 48 (rev blk))))) = 8%nat) by lia.
  generalize (zip K256 (rev (schedule 48 (rev blk)))) as l. intros l. revert h Hh.
  induction l as [|kw l IH]; intros h Hh; [done|]. cbn [foldl].
  apply IH. by apply sha_round_length.
Qed.

Lemma sha_blocks_length n h w : length h = 8%nat -> length (sha_blocks n h w) = 8%nat.
Proof.
  revert h w. induction n as [|n IH]; intros h w Hh; destruct w; try done.
  cbn [sha_blocks]. apply IH. by apply sha_block_length.
Qed.

Lemma Sum256_length data : length (Sum256 data) = 32%nat.
Proof.
  unfold Sum256. rewrite length_map.
  set (h := sha_blocks _ _ _). assert (Hh : length h = 8%nat) by by apply sha_blocks_length.
  do 8 (destruct h as [|? h]; [done|]). by destruct h.
Qed.

Lemma sha256_hex_nonempty data : sha256_hex data <> EmptyString.
Proof.
  unfold sha256_hex. pose proof (Sum256_length data).
  by destruct (Sum256 data).
Qed.
