(* ===== verification/BlobStore.v ===== *)
(** * pkg/blobstore/blobstore.go

    The provider-agnostic data types and the [BlobStore] interface. A Go
    string type with named constants ([RetentionMode],
    [BucketVersioningState]) stays a string: its zero value [""] is a value
    of the program, and differs from ["NONE"]. *)
From S2P Require Import Prelude GoStd Sha256.
Local Open Scope Z_scope.

Record ObjectRef := mkObjectRef { or_Key : string }.

Record VersionedObjectRef := mkVersionedObjectRef { vr_Key : string; vr_VersionID : string }.

#[export] Instance VersionedObjectRef_eq_dec : EqDecision VersionedObjectRef.
Proof. solve_decision. Defined.

Definition RetentionMode : Type := string.
Definition RetentionNone : RetentionMode := "NONE".
Definition RetentionGovernance : RetentionMode := "GOVERNANCE".
Definition RetentionCompliance : RetentionMode := "COMPLIANCE".

Record RetentionSpec := mkRetentionSpec {
  rs_Mode : RetentionMode;
  rs_RetainUntil : Time;
  rs_LegalHold : bool
}.

(** [RetentionSpec{}], the zero value. *)
Definition zeroRetentionSpec : RetentionSpec := mkRetentionSpec "" zeroTime false.

Record RetentionState := mkRetentionState {
  rt_Mode : RetentionMode;
  rt_RetainUntil : Time;
  rt_LegalHold : bool
}.
#[export] Instance eta_RetentionState : Eta RetentionState :=
  fun r => mkRetentionState (rt_Mode r) (rt_RetainUntil r) (rt_LegalHold r).
#[export] Instance RetentionState_eq_dec : EqDecision RetentionState.
Proof. solve_decision. Defined.

Definition zeroRetentionState : RetentionState := mkRetentionState "" zeroTime false.

Definition BucketVersioningState : Type := string.
Definition VersioningNeverEnabled : BucketVersioningState := "NEVER_ENABLED".
Definition VersioningEnabled : BucketVersioningState := "ENABLED".
Definition VersioningSuspendedVersionAware : BucketVersioningState := "SUSPENDED_VERSION_AWARE".

(** The body is [None] when the Go field is a nil [io.Reader]. *)
Record PutRequest := mkPutRequest {
  pq_Key : string;
  pq_Body : option reader;
  pq_ExpectedLength : Z;
  pq_ChecksumSHA256 : string;
  pq_ContentType : string;
  pq_IdempotencyToken : string;
  pq_Region : string;
  pq_DurabilityClass : string;
  pq_ProviderVersionID : string;
  pq_Retention : RetentionSpec;
  pq_IfNoneMatch : bool
}.
#[export] Instance eta_PutRequest : Eta PutRequest :=
  fun r => mkPutRequest (pq_Key r) (pq_Body r) (pq_ExpectedLength r) (pq_ChecksumSHA256 r)
    (pq_ContentType r) (pq_IdempotencyToken r) (pq_Region r) (pq_DurabilityClass r)
    (pq_ProviderVersionID r) (pq_Retention r) (pq_IfNoneMatch r).

Definition zeroPutRequest : PutRequest :=
  mkPutRequest "" None 0 "" "" "" "" "" "" zeroRetentionSpec false.

Record PutResult := mkPutResult {
  pr_Key : string;
  pr_VersionID : string;
  pr_VersioningState : BucketVersioningState;
  pr_Retention : RetentionState;
  pr_WriteTime : Time;
  pr_Size : Z;
  pr_ChecksumSHA256 : string;
  pr_WriteResultHash : string
}.

Record ObjectMeta := mkObjectMeta {
  om_Key : string;
  om_VersionID : string;
  om_VersioningState : BucketVersioningState;
  om_Size : Z;
  om_ChecksumSHA256 : string;
  om_Retention : RetentionState;
  om_WriteTime : Time
}.
#[export] Instance eta_ObjectMeta : Eta ObjectMeta :=
  fun m => mkObjectMeta (om_Key m) (om_VersionID m) (om_VersioningState m) (om_Size m)
    (om_ChecksumSHA256 m) (om_Retention m) (om_WriteTime m).

Record ByteRange := mkByteRange { br_Start : Z; br_End : Z }.

Record GetRequest := mkGetRequest { gq_Ref : VersionedObjectRef; gq_Range : option ByteRange }.

Record MultipartRequest := mkMultipartRequest {
  mq_Key : string;
  mq_ContentType : string;
  mq_ChecksumSHA256 : string;
  mq_Region : string;
  mq_DurabilityClass : string;
  mq_Retention : RetentionSpec;
  mq_IdempotencyToken : string
}.

Record MultipartUpload := mkMultipartUpload { mu_Key : string; mu_UploadID : string }.
#[export] Instance MultipartUpload_eq_dec : EqDecision MultipartUpload.
Proof. solve_decision. Defined.

Record SignPartRequest := mkSignPartRequest {
  sp_Upload : MultipartUpload; sp_PartNumber : Z; sp_ExpectedLen : Z }.

Record SignedRequest := mkSignedRequest {
  sr_URL : string; sr_Headers : gmap string string; sr_ExpiresAt : Time }.

Record UploadPartRequest := mkUploadPartRequest {
  uq_Upload : MultipartUpload; uq_PartNumber : Z; uq_Body : option reader }.

Record UploadedPart := mkUploadedPart {
  up_PartNumber : Z; up_ChecksumSHA256 : string; up_Size : Z }.

Record CompletedPart := mkCompletedPart {
  cp_PartNumber : Z; cp_ChecksumSHA256 : string; cp_Size : Z }.

Record CompleteRequest := mkCompleteRequest {
  cq_Upload : MultipartUpload; cq_Parts : list CompletedPart; cq_Retention : RetentionSpec }.

Record CopyWithinProviderRequest := mkCopyWithinProviderRequest {
  cw_Src : VersionedObjectRef; cw_DstKey : string; cw_Retention : RetentionSpec }.

Record RetentionUpdate := mkRetentionUpdate {
  ru_Ref : VersionedObjectRef;
  ru_Mode : RetentionMode;
  ru_RetainUntil : Time;
  ru_ClearRetention : bool
}.

Record ProviderCapabilities := mkProviderCapabilities {
  ProviderVersioning : bool;
  DeleteAllVersions : bool;
  ConditionalPut : bool;
  NativeSHA256Checksum : bool;
  S3ObjectLock : bool;
  PerVersionRetentionGet : bool;
  PerVersionRetentionExtend : bool;
  PerVersionRetentionClear : bool;
  LegalHoldSetClear : bool;
  GovernanceBypassDenied : bool;
  ProviderSpecificPrefixLock : bool;
  Lifecycle : bool;
  EventNotifications : bool;
  Replication : bool;
  ExactJurisdiction : string;
  MaxObjectSize : Z;
  MaxPartSize : Z;
  MaxParts : Z;
  MinPartBytes : Z;
  ChecksumOnComplete : bool;
  ListAndAbortMultipart : bool;
  ConfigurableCORS : bool;
  BrowserPresignedUpload : bool;
  SignedHeaderSet : string;
  ReusableGrant : bool;
  PathStyleAddressing : bool;
  VirtualHostAddressing : bool;
  SupportedSignatureVersions : list string;
  PrivateBucketControls : bool;
  pc_BucketVersioningState : BucketVersioningState
}.
#[export] Instance eta_ProviderCapabilities : Eta ProviderCapabilities :=
  fun c => mkProviderCapabilities (ProviderVersioning c) (DeleteAllVersions c) (ConditionalPut c)
    (NativeSHA256Checksum c) (S3ObjectLock c) (PerVersionRetentionGet c)
    (PerVersionRetentionExtend c) (PerVersionRetentionClear c) (LegalHoldSetClear c)
    (GovernanceBypassDenied c) (ProviderSpecificPrefixLock c) (Lifecycle c)
    (EventNotifications c) (Replication c) (ExactJurisdiction c) (MaxObjectSize c)
    (MaxPartSize c) (MaxParts c) (MinPartBytes c) (ChecksumOnComplete c)
    (ListAndAbortMultipart c) (ConfigurableCORS c) (BrowserPresignedUpload c)
    (SignedHeaderSet c) (ReusableGrant c) (PathStyleAddressing c) (VirtualHostAddressing c)
    (SupportedSignatureVersions c) (PrivateBucketControls c) (pc_BucketVersioningState c).

(** [ProviderCapabilities{}]. *)
Definition zeroCapabilities : ProviderCapabilities :=
  mkProviderCapabilities false false false false false false false false false false false false
    false false "" 0 0 0 0 false false false false "" false false false [] false "".

Record ListObjectsRequest := mkListObjectsRequest {
  lo_Prefix : string; lo_Cursor : string; lo_MaxKeys : Z }.
Record ObjectPage := mkObjectPage {
  op_Objects : list ObjectMeta; op_NextCursor : string; op_IsTruncated : bool }.
Record ListVersionsRequest := mkListVersionsRequest {
  lv_Key : string; lv_Cursor : string; lv_MaxKeys : Z }.
Record VersionPage := mkVersionPage {
  vp_Versions : list ObjectMeta; vp_NextCursor : string; vp_IsTruncated : bool }.
Record ListUploadsRequest := mkListUploadsRequest {
  lu_Prefix : string; lu_Cursor : string; lu_MaxKeys : Z }.
Record UploadPage := mkUploadPage { ul_Uploads : list MultipartUpload; ul_NextCursor : string }.
Record PartPage := mkPartPage { pp_Parts : list CompletedPart; pp_NextCursor : string }.
Record BatchDeleteError := mkBatchDeleteError { be_Ref : VersionedObjectRef; be_Error : string }.
Record BatchDeleteResult := mkBatchDeleteResult {
  bd_Deleted : list VersionedObjectRef; bd_Errors : list BatchDeleteError }.

(** ** The interface

    [Store] is the data-plane subset ([internal/blobio], type [Store]),
    over a provider state [St]. [now] is the wall clock the call reads. A
    [Put] consumes its body, which its caller may observe: [st_PutReads] is
    the number of bytes of the body the call has read. *)
Class Store (St : Type) := {
  st_Put : Time -> PutRequest -> M St PutResult;
  st_PutReads : Time -> PutRequest -> St -> Z;
  st_Get : Time -> GetRequest -> M St (reader * ObjectMeta);
  st_Head : Time -> ObjectRef -> M St ObjectMeta;
  st_CreateMultipart : Time -> MultipartRequest -> M St MultipartUpload;
  st_UploadPart : Time -> UploadPartRequest -> M St UploadedPart;
  st_CompleteMultipart : Time -> CompleteRequest -> M St PutResult;
  st_AbortMultipart : MultipartUpload -> M St unit
}.

(** The whole interfaces [BlobStore] and [BlobInventory] of an adapter; an
    adapter that reads no clock ignores the time it is given. *)
Class BlobStore (St : Type) := {
  bl_Store :: Store St;
  bl_Delete : Time -> ObjectRef -> M St unit;
  bl_PurgeAllVersions : Time -> ObjectRef -> M St unit;
  bl_SignUploadPart : Time -> SignPartRequest -> M St SignedRequest;
  bl_CopyWithinProvider : Time -> CopyWithinProviderRequest -> M St PutResult;
  bl_GetRetention : Time -> VersionedObjectRef -> M St RetentionState;
  bl_UpdateRetention : Time -> RetentionUpdate -> M St RetentionState;
  bl_SetLegalHold : Time -> VersionedObjectRef -> bool -> M St RetentionState;
  bl_Capabilities : ProviderCapabilities
}.
Class BlobInventory (St : Type) := {
  iv_ListObjects : Time -> ListObjectsRequest -> M St ObjectPage;
  iv_ListObjectVersions : Time -> ListVersionsRequest -> M St VersionPage;
  iv_DeleteVersion : Time -> VersionedObjectRef -> M St unit;
  iv_ListMultipartUploads : Time -> ListUploadsRequest -> M St UploadPage;
  iv_ListParts : Time -> MultipartUpload -> string -> M St PartPage;
  iv_DeleteBatch : Time -> list VersionedObjectRef -> M St BatchDeleteResult
}.

(** What a store promises to its clients. [store_inv t s]: [s] is
    consistent and no write of it is later than [t]. [stored s k b]: [b] is
    the current body of [k], with its length and SHA-256 recorded.
    [staged s u m]: [u] is an open upload whose parts are [m]. [good_key]
    are the keys the promise covers. Every call, whatever its outcome, keeps
    the stored bodies of the keys it is not about; a write needs a clock
    that has moved on since the last one. A store that keeps the laws answers
    the reads of the bodies it holds; a HEAD need not give a checksum, and
    [head_sums] is the further promise that it does. *)
Class StoreLaws (St : Type) `{Store St} := {
  good_key : string -> Prop;
  store_inv : Time -> St -> Prop;
  stored : St -> string -> bytes -> Prop;
  staged : St -> MultipartUpload -> gmap Z bytes -> Prop;
  store_time : forall t t' s, t <= t' -> store_inv t s -> store_inv t' s;
  store_Put : forall t now req s s' res, store_inv t s -> t < now -> good_key (pq_Key req) ->
    st_Put now req s = (s', res) ->
    store_inv now s' /\ (forall k b, k <> pq_Key req -> stored s k b -> stored s' k b) /\
    (forall r b, res = Ok r -> pq_Body req = Some (bytes_NewReader b) ->
       stored s' (pq_Key req) b /\ pr_Size r = len b /\ pr_ChecksumSHA256 r = sha256_hex b
       /\ st_PutReads now req s = len b);
  store_Get_any : forall t now req s s' res, store_inv t s -> st_Get now req s = (s', res) ->
    store_inv t s' /\ (forall k b, stored s k b -> stored s' k b);
  store_Get : forall t now s k b, store_inv t s -> stored s k b ->
    exists s' md, st_Get now (mkGetRequest (mkVersionedObjectRef k "") None) s
        = (s', Ok (bytes_NewReader b, md)) /\ om_ChecksumSHA256 md = sha256_hex b /\ om_Size md = len b;
  store_Head : forall t now s s' k res, store_inv t s -> good_key k ->
    st_Head now (mkObjectRef k) s = (s', res) ->
    store_inv t s' /\ (forall k' b, stored s k' b -> stored s' k' b) /\
    (forall md, res = Ok md -> exists b, stored s k b /\ om_Size md = len b
       /\ (om_ChecksumSHA256 md = sha256_hex b \/ om_ChecksumSHA256 md = ""));
  store_CreateMultipart : forall t now req s s' res, store_inv t s -> good_key (mq_Key req) ->
    st_CreateMultipart now req s = (s', res) ->
    store_inv t s' /\ (forall k b, stored s k b -> stored s' k b) /\
    (forall u, res = Ok u -> mu_Key u = mq_Key req /\ staged s' u ∅);
  store_UploadPart : forall t now u n b m s s' res, store_inv t s -> staged s u m ->
    st_UploadPart now (mkUploadPartRequest u n (Some (bytes_NewReader b))) s = (s', res) ->
    store_inv t s' /\ (forall k b', stored s k b' -> stored s' k b') /\
    match res with
    | Ok part => staged s' u (<[n := b]> m) /\ up_PartNumber part = n
    | Err _ => exists m', staged s' u m'
    end;
  store_CompleteMultipart : forall t now u parts spec m s s' res, store_inv t s -> t < now ->
    staged s u m -> st_CompleteMultipart now (mkCompleteRequest u parts spec) s = (s', res) ->
    store_inv now s' /\ (forall k b, k <> mu_Key u -> stored s k b -> stored s' k b) /\
    match res with
    | Ok r => forall datas,
        Forall2 (fun p d => m !! cp_PartNumber p = Some d) parts datas ->
        stored s' (mu_Key u) (concat datas) /\ pr_Size r = len (concat datas)
        /\ pr_ChecksumSHA256 r = sha256_hex (concat datas)
    | Err _ => exists m', staged s' u m'
    end;
  store_AbortMultipart : forall t u m s s' res, store_inv t s -> staged s u m ->
    st_AbortMultipart u s = (s', res) ->
    store_inv t s' /\ (forall k b, stored s k b -> stored s' k b)
}.

(** A HEAD of the store reports a checksum. The local provider does; the S3
    adapter does not, as it never sets [ChecksumMode] on its HEAD. *)
Definition head_sums {St} `{StoreLaws St} : Prop := forall t now s s' k md,
  store_inv t s -> good_key k -> st_Head now (mkObjectRef k) s = (s', Ok md) -> om_ChecksumSHA256 md <> "".
