(* ===== verification/Contract.v ===== *)
(** * pkg/contracttest/contracttest.go

    The conformance suite every adapter has to pass, over the interfaces
    [BlobStore] and [BlobInventory]. A test reports failures and goes on, or
    stops; the next test runs in any case, on the state the last one left. *)
From S2P Require Import Prelude GoStd Sha256 BlobStore.
Local Open Scope Z_scope.

(** [bytes.Equal]. *)
#[export] Instance byte_eq_dec : EqDecision byte := Byte.byte_eq_dec.
Definition bytes_Equal (a b : bytes) : bool := bool_decide (a = b).

(** ** [testing.T]

    [te_calls] counts the readings of the clock, [te_failures] the reports. *)
Record testState (St : Type) := mkTestState {
  te_store : St; te_calls : nat; te_failures : list string }.
Arguments mkTestState {St}.  Arguments te_store {St}.  Arguments te_calls {St}.  Arguments te_failures {St}.

(** A part of a test: [None] when the test has stopped. *)
Definition T (St A : Type) : Type := testState St -> testState St * option A.
#[export] Instance T_ret St : MRet (T St) := fun A a s => (s, Some a).
#[export] Instance T_bind St : MBind (T St) := fun A B k m s =>
  match m s with (s', Some a) => k a s' | (s', None) => (s', None) end.

Definition Errorf {St} (msg : string) : T St unit := fun s =>
  (mkTestState (te_store s) (te_calls s) (te_failures s ++ [msg]), Some tt).
Definition Fatalf {St A} (msg : string) : T St A := fun s =>
  (mkTestState (te_store s) (te_calls s) (te_failures s ++ [msg]), None).
Definition errorIf {St} (b : bool) (msg : string) : T St unit := if b then Errorf msg else mret tt.
(** [if err != nil { t.Fatalf(..) }]. *)
Definition orFatal {St A} (msg : string) (r : result A) : T St A :=
  match r with Ok a => mret a | Err _ => Fatalf msg end.
(** [t.Run]. *)
Definition Run {St} (test : T St unit) : T St unit := fun s => ((test s).1, Some tt).

Section suite.
Context {St : Type} `{!BlobStore St} `{!BlobInventory St} (clock : nat -> Time).
Notation TT := (T St).

(** [Adapter]: the store and its inventory are one state. *)
Record Adapter := mkAdapter { SkipMultipart : bool; SkipRetention : bool }.

(** A call of the adapter, which reads the clock, and [time.Now()]. *)
Definition call {A} (f : Time -> M St A) : TT (result A) := fun s =>
  let (st, r) := f (clock (te_calls s)) (te_store s) in
  (mkTestState st (S (te_calls s)) (te_failures s), Some r).
Definition now : TT Time := fun s =>
  (mkTestState (te_store s) (S (te_calls s)) (te_failures s), Some (clock (te_calls s))).

Definition randomKey (prefix : string) : string := prefix +:+ "-" +:+ sha256_hex (bytes_of_string prefix).
Definition ref (key : string) : ObjectRef := mkObjectRef key.
Definition latest (key : string) : VersionedObjectRef := mkVersionedObjectRef key "".
Definition text (s : string) : bytes := bytes_of_string s.
Definition octets : string := "application/octet-stream".

Definition putObject (key : string) (body : bytes) : TT (result PutResult) :=
  call (fun t => st_Put t (mkPutRequest key (Some (bytes_NewReader body)) (len body) (sha256_hex body) octets key
    "" "" "" zeroRetentionSpec false)).

(** [if err == nil { .. } else if !errors.Is(err, e) { .. }]: the two reports. *)
Definition expectErr {A} (r : result A) (e : sentinel) (succeeded other : string) : TT unit :=
  match r with
  | Ok _ => Errorf succeeded
  | Err x => errorIf (negb (errors_Is x e)) other
  end.

(** A read to the end of the body: [Get], [io.ReadAll]. *)
Definition getAll (req : GetRequest) (getMsg : string) : TT (bytes * ObjectMeta) :=
  res ← call (fun t => st_Get t req);
  '(r, meta) ← orFatal getMsg res;
  got ← orFatal "ReadAll: %v" (ReadAll r);
  mret (got, meta).

(** ** The tests *)
Definition testPutGetHeadDelete : TT unit :=
  let key := randomKey "putget" in
  let body := text "hello kchat drive contract test" in
  res ← putObject key body;
  res ← orFatal "Put: %v" res;
  errorIf (negb (bool_decide (pr_Key res = key))) "Put result key = %q, want %q";;
  errorIf (negb (pr_Size res =? len body)) "Put result size = %d, want %d";;
  errorIf (bool_decide (pr_VersionID res = "")) "Put result version_id is empty; adapter should be version-aware";;
  errorIf (bool_decide (pr_WriteResultHash res = "")) "Put result write_result_hash is empty";;
  meta ← call (fun t => st_Head t (ref key));
  meta ← orFatal "Head: %v" meta;
  errorIf (negb (om_Size meta =? len body)) "Head size = %d, want %d";;
  '(got, getMeta) ← getAll (mkGetRequest (latest key) None) "Get: %v";
  errorIf (negb (bytes_Equal got body)) "Get body mismatch: got %q, want %q";;
  errorIf (negb (om_Size getMeta =? len body)) "Get meta size = %d, want %d";;
  del ← call (fun t => bl_Delete t (ref key));
  orFatal "Delete: %v" del;;
  gone ← call (fun t => st_Head t (ref key));
  expectErr gone BsNotFound "Head after Delete succeeded; expected not-found" "Head after Delete returned %v, want ErrNotFound".

Definition testConditionalPut : TT unit :=
  let key := randomKey "cond" in
  res ← putObject key (text "first");
  orFatal "Put first: %v" res;;
  again ← call (fun t => st_Put t (mkPutRequest key (Some (bytes_NewReader (text "second"))) 5 (sha256_hex (text "second"))
    "" "" "" "" "" zeroRetentionSpec true));
  match again with
  | Ok _ => Fatalf "Put with IfNoneMatch on existing key succeeded; expected ErrPreconditionFailed"
  | Err e => errorIf (negb (errors_Is e BsPreconditionFailed)) "Put with IfNoneMatch returned %v, want ErrPreconditionFailed"
  end.

Definition testByteRange : TT unit :=
  let key := randomKey "range" in
  res ← putObject key (text "0123456789abcdef");
  orFatal "Put: %v" res;;
  '(got, _) ← getAll (mkGetRequest (latest key) (Some (mkByteRange 4 7))) "Get range: %v";
  errorIf (negb (bytes_Equal got (text "4567"))) "Range body = %q, want %q".

Definition testChecksumVerification : TT unit :=
  let key := randomKey "checksum" in
  res ← putObject key (text "checksum me");
  orFatal "Put: %v" res;;
  '(got, meta) ← getAll (mkGetRequest (latest key) None) "Get: %v";
  errorIf (negb (bool_decide (om_ChecksumSHA256 meta = "")) && negb (bool_decide (om_ChecksumSHA256 meta = sha256_hex got)))
    "Meta checksum %q does not match recomputed %s".

(** The start of three tests: two versions of one key. *)
Definition putTwo (key : string) : TT (PutResult * PutResult) :=
  res1 ← putObject key (text "v1");
  res1 ← orFatal "Put v1: %v" res1;
  res2 ← putObject key (text "v2");
  res2 ← orFatal "Put v2: %v" res2;
  mret (res1, res2).

Definition testPurgeAllVersions : TT unit :=
  let key := randomKey "purge" in
  putTwo key;;
  res ← call (fun t => bl_PurgeAllVersions t (ref key));
  orFatal "PurgeAllVersions: %v" res;;
  page ← call (fun t => iv_ListObjectVersions t (mkListVersionsRequest key "" 0));
  page ← orFatal "ListObjectVersions after purge: %v" page;
  errorIf (negb (len (vp_Versions page) =? 0)) "ListObjectVersions after purge returned %d versions, want 0".

Definition testCopyWithinProvider : TT unit :=
  let src := randomKey "copysrc" in
  let dst := randomKey "copydst" in
  let body := text "copy this payload" in
  res ← putObject src body;
  orFatal "Put src: %v" res;;
  res ← call (fun t => bl_CopyWithinProvider t (mkCopyWithinProviderRequest (latest src) dst zeroRetentionSpec));
  res ← orFatal "CopyWithinProvider: %v" res;
  errorIf (negb (bool_decide (pr_Key res = dst))) "Copy result key = %q, want %q";;
  '(got, _) ← getAll (mkGetRequest (latest dst) None) "Get dst: %v";
  errorIf (negb (bytes_Equal got body)) "Copy body mismatch: got %q, want %q".

Definition listPrefix : string := "listobj-" +:+ randomKey "".
Fixpoint putNumbered (keys : list string) : TT unit :=
  match keys with
  | [] => mret tt
  | key :: keys => res ← putObject key (text "x"); orFatal "Put %s: %v" res;; putNumbered keys
  end.
Definition testInventoryListObjects : TT unit :=
  putNumbered (map (fun i : Z => listPrefix +:+ "-" +:+ pretty i) [0; 1; 2]);;
  page ← call (fun t => iv_ListObjects t (mkListObjectsRequest listPrefix "" 0));
  page ← orFatal "ListObjects: %v" page;
  errorIf (len (op_Objects page) <? 3) "ListObjects returned %d, want >= 3".

Definition testInventoryListVersions : TT unit :=
  let key := randomKey "versions" in
  putTwo key;;
  page ← call (fun t => iv_ListObjectVersions t (mkListVersionsRequest key "" 0));
  page ← orFatal "ListObjectVersions: %v" page;
  errorIf (len (vp_Versions page) <? 2) "ListObjectVersions returned %d, want >= 2".

Definition testInventoryBatchDelete : TT unit :=
  let key := randomKey "batchdel" in
  '(res1, res2) ← putTwo key;
  result ← call (fun t => iv_DeleteBatch t
    [mkVersionedObjectRef key (pr_VersionID res1); mkVersionedObjectRef key (pr_VersionID res2)]);
  result ← orFatal "DeleteBatch: %v" result;
  errorIf (negb (len (bd_Deleted result) =? 2)) "DeleteBatch deleted %d, want 2".

Definition createMultipart (key contentType : string) : TT MultipartUpload :=
  res ← call (fun t => st_CreateMultipart t (mkMultipartRequest key contentType "" "" "" zeroRetentionSpec ""));
  orFatal "CreateMultipart: %v" res.

Definition testMultipart : TT unit :=
  let key := randomKey "multipart" in
  upload ← createMultipart key octets;
  errorIf (bool_decide (mu_UploadID upload = "")) "CreateMultipart returned empty upload id";;
  page ← call (fun t => iv_ListMultipartUploads t (mkListUploadsRequest key "" 0));
  page ← orFatal "ListMultipartUploads: %v" page;
  let found := existsb (fun u => bool_decide (mu_UploadID u = mu_UploadID upload)) (ul_Uploads page) in
  errorIf (negb found) "ListMultipartUploads did not include the created upload".

Definition testAbortMultipart : TT unit :=
  let key := randomKey "abort" in
  upload ← createMultipart key "";
  res ← call (fun t => st_AbortMultipart upload);
  orFatal "AbortMultipart: %v" res.

(** [farFuture]. *)
Definition Day : Z := 24 * Hour.
Definition farFuture : TT Time := t ← now; mret (t + 365 * Day).

Definition putLocked (key : string) (body : bytes) (mode : RetentionMode) (msg : string) : TT VersionedObjectRef :=
  until ← farFuture;
  res ← call (fun t => st_Put t (mkPutRequest key (Some (bytes_NewReader body)) (len body) "" octets "" "" "" ""
    (mkRetentionSpec mode until false) false));
  res ← orFatal msg res;
  mret (mkVersionedObjectRef key (pr_VersionID res)).

Definition testRetention : TT unit :=
  ver ← putLocked (randomKey "retention") (text "locked") RetentionGovernance "Put with retention: %v";
  state ← call (fun t => bl_GetRetention t ver);
  state ← orFatal "GetRetention: %v" state;
  errorIf (negb (bool_decide (rt_Mode state = RetentionGovernance))) "Retention mode = %q, want GOVERNANCE";;
  until ← farFuture;
  extended ← call (fun t => bl_UpdateRetention t (mkRetentionUpdate ver RetentionGovernance (until + Day) false));
  errorIf (negb (is_Ok extended)) "UpdateRetention (extend): %v";;
  let extended := match extended with Ok x => x | Err _ => zeroRetentionState end in
  errorIf (IsZero (rt_RetainUntil extended)) "Extended retain_until is zero";;
  until ← farFuture;
  short ← call (fun t => bl_UpdateRetention t (mkRetentionUpdate ver RetentionGovernance (until - 2 * Day) false));
  expectErr short BsRetentionConflict "UpdateRetention (shorten) succeeded; expected error" "UpdateRetention (shorten) = %v, want ErrRetentionConflict";;
  comp ← putLocked (randomKey "compliance") (text "compliance locked") RetentionCompliance "Put with compliance retention: %v";
  until ← farFuture;
  res ← call (fun t => bl_UpdateRetention t (mkRetentionUpdate comp RetentionCompliance (until + Day) false));
  errorIf (negb (is_Ok res)) "UpdateRetention (compliance extend): %v";;
  clear ← call (fun t => bl_UpdateRetention t (mkRetentionUpdate comp "" zeroTime true));
  expectErr clear BsRetentionConflict "UpdateRetention (compliance clear) succeeded; expected error"
    "UpdateRetention (compliance clear) = %v, want ErrRetentionConflict".

Definition testLegalHold : TT unit :=
  let key := randomKey "legalhold" in
  res ← putObject key (text "held");
  res ← orFatal "Put: %v" res;
  let ver := mkVersionedObjectRef key (pr_VersionID res) in
  held ← call (fun t => bl_SetLegalHold t ver true);
  orFatal "SetLegalHold(true): %v" held;;
  state ← call (fun t => bl_GetRetention t ver);
  state ← orFatal "GetRetention: %v" state;
  errorIf (negb (rt_LegalHold state)) "LegalHold = false, want true".

Definition isReusableGrant (s : SignedRequest) : bool :=
  Contains (default "" (sr_Headers s !! "x-kchat-grant")) "reusable".

Definition testDirectStagingDisabled : TT unit :=
  upload ← createMultipart (randomKey "staging") "";
  signed ← call (fun t => bl_SignUploadPart t (mkSignPartRequest upload 1 0));
  match signed with
  | Ok signed =>
      errorIf (bool_decide (sr_URL signed = "")) "SignUploadPart returned empty URL";;
      errorIf (isReusableGrant signed) "SignUploadPart returned a reusable grant; phase-1 adapters must not"
  | Err _ => mret tt
  end;;
  call (fun t => st_AbortMultipart upload);;
  mret tt.

(** ** [RunSuite] *)
Definition suite (a : Adapter) : list (TT unit) :=
  [testPutGetHeadDelete; testConditionalPut; testByteRange; testChecksumVerification; testPurgeAllVersions;
   testCopyWithinProvider; testInventoryListObjects; testInventoryListVersions; testInventoryBatchDelete] ++
  (if SkipMultipart a then [] else [testMultipart; testAbortMultipart]) ++
  (if SkipRetention a then [] else [testRetention; testLegalHold]) ++
  [testDirectStagingDisabled].
Definition RunSuite (a : Adapter) (s : testState St) : testState St :=
  foldl (fun s test => (Run test s).1) s (suite a).
End suite.
Arguments mkAdapter : clear implicits.
