(* ===== verification/HotCache.v ===== *)
(** * pkg/hotcache/hotcache.go

    The L1 cache interface, the per-entry options and metadata, and the
    eviction policy with its validation. *)
From S2P Require Import Prelude GoStd.
Local Open Scope Z_scope.

Record PutOptions := mkPutOptions {
  po_SizeBytes : Z;
  po_Hash : string;
  po_TTL : Z;
  po_PinHot : bool;
  po_NonEvictable : bool
}.

Record Metadata := mkMetadata {
  md_BlobID : string;
  md_SizeBytes : Z;
  md_Hash : string;
  md_StoredAt : Time;
  md_LastAccess : Time;
  md_HitCount : Z;
  md_Pinned : bool;
  md_NonEvictable : bool
}.

Record Stats := mkStats {
  Entries : Z;
  BytesUsed : Z;
  BytesLimit : Z;
  Hits : Z;
  Misses : Z;
  Evictions : Z
}.
#[export] Instance eta_Stats : Eta Stats :=
  fun s => mkStats (Entries s) (BytesUsed s) (BytesLimit s) (Hits s) (Misses s) (Evictions s).

Definition EvictionLRU : string := "lru".
Definition EvictionLRUHotPin : string := "lru_hot_pin".

Record EvictionPolicy := mkEvictionPolicy {
  Kind : string;
  MaxBytes : Z;
  HotRegionFraction : float64;
  HotDemotionHitCount : Z;
  TTL : Z
}.
#[export] Instance eta_EvictionPolicy : Eta EvictionPolicy :=
  fun p => mkEvictionPolicy (Kind p) (MaxBytes p) (HotRegionFraction p) (HotDemotionHitCount p) (TTL p).

(** [DefaultEvictionPolicy]. *)
Definition DefaultEvictionPolicy (maxBytes : Z) : EvictionPolicy :=
  mkEvictionPolicy EvictionLRUHotPin maxBytes (f64_lit 1 10) 1 0.

(** [EvictionPolicy.Validate]. *)
Definition Validate (e : EvictionPolicy) : result unit :=
  if negb (bool_decide (Kind e = EvictionLRU) || bool_decide (Kind e = EvictionLRUHotPin)) then
    if bool_decide (Kind e = "")
    then Err (ErrNew "hotcache: eviction policy kind is required")
    else Err (ErrNew "hotcache: unknown eviction kind %q")
  else if MaxBytes e <? 0 then
    Err (ErrNew "hotcache: eviction max_bytes must be non-negative")
  else if f64_ltb (HotRegionFraction e) (f64_of_Z 0)
          || f64_leb (f64_of_Z 1) (HotRegionFraction e) then
    Err (ErrNew "hotcache: eviction hot_region_fraction must be in [0, 1)")
  else if TTL e <? 0 then
    Err (ErrNew "hotcache: eviction ttl must be non-negative")
  else if bool_decide (Kind e = EvictionLRU)
          && (negb (f64_eqb (HotRegionFraction e) (f64_of_Z 0))
              || negb (HotDemotionHitCount e =? 0)) then
    Err (ErrNew "hotcache: hot-pin fields only apply to eviction kind %q")
  else Ok tt.

(** The size of the hot region, computed by both cache constructors:
    [int64(float64(MaxBytes) * HotRegionFraction)] when hot-pinning applies. *)
Definition hotLimitOf (p : EvictionPolicy) : Z :=
  if bool_decide (Kind p = EvictionLRUHotPin)
     && f64_ltb (f64_of_Z 0) (HotRegionFraction p) && (0 <? MaxBytes p)
  then f64_to_int64 (f64_mul (f64_of_Z (MaxBytes p)) (HotRegionFraction p))
  else 0.

(** ** The interface [Cache] over a cache state [C] *)
Class Cache (C : Type) := {
  c_Get : Time -> string -> M C (reader * Metadata);
  c_Put : Time -> string -> option reader -> PutOptions -> M C unit;
  c_Evict : string -> M C unit;
  c_Stats : C -> Stats
}.

(** What a cache promises to its clients. [holds c id b] says that [b] is
    the live body of [id]; [protected c id b] that it was also stored as
    non-evictable, so that eviction cannot lose it; [content c id b] that
    [b] is the body a Get of [id] may return; [cache_inv] is the cache's own
    invariant. *)
Class CacheLaws (C : Type) `{Cache C} := {
  cache_inv : C -> Prop;
  holds : C -> string -> bytes -> Prop;
  protected : C -> string -> bytes -> Prop;
  content : C -> string -> bytes -> Prop;
  cache_key : string -> Prop;
  protected_holds : forall c id b, cache_inv c -> protected c id b -> holds c id b;
  holds_content : forall c id b b', cache_inv c -> holds c id b -> content c id b' -> b' = b;
  (* A stored body is what a later Get returns. *)
  Get_holds : forall now c id b, cache_inv c -> holds c id b ->
    exists c' md, c_Get now id c = (c', Ok (bytes_NewReader b, md)) /\ cache_inv c'
      /\ md_SizeBytes md = len b
      /\ forall id' b', (holds c id' b' -> holds c' id' b')
           /\ (protected c id' b' -> protected c' id' b');
  Get_inv : forall now c id c' r, cache_inv c -> c_Get now id c = (c', r) -> cache_inv c'
      /\ forall id' b', (protected c id' b' -> protected c' id' b')
           /\ (content c' id' b' -> content c id' b');
  (* A hit returns the content; of a key the cache accepts, the only error
     of a Get is a miss. *)
  Get_content : forall now c id c' rd md, cache_inv c -> c_Get now id c = (c', Ok (rd, md)) ->
    exists b, rd = bytes_NewReader b /\ content c id b;
  Get_error : forall now c id c' e, cache_inv c -> cache_key id -> c_Get now id c = (c', Err e) ->
    errors_Is e HcCacheMiss = true;
  cache_key_nonempty : ~ cache_key "";
  (* Only keys the cache accepts are stored. *)
  Put_key : forall now c id r o c', c_Put now id r o c = (c', Ok tt) -> cache_key id;
  (* A successful Put of a finite body makes it available. *)
  Put_holds : forall now c id b o c', cache_inv c -> po_TTL o <= 0 ->
    c_Put now id (Some (bytes_NewReader b)) o c = (c', Ok tt) ->
    cache_inv c' /\ holds c' id b /\ (po_NonEvictable o = true -> protected c' id b);
  (* No Put, whatever its outcome, loses a protected entry of another id or
     invents a body. *)
  Put_protects : forall now c id r o c' res id' b', cache_inv c ->
    c_Put now id r o c = (c', res) -> id' <> id -> protected c id' b' -> protected c' id' b';
  Put_content : forall now c id b o c' res id' b', cache_inv c ->
    c_Put now id (Some (bytes_NewReader b)) o c = (c', res) -> content c' id' b' ->
    content c id' b' \/ (id' = id /\ b' = b);
  Put_inv : forall now c id r o c' res, cache_inv c -> c_Put now id r o c = (c', res) -> cache_inv c';
  (* Evict removes the one entry. *)
  Evict_frame : forall c id c' res, cache_inv c -> c_Evict id c = (c', res) -> cache_inv c'
      /\ (forall b, res = Ok tt -> ~ content c' id b)
      /\ forall id' b', (id' <> id -> protected c id' b' -> protected c' id' b')
           /\ (content c' id' b' -> content c id' b')
}.
