(* ===== verification/LruCore.v ===== *)
(** * The LRU bookkeeping of pkg/hotcache

    [MemoryCache] and [DiskCache] keep the same structure: two
    doubly-linked lists ([hot], [main], most recently used first), a hash
    map from blob ID to list element, and byte counters. This file models
    it once over an entry type; the elements of [container/list] are
    handles into a heap, so an element is shared by the list and the map
    as it is in Go. *)
From S2P Require Import Prelude GoStd HotCache.
Local Open Scope Z_scope.

(** What the bookkeeping reads of an entry. *)
Class CacheEntry (E : Type) := {
  e_blobID : E -> string;
  e_size : E -> Z;
  e_pinned : E -> bool;
  e_nonEvictable : E -> bool
}.

Record lru (E : Type) := mkLru {
  policy : EvictionPolicy;
  hot : list nat;
  main : list nat;
  index : gmap string nat;
  heap : gmap nat E;
  nextEl : nat;
  bytesUsed : Z;
  hotLimit : Z;
  hotBytes : Z;
  stats : Stats
}.
Arguments mkLru {E}.
Arguments policy {E}.  Arguments hot {E}.  Arguments main {E}.  Arguments index {E}.
Arguments heap {E}.  Arguments nextEl {E}.  Arguments bytesUsed {E}.
Arguments hotLimit {E}.  Arguments hotBytes {E}.  Arguments stats {E}.
#[export] Instance eta_lru {E} : Eta (lru E) :=
  fun c => mkLru (policy c) (hot c) (main c) (index c) (heap c) (nextEl c) (bytesUsed c)
    (hotLimit c) (hotBytes c) (stats c).

(** [container/list]: [l.Remove(el)] and [l.MoveToFront(el)]; both are
    no-ops on an element of another list. *)
Definition listRemove (el : nat) (l : list nat) : list nat := filter (fun x => x <> el) l.
Definition listMoveToFront (el : nat) (l : list nat) : list nat :=
  if bool_decide (el ∈ l) then el :: listRemove el l else l.

Section ops.
Context {E : Type} `{CacheEntry E}.
Implicit Types (c : lru E) (e : E) (el : nat).

(** The cache built by both constructors. *)
Definition newLru (p : EvictionPolicy) : lru E :=
  mkLru p [] [] ∅ ∅ 0 0 (hotLimitOf p) 0 (mkStats 0 0 (MaxBytes p) 0 0 0).

(** [removeLocked]. *)
Definition removeLocked (el : nat) (c : lru E) : lru E :=
  match heap c !! el with
  | None => c
  | Some entry =>
      let sz := e_size entry in
      let c := if e_pinned entry
               then c <| hot := listRemove el (hot c) |> <| hotBytes := hotBytes c - sz |>
               else c <| main := listRemove el (main c) |> in
      let c := c <| heap := delete el (heap c) |> in
      let c := c <| index := delete (e_blobID entry) (index c) |> in
      let c := c <| bytesUsed := bytesUsed c - sz |> in
      c <| stats := (stats c) <| Entries := Z.of_nat (size (index c)) |>
                              <| BytesUsed := bytesUsed c |>
                              <| Evictions := Evictions (stats c) + 1 |> |>
  end.

(** [for back != nil && back.nonEvictable { back = back.Prev() }] on the
    reversed list. *)
Fixpoint walkPrev (h : gmap nat E) (l : list nat) : option nat :=
  match l with
  | [] => None
  | el :: l' =>
      match h !! el with
      | None => None
      | Some entry => if e_nonEvictable entry then walkPrev h l' else Some el
      end
  end.

(** The loop of [evictMainLocked]; the caller passes enough fuel. *)
Fixpoint evictMainLoop (fuel : nat) (incoming : Z) (c : lru E) : lru E :=
  match fuel with
  | O => c
  | S fuel' =>
      if bytesUsed c + incoming >? MaxBytes (policy c) then
        let l := match main c with [] => hot c | _ => main c end in
        match walkPrev (heap c) (rev l) with
        | None => c
        | Some back => evictMainLoop fuel' incoming (removeLocked back c)
        end
      else c
  end.

Definition evictMainLocked (incoming : Z) (c : lru E) : lru E :=
  if MaxBytes (policy c) <=? 0 then c
  else evictMainLoop (S (length (hot c) + length (main c))) incoming c.

(** [evictHotLocked]. *)
Fixpoint evictHotLoop (fuel : nat) (incoming : Z) (c : lru E) : lru E :=
  match fuel with
  | O => c
  | S fuel' =>
      if hotBytes c + incoming >? hotLimit c then
        match walkPrev (heap c) (rev (hot c)) with
        | None => c
        | Some back => evictHotLoop fuel' incoming (removeLocked back c)
        end
      else c
  end.

Definition evictHotLocked (incoming : Z) (c : lru E) : lru E :=
  if hotLimit c <=? 0 then c
  else evictHotLoop (S (length (hot c))) incoming c.

(** The tail of [Put]: push the new element and account for it. *)
Definition pushEntry (pin : bool) (entry : E) (sz : Z) (c : lru E) : lru E :=
  let el := nextEl c in
  let c := c <| heap := <[el := entry]> (heap c) |> <| nextEl := S el |> in
  let c := if pin
           then c <| hot := el :: hot c |> <| hotBytes := hotBytes c + sz |>
           else c <| main := el :: main c |> in
  let c := c <| index := <[e_blobID entry := el]> (index c) |> in
  let c := c <| bytesUsed := bytesUsed c + sz |> in
  c <| stats := (stats c) <| Entries := Z.of_nat (size (index c)) |>
                          <| BytesUsed := bytesUsed c |> |>.

(** [delete] of an existing entry for the key ([if existing, ok := ...]). *)
Definition removeExisting (id : string) (c : lru E) : lru E :=
  match index c !! id with
  | Some el => removeLocked el c
  | None => c
  end.

(** A hit: the entry is updated in place and its element moved to the
    front of its list. *)
Definition touch (el : nat) (f : E -> E) (c : lru E) : lru E :=
  match heap c !! el with
  | None => c
  | Some entry =>
      let c := c <| heap := <[el := f entry]> (heap c) |> in
      let c := c <| stats := (stats c) <| Hits := Hits (stats c) + 1 |> |> in
      if e_pinned entry then c <| hot := listMoveToFront el (hot c) |>
      else c <| main := listMoveToFront el (main c) |>
  end.

Definition miss (c : lru E) : lru E :=
  c <| stats := (stats c) <| Misses := Misses (stats c) + 1 |> |>.
End ops.

(** ** Entries and sizes *)
Create Rewrite HintDb lru.

Section entries.
Context {E : Type} `{CacheEntry E}.
Implicit Types (h : gmap nat E) (l : list nat) (el : nat).

(** The entries of a list of elements, most recently used first. *)
Definition entries (h : gmap nat E) (l : list nat) : list E := omap (fun el => h !! el) l.

Definition sumSizes (l : list E) : Z := foldr (fun e acc => e_size e + acc) 0 l.

Lemma sumSizes_app (l k : list E) : sumSizes (l ++ k) = sumSizes l + sumSizes k.
Proof. unfold sumSizes. induction l as [|e l IH]; cbn; [lia|]. rewrite IH. lia. Qed.

Lemma sumSizes_rev (l : list E) : sumSizes (rev l) = sumSizes l.
Proof.
  induction l as [|e l IH]; [done|]. cbn [rev]. rewrite sumSizes_app, IH.
  unfold sumSizes. cbn. lia.
Qed.

Lemma entries_app h l k : entries h (l ++ k) = entries h l ++ entries h k.
Proof. apply omap_app. Qed.

Lemma entries_cons h el e l : h !! el = Some e -> entries h (el :: l) = e :: entries h l.
Proof. intros Hel. cbn. by rewrite Hel. Qed.

Lemma entries_rev h l : entries h (rev l) = rev (entries h l).
Proof.
  induction l as [|el l IH]; [done|]. cbn [rev]. rewrite entries_app, IH. cbn.
  by destruct (h !! el); cbn; rewrite ?app_nil_r.
Qed.

Lemma entries_ext h h' l :
  (forall el, el ∈ l -> h !! el = h' !! el) -> entries h l = entries h' l.
Proof.
  unfold entries. induction l as [|el l IH]; intros Heq; [done|]. cbn.
  rewrite (Heq el) by set_solver. by rewrite IH by set_solver.
Qed.

Lemma entries_delete h el l : el ∉ l -> entries (delete el h) l = entries h l.
Proof.
  intros Hn. apply entries_ext. intros el' Hel'.
  apply lookup_delete_ne. set_solver.
Qed.

Lemma entries_insert h el e l : el ∉ l -> entries (<[el := e]> h) l = entries h l.
Proof.
  intros Hn. apply entries_ext. intros el' Hel'.
  apply lookup_insert_ne. set_solver.
Qed.

Lemma elem_of_entries h l e : e ∈ entries h l <-> exists el, el ∈ l /\ h !! el = Some e.
Proof. apply list_elem_of_omap. Qed.

Lemma entries_nil h l : (forall el, el ∈ l -> is_Some (h !! el)) -> entries h l = [] -> l = [].
Proof.
  destruct l as [|el l]; [done|]. intros Hs Hn. exfalso.
  destruct (Hs el) as [e He]; [set_solver|]. cbn in Hn. by rewrite He in Hn.
Qed.

Lemma listRemove_split el l1 l2 :
  el ∉ l1 -> el ∉ l2 -> listRemove el (l1 ++ el :: l2) = l1 ++ l2.
Proof.
  intros H1 H2. unfold listRemove. rewrite filter_app, filter_cons_False by naive_solver.
  by rewrite !list_filter_all by (apply Forall_forall; set_solver).
Qed.

Lemma listRemove_notin el l : el ∉ l -> listRemove el l = l.
Proof. intros Hn. unfold listRemove. apply list_filter_all, Forall_forall. set_solver. Qed.

Lemma elem_of_listRemove el x l : x ∈ listRemove el l <-> x ∈ l /\ x <> el.
Proof. unfold listRemove. rewrite list_elem_of_filter. tauto. Qed.

Lemma NoDup_listRemove el l : NoDup l -> NoDup (listRemove el l).
Proof. apply NoDup_filter. Qed.
End entries.
#[export] Hint Rewrite @entries_app @sumSizes_app @sumSizes_rev @elem_of_listRemove : lru.

(** ** Well-formedness of the bookkeeping *)
Section wf.
Context {E : Type} `{CacheEntry E}.
Implicit Types (c : lru E) (e : E) (el : nat).

Definition hotEntries (c : lru E) : list E := entries (heap c) (hot c).
Definition mainEntries (c : lru E) : list E := entries (heap c) (main c).

Record lru_wf (c : lru E) : Prop := {
  wf_nodup : NoDup (hot c ++ main c);
  wf_dom : forall el, el ∈ hot c ++ main c <-> is_Some (heap c !! el);
  wf_pinned : forall el e, heap c !! el = Some e -> (e_pinned e = true <-> el ∈ hot c);
  wf_index : forall id el,
    index c !! id = Some el <-> exists e, heap c !! el = Some e /\ e_blobID e = id;
  wf_fresh : forall el, is_Some (heap c !! el) -> (el < nextEl c)%nat;
  wf_bytes : bytesUsed c = sumSizes (hotEntries c) + sumSizes (mainEntries c);
  wf_hotBytes : hotBytes c = sumSizes (hotEntries c);
  wf_entries : Entries (stats c) = Z.of_nat (size (index c));
  wf_statBytes : BytesUsed (stats c) = bytesUsed c
}.

Lemma newLru_wf p : lru_wf (newLru p).
Proof.
  split; try done; cbn.
  - constructor.
  - intros el. rewrite lookup_empty. split; [set_solver|by intros []].
  - intros id el. rewrite lookup_empty. split; [done|by intros (e & He & _)].
  - intros el. rewrite lookup_empty. by intros [].
Qed.

Lemma wf_not_hot c el e :
  lru_wf c -> heap c !! el = Some e -> e_pinned e = false -> el ∈ main c /\ el ∉ hot c.
Proof.
  intros Hwf He Hp.
  assert (Hh : el ∉ hot c).
  { intros Hin. apply (wf_pinned _ Hwf _ _ He) in Hin. congruence. }
  split; [|done].
  apply (mk_is_Some (heap c !! el)), (wf_dom _ Hwf el), elem_of_app in He. tauto.
Qed.

(** [removeLocked] field by field. *)
Lemma removeLocked_eq c el e :
  heap c !! el = Some e ->
  removeLocked el c =
    mkLru (policy c)
      (if e_pinned e then listRemove el (hot c) else hot c)
      (if e_pinned e then main c else listRemove el (main c))
      (delete (e_blobID e) (index c)) (delete el (heap c)) (nextEl c)
      (bytesUsed c - e_size e) (hotLimit c)
      (if e_pinned e then hotBytes c - e_size e else hotBytes c)
      (mkStats (Z.of_nat (size (delete (e_blobID e) (index c)))) (bytesUsed c - e_size e)
         (BytesLimit (stats c)) (Hits (stats c)) (Misses (stats c)) (Evictions (stats c) + 1)).
Proof. intros He. unfold removeLocked. rewrite He. by destruct (e_pinned e). Qed.

(** A live element splits its list; removal deletes exactly its entry. *)
Lemma remove_split c el e :
  lru_wf c -> heap c !! el = Some e ->
  let l := if e_pinned e then hot c else main c in
  exists l1 l2, (l = l1 ++ el :: l2) /\ el ∉ l1 /\ el ∉ l2 /\ (listRemove el l = l1 ++ l2)
    /\ el ∉ (if e_pinned e then main c else hot c).
Proof.
  intros Hwf He. cbn. pose proof (wf_nodup _ Hwf) as Hnd.
  apply NoDup_app in Hnd as (Hn1 & Hdisj & Hn2).
  assert (Hin : el ∈ (if e_pinned e then hot c else main c)).
  { destruct (e_pinned e) eqn:Hp; [by apply (wf_pinned _ Hwf _ _ He)|].
    by apply (wf_not_hot _ _ _ Hwf He). }
  apply list_elem_of_split in Hin as (l1 & l2 & Hl). exists l1, l2.
  assert (Hnd : NoDup (l1 ++ el :: l2)) by (rewrite <- Hl; by destruct (e_pinned e)).
  apply NoDup_app in Hnd as (_ & Hd & Hnd2). apply NoDup_cons in Hnd2 as [Hn _].
  assert (Hn' : el ∉ l1) by (intros Hx; apply (Hd _ Hx); set_solver).
  rewrite Hl, listRemove_split by done. repeat split; try done.
  destruct (e_pinned e) eqn:Hp; [|by apply (wf_not_hot _ _ _ Hwf He)].
  apply Hdisj. rewrite Hl. set_solver.
Qed.

Lemma sum_removed (h : gmap nat E) el e (l l1 l2 : list nat) :
  h !! el = Some e -> l = l1 ++ el :: l2 -> el ∉ l1 -> el ∉ l2 -> listRemove el l = l1 ++ l2 ->
  sumSizes (entries (delete el h) (listRemove el l)) = sumSizes (entries h l) - e_size e.
Proof.
  intros He -> H1 H2 ->. rewrite !entries_app, !entries_delete, (entries_cons _ _ e) by done.
  rewrite !sumSizes_app. unfold sumSizes. cbn. lia.
Qed.

Lemma removeLocked_wf c el : lru_wf c -> lru_wf (removeLocked el c).
Proof.
  intros Hwf. destruct (heap c !! el) as [e|] eqn:He; [|by unfold removeLocked; rewrite He].
  pose proof (remove_split _ _ _ Hwf He) as (l1 & l2 & Hl & Hn1 & Hn2 & Hrm & Ho).
  rewrite (removeLocked_eq _ _ _ He). destruct Hwf as [Hnd Hdom Hpin Hidx Hfr Hb Hhb Hst Hsb].
  apply NoDup_app in Hnd as (Hndh & Hdisj & Hndm). unfold hotEntries, mainEntries in *.
  split; unfold hotEntries, mainEntries; cbn [hot main index heap nextEl bytesUsed hotBytes stats
    policy Entries BytesUsed].
  - apply NoDup_app. destruct (e_pinned e); repeat split;
      auto using NoDup_listRemove; intros x; rewrite ?elem_of_listRemove; naive_solver.
  - intros x. rewrite elem_of_app. destruct (decide (x = el)) as [->|Hne].
    + rewrite lookup_delete_eq, is_Some_alt.
      destruct (e_pinned e); rewrite elem_of_listRemove; naive_solver.
    + rewrite lookup_delete_ne, <- Hdom, elem_of_app by done.
      destruct (e_pinned e); rewrite elem_of_listRemove; naive_solver.
  - intros x ex [Hne Hx]%lookup_delete_Some. rewrite (Hpin _ _ Hx).
    destruct (e_pinned e); rewrite ?elem_of_listRemove; naive_solver.
  - intros id x. rewrite lookup_delete_Some, Hidx. split.
    + intros (Hid & ex & Hx & Hexid). exists ex. rewrite lookup_delete_Some.
      repeat split; try done. intros ->. congruence.
    + intros (ex & [Hne Hx]%lookup_delete_Some & Hexid). split; [|by eauto].
      intros Hid. apply Hne. assert (index c !! id = Some el) as H1 by (apply Hidx; eauto).
      assert (index c !! id = Some x) as H2 by (apply Hidx; eauto). congruence.
  - intros x. rewrite lookup_delete_is_Some. naive_solver.
  - rewrite Hb. destruct (e_pinned e);
      rewrite (sum_removed _ _ e _ l1 l2) by done; rewrite entries_delete by done; lia.
  - destruct (e_pinned e); [|by rewrite entries_delete].
    by rewrite Hhb, (sum_removed _ _ e _ l1 l2) by done.
  - done.
  - done.
Qed.

(** Removal seen through the entry lists. *)
Lemma removeLocked_entries c el e l1 l2 :
  lru_wf c -> heap c !! el = Some e ->
  (if e_pinned e then hot c else main c) = l1 ++ el :: l2 ->
  hotEntries (removeLocked el c)
    = (if e_pinned e then entries (heap c) (l1 ++ l2) else hotEntries c) /\
  mainEntries (removeLocked el c)
    = (if e_pinned e then mainEntries c else entries (heap c) (l1 ++ l2)).
Proof.
  intros Hwf He Hl. destruct (remove_split _ _ _ Hwf He) as (k1 & k2 & Hk & Hn1 & Hn2 & Hrm & Ho).
  assert (Hnd : NoDup (l1 ++ el :: l2)).
  { rewrite <- Hl. pose proof (wf_nodup _ Hwf) as Hnd. apply NoDup_app in Hnd as (? & _ & ?).
    by destruct (e_pinned e). }
  apply NoDup_app in Hnd as (_ & Hd & Hnd2). apply NoDup_cons in Hnd2 as [Hn _].
  assert (Hn' : el ∉ l1) by (intros Hx; apply (Hd _ Hx); set_solver).
  rewrite (removeLocked_eq _ _ _ He). unfold hotEntries, mainEntries. cbn [hot main heap].
  destruct (e_pinned e); rewrite Hl, listRemove_split by done;
    rewrite !entries_delete by set_solver; done.
Qed.
End wf.

(** ** The map view: which entry an ID has *)
Section lookup.
Context {E : Type} `{CacheEntry E}.
Implicit Types (c : lru E) (e : E) (el : nat).

Definition lookupEntry (c : lru E) (id : string) : option E :=
  index c !! id ≫= fun el => heap c !! el.

Lemma lookupEntry_Some c id e :
  lru_wf c ->
  lookupEntry c id = Some e <-> exists el, heap c !! el = Some e /\ e_blobID e = id.
Proof.
  intros Hwf. unfold lookupEntry. rewrite bind_Some. split.
  - intros (el & (e' & He' & Hid)%(wf_index _ Hwf) & He). exists el. naive_solver.
  - intros (el & He & Hid). exists el. split; [|done]. apply (wf_index _ Hwf). eauto.
Qed.

Lemma lookupEntry_id c id e : lru_wf c -> lookupEntry c id = Some e -> e_blobID e = id.
Proof. intros Hwf. rewrite lookupEntry_Some by done. by intros (el & _ & ?). Qed.

Lemma index_None_lookup c id : lru_wf c -> index c !! id = None <-> lookupEntry c id = None.
Proof.
  intros Hwf. unfold lookupEntry. destruct (index c !! id) as [el|] eqn:Hi; [|done].
  apply (wf_index _ Hwf) in Hi as (e & He & _). cbn. by rewrite He.
Qed.

Lemma wf_injective c el el' e e' :
  lru_wf c -> heap c !! el = Some e -> heap c !! el' = Some e' ->
  e_blobID e = e_blobID e' -> el = el'.
Proof.
  intros Hwf He He' Hid.
  assert (index c !! e_blobID e = Some el) as H1 by (apply (wf_index _ Hwf); eauto).
  assert (index c !! e_blobID e = Some el') as H2 by (apply (wf_index _ Hwf); eauto).
  congruence.
Qed.

Lemma removeLocked_lookup c el e id :
  lru_wf c -> heap c !! el = Some e ->
  lookupEntry (removeLocked el c) id = if decide (id = e_blobID e) then None else lookupEntry c id.
Proof.
  intros Hwf He. rewrite (removeLocked_eq _ _ _ He). unfold lookupEntry. cbn [index heap].
  case_decide as Hd; [by rewrite Hd, lookup_delete_eq|].
  rewrite lookup_delete_ne by done. destruct (index c !! id) as [el'|] eqn:Hi; [|done]. cbn.
  apply (wf_index _ Hwf) in Hi as (e' & He' & Hid'). rewrite lookup_delete_ne; [done|].
  intros ->. congruence.
Qed.

Lemma removeExisting_wf c id : lru_wf c -> lru_wf (removeExisting id c).
Proof. intros Hwf. unfold removeExisting. case_match; [by apply removeLocked_wf|done]. Qed.

Lemma removeExisting_lookup c id id' :
  lru_wf c ->
  lookupEntry (removeExisting id c) id' = if decide (id' = id) then None else lookupEntry c id'.
Proof.
  intros Hwf. unfold removeExisting. destruct (index c !! id) as [el|] eqn:Hi.
  - apply (wf_index _ Hwf) in Hi as (e & He & <-). by apply removeLocked_lookup.
  - case_decide as Hd; [|done]. subst. by apply index_None_lookup.
Qed.

Lemma removeExisting_policy c id :
  policy (removeExisting id c) = policy c /\ hotLimit (removeExisting id c) = hotLimit c.
Proof.
  unfold removeExisting, removeLocked. destruct (index c !! id) as [el|]; [|done].
  destruct (heap c !! el) as [e|]; [|done]. by destruct (e_pinned e).
Qed.

(** [pushEntry] field by field. *)
Lemma pushEntry_eq pin e sz c :
  pushEntry pin e sz c =
    mkLru (policy c) (if pin then nextEl c :: hot c else hot c)
      (if pin then main c else nextEl c :: main c)
      (<[e_blobID e := nextEl c]> (index c)) (<[nextEl c := e]> (heap c)) (S (nextEl c))
      (bytesUsed c + sz) (hotLimit c) (if pin then hotBytes c + sz else hotBytes c)
      (mkStats (Z.of_nat (size (<[e_blobID e := nextEl c]> (index c)))) (bytesUsed c + sz)
         (BytesLimit (stats c)) (Hits (stats c)) (Misses (stats c)) (Evictions (stats c))).
Proof. by destruct pin. Qed.

Lemma fresh_notin c : lru_wf c -> nextEl c ∉ hot c ++ main c.
Proof. intros Hwf Hin%(wf_dom _ Hwf)%(wf_fresh _ Hwf). lia. Qed.

Lemma fresh_lookup c : lru_wf c -> heap c !! nextEl c = None.
Proof.
  intros Hwf. destruct (heap c !! nextEl c) as [e|] eqn:He; [|done].
  pose proof (wf_fresh _ Hwf _ (mk_is_Some _ _ He)). lia.
Qed.

Lemma pushEntry_entries c e :
  lru_wf c ->
  hotEntries (pushEntry (e_pinned e) e (e_size e) c)
    = (if e_pinned e then e :: hotEntries c else hotEntries c) /\
  mainEntries (pushEntry (e_pinned e) e (e_size e) c)
    = (if e_pinned e then mainEntries c else e :: mainEntries c).
Proof.
  intros Hwf. pose proof (fresh_notin _ Hwf) as Hn. rewrite elem_of_app in Hn.
  rewrite pushEntry_eq. unfold hotEntries, mainEntries. cbn [hot main heap].
  destruct (e_pinned e); rewrite (entries_cons _ _ e) by apply lookup_insert_eq;
    rewrite !entries_insert by tauto; done.
Qed.

Lemma pushEntry_wf c e :
  lru_wf c -> lookupEntry c (e_blobID e) = None ->
  lru_wf (pushEntry (e_pinned e) e (e_size e) c).
Proof.
  intros Hwf Hnone%(proj2 (index_None_lookup _ _ Hwf)).
  pose proof (fresh_notin _ Hwf) as Hn. pose proof (fresh_lookup _ Hwf) as Hf.
  pose proof (pushEntry_entries c e Hwf) as [Heh Hem].
  destruct Hwf as [Hnd Hdom Hpin Hidx Hfr Hb Hhb Hst Hsb].
  split; rewrite ?Heh, ?Hem; clear Heh Hem; rewrite ?pushEntry_eq;
    cbn [hot main index heap nextEl bytesUsed hotBytes stats policy Entries BytesUsed].
  - destruct (e_pinned e); [by apply NoDup_cons|].
    rewrite <- Permutation_middle. by apply NoDup_cons.
  - intros x. destruct (decide (x = nextEl c)) as [->|Hne].
    + rewrite lookup_insert_eq. destruct (e_pinned e); set_solver.
    + rewrite lookup_insert_ne, <- Hdom by done. destruct (e_pinned e); set_solver.
  - intros x ex. rewrite lookup_insert_Some. intros [[<- <-]|[Hne Hx]].
    + destruct (e_pinned e); set_solver.
    + rewrite (Hpin _ _ Hx). destruct (e_pinned e); set_solver.
  - intros id x. destruct (decide (id = e_blobID e)) as [->|Hne].
    + rewrite lookup_insert_eq. split.
      * intros [= <-]. exists e. by rewrite lookup_insert_eq.
      * intros (ex & [[<- _]|[_ Hx]]%lookup_insert_Some & Hid); [done|].
        assert (index c !! e_blobID e = Some x) by (apply Hidx; eauto). congruence.
    + rewrite lookup_insert_ne, Hidx by done. split; intros (ex & Hx & Hid).
      * exists ex. rewrite lookup_insert_ne; [done|]. intros <-. congruence.
      * apply lookup_insert_Some in Hx as [[<- <-]|[_ Hx]]; [congruence|eauto].
  - intros x. rewrite lookup_insert_is_Some. intros [<-|[_ Hx]]; [lia|].
    specialize (Hfr _ Hx). lia.
  - rewrite Hb. destruct (e_pinned e); unfold sumSizes; cbn; fold (@sumSizes E _); lia.
  - rewrite Hhb. destruct (e_pinned e); unfold sumSizes; cbn; lia.
  - done.
  - done.
Qed.

Lemma pushEntry_lookup c e id :
  lru_wf c ->
  lookupEntry (pushEntry (e_pinned e) e (e_size e) c) id =
    if decide (id = e_blobID e) then Some e else lookupEntry c id.
Proof.
  intros Hwf. pose proof (fresh_lookup _ Hwf) as Hf. rewrite pushEntry_eq.
  unfold lookupEntry. cbn [index heap]. case_decide as Hd.
  - rewrite Hd, lookup_insert_eq. cbn. by rewrite lookup_insert_eq.
  - rewrite lookup_insert_ne by done. destruct (index c !! id) as [el|] eqn:Hi; [|done]. cbn.
    apply (wf_index _ Hwf) in Hi as (e' & He' & _). rewrite lookup_insert_ne; [done|].
    intros <-. congruence.
Qed.
End lookup.

(** ** Hits *)
Section touch.
Context {E : Type} `{CacheEntry E}.
Implicit Types (c : lru E) (e : E) (el : nat).

Lemma touch_eq c el e f :
  lru_wf c -> heap c !! el = Some e ->
  touch el f c =
    mkLru (policy c)
      (if e_pinned e then el :: listRemove el (hot c) else hot c)
      (if e_pinned e then main c else el :: listRemove el (main c))
      (index c) (<[el := f e]> (heap c)) (nextEl c) (bytesUsed c) (hotLimit c) (hotBytes c)
      (mkStats (Entries (stats c)) (BytesUsed (stats c)) (BytesLimit (stats c))
         (Hits (stats c) + 1) (Misses (stats c)) (Evictions (stats c))).
Proof.
  intros Hwf He. unfold touch, listMoveToFront. rewrite He.
  destruct (e_pinned e) eqn:Hp; cbn [main hot upd eta_expand eta_lru].
  - by rewrite bool_decide_true by (by apply (wf_pinned _ Hwf _ _ He)).
  - by rewrite bool_decide_true by (by apply (wf_not_hot _ _ _ Hwf He)).
Qed.

Lemma touch_entries c el e f l1 l2 :
  lru_wf c -> heap c !! el = Some e ->
  (if e_pinned e then hot c else main c) = l1 ++ el :: l2 ->
  hotEntries (touch el f c)
    = (if e_pinned e then f e :: entries (heap c) (l1 ++ l2) else hotEntries c) /\
  mainEntries (touch el f c)
    = (if e_pinned e then mainEntries c else f e :: entries (heap c) (l1 ++ l2)).
Proof.
  intros Hwf He Hl. destruct (remove_split _ _ _ Hwf He) as (k1 & k2 & Hk & Hn1 & Hn2 & Hrm & Ho).
  assert (Hnd : NoDup (l1 ++ el :: l2)).
  { rewrite <- Hl. pose proof (wf_nodup _ Hwf) as Hnd. apply NoDup_app in Hnd as (? & _ & ?).
    by destruct (e_pinned e). }
  apply NoDup_app in Hnd as (_ & Hd & Hnd2). apply NoDup_cons in Hnd2 as [Hn _].
  assert (Hn' : el ∉ l1) by (intros Hx; apply (Hd _ Hx); set_solver).
  rewrite (touch_eq _ _ _ _ Hwf He). unfold hotEntries, mainEntries. cbn [hot main heap].
  destruct (e_pinned e); rewrite Hl, listRemove_split by done;
    rewrite (entries_cons _ _ (f e)) by apply lookup_insert_eq;
    rewrite !entries_insert by set_solver; done.
Qed.

(** An update that a hit may make: the accounting fields stay. *)
Definition keeps (f : E -> E) : Prop := forall e,
  e_blobID (f e) = e_blobID e /\ e_size (f e) = e_size e /\
  e_pinned (f e) = e_pinned e /\ e_nonEvictable (f e) = e_nonEvictable e.

Lemma touch_lookup c el e f id :
  lru_wf c -> keeps f -> heap c !! el = Some e ->
  lookupEntry (touch el f c) id =
    if decide (id = e_blobID e) then Some (f e) else lookupEntry c id.
Proof.
  intros Hwf Hf He. rewrite (touch_eq _ _ _ _ Hwf He). unfold lookupEntry. cbn [index heap].
  case_decide as Hd.
  - assert (index c !! id = Some el) as -> by (apply (wf_index _ Hwf); eauto). cbn.
    by rewrite lookup_insert_eq.
  - destruct (index c !! id) as [el'|] eqn:Hi; [|done]. cbn.
    apply (wf_index _ Hwf) in Hi as (e' & He' & Hid). rewrite lookup_insert_ne; [done|].
    intros <-. congruence.
Qed.

Lemma touch_wf c el f : lru_wf c -> keeps f -> lru_wf (touch el f c).
Proof.
  intros Hwf Hf. destruct (heap c !! el) as [e|] eqn:He; [|by unfold touch; rewrite He].
  destruct (Hf e) as (Hfid & Hfs & Hfp & _).
  pose proof (remove_split _ _ _ Hwf He) as (l1 & l2 & Hl & Hn1 & Hn2 & Hrm & Ho).
  pose proof (touch_entries _ _ _ f _ _ Hwf He Hl) as [Heh Hem].
  assert (Hperm : (if e_pinned e then hot c else main c) ≡ₚ
                  el :: listRemove el (if e_pinned e then hot c else main c)).
  { rewrite Hrm, Hl. by rewrite Permutation_middle. }
  assert (Hsum : sumSizes (entries (heap c) (if e_pinned e then hot c else main c))
                 = sumSizes (f e :: entries (heap c) (l1 ++ l2))).
  { rewrite Hl, !entries_app, (entries_cons _ _ _ _ He). unfold sumSizes at 2. cbn [foldr].
    fold (sumSizes (entries (heap c) l1 ++ entries (heap c) l2)). rewrite !sumSizes_app.
    unfold sumSizes at 2. cbn [foldr]. fold (sumSizes (entries (heap c) l2)). lia. }
  destruct Hwf as [Hnd Hdom Hpin Hidx Hfr Hb Hhb Hst Hsb].
  split; rewrite ?Heh, ?Hem; clear Heh Hem;
    rewrite ?(touch_eq c el e f ltac:(by constructor) He);
    cbn [hot main index heap nextEl bytesUsed hotBytes stats policy Entries BytesUsed].
  - destruct (e_pinned e); by rewrite <- Hperm.
  - intros x. transitivity (x ∈ hot c ++ main c).
    + destruct (e_pinned e); by rewrite <- Hperm.
    + rewrite Hdom, lookup_insert_is_Some. destruct (decide (el = x)) as [<-|]; [|naive_solver].
      rewrite He. naive_solver.
  - intros x ex Hx. assert (Hx' : exists ex', heap c !! x = Some ex' /\ e_pinned ex' = e_pinned ex).
    { apply lookup_insert_Some in Hx as [[<- <-]|[_ Hx]]; eauto. }
    destruct Hx' as (ex' & Hx' & <-). rewrite (Hpin _ _ Hx').
    destruct (e_pinned e); by rewrite <- ?Hperm.
  - intros id x. rewrite Hidx. split; intros (ex & Hx & Hid).
    + destruct (decide (el = x)) as [<-|].
      * exists (f e). rewrite lookup_insert_eq. split; congruence.
      * exists ex. by rewrite lookup_insert_ne.
    + apply lookup_insert_Some in Hx as [[<- <-]|[_ Hx]]; [|by eauto].
      exists e. split; congruence.
  - intros x. rewrite lookup_insert_is_Some. intros [<-|[_ Hx]]; eauto.
  - rewrite Hb. unfold hotEntries, mainEntries in *. destruct (e_pinned e); rewrite Hsum; lia.
  - rewrite Hhb. unfold hotEntries in *. destruct (e_pinned e); by rewrite ?Hsum.
  - done.
  - done.
Qed.

Lemma miss_wf c : lru_wf c -> lru_wf (miss c).
Proof. intros []. by split. Qed.
End touch.

(** ** Eviction

    [dropLru excess l] is the reference for one eviction pass: [l] lists
    entries from the least recently used end, and evictable ones are
    dropped, oldest first, while [excess] bytes remain to be freed. *)
Section evict.
Context {E : Type} `{CacheEntry E}.
Implicit Types (c : lru E) (e : E) (el : nat).

Fixpoint dropLru (excess : Z) (l : list E) : list E :=
  match l with
  | [] => []
  | e :: l' =>
      if excess <=? 0 then l
      else if e_nonEvictable e then e :: dropLru excess l'
      else dropLru (excess - e_size e) l'
  end.

Definition allKept (l : list E) : Prop := Forall (fun e => e_nonEvictable e = true) l.

Lemma dropLru_done x l : x <= 0 -> dropLru x l = l.
Proof. destruct l; cbn; [done|]. by case (Z.leb_spec x 0); [|lia]. Qed.

Lemma dropLru_kept x l k : allKept l -> dropLru x (l ++ k) = l ++ dropLru x k.
Proof.
  intros Hl. destruct (Z_le_gt_dec x 0) as [Hx|Hx]; [by rewrite !dropLru_done|].
  induction Hl as [|e l He _ IH]; [done|]. cbn. case (Z.leb_spec x 0); [lia|]. intros _.
  by rewrite He, IH.
Qed.

Lemma dropLru_all_kept x l : allKept l -> dropLru x l = l.
Proof. intros Hl. pose proof (dropLru_kept x l [] Hl) as Hd. by rewrite !app_nil_r in Hd. Qed.

Lemma dropLru_step x l e k :
  allKept l -> e_nonEvictable e = false -> 0 < x ->
  dropLru x (l ++ e :: k) = dropLru (x - e_size e) (l ++ k).
Proof.
  intros Hl He Hx. rewrite !dropLru_kept by done. f_equal. cbn.
  case (Z.leb_spec x 0); [lia|]. by rewrite He.
Qed.

Lemma dropLru_sublist x l : sublist (dropLru x l) l.
Proof.
  revert x. induction l as [|e l IH]; intros x; cbn; [done|].
  case_match; [done|]. case_match; by constructor.
Qed.

(** Non-evictable entries survive the pass. *)
Lemma dropLru_keeps x l e : e ∈ l -> e_nonEvictable e = true -> e ∈ dropLru x l.
Proof.
  intros Hin He. revert x. induction l as [|e' l IH]; intros x; [set_solver|]. cbn.
  case_match; [done|]. apply elem_of_cons in Hin as [<-|Hin].
  - rewrite He. set_solver.
  - case_match; set_solver.
Qed.

(** The pass frees the excess unless only non-evictable entries remain. *)
Lemma dropLru_frees x l :
  sumSizes (dropLru x l) <= sumSizes l - x \/ allKept (dropLru x l) \/ x <= 0.
Proof.
  revert x. induction l as [|e l IH]; intros x; [right; left; constructor|].
  destruct (Z_le_gt_dec x 0) as [|Hx]; [by auto|]. cbn [dropLru].
  case (Z.leb_spec x 0); [lia|]. intros _. destruct (e_nonEvictable e) eqn:He.
  - destruct (IH x) as [Hs|[Hk|]]; [left|right; left; by constructor|lia].
    unfold sumSizes in *. cbn. lia.
  - destruct (IH (x - e_size e)) as [Hs|[Hk|Hz]]; [left|by auto|left].
    + unfold sumSizes in *. cbn. lia.
    + rewrite dropLru_done by done. unfold sumSizes. cbn. lia.
Qed.

Lemma walkPrev_Some h l el :
  walkPrev h l = Some el ->
  exists l1 l2 e, (l = l1 ++ el :: l2) /\ h !! el = Some e /\ e_nonEvictable e = false
    /\ allKept (entries h l1).
Proof.
  induction l as [|x l IH]; [done|]. cbn. destruct (h !! x) as [ex|] eqn:Hx; [|done].
  destruct (e_nonEvictable ex) eqn:Hne.
  - intros (l1 & l2 & e & -> & He & Hev & Hk)%IH. exists (x :: l1), l2, e.
    split; [done|]. repeat split; [done..|]. rewrite (entries_cons _ _ _ _ Hx). by constructor.
  - intros [= ->]. exists [], l, ex. repeat split; [done..|constructor].
Qed.

Lemma walkPrev_None h l :
  (forall el, el ∈ l -> is_Some (h !! el)) -> walkPrev h l = None -> allKept (entries h l).
Proof.
  induction l as [|x l IH]; [constructor|]. intros Hs. cbn.
  destruct (Hs x) as [ex Hx]; [set_solver|]. rewrite Hx.
  destruct (e_nonEvictable ex) eqn:Hne; [|done]. intros Hw. constructor; [done|].
  apply IH; [|done]. intros el Hel. apply Hs. set_solver.
Qed.
End evict.

(** ** The eviction loops implement the reference *)
Section evict_refine.
Context {E : Type} `{CacheEntry E}.
Implicit Types (c : lru E) (e : E) (el : nat).

(** What an eviction leaves alone; every entry that goes is counted. *)
Record frame (c c' : lru E) : Prop := {
  fr_policy : policy c' = policy c;
  fr_hotLimit : hotLimit c' = hotLimit c;
  fr_limit : BytesLimit (stats c') = BytesLimit (stats c);
  fr_hits : Hits (stats c') = Hits (stats c);
  fr_misses : Misses (stats c') = Misses (stats c);
  fr_evictions : Evictions (stats c') + len (hotEntries c' ++ mainEntries c')
                 = Evictions (stats c) + len (hotEntries c ++ mainEntries c)
}.

#[export] Instance frame_preorder : PreOrder frame.
Proof.
  split; [by split|]. intros c1 c2 c3 [] []. split; congruence.
Qed.

Lemma removeLocked_frame c el : lru_wf c -> frame c (removeLocked el c).
Proof.
  intros Hwf. destruct (heap c !! el) as [e|] eqn:He; [|by unfold removeLocked; rewrite He].
  pose proof (remove_split _ _ _ Hwf He) as (l1 & l2 & Hl & _).
  pose proof (removeLocked_entries _ _ _ _ _ Hwf He Hl) as [Heh Hem].
  split; rewrite ?Heh, ?Hem; clear Heh Hem;
    rewrite (removeLocked_eq _ _ _ He); cbn [policy hotLimit stats BytesLimit Hits Misses Evictions];
    try done.
  unfold hotEntries, mainEntries. destruct (e_pinned e); rewrite Hl, !entries_app, (entries_cons _ _ _ _ He);
    rewrite !len_app; unfold len; cbn [length]; lia.
Qed.

(** Evicting for [x] more bytes: first the main list, then the hot list
    once the main list has become empty. *)
Definition evictMainRef (x : Z) (h m : list E) : list E * list E :=
  let m' := rev (dropLru x (rev m)) in
  (match m' with [] => rev (dropLru (x - sumSizes m) (rev h)) | _ => h end, m').

Definition evictHotRef (x : Z) (h : list E) : list E := rev (dropLru x (rev h)).

(** One removal of the oldest evictable element of [l]. *)
Lemma walk_remove c (l : list nat) el :
  lru_wf c -> l = hot c \/ l = main c -> walkPrev (heap c) (rev l) = Some el ->
  exists e k1 k2, heap c !! el = Some e /\ e_nonEvictable e = false /\ allKept (entries (heap c) k1)
    /\ (rev l = k1 ++ el :: k2) /\ (l = rev k2 ++ el :: rev k1) /\ el ∈ l.
Proof.
  intros Hwf Hor (k1 & k2 & e & Hr & He & Hne & Hk)%walkPrev_Some.
  assert (Hl : l = rev k2 ++ el :: rev k1).
  { rewrite <- (rev_involutive l), Hr, rev_app_distr. cbn. by rewrite <- app_assoc. }
  exists e, k1, k2. repeat split; try done. rewrite Hl. set_solver.
Qed.

Lemma remove_main c el e (k1 k2 : list nat) x :
  lru_wf c -> heap c !! el = Some e -> e_nonEvictable e = false -> allKept (entries (heap c) k1) ->
  main c = rev k2 ++ el :: rev k1 -> 0 < x ->
  let c' := removeLocked el c in
  evictMainRef x (hotEntries c) (mainEntries c)
    = evictMainRef (x - e_size e) (hotEntries c') (mainEntries c')
  /\ bytesUsed c' = bytesUsed c - e_size e /\ (length (main c') < length (main c))%nat
  /\ hot c' = hot c.
Proof.
  intros Hwf He Hne Hk Hm Hx. cbn.
  assert (Hp : e_pinned e = false).
  { apply not_true_iff_false. rewrite (wf_pinned _ Hwf _ _ He). intros Hin.
    pose proof (wf_nodup _ Hwf) as (_ & Hd & _)%NoDup_app. apply (Hd _ Hin). rewrite Hm. set_solver. }
  pose proof (removeLocked_entries c el e (rev k2) (rev k1) Hwf He) as Hen.
  rewrite Hp in Hen. destruct (Hen Hm) as [Heh Hem]. rewrite Heh, Hem.
  assert (Hmain : mainEntries c = entries (heap c) (rev k2) ++ e :: entries (heap c) (rev k1)).
  { unfold mainEntries. by rewrite Hm, entries_app, (entries_cons _ _ _ _ He). }
  rewrite Hmain, entries_app, !entries_rev. repeat split.
  - unfold evictMainRef. rewrite !rev_app_distr. cbn [rev]. rewrite !rev_involutive.
    rewrite <- app_assoc. cbn [app]. rewrite dropLru_step by done.
    replace (x - sumSizes (rev (entries (heap c) k2) ++ e :: rev (entries (heap c) k1)))
      with (x - e_size e - sumSizes (rev (entries (heap c) k2) ++ rev (entries (heap c) k1)));
      [done|].
    rewrite !sumSizes_app. unfold sumSizes at 4. cbn [foldr].
    fold (sumSizes (rev (entries (heap c) k1))). lia.
  - rewrite (removeLocked_eq _ _ _ He). cbn. done.
  - rewrite (removeLocked_eq _ _ _ He), Hp. cbn [main].
    destruct (remove_split _ _ _ Hwf He) as (j1 & j2 & Hj & _ & _ & Hrm & _).
    rewrite Hp in Hj, Hrm. rewrite Hrm, Hj, !length_app. cbn. lia.
  - by rewrite (removeLocked_eq _ _ _ He), Hp.
Qed.

Lemma remove_hot c el e (k1 k2 : list nat) x :
  lru_wf c -> heap c !! el = Some e -> e_nonEvictable e = false -> allKept (entries (heap c) k1) ->
  hot c = rev k2 ++ el :: rev k1 -> 0 < x ->
  let c' := removeLocked el c in
  evictHotRef x (hotEntries c) = evictHotRef (x - e_size e) (hotEntries c')
  /\ bytesUsed c' = bytesUsed c - e_size e /\ hotBytes c' = hotBytes c - e_size e
  /\ (length (hot c') < length (hot c))%nat /\ main c' = main c /\ mainEntries c' = mainEntries c.
Proof.
  intros Hwf He Hne Hk Hm Hx. cbn.
  assert (Hp : e_pinned e = true) by (apply (wf_pinned _ Hwf _ _ He); rewrite Hm; set_solver).
  pose proof (removeLocked_entries c el e (rev k2) (rev k1) Hwf He) as Hen.
  rewrite Hp in Hen. destruct (Hen Hm) as [Heh Hem]. rewrite Heh, Hem.
  assert (Hh : hotEntries c = entries (heap c) (rev k2) ++ e :: entries (heap c) (rev k1)).
  { unfold hotEntries. by rewrite Hm, entries_app, (entries_cons _ _ _ _ He). }
  rewrite Hh, entries_app, !entries_rev. rewrite (removeLocked_eq _ _ _ He), Hp.
  cbn [bytesUsed hotBytes hot main]. repeat split.
  - unfold evictHotRef. rewrite !rev_app_distr. cbn [rev]. rewrite !rev_involutive.
    rewrite <- app_assoc. cbn [app]. by rewrite dropLru_step.
  - destruct (remove_split _ _ _ Hwf He) as (j1 & j2 & Hj & _ & _ & Hrm & _).
    rewrite Hp in Hj, Hrm. rewrite Hrm, Hj, !length_app. cbn. lia.
Qed.

Lemma live_list c (l : list nat) : lru_wf c -> l = hot c \/ l = main c ->
  forall el, el ∈ rev l -> is_Some (heap c !! el).
Proof.
  intros Hwf Hor el Hel. apply (wf_dom _ Hwf). apply list_elem_of_In, in_rev, list_elem_of_In in Hel.
  rewrite elem_of_app. naive_solver.
Qed.

Lemma mainEntries_nil c : lru_wf c -> mainEntries c = [] -> main c = [].
Proof.
  intros Hwf. apply entries_nil. intros el Hel. apply (wf_dom _ Hwf). set_solver.
Qed.

Lemma allKept_rev (l : list E) : allKept l <-> allKept (rev l).
Proof. unfold allKept. rewrite <- (Permutation_rev l). done. Qed.

Lemma evictMainRef_done x h m : x <= 0 -> evictMainRef x h m = (h, m).
Proof.
  intros Hx. unfold evictMainRef. rewrite dropLru_done, rev_involutive by done.
  destruct m; [|done]. by rewrite dropLru_done, rev_involutive by (cbn; lia).
Qed.

(** The entry the outer loop starts from: the main list, or the hot list
    when the main list is empty. *)
Lemma evictMainRef_stuck x c :
  lru_wf c -> walkPrev (heap c) (rev (match main c with [] => hot c | _ => main c end)) = None ->
  evictMainRef x (hotEntries c) (mainEntries c) = (hotEntries c, mainEntries c).
Proof.
  intros Hwf Hw. unfold evictMainRef.
  assert (Hlive : forall el, el ∈ rev (match main c with [] => hot c | _ => main c end) ->
                    is_Some (heap c !! el)).
  { apply live_list; [done|]. destruct (main c); auto. }
  apply walkPrev_None in Hw; [|done]. rewrite entries_rev in Hw.
  destruct (main c) as [|el0 l0] eqn:Hm.
  - assert (mainEntries c = []) as -> by (unfold mainEntries; by rewrite Hm).
    cbn. rewrite dropLru_all_kept by done. by rewrite rev_involutive.
  - rewrite <- Hm in Hw. fold (mainEntries c) in Hw.
    rewrite dropLru_all_kept by done. rewrite rev_involutive.
    destruct (mainEntries c) eqn:He; [|done].
    apply mainEntries_nil in He; [congruence|done].
Qed.

Lemma evictMainLoop_spec fuel incoming c :
  lru_wf c -> (length (hot c) + length (main c) < fuel)%nat ->
  let c' := evictMainLoop fuel incoming c in
  lru_wf c' /\ frame c c' /\ (hotEntries c', mainEntries c')
    = evictMainRef (bytesUsed c + incoming - MaxBytes (policy c)) (hotEntries c) (mainEntries c).
Proof.
  revert c. induction fuel as [|fuel IH]; intros c Hwf Hf; [lia|]. cbn [evictMainLoop].
  destruct (bytesUsed c + incoming >? MaxBytes (policy c)) eqn:Hgt; bool_hyps; bool_hyps.
  2: { split; [done|]. split; [done|]. by rewrite evictMainRef_done by lia. }
  destruct (walkPrev _ _) as [el|] eqn:Hw.
  2: { split; [done|]. split; [done|]. by rewrite evictMainRef_stuck. }
  apply walk_remove in Hw as (e & k1 & k2 & He & Hne & Hk & _ & Hl & _);
    [|done|by destruct (main c); auto].
  pose proof (removeLocked_wf c el Hwf) as Hwf'. pose proof (removeLocked_frame c el Hwf) as Hfr.
  assert (Hx : 0 < bytesUsed c + incoming - MaxBytes (policy c)) by lia.
  assert (Hstep : evictMainRef (bytesUsed c + incoming - MaxBytes (policy c)) (hotEntries c) (mainEntries c)
    = evictMainRef (bytesUsed (removeLocked el c) + incoming - MaxBytes (policy (removeLocked el c)))
        (hotEntries (removeLocked el c)) (mainEntries (removeLocked el c))
    /\ (length (hot (removeLocked el c)) + length (main (removeLocked el c)) < fuel)%nat).
  { rewrite (fr_policy _ _ Hfr). destruct (main c) as [|el0 l0] eqn:Hm.
    - destruct (remove_hot c el e k1 k2 _ Hwf He Hne Hk Hl Hx) as (Hev & -> & _ & Hlt & Hmn & Hme).
      assert (Hmz : mainEntries c = []) by (unfold mainEntries; by rewrite Hm).
      unfold evictMainRef. rewrite Hme, Hmz. cbn [dropLru rev]. unfold evictHotRef in Hev.
      replace (sumSizes []) with 0 by done. rewrite !Z.sub_0_r, Hev. rewrite Hmn, Hm in *. cbn in *.
      split; [|lia].
      replace (bytesUsed c - e_size e + incoming - MaxBytes (policy c))
        with (bytesUsed c + incoming - MaxBytes (policy c) - e_size e) by lia. done.
    - rewrite <- Hm in Hl. destruct (remove_main c el e k1 k2 _ Hwf He Hne Hk Hl Hx)
        as (Hev & -> & Hlt & ->). rewrite Hev. rewrite Hm in Hlt.
      split; [|lia]. f_equal. lia. }
  destruct Hstep as [-> Hf']. destruct (IH _ Hwf' Hf') as (? & ? & ?).
  split; [done|]. split; [by etransitivity|done].
Qed.

Lemma evictHotLoop_spec fuel incoming c :
  lru_wf c -> (length (hot c) < fuel)%nat ->
  let c' := evictHotLoop fuel incoming c in
  lru_wf c' /\ frame c c' /\ mainEntries c' = mainEntries c /\ hotEntries c' = evictHotRef (hotBytes c + incoming - hotLimit c) (hotEntries c).
Proof.
  revert c. induction fuel as [|fuel IH]; intros c Hwf Hf; [lia|]. cbn [evictHotLoop].
  destruct (hotBytes c + incoming >? hotLimit c) eqn:Hgt; bool_hyps; bool_hyps.
  2: { do 3 (split; [done|]). unfold evictHotRef. by rewrite dropLru_done, rev_involutive by lia. }
  destruct (walkPrev _ _) as [el|] eqn:Hw.
  2: { do 3 (split; [done|]). apply walkPrev_None in Hw; [|by apply live_list; auto].
       rewrite entries_rev in Hw. unfold evictHotRef. fold (hotEntries c) in Hw.
       by rewrite dropLru_all_kept, rev_involutive. }
  apply walk_remove in Hw as (e & k1 & k2 & He & Hne & Hk & _ & Hl & _); [|by auto..].
  pose proof (removeLocked_wf c el Hwf) as Hwf'. pose proof (removeLocked_frame c el Hwf) as Hfr.
  destruct (remove_hot c el e k1 k2 (hotBytes c + incoming - hotLimit c) Hwf He Hne Hk Hl)
    as (Hev & _ & Hhb & Hlt & _ & Hme); [lia|].
  destruct (IH (removeLocked el c) Hwf') as (? & ? & ? & Hre); [lia|].
  split; [done|]. split; [by etransitivity|]. split; [congruence|].
  rewrite Hre, Hev, Hhb, (fr_hotLimit _ _ Hfr). f_equal. lia.
Qed.

(** [evictMainLocked] and [evictHotLocked]: the fuel is enough. *)
Lemma evictMainLocked_spec incoming c :
  lru_wf c ->
  let c' := evictMainLocked incoming c in
  lru_wf c' /\ frame c c' /\ (hotEntries c', mainEntries c')
    = if MaxBytes (policy c) <=? 0 then (hotEntries c, mainEntries c)
      else evictMainRef (bytesUsed c + incoming - MaxBytes (policy c)) (hotEntries c) (mainEntries c).
Proof.
  intros Hwf. unfold evictMainLocked. destruct (_ <=? 0); [done|].
  apply evictMainLoop_spec; [done|]. lia.
Qed.

Lemma evictHotLocked_spec incoming c :
  lru_wf c ->
  let c' := evictHotLocked incoming c in
  lru_wf c' /\ frame c c' /\ mainEntries c' = mainEntries c /\ hotEntries c' = if hotLimit c <=? 0 then hotEntries c
                  else evictHotRef (hotBytes c + incoming - hotLimit c) (hotEntries c).
Proof.
  intros Hwf. unfold evictHotLocked. destruct (_ <=? 0); [done|].
  apply evictHotLoop_spec; [done|]. lia.
Qed.
End evict_refine.

(** ** Storing an entry

    The locked part both [Put] methods share: drop the old entry of the
    key, evict from the hot region if the new entry is pinned there, evict
    for capacity, push. *)
Section place.
Context {E : Type} `{CacheEntry E}.
Implicit Types (c : lru E) (e : E) (el : nat).

Definition placeEntry (e : E) (c : lru E) : lru E :=
  let c := removeExisting (e_blobID e) c in
  let c := if e_pinned e then evictHotLocked (e_size e) c else c in
  let c := evictMainLocked (e_size e) c in
  pushEntry (e_pinned e) e (e_size e) c.

Lemma lookup_lists c id e :
  lru_wf c ->
  lookupEntry c id = Some e <-> (e ∈ hotEntries c \/ e ∈ mainEntries c) /\ e_blobID e = id.
Proof.
  intros Hwf. rewrite lookupEntry_Some by done. unfold hotEntries, mainEntries.
  rewrite !elem_of_entries. split.
  - intros (el & He & Hid). split; [|done].
    pose proof (proj2 (wf_dom _ Hwf el) (mk_is_Some _ _ He)) as Hin%elem_of_app. naive_solver.
  - intros ([(el & _ & He)|(el & _ & He)] & Hid); eauto.
Qed.

Lemma size_nonneg_sum (l : list E) : (forall e, 0 <= e_size e) -> 0 <= sumSizes l.
Proof. intros Hs. induction l as [|e l IH]; unfold sumSizes in *; cbn; [lia|]. specialize (Hs e). lia. Qed.

(** *** The reference on entry lists *)
Definition dropId (id : string) (l : list E) : list E := filter (fun e => e_blobID e <> id) l.

Definition placeRef (mb hl : Z) (e : E) (h m : list E) : list E * list E :=
  let h := dropId (e_blobID e) h in
  let m := dropId (e_blobID e) m in
  let h := if e_pinned e && (0 <? hl) then evictHotRef (sumSizes h + e_size e - hl) h else h in
  let '(h, m) := if mb <=? 0 then (h, m)
                 else evictMainRef (sumSizes h + sumSizes m + e_size e - mb) h m in
  if e_pinned e then (e :: h, m) else (h, e :: m).

Lemma dropId_absent id l : (forall e, e ∈ l -> e_blobID e <> id) -> dropId id l = l.
Proof. intros Hl. apply list_filter_all, Forall_forall. done. Qed.

Lemma removeExisting_entries c id :
  lru_wf c ->
  hotEntries (removeExisting id c) = dropId id (hotEntries c) /\
  mainEntries (removeExisting id c) = dropId id (mainEntries c).
Proof.
  intros Hwf. unfold removeExisting. destruct (index c !! id) as [el|] eqn:Hi.
  - apply (wf_index _ Hwf) in Hi as (e & He & <-).
    destruct (remove_split _ _ _ Hwf He) as (l1 & l2 & Hl & Hn1 & Hn2 & _ & Ho).
    destruct (removeLocked_entries _ _ _ _ _ Hwf He Hl) as [-> ->].
    assert (Hdrop : forall l, el ∉ l -> dropId (e_blobID e) (entries (heap c) l) = entries (heap c) l).
    { intros l Hn. apply dropId_absent. intros e' (el' & Hin & He')%elem_of_entries Hid.
      pose proof (wf_injective _ _ _ _ _ Hwf He He' (eq_sym Hid)). congruence. }
    assert (Hsplit : dropId (e_blobID e) (entries (heap c) (l1 ++ el :: l2)) = entries (heap c) (l1 ++ l2)).
    { rewrite !entries_app, (entries_cons _ _ _ _ He). unfold dropId.
      rewrite filter_app, filter_cons_False by tauto. fold (dropId (e_blobID e)).
      fold (dropId (e_blobID e) (entries (heap c) l1)). fold (dropId (e_blobID e) (entries (heap c) l2)).
      by rewrite !Hdrop. }
    unfold hotEntries, mainEntries in *. destruct (e_pinned e); rewrite Hl, Hsplit, Hdrop; done.
  - split; symmetry; apply dropId_absent; intros e' Hin Hid.
    all: assert (lookupEntry c id = Some e') as Hl by (apply lookup_lists; auto).
    all: apply (index_None_lookup _ _ Hwf) in Hi; congruence.
Qed.

Lemma removeExisting_frame c id : lru_wf c -> frame c (removeExisting id c).
Proof. intros Hwf. unfold removeExisting. case_match; [by apply removeLocked_frame|done]. Qed.

Lemma evictHotRef_elem x h e : e ∈ evictHotRef x h -> e ∈ h.
Proof.
  unfold evictHotRef. rewrite elem_of_rev. intros Hin.
  pose proof (dropLru_sublist x (rev h)) as Hs.
  apply elem_of_rev. by eapply elem_of_sublist.
Qed.

Lemma evictHotRef_keeps x h e : e ∈ h -> e_nonEvictable e = true -> e ∈ evictHotRef x h.
Proof.
  intros Hin Hne. unfold evictHotRef. rewrite elem_of_rev. apply dropLru_keeps; [|done].
  by rewrite elem_of_rev.
Qed.

Lemma evictMainRef_elem x h m e :
  let '(h', m') := evictMainRef x h m in
  (e ∈ h' -> e ∈ h) /\ (e ∈ m' -> e ∈ m) /\
  (e_nonEvictable e = true -> (e ∈ h -> e ∈ h') /\ (e ∈ m -> e ∈ m')).
Proof.
  unfold evictMainRef. fold (evictHotRef x m) (evictHotRef (x - sumSizes m) h).
  split; [|split; [apply evictHotRef_elem|]].
  - destruct (evictHotRef x m); [apply evictHotRef_elem|done].
  - intros Hne. split; intros Hin; [|by apply evictHotRef_keeps].
    destruct (evictHotRef x m); [by apply evictHotRef_keeps|done].
Qed.

(** After the pass the excess is gone, or a non-evictable entry was in
    the way, or nothing is left. *)
Lemma evictMainRef_frees x h m :
  let '(h', m') := evictMainRef x h m in
  sumSizes h' + sumSizes m' <= sumSizes h + sumSizes m - x
  \/ (exists e, (e ∈ h \/ e ∈ m) /\ e_nonEvictable e = true)
  \/ x <= 0 \/ (h' = [] /\ m' = []).
Proof.
  unfold evictMainRef.
  destruct (dropLru_frees x (rev m)) as [Hs|[Hk|]]; [| |by auto].
  - rewrite sumSizes_rev in Hs. destruct (rev (dropLru x (rev m))) eqn:Hm.
    + assert (dropLru x (rev m) = []) as Hn.
      { rewrite <- (rev_involutive (dropLru x (rev m))), Hm. done. }
      rewrite Hn in Hs. cbn in Hs. rewrite dropLru_done, rev_involutive by lia.
      left. cbn. lia.
    + rewrite <- Hm, sumSizes_rev. left. lia.
  - destruct (dropLru x (rev m)) as [|e0 l0] eqn:Hd; cbn [rev].
    + destruct (dropLru_frees (x - sumSizes m) (rev h)) as [Hs|[Hk'|Hz]].
      * rewrite sumSizes_rev in *. left. cbn. lia.
      * destruct (dropLru (x - sumSizes m) (rev h)) as [|e1 l1] eqn:Hd'; [by auto|].
        right. left. exists e1. apply Forall_cons in Hk' as [Hne _]. split; [|done].
        left. apply elem_of_rev. eapply elem_of_sublist; [|apply (dropLru_sublist (x - sumSizes m))].
        rewrite Hd'. set_solver.
      * left. rewrite dropLru_done, rev_involutive by done. cbn. lia.
    + right. left. exists e0. apply Forall_cons in Hk as [Hne _]. split; [|done].
      right. apply elem_of_rev. eapply elem_of_sublist; [|apply (dropLru_sublist x)].
      rewrite Hd. set_solver.
Qed.

(** *** [placeEntry] implements [placeRef] *)
Lemma placeEntry_spec e c :
  lru_wf c ->
  let c' := placeEntry e c in
  lru_wf c' /\ policy c' = policy c /\ hotLimit c' = hotLimit c /\
  Hits (stats c') = Hits (stats c) /\ Misses (stats c') = Misses (stats c) /\
  BytesLimit (stats c') = BytesLimit (stats c) /\
  Evictions (stats c') + len (hotEntries c' ++ mainEntries c')
    = Evictions (stats c) + len (hotEntries c ++ mainEntries c) + 1 /\
  (hotEntries c', mainEntries c')
    = placeRef (MaxBytes (policy c)) (hotLimit c) e (hotEntries c) (mainEntries c).
Proof.
  intros Hwf. unfold placeEntry, placeRef.
  pose proof (removeExisting_wf c (e_blobID e) Hwf) as Hwf1.
  pose proof (removeExisting_frame c (e_blobID e) Hwf) as Hfr1.
  pose proof (removeExisting_lookup c (e_blobID e) (e_blobID e) Hwf) as Hno1.
  rewrite decide_True in Hno1 by done.
  destruct (removeExisting_entries c (e_blobID e) Hwf) as [Hh1 Hm1].
  revert Hwf1 Hfr1 Hno1 Hh1 Hm1. generalize (removeExisting (e_blobID e) c).
  intros c1 Hwf1 Hfr1 Hno1 Hh1 Hm1.
  assert (Habs : forall c0, lru_wf c0 ->
    (forall e', (e' ∈ hotEntries c0 -> e' ∈ hotEntries c1) /\ (e' ∈ mainEntries c0 -> e' ∈ mainEntries c1)) ->
    lookupEntry c0 (e_blobID e) = None).
  { intros c0 Hwf0 Hsub. destruct (lookupEntry c0 (e_blobID e)) as [e'|] eqn:Hl; [|done].
    apply (lookup_lists _ _ _ Hwf0) in Hl as [Hin Hid].
    assert (lookupEntry c1 (e_blobID e) = Some e') as Hl; [|congruence].
    apply (lookup_lists _ _ _ Hwf1). naive_solver. }
  set (c2 := if e_pinned e then evictHotLocked (e_size e) c1 else c1).
  destruct (evictHotLocked_spec (e_size e) c1 Hwf1) as (Hwf2 & Hfr2 & Hm2 & Hh2).
  assert (H2 : lru_wf c2 /\ frame c c2 /\ mainEntries c2 = mainEntries c1 /\
    hotEntries c2 = if e_pinned e && (0 <? hotLimit c)
                    then evictHotRef (sumSizes (hotEntries c1) + e_size e - hotLimit c) (hotEntries c1)
                    else hotEntries c1).
  { unfold c2. destruct (e_pinned e); [|done]. rewrite (wf_hotBytes _ Hwf1), (fr_hotLimit _ _ Hfr1) in Hh2.
    split; [done|]. split; [by etransitivity|]. split; [done|]. rewrite Hh2. cbn [andb].
    by case (Z.leb_spec (hotLimit c) 0), (Z.ltb_spec 0 (hotLimit c)); try lia. }
  clear Hwf2 Hfr2 Hm2 Hh2. destruct H2 as (Hwf2 & Hfr2 & Hm2 & Hh2).
  assert (Hsub2 : forall e', e' ∈ hotEntries c2 -> e' ∈ hotEntries c1).
  { intros e'. rewrite Hh2. case_match; [apply evictHotRef_elem|done]. }
  rewrite <- Hh1, <- Hm1, <- Hh2, <- Hm2. clearbody c2.
  destruct (evictMainLocked_spec (e_size e) c2 Hwf2) as (Hwf3 & Hfr3 & Href).
  revert Hwf3 Hfr3 Href. generalize (evictMainLocked (e_size e) c2). intros c3 Hwf3 Hfr3 Href.
  assert (Hfr : frame c c3) by (by etransitivity).
  rewrite (wf_bytes _ Hwf2), (fr_policy _ _ Hfr2) in Href. rewrite <- Href.
  assert (Hno3 : lookupEntry c3 (e_blobID e) = None).
  { apply Habs; [done|]. intros e'. rewrite <- Hm2.
    destruct (MaxBytes (policy c) <=? 0); injection Href as -> ->; [by auto|].
    pose proof (evictMainRef_elem (sumSizes (hotEntries c2) + sumSizes (mainEntries c2) + e_size e
                  - MaxBytes (policy c)) (hotEntries c2) (mainEntries c2) e') as Hel.
    destruct (evictMainRef _ _ _) as [h' m'] eqn:He. unfold evictMainRef in He. injection He as <- <-.
    naive_solver. }
  split; [by apply pushEntry_wf|]. destruct (pushEntry_entries c3 e Hwf3) as [-> ->].
  destruct Hfr as [Hp Hl Hbl Hh Hm Hev]. rewrite <- Hev. rewrite pushEntry_eq.
  cbn [policy hotLimit stats Hits Misses BytesLimit Evictions].
  do 5 (split; [done|]). split; [|by destruct (e_pinned e)].
  destruct (e_pinned e); rewrite !len_app; unfold len; cbn [length]; lia.
Qed.

Lemma elem_of_dropId id l e : e ∈ dropId id l <-> e ∈ l /\ e_blobID e <> id.
Proof. unfold dropId. rewrite list_elem_of_filter. tauto. Qed.

Lemma placeRef_elem mb hl e h m e' :
  e_blobID e' <> e_blobID e ->
  let '(h', m') := placeRef mb hl e h m in
  (e' ∈ h' \/ e' ∈ m' -> e' ∈ h \/ e' ∈ m) /\
  (e_nonEvictable e' = true -> e' ∈ h \/ e' ∈ m -> e' ∈ h' \/ e' ∈ m').
Proof.
  intros Hid. unfold placeRef.
  set (h1 := dropId _ h). set (m1 := dropId _ m).
  set (h2 := if e_pinned e && (0 <? hl) then evictHotRef (sumSizes h1 + e_size e - hl) h1 else h1).
  assert (H2 : (e' ∈ h2 -> e' ∈ h) /\ (e_nonEvictable e' = true -> e' ∈ h -> e' ∈ h2)).
  { unfold h2. destruct (_ && _); split.
    - intros Hin%evictHotRef_elem. by apply elem_of_dropId in Hin as [? _].
    - intros Hne Hin. apply evictHotRef_keeps; [|done]. by apply elem_of_dropId.
    - intros Hin. by apply elem_of_dropId in Hin as [? _].
    - intros Hne Hin. by apply elem_of_dropId. }
  assert (Hm1 : e' ∈ m1 <-> e' ∈ m) by (unfold m1; rewrite elem_of_dropId; tauto).
  assert (Hne' : e' <> e) by congruence.
  set (p3 := if mb <=? 0 then (h2, m1) else evictMainRef _ h2 m1).
  assert (H3 : (e' ∈ p3.1 -> e' ∈ h2) /\ (e' ∈ p3.2 -> e' ∈ m1) /\
               (e_nonEvictable e' = true -> (e' ∈ h2 -> e' ∈ p3.1) /\ (e' ∈ m1 -> e' ∈ p3.2))).
  { unfold p3. destruct (mb <=? 0); [done|].
    pose proof (evictMainRef_elem (sumSizes h2 + sumSizes m1 + e_size e - mb) h2 m1 e') as Hel.
    by destruct (evictMainRef _ _ _). }
  clearbody p3. destruct p3 as [h3 m3]. cbn in H3.
  destruct (e_pinned e); rewrite !elem_of_cons; naive_solver.
Qed.

Lemma placeEntry_wf e c : lru_wf c -> lru_wf (placeEntry e c).
Proof. intros Hwf. apply (placeEntry_spec e c Hwf). Qed.

Lemma placeEntry_elem e c : lru_wf c ->
  e ∈ hotEntries (placeEntry e c) \/ e ∈ mainEntries (placeEntry e c).
Proof.
  intros Hwf. pose proof (placeEntry_spec e c Hwf) as (_ & _ & _ & _ & _ & _ & _ & Href).
  unfold placeRef in Href. destruct (if MaxBytes (policy c) <=? 0 then _ else _) as [h3 m3].
  destruct (e_pinned e); injection Href as -> ->; set_solver.
Qed.

Lemma placeEntry_lookup e c : lru_wf c -> lookupEntry (placeEntry e c) (e_blobID e) = Some e.
Proof.
  intros Hwf. apply lookup_lists; [by apply placeEntry_wf|]. split; [by apply placeEntry_elem|done].
Qed.

(** Another key: a Put can only drop it, and never if it is non-evictable. *)
Lemma placeEntry_others e c id e' :
  lru_wf c -> id <> e_blobID e ->
  (lookupEntry (placeEntry e c) id = Some e' -> lookupEntry c id = Some e') /\
  (e_nonEvictable e' = true -> lookupEntry c id = Some e' ->
   lookupEntry (placeEntry e c) id = Some e').
Proof.
  intros Hwf Hid. pose proof (placeEntry_spec e c Hwf) as (Hwf' & _ & _ & _ & _ & _ & _ & Href).
  rewrite !lookup_lists by done.
  pose proof (placeRef_elem (MaxBytes (policy c)) (hotLimit c) e (hotEntries c) (mainEntries c) e') as Hel.
  rewrite <- Href in Hel. naive_solver.
Qed.

(** Capacity: storing an entry that fits leaves the cache within
    [MaxBytes], unless a non-evictable entry of another key is held. *)
Lemma placeEntry_capacity e c :
  lru_wf c -> 0 < MaxBytes (policy c) -> e_size e <= MaxBytes (policy c) ->
  bytesUsed (placeEntry e c) <= MaxBytes (policy c)
  \/ exists id e', id <> e_blobID e /\ lookupEntry c id = Some e' /\ e_nonEvictable e' = true.
Proof.
  intros Hwf Hmb Hsz. pose proof (placeEntry_spec e c Hwf) as (Hwf' & _ & _ & _ & _ & _ & _ & Href).
  rewrite (wf_bytes _ Hwf'). unfold placeRef in Href.
  set (m1 := dropId _ (mainEntries c)) in *. set (h1 := dropId _ (hotEntries c)) in *.
  set (h2 := if e_pinned e && (0 <? hotLimit c)
             then evictHotRef (sumSizes h1 + e_size e - hotLimit c) h1 else h1) in *.
  assert (Hh2 : forall e', e' ∈ h2 -> e' ∈ h1).
  { intros e'. unfold h2. destruct (_ && _); [apply evictHotRef_elem|done]. }
  destruct (Z.leb_spec (MaxBytes (policy c)) 0); [lia|].
  pose proof (evictMainRef_frees (sumSizes h2 + sumSizes m1 + e_size e - MaxBytes (policy c)) h2 m1) as Hfree.
  destruct (evictMainRef _ h2 m1) as [h3 m3] eqn:Heq.
  assert (Hsum : sumSizes (hotEntries (placeEntry e c)) + sumSizes (mainEntries (placeEntry e c))
                 = sumSizes h3 + sumSizes m3 + e_size e).
  { destruct (e_pinned e); injection Href as -> ->; unfold sumSizes; cbn; lia. }
  destruct Hfree as [Hs|[(e' & Hin & Hne)|[Hx|[-> ->]]]].
  - left. lia.
  - right. exists (e_blobID e'), e'.
    assert (Hin' : e' ∈ h1 \/ e' ∈ m1) by naive_solver.
    unfold h1, m1 in Hin'. rewrite !elem_of_dropId in Hin'.
    split; [tauto|]. split; [|done]. apply lookup_lists; [done|]. tauto.
  - left. rewrite evictMainRef_done in Heq by done. injection Heq as <- <-. lia.
  - left. rewrite Hsum. unfold sumSizes. cbn. lia.
Qed.
End place.
