(* ===== verification/MemoryCache.v ===== *)
(** * pkg/hotcache/memory_cache.go

    The in-memory L1 cache: [lru memEntry] plus the bodies. Every method
    takes the mutex for its whole body, so each is one atomic step. [now]
    is the reading of [c.clock()]. *)
From S2P Require Import Prelude GoStd HotCache LruCore.
Local Open Scope Z_scope.

Record memEntry := mkMemEntry {
  blobID : string;
  body : bytes;
  hash : string;
  storedAt : Time;
  lastAccess : Time;
  hits : Z;
  pinned : bool;
  nonEvictable : bool;
  expiresAt : Time
}.
#[export] Instance eta_memEntry : Eta memEntry := fun e =>
  mkMemEntry (blobID e) (body e) (hash e) (storedAt e) (lastAccess e) (hits e) (pinned e)
    (nonEvictable e) (expiresAt e).

#[export] Instance memEntry_CacheEntry : CacheEntry memEntry := {|
  e_blobID := blobID; e_size e := len (body e); e_pinned := pinned; e_nonEvictable := nonEvictable
|}.

Definition MemoryCache : Type := lru memEntry.

(** [NewMemoryCache]. *)
Definition NewMemoryCache (p : EvictionPolicy) : result MemoryCache :=
  let p := if bool_decide (Kind p = "") then p <| Kind := EvictionLRU |> else p in
  match Validate p with
  | Err e => Err e
  | Ok _ => Ok (newLru p)
  end.

(** [entry.hits++; entry.lastAccess = now]. *)
Definition bump (now : Time) (e : memEntry) : memEntry :=
  e <| hits := wrapU64 (hits e + 1) |> <| lastAccess := now |>.

(** The deadline check of [Get]. *)
Definition expired (now : Time) (e : memEntry) : bool :=
  negb (IsZero (expiresAt e)) && After now (expiresAt e).

Definition metadataOf (e : memEntry) : Metadata :=
  mkMetadata (blobID e) (len (body e)) (hash e) (storedAt e) (lastAccess e) (hits e) (pinned e)
    (nonEvictable e).

(** [MemoryCache.Get]. *)
Definition Get (now : Time) (id : string) : M MemoryCache (reader * Metadata) := fun c =>
  if bool_decide (id = "") then (c, Err (ErrNew "hotcache: blob_id is required")) else
  match index c !! id with
  | None => (miss c, Err (ErrSentinel HcCacheMiss))
  | Some el =>
      match heap c !! el with
      | None => (c, Err (ErrNew "nil element"))
      | Some entry =>
          if expired now entry then (miss (removeLocked el c), Err (ErrSentinel HcCacheMiss))
          else (touch el (bump now) c,
                Ok (bytes_NewReader (body entry), metadataOf (bump now entry)))
      end
  end.

(** The entry [Put] builds. *)
Definition newEntry (now : Time) (p : EvictionPolicy) (id : string) (data : bytes) (opts : PutOptions)
  : memEntry :=
  let pin := po_PinHot opts && bool_decide (Kind p = EvictionLRUHotPin) in
  let exp := if 0 <? po_TTL opts then now + po_TTL opts
             else if 0 <? TTL p then now + TTL p else zeroTime in
  mkMemEntry id data (po_Hash opts) now now 0 pin (po_NonEvictable opts) exp.

(** [MemoryCache.Put]. *)
Definition Put (now : Time) (id : string) (r : option reader) (opts : PutOptions)
  : M MemoryCache unit := fun c =>
  let mb := MaxBytes (policy c) in
  if bool_decide (id = "") then (c, Err (ErrNew "hotcache: blob_id is required")) else
  match r with
  | None => (c, Err (ErrNew "hotcache: reader is required"))
  | Some r =>
      if (0 <? po_SizeBytes opts) && (0 <? mb) && (mb <? po_SizeBytes opts)
      then (c, Err (ErrNew "hotcache: blob %d bytes exceeds cache capacity %d")) else
      let reader := if 0 <? mb then LimitReader r (wrap64 (mb + 1)) else r in
      match ReadAll reader with
      | Err e => (c, Err (ErrWrap "hotcache: buffer blob: %w" e))
      | Ok data =>
          if (0 <? mb) && (mb <? len data)
          then (c, Err (ErrNew "hotcache: blob %d bytes exceeds cache capacity %d"))
          else (placeEntry (newEntry now (policy c) id data opts) c, Ok tt)
      end
  end.

(** [MemoryCache.Evict]. *)
Definition Evict (id : string) : M MemoryCache unit := fun c =>
  match index c !! id with
  | None => (c, Ok tt)
  | Some el => (removeLocked el c, Ok tt)
  end.

#[export] Instance MemoryCache_Cache : Cache MemoryCache := {|
  c_Get := Get; c_Put := Put; c_Evict := Evict; c_Stats := stats
|}.

(** ** Reachable states *)
Inductive reachable (p : EvictionPolicy) : MemoryCache -> Prop :=
| reach_new c : NewMemoryCache p = Ok c -> reachable p c
| reach_get c c' now id r : reachable p c -> Get now id c = (c', r) -> reachable p c'
| reach_put c c' now id rd o r : reachable p c -> Put now id rd o c = (c', r) -> reachable p c'
| reach_evict c c' id r : reachable p c -> Evict id c = (c', r) -> reachable p c'.

Lemma bump_keeps now : keeps (bump now).
Proof. done. Qed.

(** The outcomes of [Get], by what the key holds. *)
Lemma Get_miss now id c :
  id <> "" -> lookupEntry c id = None -> lru_wf c ->
  Get now id c = (miss c, Err (ErrSentinel HcCacheMiss)).
Proof.
  intros Hid Hl Hwf. unfold Get. rewrite bool_decide_false by done.
  apply (index_None_lookup _ _ Hwf) in Hl. by rewrite Hl.
Qed.

Lemma Get_cases now id c e :
  id <> "" -> lookupEntry c id = Some e ->
  exists el, index c !! id = Some el /\ heap c !! el = Some e /\
  Get now id c =
    if expired now e then (miss (removeLocked el c), Err (ErrSentinel HcCacheMiss))
    else (touch el (bump now) c, Ok (bytes_NewReader (body e), metadataOf (bump now e))).
Proof.
  intros Hid Hl. unfold Get. rewrite bool_decide_false by done. unfold lookupEntry in Hl.
  destruct (index c !! id) as [el|]; [|done]. cbn in Hl. exists el. by rewrite Hl.
Qed.

Lemma Get_wf now id c c' r : lru_wf c -> Get now id c = (c', r) -> lru_wf c'.
Proof.
  intros Hwf. unfold Get. repeat case_match; intros [= <- <-]; try done.
  - by apply miss_wf, removeLocked_wf.
  - by apply touch_wf.
  - by apply miss_wf.
Qed.

Lemma Put_wf now id rd o c c' r : lru_wf c -> Put now id rd o c = (c', r) -> lru_wf c'.
Proof.
  intros Hwf. unfold Put. repeat case_match; intros [= <- <-]; try done; by apply placeEntry_wf.
Qed.

Lemma Evict_wf id c c' r : lru_wf c -> Evict id c = (c', r) -> lru_wf c'.
Proof. intros Hwf. unfold Evict. case_match; intros [= <- <-]; [by apply removeLocked_wf|done]. Qed.

Lemma policy_miss_remove el (c : MemoryCache) : policy (removeLocked el c) = policy c.
Proof. unfold removeLocked. destruct (heap c !! el) as [e|]; [|done]. by destruct (e_pinned e). Qed.

Lemma touch_policy el f (c : MemoryCache) : policy (touch el f c) = policy c.
Proof. unfold touch. destruct (heap c !! el) as [e|]; [|done]. by destruct (e_pinned e). Qed.

(** What a [Put] that returned nil has done. *)
Lemma Put_Ok_inv now id rd o c c' :
  Put now id rd o c = (c', Ok tt) ->
  id <> "" /\ exists r data, rd = Some r /\
    ReadAll (if 0 <? MaxBytes (policy c) then LimitReader r (wrap64 (MaxBytes (policy c) + 1)) else r)
      = Ok data /\
    (0 < MaxBytes (policy c) -> len data <= MaxBytes (policy c)) /\
    c' = placeEntry (newEntry now (policy c) id data o) c.
Proof.
  unfold Put. case_bool_decide as Hid; [done|]. destruct rd as [r|]; [|done].
  destruct (_ && _ && _); [done|]. destruct (ReadAll _) as [data|] eqn:Hr; [|done].
  destruct ((0 <? MaxBytes (policy c)) && (MaxBytes (policy c) <? len data)) eqn:Hc; [done|].
  intros [= <-]. split; [done|]. exists r, data. repeat split; try done.
  intros Hmb. apply andb_false_iff in Hc as [Hc|Hc]; bool_hyps; lia.
Qed.

Lemma Put_Err_same now id rd o c c' e : Put now id rd o c = (c', Err e) -> c' = c.
Proof. unfold Put. repeat case_match; by intros [= <- <-]. Qed.

(** A finite body that fits is stored whole. *)
Lemma Put_reader_whole (mb : Z) b data :
  0 < mb < maxInt64 -> ReadAll (LimitReader (bytes_NewReader b) (wrap64 (mb + 1))) = Ok data ->
  len data <= mb -> data = b.
Proof.
  unfold maxInt64. intros Hmb. rewrite wrap64_small by (unfold int64_range; lia).
  unfold LimitReader, ReadAll, bytes_NewReader. cbn [rd_bytes rd_err].
  destruct (Z.leb_spec (mb + 1) (len b)); cbn; intros [= <-]; [|done].
  rewrite len_takeZ by lia. intros Hl. lia.
Qed.

(** ** The invariant used by clients, and the interface laws *)
Record mem_inv (c : MemoryCache) : Prop := {
  mi_wf : lru_wf c;
  mi_noempty : lookupEntry c "" = None;
  mi_max : MaxBytes (policy c) < maxInt64;
  mi_ttl : TTL (policy c) <= 0
}.

(** The same without a word on the default deadline of the policy. *)
Record mem_ok (c : MemoryCache) : Prop := {
  mo_wf : lru_wf c;
  mo_noempty : lookupEntry c "" = None;
  mo_max : MaxBytes (policy c) < maxInt64
}.
Lemma mem_inv_ok c : mem_inv c <-> mem_ok c /\ TTL (policy c) <= 0.
Proof. split; [by intros []|by intros [[] ?]]. Qed.

Definition mem_holds (c : MemoryCache) (id : string) (b : bytes) : Prop :=
  exists e, lookupEntry c id = Some e /\ body e = b /\ IsZero (expiresAt e) = true.

Definition mem_protected (c : MemoryCache) (id : string) (b : bytes) : Prop :=
  exists e, lookupEntry c id = Some e /\ body e = b /\ IsZero (expiresAt e) = true
    /\ nonEvictable e = true.

Lemma Get_lookups now id c c' r :
  lru_wf c -> Get now id c = (c', r) ->
  policy c' = policy c /\
  forall id', lookupEntry c' id' = lookupEntry c id'
    \/ (id' = id /\ exists e, lookupEntry c id = Some e /\
         if expired now e then lookupEntry c' id' = None else lookupEntry c' id' = Some (bump now e)).
Proof.
  intros Hwf Hget. destruct (decide (id = "")) as [->|Hid].
  { unfold Get in Hget. cbn in Hget. injection Hget as <- _. auto. }
  destruct (lookupEntry c id) as [e|] eqn:Hl.
  - destruct (Get_cases now id c e Hid Hl) as (el & Hi & He & Heq). rewrite Heq in Hget.
    pose proof (lookupEntry_id _ _ _ Hwf Hl) as Hb. cbn in Hb.
    destruct (expired now e) eqn:Hexp; injection Hget as <- _.
    + split; [apply policy_miss_remove|]. intros id'.
      change (lookupEntry (miss (removeLocked el c)) id') with (lookupEntry (removeLocked el c) id').
      rewrite (removeLocked_lookup _ _ _ _ Hwf He). cbn. case_decide; subst; [|by auto].
      right. split; [done|]. exists e. by rewrite Hexp.
    + split; [apply touch_policy|]. intros id'.
      rewrite (touch_lookup _ _ _ _ _ Hwf (bump_keeps now) He). cbn. case_decide; subst; [|by auto].
      right. split; [done|]. exists e. by rewrite Hexp.
  - rewrite Get_miss in Hget by done. injection Hget as <- _. auto.
Qed.

Lemma Get_mem_ok now id c c' r : mem_ok c -> Get now id c = (c', r) -> mem_ok c' /\ policy c' = policy c.
Proof.
  intros [Hwf Hne Hmax] Hget. destruct (Get_lookups _ _ _ _ _ Hwf Hget) as [Hp Hl]. split; [|done].
  split; [by eapply Get_wf| |by rewrite Hp].
  destruct (Hl "") as [->|(Hq & e & He & _)]; [done|]. rewrite <- Hq in He. congruence.
Qed.

Lemma Get_mem_inv now id c c' r :
  mem_inv c -> Get now id c = (c', r) -> mem_inv c' /\
  forall id' b', (mem_holds c id' b' -> mem_holds c' id' b')
    /\ (mem_protected c id' b' -> mem_protected c' id' b').
Proof.
  intros [Hok Httl]%mem_inv_ok Hget. destruct (Get_lookups _ _ _ _ _ (mo_wf _ Hok) Hget) as [_ Hl].
  destruct (Get_mem_ok _ _ _ _ _ Hok Hget) as [Hok' Hp]. split.
  - apply mem_inv_ok. by rewrite Hp.
  - intros id' b'. destruct (Hl id') as [Heq|(-> & e & He & Hexp)].
    + unfold mem_holds, mem_protected. by rewrite Heq.
    + unfold mem_holds, mem_protected, expired in *. rewrite He. destruct (IsZero (expiresAt e)) eqn:Hz.
      * cbn in Hexp. rewrite Hexp. split; intros (e' & [= <-] & ?); by exists (bump now e).
      * split; [intros (e' & [= <-] & _ & Hz')|intros (e' & [= <-] & _ & Hz' & _)]; congruence.
Qed.

Lemma Get_mem_holds now id c b :
  mem_inv c -> mem_holds c id b ->
  exists c' md, Get now id c = (c', Ok (bytes_NewReader b, md)) /\ mem_inv c'
    /\ md_SizeBytes md = len b /\
    forall id' b', (mem_holds c id' b' -> mem_holds c' id' b')
      /\ (mem_protected c id' b' -> mem_protected c' id' b').
Proof.
  intros Hinv (e & Hl & <- & Hz).
  assert (Hid : id <> "") by (intros ->; rewrite (mi_noempty _ Hinv) in Hl; done).
  destruct (Get_cases now id c e Hid Hl) as (el & Hi & He & Heq).
  assert (Hx : expired now e = false) by (unfold expired; by rewrite Hz).
  rewrite Hx in Heq. eexists _, _. split; [exact Heq|].
  destruct (Get_mem_inv _ _ _ _ _ Hinv Heq). done.
Qed.

Lemma Put_mem_ok now id rd o c c' r : mem_ok c -> Put now id rd o c = (c', r) -> mem_ok c' /\ policy c' = policy c.
Proof.
  intros [Hwf Hne Hmax] Hput. destruct r as [[]|e].
  2: { apply Put_Err_same in Hput as ->. done. }
  pose proof Hput as (Hid & r & data & _ & _ & _ & ->)%Put_Ok_inv.
  set (e := newEntry now (policy c) id data o).
  destruct (placeEntry_spec e c Hwf) as (Hwf' & Hp & _). split; [|done].
  split; [done| |by rewrite Hp].
  destruct (lookupEntry (placeEntry e c) "") as [e'|] eqn:Hl; [|done].
  assert (Hne' : "" <> e_blobID e) by (intros Hc; by apply Hid).
  pose proof (proj1 (placeEntry_others e c "" e' Hwf Hne') Hl). congruence.
Qed.

(** Any Put keeps the invariant and every protected entry of other keys. *)
Lemma Put_mem_inv now id rd o c c' r :
  mem_inv c -> Put now id rd o c = (c', r) -> mem_inv c' /\
  forall id' b', id' <> id -> mem_protected c id' b' -> mem_protected c' id' b'.
Proof.
  intros [Hok Httl]%mem_inv_ok Hput. destruct (Put_mem_ok _ _ _ _ _ _ _ Hok Hput) as [Hok' Hp].
  split; [apply mem_inv_ok; by rewrite Hp|]. destruct r as [[]|e].
  2: { by apply Put_Err_same in Hput as ->. }
  pose proof Hput as (Hid & r & data & _ & _ & _ & ->)%Put_Ok_inv.
  intros id' b' Hne' (e' & Hl & Hb & Hz & Hn). exists e'. split; [|done].
  pose proof (mo_wf _ Hok). by apply placeEntry_others.
Qed.

Lemma Put_mem_holds now id b o c c' :
  mem_inv c -> po_TTL o <= 0 -> Put now id (Some (bytes_NewReader b)) o c = (c', Ok tt) ->
  mem_inv c' /\ mem_holds c' id b /\ (po_NonEvictable o = true -> mem_protected c' id b).
Proof.
  intros Hinv Ho Hput. split; [by eapply Put_mem_inv|].
  apply Put_Ok_inv in Hput as (Hid & r & data & [= <-] & Hr & Hle & ->).
  assert (data = b) as ->.
  { destruct (Z.ltb_spec 0 (MaxBytes (policy c))) as [Hmb|Hmb].
    - eapply Put_reader_whole; [|exact Hr|by apply Hle]. pose proof (mi_max _ Hinv). lia.
    - by injection Hr. }
  set (e := newEntry now (policy c) id b o).
  pose proof (placeEntry_lookup e c (mi_wf _ Hinv)) as Hl. cbn [e_blobID memEntry_CacheEntry] in Hl.
  assert (Hz : IsZero (expiresAt e) = true).
  { unfold e, newEntry. cbn [expiresAt]. pose proof (mi_ttl _ Hinv).
    destruct (Z.ltb_spec 0 (po_TTL o)); [lia|]. by destruct (Z.ltb_spec 0 (TTL (policy c))); [lia|]. }
  split; [by exists e|]. intros Hne. by exists e.
Qed.

Definition mem_content (c : MemoryCache) (id : string) (b : bytes) : Prop :=
  exists e, lookupEntry c id = Some e /\ body e = b.

Lemma Get_mem_content now id c c' r :
  mem_inv c -> Get now id c = (c', r) ->
  (forall id' b', mem_content c' id' b' -> mem_content c id' b') /\
  match r with
  | Ok (rd, _) => exists b, rd = bytes_NewReader b /\ mem_content c id b
  | Err e => id <> "" -> errors_Is e HcCacheMiss = true
  end.
Proof.
  intros [Hwf _ _ _] Hget. split.
  - intros id' b' (e' & Hl' & Hb). destruct (Get_lookups _ _ _ _ _ Hwf Hget) as [_ Hl].
    destruct (Hl id') as [Heq|(-> & e & He & Hexp)].
    + rewrite Heq in Hl'. by exists e'.
    + destruct (expired now e); [congruence|]. exists e. split; [done|].
      rewrite Hexp in Hl'. injection Hl' as <-. done.
  - destruct (decide (id = "")) as [->|Hid].
    { unfold Get in Hget. cbn in Hget. by injection Hget as _ <-. }
    destruct (lookupEntry c id) as [e|] eqn:Hl.
    + destruct (Get_cases now id c e Hid Hl) as (el & _ & _ & Heq). rewrite Heq in Hget.
      destruct (expired now e); injection Hget as _ <-; [done|]. exists (body e). split; [done|]. by exists e.
    + rewrite Get_miss in Hget by done. by injection Hget as _ <-.
Qed.

Lemma Put_mem_content now id b o c c' r id' b' :
  mem_inv c -> Put now id (Some (bytes_NewReader b)) o c = (c', r) -> mem_content c' id' b' ->
  mem_content c id' b' \/ (id' = id /\ b' = b).
Proof.
  intros Hinv Hput Hc. destruct r as [[]|e]; [|apply Put_Err_same in Hput as ->; by left].
  destruct Hc as (e' & Hl & Hb).
  pose proof Hput as (_ & r & data & [= <-] & Hr & Hle & ->)%Put_Ok_inv.
  set (e := newEntry now (policy c) id data o) in *.
  destruct (decide (id' = id)) as [->|Hne].
  - right. split; [done|]. pose proof (placeEntry_lookup e c (mi_wf _ Hinv)) as Hl2.
    cbn [e_blobID memEntry_CacheEntry e newEntry blobID] in Hl2. rewrite Hl in Hl2. injection Hl2 as ->.
    rewrite <- Hb. cbn [body e newEntry]. destruct (Z.ltb_spec 0 (MaxBytes (policy c))) as [Hmb|Hmb].
    + eapply Put_reader_whole; [|exact Hr|by apply Hle]. pose proof (mi_max _ Hinv). lia.
    + by injection Hr.
  - left. exists e'. split; [|done]. by apply (placeEntry_others e c id' e' (mi_wf _ Hinv) Hne).
Qed.

Lemma Evict_mem_frame id c c' r :
  mem_inv c -> Evict id c = (c', r) -> mem_inv c' /\
  (forall b, r = Ok tt -> ~ mem_content c' id b) /\
  forall id' b', (id' <> id -> mem_protected c id' b' -> mem_protected c' id' b')
    /\ (mem_content c' id' b' -> mem_content c id' b').
Proof.
  intros [Hwf Hne Hmax Httl]. unfold Evict. destruct (index c !! id) as [el|] eqn:Hi; intros [= <- <-].
  - destruct (lookupEntry c id) as [e|] eqn:Hl;
      [|apply (index_None_lookup _ _ Hwf) in Hl; congruence].
    pose proof Hl as He. unfold lookupEntry in He. rewrite Hi in He. cbn in He.
    pose proof (lookupEntry_id _ _ _ Hwf Hl) as Hb. cbn in Hb.
    assert (Hlk : forall id', lookupEntry (removeLocked el c) id' = if decide (id' = id) then None else lookupEntry c id').
    { intros id'. rewrite (removeLocked_lookup _ _ _ _ Hwf He). cbn. rewrite Hb. by destruct (decide (id' = id)). }
    split; [split; [by apply removeLocked_wf|rewrite Hlk; by case_decide|by rewrite policy_miss_remove..]|].
    split; [intros b _ (e' & He' & _); rewrite Hlk, decide_True in He' by done; done|].
    intros id' b'. unfold mem_protected, mem_content. rewrite Hlk. split.
    + intros Hd. by rewrite decide_False by done.
    + intros (e' & He' & ?). exists e'. by case_decide.
  - split; [done|]. split; [|done]. intros b _ (e' & He' & _).
    apply (index_None_lookup _ _ Hwf) in Hi. congruence.
Qed.

#[export] Program Instance MemoryCache_CacheLaws : CacheLaws MemoryCache := {|
  cache_inv := mem_inv; holds := mem_holds; protected := mem_protected; content := mem_content;
  cache_key id := id <> ""
|}.
Next Obligation. intros c id b _ (e & ? & ? & ? & ?). by exists e. Qed.
Next Obligation. intros c id b b' _ (e & ? & <- & _) (e' & ? & <-). congruence. Qed.
Next Obligation. intros now c id b. apply Get_mem_holds. Qed.
Next Obligation.
  intros now c id c' r Hi Hg. destruct (Get_mem_inv _ _ _ _ _ Hi Hg) as [? Hk].
  split; [done|]. intros id' b'. split; [by apply Hk|]. by apply (Get_mem_content _ _ _ _ _ Hi Hg).
Qed.
Next Obligation. intros now c id c' rd md Hi Hg. by apply (Get_mem_content _ _ _ _ _ Hi Hg). Qed.
Next Obligation. intros now c id c' e Hi Hid Hg. by apply (Get_mem_content _ _ _ _ _ Hi Hg). Qed.
Next Obligation. intros Hk. by apply Hk. Qed.
Next Obligation. intros now c id r o c' Hp. by apply Put_Ok_inv in Hp as [? _]. Qed.
Next Obligation. intros. by eapply Put_mem_holds. Qed.
Next Obligation. intros now c id r o c' res id' b' Hi Hp. by apply (Put_mem_inv _ _ _ _ _ _ _ Hi Hp). Qed.
Next Obligation. intros. by eapply Put_mem_content. Qed.
Next Obligation. intros now c id r o c' res Hi Hp. by apply (Put_mem_inv _ _ _ _ _ _ _ Hi Hp). Qed.
Next Obligation. intros c id c' res Hi He. by apply (Evict_mem_frame id). Qed.

(** ** Operation sequences *)
Inductive op :=
| OpGet (now : Time) (id : string)
| OpPut (now : Time) (id : string) (r : option reader) (o : PutOptions)
| OpEvict (id : string).

Definition exec1 (c : MemoryCache) (o : op) : MemoryCache :=
  match o with
  | OpGet now id => (Get now id c).1
  | OpPut now id r o => (Put now id r o c).1
  | OpEvict id => (Evict id c).1
  end.
Definition exec (c : MemoryCache) (ops : list op) : MemoryCache := foldl exec1 c ops.

(** The operations that may remove the entry of [id]. *)
Definition targets (id : string) (o : op) : bool :=
  match o with
  | OpGet _ _ => false
  | OpPut _ id' _ _ | OpEvict id' => bool_decide (id' = id)
  end.

Lemma Evict_removes id c : Evict id c = (removeExisting id c, Ok tt).
Proof. unfold Evict, removeExisting. by destruct (index c !! id). Qed.

Lemma Evict_mem_ok id c : mem_ok c -> mem_ok (removeExisting id c).
Proof.
  intros [Hwf Hne Hmax]. destruct (removeExisting_policy c id) as [Hp _]. split; [by apply removeExisting_wf| |by rewrite Hp].
  rewrite removeExisting_lookup by done. by case_decide.
Qed.

Lemma Evict_mem_inv id c c' r :
  mem_inv c -> Evict id c = (c', r) -> mem_inv c' /\
  forall id' b', id' <> id -> mem_protected c id' b' -> mem_protected c' id' b'.
Proof.
  intros [Hok Httl]%mem_inv_ok Hev. rewrite Evict_removes in Hev. injection Hev as <- <-. split.
  - apply mem_inv_ok. split; [by apply Evict_mem_ok|]. by rewrite (proj1 (removeExisting_policy c id)).
  - intros id' b' Hid (e & Hl & He). exists e. rewrite removeExisting_lookup by apply Hok.
    by rewrite decide_False.
Qed.

Lemma exec_app c ops ops' : exec c (ops ++ ops') = exec (exec c ops) ops'.
Proof. apply foldl_app. Qed.

Lemma exec1_inv c o :
  mem_inv c -> mem_inv (exec1 c o) /\
  forall id b, targets id o = false -> mem_protected c id b -> mem_protected (exec1 c o) id b.
Proof.
  intros Hinv. destruct o as [now id|now id r o|id]; cbn [exec1 targets].
  - destruct (Get now id c) as [c' res] eqn:Heq.
    destruct (Get_mem_inv _ _ _ _ _ Hinv Heq) as [? Hk]. split; [done|]. intros ? ? _. apply Hk.
  - destruct (Put now id r o c) as [c' res] eqn:Heq.
    destruct (Put_mem_inv _ _ _ _ _ _ _ Hinv Heq) as [? Hk]. split; [done|].
    intros id' b Ht. bool_hyps. apply Hk. congruence.
  - destruct (Evict id c) as [c' res] eqn:Heq.
    destruct (Evict_mem_inv _ _ _ _ Hinv Heq) as [? Hk]. split; [done|].
    intros id' b Ht. bool_hyps. apply Hk. congruence.
Qed.

Lemma exec_inv c ops :
  mem_inv c -> mem_inv (exec c ops) /\
  forall id b, forallb (fun o => negb (targets id o)) ops = true ->
    mem_protected c id b -> mem_protected (exec c ops) id b.
Proof.
  revert c. induction ops as [|o ops IH]; intros c Hinv; [done|].
  destruct (exec1_inv c o Hinv) as [Hinv1 Hk1]. destruct (IH _ Hinv1) as [Hinv' Hk].
  split; [done|]. cbn. intros id b [Ho Hops]%andb_true_iff Hp. apply negb_true_iff in Ho. auto.
Qed.

Lemma Validate_normalized p c :
  NewMemoryCache p = Ok c ->
  exists p', c = newLru p' /\ Validate p' = Ok tt /\
    p' = (if bool_decide (Kind p = "") then p <| Kind := EvictionLRU |> else p).
Proof.
  unfold NewMemoryCache. destruct (Validate _) as [[]|] eqn:Hv; [|done]. intros [= <-]. eauto.
Qed.

Lemma hotLimit_remove el (c : MemoryCache) : hotLimit (removeLocked el c) = hotLimit c.
Proof. unfold removeLocked. destruct (heap c !! el) as [e|]; [|done]. by destruct (e_pinned e). Qed.

Lemma hotLimit_touch el f (c : MemoryCache) : hotLimit (touch el f c) = hotLimit c.
Proof. unfold touch. destruct (heap c !! el) as [e|]; [|done]. by destruct (e_pinned e). Qed.

Lemma reachable_policy p c :
  reachable p c -> lru_wf c /\
  policy c = (if bool_decide (Kind p = "") then p <| Kind := EvictionLRU |> else p) /\
  hotLimit c = hotLimitOf (policy c).
Proof.
  induction 1 as [c Hn|c c' now id r _ (IH & IHp & IHl) Hg|c c' now id rd o r _ (IH & IHp & IHl) Hg
                 |c c' id r _ (IH & IHp & IHl) Hg].
  - apply Validate_normalized in Hn as (p' & -> & _ & ->). split; [apply newLru_wf|done].
  - split; [by eapply Get_wf|]. destruct (Get_lookups _ _ _ _ _ IH Hg) as [-> _]. split; [done|].
    rewrite <- IHl. revert Hg. unfold Get.
    destruct (bool_decide (id = "")); [by intros [= <- _]|].
    destruct (index c !! id) as [el|]; [|by intros [= <- _]].
    destruct (heap c !! el) as [e|]; [|by intros [= <- _]].
    destruct (expired now e); intros [= <- _]; [apply hotLimit_remove|apply hotLimit_touch].
  - split; [by eapply Put_wf|]. destruct r as [[]|]; [|by apply Put_Err_same in Hg as ->].
    apply Put_Ok_inv in Hg as (_ & r & data & _ & _ & _ & ->).
    by destruct (placeEntry_spec (newEntry now (policy c) id data o) c IH) as (_ & -> & -> & _).
  - split; [by eapply Evict_wf|]. unfold Evict in Hg. case_match; injection Hg as <- _; [|done].
    rewrite policy_miss_remove, hotLimit_remove. done.
Qed.

(** ** Properties *)

(** C2: in every reachable state the bookkeeping is exact: the two lists
    and the index describe the same entries without duplicates, [bytesUsed]
    is the sum of the body lengths, [hotBytes] that of the pinned ones, and
    the exported counters agree with them. *)
Theorem reachable_bookkeeping p c :
  reachable p c ->
  lru_wf c /\
  bytesUsed c = sumSizes (hotEntries c ++ mainEntries c) /\
  hotBytes c = sumSizes (hotEntries c) /\
  BytesUsed (stats c) = bytesUsed c /\ Entries (stats c) = Z.of_nat (size (index c)) /\
  (forall id, is_Some (index c !! id) <-> exists e, lookupEntry c id = Some e /\ blobID e = id) /\
  MaxBytes (policy c) = MaxBytes p.
Proof.
  intros (Hwf & Hp & _)%reachable_policy. pose proof Hwf as [_ _ _ _ _ Hb Hh He Hs].
  split; [done|]. rewrite sumSizes_app. do 4 (split; [done|]). split; [intros id; split|].
  - intros [el Hel].
    unfold lookupEntry. rewrite Hel. cbn. apply (wf_index _ Hwf) in Hel as (e & He' & Hid). eauto.
  - intros (e & Hl & _). unfold lookupEntry in Hl. destruct (index c !! id); [by eexists|done].
  - rewrite Hp. by case_bool_decide.
Qed.

(** C1: [Put] implements the list-level eviction specification: on success
    the hot and main lists, most recent first, are exactly those of
    [placeRef] - the key's old entry dropped, the least recently used
    evictable entries of the hot region dropped while a pinned newcomer does
    not fit it, the least recently used evictable entries of the main list
    (then of the hot list, once the main list is empty) dropped while the
    cache is over [MaxBytes], and the new entry in front - and the counters
    move by what was dropped. On error nothing changes. *)
Theorem Put_refines now id rd o c c' res :
  lru_wf c -> Put now id rd o c = (c', res) ->
  match res with
  | Err _ => c' = c
  | Ok _ => exists data,
      (0 < MaxBytes (policy c) -> len data <= MaxBytes (policy c)) /\
      (hotEntries c', mainEntries c')
        = placeRef (MaxBytes (policy c)) (hotLimit c) (newEntry now (policy c) id data o)
            (hotEntries c) (mainEntries c) /\
      Evictions (stats c') + len (hotEntries c' ++ mainEntries c')
        = Evictions (stats c) + len (hotEntries c ++ mainEntries c) + 1 /\
      Hits (stats c') = Hits (stats c) /\ Misses (stats c') = Misses (stats c)
  end.
Proof.
  intros Hwf Hput. destruct res as [[]|e]; [|by apply Put_Err_same in Hput].
  apply Put_Ok_inv in Hput as (_ & r & data & _ & _ & Hle & ->). exists data.
  by destruct (placeEntry_spec (newEntry now (policy c) id data o) c Hwf)
    as (_ & _ & _ & -> & -> & _ & -> & ->).
Qed.

(** C3: what was stored is what is read: after a successful [Put] of a
    body, a [Get] of that key before its deadline returns exactly that body,
    its length and the hash given to [Put]. *)
Theorem Put_Get now now' id b o c c' :
  mem_inv c -> Put now id (Some (bytes_NewReader b)) o c = (c', Ok tt) ->
  (0 < po_TTL o -> now' <= now + po_TTL o) ->
  exists c'' md, Get now' id c' = (c'', Ok (bytes_NewReader b, md)) /\
    md_BlobID md = id /\ md_SizeBytes md = len b /\ md_Hash md = po_Hash o /\
    md_NonEvictable md = po_NonEvictable o.
Proof.
  intros Hinv Hput Httl. apply Put_Ok_inv in Hput as (Hid & r & data & [= <-] & Hr & Hle & ->).
  assert (data = b) as ->.
  { destruct (Z.ltb_spec 0 (MaxBytes (policy c))) as [Hmb|Hmb].
    - eapply Put_reader_whole; [|exact Hr|by apply Hle]. pose proof (mi_max _ Hinv). lia.
    - by injection Hr. }
  set (e := newEntry now (policy c) id b o).
  pose proof (placeEntry_lookup e c (mi_wf _ Hinv)) as Hl. cbn [e_blobID memEntry_CacheEntry] in Hl.
  destruct (Get_cases now' id _ e Hid Hl) as (el & _ & _ & Heq).
  assert (Hx : expired now' e = false).
  { unfold expired, e, newEntry. cbn [expiresAt]. pose proof (mi_ttl _ Hinv).
    destruct (Z.ltb_spec 0 (po_TTL o)) as [Ho|Ho].
    - unfold After. rewrite (proj2 (Z.ltb_ge _ _)); [by rewrite andb_false_r|]. by apply Httl.
    - by destruct (Z.ltb_spec 0 (TTL (policy c))); [lia|]. }
  rewrite Hx in Heq. eexists _, _. split; [exact Heq|done].
Qed.

(** C4: a non-evictable entry without deadline survives any sequence of
    operations that does not name its key in a Put or an Evict, and is then
    still returned by Get. *)
Theorem nonevictable_survives c ops id b now :
  mem_inv c -> mem_protected c id b ->
  forallb (fun o => negb (targets id o)) ops = true ->
  exists md, (Get now id (exec c ops)).2 = Ok (bytes_NewReader b, md).
Proof.
  intros Hinv Hp Hops. destruct (exec_inv c ops Hinv) as [Hinv' Hk].
  specialize (Hk id b Hops Hp). destruct Hk as (e & Hl & Hb & Hz & _).
  destruct (Get_mem_holds now id (exec c ops) b Hinv') as (c' & md & -> & _); [by exists e|]. by exists md.
Qed.

(** C5: capacity: with a limit set, a successful [Put] leaves the cache
    within it unless it holds a non-evictable entry of another key. *)
Theorem Put_capacity now id rd o c c' :
  lru_wf c -> 0 < MaxBytes (policy c) -> Put now id rd o c = (c', Ok tt) ->
  bytesUsed c' <= MaxBytes (policy c') \/
  exists id' e, id' <> id /\ lookupEntry c id' = Some e /\ nonEvictable e = true.
Proof.
  intros Hwf Hmb (_ & r & data & _ & _ & Hle & ->)%Put_Ok_inv.
  set (e := newEntry now (policy c) id data o).
  destruct (placeEntry_spec e c Hwf) as (_ & -> & _).
  apply (placeEntry_capacity e c Hwf Hmb). cbn. auto.
Qed.

(** Every [Get] of a non-empty key counts exactly one hit or one miss,
    and it is a hit exactly when a body is returned. *)
Lemma Get_counts now id c c' r :
  lru_wf c -> id <> "" -> Get now id c = (c', r) ->
  (Hits (stats c'), Misses (stats c')) =
    if is_Ok r then (Hits (stats c) + 1, Misses (stats c)) else (Hits (stats c), Misses (stats c) + 1).
Proof.
  intros Hwf Hid Hg. destruct (lookupEntry c id) as [e|] eqn:Hl.
  - destruct (Get_cases now id c e Hid Hl) as (el & _ & He & Heq). rewrite Heq in Hg.
    destruct (expired now e); injection Hg as <- <-; cbn [is_Ok].
    + rewrite (removeLocked_eq _ _ _ He). done.
    + rewrite (touch_eq _ _ _ _ Hwf He). done.
  - rewrite Get_miss in Hg by done. by injection Hg as <- <-.
Qed.

(** the non-evictable blobs of the main list shield the hot list: with
    an evictable pinned entry present, a successful [Put] can leave the
    cache over its capacity, because the walk only starts in the hot list
    when the main list is empty. *)
Lemma hot_not_tried_behind_nonevictable :
  exists p c,
    reachable p c /\ MaxBytes (policy c) = 20 /\ bytesUsed c = 28 /\
    map (fun e => (blobID e, nonEvictable e)) (hotEntries c) = [("h", false)] /\
    map (fun e => (blobID e, nonEvictable e)) (mainEntries c) = [("n", false); ("m", true)].
Proof.
  set (p := mkEvictionPolicy EvictionLRUHotPin 20 (f64_lit 1 2) 1 0).
  set (o := fun pin ne => mkPutOptions 0 "" 0 pin ne).
  set (body := fun n => Some (bytes_NewReader (repeat x00 n))).
  exists p, (exec (newLru p) [OpPut 1 "h" (body 9%nat) (o true false);
    OpPut 2 "m" (body 9%nat) (o false true); OpPut 3 "n" (body 10%nat) (o false false)]).
  repeat split.
  do 3 (eapply reach_put; [|apply surjective_pairing]). by apply reach_new.
Qed.

(** A limit of [math.MaxInt64] makes [MaxBytes+1] wrap around, so the
    limited reader is at its end at once: the Put succeeds and the blob is
    stored empty. *)
Lemma maxint_limit_truncates now id b o c :
  lru_wf c -> id <> "" -> MaxBytes (policy c) = maxInt64 -> po_SizeBytes o <= maxInt64 ->
  exists c' e, Put now id (Some (bytes_NewReader b)) o c = (c', Ok tt) /\
    lookupEntry c' id = Some e /\ body e = [].
Proof.
  intros Hwf Hid Hmb Hsz. unfold Put. rewrite bool_decide_false, Hmb by done.
  replace (maxInt64 <? po_SizeBytes o) with false by (symmetry; apply Z.ltb_ge; lia).
  rewrite !andb_false_r. change (wrap64 (maxInt64 + 1)) with (- 2 ^ 63).
  change (0 <? maxInt64) with true. cbv iota. unfold LimitReader.
  assert (Hr : takeZ (- 2 ^ 63) b = []) by (by destruct b).
  replace (- 2 ^ 63 <=? len (rd_bytes (bytes_NewReader b))) with true
    by (symmetry; apply Z.leb_le; pose proof (len_nonneg (rd_bytes (bytes_NewReader b))); lia).
  cbn [ReadAll rd_err rd_bytes bytes_NewReader]. rewrite Hr. cbn [andb].
  change (maxInt64 <? len (@nil byte)) with false. cbv iota.
  exists (placeEntry (newEntry now (policy c) id [] o) c), (newEntry now (policy c) id [] o).
  split; [done|]. split; [|done].
  pose proof (placeEntry_lookup (newEntry now (policy c) id [] o) c Hwf) as Hl.
  by cbn [e_blobID memEntry_CacheEntry newEntry blobID] in Hl.
Qed.

(** ** Witnesses *)
Definition ex_policy := mkEvictionPolicy EvictionLRUHotPin 20 (f64_lit 1 2) 1 0.
Definition ex_pinned := mkPutOptions 3 "h" 5 true true.
Definition ex_kept := mkPutOptions 0 "" 0 false true.
Definition ex_body : bytes := [x01; x02; x03].
Definition ex_reader := Some (bytes_NewReader ex_body).

Lemma ex_inv p : MaxBytes p < maxInt64 -> TTL p <= 0 -> mem_inv (newLru p).
Proof. intros. split; [apply newLru_wf|done..]. Qed.

Lemma reachable_bookkeeping_witness :
  bytesUsed (exec (newLru ex_policy) [OpPut 1 "a" ex_reader ex_pinned; OpPut 2 "b" ex_reader ex_kept]) = 6.
Proof.
  refine (eq_trans (proj1 (proj2 (reachable_bookkeeping ex_policy _ _))) _).
  - do 2 (eapply reach_put; [|apply surjective_pairing]). by apply reach_new.
  - vm_compute. reflexivity.
Defined.

Lemma Put_refines_witness : exists data,
  (0 < 20 -> len data <= 20) /\
  (hotEntries (exec (newLru ex_policy) [OpPut 1 "a" ex_reader ex_pinned]), mainEntries (exec (newLru ex_policy) [OpPut 1 "a" ex_reader ex_pinned]))
    = placeRef 20 10 (newEntry 1 ex_policy "a" data ex_pinned) [] [].
Proof.
  destruct (Put_refines 1 "a" ex_reader ex_pinned (newLru ex_policy) _ (Ok tt) (newLru_wf ex_policy) eq_refl)
    as (data & H1 & H2 & _).
  exists data. split; [exact H1|exact H2].
Defined.

Lemma Put_Get_witness :
  exists c'' md, Get 6 "a" (exec (newLru ex_policy) [OpPut 1 "a" ex_reader ex_pinned]) = (c'', Ok (bytes_NewReader ex_body, md)) /\
    md_BlobID md = "a" /\ md_SizeBytes md = 3 /\ md_Hash md = "h" /\ md_NonEvictable md = true.
Proof.
  apply (Put_Get 1 6 "a" ex_body ex_pinned (newLru ex_policy)); [by apply ex_inv|reflexivity|cbn; lia].
Defined.

Lemma nonevictable_survives_witness : exists md,
  (Get 9 "a" (exec (exec (newLru ex_policy) [OpPut 1 "a" ex_reader ex_kept])
     [OpPut 2 "b" ex_reader ex_pinned; OpGet 3 "b"; OpEvict "b"; OpPut 4 "c" ex_reader ex_pinned])).2
  = Ok (bytes_NewReader ex_body, md).
Proof.
  apply nonevictable_survives; [|by eexists; repeat split|reflexivity].
  apply exec_inv. by apply ex_inv.
Defined.

Lemma Put_capacity_witness :
  let c' := exec (newLru ex_policy) [OpPut 1 "a" ex_reader ex_pinned] in
  bytesUsed c' <= MaxBytes (policy c') \/
  exists id' e, id' <> "a" /\ lookupEntry (newLru ex_policy) id' = Some e /\ nonEvictable e = true.
Proof.
  exact (Put_capacity 1 "a" ex_reader ex_pinned (newLru ex_policy) _ (newLru_wf ex_policy) eq_refl eq_refl).
Defined.

Lemma Get_counts_witness :
  (Hits (stats (Get 2 "a" (newLru ex_policy)).1), Misses (stats (Get 2 "a" (newLru ex_policy)).1)) = (0, 1).
Proof.
  exact (Get_counts 2 "a" (newLru ex_policy) _ _ (newLru_wf ex_policy) ltac:(discriminate) eq_refl).
Defined.

Lemma maxint_limit_truncates_witness :
  exists c' e, Put 1 "a" ex_reader ex_kept (newLru (DefaultEvictionPolicy maxInt64)) = (c', Ok tt) /\
    lookupEntry c' "a" = Some e /\ body e = [].
Proof.
  apply maxint_limit_truncates; [apply newLru_wf|discriminate|reflexivity|vm_compute; discriminate].
Defined.
