(* ===== verification/CircuitBreaker.v ===== *)
(** * pkg/blobstore/s3/circuit_breaker.go

    The breaker twice. First its methods as functions of the breaker's
    state, for one caller at a time. Then the machine the goroutines run:
    every atomic load and store and every lock operation of the methods is
    one step, and the steps of any number of goroutines interleave. *)
From S2P Require Import Prelude GoStd.
Local Open Scope Z_scope.

Inductive CircuitState := CircuitClosed | CircuitOpen | CircuitHalfOpen.
#[export] Instance CircuitState_eq_dec : EqDecision CircuitState.
Proof. solve_decision. Defined.

Record CircuitBreaker := mkCircuitBreaker {
  threshold : Z;
  resetTimeout : Z;
  cb_state : CircuitState;
  failures : Z;
  openedAt : Z;
  probeInFlight : bool
}.
#[export] Instance eta_CircuitBreaker : Eta CircuitBreaker := fun cb =>
  mkCircuitBreaker (threshold cb) (resetTimeout cb) (cb_state cb) (failures cb) (openedAt cb)
    (probeInFlight cb).

(** [NewCircuitBreaker]. *)
Definition NewCircuitBreaker (th : Z) (reset : Z) : CircuitBreaker :=
  mkCircuitBreaker (if th <? 1 then 10 else th) (if reset <=? 0 then 30 * Second else reset)
    CircuitClosed 0 0 false.

(** ** One caller at a time *)

(** The timeout test of [Allow]: [time.Now().UnixNano()-openedAt < resetTimeout]. *)
Definition tooEarly (now : Time) (cb : CircuitBreaker) : bool :=
  wrap64 (now - openedAt cb) <? resetTimeout cb.

(** [Allow]. *)
Definition Allow (now : Time) : M CircuitBreaker unit := fun cb =>
  match cb_state cb with
  | CircuitClosed => (cb, Ok tt)
  | CircuitOpen =>
      if tooEarly now cb then (cb, Err (ErrSentinel S3CircuitOpen))
      else match cb_state cb with
           | CircuitHalfOpen =>
               if probeInFlight cb then (cb, Err (ErrSentinel S3CircuitOpen))
               else (cb <| probeInFlight := true |>, Ok tt)
           | CircuitClosed => (cb, Ok tt)
           | CircuitOpen =>
               if probeInFlight cb then (cb, Err (ErrSentinel S3CircuitOpen))
               else (cb <| probeInFlight := true |> <| cb_state := CircuitHalfOpen |>, Ok tt)
           end
  | CircuitHalfOpen =>
      if probeInFlight cb then (cb, Err (ErrSentinel S3CircuitOpen))
      else (cb <| probeInFlight := true |>, Ok tt)
  end.

(** [RecordSuccess]. *)
Definition RecordSuccess (cb : CircuitBreaker) : CircuitBreaker :=
  match cb_state cb with
  | CircuitHalfOpen =>
      cb <| cb_state := CircuitClosed |> <| failures := 0 |> <| probeInFlight := false |>
  | _ => cb <| failures := 0 |>
  end.

(** [RecordFailure]. *)
Definition RecordFailure (now : Time) (cb : CircuitBreaker) : CircuitBreaker :=
  match cb_state cb with
  | CircuitHalfOpen =>
      cb <| cb_state := CircuitOpen |> <| openedAt := now |> <| probeInFlight := false |>
  | CircuitClosed =>
      let cb := cb <| failures := wrap64 (failures cb + 1) |> in
      if threshold cb <=? failures cb
      then cb <| cb_state := CircuitOpen |> <| openedAt := now |>
      else cb
  | CircuitOpen => cb
  end.

(** Completions of requests, in order: the time and whether it succeeded. *)
Definition record1 (cb : CircuitBreaker) (o : Time * bool) : CircuitBreaker :=
  if o.2 then RecordSuccess cb else RecordFailure o.1 cb.
Definition record (cb : CircuitBreaker) (os : list (Time * bool)) : CircuitBreaker :=
  foldl record1 cb os.

(** [hasRun k os]: [os] holds [k] consecutive failures. *)
Fixpoint runFrom (n k : Z) (os : list (Time * bool)) : bool :=
  match os with
  | [] => k <=? n
  | (_, true) :: os' => (k <=? n) || runFrom 0 k os'
  | (_, false) :: os' => (k <=? n) || runFrom (n + 1) k os'
  end.
Definition hasRun (k : Z) (os : list (Time * bool)) : bool := runFrom 0 k os.

Lemma runFrom_ge n k os : k <= n -> runFrom n k os = true.
Proof. intros H. destruct os as [|[t []] os]; cbn; by rewrite (proj2 (Z.leb_le k n) H). Qed.

Lemma record_open cb os : cb_state cb = CircuitOpen -> cb_state (record cb os) = CircuitOpen.
Proof.
  revert cb. induction os as [|[t []] os IH]; intros cb Ho; [done| |]; apply IH; cbn.
  - unfold RecordSuccess. by rewrite Ho.
  - unfold RecordFailure. by rewrite Ho.
Qed.

Lemma record_closed cb os :
  cb_state cb = CircuitClosed -> 0 <= failures cb < threshold cb -> threshold cb < 2 ^ 63 ->
  cb_state (record cb os)
    = if runFrom (failures cb) (threshold cb) os then CircuitOpen else CircuitClosed.
Proof.
  revert cb. induction os as [|[t []] os IH]; intros [th rt st fl oa pr] Hc [Hf0 Hf] Hth;
    cbn [cb_state failures threshold] in *; subst st; cbn [record foldl runFrom];
    rewrite (proj2 (Z.leb_gt th fl)) by lia; [done| |]; cbn [orb].
  - apply (IH (mkCircuitBreaker th rt CircuitClosed 0 oa pr)); cbn [cb_state failures threshold]; done || lia.
  - unfold record1, RecordFailure. cbn [snd fst upd eta_expand eta_CircuitBreaker threshold failures cb_state].
    rewrite wrap64_small by (unfold int64_range; lia).
    destruct (Z.leb_spec th (fl + 1)) as [Hle|Hgt].
    + rewrite runFrom_ge by done. by apply (record_open _ os).
    + apply (IH (mkCircuitBreaker th rt CircuitClosed (fl + 1) oa pr));
        cbn [cb_state failures threshold]; done || lia.
Qed.

(** ** The goroutine machine

    Program counters: the next shared-memory operation of a goroutine. *)
Inductive pc :=
| Idle
(* Allow *)
| AState                 (* state.Load *)
| AOpenedAt              (* openedAt.Load, time.Now *)
| AOpenLock              (* mu.Lock, open branch *)
| AOpenState             (* state.Load, second check *)
| AOpenHalfProbe         (* probeInFlight.Load, half-open by now *)
| AOpenHalfStore         (* probeInFlight.Store(true) *)
| AOpenProbe             (* probeInFlight.Load, still open *)
| AOpenStore             (* probeInFlight.Store(true) *)
| AOpenTransition        (* state.Store(CircuitHalfOpen) *)
| AHalfProbe             (* probeInFlight.Load *)
| AHalfLock              (* mu.Lock, half-open branch *)
| AHalfProbe2            (* probeInFlight.Load under the lock *)
| AHalfStore             (* probeInFlight.Store(true) *)
| AUnlock (granted : bool)
(* RecordSuccess *)
| SState | SLock | SStoreState | SStoreFailures | SStoreProbe | SReset
(* RecordFailure *)
| FState | FLock | FStoreState | FStoreOpenedAt | FStoreProbe
| FAdd | FLock2 | FState2 | FStoreState2 | FStoreOpenedAt2
| RUnlock.

Inductive method := MAllow | MRecordSuccess | MRecordFailure.

Record sys := mkSys {
  mem : CircuitBreaker;
  lock : option nat;
  pcs : gmap nat pc;
  clock : Time
}.
#[export] Instance eta_sys : Eta sys := fun s => mkSys (mem s) (lock s) (pcs s) (clock s).

Definition pcOf (s : sys) (t : nat) : pc := default Idle (pcs s !! t).
Definition goto (t : nat) (p : pc) (s : sys) : sys := s <| pcs := <[t := p]> (pcs s) |>.
Definition setMem (f : CircuitBreaker -> CircuitBreaker) (s : sys) : sys := s <| mem := f (mem s) |>.

(** What a step returns to the caller: nil or [ErrCircuitOpen] from [Allow]. *)
Inductive event := Silent | Returned (t : nat) (granted : bool).

Definition acquire (t : nat) (next : pc) (s : sys) : option (sys * event) :=
  match lock s with
  | None => Some (goto t next (s <| lock := Some t |>), Silent)
  | Some _ => None
  end.

(** The step of goroutine [t] at program counter [p]; [None] when it is
    blocked or idle. *)
Definition runPc (t : nat) (p : pc) (s : sys) : option (sys * event) :=
  let m := mem s in
  let go p := Some (goto t p s, Silent) in
  let store f p := Some (goto t p (setMem f s), Silent) in
  match p with
  | Idle => None
  | AState =>
      match cb_state m with
      | CircuitClosed => Some (goto t Idle s, Returned t true)
      | CircuitOpen => go AOpenedAt
      | CircuitHalfOpen => go AHalfProbe
      end
  | AOpenedAt =>
      if tooEarly (clock s) m then Some (goto t Idle s, Returned t false) else go AOpenLock
  | AOpenLock => acquire t AOpenState s
  | AOpenState =>
      match cb_state m with
      | CircuitClosed => go (AUnlock true)
      | CircuitHalfOpen => go AOpenHalfProbe
      | CircuitOpen => go AOpenProbe
      end
  | AOpenHalfProbe => go (if probeInFlight m then AUnlock false else AOpenHalfStore)
  | AOpenHalfStore => store (fun m => m <| probeInFlight := true |>) (AUnlock true)
  | AOpenProbe => go (if probeInFlight m then AUnlock false else AOpenStore)
  | AOpenStore => store (fun m => m <| probeInFlight := true |>) AOpenTransition
  | AOpenTransition => store (fun m => m <| cb_state := CircuitHalfOpen |>) (AUnlock true)
  | AHalfProbe =>
      if probeInFlight m then Some (goto t Idle s, Returned t false) else go AHalfLock
  | AHalfLock => acquire t AHalfProbe2 s
  | AHalfProbe2 => go (if probeInFlight m then AUnlock false else AHalfStore)
  | AHalfStore => store (fun m => m <| probeInFlight := true |>) (AUnlock true)
  | AUnlock g => Some (goto t Idle (s <| lock := None |>), Returned t g)
  | SState => go (if decide (cb_state m = CircuitHalfOpen) then SLock else SReset)
  | SLock => acquire t SStoreState s
  | SStoreState => store (fun m => m <| cb_state := CircuitClosed |>) SStoreFailures
  | SStoreFailures => store (fun m => m <| failures := 0 |>) SStoreProbe
  | SStoreProbe => store (fun m => m <| probeInFlight := false |>) RUnlock
  | SReset => store (fun m => m <| failures := 0 |>) Idle
  | FState =>
      match cb_state m with
      | CircuitHalfOpen => go FLock
      | CircuitClosed => go FAdd
      | CircuitOpen => go Idle
      end
  | FLock => acquire t FStoreState s
  | FStoreState => store (fun m => m <| cb_state := CircuitOpen |>) FStoreOpenedAt
  | FStoreOpenedAt => store (fun m => m <| openedAt := clock s |>) FStoreProbe
  | FStoreProbe => store (fun m => m <| probeInFlight := false |>) RUnlock
  | FAdd =>
      let n := wrap64 (failures m + 1) in
      store (fun m => m <| failures := n |>) (if threshold m <=? n then FLock2 else Idle)
  | FLock2 => acquire t FState2 s
  | FState2 => go (if decide (cb_state m = CircuitClosed) then FStoreState2 else RUnlock)
  | FStoreState2 => store (fun m => m <| cb_state := CircuitOpen |>) FStoreOpenedAt2
  | FStoreOpenedAt2 => store (fun m => m <| openedAt := clock s |>) RUnlock
  | RUnlock => Some (goto t Idle (s <| lock := None |>), Silent)
  end.

Definition run1 (t : nat) (s : sys) : option (sys * event) := runPc t (pcOf s t) s.

Definition entry (c : method) : pc :=
  match c with MAllow => AState | MRecordSuccess => SState | MRecordFailure => FState end.

(** The scheduler: call a method on an idle goroutine, run a goroutine for
    one step, let time pass. *)
Inductive act := Call (t : nat) (c : method) | Run (t : nat) | Tick (d : Z).

Definition step (s : sys) (a : act) : option (sys * event) :=
  match a with
  | Call t c =>
      match pcOf s t with Idle => Some (goto t (entry c) s, Silent) | _ => None end
  | Run t => run1 t s
  | Tick d => if 0 <=? d then Some (s <| clock := clock s + d |>, Silent) else None
  end.

Definition initSys (cb : CircuitBreaker) (now : Time) : sys := mkSys cb None ∅ now.

Inductive reachable (cb : CircuitBreaker) (now : Time) : sys -> Prop :=
| reach_init : reachable cb now (initSys cb now)
| reach_step s a s' e : reachable cb now s -> step s a = Some (s', e) -> reachable cb now s'.

(** Run a schedule; the events of [Allow] in order. *)
Fixpoint schedule (s : sys) (l : list act) : option (sys * list event) :=
  match l with
  | [] => Some (s, [])
  | a :: l' =>
      match step s a with
      | None => None
      | Some (s1, e) =>
          match schedule s1 l' with
          | None => None
          | Some (s2, es) => Some (s2, match e with Silent => es | _ => e :: es end)
          end
      end
  end.

Lemma schedule_reachable cb now s l s' es :
  reachable cb now s -> schedule s l = Some (s', es) -> reachable cb now s'.
Proof.
  revert s es. induction l as [|a l IH]; intros s es Hr; cbn; [by intros [= <- _]|].
  destruct (step s a) as [[s1 e]|] eqn:Hs; [|done].
  destruct (schedule s1 l) as [[s2 es2]|] eqn:Hl; [|done]. intros [= <- _].
  eapply IH; [|exact Hl]. by eapply reach_step.
Qed.

(** ** Lemmas on the sequential breaker *)
Definition fails (ts : list Time) : list (Time * bool) := map (fun t => (t, false)) ts.

Lemma runFrom_spec n k os :
  0 <= n < k ->
  runFrom n k os = true <->
    (exists ts os2, os = fails ts ++ os2 /\ n + len ts = k) \/
    (exists os1 ts os2, os = os1 ++ fails ts ++ os2 /\ len ts = k).
Proof.
  revert n. induction os as [|[t []] os IH]; intros n Hn; cbn [runFrom];
    rewrite (proj2 (Z.leb_gt k n)) by lia; cbn [orb].
  - split; [done|]. intros [(ts & os2 & He & Hl)|(os1 & ts & os2 & He & Hl)].
    + destruct ts; [|done]. unfold len in Hl. cbn in Hl. lia.
    + destruct os1, ts; try done. unfold len in Hl. cbn in Hl. lia.
  - rewrite IH by lia. split.
    + intros [(ts & os2 & -> & Hl)|(os1 & ts & os2 & -> & Hl)]; right.
      * by exists [(t, true)], ts, os2.
      * by exists ((t, true) :: os1), ts, os2.
    + intros [(ts & os2 & He & Hl)|([|x os1] & ts & os2 & He & Hl)].
      * destruct ts; [|done]. unfold len in Hl. cbn in Hl. lia.
      * destruct ts; [|done]. unfold len in Hl. cbn in Hl. lia.
      * right. injection He as _ ->. eauto.
  - destruct (decide (k <= n + 1)) as [Hk|Hk].
    { rewrite runFrom_ge by done. split; [|done]. intros _. left. exists [t], os.
      unfold len. cbn. split; [done|lia]. }
    rewrite IH by lia. split.
    + intros [(ts & os2 & -> & Hl)|(os1 & ts & os2 & -> & Hl)].
      * left. exists (t :: ts), os2. unfold len in *. cbn. split; [done|lia].
      * right. by exists ((t, false) :: os1), ts, os2.
    + intros [(ts & os2 & He & Hl)|([|x os1] & ts & os2 & He & Hl)].
      * destruct ts as [|t' ts]; [unfold len in Hl; cbn in Hl; lia|]. injection He as -> ->.
        left. exists ts, os2. unfold len in *. cbn in Hl. split; [done|lia].
      * destruct ts as [|t' ts]; [unfold len in Hl; cbn in Hl; lia|]. injection He as -> ->.
        destruct (decide (n = 0)) as [->|Hn0].
        -- left. exists ts, os2. unfold len in *. cbn in Hl. split; [done|lia].
        -- left. assert (Hlt : (Z.to_nat (k - n - 1) <= length ts)%nat) by (unfold len in Hl; cbn in Hl; lia).
           exists (take (Z.to_nat (k - n - 1)) ts), (fails (drop (Z.to_nat (k - n - 1)) ts) ++ os2).
           split.
           ++ unfold fails. rewrite app_assoc, <- map_app. by rewrite take_drop.
           ++ unfold len. rewrite length_take. lia.
      * right. injection He as _ ->. eauto.
Qed.

(** ** Invariants of the machine *)

(** Inside a critical section. *)
Definition locked (p : pc) : bool :=
  match p with
  | AOpenState | AOpenHalfProbe | AOpenHalfStore | AOpenProbe | AOpenStore | AOpenTransition
  | AHalfProbe2 | AHalfStore | AUnlock _ | SStoreState | SStoreFailures | SStoreProbe
  | FStoreState | FStoreOpenedAt | FStoreProbe | FState2 | FStoreState2 | FStoreOpenedAt2 | RUnlock => true
  | _ => false
  end.

(** What the holder of the lock knows. *)
Definition knows (p : pc) (m : CircuitBreaker) : Prop :=
  match p with
  | AOpenHalfProbe | AOpenHalfStore => cb_state m = CircuitHalfOpen
  | AOpenProbe => cb_state m = CircuitOpen
  | AOpenStore => cb_state m = CircuitOpen /\ probeInFlight m = false
  | AOpenTransition => cb_state m = CircuitOpen /\ probeInFlight m = true
  | AHalfStore => probeInFlight m = false
  | SStoreFailures | SStoreProbe => cb_state m = CircuitClosed
  | FStoreOpenedAt | FStoreProbe | FStoreOpenedAt2 => cb_state m = CircuitOpen
  | FStoreState2 => cb_state m = CircuitClosed
  | _ => True
  end.

Record inv (s : sys) : Prop := {
  inv_lock : forall t, locked (pcOf s t) = true <-> lock s = Some t;
  inv_knows : forall t, knows (pcOf s t) (mem s);
  inv_half : cb_state (mem s) = CircuitHalfOpen -> probeInFlight (mem s) = true
}.

Lemma pcOf_goto s t p t' : pcOf (goto t p s) t' = if decide (t' = t) then p else pcOf s t'.
Proof.
  unfold pcOf, goto. cbn. case_decide as Hd; [by rewrite Hd, lookup_insert_eq|].
  by rewrite lookup_insert_ne.
Qed.

Lemma pcOf_lock s l t : pcOf (s <| lock := l |>) t = pcOf s t.
Proof. done. Qed.

Lemma pcOf_setMem f s t : pcOf (setMem f s) t = pcOf s t.
Proof. done. Qed.

Lemma knows_unlocked p m : locked p = false -> knows p m.
Proof. by destruct p. Qed.

(** A step of the lock holder, or of a goroutine that does not touch the
    lock: the other goroutines' knowledge is about the lock or trivial. *)
Lemma inv_goto s t p f :
  inv s -> locked p = locked (pcOf s t) ->
  (locked p = false -> cb_state (f (mem s)) = cb_state (mem s) /\
     probeInFlight (f (mem s)) = probeInFlight (mem s)) ->
  knows p (f (mem s)) ->
  (cb_state (f (mem s)) = CircuitHalfOpen -> probeInFlight (f (mem s)) = true) ->
  inv (goto t p (setMem f s)).
Proof.
  intros [Hl Hk Hh] Hp Hu Hkp Hh'. split; [| |exact Hh'].
  - intros t'. rewrite pcOf_goto, pcOf_setMem. cbn [lock goto setMem].
    case_decide as Hd; [|apply Hl]. rewrite Hd, Hp. apply Hl.
  - intros t'. rewrite pcOf_goto, pcOf_setMem. cbn [mem goto setMem].
    case_decide as Hd; [done|].
    change (mem (goto t p (setMem f s))) with (f (mem s)).
    destruct (locked p) eqn:Hlp.
    + apply knows_unlocked. destruct (locked (pcOf s t')) eqn:Hlt; [|done].
      apply Hl in Hlt. symmetry in Hp. apply Hl in Hp. congruence.
    + destruct (Hu eq_refl) as [Hs Hpr]. specialize (Hk t').
      destruct (pcOf s t'); cbn in *; rewrite ?Hs, ?Hpr; done.
Qed.

Lemma inv_goto0 s t p :
  inv s -> locked p = locked (pcOf s t) -> knows p (mem s) -> inv (goto t p s).
Proof.
  intros Hi Hp Hk. replace s with (setMem id s) by by destruct s.
  apply inv_goto; try done. apply Hi.
Qed.

Lemma inv_acquire s t p s' e :
  inv s -> locked (pcOf s t) = false -> locked p = true -> knows p (mem s) ->
  acquire t p s = Some (s', e) -> inv s'.
Proof.
  intros [Hl Hk Hh] Hnl Hp Hkp. unfold acquire. destruct (lock s) as [o|] eqn:Ho; [done|].
  intros Heq. assert (s' = goto t p (s <| lock := Some t |>)) as -> by congruence.
  split; [| |exact Hh]; intros t'; rewrite pcOf_goto, pcOf_lock.
  -     cbn [lock goto upd eta_expand eta_sys]. case_decide as Hd.
    + split; intros; congruence.
    + rewrite Hl. split; congruence.
  - case_decide; [done|apply Hk].
Qed.

Lemma inv_release s t : inv s -> locked (pcOf s t) = true -> inv (goto t Idle (s <| lock := None |>)).
Proof.
  intros [Hl Hk Hh] Hp. split; [| |exact Hh]; intros t'; rewrite pcOf_goto, pcOf_lock.
  - cbn [lock goto upd eta_expand eta_sys]. case_decide as Hd; [done|].
    split; [|done]. intros Ht. apply Hl in Ht. apply Hl in Hp. congruence.
  - case_decide; [done|apply Hk].
Qed.

Lemma Some_pair_inv {A B} (a c : A) (b d : B) : Some (a, b) = Some (c, d) -> a = c /\ b = d.
Proof. by intros [= -> ->]. Qed.

(** One case of [run1]: a jump, a store, a release or an acquisition. *)
Ltac inv_case Hi Hp :=
  intros Ha;
  first
    [ eapply inv_acquire in Ha; [exact Ha|exact Hi|by rewrite Hp|done|done]
    | apply Some_pair_inv in Ha as [<- _];
      first
        [ apply inv_goto0; [exact Hi|rewrite Hp; by repeat case_match|by repeat case_match]
        | apply inv_release; [exact Hi|by rewrite Hp]
        | apply inv_goto; [exact Hi|rewrite Hp; by repeat case_match|done|by repeat case_match|done]
        | apply inv_goto; [exact Hi|rewrite Hp; by repeat case_match|cbn; naive_solver
                          |cbn; repeat case_match; naive_solver|cbn; congruence || naive_solver] ] ].

Lemma run1_inv s t s' e : inv s -> run1 t s = Some (s', e) -> inv s'.
Proof.
  intros Hi. pose proof (inv_knows _ Hi t) as Hkn. pose proof (inv_half _ Hi) as Hh.
  unfold run1, runPc. destruct (pcOf s t) eqn:Hp; cbn [knows] in Hkn; cbv zeta; [done|..].
  all: try (inv_case Hi Hp; fail).
  all: case_match; inv_case Hi Hp.
Qed.

Lemma step_inv s a s' e : inv s -> step s a = Some (s', e) -> inv s'.
Proof.
  intros Hi. destruct a as [t c|t|d]; cbn [step].
  - destruct (pcOf s t) eqn:Hp; try done. intros Ha. apply Some_pair_inv in Ha as [<- _].
    apply inv_goto0; [done|rewrite Hp; by destruct c|by destruct c].
  - by apply run1_inv.
  - destruct (0 <=? d); [|done]. intros Ha. apply Some_pair_inv in Ha as [<- _].
    destruct Hi as [Hl Hk Hh]. by split.
Qed.

Lemma reachable_inv cb now s :
  cb_state cb = CircuitClosed -> reachable cb now s -> inv s.
Proof.
  intros Hc. induction 1 as [|s a s' e _ IH Hs]; [|by eapply step_inv].
  split; cbn; [|done|congruence]. intros t. unfold pcOf. cbn. by rewrite lookup_empty.
Qed.

(** ** Running alone

    The steps of one method call, nothing else scheduled. *)
Fixpoint runAlone (fuel : nat) (t : nat) (s : sys) : option (sys * event) :=
  match fuel with
  | O => None
  | S fuel' =>
      match run1 t s with
      | None => None
      | Some (s1, e) =>
          match e, pcOf s1 t with
          | Silent, Idle => Some (s1, e)
          | Silent, _ => runAlone fuel' t s1
          | Returned _ _, _ => Some (s1, e)
          end
      end
  end.

Definition callAlone (t : nat) (c : method) (s : sys) : option (sys * event) :=
  match step s (Call t c) with
  | Some (s1, _) => runAlone 8 t s1
  | None => None
  end.

Lemma pcOf_goto_eq s t p : pcOf (goto t p s) t = p.
Proof. rewrite pcOf_goto. by rewrite decide_True. Qed.

Lemma runAlone_goto n t p s :
  runAlone (S n) t (goto t p s) =
    match runPc t p (goto t p s) with
    | None => None
    | Some (s1, e) =>
        match e, pcOf s1 t with
        | Silent, Idle => Some (s1, e)
        | Silent, _ => runAlone n t s1
        | Returned _ _, _ => Some (s1, e)
        end
    end.
Proof. cbn [runAlone]. unfold run1. by rewrite pcOf_goto_eq. Qed.

(** The wedge: open, with the probe flag left set, and no goroutine in a
    position to clear it. *)
Definition harmless (p : pc) : bool :=
  match p with
  | Idle | AState | AOpenedAt | AOpenLock | AOpenState | AOpenProbe | AHalfProbe | AHalfLock
  | AHalfProbe2 | AUnlock false | SState | SReset | FState | FLock2 | FAdd | FState2 | RUnlock => true
  | _ => false
  end.

Definition wedged (s : sys) : Prop :=
  cb_state (mem s) = CircuitOpen /\ probeInFlight (mem s) = true /\
  forall t, harmless (pcOf s t) = true.

Lemma wedged_mem s t p f :
  wedged s -> harmless p = true -> cb_state (f (mem s)) = CircuitOpen ->
  probeInFlight (f (mem s)) = true -> wedged (goto t p (setMem f s)).
Proof.
  intros (_ & _ & Hh) Hp Hs Hpr. split; [done|]. split; [done|].
  intros t'. rewrite pcOf_goto, pcOf_setMem. by case_decide.
Qed.

Lemma wedged_goto s t p l :
  wedged s -> harmless p = true -> wedged (goto t p (s <| lock := l |>)).
Proof.
  intros (Hs & Hpr & Hh) Hp. split; [done|]. split; [done|].
  intros t'. rewrite pcOf_goto, pcOf_lock. by case_decide.
Qed.

Lemma wedged_step s a s' e :
  wedged s -> step s a = Some (s', e) ->
  wedged s' /\ match e with Returned _ g => g = false | Silent => True end.
Proof.
  intros Hw Hst. pose proof Hw as (Hs & Hpr & Hh).
  assert (Hgo : forall t p, harmless p = true -> wedged (goto t p s)).
  { intros t p Hp. replace s with (s <| lock := lock s |>) by by destruct s. by apply wedged_goto. }
  assert (Hacq : forall t p, harmless p = true -> acquire t p s = Some (s', e) ->
            wedged s' /\ match e with Returned _ g => g = false | Silent => True end).
  { intros t p Hp. unfold acquire. destruct (lock s); [done|]. intros Ha.
    apply Some_pair_inv in Ha as [<- <-]. split; [|done]. by apply wedged_goto. }
  destruct a as [t c|t|d]; cbn [step] in Hst.
  - destruct (pcOf s t); try done. apply Some_pair_inv in Hst as [<- <-]. split; [|done].
    apply Hgo. by destruct c.
  - specialize (Hh t). unfold run1, runPc in Hst. rewrite Hs, Hpr in Hst.
    destruct (pcOf s t); try match goal with g : bool |- _ => destruct g end; try done;
      cbv zeta in Hst; try (eapply Hacq; [|exact Hst]; done);
      repeat match type of Hst with context [match ?x with _ => _ end] => destruct x end;
      apply Some_pair_inv in Hst as [<- <-]; (split; [|done]);
      first [by apply Hgo | by apply wedged_goto | apply wedged_mem; (done || by case_match)].
  - destruct (0 <=? d); [|done]. apply Some_pair_inv in Hst as [<- <-]. split; [|done].
    split; [done|]. split; [done|]. intros t. apply Hh.
Qed.

(** The effect of a method run alone by goroutine [t], which was idle and
    is idle again. *)
Definition aloneResult (t : nat) (s : sys) (r : option (sys * event)) (m : CircuitBreaker) (e : event)
  : Prop :=
  exists s', r = Some (s', e) /\ mem s' = m /\ lock s' = None /\ clock s' = clock s
    /\ forall t', pcOf s' t' = pcOf s t'.

Create Rewrite HintDb cb.
Lemma mem_goto t p s : mem (goto t p s) = mem s.
Proof. done. Qed.
Lemma lock_goto t p s : lock (goto t p s) = lock s.
Proof. done. Qed.
Lemma clock_goto t p s : clock (goto t p s) = clock s.
Proof. done. Qed.
Lemma mem_setMem f s : mem (setMem f s) = f (mem s).
Proof. done. Qed.
Lemma lock_setMem f s : lock (setMem f s) = lock s.
Proof. done. Qed.
Lemma clock_setMem f s : clock (setMem f s) = clock s.
Proof. done. Qed.
Lemma mem_lock s l : mem (s <| lock := l |>) = mem s.
Proof. done. Qed.
Lemma lock_lock s l : lock (s <| lock := l |>) = l.
Proof. done. Qed.
Lemma clock_lock s l : clock (s <| lock := l |>) = clock s.
Proof. done. Qed.
#[export] Hint Rewrite mem_goto lock_goto clock_goto mem_setMem lock_setMem clock_setMem
  mem_lock lock_lock clock_lock pcOf_goto_eq : cb.

(** Run one step of the goroutine and simplify the state it reads. *)
Ltac alone_step :=
  rewrite runAlone_goto; cbn [runPc]; unfold acquire; autorewrite with cb;
  repeat match goal with
  | H : lock ?s = _ |- context [lock ?s] => rewrite H
  | H : cb_state (mem ?s) = _ |- context [cb_state (mem ?s)] => rewrite H
  | H : probeInFlight (mem ?s) = _ |- context [probeInFlight (mem ?s)] => rewrite H
  | H : tooEarly ?n ?m = _ |- context [tooEarly ?n ?m] => rewrite H
  end; autorewrite with cb; cbv iota beta zeta;
  repeat match goal with
  | |- context [decide (?x = CircuitHalfOpen)] => destruct (decide (x = CircuitHalfOpen)); try congruence
  | |- context [decide (?x = CircuitClosed)] => destruct (decide (x = CircuitClosed)); try congruence
  end; cbv iota.

Ltac alone_done Hp :=
  eexists; split; [reflexivity|]; autorewrite with cb; (do 3 (split; [by try done|]));
  intros t0; repeat first [rewrite pcOf_goto | rewrite pcOf_setMem | rewrite pcOf_lock];
  destruct (decide (t0 = _)) as [->|]; [by rewrite Hp|done].

Lemma callAlone_Allow t s :
  pcOf s t = Idle -> lock s = None ->
  aloneResult t s (callAlone t MAllow s) (Allow (clock s) (mem s)).1
    (Returned t (is_Ok (Allow (clock s) (mem s)).2)).
Proof.
  intros Hp Hl. unfold callAlone, step. rewrite Hp. cbn [entry]. unfold Allow.
  destruct (cb_state (mem s)) eqn:Hs.
  - alone_step. alone_done Hp.
  - do 1 alone_step. destruct (tooEarly (clock s) (mem s)) eqn:He.
    + alone_step. alone_done Hp.
    + destruct (probeInFlight (mem s)) eqn:Hpr; repeat alone_step; alone_done Hp.
  - destruct (probeInFlight (mem s)) eqn:Hpr; repeat alone_step; alone_done Hp.
Qed.

Lemma callAlone_RecordSuccess t s :
  pcOf s t = Idle -> lock s = None ->
  aloneResult t s (callAlone t MRecordSuccess s) (RecordSuccess (mem s)) Silent.
Proof.
  intros Hp Hl. unfold callAlone, step. rewrite Hp. cbn [entry]. unfold RecordSuccess.
  destruct (cb_state (mem s)) eqn:Hs; do 1 alone_step; repeat alone_step; alone_done Hp.
Qed.

Lemma callAlone_RecordFailure t s :
  pcOf s t = Idle -> lock s = None ->
  aloneResult t s (callAlone t MRecordFailure s) (RecordFailure (clock s) (mem s)) Silent.
Proof.
  intros Hp Hl. unfold callAlone, step. rewrite Hp. cbn [entry]. unfold RecordFailure.
  destruct (cb_state (mem s)) eqn:Hs.
  - do 2 alone_step.
    set (m1 := (mem s) <| failures := wrap64 (failures (mem s) + 1) |>).
    change (threshold m1) with (threshold (mem s)).
    change (failures m1) with (wrap64 (failures (mem s) + 1)).
    destruct (threshold (mem s) <=? wrap64 (failures (mem s) + 1)); [|alone_done Hp].
    do 2 alone_step; [|by exfalso].
    repeat alone_step. alone_done Hp.
  - alone_step. alone_done Hp.
  - repeat alone_step. alone_done Hp.
Qed.

(** A goroutine about to be granted a request. *)
Definition granting (p : pc) : bool :=
  match p with
  | AUnlock true | AOpenHalfStore | AOpenStore | AOpenTransition | AHalfStore => true
  | _ => false
  end.

(** [hasWedge]: the schedule of the race, with threshold 1 and a reset
    timeout of five ticks. Goroutine 2 reads "half-open" and stalls; the
    probe of goroutine 1 succeeds; goroutine 2 then takes the probe flag of
    a breaker that is closed by now. *)
Definition call (t : nat) (c : method) (n : nat) : list act := Call t c :: repeat (Run t) n.
Definition wedge_schedule : list act :=
  call 0 MRecordFailure 7 ++ [Tick 5] ++ call 1 MAllow 8 ++ call 2 MAllow 1 ++
  call 1 MRecordSuccess 6 ++ repeat (Run 2) 5 ++ call 2 MRecordFailure 7.

(** The opener stalls between publishing the state and the opening time. *)
Definition early_schedule : list act :=
  call 0 MRecordFailure 5 ++ call 1 MAllow 2 ++ repeat (Run 0) 2 ++ repeat (Run 1) 6.

(** ** Properties *)

(** C9: a breaker that starts closed is open after a sequence of completed
    requests exactly when the sequence contains [threshold] consecutive
    failures; a success in between starts the count again, and a breaker
    that has opened is not closed by late completions. *)
Theorem opens_iff_consecutive_failures th reset os :
  1 <= th < 2 ^ 63 ->
  cb_state (record (NewCircuitBreaker th reset) os) = CircuitOpen <->
  exists os1 ts os2, os = os1 ++ fails ts ++ os2 /\ len ts = th.
Proof.
  intros Hth. assert (Hn : threshold (NewCircuitBreaker th reset) = th).
  { unfold NewCircuitBreaker. cbn [threshold]. destruct (Z.ltb_spec th 1); [lia|done]. }
  rewrite record_closed by (rewrite ?Hn; done || cbn -[Z.pow Z.ltb]; lia).
  rewrite Hn. cbn [failures NewCircuitBreaker].
  pose proof (runFrom_spec 0 th os ltac:(lia)) as Hr. destruct (runFrom 0 th os).
  - split; [|done]. intros _. destruct (proj1 Hr eq_refl) as [(ts & os2 & -> & Hl)|Hx]; [|done].
    exists [], ts, os2. split; [done|lia].
  - split; [done|]. intros Hx. assert (false = true); [|done]. apply Hr. by right.
Qed.

(** the life of an open breaker, one caller at a time: until the reset
    timeout has passed every request is refused; then one request is let
    through as a probe and every other is refused while it runs; its success
    closes the breaker with the failure count cleared, its failure opens it
    for another full timeout. *)
Lemma open_probe_cycle cb now :
  cb_state cb = CircuitOpen -> probeInFlight cb = false ->
  openedAt cb <= now -> int64_range (now - openedAt cb) ->
  (now - openedAt cb < resetTimeout cb ->
     Allow now cb = (cb, Err (ErrSentinel S3CircuitOpen))) /\
  (resetTimeout cb <= now - openedAt cb ->
     exists cb1, Allow now cb = (cb1, Ok tt) /\ cb_state cb1 = CircuitHalfOpen /\
       (forall now', Allow now' cb1 = (cb1, Err (ErrSentinel S3CircuitOpen))) /\
       cb_state (RecordSuccess cb1) = CircuitClosed /\ failures (RecordSuccess cb1) = 0 /\
       (forall now', Allow now' (RecordSuccess cb1) = (RecordSuccess cb1, Ok tt)) /\
       (forall now', RecordFailure now' cb1 = cb <| openedAt := now' |>)).
Proof.
  intros Ho Hp Hle Hr.
  assert (Ht : tooEarly now cb = (now - openedAt cb <? resetTimeout cb))
    by (unfold tooEarly; by rewrite wrap64_small).
  assert (Ha : Allow now cb = if now - openedAt cb <? resetTimeout cb
      then (cb, Err (ErrSentinel S3CircuitOpen))
      else (cb <| probeInFlight := true |> <| cb_state := CircuitHalfOpen |>, Ok tt))
    by (unfold Allow; by rewrite Ho, Hp, Ht).
  rewrite Ha. destruct (Z.ltb_spec (now - openedAt cb) (resetTimeout cb)); split; intros; try lia; [done|].
  eexists. split; [reflexivity|]. repeat split.
  intros now'. unfold RecordFailure. destruct cb. cbn in *. by subst.
Qed.

(** C10: each method, run by one goroutine while the others are not
    scheduled, terminates within its steps, leaves the mutex free and has
    the effect of the sequential definition. *)
Theorem methods_run_alone t s :
  pcOf s t = Idle -> lock s = None ->
  aloneResult t s (callAlone t MAllow s) (Allow (clock s) (mem s)).1
    (Returned t (is_Ok (Allow (clock s) (mem s)).2)) /\
  aloneResult t s (callAlone t MRecordSuccess s) (RecordSuccess (mem s)) Silent /\
  aloneResult t s (callAlone t MRecordFailure s) (RecordFailure (clock s) (mem s)) Silent.
Proof.
  intros Hp Hl. split; [by apply callAlone_Allow|].
  split; [by apply callAlone_RecordSuccess|by apply callAlone_RecordFailure].
Qed.

(** C11: under every interleaving the critical sections exclude each other,
    and while the breaker is half-open its probe flag is set and no step of
    any goroutine leads to a further request being granted: at most one probe
    per half-open period. *)
Theorem half_open_single_probe th reset now s :
  reachable (NewCircuitBreaker th reset) now s ->
  (forall t t', locked (pcOf s t) = true -> locked (pcOf s t') = true -> t = t') /\
  (cb_state (mem s) = CircuitHalfOpen ->
     probeInFlight (mem s) = true /\
     forall a s' e, step s a = Some (s', e) ->
       (forall t, granting (pcOf s' t) = true -> granting (pcOf s t) = true) /\
       (forall t, e = Returned t true -> pcOf s t = AUnlock true)).
Proof.
  intros Hr. pose proof (reachable_inv _ _ _ (eq_refl : cb_state (NewCircuitBreaker th reset) = _) Hr) as Hi.
  split.
  { intros t t' Ht Ht'. apply (inv_lock _ Hi) in Ht, Ht'. congruence. }
  intros Hh. pose proof (inv_half _ Hi Hh) as Hpr. split; [done|]. intros a s' e Hs.
  destruct a as [t c|t|d]; cbn [step] in Hs.
  - destruct (pcOf s t) eqn:Hp; try done. apply Some_pair_inv in Hs as [<- <-]. split; [|done].
    intros t'. rewrite pcOf_goto. case_decide; [by destruct c|done].
  - pose proof (inv_knows _ Hi t) as Hk. unfold run1, runPc in Hs. rewrite Hh, Hpr in Hs.
    destruct (pcOf s t) as [] eqn:Hp; try done; cbn [knows] in Hk; try (destruct Hk; congruence);
      try congruence; cbv zeta in Hs; unfold acquire in Hs;
      repeat match type of Hs with context [match ?x with _ => _ end] => destruct x end; try done;
      apply Some_pair_inv in Hs as [<- <-];
      (split; [intros t'; rewrite pcOf_goto, ?pcOf_setMem, ?pcOf_lock; case_decide; subst; try done;
               rewrite ?Hp; done|]); try done; intros t' [= <- ->]; done.
  - destruct (0 <=? d); [|done]. by apply Some_pair_inv in Hs as [<- <-].
Qed.

(** the half-open branch of [Allow] sets the probe flag without reading
    the state again, so a goroutine that stalls after its first load can set
    it in a closed breaker. From then on the next opening is final: the
    breaker stays open and refuses every request, whatever is scheduled and
    however much time passes. *)
Lemma stale_probe_wedges :
  exists s es, schedule (initSys (NewCircuitBreaker 1 5) 100) wedge_schedule = Some (s, es) /\
    cb_state (mem s) = CircuitOpen /\ lock s = None /\
    forall l s' es', schedule s l = Some (s', es') ->
      cb_state (mem s') = CircuitOpen /\ forall t g, Returned t g ∈ es' -> g = false.
Proof.
  eexists _, _. split; [vm_compute; reflexivity|]. split; [reflexivity|]. split; [reflexivity|].
  assert (Hw : forall l s s' es', wedged s -> schedule s l = Some (s', es') ->
            cb_state (mem s') = CircuitOpen /\ forall t g, Returned t g ∈ es' -> g = false).
  { induction l as [|a l IH]; intros s s' es' Hw; cbn [schedule].
    - intros [= <- <-]. split; [apply Hw|]. intros t g Hin. set_solver.
    - destruct (step s a) as [[s1 e]|] eqn:Hst; [|done].
      destruct (schedule s1 l) as [[s2 es2]|] eqn:Hl; [|done]. intros [= <- <-].
      destruct (wedged_step _ _ _ _ Hw Hst) as [Hw1 He]. destruct (IH _ _ _ Hw1 Hl) as [Ho Hev].
      split; [done|]. intros t g. destruct e as [|t' g']; [apply Hev|].
      rewrite elem_of_cons. intros [[= -> ->]|Hin]; [done|by eapply Hev]. }
  intros l s' es'. apply Hw. split; [reflexivity|]. split; [reflexivity|].
  intros t. unfold pcOf. cbn [pcs].
  destruct (decide (t = 0%nat)) as [->|]; [reflexivity|].
  destruct (decide (t = 1%nat)) as [->|]; [reflexivity|].
  destruct (decide (t = 2%nat)) as [->|]; [reflexivity|].
  match goal with |- context [?m !! t] => replace (m !! t) with (@None pc); [done|] end.
  symmetry. apply not_elem_of_dom. 
  match goal with |- context [dom ?m] => replace (dom m) with ({[0; 1; 2]}%nat : gset nat) by reflexivity end.
  set_solver.
Qed.

(** [RecordFailure] publishes the open state before the opening time,
    so a concurrent [Allow] can compare the clock with the previous opening
    time: a probe is let through although the breaker opened at this very
    instant and the reset timeout is thirty seconds. *)
Lemma probe_before_timeout :
  exists s, schedule (initSys (NewCircuitBreaker 1 (30 * Second)) (40 * Second)) early_schedule
      = Some (s, [Returned 1 true]) /\
    cb_state (mem s) = CircuitHalfOpen /\
    resetTimeout (mem s) = 30 * Second /\ openedAt (mem s) = clock s.
Proof. eexists. split; [vm_compute; reflexivity|]. repeat split; reflexivity. Qed.

(** ** Witnesses *)
Lemma opens_iff_consecutive_failures_witness :
  cb_state (record (NewCircuitBreaker 2 5) [(1, false); (2, true); (3, false); (4, false)]) = CircuitOpen.
Proof.
  apply (opens_iff_consecutive_failures 2 5); [lia|].
  exists [(1, false); (2, true)], [3; 4], []. split; reflexivity.
Defined.

Lemma open_probe_cycle_witness :
  let cb := mkCircuitBreaker 2 5 CircuitOpen 2 10 false in
  Allow 12 cb = (cb, Err (ErrSentinel S3CircuitOpen)).
Proof.
  apply (open_probe_cycle (mkCircuitBreaker 2 5 CircuitOpen 2 10 false) 12); cbn; try reflexivity; try lia.
  unfold int64_range. lia.
Defined.

Lemma methods_run_alone_witness :
  let s := initSys (mkCircuitBreaker 2 5 CircuitOpen 2 10 false) 20 in
  aloneResult 3 s (callAlone 3 MAllow s) (mkCircuitBreaker 2 5 CircuitHalfOpen 2 10 true) (Returned 3 true).
Proof.
  exact (proj1 (methods_run_alone 3 (initSys (mkCircuitBreaker 2 5 CircuitOpen 2 10 false) 20)
                  eq_refl eq_refl)).
Defined.

Definition half_open_schedule : list act := call 0 MRecordFailure 7 ++ [Tick 5] ++ call 1 MAllow 8.
Definition half_open_sys : sys :=
  match schedule (initSys (NewCircuitBreaker 1 5) 100) half_open_schedule with
  | Some (s, _) => s
  | None => initSys (NewCircuitBreaker 1 5) 100
  end.

Lemma half_open_single_probe_witness :
  cb_state (mem half_open_sys) = CircuitHalfOpen /\ probeInFlight (mem half_open_sys) = true.
Proof.
  split; [reflexivity|].
  refine (proj1 (proj2 (half_open_single_probe 1 5 100 half_open_sys _) eq_refl)).
  apply (schedule_reachable _ _ (initSys (NewCircuitBreaker 1 5) 100) half_open_schedule _
           [Returned 1 true]); [apply reach_init|vm_compute; reflexivity].
Defined.
