(* ===== verification/S3.v ===== *)
(** * pkg/blobstore/s3/s3.go

    The S3-compatible provider. The AWS SDK client is a parameter: a record
    of functions over the state [W] of the remote service, one per method of
    the interface [S3API], with the inputs the adapter builds and the output
    fields it reads. A Go pointer to a scalar is an [option]. *)
From S2P Require Import Prelude GoStd Sha256 BlobStore CircuitBreaker.
Local Open Scope Z_scope.

Record Config := mkConfig {
  ProviderName : string;
  Endpoint : string;
  Region : string;
  Bucket : string;
  AccessKey : string;
  SecretKey : string;
  UsePathStyle : bool
}.
#[export] Instance eta_Config : Eta Config := fun c =>
  mkConfig (ProviderName c) (Endpoint c) (Region c) (Bucket c) (AccessKey c) (SecretKey c)
    (UsePathStyle c).

(** [Config.validate]. *)
Definition validate (c : Config) : result unit :=
  let prefix := if bool_decide (ProviderName c = "") then "s3: " else ProviderName c +:+ ": " in
  if bool_decide (Endpoint c = "") then Err (ErrNew (prefix +:+ "endpoint is required"))
  else if bool_decide (Region c = "") then Err (ErrNew (prefix +:+ "region is required"))
  else if bool_decide (Bucket c = "") then Err (ErrNew (prefix +:+ "bucket is required"))
  else if bool_decide (AccessKey c = "") || bool_decide (SecretKey c = "")
  then Err (ErrNew (prefix +:+ "access_key and secret_key are required"))
  else Ok tt.

(** ** What the adapter reads of an SDK error

    [errors.As] on the four typed errors, the HTTP status of a smithy
    [ResponseError], the text, and the error itself for wrapping. *)
Record sdkError := mkSdkError {
  is_NoSuchKey : bool;
  is_NoSuchBucket : bool;
  is_NoSuchUpload : bool;
  is_NotFound : bool;
  httpStatus : option Z;
  isTimeout : bool;
  errorText : string;
  errorChain : error
}.

Definition sdkResult (A : Type) : Type := A + sdkError.

(** ** SDK inputs and outputs *)
Record PutObjectInput := mkPutObjectInput {
  pi_Bucket : string; pi_Key : string; pi_Body : reader; pi_ContentType : option string;
  pi_ContentLength : option Z; pi_ChecksumSHA256 : option string; pi_IfNoneMatch : option string;
  pi_ObjectLockMode : string; pi_ObjectLockRetainUntilDate : option Time; pi_ObjectLockLegalHoldStatus : string
}.
#[export] Instance eta_PutObjectInput : Eta PutObjectInput := fun i =>
  mkPutObjectInput (pi_Bucket i) (pi_Key i) (pi_Body i) (pi_ContentType i) (pi_ContentLength i)
    (pi_ChecksumSHA256 i) (pi_IfNoneMatch i) (pi_ObjectLockMode i) (pi_ObjectLockRetainUntilDate i)
    (pi_ObjectLockLegalHoldStatus i).
Record PutObjectOutput := mkPutObjectOutput {
  puo_Size : option Z; puo_VersionId : option string; puo_ChecksumSHA256 : option string }.

Record GetObjectInput := mkGetObjectInput {
  gi_Bucket : string; gi_Key : string; gi_VersionId : option string; gi_Range : option string }.
Record GetObjectOutput := mkGetObjectOutput {
  go_Body : reader; go_VersionId : option string; go_ContentLength : option Z;
  go_ChecksumSHA256 : option string; go_LastModified : option Time }.

Record HeadObjectInput := mkHeadObjectInput {
  hi_Bucket : string; hi_Key : string; hi_VersionId : option string }.
Record HeadObjectOutput := mkHeadObjectOutput {
  ho_VersionId : option string; ho_ContentLength : option Z; ho_ChecksumSHA256 : option string;
  ho_LastModified : option Time }.

Record DeleteObjectInput := mkDeleteObjectInput {
  di_Bucket : string; di_Key : string; di_VersionId : option string }.

Record ObjectIdentifier := mkObjectIdentifier { oi_Key : string; oi_VersionId : option string }.
#[export] Instance ObjectIdentifier_eq_dec : EqDecision ObjectIdentifier.
Proof. solve_decision. Defined.
Record DeletedObject := mkDeletedObject { do_Key : option string; do_VersionId : option string }.
Record S3DeleteError := mkS3DeleteError {
  ee_Key : option string; ee_VersionId : option string; ee_Message : option string }.
Record DeleteObjectsOutput := mkDeleteObjectsOutput {
  dob_Deleted : list DeletedObject; dob_Errors : list S3DeleteError }.

Record S3Object := mkS3Object {
  so_Key : option string; so_Size : option Z; so_LastModified : option Time }.
Record ListObjectsV2Input := mkListObjectsV2Input {
  li_Bucket : string; li_Prefix : option string; li_ContinuationToken : option string; li_MaxKeys : Z }.
Record ListObjectsV2Output := mkListObjectsV2Output {
  lob_Contents : list S3Object; lob_NextContinuationToken : option string; lob_IsTruncated : option bool }.

Record ObjectVersion := mkObjectVersion {
  ov_Key : option string; ov_VersionId : option string; ov_Size : option Z; ov_LastModified : option Time }.
Record ListObjectVersionsInput := mkListObjectVersionsInput {
  lvi_Bucket : string; lvi_Prefix : string; lvi_KeyMarker : option string; lvi_MaxKeys : Z }.
Record ListObjectVersionsOutput := mkListObjectVersionsOutput {
  lvo_Versions : list ObjectVersion; lvo_DeleteMarkers : list ObjectVersion;
  lvo_IsTruncated : option bool; lvo_NextKeyMarker : option string }.

Record CopyObjectInput := mkCopyObjectInput {
  ci_Bucket : string; ci_Key : string; ci_CopySource : string; ci_ObjectLockMode : string;
  ci_ObjectLockRetainUntilDate : option Time; ci_ObjectLockLegalHoldStatus : string }.
#[export] Instance eta_CopyObjectInput : Eta CopyObjectInput := fun i =>
  mkCopyObjectInput (ci_Bucket i) (ci_Key i) (ci_CopySource i) (ci_ObjectLockMode i)
    (ci_ObjectLockRetainUntilDate i) (ci_ObjectLockLegalHoldStatus i).

Record CreateMultipartUploadInput := mkCreateMultipartUploadInput {
  mi_Bucket : string; mi_Key : string; mi_ContentType : option string; mi_ChecksumAlgorithm : string;
  mi_ObjectLockMode : string; mi_ObjectLockRetainUntilDate : option Time;
  mi_ObjectLockLegalHoldStatus : string }.
#[export] Instance eta_CreateMultipartUploadInput : Eta CreateMultipartUploadInput := fun i =>
  mkCreateMultipartUploadInput (mi_Bucket i) (mi_Key i) (mi_ContentType i) (mi_ChecksumAlgorithm i)
    (mi_ObjectLockMode i) (mi_ObjectLockRetainUntilDate i) (mi_ObjectLockLegalHoldStatus i).

Record UploadPartInput := mkUploadPartInput {
  upi_Bucket : string; upi_Key : string; upi_UploadId : string; upi_PartNumber : Z;
  upi_Body : bytes; upi_ContentLength : Z; upi_ChecksumSHA256 : string }.
Record SdkCompletedPart := mkSdkCompletedPart { scp_PartNumber : Z; scp_ChecksumSHA256 : string }.
Record CompleteMultipartUploadInput := mkCompleteMultipartUploadInput {
  cmi_Bucket : string; cmi_Key : string; cmi_UploadId : string; cmi_Parts : list SdkCompletedPart }.
Record UploadIdInput := mkUploadIdInput { ui_Bucket : string; ui_Key : string; ui_UploadId : string }.
Record ListMultipartUploadsInput := mkListMultipartUploadsInput {
  lmi_Bucket : string; lmi_Prefix : option string; lmi_KeyMarker : option string }.
Record ListMultipartUploadsOutput := mkListMultipartUploadsOutput {
  lmo_Uploads : list (option string * option string); lmo_NextKeyMarker : option string }.
Record SdkPart := mkSdkPart {
  sp3_PartNumber : option Z; sp3_Size : option Z; sp3_ChecksumSHA256 : option string }.
Record ListPartsOutput := mkListPartsOutput {
  lpo_Parts : list SdkPart; lpo_NextPartNumberMarker : option string }.
Record ObjectLockRetention := mkObjectLockRetention {
  ol_Mode : string; ol_RetainUntilDate : option Time }.

(** The interface [S3API]; every call may change the remote state. *)
Record S3API (W : Type) := mkS3API {
  PutObject : PutObjectInput -> W -> W * sdkResult PutObjectOutput;
  GetObject : GetObjectInput -> W -> W * sdkResult GetObjectOutput;
  HeadObject : HeadObjectInput -> W -> W * sdkResult HeadObjectOutput;
  DeleteObject : DeleteObjectInput -> W -> W * sdkResult unit;
  DeleteObjects : string -> list ObjectIdentifier -> W -> W * sdkResult DeleteObjectsOutput;
  ListObjectsV2 : ListObjectsV2Input -> W -> W * sdkResult ListObjectsV2Output;
  sdk_ListObjectVersions : ListObjectVersionsInput -> W -> W * sdkResult ListObjectVersionsOutput;
  CopyObject : CopyObjectInput -> W -> W * sdkResult (option string);
  CreateMultipartUpload : CreateMultipartUploadInput -> W -> W * sdkResult (option string);
  sdk_UploadPart : UploadPartInput -> W -> W * sdkResult unit;
  CompleteMultipartUpload : CompleteMultipartUploadInput -> W -> W * sdkResult (option string);
  AbortMultipartUpload : UploadIdInput -> W -> W * sdkResult unit;
  sdk_ListMultipartUploads : ListMultipartUploadsInput -> W -> W * sdkResult ListMultipartUploadsOutput;
  sdk_ListParts : UploadIdInput -> option string -> W -> W * sdkResult ListPartsOutput;
  GetObjectRetention : VersionedObjectRef -> W -> W * sdkResult (option ObjectLockRetention);
  PutObjectRetention : VersionedObjectRef -> ObjectLockRetention -> W -> W * sdkResult unit;
  GetObjectLegalHold : VersionedObjectRef -> W -> W * sdkResult (option string);
  PutObjectLegalHold : VersionedObjectRef -> string -> W -> W * sdkResult unit
}.
Arguments PutObject {W}.  Arguments GetObject {W}.  Arguments HeadObject {W}.
Arguments DeleteObject {W}.  Arguments DeleteObjects {W}.  Arguments ListObjectsV2 {W}.
Arguments sdk_ListObjectVersions {W}.  Arguments CopyObject {W}.
Arguments CreateMultipartUpload {W}.  Arguments sdk_UploadPart {W}.
Arguments CompleteMultipartUpload {W}.  Arguments AbortMultipartUpload {W}.
Arguments sdk_ListMultipartUploads {W}.  Arguments sdk_ListParts {W}.
Arguments GetObjectRetention {W}.  Arguments PutObjectRetention {W}.
Arguments GetObjectLegalHold {W}.  Arguments PutObjectLegalHold {W}.

Definition aws_ToString (o : option string) : string := default "" o.
Definition aws_ToInt64 (o : option Z) : Z := default 0 o.
Definition aws_ToTime (o : option Time) : Time := default zeroTime o.
Definition aws_ToBool (o : option bool) : bool := default false o.

(** The mutable part of a [Provider]: the breaker (nil without one) and the
    remote service. *)
Record Provider (W : Type) := mkProvider { breaker : option CircuitBreaker; world : W }.
Arguments mkProvider {W}.  Arguments breaker {W}.  Arguments world {W}.
#[export] Instance eta_Provider {W} : Eta (Provider W) := fun p => mkProvider (breaker p) (world p).

(** ** Helpers *)

(** [isRetryableHTTPError]: the SDK retry policy of [New]. *)
Definition isRetryableHTTPError (e : sdkError) : bool :=
  match httpStatus e with
  | Some code => (500 <=? code) || (code =? 429)
  | None => isTimeout e
  end.

(** [classifyError] with the provider's error prefix. *)
Definition classifyError (prefix : string) (e : sdkError) : error :=
  if is_NoSuchKey e then ErrWrap (prefix +:+ "%w: key %q (%v)") (ErrSentinel BsNotFound)
  else if is_NoSuchBucket e then ErrWrap (prefix +:+ "%w: bucket %q (%v)") (ErrSentinel BsNotFound)
  else if is_NoSuchUpload e then ErrWrap (prefix +:+ "%w: upload for key %q (%v)") (ErrSentinel BsNotFound)
  else if is_NotFound e then ErrWrap (prefix +:+ "%w: key %q (%v)") (ErrSentinel BsNotFound)
  else
    let fallback :=
      if Contains (errorText e) "ObjectLock" || Contains (ToLower (errorText e)) "retention"
      then ErrWrap (prefix +:+ "%w: key %q (%v)") (ErrSentinel BsRetentionConflict)
      else ErrWrap (prefix +:+ "key %q: %w") (errorChain e) in
    match httpStatus e with
    | Some code =>
        if code =? 404 then ErrWrap (prefix +:+ "%w: key %q (%v)") (ErrSentinel BsNotFound)
        else if code =? 412 then ErrWrap (prefix +:+ "%w: key %q (%v)") (ErrSentinel BsPreconditionFailed)
        else if code =? 503 then ErrWrap (prefix +:+ "%w: key %q (%v)") (ErrSentinel BsThrottled)
        else fallback
    | None => fallback
    end.

(** [isClientError]. *)
Definition isClientError (e : error) : bool :=
  errors_Is e BsNotFound || errors_Is e BsPreconditionFailed
  || errors_Is e BsRetentionConflict || errors_Is e BsChecksumMismatch.

(** [headOutputToMeta]. *)
Definition headOutputToMeta (key : string) (out : HeadObjectOutput) : ObjectMeta :=
  mkObjectMeta key (aws_ToString (ho_VersionId out)) VersioningEnabled
    (aws_ToInt64 (ho_ContentLength out)) (aws_ToString (ho_ChecksumSHA256 out))
    zeroRetentionState (aws_ToTime (ho_LastModified out)).

(** The lock mode and date the three [applyRetention*] functions set. *)
Definition lockMode (spec : RetentionSpec) : string :=
  if bool_decide (rs_Mode spec = RetentionCompliance) then "COMPLIANCE"
  else if bool_decide (rs_Mode spec = RetentionGovernance) then "GOVERNANCE"
  else "".
Definition lockUntil (spec : RetentionSpec) : option Time :=
  if negb (IsZero (rs_RetainUntil spec)) then Some (rs_RetainUntil spec) else None.

Definition applyRetentionToPut (i : PutObjectInput) (spec : RetentionSpec) : PutObjectInput :=
  let i := if bool_decide (lockMode spec = "") then i else i <| pi_ObjectLockMode := lockMode spec |> in
  match lockUntil spec with None => i | Some t => i <| pi_ObjectLockRetainUntilDate := Some t |> end.
Definition applyRetentionToCreateMultipart (i : CreateMultipartUploadInput) (spec : RetentionSpec)
  : CreateMultipartUploadInput :=
  let i := if bool_decide (lockMode spec = "") then i else i <| mi_ObjectLockMode := lockMode spec |> in
  match lockUntil spec with None => i | Some t => i <| mi_ObjectLockRetainUntilDate := Some t |> end.
Definition applyRetentionToCopy (i : CopyObjectInput) (spec : RetentionSpec) : CopyObjectInput :=
  let i := if bool_decide (lockMode spec = "") then i else i <| ci_ObjectLockMode := lockMode spec |> in
  match lockUntil spec with None => i | Some t => i <| ci_ObjectLockRetainUntilDate := Some t |> end.

(** [formatRange]. *)
Definition formatRange (r : ByteRange) : string :=
  if br_End r <? 0 then "bytes=" +:+ pretty (br_Start r) +:+ "-"
  else "bytes=" +:+ pretty (br_Start r) +:+ "-" +:+ pretty (br_End r).

(** The NUL separator of the hashed text. *)
Definition nul : string := String (Ascii.ascii_of_nat 0) EmptyString.

(** [computeWriteResultHash]. *)
Definition computeWriteResultHash (provider bucket key versionID : string)
    (st : BucketVersioningState) (size : Z) (sum : string) : string :=
  let provider := if bool_decide (provider = "") then "s3" else provider in
  sha256_hex (bytes_of_string
    (provider +:+ "/v1" +:+ nul +:+ bucket +:+ nul +:+ key +:+ nul +:+ versionID +:+ nul
       +:+ st +:+ nul +:+ pretty size +:+ nul +:+ sum)).

(** [defaultCapabilities]. *)
Definition defaultCapabilities (providerName region : string) : ProviderCapabilities :=
  let caps := zeroCapabilities <| ProviderVersioning := true |> <| DeleteAllVersions := true |>
    <| ConditionalPut := true |> <| NativeSHA256Checksum := true |> <| ListAndAbortMultipart := true |>
    <| pc_BucketVersioningState := VersioningEnabled |>
    <| MaxObjectSize := 5 * 1024 * 1024 * 1024 * 1024 |> <| MaxPartSize := 5 * 1024 * 1024 * 1024 |>
    <| MaxParts := 10000 |> <| MinPartBytes := 5 * 1024 * 1024 |> <| ChecksumOnComplete := true |>
    <| ExactJurisdiction := region |> in
  if bool_decide (providerName = "wasabi") || bool_decide (providerName = "s3") then
    caps <| S3ObjectLock := true |> <| PerVersionRetentionGet := true |>
         <| PerVersionRetentionExtend := true |> <| PerVersionRetentionClear := true |>
         <| LegalHoldSetClear := true |> <| GovernanceBypassDenied := true |>
  else if bool_decide (providerName = "b2") then
    caps <| S3ObjectLock := false |> <| PerVersionRetentionGet := false |>
         <| PerVersionRetentionExtend := false |> <| PerVersionRetentionClear := false |>
         <| LegalHoldSetClear := false |> <| GovernanceBypassDenied := false |>
  else caps.

Definition maxPartBytes : Z := 5 * 1024 * 1024 * 1024.

(** [NewWithClient]: the configuration of the provider. *)
Definition NewWithClient (cfg : Config) : result Config :=
  let cfg := if bool_decide (ProviderName cfg = "") then cfg <| ProviderName := "s3" |> else cfg in
  match validate cfg with
  | Err e => Err e
  | Ok _ => Ok cfg
  end.

(** ** The methods *)
Section provider.
Context {W : Type} (cfg : Config) (client : S3API W).
Notation MP := (M (Provider W)).

Definition errPrefix : string := ProviderName cfg +:+ ": ".
Definition fail (msg : string) : error := ErrNew (errPrefix +:+ msg).

(** [if p.breaker != nil { if err := p.breaker.Allow(); err != nil { return err } }]. *)
Definition breakerAllow (now : Time) : MP unit := fun p =>
  match breaker p with
  | None => (p, Ok tt)
  | Some cb => let (cb', r) := Allow now cb in (p <| breaker := Some cb' |>, r)
  end.

(** [if p.breaker != nil && !isClientError(classified) { p.breaker.RecordFailure() }]. *)
Definition breakerFailure (now : Time) (e : error) (p : Provider W) : Provider W :=
  match breaker p with
  | None => p
  | Some cb => if isClientError e then p else p <| breaker := Some (RecordFailure now cb) |>
  end.

Definition breakerSuccess (p : Provider W) : Provider W :=
  match breaker p with
  | None => p
  | Some cb => p <| breaker := Some (RecordSuccess cb) |>
  end.

(** A call of the client, its error classified; [guarded] also records the
    outcome in the breaker. *)
Definition sdk {A} (key : string) (f : W -> W * sdkResult A) : MP A := fun p =>
  match f (world p) with
  | (w, inl a) => (p <| world := w |>, Ok a)
  | (w, inr e) => (p <| world := w |>, Err (classifyError errPrefix e))
  end.
Definition guarded {A} (now : Time) (key : string) (f : W -> W * sdkResult A) : MP A := fun p =>
  match sdk key f p with
  | (p', Ok a) => (breakerSuccess p', Ok a)
  | (p', Err e) => (breakerFailure now e p', Err e)
  end.

(** The object-lock check of [Put] and [CreateMultipart]. *)
Definition lockUnsupported (spec : RetentionSpec) : bool :=
  (negb (bool_decide (rs_Mode spec = RetentionNone)) || rs_LegalHold spec)
  && negb (S3ObjectLock (defaultCapabilities (ProviderName cfg) (Region cfg))).

Definition nonempty (s : string) : option string := if bool_decide (s = "") then None else Some s.

Definition putInput (req : PutRequest) (body : reader) : PutObjectInput :=
  let i := mkPutObjectInput (Bucket cfg) (pq_Key req) body (nonempty (pq_ContentType req))
    (if 0 <? pq_ExpectedLength req then Some (pq_ExpectedLength req) else None)
    (nonempty (pq_ChecksumSHA256 req)) (if pq_IfNoneMatch req then Some "*" else None) "" None "" in
  let i := if bool_decide (rs_Mode (pq_Retention req) = RetentionNone) then i
           else applyRetentionToPut i (pq_Retention req) in
  if rs_LegalHold (pq_Retention req) then i <| pi_ObjectLockLegalHoldStatus := "ON" |> else i.

(** [Provider.Put]. *)
Definition Put (now : Time) (req : PutRequest) : MP PutResult :=
  if bool_decide (pq_Key req = "") then throw (fail "key is required") else
  match pq_Body req with
  | None => throw (fail "body is required")
  | Some body =>
      breakerAllow now;;
      fail_if (lockUnsupported (pq_Retention req)) (fail "object lock not supported by this provider");;
      out ← guarded now (pq_Key req) (PutObject client (putInput req body));
      let size := match puo_Size out with Some n => n | None => pq_ExpectedLength req end in
      let versionID := aws_ToString (puo_VersionId out) in
      let sum := match puo_ChecksumSHA256 out with Some s => s | None => pq_ChecksumSHA256 req end in
      ret (mkPutResult (pq_Key req) versionID VersioningEnabled zeroRetentionState now size sum
             (computeWriteResultHash (ProviderName cfg) (Bucket cfg) (pq_Key req) versionID
                VersioningEnabled size sum))
  end.

(** [Provider.Head]. *)
Definition Head (now : Time) (ref : ObjectRef) : MP ObjectMeta :=
  fail_if (bool_decide (or_Key ref = "")) (fail "key is required");;
  breakerAllow now;;
  out ← guarded now (or_Key ref) (HeadObject client (mkHeadObjectInput (Bucket cfg) (or_Key ref) None));
  ret (headOutputToMeta (or_Key ref) out).

(** [Provider.Get]. *)
Definition Get (now : Time) (req : GetRequest) : MP (reader * ObjectMeta) :=
  let key := vr_Key (gq_Ref req) in
  fail_if (bool_decide (key = "")) (fail "key is required");;
  breakerAllow now;;
  out ← guarded now key (GetObject client (mkGetObjectInput (Bucket cfg) key
          (nonempty (vr_VersionID (gq_Ref req))) (option_map formatRange (gq_Range req))));
  ret (go_Body out,
       mkObjectMeta key (aws_ToString (go_VersionId out)) VersioningEnabled
         (aws_ToInt64 (go_ContentLength out)) (aws_ToString (go_ChecksumSHA256 out))
         zeroRetentionState (aws_ToTime (go_LastModified out))).

(** [Provider.Delete]. *)
Definition Delete (now : Time) (ref : ObjectRef) : MP unit :=
  fail_if (bool_decide (or_Key ref = "")) (fail "key is required");;
  breakerAllow now;;
  guarded now (or_Key ref) (DeleteObject client (mkDeleteObjectInput (Bucket cfg) (or_Key ref) None)).

(** The identifiers of one page that [PurgeAllVersions] deletes, and whether
    the page went past the key. *)
Fixpoint matchKey (key : string) (l : list ObjectVersion) : list ObjectIdentifier * bool :=
  match l with
  | [] => ([], false)
  | v :: l' =>
      let '(objs, passed) := matchKey key l' in
      let k := aws_ToString (ov_Key v) in
      if bool_decide (k = key) then (mkObjectIdentifier key (ov_VersionId v) :: objs, passed)
      else (objs, str_ltb key k || passed)
  end.

(** The loop of [PurgeAllVersions]: [None] when [fuel] pages were not enough. *)
Fixpoint purgeLoop (fuel : nat) (key : string) (cursor : option string) (p : Provider W)
  : option (Provider W * result unit) :=
  match fuel with
  | O => None
  | S fuel' =>
      match sdk key (sdk_ListObjectVersions client
                       (mkListObjectVersionsInput (Bucket cfg) key cursor 1000)) p with
      | (p, Err e) => Some (p, Err e)
      | (p, Ok out) =>
          let '(objs1, passed1) := matchKey key (lvo_Versions out) in
          let '(objs2, passed2) := matchKey key (lvo_DeleteMarkers out) in
          let objects := objs1 ++ objs2 in
          let '(p, r) := match objects with
                         | [] => (p, Ok tt)
                         | _ => match sdk key (DeleteObjects client (Bucket cfg) objects) p with
                                | (p, Ok _) => (p, Ok tt)
                                | (p, Err e) => (p, Err e)
                                end
                         end in
          match r with
          | Err e => Some (p, Err e)
          | Ok _ =>
              if passed1 || passed2 then Some (p, Ok tt)
              else if negb (aws_ToBool (lvo_IsTruncated out)) then Some (p, Ok tt)
              else purgeLoop fuel' key (lvo_NextKeyMarker out) p
          end
      end
  end.

(** [Provider.PurgeAllVersions]. *)
Definition PurgeAllVersions (fuel : nat) (ref : ObjectRef) (p : Provider W)
  : option (Provider W * result unit) :=
  if bool_decide (or_Key ref = "") then Some (p, Err (fail "key is required"))
  else purgeLoop fuel (or_Key ref) None p.

(** [Provider.CreateMultipart]. *)
Definition createInput (req : MultipartRequest) : CreateMultipartUploadInput :=
  let i := mkCreateMultipartUploadInput (Bucket cfg) (mq_Key req) (nonempty (mq_ContentType req))
    (if bool_decide (mq_ChecksumSHA256 req = "") then "" else "SHA256") "" None "" in
  let i := if bool_decide (rs_Mode (mq_Retention req) = RetentionNone) then i
           else applyRetentionToCreateMultipart i (mq_Retention req) in
  if rs_LegalHold (mq_Retention req) then i <| mi_ObjectLockLegalHoldStatus := "ON" |> else i.

Definition CreateMultipart (now : Time) (req : MultipartRequest) : MP MultipartUpload :=
  fail_if (bool_decide (mq_Key req = "")) (fail "key is required");;
  breakerAllow now;;
  fail_if (lockUnsupported (mq_Retention req)) (fail "object lock not supported by this provider");;
  out ← guarded now (mq_Key req) (CreateMultipartUpload client (createInput req));
  ret (mkMultipartUpload (mq_Key req) (aws_ToString out)).

(** [Provider.SignUploadPart]. *)
Definition SignUploadPart (req : SignPartRequest) : MP SignedRequest :=
  throw (fail "direct provider presign is disabled in phase 1 (ADR-019); use the blob-edge capability path").

(** [Provider.CompleteMultipart]. *)
Definition CompleteMultipart (now : Time) (req : CompleteRequest) : MP PutResult :=
  let key := mu_Key (cq_Upload req) in
  fail_if (bool_decide (key = "") || bool_decide (mu_UploadID (cq_Upload req) = ""))
    (fail "upload key and id are required");;
  breakerAllow now;;
  out ← guarded now key (CompleteMultipartUpload client
          (mkCompleteMultipartUploadInput (Bucket cfg) key (mu_UploadID (cq_Upload req))
             (map (fun part => mkSdkCompletedPart (cp_PartNumber part) (cp_ChecksumSHA256 part))
                (cq_Parts req))));
  let versionID := aws_ToString out in
  head ← try (sdk key (HeadObject client (mkHeadObjectInput (Bucket cfg) key out)));
  let '(size, checksum, writeTime) :=
    match head with
    | Ok h => (aws_ToInt64 (ho_ContentLength h), aws_ToString (ho_ChecksumSHA256 h),
               default now (ho_LastModified h))
    | Err _ => (0, "", now)
    end in
  ret (mkPutResult key versionID VersioningEnabled zeroRetentionState writeTime size checksum
         (computeWriteResultHash (ProviderName cfg) (Bucket cfg) key versionID VersioningEnabled
            size checksum)).

(** [Provider.AbortMultipart]. *)
Definition AbortMultipart (upload : MultipartUpload) : MP unit :=
  fail_if (bool_decide (mu_Key upload = "") || bool_decide (mu_UploadID upload = ""))
    (fail "upload key and id are required");;
  sdk (mu_Key upload) (AbortMultipartUpload client
    (mkUploadIdInput (Bucket cfg) (mu_Key upload) (mu_UploadID upload))).

(** [Provider.UploadPart]; the temporary file holds what was copied. *)
Definition UploadPart (now : Time) (req : UploadPartRequest) : MP UploadedPart :=
  let up := uq_Upload req in
  fail_if (bool_decide (mu_Key up = "") || bool_decide (mu_UploadID up = ""))
    (fail "upload key and id are required");;
  fail_if ((uq_PartNumber req <? 1) || (10000 <? uq_PartNumber req))
    (fail "part number must be 1-10000");;
  match uq_Body req with
  | None => throw (fail "part body is required")
  | Some body =>
      breakerAllow now;;
      match ReadAll (LimitReader body (maxPartBytes + 1)) with
      | Err e => throw (ErrWrap (errPrefix +:+ "read part %d: %w") e)
      | Ok data =>
          fail_if (maxPartBytes <? len data) (fail "part size exceeds 5 GiB limit");;
          let checksum := sha256_hex data in
          guarded now (mu_Key up) (sdk_UploadPart client
            (mkUploadPartInput (Bucket cfg) (mu_Key up) (mu_UploadID up) (uq_PartNumber req)
               data (len data) checksum));;
          ret (mkUploadedPart (uq_PartNumber req) checksum (len data))
      end
  end.

(** [Provider.CopyWithinProvider]. *)
Definition copyInput (req : CopyWithinProviderRequest) : CopyObjectInput :=
  let src := Bucket cfg +:+ "/" +:+ vr_Key (cw_Src req) +:+
    (if bool_decide (vr_VersionID (cw_Src req) = "") then ""
     else "?versionId=" +:+ vr_VersionID (cw_Src req)) in
  let i := mkCopyObjectInput (Bucket cfg) (cw_DstKey req) src "" None "" in
  let i := if bool_decide (rs_Mode (cw_Retention req) = RetentionNone) then i
           else applyRetentionToCopy i (cw_Retention req) in
  if rs_LegalHold (cw_Retention req) then i <| ci_ObjectLockLegalHoldStatus := "ON" |> else i.

Definition CopyWithinProvider (now : Time) (req : CopyWithinProviderRequest) : MP PutResult :=
  fail_if (bool_decide (vr_Key (cw_Src req) = "") || bool_decide (cw_DstKey req = ""))
    (fail "src and dst keys are required");;
  out ← sdk (cw_DstKey req) (CopyObject client (copyInput req));
  let versionID := aws_ToString out in
  head ← try (sdk (cw_DstKey req) (HeadObject client (mkHeadObjectInput (Bucket cfg) (cw_DstKey req) None)));
  let '(size, sum, versionID) :=
    match head with
    | Ok h => (aws_ToInt64 (ho_ContentLength h), aws_ToString (ho_ChecksumSHA256 h),
               if bool_decide (versionID = "") then aws_ToString (ho_VersionId h) else versionID)
    | Err _ => (0, "", versionID)
    end in
  ret (mkPutResult (cw_DstKey req) versionID VersioningEnabled zeroRetentionState now size sum
         (computeWriteResultHash (ProviderName cfg) (Bucket cfg) (cw_DstKey req) versionID
            VersioningEnabled size sum)).

(** [Provider.GetRetention]. *)
Definition GetRetention (ref : VersionedObjectRef) : MP RetentionState :=
  fail_if (bool_decide (vr_Key ref = "")) (fail "key is required");;
  out ← sdk (vr_Key ref) (GetObjectRetention client ref);
  let '(mode, until) := match out with
                        | Some r => (ol_Mode r, aws_ToTime (ol_RetainUntilDate r))
                        | None => (RetentionNone, zeroTime)
                        end in
  hold ← try (sdk (vr_Key ref) (GetObjectLegalHold client ref));
  let on := match hold with Ok (Some s) => bool_decide (s = "ON") | _ => false end in
  ret (mkRetentionState mode until on).

(** [Provider.UpdateRetention]. *)
Definition UpdateRetention (req : RetentionUpdate) : MP RetentionState :=
  fail_if (bool_decide (vr_Key (ru_Ref req) = "")) (fail "key is required");;
  let r := if ru_ClearRetention req then mkObjectLockRetention "OFF" None
           else mkObjectLockRetention
                  (if bool_decide (ru_Mode req = RetentionCompliance) then "COMPLIANCE" else "GOVERNANCE")
                  (Some (ru_RetainUntil req)) in
  sdk (vr_Key (ru_Ref req)) (PutObjectRetention client (ru_Ref req) r);;
  GetRetention (ru_Ref req).

(** [Provider.SetLegalHold]. *)
Definition SetLegalHold (ref : VersionedObjectRef) (enabled : bool) : MP RetentionState :=
  fail_if (bool_decide (vr_Key ref = "")) (fail "key is required");;
  sdk (vr_Key ref) (PutObjectLegalHold client ref (if enabled then "ON" else "OFF"));;
  GetRetention ref.

Definition pageSize (n : Z) : Z := if (n <=? 0) || (1000 <? n) then 1000 else n.

(** [Provider.ListObjects]. *)
Definition ListObjects (req : ListObjectsRequest) : MP ObjectPage :=
  out ← sdk "" (ListObjectsV2 client (mkListObjectsV2Input (Bucket cfg) (nonempty (lo_Prefix req))
          (nonempty (lo_Cursor req)) (pageSize (lo_MaxKeys req))));
  ret (mkObjectPage
    (map (fun o => mkObjectMeta (aws_ToString (so_Key o)) "" VersioningEnabled (aws_ToInt64 (so_Size o)) ""
                     zeroRetentionState (aws_ToTime (so_LastModified o))) (lob_Contents out))
    (aws_ToString (lob_NextContinuationToken out)) (aws_ToBool (lob_IsTruncated out))).

(** [Provider.ListObjectVersions]. *)
Definition ListObjectVersions (req : ListVersionsRequest) : MP VersionPage :=
  fail_if (bool_decide (lv_Key req = "")) (fail "key is required");;
  out ← sdk (lv_Key req) (sdk_ListObjectVersions client (mkListObjectVersionsInput (Bucket cfg) (lv_Key req)
          (nonempty (lv_Cursor req)) (pageSize (lv_MaxKeys req))));
  ret (mkVersionPage
    (map (fun v => mkObjectMeta (lv_Key req) (aws_ToString (ov_VersionId v)) VersioningEnabled
                     (aws_ToInt64 (ov_Size v)) "" zeroRetentionState (aws_ToTime (ov_LastModified v)))
       (filter (fun v => aws_ToString (ov_Key v) = lv_Key req) (lvo_Versions out)))
    (aws_ToString (lvo_NextKeyMarker out)) (aws_ToBool (lvo_IsTruncated out))).

(** [Provider.DeleteVersion]. *)
Definition DeleteVersion (ref : VersionedObjectRef) : MP unit :=
  fail_if (bool_decide (vr_Key ref = "")) (fail "key is required");;
  sdk (vr_Key ref) (DeleteObject client (mkDeleteObjectInput (Bucket cfg) (vr_Key ref)
    (Some (vr_VersionID ref)))).

(** [Provider.ListMultipartUploads]. *)
Definition ListMultipartUploads (req : ListUploadsRequest) : MP UploadPage :=
  out ← sdk "" (sdk_ListMultipartUploads client (mkListMultipartUploadsInput (Bucket cfg)
          (nonempty (lu_Prefix req)) (nonempty (lu_Cursor req))));
  ret (mkUploadPage (map (fun u => mkMultipartUpload (aws_ToString u.1) (aws_ToString u.2)) (lmo_Uploads out))
    (aws_ToString (lmo_NextKeyMarker out))).

(** [Provider.ListParts]. *)
Definition ListParts (upload : MultipartUpload) (cursor : string) : MP PartPage :=
  out ← sdk (mu_Key upload) (sdk_ListParts client
          (mkUploadIdInput (Bucket cfg) (mu_Key upload) (mu_UploadID upload)) (nonempty cursor));
  ret (mkPartPage
    (map (fun p => mkCompletedPart (aws_ToInt64 (sp3_PartNumber p)) (aws_ToString (sp3_ChecksumSHA256 p))
                     (aws_ToInt64 (sp3_Size p))) (lpo_Parts out))
    (aws_ToString (lpo_NextPartNumberMarker out))).

(** [Provider.deleteBatchChunk]. *)
Definition deleteBatchChunk (refs : list VersionedObjectRef) : MP BatchDeleteResult :=
  out ← sdk "" (DeleteObjects client (Bucket cfg)
          (map (fun r => mkObjectIdentifier (vr_Key r) (Some (vr_VersionID r))) refs));
  ret (mkBatchDeleteResult
    (map (fun d => mkVersionedObjectRef (aws_ToString (do_Key d)) (aws_ToString (do_VersionId d)))
       (dob_Deleted out))
    (map (fun e => mkBatchDeleteError
                     (mkVersionedObjectRef (aws_ToString (ee_Key e)) (aws_ToString (ee_VersionId e)))
                     (aws_ToString (ee_Message e))) (dob_Errors out))).

(** The loop of [DeleteBatch], one chunk of at most [maxBatchSize] refs per
    round; an error returns what was deleted so far beside the error. *)
Definition maxBatchSize : nat := 1000.
Fixpoint deleteBatchLoop (fuel : nat) (refs : list VersionedObjectRef) (acc : BatchDeleteResult)
    (p : Provider W) : Provider W * (BatchDeleteResult * option error) :=
  match fuel, refs with
  | O, _ | _, [] => (p, (acc, None))
  | S fuel', _ =>
      match deleteBatchChunk (take maxBatchSize refs) p with
      | (p, Err e) => (p, (acc, Some e))
      | (p, Ok page) =>
          deleteBatchLoop fuel' (drop maxBatchSize refs)
            (mkBatchDeleteResult (bd_Deleted acc ++ bd_Deleted page) (bd_Errors acc ++ bd_Errors page)) p
      end
  end.

(** [Provider.DeleteBatch]. *)
Definition DeleteBatch (refs : list VersionedObjectRef) (p : Provider W)
  : Provider W * (BatchDeleteResult * option error) :=
  match refs with
  | [] => (p, (mkBatchDeleteResult [] [], None))
  | _ => deleteBatchLoop (length refs) refs (mkBatchDeleteResult [] []) p
  end.
End provider.

(** The data-plane interface of the provider. How much of a body the SDK
    reads is a parameter. *)
Definition S3_Store {W} (cfg : Config) (client : S3API W)
    (putReads : Time -> PutRequest -> Provider W -> Z) : Store (Provider W) := {|
  st_Put := Put cfg client; st_PutReads := putReads; st_Get := Get cfg client; st_Head := Head cfg client;
  st_CreateMultipart := CreateMultipart cfg client; st_UploadPart := UploadPart cfg client;
  st_CompleteMultipart := CompleteMultipart cfg client; st_AbortMultipart := AbortMultipart cfg client
|}.

(** ** The guarded calls *)
Inductive call :=
| CPut (req : PutRequest) | CHead (ref : ObjectRef) | CGet (req : GetRequest) | CDelete (ref : ObjectRef)
| CCreate (req : MultipartRequest) | CComplete (req : CompleteRequest) | CUploadPart (req : UploadPartRequest).

Section breaker_lemmas.
Context {W : Type} (cfg : Config) (client : S3API W).
Notation MP := (M (Provider W)).

Definition outcome {A} (x : Provider W * result A) : Provider W * option error :=
  match x with (p, Ok _) => (p, None) | (p, Err e) => (p, Some e) end.

Definition runCall (now : Time) (c : call) (p : Provider W) : Provider W * option error :=
  match c with
  | CPut req => outcome (Put cfg client now req p)
  | CHead ref => outcome (Head cfg client now ref p)
  | CGet req => outcome (Get cfg client now req p)
  | CDelete ref => outcome (Delete cfg client now ref p)
  | CCreate req => outcome (CreateMultipart cfg client now req p)
  | CComplete req => outcome (CompleteMultipart cfg client now req p)
  | CUploadPart req => outcome (UploadPart cfg client now req p)
  end.

Definition runCalls (cs : list (Time * call)) (p : Provider W) : Provider W :=
  foldl (fun p tc => (runCall tc.1 tc.2 p).1) p cs.

(** How a call of the breaker's owner may end. [cb] is the breaker before. *)
Inductive accounted (now : Time) (cb : CircuitBreaker) (w w' : W) : option error -> CircuitBreaker -> Prop :=
| acc_invalid e : w' = w -> accounted now cb w w' (Some e) cb
| acc_refused cb1 e : Allow now cb = (cb1, Err e) -> w' = w -> accounted now cb w w' (Some e) cb1
| acc_local cb1 e : Allow now cb = (cb1, Ok tt) -> w' = w -> accounted now cb w w' (Some e) cb1
| acc_client cb1 e : Allow now cb = (cb1, Ok tt) -> isClientError e = true ->
    accounted now cb w w' (Some e) cb1
| acc_failure cb1 e : Allow now cb = (cb1, Ok tt) -> isClientError e = false ->
    accounted now cb w w' (Some e) (RecordFailure now cb1)
| acc_success cb1 : Allow now cb = (cb1, Ok tt) -> accounted now cb w w' None (RecordSuccess cb1).

(** The part of a call behind its input checks. *)
Definition behaves {A} (now : Time) (m : MP A) : Prop := forall p cb,
  breaker p = Some cb ->
  exists cb', breaker (outcome (m p)).1 = Some cb' /\
    accounted now cb (world p) (world (outcome (m p)).1) (outcome (m p)).2 cb'.

Lemma behaves_throw {A} now e : behaves now (throw e : MP A).
Proof. intros p cb Hb. exists cb. split; [done|]. by constructor. Qed.

Lemma behaves_fail_if {A} now b e (m : MP A) : behaves now m -> behaves now (fail_if b e;; m).
Proof. intros Hm. destruct b; [apply behaves_throw|exact Hm]. Qed.

(** [breakerAllow], then a local rejection or a recorded client call. *)
Lemma behaves_guarded {A B} now key (f : W -> W * sdkResult A) (k : A -> MP B) :
  (forall a p, exists p' b, k a p = (p', Ok b) /\ breaker p' = breaker p) ->
  behaves now (breakerAllow now;; guarded cfg now key f ≫= k).
Proof.
  intros Hk p cb Hb. unfold mbind, M_bind, bind, breakerAllow. rewrite Hb.
  destruct (Allow now cb) as [cb1 [[]|e]] eqn:Ha.
  - unfold guarded, sdk. cbn [world breaker upd eta_expand eta_Provider].
    destruct (f (world p)) as [w [a|e]].
    + cbn [breakerSuccess breaker upd eta_expand eta_Provider].
      match goal with |- context [k a ?q] => destruct (Hk a q) as (p' & b & -> & Hbr) end.
      cbn in Hbr |- *. rewrite Hbr. eexists. split; [done|]. by constructor.
    + unfold breakerFailure. cbn [breaker upd eta_expand eta_Provider].
      destruct (isClientError _) eqn:Hc; cbn; eexists; (split; [done|]).
      * by apply acc_client.
      * by apply acc_failure.
  - cbn. exists cb1. split; [done|]. by apply (acc_refused _ _ _ _ cb1).
Qed.

Lemma behaves_local {A} now e : behaves now (breakerAllow now;; throw e : MP A).
Proof.
  intros p cb Hb. unfold mbind, M_bind, bind, breakerAllow. rewrite Hb.
  destruct (Allow now cb) as [cb1 [[]|e']] eqn:Ha; cbn; exists cb1; (split; [done|]).
  - by apply (acc_local _ _ _ _ cb1).
  - by apply (acc_refused _ _ _ _ cb1).
Qed.

(** Binding is associative, so the input checks in front do not matter. *)
Lemma behaves_ext {A} now (m m' : MP A) : (forall p, m p = m' p) -> behaves now m -> behaves now m'.
Proof. intros He Hm p cb Hb. rewrite <- !He. by apply Hm. Qed.

Ltac pure_tail := intros; eexists _, _; split; [reflexivity|reflexivity].

Lemma behaves_lock {A} now b e (m : MP A) :
  behaves now (breakerAllow now;; m) -> behaves now (breakerAllow now;; fail_if b e;; m).
Proof.
  intros Hm. destruct b; [|exact Hm].
  apply (behaves_ext now (breakerAllow now;; throw e)); [|apply behaves_local].
  intros p. unfold mbind, M_bind, bind. by destruct (breakerAllow now p) as [q []].
Qed.

Lemma runCall_behaves now c p cb :
  breaker p = Some cb ->
  exists cb', breaker (runCall now c p).1 = Some cb' /\
    accounted now cb (world p) (world (runCall now c p).1) (runCall now c p).2 cb'.
Proof.
  intros Hb. destruct c as [req|ref|req|ref|req|req|req]; cbn [runCall].
  - revert p cb Hb. change (behaves now (Put cfg client now req)). unfold Put.
    case_bool_decide; [apply behaves_throw|]. destruct (pq_Body req); [|apply behaves_throw].
    apply behaves_lock, behaves_guarded. pure_tail.
  - revert p cb Hb. change (behaves now (Head cfg client now ref)).
    apply behaves_fail_if, behaves_guarded. pure_tail.
  - revert p cb Hb. change (behaves now (Get cfg client now req)).
    apply behaves_fail_if, behaves_guarded. pure_tail.
  - revert p cb Hb. change (behaves now (Delete cfg client now ref)).
    apply behaves_fail_if. apply (behaves_ext now (breakerAllow now;; guarded cfg now (or_Key ref)
      (DeleteObject client (mkDeleteObjectInput (Bucket cfg) (or_Key ref) None)) ≫= ret)).
    + intros q. unfold mbind, M_bind, bind. destruct (breakerAllow now q) as [q' []]; [|done].
      by destruct (guarded _ _ _ _ q') as [q'' []].
    + apply behaves_guarded. pure_tail.
  - revert p cb Hb. change (behaves now (CreateMultipart cfg client now req)).
    apply behaves_fail_if, behaves_lock, behaves_guarded. pure_tail.
  - revert p cb Hb. change (behaves now (CompleteMultipart cfg client now req)).
    apply behaves_fail_if, behaves_guarded. intros a p.
    unfold mbind, M_bind, bind, try, sdk.
    destruct (HeadObject client _ (world p)) as [w [h|e]]; eexists _, _; split; reflexivity.
  - revert p cb Hb. change (behaves now (UploadPart cfg client now req)).
    apply behaves_fail_if, behaves_fail_if. destruct (uq_Body req) as [body|]; [|apply behaves_throw].
    destruct (ReadAll _) as [data|e]; [|apply behaves_local].
    apply behaves_lock, behaves_guarded. pure_tail.
Qed.
End breaker_lemmas.

Lemma Allow_stuck now cb :
  cb_state cb = CircuitHalfOpen -> probeInFlight cb = true ->
  Allow now cb = (cb, Err (ErrSentinel S3CircuitOpen)).
Proof. intros Hs Hp. unfold Allow. by rewrite Hs, Hp. Qed.

Lemma stuck_call {W} (cfg : Config) (client : S3API W) now c p cb :
  breaker p = Some cb -> cb_state cb = CircuitHalfOpen -> probeInFlight cb = true ->
  breaker (runCall cfg client now c p).1 = Some cb /\ world (runCall cfg client now c p).1 = world p
  /\ (runCall cfg client now c p).2 <> None.
Proof.
  intros Hb Hs Hp. destruct (runCall_behaves cfg client now c p cb Hb) as (cb' & Hb' & Hacc).
  pose proof (Allow_stuck now cb Hs Hp) as Ha.
  remember (runCall cfg client now c p).2 as oe eqn:Hoe.
  destruct Hacc as [e Hw|cb1 e Ha' Hw|cb1 e Ha' Hw|cb1 e Ha'|cb1 e Ha'|cb1 Ha']; try congruence.
  - done.
  - assert (cb1 = cb) as -> by congruence. done.
Qed.

Lemma stuck_calls {W} (cfg : Config) (client : S3API W) cs p cb :
  breaker p = Some cb -> cb_state cb = CircuitHalfOpen -> probeInFlight cb = true ->
  breaker (runCalls cfg client cs p) = Some cb /\ world (runCalls cfg client cs p) = world p.
Proof.
  intros Hb Hs Hp. revert p Hb. induction cs as [|tc cs IH]; intros p Hb; [done|].
  destruct (stuck_call cfg client tc.1 tc.2 p cb Hb Hs Hp) as (Hb' & Hw & _).
  change (runCalls cfg client (tc :: cs) p)
    with (runCalls cfg client cs (runCall cfg client tc.1 tc.2 p).1).
  destruct (IH _ Hb') as [-> ->]. done.
Qed.

(** ** Batch deletion, as the service sees it

    A scripted service: the pages it will answer, and the objects of the
    DeleteObjects calls it received. Every other call is irrelevant here
    and answers an error. *)
Record script := mkScript {
  sc_pages : list ListObjectVersionsOutput;
  sc_deleted : list (list ObjectIdentifier)
}.

Definition someError : sdkError := mkSdkError false false false false None false "" (ErrNew "").

Definition scripted : S3API script := {|
  PutObject _ w := (w, inr someError); GetObject _ w := (w, inr someError);
  HeadObject _ w := (w, inr someError); DeleteObject _ w := (w, inr someError);
  DeleteObjects _ objs w :=
    (mkScript (sc_pages w) (sc_deleted w ++ [objs]), inl (mkDeleteObjectsOutput [] []));
  ListObjectsV2 _ w := (w, inr someError);
  sdk_ListObjectVersions _ w :=
    match sc_pages w with
    | [] => (w, inr someError)
    | pg :: pgs => (mkScript pgs (sc_deleted w), inl pg)
    end;
  CopyObject _ w := (w, inr someError); CreateMultipartUpload _ w := (w, inr someError);
  sdk_UploadPart _ w := (w, inr someError); CompleteMultipartUpload _ w := (w, inr someError);
  AbortMultipartUpload _ w := (w, inr someError); sdk_ListMultipartUploads _ w := (w, inr someError);
  sdk_ListParts _ _ w := (w, inr someError); GetObjectRetention _ w := (w, inr someError);
  PutObjectRetention _ _ w := (w, inr someError); GetObjectLegalHold _ w := (w, inr someError);
  PutObjectLegalHold _ _ w := (w, inr someError)
|}.

(** The scripted service for the batches: chunks of a list. *)
Fixpoint chunks (fuel n : nat) (refs : list VersionedObjectRef) : list (list VersionedObjectRef) :=
  match fuel, refs with
  | O, _ | _, [] => []
  | S fuel', _ => take n refs :: chunks fuel' n (drop n refs)
  end.

Lemma chunks_concat fuel n refs :
  (length refs <= fuel)%nat -> (0 < n)%nat -> concat (chunks fuel n refs) = refs.
Proof.
  revert refs. induction fuel as [|fuel IH]; intros refs Hf Hn; [by destruct refs; cbn in *; [|lia]|].
  destruct refs as [|r refs]; [done|]. cbn [chunks concat].
  rewrite IH; [by rewrite take_drop| |done]. rewrite length_drop. cbn [length] in *. lia.
Qed.

Lemma chunks_bound fuel n refs :
  (0 < n)%nat -> Forall (fun l => (0 < length l <= n)%nat) (chunks fuel n refs).
Proof.
  intros Hn. revert refs. induction fuel as [|fuel IH]; intros [|r refs]; try constructor; [|apply IH].
  rewrite length_take. cbn [length]. lia.
Qed.

Definition toIds (l : list VersionedObjectRef) : list ObjectIdentifier :=
  map (fun r => mkObjectIdentifier (vr_Key r) (Some (vr_VersionID r))) l.

Lemma deleteBatchLoop_scripted cfg fuel refs acc br pgs del :
  deleteBatchLoop cfg scripted fuel refs acc (mkProvider br (mkScript pgs del)) =
    (mkProvider br (mkScript pgs (del ++ map toIds (chunks fuel maxBatchSize refs))), (acc, None)).
Proof.
  revert refs acc del. induction fuel as [|fuel IH]; intros refs acc del.
  - cbn. by rewrite app_nil_r.
  - destruct refs as [|r refs]; [cbn; by rewrite app_nil_r|].
    cbn [deleteBatchLoop chunks map]. unfold deleteBatchChunk, mbind, M_bind, bind, sdk, mret, M_ret, ret.
    cbn [world DeleteObjects scripted sc_pages sc_deleted upd eta_expand eta_Provider breaker
      dob_Deleted dob_Errors map bd_Deleted bd_Errors].
    rewrite IH, <- app_assoc. destruct acc as [d e]. cbn. by rewrite !app_nil_r.
Qed.

(** ** Properties *)


(** a client error on the probe is not recorded, so the probe flag
    stays set: after a HEAD of a missing key as the probe, every later call
    fails and the service is never called again, at whatever time. *)
Lemma client_error_probe_wedges {W} (cfg : Config) (client : S3API W) now ref p cb w e :
  breaker p = Some cb -> cb_state cb = CircuitOpen -> probeInFlight cb = false ->
  tooEarly now cb = false -> or_Key ref <> "" ->
  HeadObject client (mkHeadObjectInput (Bucket cfg) (or_Key ref) None) (world p) = (w, inr e) ->
  is_NoSuchKey e = true \/ is_NotFound e = true \/ httpStatus e = Some 404 ->
  forall cs, let p1 := (Head cfg client now ref p).1 in
    breaker (runCalls cfg client cs p1) = breaker p1 /\
    world (runCalls cfg client cs p1) = w /\
    forall now' c, (runCall cfg client now' c (runCalls cfg client cs p1)).2 <> None.
Proof.
  intros Hb Hs Hpr Hte Hk Hh He.
  assert (Hce : isClientError (classifyError (errPrefix cfg) e) = true).
  { unfold classifyError. destruct (is_NoSuchKey e); [done|]. destruct (is_NoSuchBucket e); [done|].
    destruct (is_NoSuchUpload e); [done|]. destruct (is_NotFound e); [done|].
    by destruct He as [?|[?| ->]]. }
  set (cb1 := cb <| probeInFlight := true |> <| cb_state := CircuitHalfOpen |>).
  assert (Hp1 : (Head cfg client now ref p).1 = mkProvider (Some cb1) w).
  { unfold Head, fail_if, mbind, M_bind, bind, ret, breakerAllow.
    rewrite bool_decide_false, Hb by done. unfold Allow. rewrite Hs, Hte, Hpr.
    unfold guarded, sdk. cbn [world upd eta_expand eta_Provider]. rewrite Hh.
    unfold breakerFailure. cbn [breaker upd eta_expand eta_Provider]. by rewrite Hce. }
  intros cs. cbv zeta. rewrite Hp1.
  destruct (stuck_calls cfg client cs (mkProvider (Some cb1) w) cb1) as [-> ->]; [done..|].
  split; [done|]. split; [done|].
  intros now' c. destruct (stuck_calls cfg client cs (mkProvider (Some cb1) w) cb1) as [Hbr _]; [done..|].
  by destruct (stuck_call cfg client now' c _ cb1 Hbr) as (_ & _ & ?).
Qed.

(** Batch deletion sends the refs in order, each exactly once, in
    requests of at least one and at most 1000 objects, and returns no error
    when none of the requests failed. *)
Lemma deleteBatch_chunks cfg refs br pgs :
  exists calls, DeleteBatch cfg scripted refs (mkProvider br (mkScript pgs [])) =
      (mkProvider br (mkScript pgs (map toIds calls)), (mkBatchDeleteResult [] [], None)) /\
    concat calls = refs /\ Forall (fun l => (0 < length l <= 1000)%nat) calls.
Proof.
  exists (chunks (length refs) maxBatchSize refs). split; [|split].
  - destruct refs as [|r refs]; [done|]. unfold DeleteBatch. by rewrite deleteBatchLoop_scripted.
  - by apply chunks_concat; [|unfold maxBatchSize; lia].
  - apply chunks_bound. unfold maxBatchSize. lia.
Qed.

(** on a provider without object lock a [Put] with the zero retention
    is rejected without a call: the zero mode is not [RetentionNone]. *)
Lemma b2_rejects_zero_retention {W} (cfg : Config) (client : S3API W) now req p body :
  ProviderName cfg = "b2" -> breaker p = None -> pq_Key req <> "" -> pq_Body req = Some body ->
  Put cfg client now (req <| pq_Retention := zeroRetentionSpec |>) p
    = (p, Err (fail cfg "object lock not supported by this provider")).
Proof.
  intros Hc Hb Hk Hbody. unfold Put. cbn [pq_Key pq_Body pq_Retention upd eta_expand eta_PutRequest].
  rewrite bool_decide_false, Hbody by done.
  assert (Hl : lockUnsupported cfg zeroRetentionSpec = true) by (unfold lockUnsupported; by rewrite Hc).
  unfold mbind, M_bind, bind, breakerAllow. rewrite Hb, Hl. done.
Qed.

(** [CompleteMultipart] turns a failed verification HEAD into a
    successful result of size zero with an empty checksum. *)
Lemma complete_head_failure {W} (cfg : Config) (client : S3API W) now req p w vid w' e :
  breaker p = None -> mu_Key (cq_Upload req) <> "" -> mu_UploadID (cq_Upload req) <> "" ->
  CompleteMultipartUpload client
    (mkCompleteMultipartUploadInput (Bucket cfg) (mu_Key (cq_Upload req)) (mu_UploadID (cq_Upload req))
       (map (fun part => mkSdkCompletedPart (cp_PartNumber part) (cp_ChecksumSHA256 part)) (cq_Parts req)))
    (world p) = (w, inl vid) ->
  HeadObject client (mkHeadObjectInput (Bucket cfg) (mu_Key (cq_Upload req)) vid) w = (w', inr e) ->
  exists res, CompleteMultipart cfg client now req p = (mkProvider None w', Ok res) /\
    pr_Size res = 0 /\ pr_ChecksumSHA256 res = "".
Proof.
  intros Hb Hk Hu Hc Hh. unfold CompleteMultipart, fail_if, mbind, M_bind, bind, mret, M_ret, ret, breakerAllow.
  rewrite !bool_decide_false by done. cbn [orb]. cbv beta iota. rewrite Hb.
  unfold guarded, sdk. rewrite Hc.
  unfold breakerSuccess. cbn [world breaker upd eta_expand eta_Provider]. rewrite Hb.
  cbn [breaker upd eta_expand eta_Provider]. rewrite ?Hb.
  unfold try. cbn [world upd eta_expand eta_Provider]. rewrite Hh.
  eexists. split; [reflexivity|done].
Qed.

(** ** Witnesses

    A service that stores nothing: HEAD answers "not found". *)
Definition ex_cfg : Config := mkConfig "b2" "https://e" "r" "bucket" "ak" "sk" true.
Definition notFoundError : sdkError :=
  mkSdkError false false false true (Some 404) false "NotFound" (ErrNew "NotFound").
Definition emptyService : S3API nat := {|
  PutObject _ w := (S w, inl (mkPutObjectOutput None (Some "v1") None));
  GetObject _ w := (S w, inr notFoundError);
  HeadObject _ w := (S w, inr notFoundError); DeleteObject _ w := (S w, inl tt);
  DeleteObjects _ _ w := (S w, inl (mkDeleteObjectsOutput [] []));
  ListObjectsV2 _ w := (S w, inr someError); sdk_ListObjectVersions _ w := (S w, inr someError);
  CopyObject _ w := (S w, inr someError); CreateMultipartUpload _ w := (S w, inr someError);
  sdk_UploadPart _ w := (S w, inr someError); CompleteMultipartUpload _ w := (S w, inl (Some "v2"));
  AbortMultipartUpload _ w := (S w, inr someError); sdk_ListMultipartUploads _ w := (S w, inr someError);
  sdk_ListParts _ _ w := (S w, inr someError); GetObjectRetention _ w := (S w, inr someError);
  PutObjectRetention _ _ w := (S w, inr someError); GetObjectLegalHold _ w := (S w, inr someError);
  PutObjectLegalHold _ _ w := (S w, inr someError)
|}.
Definition ex_breaker : CircuitBreaker := mkCircuitBreaker 2 5 CircuitOpen 2 10 false.
Definition ex_provider : Provider nat := mkProvider (Some ex_breaker) 0%nat.


Lemma client_error_probe_wedges_witness :
  let p1 := (Head ex_cfg emptyService 20 (mkObjectRef "healthz") ex_provider).1 in
  world (runCalls ex_cfg emptyService
           [(1000, CHead (mkObjectRef "a")); (2000, CGet (mkGetRequest (mkVersionedObjectRef "b" "") None))] p1) = 1%nat.
Proof.
  refine (proj1 (proj2 (client_error_probe_wedges ex_cfg emptyService 20 (mkObjectRef "healthz") ex_provider
    ex_breaker 1%nat notFoundError eq_refl eq_refl eq_refl eq_refl _ eq_refl _ _))).
  - discriminate.
  - right. left. reflexivity.
Defined.

Lemma b2_rejects_zero_retention_witness :
  Put ex_cfg emptyService 1 (mkPutRequest "k" (Some (bytes_NewReader [])) 0 "" "" "" "" "" "" zeroRetentionSpec false)
    (mkProvider None 0%nat)
  = (mkProvider None 0%nat, Err (ErrNew "b2: object lock not supported by this provider")).
Proof.
  exact (b2_rejects_zero_retention ex_cfg emptyService 1
    (mkPutRequest "k" (Some (bytes_NewReader [])) 0 "" "" "" "" "" "" zeroRetentionSpec false)
    (mkProvider None 0%nat) (bytes_NewReader []) eq_refl eq_refl ltac:(discriminate) eq_refl).
Defined.

Lemma complete_head_failure_witness :
  exists res, CompleteMultipart ex_cfg emptyService 1
      (mkCompleteRequest (mkMultipartUpload "k" "u") [mkCompletedPart 1 "aa" 7] zeroRetentionSpec)
      (mkProvider None 0%nat) = (mkProvider None 2%nat, Ok res) /\
    pr_Size res = 0 /\ pr_ChecksumSHA256 res = "".
Proof.
  apply (complete_head_failure ex_cfg emptyService 1 _ _ 1%nat (Some "v2") 2%nat notFoundError);
    [reflexivity|discriminate|discriminate|reflexivity|reflexivity].
Defined.
