(* ===== verification/S3Purge.v ===== *)
(** * PurgeAllVersions of pkg/blobstore/s3/s3.go over a versioned bucket

    [VersionedService] is what S3 documents of listing and deleting versions:
    pages of at most the size asked for, in the order of the keys, behind the
    key marker, and a deletion that leaves what an object lock protects. Over
    any client that behaves so, the purge removes exactly the versions and
    delete markers of the key that its first page shows. *)
From S2P Require Import Prelude GoStd Sha256 BlobStore CircuitBreaker S3.
Local Open Scope Z_scope.

(** ** Strings with a prefix *)
Lemma str_le_prefix k p : HasPrefix k p = true -> k = p \/ str_ltb p k = true.
Proof.
  revert k. induction p as [|c p IH]; intros [|d k] Hp; [by left|by right|done|]. cbn -[Ascii.eqb] in Hp.
  apply andb_true_iff in Hp as [Hc Hp]. apply Ascii.eqb_eq in Hc as ->. destruct (IH k Hp) as [->|Hlt]; [by left|right].
  cbn [str_ltb]. rewrite N.ltb_irrefl, N.eqb_refl. exact Hlt.
Qed.
Lemma str_ltb_asym s t : str_ltb s t = true -> str_ltb t s = false.
Proof. intros Hs. destruct (str_ltb t s) eqn:Ht; [|done]. pose proof (str_ltb_trans _ _ _ Hs Ht) as Hx. by rewrite str_ltb_irrefl in Hx. Qed.
Lemma HasPrefix_refl p : HasPrefix p p = true.
Proof. induction p as [|c p IH]; [done|]. cbn -[Ascii.eqb]. by rewrite Ascii.eqb_refl. Qed.

(** ** The service *)

(** A version or delete marker of the bucket. *)
Record entry := mkEntry { en_key : string; en_version : string; en_marker : bool }.
#[export] Instance entry_eq_dec : EqDecision entry.
Proof. solve_decision. Defined.
Definition identOf (e : entry) : ObjectIdentifier := mkObjectIdentifier (en_key e) (Some (en_version e)).
Definition nameOf (v : ObjectVersion) : string * option string := (aws_ToString (ov_Key v), ov_VersionId v).
Definition namesOf (marker : bool) (l : list entry) : list (string * option string) :=
  map (fun e => (en_key e, Some (en_version e))) (List.filter (fun e => Bool.eqb (en_marker e) marker) l).
(** What a listing selects, and the versions of one key. *)
Definition selected (prefix : string) (marker : option string) (e : entry) : bool :=
  HasPrefix (en_key e) prefix && match marker with Some m => str_ltb m (en_key e) | None => true end.
Definition versionsOf (key : string) (l : list entry) : list entry := List.filter (fun e => bool_decide (en_key e = key)) l.

Class VersionedService {W} (client : S3API W) (bucket : string) := {
  vs_ok : W -> Prop;
  vs_entries : W -> list entry;
  (* what an object lock or a legal hold protects *)
  vs_locked : W -> entry -> bool;
  (* the entries are listed in the order of their keys, none twice *)
  vs_sorted : forall w, vs_ok w -> StronglySorted (fun a b => str_ltb (en_key b) (en_key a) = false) (vs_entries w);
  vs_unique : forall w a b, vs_ok w -> a ∈ vs_entries w -> b ∈ vs_entries w -> identOf a = identOf b -> a = b;
  vs_list : forall w prefix marker n, vs_ok w -> 0 < n <= 1000 -> exists w' out,
    sdk_ListObjectVersions client (mkListObjectVersionsInput bucket prefix marker n) w = (w', inl out) /\
    vs_ok w' /\ vs_entries w' = vs_entries w /\ (forall e, vs_locked w' e = vs_locked w e) /\
    let l := List.filter (selected prefix marker) (vs_entries w) in
    map nameOf (lvo_Versions out) = namesOf false (takeZ n l) /\ map nameOf (lvo_DeleteMarkers out) = namesOf true (takeZ n l) /\
    lvo_IsTruncated out = Some (n <? len l) /\ (n < len l -> lvo_NextKeyMarker out = en_key <$> last (takeZ n l));
  vs_delete : forall w objs, vs_ok w -> len objs <= 1000 -> exists w' out,
    DeleteObjects client bucket objs w = (w', inl out) /\ vs_ok w' /\ (forall e, vs_locked w' e = vs_locked w e) /\
    vs_entries w' = List.filter (fun e => vs_locked w e || negb (bool_decide (identOf e ∈ objs))) (vs_entries w)
}.

(** ** Lemmas *)
Lemma filter_app_List {A} (f : A -> bool) l l' : List.filter f (l ++ l') = List.filter f l ++ List.filter f l'.
Proof. induction l as [|x l IH]; [done|]. cbn. destruct (f x); [cbn; by rewrite IH|done]. Qed.
Lemma filter_all {A} (f : A -> bool) l : (forall x, x ∈ l -> f x = true) -> List.filter f l = l.
Proof. induction l as [|x l IH]; intros Hl; [done|]. cbn. rewrite (Hl x) by set_solver. rewrite IH; [done|]. set_solver. Qed.
Lemma filter_none {A} (f : A -> bool) l : (forall x, x ∈ l -> f x = false) -> List.filter f l = [].
Proof. induction l as [|x l IH]; intros Hl; [done|]. cbn. rewrite (Hl x) by set_solver. apply IH. set_solver. Qed.
Lemma filter_In {A} (f : A -> bool) l x : x ∈ List.filter f l <-> x ∈ l /\ f x = true.
Proof. rewrite !list_elem_of_In. apply List.filter_In. Qed.

(** [matchKey] sees the keys and versions of a page only. *)
Lemma matchKey_names key l :
  matchKey key l = (map (mkObjectIdentifier key) (map snd (List.filter (fun n => bool_decide (n.1 = key)) (map nameOf l))),
                    existsb (fun n => str_ltb key n.1) (map nameOf l)).
Proof.
  induction l as [|v l IH]; [done|]. cbn [matchKey map List.filter existsb nameOf fst]. rewrite IH. unfold nameOf at 1 4. cbn [fst snd].
  unfold nameOf. cbn [fst]. case_bool_decide as Hk; [|done]. cbn [map snd]. by rewrite Hk, str_ltb_irrefl.
Qed.
Lemma filter_len {A} (f : A -> bool) l : len (List.filter f l) <= len l.
Proof. induction l as [|x l IH]; [done|]. cbn. destruct (f x); rewrite ?len_cons; lia. Qed.
Lemma filter_ext_mem {A} (f g : A -> bool) l : (forall x, x ∈ l -> f x = g x) -> List.filter f l = List.filter g l.
Proof. intros Hl. apply List.filter_ext_in. intros x Hx. apply Hl. by apply list_elem_of_In. Qed.

Section purge.
Context {W : Type} (cfg : Config) (client : S3API W) `{VersionedService W client (Bucket cfg)}.
Notation MP := (Provider W).

(** The keys that have [key] as a prefix begin with [key] itself. *)
Lemma selected_split key l : StronglySorted (fun a b => str_ltb (en_key b) (en_key a) = false) l ->
  List.filter (selected key None) l = versionsOf key l ++ List.filter (selected key (Some key)) l.
Proof.
  induction 1 as [|e l _ IH He]; [done|]. cbn [List.filter versionsOf]. fold (versionsOf key l).
  assert (H1 : selected key None e = HasPrefix (en_key e) key) by (unfold selected; apply andb_true_r).
  assert (H2 : selected key (Some key) e = HasPrefix (en_key e) key && str_ltb key (en_key e)) by done.
  rewrite H1, H2. case_bool_decide as Hk.
  - rewrite Hk, HasPrefix_refl, str_ltb_irrefl. cbn [andb app]. by rewrite IH.
  - destruct (HasPrefix (en_key e) key) eqn:Hp; [|exact IH]. destruct (str_le_prefix _ _ Hp) as [?|Hlt]; [done|]. rewrite Hlt. cbn [andb].
    assert (Hno : versionsOf key l = []).
    { apply filter_none. intros x Hx. rewrite Forall_forall in He. specialize (He x Hx). case_bool_decide as Hxk; [|done]. congruence. }
    rewrite IH, Hno. done.
Qed.

(** A page, as the loop sees it: what it deletes and when it stops. *)
Lemma page_seen key (l : list entry) out : map nameOf (lvo_Versions out) = namesOf false l -> map nameOf (lvo_DeleteMarkers out) = namesOf true l ->
  exists objs passed1 objs' passed2, matchKey key (lvo_Versions out) = (objs, passed1) /\ matchKey key (lvo_DeleteMarkers out) = (objs', passed2) /\
    passed1 || passed2 = existsb (fun e => str_ltb key (en_key e)) l /\ len (objs ++ objs') = len (versionsOf key l) /\
    forall i, i ∈ objs ++ objs' <-> exists e, e ∈ versionsOf key l /\ i = identOf e.
Proof.
  intros H1 H2. do 4 eexists. split; [apply matchKey_names|]. split; [apply matchKey_names|]. rewrite H1, H2. clear H1 H2. split; [|split].
  - induction l as [|e l IH]; [done|]. unfold namesOf in *. cbn [List.filter]. cbn [existsb]. rewrite <- IH.
    destruct (en_marker e); cbn [Bool.eqb map existsb fst]; by destruct (str_ltb key (en_key e)), (existsb _ _).
  - unfold len. f_equal. rewrite length_app, !length_map. unfold namesOf. induction l as [|e l IH]; [done|]. cbn [List.filter versionsOf].
    fold (versionsOf key l). destruct (en_marker e); cbn [Bool.eqb map List.filter fst]; case_bool_decide; cbn [length]; lia.
  - intros i. rewrite elem_of_app. unfold namesOf. split.
    + intros Hi. assert (Hx : exists mk, i ∈ map (mkObjectIdentifier key) (map snd (List.filter (fun n : string * option string => bool_decide (n.1 = key))
        (map (fun e => (en_key e, Some (en_version e))) (List.filter (fun e => Bool.eqb (en_marker e) mk) l))))) by (destruct Hi; by eexists).
      destruct Hx as (mk & (v & -> & ((k & v') & -> & [(e & [= -> ->] & [He _]%filter_In)%list_elem_of_fmap Hk]%filter_In)%list_elem_of_fmap)%list_elem_of_fmap).
      cbn [fst snd] in *. bool_hyps. subst key. exists e. split; [|done]. apply filter_In. split; [done|]. by rewrite bool_decide_true.
    + intros (e & [He Hk]%filter_In & ->). bool_hyps. subst key.
      assert (Hin : identOf e ∈ map (mkObjectIdentifier (en_key e)) (map snd (List.filter (fun n : string * option string => bool_decide (n.1 = en_key e))
        (map (fun e => (en_key e, Some (en_version e))) (List.filter (fun x => Bool.eqb (en_marker x) (en_marker e)) l))))).
      { apply list_elem_of_fmap. exists (Some (en_version e)). split; [done|]. apply list_elem_of_fmap. exists (en_key e, Some (en_version e)). split; [done|].
        apply filter_In. cbn [fst]. rewrite bool_decide_true by done. split; [|done]. apply list_elem_of_fmap. exists e. split; [done|].
        apply filter_In. split; [done|]. by rewrite Bool.eqb_reflx. }
      destruct (en_marker e); [by right|by left].
Qed.

Notation locked p e := (vs_locked (bucket := Bucket cfg) (client := client) (world p) e).
Notation entries p := (vs_entries (bucket := Bucket cfg) (client := client) (world p)).
Notation ok p := (vs_ok (bucket := Bucket cfg) (client := client) (world p)).

(** What stays when the versions [l] of a key are deleted. *)
Definition remaining (p : Provider W) (l : list entry) : list entry :=
  List.filter (fun e => locked p e || negb (bool_decide (e ∈ l))) (entries p).

Lemma remaining_none p l : (forall e, e ∈ l -> e ∉ entries p) -> remaining p l = entries p.
Proof.
  intros Hl. apply filter_all. intros e He. apply orb_true_iff. right. apply negb_true_iff, bool_decide_eq_false. intros Hx. by apply (Hl e).
Qed.

(** One turn of the loop. *)
Lemma purge_page fuel key cursor p : ok p ->
  let l := List.filter (selected key cursor) (entries p) in let page := takeZ 1000 l in
  exists p', breaker p' = breaker p /\ ok p' /\ (forall e, locked p' e = locked p e) /\
    entries p' = remaining p (versionsOf key page) /\
    exists next, (1000 < len l -> next = en_key <$> last page) /\
    purgeLoop cfg client (S fuel) key cursor p =
      if existsb (fun e => str_ltb key (en_key e)) page || negb (1000 <? len l) then Some (p', Ok tt)
      else purgeLoop cfg client fuel key next p'.
Proof.
  intros Hok l page. destruct (vs_list (world p) key cursor 1000 Hok) as (w1 & out & Hl & Hok1 & He1 & Hlk1 & Hv & Hm & Ht & Hn); [lia|].
  destruct (page_seen key page out Hv Hm) as (objs & passed1 & objs' & passed2 & Hm1 & Hm2 & Hpass & Hlen & Hin).
  assert (Hsub : forall e, e ∈ versionsOf key page -> e ∈ entries p).
  { intros e [He _]%filter_In. unfold page in He. rewrite takeZ_take in He. apply elem_of_take in He as (? & He & _).
    apply list_elem_of_lookup_2, filter_In in He. apply He. }
  assert (Hle : len (objs ++ objs') <= 1000).
  { rewrite Hlen. etransitivity; [apply filter_len|]. unfold page. rewrite len_takeZ by lia. lia. }
  cbn [purgeLoop]. unfold sdk. rewrite Hl, Hm1, Hm2. cbn [world]. 
  destruct (objs ++ objs') as [|o os] eqn:Hobjs.
  - exists (p <| world := w1 |>). split_and!; [done..| |].
    + cbn. rewrite He1. symmetry. apply remaining_none. intros e He. exfalso. by apply (not_elem_of_nil (identOf e)), Hin; exists e.
    + exists (lvo_NextKeyMarker out). split; [exact Hn|]. rewrite Hpass, Ht. by destruct (existsb _ page).
  - destruct (vs_delete w1 (o :: os) Hok1) as (w2 & out2 & Hd & Hok2 & Hlk2 & He2); [done|].
    change (world (p <| world := w1 |>)) with w1. rewrite Hd.
    exists (p <| world := w2 |>). split_and!; [done..| | |].
    + intros e. cbn. by rewrite Hlk2.
    + cbn. rewrite He2, He1. apply filter_ext_mem. intros e He. rewrite Hlk1. f_equal. f_equal. apply bool_decide_ext. rewrite Hin. split.
      * intros (e' & He' & Hid). replace e with e'; [done|]. symmetry. apply (vs_unique (world p)); auto.
      * intros. by exists e.
    + exists (lvo_NextKeyMarker out). split; [exact Hn|]. rewrite Hpass, Ht. by destruct (existsb _ page).
Qed.

(** The part of a page that belongs to the key. *)
Lemma versionsOf_page key n (l : list entry) : StronglySorted (fun a b => str_ltb (en_key b) (en_key a) = false) l ->
  let page := takeZ n (List.filter (selected key None) l) in
  versionsOf key page = takeZ n (versionsOf key l) /\
  (existsb (fun e => str_ltb key (en_key e)) page = false -> n < len (List.filter (selected key None) l) ->
   n <= len (versionsOf key l) /\ page = takeZ n (versionsOf key l)).
Proof.
  intros Hs page. unfold page. rewrite (selected_split key l Hs), !takeZ_take. set (vk := versionsOf key l). set (rest := List.filter _ l).
  assert (Hvk : versionsOf key (take (Z.to_nat n) vk) = take (Z.to_nat n) vk).
  { apply filter_all. intros e He. apply elem_of_take in He as (? & He & _). by apply list_elem_of_lookup_2, filter_In in He as []. }
  assert (Hr : forall e, e ∈ rest -> str_ltb key (en_key e) = true).
  { intros e [_ He]%filter_In. by apply andb_true_iff in He as []. }
  rewrite take_app. unfold versionsOf in Hvk |- *. rewrite filter_app_List, Hvk. split.
  - rewrite (filter_none _ (take _ rest)); [apply app_nil_r|]. intros e He. apply elem_of_take in He as (? & He & _).
    apply list_elem_of_lookup_2, Hr in He. case_bool_decide as Hk; [|done]. subst key. by rewrite str_ltb_irrefl in He.
  - intros Hno Hlen. rewrite len_app in Hlen. unfold len in Hlen |- *. clearbody rest. destruct (take _ rest) as [|e r] eqn:Htr.
    + rewrite app_nil_r. split; [|done]. destruct rest; [cbn in Hlen; lia|]. destruct (Z.to_nat n - length vk)%nat eqn:?; [lia|done].
    + exfalso. rewrite existsb_app in Hno. apply orb_false_iff in Hno as [_ Hno]. cbn [existsb] in Hno. rewrite Hr in Hno; [done|].
      assert (Hin : e ∈ take (Z.to_nat n - length vk) rest) by (rewrite Htr; left).
      apply elem_of_take in Hin as (? & Hin & _). by apply list_elem_of_lookup_2 in Hin.
Qed.

Lemma last_full key n (l : list entry) : 0 < n -> n <= len (versionsOf key l) ->
  exists e, last (takeZ n (versionsOf key l)) = Some e /\ en_key e = key.
Proof.
  intros Hn Hlen. destruct (last (takeZ n (versionsOf key l))) as [e|] eqn:He.
  - exists e. split; [done|]. apply last_Some_elem_of in He. rewrite takeZ_take in He. apply elem_of_take in He as (? & He & _).
    apply list_elem_of_lookup_2, filter_In in He as [_ He]. by bool_hyps.
  - apply last_None in He. apply (f_equal len) in He. rewrite len_takeZ in He by lia. change (len []) with 0 in He. lia.
Qed.

End purge.

(** ** A bucket that behaves so *)
Record bucket := mkBucket { bk_entries : list entry; bk_locked : list entry }.
Definition listed (i : ListObjectVersionsInput) (w : bucket) : ListObjectVersionsOutput :=
  let l := List.filter (selected (lvi_Prefix i) (lvi_KeyMarker i)) (bk_entries w) in
  let page := takeZ (lvi_MaxKeys i) l in
  let show m := map (fun e => mkObjectVersion (Some (en_key e)) (Some (en_version e)) None None)
                  (List.filter (fun e => Bool.eqb (en_marker e) m) page) in
  mkListObjectVersionsOutput (show false) (show true) (Some (lvi_MaxKeys i <? len l))
    (if lvi_MaxKeys i <? len l then en_key <$> last page else None).
Definition protects (w : bucket) (e : entry) : bool := bool_decide (e ∈ bk_locked w).

Definition bucketClient : S3API bucket := {|
  PutObject _ w := (w, inr someError); GetObject _ w := (w, inr someError);
  HeadObject _ w := (w, inr someError); DeleteObject _ w := (w, inr someError);
  DeleteObjects _ objs w :=
    (mkBucket (List.filter (fun e => protects w e || negb (bool_decide (identOf e ∈ objs))) (bk_entries w)) (bk_locked w),
     inl (mkDeleteObjectsOutput [] []));
  ListObjectsV2 _ w := (w, inr someError);
  sdk_ListObjectVersions i w := (w, inl (listed i w));
  CopyObject _ w := (w, inr someError); CreateMultipartUpload _ w := (w, inr someError);
  sdk_UploadPart _ w := (w, inr someError); CompleteMultipartUpload _ w := (w, inr someError);
  AbortMultipartUpload _ w := (w, inr someError); sdk_ListMultipartUploads _ w := (w, inr someError);
  sdk_ListParts _ _ w := (w, inr someError); GetObjectRetention _ w := (w, inr someError);
  PutObjectRetention _ _ w := (w, inr someError); GetObjectLegalHold _ w := (w, inr someError);
  PutObjectLegalHold _ _ w := (w, inr someError)
|}.

Lemma StronglySorted_filter_List {A} (R : A -> A -> Prop) (f : A -> bool) l : StronglySorted R l -> StronglySorted R (List.filter f l).
Proof.
  induction 1 as [|x l _ IH Hx]; [constructor|]. cbn. destruct (f x); [|done]. constructor; [done|].
  rewrite Forall_forall in Hx |- *. intros y [Hy _]%filter_In. by apply Hx.
Qed.
Lemma shown_names m (l : list entry) :
  map nameOf (map (fun e => mkObjectVersion (Some (en_key e)) (Some (en_version e)) None None)
                (List.filter (fun e => Bool.eqb (en_marker e) m) l)) = namesOf m l.
Proof. rewrite map_map. done. Qed.

#[export] Program Instance bucketService (b : string) : VersionedService bucketClient b := {|
  vs_ok w := StronglySorted (fun x y => str_ltb (en_key y) (en_key x) = false) (bk_entries w) /\
    forall x y, x ∈ bk_entries w -> y ∈ bk_entries w -> identOf x = identOf y -> x = y;
  vs_entries := bk_entries; vs_locked := protects |}.
Next Obligation. by intros b w []. Qed.
Next Obligation. intros b w x y [_ Hu]. by apply Hu. Qed.
Next Obligation.
  intros b w prefix marker n [Hs Hu] Hn. do 2 eexists. split; [reflexivity|]. split; [done|]. split; [done|]. split; [done|].
  cbn [listed lvi_Prefix lvi_KeyMarker lvi_MaxKeys lvo_Versions lvo_DeleteMarkers lvo_IsTruncated lvo_NextKeyMarker]. rewrite !shown_names.
  split_and!; [done..|]. intros Hlt. apply Z.ltb_lt in Hlt. by rewrite Hlt.
Qed.
Next Obligation.
  intros b w objs [Hs Hu] Hn. do 2 eexists. split; [reflexivity|]. split; [|done]. cbn [bk_entries]. split; [by apply StronglySorted_filter_List|].
  intros x y [Hx _]%filter_In [Hy _]%filter_In. by apply Hu.
Qed.

(** A version, a locked version, a delete marker; two keys that begin alike
    and one that does not. *)
Definition ex_bucket : bucket :=
  let a1 := mkEntry "a" "1" false in let a2 := mkEntry "a" "2" false in
  mkBucket [a1; a2; mkEntry "a" "3" true; mkEntry "a.b" "4" false; mkEntry "ab" "5" true; mkEntry "c" "6" false] [a2].


(** The listing goes on behind the key and not behind the version: of a
    thousand and one versions of a key the purge leaves one, and reports
    success. *)
Definition manyVersions (n : nat) : list entry := map (fun i => mkEntry "a" (pretty i) false) (seq 0 n).
Example purge_skips_versions :
  match PurgeAllVersions ex_cfg bucketClient 5 (mkObjectRef "a") (mkProvider None (mkBucket (manyVersions 1001) [])) with
  | Some (p', Ok _) => bk_entries (world p')
  | _ => []
  end = [mkEntry "a" "1000" false].
Proof. by vm_compute. Qed.

(** The answer of [DeleteObjects] is not looked at: a version under a lock
    stays, and the purge reports success. *)
Example purge_reports_locked_as_gone :
  match PurgeAllVersions ex_cfg bucketClient 2 (mkObjectRef "a")
          (mkProvider None (mkBucket [mkEntry "a" "1" false] [mkEntry "a" "1" false])) with
  | Some (p', r) => (bk_entries (world p'), r)
  | None => ([], Ok tt)
  end = ([mkEntry "a" "1" false], Ok tt).
Proof. by vm_compute. Qed.
