(* ===== verification/Fs.v ===== *)
(** * The file system calls of [os] and [path/filepath]

    A path is the list of its components below "/". A file holds bytes or a
    JSON document; documents are kept as the value that was marshalled, so
    that reading one back returns it. Modelled failures: missing paths, files
    in the place of directories and directories in the place of files. *)
From Stdlib Require Import Strings.Ascii.
From S2P Require Import Prelude GoStd.
Local Open Scope Z_scope.

Abbreviation path := (list string).

(** [filepath.Join(base, s)] with [filepath.Clean] on a rooted path. *)
Definition joinSeg (p : path) (seg : string) : path :=
  if bool_decide (seg = "") || bool_decide (seg = ".") then p
  else if bool_decide (seg = "..") then removelast p
  else p ++ [seg].
Definition joinPath (base : path) (s : string) : path := foldl joinSeg base (Split s "/"%char).

Section fs.
Context {J : Type}.

Inductive node := Dir | File (b : bytes) | JFile (j : J).
Notation fs := (gmap path node).
Implicit Types (f : fs) (p : path).

Definition isDir f p : bool :=
  match p with [] => true | _ => match f !! p with Some Dir => true | _ => false end end.

Definition notDir : error := ErrNew "not a directory".

(** The error of a lookup that found nothing: ENOTDIR below a file, else
    [os.ErrNotExist]. *)
Fixpoint blocked f (done p : path) : bool :=
  match p with
  | [] | [_] => false
  | x :: p' =>
      match f !! (done ++ [x]) with
      | Some (File _) | Some (JFile _) => true
      | _ => blocked f (done ++ [x]) p'
      end
  end.
Definition missing f p : error := if blocked f [] p then notDir else ErrSentinel OsNotExist.

(** [os.Stat]. *)
Definition stat f p : result node :=
  match p with
  | [] => Ok Dir
  | _ => match f !! p with Some n => Ok n | None => Err (missing f p) end
  end.

(** [os.MkdirAll]. *)
Fixpoint mkdirLoop f (done p : path) : result fs :=
  match p with
  | [] => Ok f
  | x :: p' =>
      match f !! (done ++ [x]) with
      | Some Dir => mkdirLoop f (done ++ [x]) p'
      | Some _ => Err notDir
      | None => mkdirLoop (<[done ++ [x] := Dir]> f) (done ++ [x]) p'
      end
  end.
Definition mkdirAll f p : result fs := mkdirLoop f [] p.

(** [os.ReadDir]: the entries sorted by name. *)
Definition childOf p (q : path) : option string :=
  match reverse q with
  | x :: r => if decide (reverse r = p) then Some x else None
  | [] => None
  end.
Definition children f p : list (string * node) :=
  sort_Slice (fun a b => str_ltb a.1 b.1)
    (omap (fun qn : path * node => (fun x => (x, qn.2)) <$> childOf p qn.1) (map_to_list f)).
Definition readDir f p : result (list (string * node)) :=
  match stat f p with
  | Err e => Err e
  | Ok Dir => Ok (children f p)
  | Ok _ => Err notDir
  end.

(** [os.WriteFile], and the rename of a finished temporary file onto [p]. *)
Definition writeNode f p (n : node) : result fs :=
  if negb (isDir f (removelast p)) then Err (missing f p)
  else if isDir f p then Err (ErrNew "is a directory")
  else Ok (<[p := n]> f).

(** [os.Remove]. *)
Definition remove f p : result fs :=
  match stat f p with
  | Err e => Err e
  | Ok Dir => match children f p with
              | [] => Ok (delete p f)
              | _ => Err (ErrNew "directory not empty")
              end
  | Ok _ => Ok (delete p f)
  end.

(** [os.Rename] of a file. *)
Definition rename f (src dst : path) : result fs :=
  match stat f src with
  | Err e => Err e
  | Ok Dir => Err (ErrNew "rename of a directory")
  | Ok n => writeNode (delete src f) dst n
  end.

(** [os.RemoveAll]. *)
Definition under p (q : path) : bool := bool_decide (take (length p) q = p).
Definition removeAll f p : fs := filter (fun qn : path * node => under p qn.1 = false) f.

(** [os.ReadFile] and [json.Unmarshal]; [os.Open] and reading the file. *)
Definition readJ f p : result J :=
  match stat f p with
  | Err e => Err e
  | Ok (JFile j) => Ok j
  | Ok (File _) => Err (ErrNew "invalid JSON document")
  | Ok Dir => Err (ErrNew "is a directory")
  end.
Definition openFile f p : result bytes :=
  match stat f p with
  | Err e => Err e
  | Ok (File b) => Ok b
  | Ok (JFile _) => Err (ErrNew "JSON document opened as a body")
  | Ok Dir => Err (ErrNew "is a directory")
  end.

(** ** Lemmas *)
Lemma lookup_removeAll f p q :
  removeAll f p !! q = if under p q then None else f !! q.
Proof.
  unfold removeAll. destruct (under p q) eqn:Hu.
  - apply map_lookup_filter_None. right. intros n _ Hx. cbn in Hx. congruence.
  - destruct (f !! q) as [n|] eqn:Hf.
    + apply map_lookup_filter_Some. done.
    + apply map_lookup_filter_None. by left.
Qed.

Lemma childOf_Some p q x : childOf p q = Some x <-> q = p ++ [x].
Proof.
  unfold childOf. destruct (reverse q) as [|y r] eqn:Hr.
  - split; [done|]. intros ->. by rewrite reverse_app in Hr.
  - assert (q = reverse r ++ [y]) as -> by (rewrite <- (reverse_involutive q), Hr, reverse_cons; done).
    case_decide as Hd; split; intros Heq; try done.
    + injection Heq as ->. by rewrite Hd.
    + apply app_inj_2 in Heq as [_ Heq]; [|done]. by injection Heq as ->.
    + apply app_inj_2 in Heq as [? _]; done.
Qed.

Lemma elem_of_children f p x n : (x, n) ∈ children f p <-> f !! (p ++ [x]) = Some n.
Proof.
  unfold children. rewrite sort_Slice_perm, list_elem_of_omap. split.
  - intros ([q n'] & Hin & Hc). apply elem_of_map_to_list in Hin. cbn in Hc.
    destruct (childOf p q) as [y|] eqn:Hy; [|done]. injection Hc as -> ->.
    by apply childOf_Some in Hy as ->.
  - intros Hf. exists (p ++ [x], n). split; [by apply elem_of_map_to_list|]. cbn.
    by rewrite (proj2 (childOf_Some p (p ++ [x]) x) eq_refl).
Qed.

Lemma mkdirLoop_lookup f pre p f' q :
  mkdirLoop f pre p = Ok f' ->
  (forall n, f !! q = Some n -> f' !! q = Some n) /\
  (f' !! q = f !! q \/ (f !! q = None /\ f' !! q = Some Dir)).
Proof.
  revert f pre. induction p as [|x p IH]; intros f pre; cbn [mkdirLoop].
  - intros [= <-]. auto.
  - destruct (f !! (pre ++ [x])) as [[]|] eqn:Hx; try done; [intros Hm; exact (IH _ _ Hm)|].
    intros Hm. destruct (IH _ _ Hm) as [Hk Hc].
    destruct (decide (q = pre ++ [x])) as [->|Hne].
    + rewrite lookup_insert_eq in Hk. split; [by rewrite Hx|]. right. split; [done|]. by apply Hk.
    + by rewrite lookup_insert_ne in Hc, Hk by done.
Qed.

Lemma mkdirLoop_dirs f pre p f' :
  mkdirLoop f pre p = Ok f' ->
  forall p1 x p2, p = p1 ++ x :: p2 -> f' !! (pre ++ p1 ++ [x]) = Some Dir.
Proof.
  revert f pre. induction p as [|y p IH]; intros f pre; cbn [mkdirLoop]; [intros _ [] ? ? [=]|].
  intros Hm p1 x p2 Heq. destruct p1 as [|z p1]; injection Heq as <- Hp.
  - cbn [app]. destruct (f !! (pre ++ [y])) as [[]|] eqn:Hx; try done.
    + by apply (mkdirLoop_lookup _ _ _ _ (pre ++ [y]) Hm).
    + apply (mkdirLoop_lookup _ _ _ _ (pre ++ [y]) Hm). by rewrite lookup_insert_eq.
  - destruct (f !! (pre ++ [y])) as [[]|] eqn:Hx; try done;
      specialize (IH _ _ Hm p1 x p2 Hp); by rewrite <- app_assoc in IH.
Qed.

Lemma mkdirAll_spec f p f' :
  mkdirAll f p = Ok f' ->
  isDir f' p = true /\
  forall q, (forall n, f !! q = Some n -> f' !! q = Some n) /\
    (f' !! q = f !! q \/ (f !! q = None /\ f' !! q = Some Dir)).
Proof.
  intros Hm. split; [|intros q; by eapply mkdirLoop_lookup].
  destruct p as [|x p] using rev_ind; [done|].
  pose proof (mkdirLoop_dirs f [] (p ++ [x]) f' Hm p x [] eq_refl) as Hd. cbn in Hd.
  unfold isDir. destruct (p ++ [x]) eqn:Hp; [by destruct p|]. by rewrite Hd.
Qed.
End fs.
Arguments node : clear implicits.
Abbreviation fs J := (gmap path (node J)).

(** ** Names without separators *)
Lemma Split_noSep s c : ContainsRune s c = false -> Split s c = [s].
Proof.
  induction s as [|d s IH]; [done|]. cbn -[Ascii.eqb].
  rewrite orb_false_iff. intros [Hd Hs]. rewrite Ascii.eqb_sym, Hd, IH by done. done.
Qed.

Lemma joinPath_plain base s :
  ContainsRune s "/"%char = false -> s <> "" -> s <> "." -> s <> ".." -> joinPath base s = base ++ [s].
Proof.
  intros Hs H1 H2 H3. unfold joinPath. rewrite Split_noSep by done. cbn.
  unfold joinSeg. by rewrite !bool_decide_false by done.
Qed.

(** ** Hexadecimal numbers, [%0<w>x] *)
Fixpoint hexDigits (fuel : nat) (z : Z) (acc : string) : string :=
  match fuel with
  | O => acc
  | S fuel' =>
      let acc := String (hex_digit (Z.to_N (z mod 16))) acc in
      if z <? 16 then acc else hexDigits fuel' (z / 16) acc
  end.
Fixpoint zeros (n : nat) : string := match n with O => "" | S n' => String "0" (zeros n') end.
Definition hexPad (w : nat) (z : Z) : string :=
  let s := hexDigits 16 z "" in zeros (w - String.length s) +:+ s.

Lemma ContainsRune_app s t c : ContainsRune (s +:+ t) c = ContainsRune s c || ContainsRune t c.
Proof.
  induction s as [|d s IH]; [done|].
  change (Ascii.eqb c d || ContainsRune (s +:+ t) c = Ascii.eqb c d || ContainsRune s c || ContainsRune t c).
  by rewrite IH, orb_assoc.
Qed.

Lemma hex_digit_noSlash n : (n < 16)%N -> Ascii.eqb "/"%char (hex_digit n) = false.
Proof. intros Hn. destruct n as [|[[[[]|[]|]|[[]|[]|]|]|[[[]|[]|]|[[]|[]|]|]|]]; try reflexivity; lia. Qed.

Lemma hexDigits_noSlash fuel z acc :
  0 <= z -> ContainsRune acc "/"%char = false -> ContainsRune (hexDigits fuel z acc) "/"%char = false.
Proof.
  revert z acc. induction fuel as [|fuel IH]; intros z acc Hz Hacc; [done|]. cbn [hexDigits].
  assert (Ha : ContainsRune (String (hex_digit (Z.to_N (z mod 16))) acc) "/"%char = false).
  { cbn -[Ascii.eqb hex_digit]. rewrite Hacc, hex_digit_noSlash; [done|].
    pose proof (Z.mod_pos_bound z 16). lia. }
  destruct (z <? 16); [done|]. apply IH; [|done]. apply Z.div_pos; lia.
Qed.

Lemma hexPad_noSlash w z : 0 <= z -> ContainsRune (hexPad w z) "/"%char = false.
Proof.
  intros Hz. unfold hexPad. rewrite ContainsRune_app, hexDigits_noSlash by done.
  rewrite orb_false_r. by induction (_ - _)%nat.
Qed.

(** ** Sorting by an integer key *)
Section sortkey.
Context {A : Type} (key : A -> Z).
Notation lessKey := (fun a b : A => key a <? key b).

Lemma sort_insert_sorted x l :
  StronglySorted (fun a b => key a <= key b) l ->
  StronglySorted (fun a b => key a <= key b) (sort_insert lessKey x l).
Proof.
  induction 1 as [|y l Hl IH Hy]; cbn; [repeat constructor|].
  destruct (Z.ltb_spec (key x) (key y)).
  - constructor; [by constructor|]. constructor; [lia|].
    eapply Forall_impl; [exact Hy|]. cbn. intros. lia.
  - constructor; [done|]. rewrite sort_insert_perm. by constructor.
Qed.

Lemma sort_Slice_sorted l : StronglySorted (fun a b => key a <= key b) (sort_Slice lessKey l).
Proof.
  unfold sort_Slice.
  enough (H : forall acc, StronglySorted (fun a b => key a <= key b) acc ->
    StronglySorted (fun a b => key a <= key b) (foldl (fun acc x => sort_insert lessKey x acc) acc l))
    by (apply H; constructor).
  induction l as [|x l IH]; intros acc Hacc; [done|]. cbn. by apply IH, sort_insert_sorted.
Qed.

(** The strict maximum comes last. *)
Lemma sort_Slice_last l x :
  x ∈ l -> (forall y, y ∈ l -> y = x \/ key y < key x) -> last (sort_Slice lessKey l) = Some x.
Proof.
  intros Hx Hmax.
  assert (Hin : forall y, y ∈ sort_Slice lessKey l <-> y ∈ l) by (intros y; by rewrite sort_Slice_perm).
  pose proof (sort_Slice_sorted l) as Hs. apply Hin in Hx.
  destruct (sort_Slice lessKey l) as [|z s] using rev_ind; [set_solver|]. clear IHs.
  rewrite last_snoc. f_equal. apply elem_of_app in Hx as [Hx|Hx]; [|set_solver].
  destruct (Hmax z) as [->|Hlt]; [apply Hin; set_solver|done|].
  assert (key x <= key z); [|lia].
  apply (StronglySorted_app_1_elem_of _ _ _ _ _ Hs); set_solver.
Qed.
End sortkey.
