(* ===== verification/DiskCache.v ===== *)
(** * pkg/hotcache/disk_cache.go

    The cache over files: [lru diskEntry] in memory, a body and a metadata
    file per entry on disk. A [Put] is two steps, since only the second one
    holds the mutex: [stage] writes the body to a temporary file, [publish]
    makes room and renames it into place. [dc_past] is the history of the
    file system, a state per system call, so that [dc_fs c :: dc_past c] are
    the disks a crash may leave behind. *)
From Stdlib Require Import Strings.Ascii.
From S2P Require Import Prelude GoStd HotCache LruCore Fs.
Local Open Scope Z_scope.

Record metaFile := mkMetaFile {
  mf_BlobID : string;
  mf_SizeBytes : Z;
  mf_Hash : string;
  mf_StoredAt : Time;
  mf_ExpiresAt : Time;
  mf_Pinned : bool;
  mf_NonEvictable : bool;
  mf_HitCount : Z
}.

Record diskEntry := mkDiskEntry {
  de_blobID : string;
  de_sizeBytes : Z;
  de_hash : string;
  de_storedAt : Time;
  de_lastAccess : Time;
  de_expiresAt : Time;
  de_pinned : bool;
  de_nonEvictable : bool;
  de_hits : Z
}.
#[export] Instance eta_diskEntry : Eta diskEntry := fun e =>
  mkDiskEntry (de_blobID e) (de_sizeBytes e) (de_hash e) (de_storedAt e) (de_lastAccess e)
    (de_expiresAt e) (de_pinned e) (de_nonEvictable e) (de_hits e).

#[export] Instance diskEntry_CacheEntry : CacheEntry diskEntry := {|
  e_blobID := de_blobID; e_size := de_sizeBytes; e_pinned := de_pinned; e_nonEvictable := de_nonEvictable
|}.

Record DiskCache := mkDiskCache {
  dc_root : path;
  dc_lru : lru diskEntry;
  dc_fs : fs metaFile;
  dc_past : list (fs metaFile)
}.
#[export] Instance eta_DiskCache : Eta DiskCache := fun c =>
  mkDiskCache (dc_root c) (dc_lru c) (dc_fs c) (dc_past c).

(** ** Names *)

(** [validateBlobID]. *)
Definition validateBlobID (blobID : string) : result unit :=
  if bool_decide (blobID = "") then Err (ErrNew "hotcache: blobID is required")
  else if ContainsRune blobID "/"%char || ContainsRune blobID "\"%char
  then Err (ErrNew "hotcache: blobID %q must not contain path separators")
  else if bool_decide (blobID = ".") || bool_decide (blobID = "..") || Contains blobID ".."
  then Err (ErrNew "hotcache: blobID %q must not be a relative path component")
  else Ok tt.

(** [shardOf]. *)
Definition shardOf (blobID : string) : string :=
  if (String.length blobID <? 2)%nat then "_" else stake 2 blobID.

(** [shardDir], [bodyPath] and [metaPath]. *)
Definition shardDir (root : path) (blobID : string) : path := joinPath root (shardOf blobID).
Definition bodyPath (root : path) (blobID : string) : path :=
  joinPath (shardDir root blobID) (blobID +:+ ".bin").
Definition metaPath (root : path) (blobID : string) : path :=
  joinPath (shardDir root blobID) (blobID +:+ ".meta.json").

(** ** System calls *)
Notation MD := (M DiskCache).

Definition setFs (f : fs metaFile) (c : DiskCache) : DiskCache :=
  c <| dc_past := dc_fs c :: dc_past c |> <| dc_fs := f |>.
Definition sys (op : fs metaFile -> result (fs metaFile)) : MD unit := fun c =>
  match op (dc_fs c) with
  | Err e => (c, Err e)
  | Ok f => (setFs f c, Ok tt)
  end.
(** [_ = os.Remove(p)]. *)
Definition rm (p : path) (c : DiskCache) : DiskCache :=
  match remove (dc_fs c) p with Err _ => c | Ok f => setFs f c end.

(** ** Eviction *)

(** [removeLocked]. *)
Definition removeLockedD (el : nat) (c : DiskCache) : DiskCache :=
  match heap (dc_lru c) !! el with
  | None => c
  | Some entry =>
      let c := c <| dc_lru := removeLocked el (dc_lru c) |> in
      let c := rm (bodyPath (dc_root c) (de_blobID entry)) c in
      rm (metaPath (dc_root c) (de_blobID entry)) c
  end.

(** [evictMainLocked]. *)
Fixpoint evictMainLoopD (fuel : nat) (incoming : Z) (c : DiskCache) : DiskCache :=
  match fuel with
  | O => c
  | S fuel' =>
      let l := dc_lru c in
      if bytesUsed l + incoming >? MaxBytes (policy l) then
        match walkPrev (heap l) (rev (match main l with [] => hot l | _ => main l end)) with
        | None => c
        | Some back => evictMainLoopD fuel' incoming (removeLockedD back c)
        end
      else c
  end.
Definition evictMainD (incoming : Z) (c : DiskCache) : DiskCache :=
  let l := dc_lru c in
  if MaxBytes (policy l) <=? 0 then c
  else evictMainLoopD (S (length (hot l) + length (main l))) incoming c.

(** [evictHotLocked]. *)
Fixpoint evictHotLoopD (fuel : nat) (incoming : Z) (c : DiskCache) : DiskCache :=
  match fuel with
  | O => c
  | S fuel' =>
      let l := dc_lru c in
      if hotBytes l + incoming >? hotLimit l then
        match walkPrev (heap l) (rev (hot l)) with
        | None => c
        | Some back => evictHotLoopD fuel' incoming (removeLockedD back c)
        end
      else c
  end.
Definition evictHotD (incoming : Z) (c : DiskCache) : DiskCache :=
  let l := dc_lru c in
  if hotLimit l <=? 0 then c else evictHotLoopD (S (length (hot l))) incoming c.

(** ** Get, Put, Evict *)
Definition expiredD (now : Time) (e : diskEntry) : bool :=
  negb (IsZero (de_expiresAt e)) && After now (de_expiresAt e).
Definition bumpD (now : Time) (e : diskEntry) : diskEntry :=
  e <| de_hits := wrapU64 (de_hits e + 1) |> <| de_lastAccess := now |>.
Definition metadataOfD (e : diskEntry) : Metadata :=
  mkMetadata (de_blobID e) (de_sizeBytes e) (de_hash e) (de_storedAt e) (de_lastAccess e) (de_hits e)
    (de_pinned e) (de_nonEvictable e).

(** The counters of a hit whose file is gone. *)
Definition unhit (l : lru diskEntry) : lru diskEntry :=
  miss (l <| stats := (stats l) <| Hits := if 0 <? Hits (stats l) then Hits (stats l) - 1 else Hits (stats l) |> |>).

(** [DiskCache.Get]. *)
Definition Get (now : Time) (blobID : string) : MD (reader * Metadata) := fun c =>
  match validateBlobID blobID with
  | Err e => (c, Err e)
  | Ok _ =>
      match index (dc_lru c) !! blobID with
      | None => (c <| dc_lru := miss (dc_lru c) |>, Err (ErrSentinel HcCacheMiss))
      | Some el =>
          match heap (dc_lru c) !! el with
          | None => (c, Err (ErrNew "nil element"))
          | Some entry =>
              if expiredD now entry then
                let c := removeLockedD el c in
                (c <| dc_lru := miss (dc_lru c) |>, Err (ErrSentinel HcCacheMiss))
              else
                let c := c <| dc_lru := touch el (bumpD now) (dc_lru c) |> in
                match openFile (dc_fs c) (bodyPath (dc_root c) blobID) with
                | Err _ =>
                    let c := removeLockedD el c in
                    (c <| dc_lru := unhit (dc_lru c) |>, Err (ErrSentinel HcCacheMiss))
                | Ok b => (c, Ok (bytes_NewReader b, metadataOfD (bumpD now entry)))
                end
          end
      end
  end.

(** The part of [Put] before the lock: the path of the temporary file, whose
    name ends in [rnd], and the number of bytes copied to it. *)
Definition tmpPath (root : path) (blobID rnd : string) : path :=
  joinPath (shardDir root blobID) (blobID +:+ "." +:+ rnd +:+ ".tmp").
Definition createTemp (p : path) (f : fs metaFile) : result (fs metaFile) :=
  match f !! p with
  | Some _ => Err (ErrNew "file exists")
  | None => writeNode f p (File [])
  end.
Definition stage (rnd : string) (blobID : string) (r : option reader) : MD (path * Z) :=
  lift (validateBlobID blobID);;
  match r with
  | None => throw (ErrNew "hotcache: reader is required")
  | Some r =>
      root ← gets dc_root;
      mb ← gets (fun c => MaxBytes (policy (dc_lru c)));
      let tmp := tmpPath root blobID rnd in
      wrap "hotcache: create shard dir: %w" (sys (fun f => mkdirAll f (shardDir root blobID)));;
      wrap "hotcache: create temp file: %w" (sys (createTemp tmp));;
      let size := len (rd_bytes r) in
      w ← try (sys (fun f => writeNode f tmp (File (rd_bytes r))));
      match (match w with Err e => Some e | Ok _ => rd_err r end) with
      | Some e => modify (rm tmp);; throw (ErrWrap "hotcache: write body: %w" e)
      | None =>
          if (0 <? mb) && (mb <? size)
          then modify (rm tmp);; throw (ErrNew "hotcache: blob %d bytes exceeds cache capacity %d")
          else ret (tmp, size)
      end
  end.

(** [writeMeta]. *)
Definition metaOf (e : diskEntry) : metaFile :=
  mkMetaFile (de_blobID e) (de_sizeBytes e) (de_hash e) (de_storedAt e) (de_expiresAt e) (de_pinned e)
    (de_nonEvictable e) (de_hits e).
Definition suffixed (p : path) (suf : string) : path :=
  match reverse p with [] => [] | x :: r => reverse r ++ [x +:+ suf] end.
Definition writeMeta (p : path) (e : diskEntry) : MD unit :=
  let tmp := suffixed p ".tmp" in
  wrap "hotcache: write meta: %w" (sys (fun f => writeNode f tmp (JFile (metaOf e))));;
  r ← try (sys (fun f => rename f tmp p));
  match r with
  | Err err => modify (rm tmp);; throw (ErrWrap "hotcache: publish meta: %w" err)
  | Ok _ => ret tt
  end.

(** The part of [Put] under the lock. *)
Definition newEntryD (now : Time) (p : EvictionPolicy) (blobID : string) (size : Z) (opts : PutOptions)
  : diskEntry :=
  let pin := po_PinHot opts && bool_decide (Kind p = EvictionLRUHotPin) in
  let exp := if 0 <? po_TTL opts then now + po_TTL opts
             else if 0 <? TTL p then now + TTL p else zeroTime in
  mkDiskEntry blobID size (po_Hash opts) now now exp pin (po_NonEvictable opts) 0.

Definition removeExistingD (blobID : string) (c : DiskCache) : DiskCache :=
  match index (dc_lru c) !! blobID with
  | Some el => removeLockedD el c
  | None => c
  end.

Definition publish (now : Time) (blobID : string) (tmp : path) (size : Z) (opts : PutOptions) : MD unit :=
  modify (removeExistingD blobID);;
  pol ← gets (fun c => policy (dc_lru c));
  root ← gets dc_root;
  let entry := newEntryD now pol blobID size opts in
  modify (if de_pinned entry then evictHotD size else (fun c => c));;
  modify (evictMainD size);;
  let body := bodyPath root blobID in
  r ← try (sys (fun f => rename f tmp body));
  match r with
  | Err e => modify (rm tmp);; throw (ErrWrap "hotcache: publish body: %w" e)
  | Ok _ =>
      w ← try (writeMeta (metaPath root blobID) entry);
      match w with
      | Err e => modify (rm body);; throw e
      | Ok _ => modify (fun c => c <| dc_lru := pushEntry (de_pinned entry) entry size (dc_lru c) |>)
      end
  end.

(** [DiskCache.Put], when no other call comes between its parts. *)
Definition Put (rnd : string) (now : Time) (blobID : string) (r : option reader) (opts : PutOptions) : MD unit :=
  st ← stage rnd blobID r;
  let '(tmp, size) := st in
  publish now blobID tmp size opts.

(** [DiskCache.Evict] and [Stats]. *)
Definition Evict (blobID : string) : MD unit := fun c => (removeExistingD blobID c, Ok tt).
Definition StatsD (c : DiskCache) : Stats := stats (dc_lru c).

(** [DiskCache.Close]: the files below the root that end in ".tmp". *)
Definition lastSeg (p : path) : string := match reverse p with [] => "" | x :: _ => x end.
Definition tmpFiles (root : path) (f : fs metaFile) : list path :=
  omap (fun qn : path * node metaFile =>
          if under root qn.1 && HasSuffix (lastSeg qn.1) ".tmp"
             && match qn.2 with Dir => false | _ => true end
          then Some qn.1 else None) (map_to_list f).
Definition Close : MD unit := fun c =>
  (foldl (fun c p => rm p c) c (tmpFiles (dc_root c) (dc_fs c)), Ok tt).

(** ** Warm start *)

(** [loadMeta]. *)
Definition loadMeta (p : path) (f : fs metaFile) : result diskEntry :=
  match readJ f p with
  | Err e => Err e
  | Ok m => Ok (mkDiskEntry (mf_BlobID m) (mf_SizeBytes m) (mf_Hash m) (mf_StoredAt m) zeroTime
                  (mf_ExpiresAt m) (mf_Pinned m) (mf_NonEvictable m) (mf_HitCount m))
  end.

(** The first loop of [readShards] over the files of one shard. *)
Definition trimSuffix (s suf : string) : string := stake (String.length s - String.length suf) s.
Fixpoint scanFiles (shard : path) (files : list (string * node metaFile)) (bodies : gset string) (metas : list string)
    (c : DiskCache) : DiskCache * (gset string * list string) :=
  match files with
  | [] => (c, (bodies, metas))
  | (name, _) :: files' =>
      if HasSuffix name ".bin" then scanFiles shard files' ({[trimSuffix name ".bin"]} ∪ bodies) metas c
      else if HasSuffix name ".meta.json" then scanFiles shard files' bodies (metas ++ [trimSuffix name ".meta.json"]) c
      else if HasSuffix name ".tmp" then scanFiles shard files' bodies metas (rm (shard ++ [name]) c)
      else scanFiles shard files' bodies metas c
  end.

(** The loop over the metadata files, in the order [range] gives. *)
Fixpoint loadMetas (shard : path) (metas : list string) (bodies : gset string) (out : list diskEntry)
    (c : DiskCache) : DiskCache * (gset string * list diskEntry) :=
  match metas with
  | [] => (c, (bodies, out))
  | blobID :: metas' =>
      let mp := shard ++ [blobID +:+ ".meta.json"] in
      if bool_decide (blobID ∈ bodies) then
        match loadMeta mp (dc_fs c) with
        | Err _ => loadMetas shard metas' bodies out (rm (shard ++ [blobID +:+ ".bin"]) (rm mp c))
        | Ok entry => loadMetas shard metas' (bodies ∖ {[blobID]}) (out ++ [entry]) c
        end
      else loadMetas shard metas' bodies out (rm mp c)
  end.

(** One shard: [order] is the iteration order of the map. *)
Definition readShard (order : list string -> list string) (shard : path) (out : list diskEntry)
  : MD (list diskEntry) := fun c =>
  match readDir (dc_fs c) shard with
  | Err e => (c, Err (ErrWrap "hotcache: read shard %q: %w" e))
  | Ok files =>
      let '(c, (bodies, metas)) := scanFiles shard files ∅ [] c in
      let '(c, (bodies, out)) := loadMetas shard (order metas) bodies out c in
      (foldl (fun c orphan => rm (shard ++ [orphan +:+ ".bin"]) c) c (elements bodies), Ok out)
  end.

Fixpoint readShardList (order : list string -> list string) (shards : list (string * node metaFile)) (out : list diskEntry)
  : MD (list diskEntry) :=
  match shards with
  | [] => ret out
  | (name, Dir) :: shards' =>
      root ← gets dc_root;
      out ← readShard order (root ++ [name]) out;
      readShardList order shards' out
  | _ :: shards' => readShardList order shards' out
  end.

(** [readShards]. *)
Definition readShards (order : list string -> list string) : MD (list diskEntry) := fun c =>
  match readDir (dc_fs c) (dc_root c) with
  | Err e => if errors_Is e OsNotExist then (c, Ok []) else (c, Err (ErrWrap "hotcache: read root %q: %w" e))
  | Ok shards => readShardList order shards [] c
  end.

(** The loop of [warm]. *)
Definition warmOne (now : Time) (e : diskEntry) (c : DiskCache) : DiskCache :=
  if expiredD now e
  then rm (metaPath (dc_root c) (de_blobID e)) (rm (bodyPath (dc_root c) (de_blobID e)) c)
  else
    let e := e <| de_lastAccess := de_storedAt e |> in
    let hotPin := de_pinned e && bool_decide (Kind (policy (dc_lru c)) = EvictionLRUHotPin) in
    let e := if hotPin then e else e <| de_pinned := false |> in
    c <| dc_lru := pushEntry hotPin e (de_sizeBytes e) (dc_lru c) |>.

(** [warm]. *)
Definition warm (order : list string -> list string) (now : Time) : MD unit :=
  entries ← readShards order;
  modify (fun c => foldl (fun c e => warmOne now e c) c
                     (sort_Slice (fun a b => Before (de_storedAt a) (de_storedAt b)) entries));;
  modify (fun c => c <| dc_lru := (dc_lru c) <| stats := (stats (dc_lru c))
                          <| Entries := Z.of_nat (size (index (dc_lru c))) |>
                          <| BytesUsed := bytesUsed (dc_lru c) |> |> |>);;
  modify (fun c => if 0 <? MaxBytes (policy (dc_lru c)) then evictMainD 0 c else c).

(** [NewDiskCache] on the disk [f]. *)
Definition NewDiskCache (order : list string -> list string) (now : Time) (root : option path) (p : EvictionPolicy)
    (f : fs metaFile) : fs metaFile * result DiskCache :=
  match root with
  | None => (f, Err (ErrNew "hotcache: disk cache root_path is required"))
  | Some root =>
      let p := if bool_decide (Kind p = "") then p <| Kind := EvictionLRU |> else p in
      match Validate p with
      | Err e => (f, Err e)
      | Ok _ =>
          match mkdirAll f root with
          | Err e => (f, Err (ErrWrap "hotcache: create cache root %q: %w" e))
          | Ok f =>
              match warm order now (mkDiskCache root (newLru p) f []) with
              | (c, Err e) => (dc_fs c, Err e)
              | (c, Ok _) => (dc_fs c, Ok c)
              end
          end
      end
  end.
