(* ===== verification/DiskCacheLaws.v ===== *)
(** * Correctness of the disk cache

    The files of the disk cache agree with its index at every moment, and
    after every system call the disk is one a restart recovers from. From
    this: the disk cache keeps the promises of the cache interface, and a
    restart or a crash loses no complete entry and invents none. *)
From Stdlib Require Import Strings.Ascii.
From S2P Require Import Prelude GoStd HotCache LruCore Fs DiskCache.
Local Open Scope Z_scope.

(** ** Names *)

(** Suffixes of one length are equal. *)
Lemma sapp_inj s s' t t' : String.length t = String.length t' -> s +:+ t = s' +:+ t' -> s = s' /\ t = t'.
Proof.
  revert s'. induction s as [|c s IH]; intros [|d s'] Hl Heq.
  - done.
  - exfalso. apply (f_equal String.length) in Heq. change (String.length t = S (String.length (s' +:+ t'))) in Heq.
    rewrite slength_app in Heq. lia.
  - exfalso. apply (f_equal String.length) in Heq. change (S (String.length (s +:+ t)) = String.length t') in Heq.
    rewrite slength_app in Heq. lia.
  - injection Heq as -> Heq. destruct (IH _ Hl Heq) as [-> ->]. done.
Qed.

Lemma stake_app s t : stake (String.length s) (s +:+ t) = s.
Proof. induction s as [|c s IH]; [by destruct t|]. change (String c (stake (String.length s) (s +:+ t)) = String c s). by rewrite IH. Qed.

Lemma trimSuffix_app s t : trimSuffix (s +:+ t) t = s.
Proof.
  unfold trimSuffix. rewrite slength_app.
  replace (String.length s + String.length t - String.length t)%nat with (String.length s) by lia. apply stake_app.
Qed.

Lemma sdrop_stake n s : stake n s +:+ sdrop n s = s.
Proof. revert s. induction n as [|n IH]; intros [|c s]; [done..|]. change (String c (stake n s +:+ sdrop n s) = String c s). by rewrite IH. Qed.

Lemma HasSuffix_split s t : HasSuffix s t = true -> s = trimSuffix s t +:+ t.
Proof.
  unfold HasSuffix. intros [_ Ht%String.eqb_eq]%andb_true_iff. unfold trimSuffix.
  rewrite <- (sdrop_stake (String.length s - String.length t) s) at 1. by rewrite Ht.
Qed.

(** The three kinds of names. *)
Lemma bin_tmp a b : a +:+ ".bin" <> b +:+ ".tmp".
Proof. intros Heq. by destruct (sapp_inj a b ".bin" ".tmp" eq_refl Heq). Qed.
Lemma bin_meta a b : a +:+ ".bin" <> b +:+ ".meta.json".
Proof.
  change ".meta.json"%string with (".meta." +:+ "json")%string. rewrite <- sapp_assoc. intros Heq.
  by destruct (sapp_inj a (b +:+ ".meta.") ".bin" "json" eq_refl Heq).
Qed.
Lemma meta_tmp a b : a +:+ ".meta.json" <> b +:+ ".tmp".
Proof.
  change ".meta.json"%string with (".meta." +:+ "json")%string. rewrite <- sapp_assoc. intros Heq.
  by destruct (sapp_inj (a +:+ ".meta.") b "json" ".tmp" eq_refl Heq).
Qed.

(** A random part of [os.CreateTemp] is a decimal number. *)
Definition isDigit (c : ascii) : bool := let n := N_of_ascii c in ((48 <=? n) && (n <=? 57))%N.
Fixpoint allDigits (s : string) : bool := match s with EmptyString => true | String c s' => isDigit c && allDigits s' end.
Definition isDecimal (s : string) : bool := negb (bool_decide (s = "")) && allDigits s.

Lemma allDigits_plain s c : isDigit c = false -> allDigits s = true -> ContainsRune s c = false.
Proof.
  intros Hc. induction s as [|d s IH]; [done|]. cbn [allDigits ContainsRune]. intros [Hd Hs]%andb_true_iff.
  apply orb_false_iff. split; [|by apply IH]. apply Ascii.eqb_neq. intros ->. congruence.
Qed.

Lemma digits_last s : isDecimal s = true -> exists s' d, s = s' +:+ String d "" /\ isDigit d = true.
Proof.
  unfold isDecimal. intros [Hne Hs]%andb_true_iff. bool_hyps. induction s as [|c s IH]; [done|].
  cbn [allDigits] in Hs. apply andb_true_iff in Hs as [Hc Hs]. destruct s as [|d s]; [by exists "", c|].
  destruct IH as (s' & e & Heq & He); [done|done|]. exists (String c s'), e. split; [|done]. by rewrite Heq.
Qed.

Lemma tmp_not_meta a b rnd : isDecimal rnd = true -> a +:+ "." +:+ rnd +:+ ".tmp" <> b +:+ ".meta.json" +:+ ".tmp".
Proof.
  intros (r & d & -> & Hd)%digits_last Heq.
  assert (Heq' : (a +:+ "." +:+ r +:+ String d "") +:+ ".tmp" = (b +:+ ".meta.json") +:+ ".tmp")
    by (rewrite !sapp_assoc in *; exact Heq).
  apply sapp_inj_r in Heq'.
  assert (Heq2 : (a +:+ "." +:+ r) +:+ String d "" = (b +:+ ".meta.jso") +:+ "n") by (rewrite !sapp_assoc; exact Heq').
  destruct (sapp_inj _ _ (String d "") "n" eq_refl Heq2) as [_ Hn]. injection Hn as ->. done.
Qed.

(** Valid identifiers and the paths made from them. *)
Definition valid (id : string) : Prop := validateBlobID id = Ok tt.

Lemma valid_plain id : valid id ->
  id <> "" /\ ContainsRune id "/"%char = false /\ Contains id ".." = false.
Proof.
  unfold valid, validateBlobID. repeat case_match; try done. intros _.
  bool_hyps. repeat match goal with H : (_ || _) = false |- _ => apply orb_false_iff in H as [? ?] end. done.
Qed.

Lemma ContainsRune_stake n s c : ContainsRune s c = false -> ContainsRune (stake n s) c = false.
Proof.
  revert s. induction n as [|n IH]; intros [|d s]; [done..|]. cbn [ContainsRune stake].
  intros [Hd Hs]%orb_false_iff. apply orb_false_iff. split; [done|by apply IH].
Qed.

Lemma shard_plain id : valid id ->
  ContainsRune (shardOf id) "/"%char = false /\ shardOf id <> "" /\ shardOf id <> "." /\ shardOf id <> "..".
Proof.
  intros (Hne & Hs & Hdd)%valid_plain. unfold shardOf. destruct (Nat.ltb_spec (String.length id) 2); [done|].
  split; [by apply ContainsRune_stake|]. destruct id as [|c [|d s]]; [done|cbn in *; lia|]. cbn [stake].
  split; [done|]. split; [done|]. intros [= -> ->]. cbn in Hdd. by destruct s.
Qed.

Lemma plain_join base id suf : ContainsRune id "/"%char = false -> ContainsRune suf "/"%char = false ->
  (2 < String.length suf)%nat -> joinPath base (id +:+ suf) = base ++ [id +:+ suf].
Proof.
  intros Hid Hsuf Hl.
  assert (Hlen : (2 < String.length (id +:+ suf))%nat) by (rewrite slength_app; lia).
  apply joinPath_plain; [by rewrite ContainsRune_app, Hid, Hsuf|..]; intros Heq; rewrite Heq in Hlen; cbn in Hlen; lia.
Qed.

Section paths.
Context (root : path).

Definition at_ (s n : string) : path := root ++ [s; n].

Lemma at_inj s n s' n' : at_ s n = at_ s' n' -> s = s' /\ n = n'.
Proof. unfold at_. intros Heq%app_inv_head. by injection Heq. Qed.

Lemma at_shard s n s' : at_ s n <> root ++ [s'].
Proof. unfold at_. intros Heq%app_inv_head. done. Qed.

Lemma at_split s n : at_ s n = (root ++ [s]) ++ [n].
Proof. unfold at_. by rewrite <- app_assoc. Qed.

Lemma shardDir_eq id : valid id -> shardDir root id = root ++ [shardOf id].
Proof. intros (? & ? & ? & ?)%shard_plain. by apply joinPath_plain. Qed.

Lemma bodyPath_eq id : valid id -> bodyPath root id = at_ (shardOf id) (id +:+ ".bin").
Proof.
  intros Hv. pose proof (valid_plain _ Hv) as (_ & Hs & _). unfold bodyPath.
  rewrite (shardDir_eq id Hv), at_split. apply plain_join; [done|done|cbn; lia].
Qed.

Lemma metaPath_eq id : valid id -> metaPath root id = at_ (shardOf id) (id +:+ ".meta.json").
Proof.
  intros Hv. pose proof (valid_plain _ Hv) as (_ & Hs & _). unfold metaPath.
  rewrite (shardDir_eq id Hv), at_split. apply plain_join; [done|done|cbn; lia].
Qed.

Lemma tmpPath_eq id rnd : valid id -> isDecimal rnd = true ->
  tmpPath root id rnd = at_ (shardOf id) (id +:+ "." +:+ rnd +:+ ".tmp").
Proof.
  intros Hv Hr. pose proof (valid_plain _ Hv) as (_ & Hs & _). unfold tmpPath.
  rewrite (shardDir_eq id Hv), at_split. unfold isDecimal in Hr. apply andb_true_iff in Hr as [_ Hr].
  apply plain_join; [done| |change (2 < S (String.length (rnd +:+ ".tmp")))%nat; rewrite slength_app; cbn; lia].
  rewrite !ContainsRune_app, (allDigits_plain rnd "/"%char eq_refl Hr). reflexivity.
Qed.

Lemma suffixed_at s n suf : suffixed (at_ s n) suf = at_ s (n +:+ suf).
Proof. unfold suffixed. rewrite (at_split s n), reverse_snoc, reverse_involutive. symmetry. apply at_split. Qed.
End paths.

(** ** Disks a restart recovers from *)
Section disk.
Context (root : path) (W : string -> bytes -> metaFile -> Prop).
Notation at_ := (at_ root).
Implicit Types (f : fs metaFile) (c : DiskCache).

(** A body with metadata beside it is a complete entry: its size is the
    recorded one, and [W] holds, which says that one Put wrote both. *)
Record disk_ok f : Prop := {
  ok_root : forall k, (0 < k <= length root)%nat -> f !! take k root = Some Dir;
  ok_parent : forall s n x, f !! at_ s n = Some x -> f !! (root ++ [s]) = Some Dir;
  ok_body : forall s n x, f !! at_ s (n +:+ ".bin") = Some x -> exists b, x = File b;
  ok_meta : forall s n x, f !! at_ s (n +:+ ".meta.json") = Some x -> exists m, x = JFile m;
  ok_tmp : forall s n, f !! at_ s (n +:+ ".tmp") <> Some Dir;
  ok_pair : forall s n b m,
    f !! at_ s (n +:+ ".bin") = Some (File b) -> f !! at_ s (n +:+ ".meta.json") = Some (JFile m) ->
    valid n /\ shardOf n = s /\ mf_BlobID m = n /\ mf_SizeBytes m = len b /\ W n b m
}.

Lemma at_prefix s n k : at_ s n <> take k root.
Proof. unfold at_. intros Heq%(f_equal length). rewrite length_app, length_take in Heq. cbn in Heq. lia. Qed.

Lemma isDir_root f : (forall k, (0 < k <= length root)%nat -> f !! take k root = Some Dir) -> isDir f root = true.
Proof.
  intros Hd. unfold isDir. destruct root as [|x r] eqn:Hr; [done|]. specialize (Hd (length root)).
  rewrite Hr, firstn_all in Hd. rewrite Hd; [done|]. cbn. lia.
Qed.

Lemma mkdirLoop_exists f pre p : (forall k, (0 < k <= length p)%nat -> f !! (pre ++ take k p) = Some Dir) ->
  mkdirLoop f pre p = Ok f.
Proof.
  revert pre. induction p as [|x p IH]; intros pre Hd; [done|]. cbn [mkdirLoop].
  assert (Hx : f !! (pre ++ [x]) = Some Dir) by (exact (Hd 1%nat ltac:(cbn; lia))). rewrite Hx. apply IH. intros k Hk.
  specialize (Hd (S k) ltac:(cbn; lia)). cbn in Hd. by rewrite <- app_assoc.
Qed.

Lemma disk_ok_delete f s n : disk_ok f -> disk_ok (delete (at_ s n) f).
Proof.
  intros []. split.
  - intros k Hk. rewrite lookup_delete_ne by apply at_prefix. by apply ok_root0.
  - intros s' n' x [_ Hx]%lookup_delete_Some. rewrite lookup_delete_ne by apply at_shard. by eapply ok_parent0.
  - intros s' n' x [_ Hx]%lookup_delete_Some. by eapply ok_body0.
  - intros s' n' x [_ Hx]%lookup_delete_Some. by eapply ok_meta0.
  - intros s' n' [_ Hx]%lookup_delete_Some. by eapply ok_tmp0.
  - intros s' n' b m [_ Hb]%lookup_delete_Some [_ Hm]%lookup_delete_Some. by apply ok_pair0.
Qed.

(** A file that appears under an existing shard. *)
Lemma parent_insert f s n x : f !! (root ++ [s]) = Some Dir ->
  (forall s' n' y, f !! at_ s' n' = Some y -> f !! (root ++ [s']) = Some Dir) ->
  forall s' n' y, <[at_ s n := x]> f !! at_ s' n' = Some y -> <[at_ s n := x]> f !! (root ++ [s']) = Some Dir.
Proof.
  intros Hs Hp s' n' y Hy. rewrite lookup_insert_ne by apply at_shard.
  apply lookup_insert_Some in Hy as [[Heq _]|[_ Hy]]; [by apply at_inj in Heq as [-> _]|by eapply Hp].
Qed.

Lemma disk_ok_tmp f s n x : disk_ok f -> f !! (root ++ [s]) = Some Dir -> x <> Dir ->
  disk_ok (<[at_ s (n +:+ ".tmp") := x]> f).
Proof.
  intros [] Hs Hx. split.
  - intros k Hk. rewrite lookup_insert_ne by apply at_prefix. by apply ok_root0.
  - by apply parent_insert.
  - intros s' n' y [[Heq _]|[_ Hy]]%lookup_insert_Some; [|by eapply ok_body0].
    apply at_inj in Heq as [_ Heq]. symmetry in Heq. by apply bin_tmp in Heq.
  - intros s' n' y [[Heq _]|[_ Hy]]%lookup_insert_Some; [|by eapply ok_meta0].
    apply at_inj in Heq as [_ Heq]. symmetry in Heq. by apply meta_tmp in Heq.
  - intros s' n' [[_ ->]|[_ Hy]]%lookup_insert_Some; [done|by eapply ok_tmp0].
  - intros s' n' b m Hb Hm. rewrite lookup_insert_ne in Hb by (intros [_ Heq]%at_inj; symmetry in Heq; by apply bin_tmp in Heq).
    rewrite lookup_insert_ne in Hm by (intros [_ Heq]%at_inj; symmetry in Heq; by apply meta_tmp in Heq).
    by apply ok_pair0.
Qed.

Lemma disk_ok_body f s n b : disk_ok f -> f !! (root ++ [s]) = Some Dir -> f !! at_ s (n +:+ ".meta.json") = None ->
  disk_ok (<[at_ s (n +:+ ".bin") := File b]> f).
Proof.
  intros [] Hs Hno. split.
  - intros k Hk. rewrite lookup_insert_ne by apply at_prefix. by apply ok_root0.
  - by apply parent_insert.
  - intros s' n' y [[_ <-]|[_ Hy]]%lookup_insert_Some; [by eexists|by eapply ok_body0].
  - intros s' n' y [[Heq _]|[_ Hy]]%lookup_insert_Some; [|by eapply ok_meta0].
    apply at_inj in Heq as [_ Heq]. by apply bin_meta in Heq.
  - intros s' n' [[Heq _]|[_ Hy]]%lookup_insert_Some; [|by eapply ok_tmp0].
    apply at_inj in Heq as [_ Heq]. by apply bin_tmp in Heq.
  - intros s' n' b' m Hb Hm. rewrite lookup_insert_ne in Hm by (intros [_ Heq]%at_inj; by apply bin_meta in Heq).
    apply lookup_insert_Some in Hb as [[Heq _]|[_ Hb]]; [|by apply ok_pair0].
    apply at_inj in Heq as [-> Heq%sapp_inj_r]. subst. congruence.
Qed.

Lemma disk_ok_meta f id b m : disk_ok f -> valid id -> f !! at_ (shardOf id) (id +:+ ".bin") = Some (File b) ->
  mf_BlobID m = id -> mf_SizeBytes m = len b -> W id b m ->
  disk_ok (<[at_ (shardOf id) (id +:+ ".meta.json") := JFile m]> f).
Proof.
  intros [] Hv Hb Hid Hsz HW. split.
  - intros k Hk. rewrite lookup_insert_ne by apply at_prefix. by apply ok_root0.
  - apply parent_insert; [by eapply ok_parent0|done].
  - intros s' n' y [[Heq _]|[_ Hy]]%lookup_insert_Some; [|by eapply ok_body0].
    apply at_inj in Heq as [_ Heq]. symmetry in Heq. by apply bin_meta in Heq.
  - intros s' n' y [[_ <-]|[_ Hy]]%lookup_insert_Some; [by eexists|by eapply ok_meta0].
  - intros s' n' [[Heq _]|[_ Hy]]%lookup_insert_Some; [|by eapply ok_tmp0].
    apply at_inj in Heq as [_ Heq]. by apply meta_tmp in Heq.
  - intros s' n' b' m' Hb' Hm'.
    rewrite lookup_insert_ne in Hb' by (intros [_ Heq]%at_inj; symmetry in Heq; by apply bin_meta in Heq).
    apply lookup_insert_Some in Hm' as [[Heq Hm']|[_ Hm']]; [|by apply ok_pair0].
    apply at_inj in Heq as [<- Heq%sapp_inj_r]. subst n'. injection Hm' as <-. rewrite Hb in Hb'. injection Hb' as <-. done.
Qed.

(** [os.MkdirAll] creates directories above and at the path only. *)
Lemma mkdirLoop_prefix f pre p f' q : mkdirLoop f pre p = Ok f' ->
  f' !! q = f !! q \/ exists k, q = pre ++ take k p.
Proof.
  revert f pre. induction p as [|x p IH]; intros f pre; cbn [mkdirLoop]; [intros [= ->]; by left|].
  assert (Hstep : forall g, mkdirLoop g (pre ++ [x]) p = Ok f' -> f' !! q = g !! q \/ exists k, q = pre ++ take k (x :: p)).
  { intros g Hg. destruct (IH _ _ Hg) as [?|[k ->]]; [by left|]. right. exists (S k). cbn. by rewrite <- app_assoc. }
  destruct (f !! (pre ++ [x])) as [[]|] eqn:Hx; try done; [by apply Hstep|].
  intros Hm. destruct (decide (q = pre ++ [x])) as [->|Hne]; [right; by exists 1%nat|].
  destruct (Hstep _ Hm) as [Hq|?]; [left|by right]. by rewrite lookup_insert_ne in Hq.
Qed.

Lemma disk_ok_mkdir f id f' : disk_ok f -> valid id -> mkdirAll f (shardDir root id) = Ok f' ->
  disk_ok f' /\ f' !! (root ++ [shardOf id]) = Some Dir /\ forall s n, f' !! at_ s n = f !! at_ s n.
Proof.
  intros [] Hv Hm. pose proof (mkdirAll_spec _ _ _ Hm) as [Hd Hk].
  assert (Hat : forall s n, f' !! at_ s n = f !! at_ s n).
  { intros s n. destruct (mkdirLoop_prefix _ _ _ _ (at_ s n) Hm) as [|[k Hq%(f_equal length)]]; [done|exfalso].
    cbn [app] in Hq. rewrite (shardDir_eq root id Hv), length_take in Hq. unfold at_ in Hq. rewrite !length_app in Hq. cbn in Hq. lia. }
  rewrite (shardDir_eq root id Hv) in Hd.
  assert (Hdir : f' !! (root ++ [shardOf id]) = Some Dir).
  { unfold isDir in Hd. destruct (root ++ [shardOf id]) eqn:Hr; [by destruct root|].
    destruct (f' !! _) as [[]|]; done. }
  split; [|done]. split.
  - intros k Hlen. apply (proj1 (Hk _)). by apply ok_root0.
  - intros s n x. rewrite Hat. intros Hx. apply (proj1 (Hk _)). by eapply ok_parent0.
  - intros s n x. rewrite Hat. apply ok_body0.
  - intros s n x. rewrite Hat. apply ok_meta0.
  - intros s n. rewrite Hat. apply ok_tmp0.
  - intros s n b m. rewrite !Hat. apply ok_pair0.
Qed.

(** ** Removing files *)
Lemma rm_at c s n : dc_fs c !! at_ s n <> Some Dir ->
  rm (at_ s n) c = match dc_fs c !! at_ s n with Some _ => setFs (delete (at_ s n) (dc_fs c)) c | None => c end.
Proof.
  intros Hd. unfold rm, remove, stat.
  assert (Hne : at_ s n <> []) by (unfold at_; by destruct root).
  destruct (at_ s n) as [|x p]; [done|]. destruct (dc_fs c !! (x :: p)) as [[]|]; done.
Qed.

Lemma rm_root p c : dc_root (rm p c) = dc_root c.
Proof. unfold rm. by destruct (remove _ _). Qed.
Lemma rm_lru p c : dc_lru (rm p c) = dc_lru c.
Proof. unfold rm. by destruct (remove _ _). Qed.

(** ** The invariant *)
Definition kindHot (p : EvictionPolicy) : bool := bool_decide (Kind p = EvictionLRUHotPin).

(** The metadata file of an entry. *)
Definition matches (p : EvictionPolicy) (m : metaFile) (e : diskEntry) : Prop :=
  mf_BlobID m = de_blobID e /\ mf_SizeBytes m = de_sizeBytes e /\ mf_Hash m = de_hash e /\
  mf_StoredAt m = de_storedAt e /\ mf_ExpiresAt m = de_expiresAt e /\
  mf_NonEvictable m = de_nonEvictable e /\ de_pinned e = mf_Pinned m && kindHot p.

(** The entry [loadMeta] makes of a metadata file. *)
Definition loaded (m : metaFile) : diskEntry :=
  mkDiskEntry (mf_BlobID m) (mf_SizeBytes m) (mf_Hash m) (mf_StoredAt m) zeroTime (mf_ExpiresAt m)
    (mf_Pinned m) (mf_NonEvictable m) (mf_HitCount m).

Definition pair_at f (id : string) (b : bytes) (m : metaFile) : Prop :=
  f !! at_ (shardOf id) (id +:+ ".bin") = Some (File b) /\
  f !! at_ (shardOf id) (id +:+ ".meta.json") = Some (JFile m).

(** The index and the files agree; [rest] are the entries that are on the
    disk and still to be indexed. *)
Record dinv (rest : list diskEntry) c : Prop := {
  di_root : dc_root c = root;
  di_wf : lru_wf (dc_lru c);
  di_disk : disk_ok (dc_fs c);
  di_past : Forall disk_ok (dc_past c);
  di_entry : forall id e, lookupEntry (dc_lru c) id = Some e ->
    exists b m, pair_at (dc_fs c) id b m /\ matches (policy (dc_lru c)) m e;
  di_file : forall s n, is_Some (dc_fs c !! at_ s (n +:+ ".bin")) \/ is_Some (dc_fs c !! at_ s (n +:+ ".meta.json")) ->
    shardOf n = s /\ (is_Some (lookupEntry (dc_lru c) n) \/ n ∈ map de_blobID rest);
  di_rest : forall e, e ∈ rest -> lookupEntry (dc_lru c) (de_blobID e) = None /\
    exists b m, pair_at (dc_fs c) (de_blobID e) b m /\ e = loaded m
}.

Lemma pair_ok f id b m : disk_ok f -> pair_at f id b m ->
  valid id /\ mf_BlobID m = id /\ mf_SizeBytes m = len b /\ W id b m.
Proof. intros Hok [Hb Hm]. destruct (ok_pair _ Hok _ _ _ _ Hb Hm) as (? & _ & ? & ? & ?). done. Qed.

Lemma di_valid rest c id e : dinv rest c -> lookupEntry (dc_lru c) id = Some e -> valid id.
Proof. intros Hi Hl. destruct (di_entry _ _ Hi _ _ Hl) as (b & m & Hp & _). by apply (pair_ok _ _ _ _ (di_disk _ _ Hi) Hp). Qed.

(** The two files of an identifier. *)
Definition ofId (id : string) (q : path) : Prop :=
  q = at_ (shardOf id) (id +:+ ".bin") \/ q = at_ (shardOf id) (id +:+ ".meta.json").

Lemma ofId_inj id id' q : ofId id q -> ofId id' q -> id = id'.
Proof.
  intros [->| ->] [Heq|Heq]; apply at_inj in Heq as [_ Heq].
  - by apply sapp_inj_r in Heq.
  - by apply bin_meta in Heq.
  - symmetry in Heq. by apply bin_meta in Heq.
  - by apply sapp_inj_r in Heq.
Qed.

Lemma pair_at_ext f f' id b m : (forall q, ofId id q -> f' !! q = f !! q) -> pair_at f id b m -> pair_at f' id b m.
Proof. intros Hq [Hb Hm]. split; rewrite Hq; try done; [by left|by right]. Qed.

(** Removing both files of an entry. *)
Definition wiped (id : string) f : fs metaFile :=
  delete (at_ (shardOf id) (id +:+ ".meta.json")) (delete (at_ (shardOf id) (id +:+ ".bin")) f).

Lemma wiped_lookup id f q : wiped id f !! q = f !! q \/ (ofId id q /\ wiped id f !! q = None).
Proof.
  unfold wiped. destruct (decide (q = at_ (shardOf id) (id +:+ ".meta.json"))) as [->|H1].
  { right. split; [by right|]. by rewrite lookup_delete_eq. }
  destruct (decide (q = at_ (shardOf id) (id +:+ ".bin"))) as [->|H2].
  { right. split; [by left|]. by rewrite lookup_delete_ne, lookup_delete_eq by done. }
  left. by rewrite !lookup_delete_ne by done.
Qed.

Lemma wiped_ofId id f q : ofId id q -> wiped id f !! q = None.
Proof.
  unfold wiped. intros [->| ->]; [|by rewrite lookup_delete_eq].
  rewrite lookup_delete_ne, lookup_delete_eq; [done|]. intros [_ Heq]%at_inj. symmetry in Heq. by apply bin_meta in Heq.
Qed.

Lemma wiped_other id id' f q : id <> id' -> ofId id' q -> wiped id f !! q = f !! q.
Proof. intros Hne Hq. destruct (wiped_lookup id f q) as [?|[Hq' _]]; [done|]. by destruct Hne, (ofId_inj id id' q). Qed.

Lemma wiped_tmp id f s n : wiped id f !! at_ s (n +:+ ".tmp") = f !! at_ s (n +:+ ".tmp").
Proof.
  destruct (wiped_lookup id f (at_ s (n +:+ ".tmp"))) as [?|[[Heq|Heq] _]]; [done|..];
    apply at_inj in Heq as [_ Heq]; symmetry in Heq; [by apply bin_tmp in Heq|by apply meta_tmp in Heq].
Qed.

Lemma wiped_some id f q : is_Some (wiped id f !! q) -> is_Some (f !! q) /\ ~ ofId id q.
Proof.
  intros Hs. destruct (wiped_lookup id f q) as [Heq|[_ Heq]]; [|by rewrite Heq in Hs; destruct Hs].
  split; [by rewrite <- Heq|]. intros Hq. rewrite (wiped_ofId _ _ _ Hq) in Hs. by destruct Hs.
Qed.

Lemma rm_files c id : disk_ok (dc_fs c) -> valid id -> dc_root c = root ->
  let c' := rm (metaPath (dc_root c) id) (rm (bodyPath (dc_root c) id) c) in
  dc_root c' = root /\ dc_lru c' = dc_lru c /\ dc_fs c' = wiped id (dc_fs c) /\
  (Forall disk_ok (dc_past c) -> Forall disk_ok (dc_past c')).
Proof.
  intros Hok Hv Hr. rewrite Hr, (bodyPath_eq root id Hv), (metaPath_eq root id Hv).
  rewrite (rm_at c) by (intros Hd; by destruct (ok_body _ Hok _ _ _ Hd)).
  unfold wiped. set (qb := at_ (shardOf id) (id +:+ ".bin")). set (qm := at_ (shardOf id) (id +:+ ".meta.json")).
  assert (Hok1 : disk_ok (delete qb (dc_fs c))) by by apply disk_ok_delete.
  assert (Hd1 : delete qb (dc_fs c) !! qm <> Some Dir) by (intros Hd; by destruct (ok_meta _ Hok1 _ _ _ Hd)).
  destruct (dc_fs c !! qb) as [x|] eqn:Hb.
  - pose proof (rm_at (setFs (delete qb (dc_fs c)) c) _ _ Hd1) as R. fold qm in R. rewrite R. clear R.
    cbn [dc_fs setFs upd eta_expand eta_DiskCache]. destruct (delete qb (dc_fs c) !! qm) eqn:Hm; cbn.
    + split; [done|]. split; [done|]. split; [done|]. intros Hp. by apply Forall_cons_2, Forall_cons_2.
    + rewrite (delete_id _ _ Hm). split; [done|]. split; [done|]. split; [done|]. intros Hp. by apply Forall_cons_2.
  - rewrite (delete_id _ _ Hb) in *. pose proof (rm_at c _ _ Hd1) as R. fold qm in R. rewrite R. clear R.
    destruct (dc_fs c !! qm) eqn:Hm; cbn.
    + split; [done|]. split; [done|]. split; [done|]. intros Hp. by apply Forall_cons_2.
    + by rewrite (delete_id _ _ Hm).
Qed.

(** ** Removal and eviction *)
(** What a removal keeps: temporary files, and the files of every entry that
    stays. *)
Record shrunk c c' : Prop := {
  sk_tmp : forall s n, dc_fs c' !! at_ s (n +:+ ".tmp") = dc_fs c !! at_ s (n +:+ ".tmp");
  sk_kept : forall id, is_Some (lookupEntry (dc_lru c') id) ->
    is_Some (lookupEntry (dc_lru c) id) /\ forall q, ofId id q -> dc_fs c' !! q = dc_fs c !! q;
  sk_shard : forall s, dc_fs c' !! (root ++ [s]) = dc_fs c !! (root ++ [s])
}.

#[local] Instance shrunk_preorder : PreOrder shrunk.
Proof.
  split; [by split|]. intros c1 c2 c3 [Ht Hk Hs] [Ht' Hk' Hs']. split; [intros s n; by rewrite Ht'| |intros s; by rewrite Hs'].
  intros id Hid. destruct (Hk' _ Hid) as [Hid2 Hq2]. destruct (Hk _ Hid2) as [Hid1 Hq1].
  split; [done|]. intros q Hq. by rewrite Hq2, Hq1.
Qed.

Lemma removeLockedD_spec rest c el e : dinv rest c -> heap (dc_lru c) !! el = Some e ->
  let c' := removeLockedD el c in
  dc_lru c' = removeLocked el (dc_lru c) /\ dc_fs c' = wiped (de_blobID e) (dc_fs c) /\ dinv rest c'.
Proof.
  intros [Hr Hwf Hok Hpast Hent Hfile Hrest] He.
  assert (Hl : lookupEntry (dc_lru c) (de_blobID e) = Some e) by (apply lookupEntry_Some; [done|by exists el]).
  destruct (Hent _ _ Hl) as (b & m & Hp & _). pose proof (pair_ok _ _ _ _ Hok Hp) as (Hv & _).
  unfold removeLockedD. rewrite He. set (c1 := c <| dc_lru := removeLocked el (dc_lru c) |>).
  destruct (rm_files c1 (de_blobID e) Hok Hv Hr) as (Hr' & Hl' & Hf' & Hpast'). cbn zeta. rewrite rm_root.
  match type of Hr' with dc_root ?x = _ => set (c' := x) in * end. cbn [c1 dc_lru dc_fs dc_past upd eta_expand eta_DiskCache] in Hl', Hf', Hpast'.
  split; [done|]. split; [done|].
  assert (Hlk : forall id, lookupEntry (dc_lru c') id = if decide (id = de_blobID e) then None else lookupEntry (dc_lru c) id).
  { intros id. rewrite Hl'. exact (removeLocked_lookup _ _ e _ Hwf He). }
  split; rewrite ?Hf'; try done.
  - rewrite Hl'. by apply removeLocked_wf.
  - by apply disk_ok_delete, disk_ok_delete.
  - by apply Hpast'.
  - intros id e'. rewrite Hlk. case_decide as Hid; [done|]. intros He'.
    destruct (Hent _ _ He') as (b' & m' & Hp' & Hm). exists b', m'. split.
    + eapply pair_at_ext; [|exact Hp']. intros q Hq. by apply wiped_other with id.
    + by rewrite Hl', (fr_policy _ _ (removeLocked_frame _ el Hwf)).
  - intros s n Hs. rewrite Hlk.
    assert (Hs' : is_Some (dc_fs c !! at_ s (n +:+ ".bin")) \/ is_Some (dc_fs c !! at_ s (n +:+ ".meta.json")))
      by (destruct Hs as [Hs|Hs]; apply wiped_some in Hs as [? _]; [by left|by right]).
    destruct (Hfile _ _ Hs') as [Hsh Hn]. split; [done|]. case_decide as Hid; [exfalso|done]. subst.
    destruct Hs as [Hs|Hs]; apply wiped_some in Hs as [_ Hs]; apply Hs; [by left|by right].
  - intros e' He'. destruct (Hrest _ He') as (Hno & b' & m' & Hp' & Hm). rewrite Hlk. split; [by case_decide|].
    exists b', m'. split; [|done]. eapply pair_at_ext; [|exact Hp'].
    intros q Hq. apply wiped_other with (de_blobID e'); [|done]. intros Heq. congruence.
Qed.

Lemma removeLockedD_shrunk rest c el e : dinv rest c -> heap (dc_lru c) !! el = Some e -> shrunk c (removeLockedD el c).
Proof.
  intros Hi He. destruct (removeLockedD_spec _ _ _ _ Hi He) as (Hl & Hf & _).
  split; rewrite Hf; [intros; apply wiped_tmp| |intros s; unfold wiped; by rewrite !lookup_delete_ne by apply at_shard]. intros id. rewrite Hl, (removeLocked_lookup _ _ e _ (di_wf _ _ Hi) He).
  case_decide as Hid; [by intros []|]. intros Hs. split; [done|]. intros q Hq. apply wiped_other with id; [|done].
  intros Heq. by apply Hid.
Qed.

Lemma evictMainLoopD_spec rest fuel incoming c : dinv rest c ->
  let c' := evictMainLoopD fuel incoming c in
  dc_lru c' = evictMainLoop fuel incoming (dc_lru c) /\ dinv rest c' /\ shrunk c c'.
Proof.
  revert c. induction fuel as [|fuel IH]; intros c Hi; [done|]. cbn [evictMainLoopD evictMainLoop].
  destruct (_ >? _); [|done]. destruct (walkPrev _ _) as [back|] eqn:Hw; [|done].
  destruct (walkPrev_Some _ _ _ Hw) as (_ & _ & e & _ & He & _).
  destruct (removeLockedD_spec _ _ _ _ Hi He) as (Hl & _ & Hi1). pose proof (removeLockedD_shrunk _ _ _ _ Hi He) as Ht.
  destruct (IH _ Hi1) as (Hl2 & Hi2 & Ht2). split; [by rewrite Hl2, Hl|]. split; [done|].
  by transitivity (removeLockedD back c).
Qed.

Lemma evictHotLoopD_spec rest fuel incoming c : dinv rest c ->
  let c' := evictHotLoopD fuel incoming c in
  dc_lru c' = evictHotLoop fuel incoming (dc_lru c) /\ dinv rest c' /\ shrunk c c'.
Proof.
  revert c. induction fuel as [|fuel IH]; intros c Hi; [done|]. cbn [evictHotLoopD evictHotLoop].
  destruct (_ >? _); [|done]. destruct (walkPrev _ _) as [back|] eqn:Hw; [|done].
  destruct (walkPrev_Some _ _ _ Hw) as (_ & _ & e & _ & He & _).
  destruct (removeLockedD_spec _ _ _ _ Hi He) as (Hl & _ & Hi1). pose proof (removeLockedD_shrunk _ _ _ _ Hi He) as Ht.
  destruct (IH _ Hi1) as (Hl2 & Hi2 & Ht2). split; [by rewrite Hl2, Hl|]. split; [done|].
  by transitivity (removeLockedD back c).
Qed.

Lemma evictMainD_spec rest incoming c : dinv rest c ->
  let c' := evictMainD incoming c in
  dc_lru c' = evictMainLocked incoming (dc_lru c) /\ dinv rest c' /\ shrunk c c'.
Proof.
  intros Hi. unfold evictMainD, evictMainLocked. destruct (_ <=? _); [done|]. by apply evictMainLoopD_spec.
Qed.

Lemma evictHotD_spec rest incoming c : dinv rest c ->
  let c' := evictHotD incoming c in
  dc_lru c' = evictHotLocked incoming (dc_lru c) /\ dinv rest c' /\ shrunk c c'.
Proof.
  intros Hi. unfold evictHotD, evictHotLocked. destruct (_ <=? _); [done|]. by apply evictHotLoopD_spec.
Qed.

Lemma removeExistingD_spec rest id c : dinv rest c ->
  let c' := removeExistingD id c in
  dc_lru c' = removeExisting id (dc_lru c) /\ dinv rest c' /\ shrunk c c'.
Proof.
  intros Hi. unfold removeExistingD, removeExisting. destruct (index (dc_lru c) !! id) as [el|] eqn:Hx; [|done].
  pose proof Hx as (e & He & _)%(wf_index _ (di_wf _ _ Hi)).
  destruct (removeLockedD_spec _ _ _ _ Hi He) as (Hl & _ & Hi1). split; [done|]. split; [done|].
  by eapply removeLockedD_shrunk.
Qed.

(** ** Writing *)
Lemma removelast_at s n : removelast (at_ s n) = root ++ [s].
Proof. rewrite at_split. by rewrite removelast_last. Qed.

Lemma isDir_at f s n : isDir f (at_ s n) = match f !! at_ s n with Some Dir => true | _ => false end.
Proof. unfold isDir. destruct (at_ s n) as [|x p] eqn:Hp; [unfold at_ in Hp; by destruct root|done]. Qed.

Lemma isDir_shard f s : f !! (root ++ [s]) = Some Dir -> isDir f (root ++ [s]) = true.
Proof. intros Hs. unfold isDir. destruct (root ++ [s]) as [|x p]; [done|]. by rewrite Hs. Qed.

Lemma writeNode_at f s n x : f !! (root ++ [s]) = Some Dir -> f !! at_ s n <> Some Dir ->
  writeNode f (at_ s n) x = Ok (<[at_ s n := x]> f).
Proof.
  intros Hs Hn. unfold writeNode. rewrite removelast_at, (isDir_shard f s Hs), isDir_at. cbn [negb].
  destruct (f !! at_ s n) as [[]|]; done.
Qed.

Lemma rename_at f s n n' x : f !! at_ s n = Some x -> x <> Dir -> f !! (root ++ [s]) = Some Dir ->
  f !! at_ s n' <> Some Dir -> n <> n' ->
  rename f (at_ s n) (at_ s n') = Ok (<[at_ s n' := x]> (delete (at_ s n) f)).
Proof.
  intros Hx Hd Hs Hn Hne. unfold rename, stat.
  assert (Hw : writeNode (delete (at_ s n) f) (at_ s n') x = Ok (<[at_ s n' := x]> (delete (at_ s n) f))).
  { apply writeNode_at; [by rewrite lookup_delete_ne by apply at_shard|].
    rewrite lookup_delete_ne; [done|]. by intros [_ ?]%at_inj. }
  destruct (at_ s n) as [|y p] eqn:Hp; [unfold at_ in Hp; by destruct root|]. rewrite <- Hp in *. rewrite Hx.
  by destruct x.
Qed.

(** A system call that leaves the entries' files alone. *)
Lemma dinv_setFs rest c f : dinv rest c -> disk_ok f -> (forall id q, ofId id q -> f !! q = dc_fs c !! q) ->
  (forall s n, f !! at_ s (n +:+ ".bin") = dc_fs c !! at_ s (n +:+ ".bin")) ->
  (forall s n, f !! at_ s (n +:+ ".meta.json") = dc_fs c !! at_ s (n +:+ ".meta.json")) ->
  dinv rest (setFs f c).
Proof.
  intros [Hr Hwf Hok Hpast Hent Hfile Hrest] Hf Hid Hb Hm. split; cbn; try done.
  - by apply Forall_cons_2.
  - intros id e He. destruct (Hent _ _ He) as (b & m & Hp & ?). exists b, m. split; [|done].
    eapply pair_at_ext; [|exact Hp]. apply Hid.
  - intros s n. rewrite Hb, Hm. apply Hfile.
  - intros e He. destruct (Hrest _ He) as (? & b & m & Hp & ?). split; [done|]. exists b, m. split; [|done].
    eapply pair_at_ext; [|exact Hp]. apply Hid.
Qed.

Lemma ofId_tmp id s n : ~ ofId id (at_ s (n +:+ ".tmp")).
Proof. intros [[_ Heq]%at_inj|[_ Heq]%at_inj]; symmetry in Heq; [by apply bin_tmp in Heq|by apply meta_tmp in Heq]. Qed.

(** Writing or removing a temporary file. *)
Lemma tmp_other (f g : fs metaFile) s n : (forall q, q <> at_ s (n +:+ ".tmp") -> g !! q = f !! q) ->
  (forall id q, ofId id q -> g !! q = f !! q) /\
  (forall s' n', g !! at_ s' (n' +:+ ".bin") = f !! at_ s' (n' +:+ ".bin")) /\
  (forall s' n', g !! at_ s' (n' +:+ ".meta.json") = f !! at_ s' (n' +:+ ".meta.json")).
Proof.
  intros Hq. split; [|split].
  - intros id q Hid. apply Hq. intros ->. by apply ofId_tmp in Hid.
  - intros s' n'. apply Hq. intros [_ Heq]%at_inj. by apply bin_tmp in Heq.
  - intros s' n'. apply Hq. intros [_ Heq]%at_inj. by apply meta_tmp in Heq.
Qed.

Lemma dinv_tmp rest c s n f : dinv rest c -> disk_ok f -> (forall q, q <> at_ s (n +:+ ".tmp") -> f !! q = dc_fs c !! q) ->
  dinv rest (setFs f c).
Proof. intros Hi Hf (? & ? & ?)%tmp_other. by apply dinv_setFs. Qed.

(** Removing a temporary file. *)
Lemma dinv_rm_tmp rest c s n : dinv rest c -> dinv rest (rm (at_ s (n +:+ ".tmp")) c).
Proof.
  intros Hi. rewrite (rm_at c) by apply (ok_tmp _ (di_disk _ _ Hi)). destruct (_ !! _); [|done].
  apply (dinv_tmp _ _ s n); [done|by apply disk_ok_delete, di_disk with rest|].
  intros q Hq. by rewrite lookup_delete_ne.
Qed.

(** ** [publish] *)

(** The files of a new entry are published in two renames. *)
Definition published (id t : string) (b : bytes) (m : metaFile) f f1 f2 f3 : Prop :=
  let at_id n := at_ (shardOf id) n in
  f1 = <[at_id (id +:+ ".bin") := File b]> (delete (at_id (t +:+ ".tmp")) f) /\
  f2 = <[at_id ((id +:+ ".meta.json") +:+ ".tmp") := JFile m]> f1 /\
  f3 = <[at_id (id +:+ ".meta.json") := JFile m]> (delete (at_id ((id +:+ ".meta.json") +:+ ".tmp")) f2).

Lemma published_ok id t b m f f1 f2 f3 : published id t b m f f1 f2 f3 ->
  disk_ok f -> valid id -> f !! (root ++ [shardOf id]) = Some Dir -> f !! at_ (shardOf id) (id +:+ ".meta.json") = None ->
  mf_BlobID m = id -> mf_SizeBytes m = len b -> W id b m ->
  disk_ok f1 /\ disk_ok f2 /\ disk_ok f3 /\ f1 !! (root ++ [shardOf id]) = Some Dir /\
  f2 !! (root ++ [shardOf id]) = Some Dir /\ pair_at f3 id b m.
Proof.
  intros (-> & -> & ->) Hok Hv Hdir Hno Hid Hsz HW. set (f1 := <[_ := File b]> _).
  assert (Hd0 : delete (at_ (shardOf id) (t +:+ ".tmp")) f !! (root ++ [shardOf id]) = Some Dir)
    by (by rewrite lookup_delete_ne by apply at_shard).
  assert (Hd1 : f1 !! (root ++ [shardOf id]) = Some Dir) by (unfold f1; by rewrite lookup_insert_ne by apply at_shard).
  assert (Hok1 : disk_ok f1).
  { apply disk_ok_body; [by apply disk_ok_delete|done|].
    rewrite lookup_delete_ne; [done|]. intros [_ Heq]%at_inj. symmetry in Heq. by apply meta_tmp in Heq. }
  assert (Hok2 : disk_ok (<[at_ (shardOf id) ((id +:+ ".meta.json") +:+ ".tmp") := JFile m]> f1)) by by apply disk_ok_tmp.
  set (f2 := <[_ := JFile m]> f1) in *.
  assert (Hd2 : f2 !! (root ++ [shardOf id]) = Some Dir) by (unfold f2; by rewrite lookup_insert_ne by apply at_shard).
  set (g := delete (at_ (shardOf id) ((id +:+ ".meta.json") +:+ ".tmp")) f2).
  assert (Hgb : g !! at_ (shardOf id) (id +:+ ".bin") = Some (File b)).
  { unfold g, f2. rewrite lookup_delete_ne by (intros [_ Heq]%at_inj; symmetry in Heq; by apply bin_tmp in Heq).
    rewrite lookup_insert_ne by (intros [_ Heq]%at_inj; symmetry in Heq; by apply bin_tmp in Heq).
    unfold f1. apply lookup_insert_eq. }
  split; [done|]. split; [done|]. split; [by apply disk_ok_meta with b; [apply disk_ok_delete|..]|].
  split; [done|]. split; [done|]. split; [|apply lookup_insert_eq].
  rewrite lookup_insert_ne; [done|]. intros [_ Heq]%at_inj. symmetry in Heq. by apply bin_meta in Heq.
Qed.

Lemma published_other id t b m f f1 f2 f3 q : published id t b m f f1 f2 f3 -> ~ ofId id q ->
  (forall n, q <> at_ (shardOf id) (n +:+ ".tmp")) -> f3 !! q = f !! q.
Proof.
  intros (-> & -> & ->) Hq Ht.
  rewrite lookup_insert_ne by (intros <-; apply Hq; by right). rewrite lookup_delete_ne by (intros <-; by eapply Ht).
  rewrite lookup_insert_ne by (intros <-; by eapply Ht). rewrite lookup_insert_ne by (intros <-; apply Hq; by left).
  by rewrite lookup_delete_ne by (intros <-; by eapply Ht).
Qed.

Lemma published_tmp id t b m f f1 f2 f3 s n : published id t b m f f1 f2 f3 ->
  at_ s (n +:+ ".tmp") <> at_ (shardOf id) (t +:+ ".tmp") -> n <> id +:+ ".meta.json" ->
  f3 !! at_ s (n +:+ ".tmp") = f !! at_ s (n +:+ ".tmp").
Proof.
  intros (-> & -> & ->) Hp Hn.
  assert (Hm : at_ s (n +:+ ".tmp") <> at_ (shardOf id) ((id +:+ ".meta.json") +:+ ".tmp")).
  { intros [_ Heq]%at_inj. by apply sapp_inj_r in Heq. }
  rewrite lookup_insert_ne by (intros [_ Heq]%at_inj; by apply meta_tmp in Heq). rewrite lookup_delete_ne by done.
  rewrite lookup_insert_ne by done. rewrite lookup_insert_ne by (intros [_ Heq]%at_inj; by apply bin_tmp in Heq).
  by rewrite lookup_delete_ne.
Qed.

Lemma published_no_tmp id t b m f f1 f2 f3 s n : published id t b m f f1 f2 f3 ->
  (at_ s (n +:+ ".tmp") <> at_ (shardOf id) (t +:+ ".tmp") -> f !! at_ s (n +:+ ".tmp") = None) ->
  f3 !! at_ s (n +:+ ".tmp") = None.
Proof.
  intros (-> & -> & ->) Hp.
  rewrite lookup_insert_ne by (intros [_ Heq]%at_inj; by apply meta_tmp in Heq).
  apply lookup_delete_None. destruct (decide (at_ (shardOf id) ((id +:+ ".meta.json") +:+ ".tmp") = at_ s (n +:+ ".tmp"))) as [?|Hm]; [by left|right].
  rewrite lookup_insert_ne by done. rewrite lookup_insert_ne by (intros [_ Heq]%at_inj; by apply bin_tmp in Heq).
  apply lookup_delete_None. destruct (decide (at_ (shardOf id) (t +:+ ".tmp") = at_ s (n +:+ ".tmp"))) as [?|Ht]; [by left|right]. auto.
Qed.

Lemma published_shard id t b m f f1 f2 f3 s : published id t b m f f1 f2 f3 -> f3 !! (root ++ [s]) = f !! (root ++ [s]).
Proof.
  intros (-> & -> & ->). rewrite lookup_insert_ne, lookup_delete_ne, lookup_insert_ne, lookup_insert_ne, lookup_delete_ne by apply at_shard.
  done.
Qed.

Lemma writeMeta_spec c id e : disk_ok (dc_fs c) -> dc_fs c !! (root ++ [shardOf id]) = Some Dir ->
  dc_fs c !! at_ (shardOf id) (id +:+ ".meta.json") = None ->
  let mt := at_ (shardOf id) ((id +:+ ".meta.json") +:+ ".tmp") in
  let f2 := <[mt := JFile (metaOf e)]> (dc_fs c) in
  writeMeta (at_ (shardOf id) (id +:+ ".meta.json")) e c
    = (setFs (<[at_ (shardOf id) (id +:+ ".meta.json") := JFile (metaOf e)]> (delete mt f2)) (setFs f2 c), Ok tt).
Proof.
  intros Hok Hdir Hno mt f2. unfold writeMeta, sys, wrap. unroll. rewrite suffixed_at. fold mt.
  assert (Hw : writeNode (dc_fs c) mt (JFile (metaOf e)) = Ok f2) by (apply writeNode_at; [done|by apply ok_tmp]).
  rewrite Hw. cbn [dc_fs setFs upd eta_expand eta_DiskCache].
  assert (Hr : rename f2 mt (at_ (shardOf id) (id +:+ ".meta.json"))
                 = Ok (<[at_ (shardOf id) (id +:+ ".meta.json") := JFile (metaOf e)]> (delete mt f2))).
  { assert (Hmt : mt <> at_ (shardOf id) (id +:+ ".meta.json")).
    { intros [_ Heq]%at_inj. symmetry in Heq. by apply meta_tmp in Heq. }
    apply rename_at.
    - apply lookup_insert_eq.
    - done.
    - unfold f2. by rewrite lookup_insert_ne by apply at_shard.
    - unfold f2. rewrite lookup_insert_ne, Hno by done. done.
    - intros Heq. apply Hmt. unfold mt. by rewrite Heq. }
  by rewrite Hr.
Qed.

(** What [publish] removes before it writes: the old entry, and entries to make room. *)
Definition makeRoom (pinned : bool) (id : string) (size : Z) (c : DiskCache) : DiskCache :=
  evictMainD size ((if pinned then evictHotD size else fun c => c) (removeExistingD id c)).

Lemma makeRoom_spec pinned id size c : dinv [] c ->
  let c3 := makeRoom pinned id size c in
  dinv [] c3 /\ shrunk c c3 /\ policy (dc_lru c3) = policy (dc_lru c) /\ lookupEntry (dc_lru c3) id = None /\
  (forall x q, dc_fs c3 !! q = Some x -> ~ ofId id q) /\
  dc_lru c3 = evictMainLocked size ((if pinned then evictHotLocked size else fun l => l) (removeExisting id (dc_lru c))).
Proof.
  intros Hi. cbn zeta. unfold makeRoom. destruct (removeExistingD_spec [] id c Hi) as (Hl1 & Hi1 & Hk1).
  set (c1 := removeExistingD id c) in *. assert (Hpol : policy (dc_lru c1) = policy (dc_lru c)) by (rewrite Hl1; apply removeExisting_policy).
  set (c2 := (if pinned then evictHotD size else fun c => c) c1).
  assert (H2 : dc_lru c2 = (if pinned then evictHotLocked size else fun l => l) (dc_lru c1) /\ dinv [] c2 /\ shrunk c1 c2 /\
    policy (dc_lru c2) = policy (dc_lru c1)).
  { unfold c2. destruct pinned; [|done]. destruct (evictHotD_spec [] size c1 Hi1) as (Hl & ? & ?). do 3 (split; [done|]). rewrite Hl.
    apply (fr_policy _ _ (proj1 (proj2 (evictHotLocked_spec size (dc_lru c1) (di_wf _ _ Hi1))))). }
  destruct H2 as (Hl2 & Hi2 & Hk2 & Hp2). destruct (evictMainD_spec [] size c2 Hi2) as (Hl3 & Hi3 & Hk3). set (c3 := evictMainD size c2) in *.
  assert (Hk13 : shrunk c1 c3) by by transitivity c2. assert (Hno : lookupEntry (dc_lru c3) id = None).
  { apply eq_None_not_Some. intros Hs. destruct (sk_kept _ _ Hk13 _ Hs) as [Hs1 _].
    rewrite Hl1, (removeExisting_lookup _ _ _ (di_wf _ _ Hi)), decide_True in Hs1 by done. by destruct Hs1. }
  split; [done|]. split; [by transitivity c1|]. split; [|split; [done|split; [|by rewrite Hl3, Hl2, Hl1]]].
  - rewrite Hl3, (fr_policy _ _ (proj1 (proj2 (evictMainLocked_spec size (dc_lru c2) (di_wf _ _ Hi2))))). by rewrite Hp2.
  - intros x q Hx Hq. assert (Hs : is_Some (lookupEntry (dc_lru c3) id) \/ id ∈ map de_blobID []).
    { destruct Hq as [->| ->]; eapply (di_file _ _ Hi3); [left|right]; by eexists. }
    rewrite Hno in Hs. destruct Hs as [[]|Hs]; [done|by apply elem_of_nil in Hs].
Qed.

Lemma published_elsewhere id t b m f f1 f2 f3 id' q : published id t b m f f1 f2 f3 -> id' <> id -> ofId id' q -> f3 !! q = f !! q.
Proof.
  intros Hpub Hne Hq. apply (published_other _ _ _ _ _ _ _ _ q Hpub).
  - intros Hq'. apply Hne. by apply (ofId_inj id' id q).
  - intros n ->. by apply ofId_tmp in Hq.
Qed.
(** A published name belongs to the entry that was pushed or to one that was there. *)
Lemma published_names id t b m f f1 f2 f3 s n : published id t b m f f1 f2 f3 ->
  is_Some (f3 !! at_ s (n +:+ ".bin")) \/ is_Some (f3 !! at_ s (n +:+ ".meta.json")) ->
  n = id /\ s = shardOf id \/ is_Some (f !! at_ s (n +:+ ".bin")) \/ is_Some (f !! at_ s (n +:+ ".meta.json")).
Proof.
  intros Hpub Hs. destruct (decide (n = id /\ s = shardOf id)) as [|Hne]; [by left|right].
  assert (Hq : forall suf, suf = ".bin" \/ suf = ".meta.json" -> f3 !! at_ s (n +:+ suf) = f !! at_ s (n +:+ suf)).
  { intros suf Hsuf. apply (published_other _ _ _ _ _ _ _ _ _ Hpub).
    - intros Hof. apply Hne. destruct Hof as [[-> Heq]%at_inj|[-> Heq]%at_inj]; (split; [|done]); destruct Hsuf as [-> | ->];
        [by apply sapp_inj_r in Heq|symmetry in Heq; by apply bin_meta in Heq|by apply bin_meta in Heq|by apply sapp_inj_r in Heq].
    - intros n' [_ Heq]%at_inj. destruct Hsuf as [-> | ->]; [by apply bin_tmp in Heq|by apply meta_tmp in Heq]. }
  by rewrite !Hq in Hs by auto.
Qed.
Lemma published_dinv now id t size opts b c c' f1 f2 f3 :
  let e := newEntryD now (policy (dc_lru c)) id size opts in
  dinv [] c -> lookupEntry (dc_lru c) id = None -> published id t b (metaOf e) (dc_fs c) f1 f2 f3 -> disk_ok f1 -> disk_ok f2 -> disk_ok f3 -> pair_at f3 id b (metaOf e) ->
  dc_lru c' = pushEntry (de_pinned e) e size (dc_lru c) -> dc_fs c' = f3 -> dc_past c' = f2 :: f1 :: dc_fs c :: dc_past c ->
  dc_root c' = dc_root c -> dinv [] c'.
Proof.
  intros e [Hr Hwf Hok Hpast Hent Hfile _] Hno Hpub Hok1 Hok2 Hok3 Hp3 HL HF HP HR.
  assert (Hlk : forall id', lookupEntry (pushEntry (de_pinned e) e size (dc_lru c)) id' = if decide (id' = id) then Some e else lookupEntry (dc_lru c) id').
  { intros id'. exact (pushEntry_lookup (dc_lru c) e id' Hwf). }
  split; rewrite ?HL, ?HF, ?HP, ?HR; try done.
  - by apply (pushEntry_wf (dc_lru c) e Hwf).
  - by repeat apply Forall_cons_2.
  - intros id' e'. rewrite Hlk. case_decide as Hid.
    + intros [= <-]. subst id'. exists b, (metaOf e). split; [done|]. unfold matches.
      do 6 (split; [reflexivity|]). rewrite pushEntry_eq. cbn [policy]. unfold kindHot.
      unfold e, newEntryD. cbn [de_pinned metaOf mf_Pinned]. by rewrite <- andb_assoc, andb_diag.
    + intros He'. destruct (Hent _ _ He') as (b' & m' & Hp' & Hm'). exists b', m'. split; [|by rewrite pushEntry_eq].
      eapply pair_at_ext; [|exact Hp']. intros q. by apply (published_elsewhere _ _ _ _ _ _ _ _ _ _ Hpub).
  - intros s n Hs. rewrite Hlk. destruct (published_names _ _ _ _ _ _ _ _ s n Hpub Hs) as [[-> ->]|Hs'].
    + rewrite decide_True by done. split; [done|left; by eexists].
    + destruct (Hfile _ _ Hs') as [? Hl]. split; [done|]. case_decide; [left; by eexists|done].
  - intros e' He'. by apply elem_of_nil in He'.
Qed.

Lemma publish_spec now id t size opts c p b :
  let e := newEntryD now (policy (dc_lru c)) id size opts in
  dinv [] c -> valid id -> dc_fs c !! at_ (shardOf id) (t +:+ ".tmp") = Some (File b) -> size = len b ->
  p = at_ (shardOf id) (t +:+ ".tmp") -> W id b (metaOf e) ->
  exists c', publish now id p size opts c = (c', Ok tt) /\ dinv [] c' /\
    dc_lru c' = placeEntry e (dc_lru c) /\ pair_at (dc_fs c') id b (metaOf e) /\
    (forall id', id' <> id -> is_Some (lookupEntry (dc_lru c') id') -> is_Some (lookupEntry (dc_lru c) id') /\
      forall q, ofId id' q -> dc_fs c' !! q = dc_fs c !! q) /\
    (forall s n, at_ s (n +:+ ".tmp") <> p -> n <> id +:+ ".meta.json" ->
       dc_fs c' !! at_ s (n +:+ ".tmp") = dc_fs c !! at_ s (n +:+ ".tmp")) /\
    (forall s n, (at_ s (n +:+ ".tmp") <> p -> dc_fs c !! at_ s (n +:+ ".tmp") = None) ->
       dc_fs c' !! at_ s (n +:+ ".tmp") = None) /\
    (forall s, dc_fs c' !! (root ++ [s]) = dc_fs c !! (root ++ [s])).
Proof.
  intros e Hi Hv Htmp Hsz -> HW. unfold publish. unroll.
  destruct (makeRoom_spec (de_pinned e) id size c Hi) as (Hi3 & Hk & Hpol & Hno & Hfree & Hl3).
  assert (Hp1 : policy (dc_lru (removeExistingD id c)) = policy (dc_lru c)).
  { rewrite (proj1 (removeExistingD_spec [] id c Hi)). apply removeExisting_policy. }
  rewrite Hp1. fold e. change (evictMainD size _) with (makeRoom (de_pinned e) id size c). set (c3 := makeRoom (de_pinned e) id size c) in *.
  assert (Htmp3 : dc_fs c3 !! at_ (shardOf id) (t +:+ ".tmp") = Some (File b)) by (rewrite (sk_tmp _ _ Hk); done).
  pose proof (ok_parent _ (di_disk _ _ Hi3) _ _ _ Htmp3) as Hdir.
  assert (Hb3 : dc_fs c3 !! at_ (shardOf id) (id +:+ ".bin") = None) by (apply eq_None_not_Some; intros [x Hx]; apply (Hfree x _ Hx); by left).
  assert (Hm3 : dc_fs c3 !! at_ (shardOf id) (id +:+ ".meta.json") = None) by (apply eq_None_not_Some; intros [x Hx]; apply (Hfree x _ Hx); by right).
  unfold sys at 1. rewrite (di_root _ _ (proj1 (proj2 (removeExistingD_spec [] id c Hi)))), (bodyPath_eq root id Hv), (metaPath_eq root id Hv).
  rewrite (rename_at _ _ _ _ _ Htmp3) by (rewrite ?Hb3; try done; intros Heq; symmetry in Heq; by apply bin_tmp in Heq).
  set (f1 := <[_ := File b]> _).
  set (f2 := <[at_ (shardOf id) ((id +:+ ".meta.json") +:+ ".tmp") := JFile (metaOf e)]> f1).
  set (f3 := <[at_ (shardOf id) (id +:+ ".meta.json") := JFile (metaOf e)]> (delete (at_ (shardOf id) ((id +:+ ".meta.json") +:+ ".tmp")) f2)).
  assert (Hpub : published id t b (metaOf e) (dc_fs c3) f1 f2 f3) by done.
  destruct (published_ok _ _ _ _ _ _ _ _ Hpub (di_disk _ _ Hi3) Hv Hdir Hm3 eq_refl Hsz HW) as (Hok1 & Hok2 & Hok3 & Hd1 & Hd2 & Hp3).
  assert (Hm1 : f1 !! at_ (shardOf id) (id +:+ ".meta.json") = None).
  { unfold f1. rewrite lookup_insert_ne by (intros [_ Heq]%at_inj; by apply bin_meta in Heq).
    rewrite lookup_delete_ne; [done|]. intros [_ Heq]%at_inj. symmetry in Heq. by apply meta_tmp in Heq. }
  rewrite (writeMeta_spec (setFs f1 c3) id e Hok1 Hd1 Hm1). eexists. split; [reflexivity|].
  match goal with |- dinv [] ?x /\ _ => set (c' := x) end.
  assert (HL : dc_lru c' = pushEntry (de_pinned e) e size (dc_lru c3)) by done.
  assert (HF : dc_fs c' = f3) by done. assert (HP : dc_past c' = f2 :: f1 :: dc_fs c3 :: dc_past c3) by done.
  assert (HR : dc_root c' = dc_root c3) by done. clearbody c'.
  assert (He : e = newEntryD now (policy (dc_lru c3)) id size opts) by (unfold e; by rewrite Hpol).
  split; [|split; [|split; [by rewrite HF|split; [|split; [|split]]]]].
  - rewrite He in *. by eapply published_dinv.
  - rewrite HL, Hl3. unfold placeEntry. cbn [e_blobID e_pinned e_size diskEntry_CacheEntry]. by destruct (de_pinned e).
  - intros id' Hne'. rewrite HL. replace (lookupEntry _ id') with (lookupEntry (dc_lru c3) id').
    2: { symmetry. etransitivity; [exact (pushEntry_lookup (dc_lru c3) e id' (di_wf _ _ Hi3))|]. by rewrite decide_False. }
    intros Hs. destruct (sk_kept _ _ Hk _ Hs) as [Hs' Hq]. split; [done|]. intros q Hofq.
    rewrite HF, (published_elsewhere _ _ _ _ _ _ _ _ id' q Hpub) by done. by apply Hq.
  - intros s n Hp Hn. rewrite HF, <- (sk_tmp _ _ Hk). apply (published_tmp _ _ _ _ _ _ _ _ _ _ Hpub Hp Hn).
  - intros s n Hp. rewrite HF. apply (published_no_tmp _ _ _ _ _ _ _ _ _ _ Hpub). intros Hq. rewrite (sk_tmp _ _ Hk). by apply Hp.
  - intros s. rewrite HF, <- (sk_shard _ _ Hk). apply (published_shard _ _ _ _ _ _ _ _ _ Hpub).
Qed.

(** ** [stage] *)
Definition tmpName (id rnd : string) : string := id +:+ ("." +:+ rnd).

Lemma tmpPath_name id rnd : valid id -> isDecimal rnd = true ->
  tmpPath root id rnd = at_ (shardOf id) (tmpName id rnd +:+ ".tmp").
Proof. intros Hv Hr. rewrite tmpPath_eq by done. unfold tmpName. by rewrite !sapp_assoc. Qed.

(** What [stage] leaves alone: the index, and every file there is. *)
Definition staging c c' : Prop :=
  dc_lru c' = dc_lru c /\ forall s n, is_Some (dc_fs c !! at_ s n) -> dc_fs c' !! at_ s n = dc_fs c !! at_ s n.

Lemma rm_new rest c c' s n : dinv rest c' -> (forall s' n', is_Some (dc_fs c !! at_ s' n') -> dc_fs c' !! at_ s' n' = dc_fs c !! at_ s' n') ->
  dc_fs c !! at_ s (n +:+ ".tmp") = None -> dc_lru c' = dc_lru c ->
  dinv rest (rm (at_ s (n +:+ ".tmp")) c') /\ staging c (rm (at_ s (n +:+ ".tmp")) c').
Proof.
  intros Hi Hk Hno Hl. split; [by apply dinv_rm_tmp|]. split; [by rewrite rm_lru|].
  intros s' n' Hs. rewrite (rm_at c') by apply (ok_tmp _ (di_disk _ _ Hi)).
  destruct (dc_fs c' !! at_ s (n +:+ ".tmp")); [|by apply Hk]. cbn. rewrite lookup_delete_ne; [by apply Hk|].
  intros Heq. rewrite <- Heq, Hno in Hs. by destruct Hs.
Qed.

Lemma stage_spec rest rnd id r c c' res : dinv rest c -> isDecimal rnd = true -> stage rnd id r c = (c', res) ->
  dinv rest c' /\ staging c c' /\
  match res with
  | Ok (p, size) => valid id /\ p = at_ (shardOf id) (tmpName id rnd +:+ ".tmp") /\ dc_fs c !! p = None /\
      exists rd, r = Some rd /\ rd_err rd = None /\ size = len (rd_bytes rd) /\
        dc_fs c' !! p = Some (File (rd_bytes rd)) /\
        (0 < MaxBytes (policy (dc_lru c)) -> size <= MaxBytes (policy (dc_lru c)))
  | Err _ => True
  end.
Proof.
  intros Hi Hrnd. unfold stage, wrap, sys. unroll.
  assert (Hrefl : dinv rest c /\ staging c c /\ True) by done.
  destruct (validateBlobID id) as [[]|e] eqn:Hv; [|by intros [= <- <-]].
  destruct r as [rd|]; [|by intros [= <- <-]].
  destruct (mkdirAll _ _) as [f1|e] eqn:Hm; [|by intros [= <- <-]].
  rewrite (di_root _ _ Hi) in *. destruct (disk_ok_mkdir _ _ _ (di_disk _ _ Hi) Hv Hm) as (Hok1 & Hdir1 & Hat1).
  assert (Hof1 : forall id q, ofId id q -> f1 !! q = dc_fs c !! q) by (intros id' q [->| ->]; apply Hat1).
  assert (Hi1 : dinv rest (setFs f1 c)) by (by apply dinv_setFs).
  rewrite (tmpPath_name _ _ Hv Hrnd). set (p := at_ _ _). cbn [dc_fs setFs upd eta_expand eta_DiskCache].
  unfold createTemp. destruct (f1 !! p) as [x|] eqn:Hp.
  { intros [= <- <-]. split; [done|]. split; [|done]. split; [done|]. intros s n _. apply Hat1. }
  assert (Hw1 : writeNode f1 p (File []) = Ok (<[p := File []]> f1)).
  { apply writeNode_at; [done|]. fold p. by rewrite Hp. }
  rewrite Hw1.
  set (f2 := <[p := File []]> f1).
  assert (Hdir2 : f2 !! (root ++ [shardOf id]) = Some Dir) by (unfold f2; by rewrite lookup_insert_ne by apply at_shard).
  assert (Hok2 : disk_ok f2) by by apply disk_ok_tmp.
  assert (Hi2 : dinv rest (setFs f2 (setFs f1 c))).
  { apply (dinv_tmp _ _ (shardOf id) (tmpName id rnd)); [done|done|]. intros q Hq. unfold f2. by rewrite lookup_insert_ne. }
  cbn [dc_fs setFs upd eta_expand eta_DiskCache].
  assert (Hw2 : writeNode f2 p (File (rd_bytes rd)) = Ok (<[p := File (rd_bytes rd)]> f2)).
  { apply writeNode_at; [done|]. fold p. unfold f2. by rewrite lookup_insert_eq. }
  rewrite Hw2.
  set (f3 := <[p := File (rd_bytes rd)]> f2).
  assert (Hok3 : disk_ok f3) by by apply disk_ok_tmp.
  assert (Hi3 : dinv rest (setFs f3 (setFs f2 (setFs f1 c)))).
  { apply (dinv_tmp _ _ (shardOf id) (tmpName id rnd)); [done|done|]. intros q Hq. unfold f3. by rewrite lookup_insert_ne. }
  assert (Hp0 : dc_fs c !! p = None) by (rewrite <- Hp; symmetry; apply Hat1).
  assert (Hk3 : forall s n, is_Some (dc_fs c !! at_ s n) -> f3 !! at_ s n = dc_fs c !! at_ s n).
  { intros s n Hs. unfold f3, f2. rewrite !lookup_insert_ne; [apply Hat1|..]; intros Heq; rewrite <- Heq, Hp0 in Hs; by destruct Hs. }
  destruct (rm_new rest c _ (shardOf id) (tmpName id rnd) Hi3 Hk3 Hp0 eq_refl) as [Hirm Hkrm]. fold p in Hirm, Hkrm.
  destruct (rd_err rd) as [e|] eqn:Herr; [by intros [= <- <-]|].
  destruct (_ && _) eqn:Hmb; [by intros [= <- <-]|]. intros [= <- <-].
  split; [done|]. split; [done|]. split; [done|]. split; [done|]. split; [done|].
  exists rd. split; [done|]. split; [done|]. split; [done|]. split; [apply lookup_insert_eq|].
  intros H0. apply andb_false_iff in Hmb as [Hmb|Hmb]; bool_hyps; cbn in *; lia.
Qed.

(** ** The calls of the interface *)
Definition othersKept (id : string) c c' : Prop :=
  forall id', id' <> id -> is_Some (lookupEntry (dc_lru c') id') ->
    is_Some (lookupEntry (dc_lru c) id') /\ forall q, ofId id' q -> dc_fs c' !! q = dc_fs c !! q.

Lemma staging_kept rest c c' id : dinv rest c -> staging c c' -> is_Some (lookupEntry (dc_lru c') id) ->
  is_Some (lookupEntry (dc_lru c) id) /\ forall q, ofId id q -> dc_fs c' !! q = dc_fs c !! q.
Proof.
  intros Hi [Hl Hk]. rewrite Hl. intros [e He]. split; [by eexists|].
  destruct (di_entry _ _ Hi _ _ He) as (b & m & [Hb Hm] & _). intros q [->| ->]; apply Hk; by eexists.
Qed.

Lemma Put_spec rnd now id r opts c c' res :
  dinv [] c -> isDecimal rnd = true ->
  (forall rd, r = Some rd -> W id (rd_bytes rd) (metaOf (newEntryD now (policy (dc_lru c)) id (len (rd_bytes rd)) opts))) ->
  Put rnd now id r opts c = (c', res) ->
  dinv [] c' /\ othersKept id c c' /\
  match res with
  | Ok _ => valid id /\ exists rd, r = Some rd /\ rd_err rd = None /\
      (0 < MaxBytes (policy (dc_lru c)) -> len (rd_bytes rd) <= MaxBytes (policy (dc_lru c))) /\
      let e := newEntryD now (policy (dc_lru c)) id (len (rd_bytes rd)) opts in
      dc_lru c' = placeEntry e (dc_lru c) /\ pair_at (dc_fs c') id (rd_bytes rd) (metaOf e)
  | Err _ => staging c c'
  end.
Proof.
  intros Hi Hrnd HW. unfold Put. unroll. destruct (stage rnd id r c) as [c1 r1] eqn:Hs.
  destruct (stage_spec _ _ _ _ _ _ _ Hi Hrnd Hs) as (Hi1 & Hk1 & Hr1).
  assert (Hot : othersKept id c c1) by (intros id' _; by eapply staging_kept).
  destruct r1 as [[p size]|e]; [|by intros [= <- <-]].
  destruct Hr1 as (Hv & Hp & _ & rd & -> & Herr & -> & Hf & Hmb). pose proof Hk1 as [Hl1 _].
  subst p. destruct (publish_spec now id (tmpName id rnd) (len (rd_bytes rd)) opts c1 _ (rd_bytes rd) Hi1 Hv Hf eq_refl eq_refl)
    as (c2 & Hpub & Hi2 & Hl2 & Hp2 & Hot2 & _ & _); [rewrite Hl1; by apply HW|].
  rewrite Hpub. intros [= <- <-]. rewrite Hl1 in *. split; [done|]. split.
  - intros id' Hne Hs2. destruct (Hot2 _ Hne Hs2) as [Hs1 Hq2]. rewrite <- Hl1 in Hs1.
    destruct (Hot _ Hne Hs1) as [Hs0 Hq1]. split; [done|]. intros q Hq. by rewrite Hq2, Hq1.
  - split; [done|]. exists rd. done.
Qed.

Lemma openFile_at f s n b : f !! at_ s n = Some (File b) -> openFile f (at_ s n) = Ok b.
Proof.
  intros Hb. unfold openFile, stat. destruct (at_ s n) eqn:Hp; [unfold at_ in Hp; by destruct root|]. by rewrite Hb.
Qed.

Lemma dinv_lru rest c l : dinv rest c -> lru_wf l -> policy l = policy (dc_lru c) ->
  (forall id, match lookupEntry l id with
              | Some e => exists e', lookupEntry (dc_lru c) id = Some e' /\ (forall m, matches (policy (dc_lru c)) m e' -> matches (policy (dc_lru c)) m e)
              | None => lookupEntry (dc_lru c) id = None
              end) -> dinv rest (c <| dc_lru := l |>).
Proof.
  intros [Hr Hwf Hok Hpast Hent Hfile Hrest] Hl Hp Hlk. split; cbn; try done.
  - intros id e He. specialize (Hlk id). rewrite He in Hlk. destruct Hlk as (e' & He' & Hm).
    destruct (Hent _ _ He') as (b & m & Hpa & Hma). exists b, m. split; [done|]. rewrite Hp. by apply Hm.
  - intros s n Hs. destruct (Hfile _ _ Hs) as [Hsh Hn]. split; [done|]. destruct Hn as [Hn|Hn]; [left|by right].
    specialize (Hlk n). destruct (lookupEntry l n); [by eexists|]. rewrite Hlk in Hn. by destruct Hn.
  - intros e He. destruct (Hrest _ He) as [Hno ?]. split; [|done]. specialize (Hlk (de_blobID e)).
    destruct (lookupEntry l _) as [e'|]; [|done]. destruct Hlk as (? & ? & _). congruence.
Qed.

Lemma Get_spec rest now id c c' res : dinv rest c -> Get now id c = (c', res) ->
  dinv rest c' /\ policy (dc_lru c') = policy (dc_lru c) /\
  (forall id' q, is_Some (lookupEntry (dc_lru c') id') -> ofId id' q -> dc_fs c' !! q = dc_fs c !! q) /\
  (forall id', id' <> id -> lookupEntry (dc_lru c') id' = lookupEntry (dc_lru c) id') /\
  match lookupEntry (dc_lru c) id with
  | None => dc_lru c' = dc_lru c \/ dc_lru c' = miss (dc_lru c)
  | Some e => if expiredD now e then lookupEntry (dc_lru c') id = None else lookupEntry (dc_lru c') id = Some (bumpD now e)
  end /\
  match res with
  | Ok (rd, md) => exists e b m, lookupEntry (dc_lru c) id = Some e /\ expiredD now e = false /\
      pair_at (dc_fs c) id b m /\ rd = bytes_NewReader b /\ md = metadataOfD (bumpD now e)
  | Err err => (valid id -> errors_Is err HcCacheMiss = true) /\
      forall e, lookupEntry (dc_lru c) id = Some e -> expiredD now e = true
  end.
Proof.
  intros Hi. pose proof (di_wf _ _ Hi) as Hwf. unfold Get.
  destruct (validateBlobID id) as [[]|e] eqn:Hv.
  2: { intros [= <- <-]. assert (Hno : lookupEntry (dc_lru c) id = None).
    { apply eq_None_not_Some. intros [e' He']. pose proof (di_valid _ _ _ _ Hi He') as Hv'. unfold valid in Hv'. congruence. }
    rewrite Hno. split; [done|]. split; [done|]. split; [done|]. split; [done|]. split; [by left|].
    split; [intros Hv'; unfold valid in Hv'; congruence|done]. }
  destruct (index (dc_lru c) !! id) as [el|] eqn:Hx.
  2: { intros [= <- <-]. pose proof Hx as Hno%(index_None_lookup _ _ Hwf). rewrite Hno.
    split; [apply dinv_lru; [done|by apply miss_wf|done|]|].
    - intros id'. change (lookupEntry (miss (dc_lru c)) id') with (lookupEntry (dc_lru c) id').
      destruct (lookupEntry (dc_lru c) id') as [e'|] eqn:He'; [by exists e'|done].
    - split; [done|]. split; [done|]. split; [done|]. split; [by right|]. by split. }
  pose proof Hx as (e & He & Hid)%(wf_index _ Hwf). rewrite He.
  assert (Hl : lookupEntry (dc_lru c) id = Some e) by (unfold lookupEntry; by rewrite Hx).
  rewrite Hl. cbn in Hid. destruct (expiredD now e) eqn:Hexp.
  - intros [= <- <-]. destruct (removeLockedD_spec _ _ _ _ Hi He) as (Hl1 & Hf1 & Hi1).
    pose proof (removeLockedD_shrunk _ _ _ _ Hi He) as [_ Hk _].
    assert (Hlk : forall id', lookupEntry (dc_lru (removeLockedD el c)) id' = if decide (id' = id) then None else lookupEntry (dc_lru c) id').
    { intros id'. rewrite Hl1, (removeLocked_lookup _ _ e _ Hwf He). cbn. by rewrite Hid. }
    split; [apply dinv_lru; [done|by apply miss_wf, (di_wf _ _ Hi1)|done|]|].
    + intros id'. change (lookupEntry (miss ?l) id') with (lookupEntry l id').
      destruct (lookupEntry _ id') as [e'|] eqn:He'; [by exists e'|done].
    + split; [cbn; by rewrite Hl1, (fr_policy _ _ (removeLocked_frame _ el Hwf))|].
      split; [intros id' q Hs Hq; by apply (Hk id')|].
      split; [intros id' Hne; change (lookupEntry (dc_lru (removeLockedD el c)) id' = lookupEntry (dc_lru c) id'); by rewrite Hlk, decide_False|].
      split; [change (lookupEntry (dc_lru (removeLockedD el c)) id = None); by rewrite Hlk, decide_True|].
      split; [done|]. by intros e' [= <-].
  - destruct (di_entry _ _ Hi _ _ Hl) as (b & m & Hp & Hm). pose proof Hp as [Hb _].
    assert (Ho : openFile (dc_fs c) (bodyPath (dc_root c) id) = Ok b).
    { rewrite (di_root _ _ Hi), (bodyPath_eq root id Hv). by apply openFile_at. }
    match goal with |- context [openFile ?a ?p] =>
      change (openFile a p) with (openFile (dc_fs c) (bodyPath (dc_root c) id)) end.
    rewrite Ho. intros [= <- <-].
    assert (Hlk : forall id', lookupEntry (touch el (bumpD now) (dc_lru c)) id' = if decide (id' = id) then Some (bumpD now e) else lookupEntry (dc_lru c) id').
    { intros id'. rewrite (touch_lookup _ _ e _ _ Hwf) by done. cbn. by rewrite Hid. }
    assert (Hpol : policy (touch el (bumpD now) (dc_lru c)) = policy (dc_lru c)).
    { unfold touch. rewrite He. by destruct (e_pinned e). }
    split; [apply dinv_lru; [done|by apply touch_wf|done|]|].
    + intros id'. rewrite Hlk. case_decide; [subst; by exists e|].
      destruct (lookupEntry (dc_lru c) id') as [e'|] eqn:He'; [by exists e'|done].
    + split; [done|]. split; [done|]. split; [intros id' Hne; cbn [dc_lru upd eta_expand eta_DiskCache]; by rewrite Hlk, decide_False|].
      split; [cbn [dc_lru upd eta_expand eta_DiskCache]; by rewrite Hlk, decide_True|]. by exists e, b, m.
Qed.

(** ** Warm start: [readShards] *)
Lemma rm_scan c s n : disk_ok (dc_fs c) -> dc_fs c !! at_ s n <> Some Dir ->
  let c' := rm (at_ s n) c in
  dc_lru c' = dc_lru c /\ dc_root c' = dc_root c /\ dc_fs c' = delete (at_ s n) (dc_fs c) /\ disk_ok (dc_fs c') /\
  (Forall disk_ok (dc_past c) -> Forall disk_ok (dc_past c')).
Proof.
  intros Hok Hd. cbn zeta. rewrite (rm_at c) by done. destruct (dc_fs c !! at_ s n) eqn:Hx; cbn.
  - split; [done|]. split; [done|]. split; [done|]. split; [by apply disk_ok_delete|]. intros. by apply Forall_cons_2.
  - by rewrite delete_id.
Qed.

(** A step of the scan: only files disappear, of shard [s] and satisfying [P]. *)
Record scanned (s : string) (P : string -> Prop) c c' : Prop := {
  sc_lru : dc_lru c' = dc_lru c;
  sc_root : dc_root c' = dc_root c;
  sc_disk : disk_ok (dc_fs c');
  sc_past : Forall disk_ok (dc_past c) -> Forall disk_ok (dc_past c');
  sc_fs : forall q, dc_fs c' !! q = dc_fs c !! q \/ (exists n, q = at_ s n /\ P n /\ dc_fs c' !! q = None)
}.

Lemma scanned_refl s P c : disk_ok (dc_fs c) -> scanned s P c c.
Proof. intros Hok. split; try done. intros q. by left. Qed.

Lemma scanned_trans s (P Q R : string -> Prop) c1 c2 c3 : scanned s P c1 c2 -> scanned s Q c2 c3 ->
  (forall n, P n -> R n) -> (forall n, Q n -> R n) -> scanned s R c1 c3.
Proof.
  intros [L1 R1 D1 P1 F1] [L2 R2 D2 P2 F2] HP HQ. split; [congruence|congruence|done|auto|]. intros q.
  destruct (F2 q) as [->|(n & -> & Hn & Hx)]; [|right; exists n; auto].
  destruct (F1 q) as [->|(n & -> & Hn & Hx)]; [by left|right; exists n; auto].
Qed.

Lemma scanned_rm s (P : string -> Prop) c n : disk_ok (dc_fs c) -> dc_fs c !! at_ s n <> Some Dir -> P n -> scanned s P c (rm (at_ s n) c).
Proof.
  intros Hok Hd Hn. destruct (rm_scan c s n Hok Hd) as (Hl & Hr & Hf & Hok' & Hp). split; try done.
  intros q. rewrite Hf. destruct (decide (q = at_ s n)) as [->|Hne].
  - right. exists n. by rewrite lookup_delete_eq.
  - left. by rewrite lookup_delete_ne.
Qed.

(** Names of one kind in a directory listing. *)
Definition named (suf : string) (files : list (string * node metaFile)) : list string :=
  omap (fun x : string * node metaFile => if HasSuffix x.1 suf then Some (trimSuffix x.1 suf) else None) files.

Lemma elem_of_named suf files n : n ∈ named suf files <-> n +:+ suf ∈ map fst files.
Proof.
  unfold named. rewrite list_elem_of_omap, list_elem_of_fmap. split.
  - intros (x & Hx & Heq). destruct (HasSuffix x.1 suf) eqn:Hs; [|done]. injection Heq as <-.
    exists x. split; [symmetry; by apply HasSuffix_split|done].
  - intros (x & Heq & Hx). exists x. split; [done|]. by rewrite <- Heq, HasSuffix_app, trimSuffix_app.
Qed.

Lemma NoDup_named suf files : NoDup (map fst files) -> NoDup (named suf files).
Proof.
  unfold named. induction files as [|x files IH]; [constructor|]. cbn. intros [Hx Hnd]%NoDup_cons.
  destruct (HasSuffix x.1 suf) eqn:Hs; [|by apply IH]. constructor; [|by apply IH].
  intros Hin. apply elem_of_named in Hin. apply Hx. by rewrite <- (HasSuffix_split _ _ Hs) in Hin.
Qed.

Lemma suffix_bin_meta s : HasSuffix s ".bin" = true -> HasSuffix s ".meta.json" = false.
Proof.
  intros Hb. destruct (HasSuffix s ".meta.json") eqn:Hm; [|done]. exfalso. apply HasSuffix_split in Hb, Hm.
  rewrite Hb in Hm at 1. by apply bin_meta in Hm.
Qed.

Lemma scanFiles_spec s files B M c c' B' M' : disk_ok (dc_fs c) ->
  scanFiles (root ++ [s]) files B M c = (c', (B', M')) ->
  scanned s (fun n => exists t, n = t +:+ ".tmp") c c' /\
  (forall n, n ∈ B' <-> n ∈ B \/ n ∈ named ".bin" files) /\ M' = M ++ named ".meta.json" files.
Proof.
  revert B M c. induction files as [|[name nd] files IH]; intros B M c Hok; cbn [scanFiles].
  { intros [= <- <- <-]. split; [by apply scanned_refl|]. split; [|by rewrite app_nil_r].
    intros n. split; [by left|]. intros [?|Hn]; [done|]. by apply elem_of_nil in Hn. }
  unfold named. cbn [omap list_omap fst]. fold (named ".bin" files). fold (named ".meta.json" files).
  destruct (HasSuffix name ".bin") eqn:Hb.
  { rewrite (suffix_bin_meta _ Hb). intros Hs. destruct (IH _ _ _ Hok Hs) as (H1 & H2 & H3). split; [done|]. split; [|done].
    intros n. rewrite H2. set_solver. }
  destruct (HasSuffix name ".meta.json") eqn:Hm.
  { intros Hs. destruct (IH _ _ _ Hok Hs) as (H1 & H2 & H3). split; [done|]. split; [done|]. rewrite H3, <- app_assoc. done. }
  destruct (HasSuffix name ".tmp") eqn:Ht; [|by apply IH]. rewrite <- at_split.
  apply HasSuffix_split in Ht. rewrite Ht.
  assert (Hrm : scanned s (fun n => exists t, n = t +:+ ".tmp") c (rm (at_ s (trimSuffix name ".tmp" +:+ ".tmp")) c)).
  { apply scanned_rm; [done|by apply ok_tmp|by eexists]. }
  intros Hs. destruct (IH _ _ _ (sc_disk _ _ _ _ Hrm) Hs) as (H1 & H2 & H3).
  split; [|by split]. by eapply scanned_trans.
Qed.

Lemma readJ_at f s n m : f !! at_ s n = Some (JFile m) -> readJ f (at_ s n) = Ok m.
Proof.
  intros Hb. unfold readJ, stat. destruct (at_ s n) eqn:Hp; [unfold at_ in Hp; by destruct root|]. by rewrite Hb.
Qed.

Lemma loadMetas_spec s M B out c c' B' out' : disk_ok (dc_fs c) -> NoDup M ->
  (forall n, n ∈ M -> is_Some (dc_fs c !! at_ s (n +:+ ".meta.json"))) ->
  (forall n, n ∈ B -> is_Some (dc_fs c !! at_ s (n +:+ ".bin"))) ->
  loadMetas (root ++ [s]) M B out c = (c', (B', out')) ->
  scanned s (fun n => exists t, n = t +:+ ".meta.json" /\ t ∈ M /\ t ∉ B) c c' /\
  (forall n, n ∈ M -> n ∉ B -> dc_fs c' !! at_ s (n +:+ ".meta.json") = None) /\
  (forall n, n ∈ B' <-> n ∈ B /\ n ∉ M) /\
  exists new, out' = out ++ new /\ map de_blobID new = filter (fun n => n ∈ B) M /\
    forall e, e ∈ new -> exists b m, dc_fs c !! at_ s (de_blobID e +:+ ".bin") = Some (File b) /\
      dc_fs c !! at_ s (de_blobID e +:+ ".meta.json") = Some (JFile m) /\ e = loaded m.
Proof.
  revert B out c. induction M as [|n M IH]; intros B out c Hok Hnd HM HB; cbn [loadMetas].
  { intros [= <- <- <-]. split; [by apply scanned_refl|]. split; [by intros n Hn%elem_of_nil|]. split; [set_solver +|].
    exists []. rewrite app_nil_r. split; [done|]. split; [done|]. by intros e He%elem_of_nil. }
  apply NoDup_cons in Hnd as [Hn Hnd]. rewrite <- !at_split.
  assert (HM' : forall n', n' ∈ M -> is_Some (dc_fs c !! at_ s (n' +:+ ".meta.json"))) by (intros n' Hn'; apply HM; by apply list_elem_of_further).
  destruct (HM n (list_elem_of_here _ _)) as [x Hx]. destruct (ok_meta _ Hok _ _ _ Hx) as [m ->].
  case_bool_decide as HnB.
  - destruct (HB n HnB) as [y Hy]. destruct (ok_body _ Hok _ _ _ Hy) as [b ->].
    destruct (ok_pair _ Hok _ _ _ _ Hy Hx) as (Hv & Hsh & Hmid & _).
    unfold loadMeta. rewrite (readJ_at _ _ _ _ Hx). fold (loaded m).
    intros Hs. destruct (IH (B ∖ {[n]}) _ _ Hok Hnd HM' ltac:(intros n' Hn'; apply HB; set_solver +Hn') Hs)
      as (H1 & H2 & H3 & new & -> & H4 & H5).
    split; [|split; [|split]].
    + eapply scanned_trans; [apply (scanned_refl s (fun _ => False)); done|exact H1|done|].
      intros t (t' & -> & Ht & HtB). exists t'. split; [done|]. split; [by apply list_elem_of_further|]. intros HtB'. apply HtB.
      apply elem_of_difference. split; [done|]. intros ->%elem_of_singleton. done.
    + intros n' [->|Hn']%elem_of_cons HnB'; [done|]. apply H2; [done|]. set_solver +HnB'.
    + intros n'. rewrite H3. set_solver +Hn.
    + exists (loaded m :: new). split; [by rewrite <- app_assoc|]. split.
      * cbn [map]. rewrite filter_cons_True by done. f_equal; [done|]. rewrite H4. apply list_filter_ext_in.
        intros n' Hn'. split; [set_solver +|]. intros HB'. apply elem_of_difference. split; [done|].
        intros ->%elem_of_singleton. done.
      * intros e [->|He]%elem_of_cons; [|by apply H5]. exists b, m. cbn [loaded de_blobID]. by rewrite Hmid.
  - assert (Hd : dc_fs c !! at_ s (n +:+ ".meta.json") <> Some Dir) by (by rewrite Hx).
    destruct (rm_scan c _ _ Hok Hd) as (_ & _ & Hf & Hok1 & _).
    pose proof (scanned_rm s (fun k => exists t, k = t +:+ ".meta.json" /\ t ∈ n :: M /\ t ∉ B) c _ Hok Hd) as Hrm.
    set (c1 := rm _ c) in *. intros Hs.
    assert (Hot : forall k, k <> n +:+ ".meta.json" -> dc_fs c1 !! at_ s k = dc_fs c !! at_ s k).
    { intros k Hk. rewrite Hf, lookup_delete_ne; [done|]. by intros [_ ?]%at_inj. }
    assert (HM1 : forall n', n' ∈ M -> is_Some (dc_fs c1 !! at_ s (n' +:+ ".meta.json"))).
    { intros n' Hn'. rewrite Hot; [by apply HM'|]. intros ->%sapp_inj_r. done. }
    assert (HB1 : forall n', n' ∈ B -> is_Some (dc_fs c1 !! at_ s (n' +:+ ".bin"))).
    { intros n' Hn'. rewrite Hot by apply bin_meta. by apply HB. }
    destruct (IH B _ _ Hok1 Hnd HM1 HB1 Hs) as (H1 & H2 & H3 & new & -> & H4 & H5).
    split; [|split; [|split]].
    + eapply scanned_trans; [apply Hrm; exists n; split; [done|]; split; [apply list_elem_of_here|done]|exact H1|done|].
      intros t (t' & -> & Ht & HtB). exists t'. split; [done|]. split; [by apply list_elem_of_further|done].
    + intros n' [->|Hn']%elem_of_cons HnB'; [|by apply H2].
      destruct (sc_fs _ _ _ _ H1 (at_ s (n +:+ ".meta.json"))) as [->|(? & _ & _ & ?)]; [|done].
      by rewrite Hf, lookup_delete_eq.
    + intros n'. rewrite H3. set_solver +HnB.
    + exists new. split; [done|]. split; [by rewrite filter_cons_False|].
      intros e He. destruct (H5 e He) as (b & m' & Hb & Hm & ->). exists b, m'. rewrite Hf in Hb, Hm.
      apply lookup_delete_Some in Hb as [_ Hb], Hm as [_ Hm]. done.
Qed.

Lemma orphans_spec s l c : disk_ok (dc_fs c) ->
  let c' := foldl (fun c orphan => rm ((root ++ [s]) ++ [orphan +:+ ".bin"]) c) c l in
  scanned s (fun n => exists t, n = t +:+ ".bin" /\ t ∈ l) c c' /\
  forall n, n ∈ l -> dc_fs c' !! at_ s (n +:+ ".bin") = None.
Proof.
  revert c. induction l as [|o l IH]; intros c Hok; cbn [foldl]; [split; [by apply scanned_refl|by intros n Hn%elem_of_nil]|].
  rewrite <- at_split.
  assert (Hd : dc_fs c !! at_ s (o +:+ ".bin") <> Some Dir) by (intros Hd; by destruct (ok_body _ Hok _ _ _ Hd)).
  destruct (rm_scan c _ _ Hok Hd) as (_ & _ & Hf & Hok1 & _). destruct (IH _ Hok1) as [H1 H2]. split.
  - eapply scanned_trans; [apply (scanned_rm s (fun k => exists t, k = t +:+ ".bin" /\ t ∈ o :: l)); [done|done|]|exact H1|done|].
    + exists o. split; [done|set_solver].
    + intros n (t & -> & Ht). exists t. split; [done|set_solver].
  - intros n [->|Hn]%elem_of_cons; [|by apply H2].
    destruct (sc_fs _ _ _ _ H1 (at_ s (o +:+ ".bin"))) as [->|(? & _ & _ & ?)]; [|done].
    by rewrite Hf, lookup_delete_eq.
Qed.

Lemma readDir_shard f s : f !! (root ++ [s]) = Some Dir ->
  readDir f (root ++ [s]) = Ok (children f (root ++ [s])).
Proof. intros Hs. unfold readDir, stat. destruct (root ++ [s]) as [|x p]; [done|]. by rewrite Hs. Qed.

Lemma children_names f p : NoDup (map fst (children f p)).
Proof.
  unfold children. rewrite sort_Slice_perm.
  assert (Hnd : NoDup (map fst (map_to_list f))) by apply NoDup_fst_map_to_list. revert Hnd.
  induction (map_to_list f) as [|[q n] l IH]; [constructor|]. cbn [map fst]. intros [Hq Hnd]%NoDup_cons. specialize (IH Hnd).
  cbn [omap list_omap fst snd]. destruct (childOf p q) as [x|] eqn:Hx; [|exact IH]. cbn. constructor; [|exact IH].
  intros ([y n'] & -> & ([q' n2] & Hin & Hc)%list_elem_of_omap)%list_elem_of_fmap. cbn in Hc.
  destruct (childOf p q') as [z|] eqn:Hz; [|done]. injection Hc as -> ->. apply Hq.
  apply childOf_Some in Hx as ->, Hz as ->. apply list_elem_of_fmap. by exists (p ++ [y], n').
Qed.

(** One shard: the entries found are the complete pairs, each once, and
    nothing else is left. *)
Record shardRead (s : string) (new : list diskEntry) c c' : Prop := {
  sr_scanned : scanned s (fun _ => True) c c';
  sr_nodup : NoDup (map de_blobID new);
  sr_found : forall e, e ∈ new -> exists b m, dc_fs c !! at_ s (de_blobID e +:+ ".bin") = Some (File b) /\
    dc_fs c !! at_ s (de_blobID e +:+ ".meta.json") = Some (JFile m) /\ e = loaded m;
  sr_complete : forall n b m, dc_fs c !! at_ s (n +:+ ".bin") = Some (File b) ->
    dc_fs c !! at_ s (n +:+ ".meta.json") = Some (JFile m) -> n ∈ map de_blobID new;
  sr_kept : forall n, n ∈ map de_blobID new -> dc_fs c' !! at_ s (n +:+ ".bin") = dc_fs c !! at_ s (n +:+ ".bin") /\
    dc_fs c' !! at_ s (n +:+ ".meta.json") = dc_fs c !! at_ s (n +:+ ".meta.json");
  sr_clean : forall n, is_Some (dc_fs c' !! at_ s (n +:+ ".bin")) \/ is_Some (dc_fs c' !! at_ s (n +:+ ".meta.json")) ->
    n ∈ map de_blobID new
}.

Lemma scanned_keeps s P c c' k : scanned s P c c' -> ~ P k -> dc_fs c' !! at_ s k = dc_fs c !! at_ s k.
Proof. intros Hs Hk. destruct (sc_fs _ _ _ _ Hs (at_ s k)) as [?|(k' & [_ ->]%at_inj & ? & _)]; done. Qed.
Lemma scanned_back s P c c' k : scanned s P c c' -> is_Some (dc_fs c' !! at_ s k) -> is_Some (dc_fs c !! at_ s k).
Proof. intros Hs Hk. destruct (sc_fs _ _ _ _ Hs (at_ s k)) as [<-|(_ & _ & _ & Hn)]; [done|]. rewrite Hn in Hk. by destruct Hk. Qed.

Lemma readShard_spec order s out c : disk_ok (dc_fs c) -> dc_fs c !! (root ++ [s]) = Some Dir ->
  (forall l, order l ≡ₚ l) ->
  exists c' new, readShard order (root ++ [s]) out c = (c', Ok (out ++ new)) /\ shardRead s new c c'.
Proof.
  intros Hok Hdir Hord. unfold readShard. rewrite (readDir_shard _ _ Hdir). set (files := children _ _).
  destruct (scanFiles (root ++ [s]) files ∅ [] c) as [c1 [B M]] eqn:Hscan.
  destruct (scanFiles_spec _ _ _ _ _ _ _ _ Hok Hscan) as (S1 & HB & HM). cbn [app] in HM.
  assert (Hfile : forall n suf, n ∈ named suf files <-> is_Some (dc_fs c !! at_ s (n +:+ suf))).
  { intros n suf. rewrite elem_of_named, list_elem_of_fmap. unfold files. rewrite (at_split root s). split.
    - intros ([x nd] & -> & Hx%elem_of_children). by eexists.
    - intros [nd Hx]. exists (n +:+ suf, nd). split; [done|]. by apply elem_of_children. }
  assert (Hk1 : forall n, dc_fs c1 !! at_ s (n +:+ ".bin") = dc_fs c !! at_ s (n +:+ ".bin") /\
                          dc_fs c1 !! at_ s (n +:+ ".meta.json") = dc_fs c !! at_ s (n +:+ ".meta.json")).
  { intros n. split; apply (scanned_keeps _ _ _ _ _ S1); intros [t Ht]; [by apply bin_tmp in Ht|by apply meta_tmp in Ht]. }
  destruct (loadMetas (root ++ [s]) (order M) B out c1) as [c2 [B2 out2]] eqn:Hload.
  assert (HndM : NoDup (order M)) by (rewrite Hord, HM; apply NoDup_named, children_names).
  assert (HM1 : forall n, n ∈ order M <-> is_Some (dc_fs c !! at_ s (n +:+ ".meta.json"))).
  { intros n. rewrite Hord, HM. apply Hfile. }
  assert (HB1 : forall n, n ∈ B <-> is_Some (dc_fs c !! at_ s (n +:+ ".bin"))).
  { intros n. rewrite HB, <- Hfile. set_solver. }
  destruct (loadMetas_spec s (order M) B out c1 c2 B2 out2 (sc_disk _ _ _ _ S1) HndM) as (S2 & Hgone & HB2 & new & -> & Hids & Hfound).
  { intros n Hn. rewrite (proj2 (Hk1 n)). by apply HM1. }
  { intros n Hn. rewrite (proj1 (Hk1 n)). by apply HB1. }
  { exact Hload. }
  destruct (orphans_spec s (elements B2) c2 (sc_disk _ _ _ _ S2)) as [S3 Horph].
  eexists _, new. split; [reflexivity|]. set (c3 := foldl _ _ _) in *.
  assert (Hin : forall n, n ∈ map de_blobID new <-> is_Some (dc_fs c !! at_ s (n +:+ ".bin")) /\ is_Some (dc_fs c !! at_ s (n +:+ ".meta.json"))).
  { intros n. rewrite Hids, list_elem_of_filter, HB1, HM1. done. }
  split.
  - eapply (scanned_trans s _ _ (fun _ => True)); [eapply (scanned_trans s _ _ (fun _ => True)); [exact S1|exact S2|done|done]|exact S3|done|done].
  - rewrite Hids. by apply NoDup_filter.
  - intros e He. destruct (Hfound e He) as (b & m & Hb & Hm & ->). exists b, m. rewrite (proj1 (Hk1 _)) in Hb. by rewrite (proj2 (Hk1 _)) in Hm.
  - intros n b m Hb Hm. apply Hin. split; by eexists.
  - intros n Hn%Hin. destruct Hn as [Hnb Hnm]. split.
    + rewrite <- (proj1 (Hk1 n)), (scanned_keeps _ _ _ _ _ S3), (scanned_keeps _ _ _ _ _ S2); [done|by intros (t & Ht%bin_meta & _)|].
      intros (t & Ht%sapp_inj_r & Hin3). subst t. apply elem_of_elements, HB2 in Hin3 as [_ Hin3]. by apply Hin3, HM1.
    + rewrite <- (proj2 (Hk1 n)), (scanned_keeps _ _ _ _ _ S3), (scanned_keeps _ _ _ _ _ S2); [done| |].
      * intros (t & Ht%sapp_inj_r & _ & Hin3). subst t. by apply Hin3, HB1.
      * intros (t & Ht & _). symmetry in Ht. by apply bin_meta in Ht.
  - intros n Hs. apply Hin. destruct Hs as [Hs|Hs]; pose proof (scanned_back _ _ _ _ _ S3 Hs) as Hs2; pose proof (scanned_back _ _ _ _ _ S2 Hs2) as Hs1.
    + rewrite (proj1 (Hk1 n)) in Hs1. split; [done|]. destruct (decide (n ∈ order M)) as [Hn|Hn]; [by apply HM1|exfalso].
      rewrite Horph in Hs; [by destruct Hs|]. apply elem_of_elements, HB2. split; [by apply HB1|done].
    + rewrite (proj2 (Hk1 n)) in Hs1. split; [|done]. destruct (decide (n ∈ B)) as [Hn|Hn]; [by apply HB1|exfalso].
      rewrite Hgone in Hs2; [by destruct Hs2|by apply HM1|done].
Qed.

(** Some shards: the complete pairs below them, and nothing else, are left. *)
Record shardsRead (S : string -> Prop) (new : list diskEntry) c c' : Prop := {
  lr_lru : dc_lru c' = dc_lru c;
  lr_root : dc_root c' = dc_root c;
  lr_disk : disk_ok (dc_fs c');
  lr_past : Forall disk_ok (dc_past c) -> Forall disk_ok (dc_past c');
  lr_dirs : forall s, dc_fs c' !! (root ++ [s]) = dc_fs c !! (root ++ [s]);
  lr_other : forall s n, ~ S s -> dc_fs c' !! at_ s n = dc_fs c !! at_ s n;
  lr_nodup : NoDup (map de_blobID new);
  lr_found : forall e, e ∈ new -> S (shardOf (de_blobID e)) /\
    exists b m, pair_at (dc_fs c) (de_blobID e) b m /\ e = loaded m;
  lr_complete : forall n b m, S (shardOf n) -> pair_at (dc_fs c) n b m -> n ∈ map de_blobID new;
  lr_kept : forall n q, n ∈ map de_blobID new -> ofId n q -> dc_fs c' !! q = dc_fs c !! q;
  lr_clean : forall s n, S s -> is_Some (dc_fs c' !! at_ s (n +:+ ".bin")) \/ is_Some (dc_fs c' !! at_ s (n +:+ ".meta.json")) ->
    n ∈ map de_blobID new /\ shardOf n = s
}.

Lemma scanned_other s P c c' s' n : scanned s P c c' -> s' <> s -> dc_fs c' !! at_ s' n = dc_fs c !! at_ s' n.
Proof. intros Hs Hne. destruct (sc_fs _ _ _ _ Hs (at_ s' n)) as [?|(k & [? _]%at_inj & _)]; done. Qed.

Lemma scanned_dirs s P c c' s' : scanned s P c c' -> dc_fs c' !! (root ++ [s']) = dc_fs c !! (root ++ [s']).
Proof. intros Hs. destruct (sc_fs _ _ _ _ Hs (root ++ [s'])) as [?|(k & Hk & _)]; [done|]. symmetry in Hk. by apply at_shard in Hk. Qed.

Lemma shardRead_ids s new c c' n : disk_ok (dc_fs c) -> shardRead s new c c' -> n ∈ map de_blobID new ->
  shardOf n = s /\ exists e b m, e ∈ new /\ de_blobID e = n /\ pair_at (dc_fs c) n b m /\ e = loaded m.
Proof.
  intros Hok Hsr (e & -> & He)%list_elem_of_fmap. destruct (sr_found _ _ _ _ Hsr e He) as (b & m & Hb & Hm & Heq).
  destruct (ok_pair _ Hok _ _ _ _ Hb Hm) as (_ & Hsh & _). split; [done|]. exists e, b, m.
  split; [done|]. split; [done|]. split; [|done]. unfold pair_at. by rewrite Hsh.
Qed.

(** A shard and then the others. *)
Lemma shardsRead_cons name (L : list (string * node metaFile)) new1 new2 c c1 c' : disk_ok (dc_fs c) -> shardRead name new1 c c1 ->
  shardsRead (fun s => (s, Dir) ∈ L) new2 c1 c' ->
  (forall s, (s, Dir) ∈ L -> s <> name) -> shardsRead (fun s => (s, Dir) ∈ (name, Dir) :: L) (new1 ++ new2) c c'.
Proof.
  intros Hok Hsr [Ll Lr Ld Lp Ldirs Lo Ln Lf Lc Lk Lcl] HL. pose proof (sr_scanned _ _ _ _ Hsr) as Hs1.
  assert (Hids1 : forall n, n ∈ map de_blobID new1 -> shardOf n = name /\
    exists e b m, e ∈ new1 /\ de_blobID e = n /\ pair_at (dc_fs c) n b m /\ e = loaded m) by (intros n; by eapply shardRead_ids).
  assert (Hids2 : forall n, n ∈ map de_blobID new2 -> (shardOf n, Dir) ∈ L).
  { intros n (e & -> & He)%list_elem_of_fmap. by apply (Lf e). }
  assert (Hof1 : forall n q, shardOf n <> name -> ofId n q -> dc_fs c1 !! q = dc_fs c !! q).
  { intros n q Hn [->| ->]; by apply (scanned_other _ _ _ _ _ _ Hs1). }
  split.
  - by rewrite Ll, (sc_lru _ _ _ _ Hs1).
  - by rewrite Lr, (sc_root _ _ _ _ Hs1).
  - done.
  - intros Hp. by apply Lp, (sc_past _ _ _ _ Hs1).
  - intros s. by rewrite Ldirs, (scanned_dirs _ _ _ _ _ Hs1).
  - intros s n Hs. rewrite Lo by (intros Hs'; apply Hs; set_solver). apply (scanned_other _ _ _ _ _ _ Hs1).
    intros ->. apply Hs. set_solver.
  - rewrite map_app. apply NoDup_app. split; [by apply (sr_nodup _ _ _ _ Hsr)|]. split; [|done].
    intros n Hn1 Hn2%Hids2. apply Hids1 in Hn1 as [Hn1 _]. by apply (HL _ Hn2).
  - intros e [He|He]%elem_of_app.
    + destruct (Hids1 (de_blobID e)) as (Hsh & e' & b & m & He' & Hid & Hp & ->); [apply list_elem_of_fmap; by exists e|].
      rewrite Hsh. split; [set_solver|]. destruct (sr_found _ _ _ _ Hsr e He) as (b2 & m2 & Hb2 & Hm2 & ->).
      exists b2, m2. split; [|done]. unfold pair_at. by rewrite Hsh.
    + destruct (Lf e He) as (Hsh & b & m & Hp & ->). split; [set_solver|]. exists b, m. split; [|done].
      eapply pair_at_ext; [|exact Hp]. intros q Hq. symmetry. by apply (Hof1 (de_blobID (loaded m))); [apply HL|].
  - intros n b m Hn Hp. rewrite map_app. apply elem_of_app. apply elem_of_cons in Hn as [[= <-]|Hn].
    + left. destruct Hp as [Hb Hm]. by apply (sr_complete _ _ _ _ Hsr n b m).
    + right. apply (Lc n b m Hn). eapply pair_at_ext; [|exact Hp]. intros q Hq. by apply (Hof1 n); [apply HL|].
  - intros n q Hn Hq. rewrite map_app in Hn. apply elem_of_app in Hn as [Hn|Hn].
    + destruct (Hids1 n Hn) as [Hsh _]. destruct (sr_kept _ _ _ _ Hsr n Hn) as [Kb Km].
      assert (Hno : (name, Dir) ∉ L) by (intros Hx; by apply (HL name Hx)).
      destruct Hq as [->| ->]; rewrite Lo by (by rewrite Hsh); by rewrite Hsh.
    + rewrite (Lk n q Hn Hq). apply (Hof1 n); [by apply HL, Hids2|done].
  - intros s n [[= ->]|Hs]%elem_of_cons Hx.
    + assert (Hno : (name, Dir) ∉ L) by (intros Hx'; by apply (HL name Hx')). rewrite !Lo in Hx by done.
      pose proof (sr_clean _ _ _ _ Hsr n Hx) as Hn. split; [rewrite map_app; apply elem_of_app; by left|by apply Hids1].
    + destruct (Lcl s n Hs Hx) as [Hn Hsh]. split; [rewrite map_app; apply elem_of_app; by right|done].
Qed.

Lemma readShardList_spec order L out c : disk_ok (dc_fs c) -> dc_root c = root -> (forall l, order l ≡ₚ l) -> NoDup (map fst L) ->
  (forall s, (s, Dir) ∈ L -> dc_fs c !! (root ++ [s]) = Some Dir) ->
  exists c' new, readShardList order L out c = (c', Ok (out ++ new)) /\ shardsRead (fun s => (s, Dir) ∈ L) new c c'.
Proof.
  intros Hok Hr Hord. revert out c Hok Hr. induction L as [|[name nd] L IH]; intros out c Hok Hr Hnd Hdirs.
  { exists c, []. cbn. rewrite app_nil_r. split; [done|]. split; try done; cbn.
    - by intros e He%elem_of_nil.
    - by intros n b m Hn%elem_of_nil.
    - by intros s n Hn%elem_of_nil. }
  cbn [map fst] in Hnd. apply NoDup_cons in Hnd as [Hname Hnd].
  assert (HL : forall s, (s, Dir) ∈ L -> s <> name).
  { intros s Hs ->. apply Hname, list_elem_of_fmap. by exists (name, Dir). }
  assert (HdL : forall s, (s, Dir) ∈ L -> dc_fs c !! (root ++ [s]) = Some Dir) by (intros s Hs; apply Hdirs; set_solver).
  assert (Hskip : nd <> Dir -> readShardList order ((name, nd) :: L) out c = readShardList order L out c /\
            forall s, (s, Dir) ∈ (name, nd) :: L <-> (s, Dir) ∈ L).
  { intros Hne. split; [by destruct nd|]. intros s. split; [|set_solver]. by intros [[= _ <-]|]%elem_of_cons. }
  assert (Hdir : nd = Dir \/ nd <> Dir) by (destruct nd; [by left|by right|by right]).
  destruct Hdir as [->|Hne].
  2: { destruct (Hskip Hne) as [-> Hiff]. destruct (IH out c Hok Hr Hnd HdL) as (c' & new & Hl & []).
    exists c', new. split; [done|]. split; try done.
    - intros s n Hs. apply lr_other0. by rewrite <- Hiff.
    - intros e He. rewrite Hiff. by apply lr_found0.
    - intros n b m. rewrite Hiff. apply lr_complete0.
    - intros s n. rewrite Hiff. apply lr_clean0. }
  clear Hskip. cbn [readShardList]. unfold gets. unroll. rewrite Hr.
  destruct (readShard_spec order name out c Hok (Hdirs name ltac:(set_solver)) Hord) as (c1 & new1 & -> & Hsr).
  pose proof (sr_scanned _ _ _ _ Hsr) as Hs1.
  destruct (IH (out ++ new1) c1 (sc_disk _ _ _ _ Hs1)) as (c' & new2 & -> & Hlr).
  { rewrite (sc_root _ _ _ _ Hs1). done. }
  { done. }
  { intros s Hs. rewrite (scanned_dirs _ _ _ _ _ Hs1). by apply HdL. }
  exists c', (new1 ++ new2). split; [by rewrite app_assoc|].
  by eapply shardsRead_cons.
Qed.

(** The whole scan makes the invariant of a cache still to be filled. *)
Lemma readShards_spec order c : disk_ok (dc_fs c) -> Forall disk_ok (dc_past c) -> dc_root c = root ->
  lru_wf (dc_lru c) -> (forall id, lookupEntry (dc_lru c) id = None) -> (forall l, order l ≡ₚ l) ->
  exists c' entries, readShards order c = (c', Ok entries) /\ dinv entries c' /\ dc_lru c' = dc_lru c /\
    NoDup (map de_blobID entries) /\
    (forall n b m, pair_at (dc_fs c) n b m -> loaded m ∈ entries /\ pair_at (dc_fs c') n b m) /\
    (forall e, e ∈ entries -> exists b m, pair_at (dc_fs c) (de_blobID e) b m /\ e = loaded m).
Proof.
  intros Hok Hpast Hr Hwf Hempty Hord. unfold readShards.
  assert (Hrd : readDir (dc_fs c) (dc_root c) = Ok (children (dc_fs c) root)).
  { rewrite Hr. pose proof (isDir_root _ (ok_root _ Hok)) as Hd. unfold readDir, stat, isDir in *. destruct root as [|x p]; [done|].
    destruct (dc_fs c !! _) as [[]|]; done. }
  rewrite Hrd.
  assert (Hch : forall s, (s, Dir) ∈ children (dc_fs c) root <-> dc_fs c !! (root ++ [s]) = Some Dir).
  { intros s. apply elem_of_children. }
  destruct (readShardList_spec order (children (dc_fs c) root) [] c Hok Hr Hord (children_names _ _))
    as (c' & new & Heq & Hlr); [intros s; apply Hch|]. cbn [app] in Heq. exists c', new. split; [done|].
  destruct Hlr as [Ll Lr Ld Lp Ldirs Lo Ln Lf Lc Lk Lcl].
  assert (Hids : forall n b m, pair_at (dc_fs c) n b m -> n ∈ map de_blobID new).
  { intros n b m Hp. apply (Lc n b m); [|done]. apply Hch. destruct Hp as [Hb _]. by eapply ok_parent. }
  assert (Hkeep : forall n b m, pair_at (dc_fs c) n b m -> pair_at (dc_fs c') n b m).
  { intros n b m Hp. eapply pair_at_ext; [|exact Hp]. intros q. apply Lk. by eapply Hids. }
  split; [|split; [done|split; [done|]]].
  - split; try done; rewrite ?Ll, ?Lr; try done.
    + by apply Lp.
    + intros id e. rewrite Hempty. done.
    + intros s n Hs. assert (Hdir : (s, Dir) ∈ children (dc_fs c) root).
      { apply Hch. rewrite <- Ldirs. destruct Hs as [[x Hx]|[x Hx]]; by eapply (ok_parent _ Ld). }
      destruct (Lcl s n Hdir Hs) as [Hn Hsh]. split; [done|by right].
    + intros e He. split; [apply Hempty|]. destruct (Lf e He) as (_ & b & m & Hp & ->). exists b, m. split; [by apply Hkeep|done].
  - split; [|intros e He; by apply (Lf e He)].
    intros n b m Hp. split; [|by apply Hkeep].
    destruct (pair_ok _ _ _ _ Hok Hp) as (_ & Hid & _).
    pose proof (Hids _ _ _ Hp) as (e & Hn & He)%list_elem_of_fmap. destruct (Lf e He) as (_ & b' & m' & [Hb' Hm'] & ->).
    rewrite <- Hn in Hb', Hm'. destruct Hp as [_ Hm]. rewrite Hm in Hm'. by injection Hm' as ->.
Qed.

(** ** Warm start: the loop *)
Definition warmed (p : EvictionPolicy) (e : diskEntry) : diskEntry :=
  let e := e <| de_lastAccess := de_storedAt e |> in
  if de_pinned e && kindHot p then e else e <| de_pinned := false |>.

Lemma warmed_id p e : de_blobID (warmed p e) = de_blobID e.
Proof. unfold warmed. by destruct (_ && _). Qed.

(** What loading one entry does: an expired one loses its files, another one is pushed. *)
Definition warmedOne (now : Time) e rest c c' : Prop :=
  dinv rest c' /\ policy (dc_lru c') = policy (dc_lru c) /\
  (forall id, lookupEntry (dc_lru c') id =
     if decide (id = de_blobID e) then if expiredD now e then None else Some (warmed (policy (dc_lru c)) e)
     else lookupEntry (dc_lru c) id) /\
  (forall id q, id <> de_blobID e \/ expiredD now e = false -> ofId id q -> dc_fs c' !! q = dc_fs c !! q) /\
  bytesUsed (dc_lru c') = bytesUsed (dc_lru c) + (if expiredD now e then 0 else de_sizeBytes e).

Lemma warmOne_expired now e rest c : dinv (e :: rest) c -> NoDup (map de_blobID (e :: rest)) -> expiredD now e = true ->
  warmedOne now e rest c (warmOne now e c).
Proof.
  intros Hi [Hne Hnd]%NoDup_cons Hexp. pose proof Hi as [Hr Hwf Hok Hpast Hent Hfile Hrest].
  destruct (Hrest e ltac:(set_solver)) as (Hno & b & m & Hp & Hem).
  destruct (pair_ok _ _ _ _ Hok Hp) as (Hv & Hid & Hsz & _). unfold warmedOne, warmOne. rewrite Hexp.
  destruct (rm_files c (de_blobID e) Hok Hv Hr) as (Hr' & Hl' & Hf' & Hp'). cbn zeta.
  set (c' := rm _ _) in *. split; [|split; [by rewrite Hl'|split; [|split]]].
  - split; rewrite ?Hf', ?Hl'; try done.
    + by apply disk_ok_delete, disk_ok_delete.
    + by apply Hp'.
    + intros id e' He'. destruct (Hent id e' He') as (b' & m' & Hp1 & Hm1). exists b', m'. split; [|done].
      eapply pair_at_ext; [|exact Hp1]. intros q Hq. apply wiped_other with id; [|done]. intros Heq. congruence.
    + intros s n Hs. assert (Hs' : is_Some (dc_fs c !! at_ s (n +:+ ".bin")) \/ is_Some (dc_fs c !! at_ s (n +:+ ".meta.json")))
        by (destruct Hs as [Hs|Hs]; apply wiped_some in Hs as [? _]; [by left|by right]).
      destruct (Hfile _ _ Hs') as [Hsh [Hn|Hn]]; (split; [done|]); [by left|].
      cbn [map] in Hn. apply elem_of_cons in Hn as [->|Hn]; [exfalso|by right]. subst s.
      destruct Hs as [Hs|Hs]; apply wiped_some in Hs as [_ Hs]; apply Hs; [by left|by right].
    + intros e' He'. destruct (Hrest e' ltac:(set_solver)) as (Hno' & b' & m' & Hp1 & Hm1). split; [done|].
      exists b', m'. split; [|done]. eapply pair_at_ext; [|exact Hp1]. intros q Hq. apply wiped_other with (de_blobID e'); [|done].
      intros Heq. apply Hne. rewrite Heq. apply list_elem_of_fmap. by exists e'.
  - intros id. rewrite Hl'. by case_decide as Hd; [rewrite Hd|].
  - intros id q [Hd|?] Hq; [|done]. rewrite Hf'. by apply wiped_other with id.
  - rewrite Hl'. lia.
Qed.
Lemma warmOne_live now e rest c : dinv (e :: rest) c -> NoDup (map de_blobID (e :: rest)) -> expiredD now e = false ->
  warmedOne now e rest c (warmOne now e c).
Proof.
  intros Hi [Hne Hnd]%NoDup_cons Hexp. pose proof Hi as [Hr Hwf Hok Hpast Hent Hfile Hrest].
  destruct (Hrest e ltac:(set_solver)) as (Hno & b & m & Hp & Hem).
  destruct (pair_ok _ _ _ _ Hok Hp) as (Hv & Hid & Hsz & _). unfold warmedOne, warmOne. rewrite Hexp.
  set (e' := if _ : bool then _ else _).
  assert (He' : e' = warmed (policy (dc_lru c)) e) by done.
  assert (Hpin : de_pinned (e <| de_lastAccess := de_storedAt e |>) && bool_decide (Kind (policy (dc_lru c)) = EvictionLRUHotPin) = de_pinned e').
  { rewrite He'. unfold warmed, kindHot. cbn. by destruct (de_pinned e && _) eqn:Hpn; [apply andb_true_iff in Hpn as [-> _]|]. }
  assert (Hide : de_blobID e' = de_blobID e) by (rewrite He'; apply warmed_id).
  assert (Hsze : de_sizeBytes e' = de_sizeBytes e) by (rewrite He'; unfold warmed; by destruct (_ && _)).
  cbn zeta. rewrite Hpin.
  assert (Hlk : forall id, lookupEntry (pushEntry (de_pinned e') e' (de_sizeBytes e') (dc_lru c)) id =
            if decide (id = de_blobID e) then Some e' else lookupEntry (dc_lru c) id).
  { intros id. rewrite <- Hide. exact (pushEntry_lookup (dc_lru c) e' id Hwf). }
  assert (Hpol : policy (pushEntry (de_pinned e') e' (de_sizeBytes e') (dc_lru c)) = policy (dc_lru c)) by (by rewrite pushEntry_eq).
  split; [|split; [done|split; [|split]]].
  - split; cbn [dc_root dc_lru dc_fs dc_past upd eta_expand eta_DiskCache]; try done.
    + apply (pushEntry_wf (dc_lru c) e' Hwf). cbn. by rewrite Hide.
    + intros id x. rewrite Hlk, Hpol. destruct (decide (id = de_blobID e)) as [Hd|Hd]; [|by apply Hent]. intros [= <-]. subst id.
      exists b, m. split; [done|]. rewrite He'. unfold matches, warmed, kindHot. rewrite Hem. cbn.
      by destruct (mf_Pinned m && bool_decide (Kind (policy (dc_lru c)) = EvictionLRUHotPin)) eqn:Hpn; cbn; rewrite ?Hpn;
        [apply andb_true_iff in Hpn as [-> _]|].
    + intros s n Hs. rewrite Hlk. destruct (Hfile _ _ Hs) as [Hsh Hn]. split; [done|].
      destruct (decide (n = de_blobID e)) as [Hd|Hd]; [left; by eexists|].
      destruct Hn as [Hn|Hn]; [by left|]. cbn [map] in Hn. apply elem_of_cons in Hn as [?|Hn]; [done|by right].
    + intros x Hx. rewrite Hlk. rewrite decide_False; [by apply Hrest; set_solver|].
      intros Heq. apply Hne. rewrite <- Heq. apply list_elem_of_fmap. by exists x.
  - exact Hlk.
  - done.
  - cbn [dc_lru upd eta_expand eta_DiskCache]. rewrite pushEntry_eq. cbn [bytesUsed]. by rewrite Hsze.
Qed.
Lemma warmOne_spec now e rest c : dinv (e :: rest) c -> NoDup (map de_blobID (e :: rest)) -> warmedOne now e rest c (warmOne now e c).
Proof. intros Hi Hnd. destruct (expiredD now e) eqn:Hexp; [by apply warmOne_expired|by apply warmOne_live]. Qed.

Lemma dinv_perm l l' c : l ≡ₚ l' -> dinv l c -> dinv l' c.
Proof.
  intros Hp []. split; try done.
  - intros s n Hs. destruct (di_file0 _ _ Hs) as [? Hn]. split; [done|]. by rewrite <- Hp.
  - intros e He. apply di_rest0. by rewrite Hp.
Qed.

Definition live (now : Time) (l : list diskEntry) : list diskEntry := filter (fun e => expiredD now e = false) l.

Lemma warmFold_spec now l c : dinv l c -> NoDup (map de_blobID l) ->
  let c' := foldl (fun c e => warmOne now e c) c l in
  dinv [] c' /\ policy (dc_lru c') = policy (dc_lru c) /\
  (forall e, e ∈ live now l -> lookupEntry (dc_lru c') (de_blobID e) = Some (warmed (policy (dc_lru c)) e)) /\
  (forall id, id ∉ map de_blobID l -> lookupEntry (dc_lru c') id = lookupEntry (dc_lru c) id) /\
  (forall e, e ∈ l -> expiredD now e = true -> lookupEntry (dc_lru c') (de_blobID e) = None) /\
  (forall id q, id ∉ map de_blobID l \/ id ∈ map de_blobID (live now l) -> ofId id q -> dc_fs c' !! q = dc_fs c !! q) /\
  bytesUsed (dc_lru c') = bytesUsed (dc_lru c) + sumSizes (live now l).
Proof.
  revert c. induction l as [|e l IH]; intros c Hi Hnd; cbn [foldl].
  { split; [done|]. split; [done|]. split; [by intros e He%elem_of_nil|]. split; [done|].
    split; [by intros e He%elem_of_nil|]. split; [done|]. cbn. lia. }
  destruct (warmOne_spec now e l c Hi Hnd) as (Hi1 & Hp1 & Hl1 & Hf1 & Hb1). cbn [map] in Hnd.
  apply NoDup_cons in Hnd as [Hne Hnd].
  destruct (IH _ Hi1 Hnd) as (Hi2 & Hp2 & Hl2 & Ho2 & Hx2 & Hf2 & Hb2).
  assert (Hin : forall x, x ∈ live now l -> de_blobID x ∈ map de_blobID l).
  { intros x [_ Hx]%list_elem_of_filter. apply list_elem_of_fmap. by exists x. }
  split; [done|]. split; [congruence|]. split; [|split; [|split; [|split]]].
  - intros x [Hx [->|Hxl]%elem_of_cons]%list_elem_of_filter.
    + rewrite Ho2 by done. rewrite Hl1, decide_True, Hx by done. done.
    + rewrite Hl2, Hp1; [done|]. by apply list_elem_of_filter.
  - intros id Hid. cbn [map] in Hid. rewrite Ho2 by set_solver. rewrite Hl1, decide_False; [done|]. set_solver.
  - intros x [->|Hx]%elem_of_cons Hexp; [|by apply Hx2]. rewrite Ho2 by done. by rewrite Hl1, decide_True, Hexp by done.
  - intros id q Hid Hq.
    assert (Hcase : (id ∉ map de_blobID l \/ id ∈ map de_blobID (live now l)) /\ (id <> de_blobID e \/ expiredD now e = false)).
    { destruct Hid as [Hid|Hid]; [cbn [map] in Hid; set_solver|].
      unfold live in Hid. rewrite filter_cons in Hid. case_decide as Hx.
      - apply elem_of_cons in Hid as [->|Hid]; [by auto|]. split; [by right|by right].
      - split; [by right|]. left. intros ->. apply list_elem_of_fmap in Hid as (x & Hx' & Hin').
        apply Hne. rewrite Hx'. by apply Hin. }
    destruct Hcase as [Ha Hb]. rewrite (Hf2 id q Ha Hq). by apply Hf1 with id.
  - rewrite Hb2, Hb1. unfold live. rewrite filter_cons. destruct (expiredD now e) eqn:Hx; case_decide; try done.
    + unfold sumSizes. cbn [foldr]. lia.
    + unfold sumSizes. cbn [foldr e_size diskEntry_CacheEntry]. fold (sumSizes (filter (fun x => expiredD now x = false) l)). lia.
Qed.

Lemma sumSizes_perm (l k : list diskEntry) : l ≡ₚ k -> sumSizes l = sumSizes k.
Proof. unfold sumSizes. induction 1; cbn [foldr]; lia. Qed.

(** What eviction cannot remove. *)
Lemma evictMain_keeps (l : lru diskEntry) id e : lru_wf l -> lookupEntry l id = Some e ->
  de_nonEvictable e = true \/ MaxBytes (policy l) <= 0 \/ bytesUsed l <= MaxBytes (policy l) ->
  lookupEntry (evictMainLocked 0 l) id = Some e.
Proof.
  intros Hwf Hl Hk. destruct (evictMainLocked_spec 0 l Hwf) as (Hwf' & _ & Hent).
  apply lookup_lists in Hl as [Hin Hid]; [|done]. apply lookup_lists; [done|]. split; [|done].
  destruct (Z.leb_spec (MaxBytes (policy l)) 0) as [Hm|Hm]; [by injection Hent as -> ->|].
  destruct Hk as [Hk|Hk].
  - pose proof (evictMainRef_elem (bytesUsed l + 0 - MaxBytes (policy l)) (hotEntries l) (mainEntries l) e) as He.
    rewrite <- Hent in He. destruct He as (_ & _ & He). destruct (He Hk). tauto.
  - rewrite evictMainRef_done in Hent by lia. by injection Hent as -> ->.
Qed.

(** The result of opening a cache on a disk. *)
Record opened (now : Time) (p : EvictionPolicy) f (c : DiskCache) (entries : list diskEntry) : Prop := {
  op_dinv : dinv [] c;
  op_policy : policy (dc_lru c) = p;
  op_nodup : NoDup (map de_blobID entries);
  op_pairs : forall id b m, pair_at f id b m -> loaded m ∈ entries;
  op_entries : forall e, e ∈ entries -> exists b m, pair_at f (de_blobID e) b m /\ e = loaded m;
  op_index : forall id x, lookupEntry (dc_lru c) id = Some x ->
    exists e, e ∈ live now entries /\ de_blobID e = id /\ x = warmed p e;
  op_content : forall id x b, lookupEntry (dc_lru c) id = Some x ->
    dc_fs c !! at_ (shardOf id) (id +:+ ".bin") = Some (File b) -> f !! at_ (shardOf id) (id +:+ ".bin") = Some (File b);
  op_kept : forall e, e ∈ live now entries ->
    de_nonEvictable e = true \/ MaxBytes p <= 0 \/ sumSizes (live now entries) <= MaxBytes p ->
    lookupEntry (dc_lru c) (de_blobID e) = Some (warmed p e)
}.

(** What a cache that was just loaded gives up. *)
Definition trim (c : DiskCache) : DiskCache := if 0 <? MaxBytes (policy (dc_lru c)) then evictMainD 0 c else c.

Lemma trim_spec c : dinv [] c -> dinv [] (trim c) /\ shrunk c (trim c) /\ policy (dc_lru (trim c)) = policy (dc_lru c) /\
  (dc_lru (trim c) = dc_lru c \/ dc_lru (trim c) = evictMainLocked 0 (dc_lru c)) /\
  (forall id x, lookupEntry (dc_lru (trim c)) id = Some x -> lookupEntry (dc_lru c) id = Some x).
Proof.
  intros Hi. unfold trim. destruct (_ <? _); [|split; [done|split; [done|split; [done|split; [by left|done]]]]].
  destruct (evictMainD_spec [] 0 c Hi) as (Hl & Hi' & Hs). rewrite Hl.
  destruct (evictMainLocked_spec 0 (dc_lru c) (di_wf _ _ Hi)) as (Hwf4 & Hfr & Hents).
  split; [done|]. split; [done|]. split; [by rewrite (fr_policy _ _ Hfr)|]. split; [by right|].
  intros id x [Hin Hid]%lookup_lists; [|done]. apply lookup_lists; [by apply di_wf with []|]. split; [|done].
  destruct (_ <=? 0).
  { pose proof (f_equal fst Hents) as Ha. pose proof (f_equal snd Hents) as Hb. cbn [fst snd] in Ha, Hb. by rewrite <- Ha, <- Hb. }
  pose proof (evictMainRef_elem (bytesUsed (dc_lru c) + 0 - MaxBytes (policy (dc_lru c))) (hotEntries (dc_lru c)) (mainEntries (dc_lru c)) x) as He.
  rewrite <- Hents in He. tauto.
Qed.

Lemma NewDiskCache_spec order now p f : disk_ok f -> Validate p = Ok tt -> (forall l, order l ≡ₚ l) ->
  exists c entries, NewDiskCache order now (Some root) p f = (dc_fs c, Ok c) /\ opened now p f c entries.
Proof.
  intros Hok Hval Hord. unfold NewDiskCache.
  assert (Hk : bool_decide (Kind p = "") = false).
  { apply bool_decide_eq_false. intros Hk. unfold Validate in Hval. rewrite Hk in Hval. done. }
  rewrite Hk, Hval. unfold mkdirAll. rewrite (mkdirLoop_exists f [] root) by (intros k; by apply (ok_root _ Hok)).
  unfold warm. unroll.
  destruct (readShards_spec order (mkDiskCache root (newLru p) f []) Hok (Forall_nil_2 _) eq_refl (newLru_wf p))
    as (c1 & entries & -> & Hi1 & Hl1 & Hnd & Hpairs & Hent); [|done|].
  { intros id. unfold lookupEntry. cbn. by rewrite lookup_empty. }
  cbn [dc_fs] in Hpairs, Hent. cbn [dc_lru] in Hl1.
  set (sorted := sort_Slice _ entries).
  assert (Hperm : sorted ≡ₚ entries) by apply sort_Slice_perm.
  assert (Hnds : NoDup (map de_blobID sorted)) by (by rewrite Hperm).
  destruct (warmFold_spec now sorted c1 (dinv_perm _ _ _ (symmetry Hperm) Hi1) Hnds) as (Hi2 & Hp2 & Hl2 & Ho2 & Hx2 & Hf2 & Hb2).
  set (c2 := foldl _ _ _) in *.
  match goal with |- context [if 0 <? MaxBytes (policy (dc_lru ?x)) then _ else _] => set (c3 := x) end.
  assert (Hi3 : dinv [] c3).
  { unfold c3. apply dinv_lru; [done| |done|].
    - destruct (di_wf _ _ Hi2). by split.
    - intros id. match goal with |- match lookupEntry ?l id with _ => _ end =>
        change (lookupEntry l id) with (lookupEntry (dc_lru c2) id) end.
      destruct (lookupEntry (dc_lru c2) id) as [x|] eqn:Hx; [by exists x|done]. }
  assert (Hlk3 : forall id, lookupEntry (dc_lru c3) id = lookupEntry (dc_lru c2) id) by done.
  assert (Hpol : policy (dc_lru c3) = p) by (change (policy (dc_lru c2) = p); by rewrite Hp2, Hl1).
  destruct (trim_spec c3 Hi3) as (Hi4 & Hs4 & Hp4 & Hl4 & Hsub). rewrite Hpol in Hp4. fold (trim c3). set (c4 := trim c3) in *.
  exists c4, entries. split; [done|].
  assert (Hlive : forall e, e ∈ live now sorted <-> e ∈ live now entries).
  { intros e. unfold live. by rewrite Hperm. }
  assert (Hpol1 : policy (dc_lru c1) = p) by (by rewrite Hl1).
  assert (Hidx : forall id x, lookupEntry (dc_lru c4) id = Some x -> exists e, e ∈ live now entries /\ de_blobID e = id /\ x = warmed p e).
  { intros id x Hx%Hsub. rewrite Hlk3 in Hx. destruct (decide (id ∈ map de_blobID sorted)) as [Hin|Hin].
    - apply list_elem_of_fmap in Hin as (e & -> & He). destruct (expiredD now e) eqn:Hexp.
      + rewrite (Hx2 e He Hexp) in Hx. done.
      + exists e. assert (Hle : e ∈ live now sorted) by by apply list_elem_of_filter.
        split; [by apply Hlive|]. split; [done|]. rewrite (Hl2 e Hle) in Hx. by injection Hx as <-; rewrite Hpol1.
    - rewrite Ho2, Hl1 in Hx by done. unfold lookupEntry in Hx. cbn in Hx. by rewrite lookup_empty in Hx. }
  split; try done.
  - intros id b m Hp. by apply (Hpairs id b m).
  - intros id x b Hx Hb. destruct (Hidx id x Hx) as (e & He & Hid & _).
    pose proof He as [_ Hine]%list_elem_of_filter. destruct (Hent e Hine) as (b' & m & Hp' & Hem). rewrite Hid in Hp'.
    destruct (Hpairs id b' m Hp') as [_ [Hb' _]]. destruct Hp' as [Hp' _].
    destruct (sk_kept _ _ Hs4 id ltac:(by eexists)) as [_ Hq4]. rewrite Hq4 in Hb by (by left).
    change (dc_fs c3) with (dc_fs c2) in Hb. rewrite (Hf2 id) in Hb; [congruence| |by left].
    right. apply list_elem_of_fmap. exists e. split; [done|by apply Hlive].
  - intros e He Hk'. assert (Hx : lookupEntry (dc_lru c3) (de_blobID e) = Some (warmed p e)).
    { rewrite Hlk3, <- Hpol1. by apply Hl2, Hlive. }
    destruct Hl4 as [->| ->]; [done|]. apply evictMain_keeps; [by apply di_wf with []|done|].
    rewrite Hpol. destruct Hk' as [Hk'|[?|Hk']]; [left|by right; left|right; right].
    + unfold warmed. by destruct (_ && _).
    + change (bytesUsed (dc_lru c3)) with (bytesUsed (dc_lru c2)). rewrite Hb2, Hl1. cbn [bytesUsed newLru].
      rewrite (sumSizes_perm (live now sorted) (live now entries)); [lia|]. unfold live. by rewrite Hperm.
Qed.

End disk.
