(* ===== verification/DiskCacheProps.v ===== *)
(** * Properties of the disk cache

    The disk cache as an instance of the cache interface; the machine of its
    interleaved calls, crashes and restarts; and the theorems with their
    witnesses. *)
From Stdlib Require Import Strings.Ascii.
From S2P Require Import Prelude GoStd HotCache LruCore Fs DiskCache DiskCacheLaws.
Local Open Scope Z_scope.

(** ** The cache interface *)
Section laws.
Context (root : path) (rnd : DiskCache -> string) (Hrnd : forall c, isDecimal (rnd c) = true).
Implicit Types (c : DiskCache).

(** [rnd] is the random number [os.CreateTemp] picks. *)
Definition Disk_Cache : Cache DiskCache := {|
  c_Get := Get; c_Put now id r o := fun c => Put (rnd c) now id r o c; c_Evict := Evict; c_Stats := StatsD
|}.

Definition anyPut (id : string) (b : bytes) (m : metaFile) : Prop := True.
Notation inv := (dinv root anyPut []).

Definition disk_inv c : Prop := inv c /\ TTL (policy (dc_lru c)) <= 0.
Definition disk_content c (id : string) (b : bytes) : Prop :=
  exists e m, lookupEntry (dc_lru c) id = Some e /\ pair_at root (dc_fs c) id b m.
Definition disk_holds c (id : string) (b : bytes) : Prop :=
  exists e m, lookupEntry (dc_lru c) id = Some e /\ pair_at root (dc_fs c) id b m /\ IsZero (de_expiresAt e) = true.
Definition disk_protected c (id : string) (b : bytes) : Prop :=
  exists e m, lookupEntry (dc_lru c) id = Some e /\ pair_at root (dc_fs c) id b m /\ IsZero (de_expiresAt e) = true /\
    de_nonEvictable e = true.

Lemma pair_same f id b m b' m' : pair_at root f id b m -> pair_at root f id b' m' -> b' = b.
Proof. intros [Hb _] [Hb' _]. congruence. Qed.

Lemma Evict_spec id c c' r : inv c -> Evict id c = (c', r) -> inv c' /\ r = Ok tt /\
  lookupEntry (dc_lru c') id = None /\ policy (dc_lru c') = policy (dc_lru c) /\
  (forall id', id' <> id -> lookupEntry (dc_lru c') id' = lookupEntry (dc_lru c) id') /\
  othersKept root id c c'.
Proof.
  intros Hi [= <- <-]. destruct (removeExistingD_spec root anyPut [] id c Hi) as (Hl & Hi' & Hs).
  split; [done|]. split; [done|]. rewrite Hl. split; [by rewrite (removeExisting_lookup _ _ _ (di_wf _ _ _ _ Hi)), decide_True|].
  split; [apply removeExisting_policy|]. split.
  - intros id' Hne. by rewrite (removeExisting_lookup _ _ _ (di_wf _ _ _ _ Hi)), decide_False.
  - intros id' _ Hx. by apply (sk_kept _ _ _ Hs).
Qed.


(** What a call keeps of the entries of the keys it does not name. *)
Lemma kept_pair c c' id b m : othersKept root id c c' -> forall id', id' <> id -> is_Some (lookupEntry (dc_lru c') id') ->
  pair_at root (dc_fs c) id' b m -> pair_at root (dc_fs c') id' b m.
Proof. intros Hk id' Hne Hs. apply pair_at_ext. by apply (Hk id' Hne Hs). Qed.

Lemma Get_disk now id c c' r : disk_inv c -> Get now id c = (c', r) -> disk_inv c' /\
  forall id' b, (disk_holds c id' b -> disk_holds c' id' b) /\ (disk_protected c id' b -> disk_protected c' id' b) /\
    (disk_content c' id' b -> disk_content c id' b).
Proof.
  intros [Hi Ht] Hg. destruct (Get_spec root anyPut [] now id c c' r Hi Hg) as (Hi' & Hp & Hfs & Ho & Hid & _).
  split; [split; [done|by rewrite Hp]|]. intros id' b.
  assert (Hcase : match lookupEntry (dc_lru c') id' with
    | Some e' => exists e, lookupEntry (dc_lru c) id' = Some e
    | None => forall e, lookupEntry (dc_lru c) id' = Some e -> IsZero (de_expiresAt e) = true -> False end /\
    forall e, lookupEntry (dc_lru c) id' = Some e -> IsZero (de_expiresAt e) = true ->
      exists e', lookupEntry (dc_lru c') id' = Some e' /\ de_expiresAt e' = de_expiresAt e /\ de_nonEvictable e' = de_nonEvictable e).
  { destruct (decide (id' = id)) as [->|Hne].
    - destruct (lookupEntry (dc_lru c) id) as [e|] eqn:He.
      + destruct (expiredD now e) eqn:Hx; rewrite Hid.
        * unfold expiredD in Hx. split; intros e' [= <-] Hz; by rewrite Hz in Hx.
        * split; [by exists e|]. intros e' [= <-] _. by exists (bumpD now e).
      + assert (Hn : lookupEntry (dc_lru c') id = None) by (by destruct Hid as [-> | ->]).
        rewrite Hn. by split.
    - rewrite Ho by done. destruct (lookupEntry (dc_lru c) id') as [e|]; (split; [|intros e' He']); try done; [by exists e|by exists e'; injection He' as <-]. }
  destruct Hcase as [Hcase Hkeep].
  assert (Hpair : forall e m, lookupEntry (dc_lru c) id' = Some e -> IsZero (de_expiresAt e) = true ->
            pair_at root (dc_fs c) id' b m -> pair_at root (dc_fs c') id' b m).
  { intros e m He Hz. destruct (Hkeep e He Hz) as (e' & He' & _). apply pair_at_ext. intros q. apply Hfs. by eexists. }
  split; [|split].
  - intros (e & m & He & Hpa & Hz). destruct (Hkeep e He Hz) as (e' & He' & Hx & _).
    exists e', m. split; [done|]. split; [by eapply Hpair|]. by rewrite Hx.
  - intros (e & m & He & Hpa & Hz & Hn). destruct (Hkeep e He Hz) as (e' & He' & Hx & Hn').
    exists e', m. split; [done|]. split; [by eapply Hpair|]. by rewrite Hx, Hn'.
  - intros (e' & m & He' & Hpa). rewrite He' in Hcase. destruct Hcase as [e He]. exists e, m. split; [done|].
    eapply pair_at_ext; [|exact Hpa]. intros q Hq. symmetry. apply (Hfs id'); [by eexists|done].
Qed.

Lemma Get_disk_holds now id c b : disk_inv c -> disk_holds c id b ->
  exists c' md, Get now id c = (c', Ok (bytes_NewReader b, md)) /\ disk_inv c' /\ md_SizeBytes md = len b /\
    forall id' b', (disk_holds c id' b' -> disk_holds c' id' b') /\ (disk_protected c id' b' -> disk_protected c' id' b').
Proof.
  intros Hi (e & m & He & Hp & Hz). pose proof Hi as [Hd _]. destruct (Get now id c) as [c' r] eqn:Hg.
  destruct (Get_disk _ _ _ _ _ Hi Hg) as [Hi' Hk].
  destruct (Get_spec root anyPut [] now id c c' r Hd Hg) as (_ & _ & _ & _ & _ & Hr).
  destruct r as [[rd md]|err].
  - destruct Hr as (e' & b' & m' & He' & _ & Hp' & -> & ->). pose proof (pair_same _ _ _ _ _ _ Hp Hp') as ->.
    exists c', (metadataOfD (bumpD now e')). split; [done|]. split; [done|]. split; [|intros id' b''; split; by apply Hk].
    rewrite He in He'. injection He' as <-.
    destruct (di_entry _ _ _ _ Hd _ _ He) as (b'' & m'' & Hp'' & Hm). pose proof (pair_same _ _ _ _ _ _ Hp Hp'') as ->.
    destruct (pair_ok _ _ _ _ _ _ (di_disk _ _ _ _ Hd) Hp'') as (_ & _ & <- & _). symmetry. by apply Hm.
  - destruct Hr as [_ Hr]. specialize (Hr _ He). unfold expiredD in Hr. by rewrite Hz in Hr.
Qed.

(** A Put, with its outcome as the entry it places. *)
Lemma Put_disk now id r o c c' res : disk_inv c -> Put (rnd c) now id r o c = (c', res) -> disk_inv c' /\
  (forall id' b, id' <> id -> disk_protected c id' b -> disk_protected c' id' b) /\
  (forall id' b, disk_content c' id' b -> disk_content c id' b \/
     (id' = id /\ exists rd, r = Some rd /\ rd_bytes rd = b)).
Proof.
  intros [Hi Ht] Hput. destruct (Put_spec root anyPut (rnd c) now id r o c c' res Hi (Hrnd c)) as (Hi' & Ho & Hr); [done|done|].
  pose proof (di_wf _ _ _ _ Hi) as Hwf. destruct res as [[]|err].
  - destruct Hr as (Hv & rd & -> & _ & _ & Hl & Hp). set (e := newEntryD _ _ _ _ _) in *.
    assert (Hpol : policy (dc_lru c') = policy (dc_lru c)) by (rewrite Hl; by destruct (placeEntry_spec e _ Hwf) as (_ & ? & _)).
    split; [split; [done|by rewrite Hpol]|]. split.
    + intros id' b Hne (e' & m & He' & Hpa & Hz & Hn). exists e', m.
      assert (He2 : lookupEntry (dc_lru c') id' = Some e') by (rewrite Hl; by apply placeEntry_others).
      split; [done|]. split; [|done]. eapply (kept_pair c c' id); [done|done|by eexists|done].
    + intros id' b (e' & m & He' & Hpa). destruct (decide (id' = id)) as [->|Hne].
      * right. split; [done|]. exists rd. split; [done|]. symmetry. apply (pair_same _ _ _ _ _ _ Hp Hpa).
      * left. destruct (Ho id' Hne ltac:(by eexists)) as [[e2 He2] Hq]. exists e2, m. split; [done|].
        eapply pair_at_ext; [|exact Hpa]. intros q Hof. symmetry. by apply Hq.
  - pose proof Hr as [Hl _]. split; [split; [done|by rewrite Hl]|]. split.
    + intros id' b _ (e & m & He & Hpa & ?). assert (Hs : is_Some (lookupEntry (dc_lru c') id')) by (rewrite Hl; by eexists).
      destruct (staging_kept root anyPut [] c c' id' Hi Hr Hs) as [_ Hq]. exists e, m. rewrite Hl. split; [done|].
      split; [|done]. by eapply pair_at_ext.
    + intros id' b (e & m & He & Hpa). left.
      destruct (staging_kept root anyPut [] c c' id' Hi Hr ltac:(by eexists)) as [_ Hq]. exists e, m. rewrite <- Hl. split; [done|].
      eapply pair_at_ext; [|exact Hpa]. intros q Hof. symmetry. by apply Hq.
Qed.

Lemma newEntryD_forever now p id sz o : po_TTL o <= 0 -> TTL p <= 0 -> IsZero (de_expiresAt (newEntryD now p id sz o)) = true.
Proof.
  intros Ho Hp. cbn [newEntryD de_expiresAt]. by destruct (Z.ltb_spec 0 (po_TTL o)), (Z.ltb_spec 0 (TTL p)); try lia.
Qed.

Lemma Put_disk_holds now id b o c c' : disk_inv c -> po_TTL o <= 0 ->
  Put (rnd c) now id (Some (bytes_NewReader b)) o c = (c', Ok tt) ->
  disk_inv c' /\ disk_holds c' id b /\ (po_NonEvictable o = true -> disk_protected c' id b).
Proof.
  intros Hi Ho Hput. split; [by eapply Put_disk|]. destruct Hi as [Hi Ht].
  destruct (Put_spec root anyPut (rnd c) now id _ o c c' _ Hi (Hrnd c) ltac:(done) Hput) as (_ & _ & _ & rd & [= <-] & _ & _ & Hl & Hp).
  set (e := newEntryD _ _ _ _ _) in *. cbn [rd_bytes bytes_NewReader] in Hp.
  assert (He : lookupEntry (dc_lru c') id = Some e) by (rewrite Hl; exact (placeEntry_lookup e _ (di_wf _ _ _ _ Hi))).
  pose proof (newEntryD_forever now (policy (dc_lru c)) id (len b) o Ho Ht) as Hz.
  split; [by exists e, (metaOf e)|]. intros Hn. by exists e, (metaOf e).
Qed.

Lemma Evict_disk id c c' r : disk_inv c -> Evict id c = (c', r) -> disk_inv c' /\
  (forall b, r = Ok tt -> ~ disk_content c' id b) /\
  forall id' b, (id' <> id -> disk_protected c id' b -> disk_protected c' id' b) /\
    (disk_content c' id' b -> disk_content c id' b).
Proof.
  intros [Hi Ht] He. destruct (Evict_spec _ _ _ _ Hi He) as (Hi' & _ & Hno & Hp & Hl & Hk).
  split; [split; [done|by rewrite Hp]|]. split.
  { intros b _ (e & m & Hx & _). congruence. }
  intros id' b. split.
  - intros Hne (e & m & Hx & Hpa & ?). rewrite <- Hl in Hx by done. exists e, m. split; [done|]. split; [|done].
    eapply (kept_pair c c' id); [done|done|by eexists|done].
  - intros (e & m & Hx & Hpa). destruct (decide (id' = id)) as [->|Hne]; [congruence|].
    destruct (Hk id' Hne ltac:(by eexists)) as [_ Hq]. rewrite Hl in Hx by done. exists e, m. split; [done|].
    eapply pair_at_ext; [|exact Hpa]. intros q Hof. symmetry. by apply Hq.
Qed.

Lemma Put_valid now id r o c c' : Put (rnd c) now id r o c = (c', Ok tt) -> valid id.
Proof.
  unfold Put, stage, valid. unroll. destruct (validateBlobID id) as [[]|e]; [done|]. done.
Qed.

(** The disk cache keeps the promises of the cache interface. *)
#[export] Program Instance Disk_CacheLaws : @CacheLaws DiskCache Disk_Cache := {|
  cache_inv := disk_inv; holds := disk_holds; protected := disk_protected; content := disk_content;
  cache_key := valid
|}.
Next Obligation. intros c id b _ (e & m & ? & ? & ? & _). by exists e, m. Qed.
Next Obligation. intros c id b b' _ (e & m & _ & Hp & _) (e' & m' & _ & Hp'). by eapply pair_same. Qed.
Next Obligation. intros now c id b. apply Get_disk_holds. Qed.
Next Obligation.
  intros now c id c' r Hi Hg. destruct (Get_disk _ _ _ _ _ Hi Hg) as [? Hk].
  split; [done|]. intros id' b'. split; by apply Hk.
Qed.
Next Obligation.
  intros now c id c' rd md [Hi _] Hg.
  destruct (Get_spec root anyPut [] now id c c' _ Hi Hg) as (_ & _ & _ & _ & _ & e & b & m & He & _ & Hp & -> & _).
  exists b. split; [done|]. by exists e, m.
Qed.
Next Obligation.
  intros now c id c' e [Hi _] Hv Hg. by destruct (Get_spec root anyPut [] now id c c' _ Hi Hg) as (_ & _ & _ & _ & _ & Hr & _); apply Hr.
Qed.
Next Obligation. intros Hv. by destruct (valid_plain _ Hv). Qed.
Next Obligation. intros now c id r o c' Hp. cbn [c_Put Disk_Cache] in Hp. exact (Put_valid now id r o c c' Hp). Qed.
Next Obligation. intros now c id b o c' Hi Ho Hp. cbn [c_Put Disk_Cache] in Hp. exact (Put_disk_holds now id b o c c' Hi Ho Hp). Qed.
Next Obligation. intros now c id r o c' res id' b' Hi Hp Hne. cbn [c_Put Disk_Cache] in Hp. by apply (Put_disk _ _ _ _ _ _ _ Hi Hp). Qed.
Next Obligation.
  intros now c id b o c' res id' b' Hi Hp Hc. cbn [c_Put Disk_Cache] in Hp.
  destruct (Put_disk _ _ _ _ _ _ _ Hi Hp) as (_ & _ & Hk). destruct (Hk _ _ Hc) as [?|(-> & rd & [= <-] & <-)]; [by left|by right].
Qed.
Next Obligation. intros now c id r o c' res Hi Hp. cbn [c_Put Disk_Cache] in Hp. by apply (Put_disk _ _ _ _ _ _ _ Hi Hp). Qed.
Next Obligation. intros c id c' res Hi He. by apply (Evict_disk id). Qed.
End laws.
