(* ===== verification/DiskCrash.v ===== *)
(** * Concurrent calls, crashes and restarts of the disk cache

    The two parts of a [Put] are separate steps, so that other calls come
    between them; a crash may happen between any two system calls; a restart
    opens the disk it left. [w_puts] records every Put ever begun: it is what
    the theorems compare the cache with. *)
From Stdlib Require Import Strings.Ascii.
From S2P Require Import Prelude GoStd HotCache LruCore Fs DiskCache DiskCacheLaws DiskCacheProps.
Local Open Scope Z_scope.

(** A Put whose body is staged and not yet published. *)
Record staged := mkStaged { sg_id : string; sg_tmp : path; sg_body : bytes; sg_opts : PutOptions }.

Record world := mkWorld {
  w_cache : DiskCache;
  w_inflight : list staged;
  w_puts : list (string * bytes * PutOptions)
}.

(** The disks a crash may leave. *)
Definition disks (c : DiskCache) : list (fs metaFile) := dc_fs c :: dc_past c.

Section machine.
Context (root : path).

Inductive step : world -> world -> Prop :=
| step_stage rnd id rd o c c' p size fl puts :
    isDecimal rnd = true -> stage rnd id (Some rd) c = (c', Ok (p, size)) ->
    step (mkWorld c fl puts) (mkWorld c' (mkStaged id p (rd_bytes rd) o :: fl) ((id, rd_bytes rd, o) :: puts))
| step_stage_fails rnd id r c c' e fl puts :
    isDecimal rnd = true -> stage rnd id r c = (c', Err e) -> step (mkWorld c fl puts) (mkWorld c' fl puts)
| step_publish now sg c c' r fl1 fl2 puts :
    publish now (sg_id sg) (sg_tmp sg) (len (sg_body sg)) (sg_opts sg) c = (c', r) ->
    step (mkWorld c (fl1 ++ sg :: fl2) puts) (mkWorld c' (fl1 ++ fl2) puts)
| step_get now id c c' r fl puts : Get now id c = (c', r) -> step (mkWorld c fl puts) (mkWorld c' fl puts)
| step_evict id c c' r fl puts : Evict id c = (c', r) -> step (mkWorld c fl puts) (mkWorld c' fl puts)
| step_close c c' r puts : Close c = (c', r) -> step (mkWorld c [] puts) (mkWorld c' [] puts)
| step_crash order now p f f' c c' fl puts :
    f ∈ disks c -> (forall l, order l ≡ₚ l) -> Validate p = Ok tt ->
    NewDiskCache order now (Some root) p f = (f', Ok c') -> step (mkWorld c fl puts) (mkWorld c' [] puts).

Inductive reach : world -> Prop :=
| reach_open order now p f f' c : disk_ok root (fun _ _ _ => False) f -> (forall l, order l ≡ₚ l) -> Validate p = Ok tt ->
    NewDiskCache order now (Some root) p f = (f', Ok c) -> reach (mkWorld c [] [])
| reach_step w w' : reach w -> step w w' -> reach w'.

(** One Put wrote both files. *)
Definition wrote (puts : list (string * bytes * PutOptions)) (id : string) (b : bytes) (m : metaFile) : Prop :=
  exists now p o, (id, b, o) ∈ puts /\ m = metaOf (newEntryD now p id (len b) o).

Lemma disk_ok_mono (W W' : string -> bytes -> metaFile -> Prop) f :
  (forall id b m, W id b m -> W' id b m) -> disk_ok root W f -> disk_ok root W' f.
Proof.
  intros Hm [? ? ? ? ? Hp]. split; try done. intros s n b m Hb Hme. destruct (Hp _ _ _ _ Hb Hme) as (? & ? & ? & ? & ?).
  repeat split; auto.
Qed.

Lemma dinv_mono (W W' : string -> bytes -> metaFile -> Prop) rest c :
  (forall id b m, W id b m -> W' id b m) -> dinv root W rest c -> dinv root W' rest c.
Proof.
  intros Hm []. split; try done; [by eapply disk_ok_mono|]. eapply Forall_impl; [done|]. intros f. by apply disk_ok_mono.
Qed.

Lemma wrote_mono puts x id b m : wrote puts id b m -> wrote (x :: puts) id b m.
Proof. intros (now & p & o & Hin & ->). exists now, p, o. split; [by apply list_elem_of_further|done]. Qed.

(** The staged files are there, under names of their own. *)
Record staged_ok (w : world) (sg : staged) : Prop := {
  so_valid : valid (sg_id sg);
  so_name : exists rnd, isDecimal rnd = true /\ sg_tmp sg = at_ root (shardOf (sg_id sg)) (tmpName (sg_id sg) rnd +:+ ".tmp");
  so_file : dc_fs (w_cache w) !! sg_tmp sg = Some (File (sg_body sg));
  so_put : (sg_id sg, sg_body sg, sg_opts sg) ∈ w_puts w
}.

Record world_ok (w : world) : Prop := {
  wo_cache : dinv root (wrote (w_puts w)) [] (w_cache w);
  wo_staged : forall sg, sg ∈ w_inflight w -> staged_ok w sg;
  wo_names : NoDup (map sg_tmp (w_inflight w))
}.

(** A call that keeps the temporary files keeps what is staged. *)
Lemma world_ok_call c c' fl fl' puts : world_ok (mkWorld c fl puts) -> dinv root (wrote puts) [] c' ->
  sublist fl' fl -> (forall sg, sg ∈ fl' -> dc_fs c' !! sg_tmp sg = dc_fs c !! sg_tmp sg) -> world_ok (mkWorld c' fl' puts).
Proof.
  intros [_ Hs Hn] Hi Hsub Hf. cbn in *. split; cbn; [done| |by eapply sublist_NoDup; [|apply (fmap_sublist sg_tmp)]].
  intros sg Hsg. destruct (Hs sg) as []; [by eapply elem_of_sublist|]. split; try done. cbn in *. by rewrite Hf.
Qed.

Lemma tmp_call c c' fl puts : world_ok (mkWorld c fl puts) -> dinv root (wrote puts) [] c' ->
  (forall s n, dc_fs c' !! at_ root s (n +:+ ".tmp") = dc_fs c !! at_ root s (n +:+ ".tmp")) -> world_ok (mkWorld c' fl puts).
Proof.
  intros Hw Hi Hf. eapply world_ok_call; [done|done|done|]. intros sg Hsg.
  destruct (so_name _ _ (wo_staged _ Hw sg Hsg)) as (rnd & _ & ->). apply Hf.
Qed.

Lemma Get_tmp W now id c c' r s n : dinv root W [] c -> Get now id c = (c', r) ->
  dc_fs c' !! at_ root s (n +:+ ".tmp") = dc_fs c !! at_ root s (n +:+ ".tmp").
Proof.
  intros Hi. assert (Hrm : forall c0 el, dinv root W [] c0 -> dc_fs (removeLockedD el c0) !! at_ root s (n +:+ ".tmp") = dc_fs c0 !! at_ root s (n +:+ ".tmp")).
  { intros c0 el Hi0. destruct (heap (dc_lru c0) !! el) as [e|] eqn:He; [|unfold removeLockedD; by rewrite He].
    by apply (sk_tmp _ _ _ (removeLockedD_shrunk root W [] c0 el e Hi0 He)). }
  unfold Get. destruct (validateBlobID id) as [[]|] eqn:Hv; [|by intros [= <- <-]].
  destruct (index (dc_lru c) !! id) as [el|] eqn:Hx; [|by intros [= <- <-]].
  pose proof Hx as (e & He & Hid)%(wf_index _ (di_wf _ _ _ _ Hi)). rewrite He. destruct (expiredD now e).
  { intros [= <- <-]. by apply Hrm. }
  assert (Hl : lookupEntry (dc_lru c) id = Some e) by (unfold lookupEntry; by rewrite Hx).
  destruct (di_entry _ _ _ _ Hi _ _ Hl) as (b & m & [Hb _] & _).
  match goal with |- context [openFile ?a ?p] => change (openFile a p) with (openFile (dc_fs c) (bodyPath (dc_root c) id)) end.
  rewrite (di_root _ _ _ _ Hi), (bodyPath_eq root id Hv), (openFile_at root _ _ _ _ Hb). by intros [= <- <-].
Qed.

(** [Close] removes temporary files only. *)
Lemma delete_tmp_ok W f q : disk_ok root W f -> f !! q <> Some Dir -> disk_ok root W (delete q f).
Proof.
  intros [Hr Hp Hb Hm Ht Hpr] Hq.
  assert (Hdir : forall d, f !! d = Some Dir -> delete q f !! d = Some Dir) by (intros d Hd; rewrite lookup_delete_ne; [done|congruence]).
  split.
  - intros k Hk. by apply Hdir, Hr.
  - intros s n x [_ Hx]%lookup_delete_Some. by eapply Hdir, Hp.
  - intros s n x [_ Hx]%lookup_delete_Some. by eapply Hb.
  - intros s n x [_ Hx]%lookup_delete_Some. by eapply Hm.
  - intros s n [_ Hx]%lookup_delete_Some. by eapply Ht.
  - intros s n b m [_ Hx]%lookup_delete_Some [_ Hy]%lookup_delete_Some. by apply Hpr.
Qed.

Lemma lastSeg_at s n : lastSeg (at_ root s n) = n.
Proof. unfold lastSeg. by rewrite at_split, reverse_snoc. Qed.

Lemma tmp_not_entry q : HasSuffix (lastSeg q) ".tmp" = true ->
  (forall s n, q <> at_ root s (n +:+ ".bin")) /\ (forall s n, q <> at_ root s (n +:+ ".meta.json")).
Proof.
  intros Hq%HasSuffix_split. split; intros s n ->; rewrite lastSeg_at in Hq; [by apply bin_tmp in Hq|by apply meta_tmp in Hq].
Qed.

Lemma rm_tmp_inv W rest c q : dinv root W rest c -> HasSuffix (lastSeg q) ".tmp" = true -> dc_fs c !! q <> Some Dir ->
  dinv root W rest (rm q c) /\ forall q', dc_fs c !! q' <> Some Dir -> dc_fs (rm q c) !! q' <> Some Dir.
Proof.
  intros Hi Hsuf Hd. destruct (tmp_not_entry q Hsuf) as [Hb Hm].
  assert (Hrm : rm q c = c \/ rm q c = setFs (delete q (dc_fs c)) c).
  { unfold rm, remove. destruct (stat (dc_fs c) q) as [[]|] eqn:Hst; [|by right..|by left].
    destruct q as [|x q]; [done|]. cbn in Hst. destruct (dc_fs c !! _); [|done]. injection Hst as ->. done. }
  destruct Hrm as [->|Hrm]; [done|]. rewrite Hrm. split.
  - apply dinv_setFs; [done|by apply delete_tmp_ok; [eapply di_disk|]|..].
    + intros id q' [->| ->]; apply lookup_delete_ne; [apply Hb|apply Hm].
    + intros s n. apply lookup_delete_ne, Hb.
    + intros s n. apply lookup_delete_ne, Hm.
  - intros q' Hq' Hx. apply Hq'. cbn in Hx. by apply lookup_delete_Some in Hx as [_ Hx].
Qed.

Lemma Close_inv W rest c c' r : dinv root W rest c -> Close c = (c', r) -> dinv root W rest c'.
Proof.
  intros Hi [= <- _]. set (l := tmpFiles _ _).
  assert (Hl : forall q, q ∈ l -> HasSuffix (lastSeg q) ".tmp" = true /\ dc_fs c !! q <> Some Dir).
  { intros q ([q' nd] & Hin & Hq)%list_elem_of_omap. apply elem_of_map_to_list in Hin. cbn in Hq.
    destruct (_ && _) eqn:Hc; [|done]. injection Hq as ->. apply andb_true_iff in Hc as [[_ Hc]%andb_true_iff Hn].
    split; [done|]. rewrite Hin. by destruct nd. }
  clearbody l. revert c Hi Hl. induction l as [|q l IH]; intros c Hi Hl; [done|]. cbn [foldl].
  destruct (Hl q (list_elem_of_here _ _)) as [Hs Hd]. destruct (rm_tmp_inv _ _ _ _ Hi Hs Hd) as [Hi' Hk].
  apply IH; [done|]. intros q' Hq'. destruct (Hl q' ltac:(by apply list_elem_of_further)) as [? ?]. split; [done|by apply Hk].
Qed.

Lemma step_ok w w' : world_ok w -> step w w' -> world_ok w'.
Proof.
  intros Hw Hstep. destruct Hstep as [rnd id rd o c c' p size fl puts Hrnd Hs|rnd id r c c' e fl puts Hrnd Hs
    |now sg c c' r fl1 fl2 puts Hp|now id c c' r fl puts Hg|id c c' r fl puts He|c c' r puts Hcl|order now p f f' c c' fl puts Hf Ho Hv Hnew];
    pose proof (wo_cache _ Hw) as Hi; cbn [w_cache w_puts] in Hi.
  - destruct (stage_spec _ _ _ _ _ _ _ _ _ Hi Hrnd Hs) as (Hi' & [Hl Hk] & Hv & Hp & Hno & rd' & [= <-] & _ & _ & Hfile & _).
    destruct Hw as [_ Hst Hnd]. cbn in *. split; cbn.
    + eapply dinv_mono; [|done]. intros *. apply wrote_mono.
    + intros sg [->|Hsg]%elem_of_cons; [split; cbn; try done; [by exists rnd|apply list_elem_of_here]|].
      destruct (Hst sg Hsg) as [Hv' (r' & Hr' & Hn') Hf' Hp']. split; cbn in *; [done|by exists r'| |by apply list_elem_of_further].
      rewrite Hn' in *. rewrite Hk; [done|by eexists].
    + apply NoDup_cons. split; [|done]. intros (sg & Heq & Hsg)%list_elem_of_fmap. destruct (Hst sg Hsg) as [_ _ Hf' _].
      cbn in Hf'. rewrite <- Heq, Hno in Hf'. done.
  - destruct (stage_spec _ _ _ _ _ _ _ _ _ Hi Hrnd Hs) as (Hi' & [Hl Hk] & _).
    eapply world_ok_call; [done|done|done|]. intros sg Hsg.
    destruct (wo_staged _ Hw sg Hsg) as [_ (r' & _ & Hn) Hf _]. cbn in Hf. rewrite Hn in *. apply Hk. by eexists.
  - assert (Hsg : sg ∈ fl1 ++ sg :: fl2) by (apply elem_of_app; right; apply list_elem_of_here).
    destruct (wo_staged _ Hw sg Hsg) as [Hv (rnd & Hrnd & Hn) Hf Hput]. cbn in Hf, Hput. rewrite Hn in Hf.
    destruct (publish_spec root (wrote puts) now (sg_id sg) (tmpName (sg_id sg) rnd) (len (sg_body sg)) (sg_opts sg) c (sg_tmp sg) (sg_body sg)
                Hi Hv Hf eq_refl Hn) as (c2 & Hpub & Hi2 & _ & _ & _ & Htmp & _).
    { by exists now, (policy (dc_lru c)), (sg_opts sg). }
    rewrite Hpub in Hp. injection Hp as <- <-.
    eapply world_ok_call; [done|done|by apply sublist_app; [|apply sublist_cons]|].
    intros sg' Hsg'. destruct (wo_staged _ Hw sg') as [_ (rnd' & Hrnd' & Hn') _ _].
    { apply elem_of_app in Hsg' as [?|?]; apply elem_of_app; [by left|right; by apply list_elem_of_further]. }
    pose proof (wo_names _ Hw) as Hnd. cbn [w_inflight] in Hnd. rewrite map_app in Hnd. cbn [map] in Hnd.
    rewrite <- Permutation_middle in Hnd. apply NoDup_cons in Hnd as [Hnot _]. rewrite <- map_app in Hnot.
    rewrite Hn'. apply Htmp.
    + rewrite <- Hn'. intros Heq. apply Hnot. apply list_elem_of_fmap. by exists sg'.
    + intros Heq. apply (tmp_not_meta (sg_id sg') (sg_id sg) rnd' Hrnd').
      rewrite <- (sapp_assoc (sg_id sg)), <- Heq. unfold tmpName. by rewrite !sapp_assoc.
  - destruct (Get_spec _ _ _ _ _ _ _ _ Hi Hg) as (Hi' & _). eapply tmp_call; [done|done|].
    intros s n. by eapply Get_tmp.
  - injection He as <- <-. destruct (removeExistingD_spec _ _ _ id _ Hi) as (_ & Hi' & Hs).
    eapply tmp_call; [done|done|]. apply (sk_tmp _ _ _ Hs).
  - split; cbn; [by eapply Close_inv| |constructor]. by intros sg Hsg%elem_of_nil.
  - assert (Hok : disk_ok root (wrote puts) f).
    { apply elem_of_cons in Hf as [->|Hf]; [by eapply di_disk|]. eapply Forall_forall in Hf; [exact Hf|by eapply di_past]. }
    destruct (NewDiskCache_spec root (wrote puts) order now p f Hok Hv Ho) as (c2 & es & Heq & Hop).
    rewrite Heq in Hnew. injection Hnew as <- <-. split; cbn; [by apply (op_dinv _ _ _ _ _ _ _ Hop)| |constructor].
    by intros sg Hsg%elem_of_nil.
Qed.

Lemma reach_ok w : reach w -> world_ok w.
Proof.
  induction 1 as [order now p f f' c Hok Ho Hv Hnew|w w' _ IH Hs]; [|by eapply step_ok].
  assert (Hok' : disk_ok root (wrote []) f) by (eapply disk_ok_mono; [|done]; done).
  destruct (NewDiskCache_spec root (wrote []) order now p f Hok' Hv Ho) as (c2 & es & Heq & Hop).
  rewrite Heq in Hnew. injection Hnew as <- <-. split; cbn; [by apply (op_dinv _ _ _ _ _ _ _ Hop)| |constructor].
  by intros sg Hsg%elem_of_nil.
Qed.

(** ** What a restart finds *)
Lemma disks_ok w f : reach w -> f ∈ disks (w_cache w) -> disk_ok root (wrote (w_puts w)) f.
Proof.
  intros Hw%reach_ok [->|Hf]%elem_of_cons; pose proof (wo_cache _ Hw) as Hi; [by eapply di_disk|].
  eapply Forall_forall in Hf; [exact Hf|by eapply di_past].
Qed.

(** The entry of a pair of files. *)
Lemma entry_of_pair W c id b m : dinv root W [] c -> pair_at root (dc_fs c) id b m ->
  exists e, lookupEntry (dc_lru c) id = Some e /\ matches (policy (dc_lru c)) m e.
Proof.
  intros Hi Hp. pose proof Hp as [Hb Hm].
  destruct (di_file _ _ _ _ Hi _ id (or_introl (ex_intro _ _ Hb))) as [_ [[e He]|Hn]]; [|by apply elem_of_nil in Hn].
  exists e. split; [done|]. destruct (di_entry _ _ _ _ Hi _ _ He) as (b' & m' & [Hb' Hm'] & Hma).
  rewrite Hm in Hm'. by injection Hm' as <-.
Qed.

Lemma sumSizes_pairs (l : list diskEntry) : sumSizes l = foldr Z.add 0 (map snd (map (fun e => (de_blobID e, de_sizeBytes e)) l)).
Proof. induction l as [|e l IH]; [done|]. cbn. f_equal. exact IH. Qed.

Lemma foldr_sub_le (l k : list (string * Z)) : l ⊆+ k -> (forall x, x ∈ k -> 0 <= x.2) ->
  foldr Z.add 0 (map snd l) <= foldr Z.add 0 (map snd k).
Proof.
  induction 1 as [|x l k _ IH|x y l|x l k _ IH|l k r Hlk IH1 Hkr IH2]; intros Hx; cbn [map foldr].
  - done.
  - specialize (IH ltac:(intros y Hy; apply Hx; by apply list_elem_of_further)). lia.
  - lia.
  - specialize (IH ltac:(intros y Hy; apply Hx; by apply list_elem_of_further)).
    pose proof (Hx x (list_elem_of_here _ _)). lia.
  - etransitivity; [apply IH1|by apply IH2]. intros x Hin. apply Hx. eapply elem_of_submseteq; done.
Qed.

Lemma live_bytes W c c' now p entries : dinv root W [] c ->
  opened root W now p (dc_fs c) c' entries -> sumSizes (live now entries) <= bytesUsed (dc_lru c).
Proof.
  intros Hi Hop. pose proof (di_wf _ _ _ _ Hi) as Hwf. rewrite (wf_bytes _ Hwf), <- sumSizes_app, !sumSizes_pairs.
  apply foldr_sub_le.
  - apply NoDup_submseteq.
    + apply (NoDup_fmap_1 fst). rewrite <- list_fmap_compose.
      eapply sublist_NoDup; [apply (op_nodup _ _ _ _ _ _ _ Hop)|]. apply (fmap_sublist de_blobID). apply sublist_filter.
    + intros x (e & -> & [_ He]%list_elem_of_filter)%list_elem_of_fmap. apply list_elem_of_fmap.
      destruct (op_entries _ _ _ _ _ _ _ Hop e He) as (b & m & Hp & ->).
      destruct (entry_of_pair _ _ _ _ _ Hi Hp) as (e2 & He2 & Hm). exists e2.
      pose proof (lookupEntry_id _ _ _ Hwf He2) as Hid. cbn in Hid. apply lookup_lists in He2 as [Hin _]; [|done].
      split; [|by apply elem_of_app]. destruct Hm as (Hid2 & Hsz & _). cbn [loaded de_blobID de_sizeBytes]. congruence.
  - intros x (e & -> & He%elem_of_app)%list_elem_of_fmap. cbn.
    assert (Hl : lookupEntry (dc_lru c) (de_blobID e) = Some e) by (apply lookup_lists; [done|by split]).
    destruct (di_entry _ _ _ _ Hi _ _ Hl) as (b & m & Hp & (_ & <- & _)).
    destruct (pair_ok _ _ _ _ _ _ (di_disk _ _ _ _ Hi) Hp) as (_ & _ & -> & _). apply len_nonneg.
Qed.

Lemma warmed_fields p m : let e := warmed p (loaded m) in
  de_sizeBytes e = mf_SizeBytes m /\ de_hash e = mf_Hash m /\ de_storedAt e = mf_StoredAt m /\
  de_nonEvictable e = mf_NonEvictable m /\ de_pinned e = mf_Pinned m && kindHot p /\ de_hits e = mf_HitCount m.
Proof.
  unfold warmed. cbn. destruct (mf_Pinned m && kindHot p) eqn:Hp; cbn; [|by rewrite ?Hp].
  by apply andb_true_iff in Hp as [-> _].
Qed.

(** ** Properties *)

(** C7: a crash between any two system calls, whatever calls were running,
    leaves a disk that opens without an error, and the reopened cache serves
    nothing torn: a hit returns the whole body of one Put that was begun, with
    the size, hash and non-evictable flag of that same Put. *)
Theorem crash_recovers w f order now p :
  reach w -> f ∈ disks (w_cache w) -> (forall l, order l ≡ₚ l) -> Validate p = Ok tt ->
  exists c, NewDiskCache order now (Some root) p f = (dc_fs c, Ok c) /\
    forall now' id c' rd md, Get now' id c = (c', Ok (rd, md)) ->
      exists b o, (id, b, o) ∈ w_puts w /\ rd = bytes_NewReader b /\
        md_SizeBytes md = len b /\ md_Hash md = po_Hash o /\ md_NonEvictable md = po_NonEvictable o.
Proof.
  intros Hw Hf Ho Hv.
  destruct (NewDiskCache_spec root _ order now p f (disks_ok _ _ Hw Hf) Hv Ho) as (c & es & Heq & Hop).
  exists c. split; [done|]. intros now' id c' rd md Hg. pose proof (op_dinv _ _ _ _ _ _ _ Hop) as Hi.
  destruct (Get_spec _ _ _ _ _ _ _ _ Hi Hg) as (_ & _ & _ & _ & _ & e & b & m & He & _ & Hp & -> & ->).
  destruct (pair_ok _ _ _ _ _ _ (di_disk _ _ _ _ Hi) Hp) as (_ & _ & _ & n & q & o & Hin & Hm).
  destruct (entry_of_pair _ _ _ _ _ Hi Hp) as (e' & He' & Hma). rewrite He in He'. injection He' as <-.
  destruct Hma as (_ & Hsz & Hh & _ & _ & Hne & _). rewrite Hm in *.
  exists b, o. cbn in *. by rewrite <- Hsz, <- Hh, <- Hne.
Qed.

(** C8: a restart loses no entry it has room for: an entry that is not
    past its deadline and that is non-evictable, or fits with all the others
    in the new policy's [MaxBytes], is served after the restart with the same
    body, hash, storage time and flags as before. Only the hit count is lost:
    it starts again at one. *)
Theorem restart_keeps w order now p f' c id e :
  reach w -> (forall l, order l ≡ₚ l) -> Validate p = Ok tt ->
  NewDiskCache order now (Some root) p (dc_fs (w_cache w)) = (f', Ok c) ->
  lookupEntry (dc_lru (w_cache w)) id = Some e -> expiredD now e = false ->
  de_nonEvictable e = true \/ MaxBytes p <= 0 \/ bytesUsed (dc_lru (w_cache w)) <= MaxBytes p ->
  exists b md md', (Get now id (w_cache w)).2 = Ok (bytes_NewReader b, md) /\
    (Get now id c).2 = Ok (bytes_NewReader b, md') /\
    md_SizeBytes md' = md_SizeBytes md /\ md_Hash md' = md_Hash md /\ md_StoredAt md' = md_StoredAt md /\
    md_NonEvictable md' = md_NonEvictable md /\
    (Kind p = Kind (policy (dc_lru (w_cache w))) -> md_Pinned md' = md_Pinned md) /\ md_HitCount md' = 1.
Proof.
  intros Hw Ho Hv Hnew He Hexp Hk. pose proof (wo_cache _ (reach_ok _ Hw)) as Hi.
  destruct (NewDiskCache_spec root _ order now p _ (di_disk _ _ _ _ Hi) Hv Ho) as (c2 & es & Heq & Hop).
  rewrite Heq in Hnew. injection Hnew as _ ->. pose proof (op_dinv _ _ _ _ _ _ _ Hop) as Hi2.
  destruct (di_entry _ _ _ _ Hi _ _ He) as (b & m & Hp & Hid & Hsz & Hh & Hst & Hex & Hne & Hpin).
  pose proof (op_pairs _ _ _ _ _ _ _ Hop _ _ _ Hp) as Hin.
  destruct (pair_ok _ _ _ _ _ _ (di_disk _ _ _ _ Hi) Hp) as (_ & Hmid & _ & n & q & o & _ & Hm).
  assert (Hlive : loaded m ∈ live now es).
  { apply list_elem_of_filter. split; [|done]. unfold expiredD in *. cbn [loaded de_expiresAt]. by rewrite Hex. }
  assert (He2 : lookupEntry (dc_lru c) id = Some (warmed p (loaded m))).
  { rewrite <- Hmid. apply (op_kept _ _ _ _ _ _ _ Hop (loaded m) Hlive). cbn [loaded de_nonEvictable]. rewrite Hne.
    destruct Hk as [?|[?|?]]; [by left|right; by left|right; right].
    etransitivity; [by apply (live_bytes _ _ _ now p es Hi Hop)|done]. }
  assert (Hexp2 : expiredD now (warmed p (loaded m)) = false).
  { pose proof Hlive as [Hx _]%list_elem_of_filter. revert Hx. unfold warmed, expiredD.
    cbn [loaded de_expiresAt de_lastAccess upd eta_expand eta_diskEntry]. by destruct (_ && kindHot p). }
  destruct (Get now id (w_cache w)) as [c1' r1] eqn:Hg1, (Get now id c) as [c2' r2] eqn:Hg2.
  destruct (Get_spec _ _ _ _ _ _ _ _ Hi Hg1) as (_ & _ & _ & _ & _ & Hr1).
  destruct (Get_spec _ _ _ _ _ _ _ _ Hi2 Hg2) as (_ & _ & _ & _ & _ & Hr2).
  destruct r1 as [[rd1 md1]|]; [|destruct Hr1 as [_ Hr1]; by rewrite (Hr1 _ He) in Hexp].
  destruct r2 as [[rd2 md2]|]; [|destruct Hr2 as [_ Hr2]; by rewrite (Hr2 _ He2) in Hexp2].
  destruct Hr1 as (e1 & b1 & m1 & He1 & _ & Hp1 & -> & ->), Hr2 as (e2 & b2 & m2 & He2' & _ & Hp2 & -> & ->).
  rewrite He in He1. injection He1 as <-. rewrite He2 in He2'. injection He2' as <-.
  pose proof (pair_same root _ _ _ _ _ _ Hp Hp1) as ->.
  assert (b2 = b) as ->.
  { destruct Hp2 as [Hp2 _], Hp as [Hp _]. pose proof (op_content _ _ _ _ _ _ _ Hop id _ b2 He2 Hp2). congruence. }
  exists b, (metadataOfD (bumpD now e)), (metadataOfD (bumpD now (warmed p (loaded m)))).
  split; [done|]. split; [done|].
  assert (Hhits : mf_HitCount m = 0) by (by rewrite Hm).
  destruct (warmed_fields p m) as (W1 & W2 & W3 & W4 & W5 & W6).
  cbn [metadataOfD bumpD upd eta_expand eta_diskEntry md_SizeBytes md_Hash md_StoredAt md_NonEvictable md_Pinned md_HitCount
       de_sizeBytes de_hash de_storedAt de_nonEvictable de_pinned de_hits].
  rewrite W1, W2, W3, W4, W5, W6, Hhits, Hsz, Hh, Hst, Hne, Hpin. unfold kindHot. do 4 (split; [done|]). split; [|done].
  by intros ->.
Qed.
End machine.

(** ** Witnesses *)
Definition ex_root : path := ["c"].
Definition ex_policy : EvictionPolicy := mkEvictionPolicy EvictionLRU 100 (f64_of_Z 0) 0 0.
Definition ex_opts : PutOptions := mkPutOptions 0 "h" 0 false true.
Definition ex_disk : fs metaFile := {[ ex_root := Dir ]}.
Definition ex_order (l : list string) : list string := l.
Definition ex_open := NewDiskCache ex_order 1 (Some ex_root) ex_policy ex_disk.
Definition ex_cache : DiskCache := match ex_open.2 with Ok c => c | Err _ => mkDiskCache ex_root (newLru ex_policy) ex_disk [] end.
Definition ex_reader (n : nat) : reader := bytes_NewReader (repeat x01 n).
Definition ex_staged := stage "1" "ab" (Some (ex_reader 3)) ex_cache.
Definition ex_tmp (id : string) : path := tmpPath ex_root id "1".
Definition ex_published := publish 2 "ab" (ex_tmp "ab") 3 ex_opts ex_staged.1.
Definition ex_world : world :=
  mkWorld ex_published.1 [] [("ab", repeat x01 3, ex_opts)].

Lemma ex_disk_ok W : disk_ok ex_root W ex_disk.
Proof.
  assert (Hno : forall s n, ex_disk !! at_ ex_root s n = None) by (intros; by apply lookup_singleton_ne).
  split.
  - intros k Hk. cbn in Hk. by replace k with 1%nat by lia.
  - intros s n x. by rewrite Hno.
  - intros s n x. by rewrite Hno.
  - intros s n x. by rewrite Hno.
  - intros s n. by rewrite Hno.
  - intros s n b m. by rewrite Hno.
Qed.

Lemma ex_reach : reach ex_root ex_world.
Proof.
  eapply reach_step; [eapply reach_step; [eapply (reach_open _ ex_order 1 ex_policy ex_disk)|]|].
  - apply ex_disk_ok.
  - done.
  - done.
  - instantiate (1 := ex_cache). instantiate (1 := ex_open.1). vm_compute. reflexivity.
  - apply (step_stage _ "1" "ab" (ex_reader 3) ex_opts ex_cache ex_staged.1 (ex_tmp "ab") 3); [done|]. vm_compute. reflexivity.
  - apply (step_publish _ 2 (mkStaged "ab" (ex_tmp "ab") (repeat x01 3) ex_opts) _ ex_published.1 (Ok tt) [] []).
    vm_compute. reflexivity.
Qed.

(** The disk between the two renames of the first Put: the body is there
    and its metadata is not. *)
Definition ex_torn : fs metaFile := nth 2 (disks ex_published.1) ex_disk.
Lemma ex_torn_body : (ex_torn !! (["c"; "ab"; "ab.bin"] : path), ex_torn !! (["c"; "ab"; "ab.meta.json"] : path)) = (Some (File (repeat x01 3)), None).
Proof. vm_compute. reflexivity. Qed.

Lemma crash_recovers_witness :
  exists c, NewDiskCache ex_order 9 (Some ex_root) ex_policy ex_torn = (dc_fs c, Ok c) /\
    forall now' id c' rd md, Get now' id c = (c', Ok (rd, md)) ->
      exists b o, (id, b, o) ∈ w_puts ex_world /\ rd = bytes_NewReader b /\
        md_SizeBytes md = len b /\ md_Hash md = po_Hash o /\ md_NonEvictable md = po_NonEvictable o.
Proof.
  apply (crash_recovers ex_root ex_world ex_torn ex_order 9 ex_policy); [exact ex_reach| |done|reflexivity].
  apply list_elem_of_lookup. exists 2%nat. reflexivity.
Defined.

(** The same disk after the crash, and the entry kept over a restart. *)
Definition ex_reopened := NewDiskCache ex_order 9 (Some ex_root) ex_policy (dc_fs (w_cache ex_world)).
Definition ex_kept : DiskCache := match ex_reopened.2 with Ok c => c | Err _ => ex_cache end.

Lemma restart_keeps_witness : exists e b md md',
  lookupEntry (dc_lru (w_cache ex_world)) "ab" = Some e /\
  (Get 9 "ab" (w_cache ex_world)).2 = Ok (bytes_NewReader b, md) /\
  (Get 9 "ab" ex_kept).2 = Ok (bytes_NewReader b, md') /\ md_HitCount md' = 1.
Proof.
  pose (e := newEntryD 2 ex_policy "ab" 3 ex_opts). exists e.
  assert (He : lookupEntry (dc_lru (w_cache ex_world)) "ab" = Some e) by (vm_compute; reflexivity).
  assert (Hnew : NewDiskCache ex_order 9 (Some ex_root) ex_policy (dc_fs (w_cache ex_world)) = (ex_reopened.1, Ok ex_kept)).
  { unfold ex_kept. apply run_eq. vm_compute. reflexivity. }
  destruct (restart_keeps ex_root ex_world ex_order 9 ex_policy _ _ "ab" e ex_reach ltac:(done) eq_refl Hnew He eq_refl (or_introl eq_refl))
    as (b & md & md' & H1 & H2 & _ & _ & _ & _ & _ & H3).
  exists b, md, md'. exact (conj He (conj H1 (conj H2 H3))).
Defined.
