(* ===== verification/DiskRefine.v ===== *)
(** * The disk cache and the memory cache are the same cache

    Run one after another, the calls of [DiskCache] answer exactly as those
    of [MemoryCache] under the same policy: the bookkeeping of the disk cache
    is the image of the memory cache's under the map that forgets the bodies,
    and the bodies are in the files. *)
From Stdlib Require Import Strings.Ascii.
From S2P Require Import Prelude GoStd HotCache LruCore Fs MemoryCache DiskCache DiskCacheLaws DiskCacheProps.
Local Open Scope Z_scope.

(** ** Mapping the entries of an [lru] *)
Section map.
Context {E1 E2 : Type} `{CacheEntry E1, CacheEntry E2} (f : E1 -> E2).
Context (f_id : forall e, e_blobID (f e) = e_blobID e) (f_size : forall e, e_size (f e) = e_size e)
  (f_pin : forall e, e_pinned (f e) = e_pinned e) (f_ne : forall e, e_nonEvictable (f e) = e_nonEvictable e).

Definition mapLru (l : lru E1) : lru E2 :=
  mkLru (policy l) (hot l) (main l) (index l) (f <$> heap l) (nextEl l) (bytesUsed l) (hotLimit l) (hotBytes l) (stats l).

Lemma mapLru_new p : newLru p = mapLru (newLru p).
Proof. unfold mapLru. cbn. by rewrite fmap_empty. Qed.

Lemma mapLru_lookup l id : lookupEntry (mapLru l) id = f <$> lookupEntry l id.
Proof. unfold lookupEntry. cbn. destruct (index l !! id) as [el|]; [|done]. cbn. by rewrite lookup_fmap. Qed.

Lemma mapLru_remove el l : removeLocked el (mapLru l) = mapLru (removeLocked el l).
Proof.
  unfold removeLocked. cbn [heap mapLru]. rewrite lookup_fmap. destruct (heap l !! el) as [e|]; [|done]. cbn [fmap option_fmap option_map].
  rewrite f_pin, f_size, f_id. destruct (e_pinned e); unfold mapLru; cbn; by rewrite fmap_delete.
Qed.

Lemma mapLru_walk h k : walkPrev (f <$> h) k = walkPrev h k.
Proof.
  induction k as [|el k IH]; [done|]. cbn. rewrite lookup_fmap. destruct (h !! el) as [e|]; [|done]. cbn.
  by rewrite f_ne, IH.
Qed.

Lemma mapLru_main fuel n l : evictMainLoop fuel n (mapLru l) = mapLru (evictMainLoop fuel n l).
Proof.
  revert l. induction fuel as [|fuel IH]; intros l; [done|]. cbn [evictMainLoop mapLru heap bytesUsed policy main hot].
  destruct (_ >? _); [|done]. rewrite mapLru_walk. destruct (walkPrev _ _) as [b|]; [|done].
  fold (mapLru l). by rewrite mapLru_remove, IH.
Qed.

Lemma mapLru_hot fuel n l : evictHotLoop fuel n (mapLru l) = mapLru (evictHotLoop fuel n l).
Proof.
  revert l. induction fuel as [|fuel IH]; intros l; [done|]. cbn [evictHotLoop mapLru heap hotBytes hotLimit main hot].
  destruct (_ >? _); [|done]. rewrite mapLru_walk. destruct (walkPrev _ _) as [b|]; [|done].
  fold (mapLru l). by rewrite mapLru_remove, IH.
Qed.

Lemma mapLru_existing id l : removeExisting id (mapLru l) = mapLru (removeExisting id l).
Proof. unfold removeExisting. cbn [index mapLru]. destruct (index l !! id); [apply mapLru_remove|done]. Qed.

Lemma mapLru_push pin e n l : pushEntry pin (f e) n (mapLru l) = mapLru (pushEntry pin e n l).
Proof. unfold pushEntry. rewrite f_id. destruct pin; unfold mapLru; cbn; by rewrite fmap_insert. Qed.

Lemma mapLru_place e l : placeEntry (f e) (mapLru l) = mapLru (placeEntry e l).
Proof.
  unfold placeEntry. rewrite f_id, f_pin, f_size, mapLru_existing. set (l1 := removeExisting _ l).
  assert (Hh : (if e_pinned e then evictHotLocked (e_size e) (mapLru l1) else mapLru l1)
             = mapLru (if e_pinned e then evictHotLocked (e_size e) l1 else l1)).
  { destruct (e_pinned e); [|done]. unfold evictHotLocked. cbn [hotLimit hot mapLru]. destruct (_ <=? 0); [done|apply mapLru_hot]. }
  rewrite Hh. set (l2 := if e_pinned e then _ else _).
  assert (Hm : evictMainLocked (e_size e) (mapLru l2) = mapLru (evictMainLocked (e_size e) l2)).
  { unfold evictMainLocked. cbn [policy hot main mapLru]. destruct (_ <=? 0); [done|apply mapLru_main]. }
  rewrite Hm. apply mapLru_push.
Qed.

Lemma mapLru_touch (g1 : E1 -> E1) (g2 : E2 -> E2) el l : (forall e, g2 (f e) = f (g1 e)) ->
  touch el g2 (mapLru l) = mapLru (touch el g1 l).
Proof.
  intros Hg. unfold touch. cbn [heap mapLru]. rewrite lookup_fmap. destruct (heap l !! el) as [e|]; [|done]. cbn [fmap option_fmap option_map].
  rewrite f_pin, Hg. destruct (e_pinned e); unfold mapLru; cbn; by rewrite fmap_insert.
Qed.
End map.

(** An entry of the memory cache without its body. *)
Definition toDisk (e : memEntry) : diskEntry :=
  mkDiskEntry (blobID e) (len (body e)) (hash e) (storedAt e) (lastAccess e) (expiresAt e) (pinned e) (nonEvictable e) (hits e).

(** ** The simulation *)
Section sim.
Context (root : path).
Definition always (id : string) (b : bytes) (m : metaFile) : Prop := True.
Notation inv := (dinv root always []).

Record sim (m : MemoryCache) (c : DiskCache) : Prop := {
  sim_inv : inv c;
  sim_mem : mem_ok m;
  sim_lru : dc_lru c = mapLru toDisk m;
  sim_body : forall id e, lookupEntry m id = Some e -> dc_fs c !! at_ root (shardOf id) (id +:+ ".bin") = Some (File (body e));
  sim_tmp : forall s n, dc_fs c !! at_ root s (n +:+ ".tmp") = None;
  sim_shard : forall s, dc_fs c !! (root ++ [s]) = None \/ dc_fs c !! (root ++ [s]) = Some Dir
}.

(** Calls that only remove entries. *)
Lemma sim_shrunk m m' c c' : sim m c -> mem_ok m' -> inv c' -> shrunk root c c' -> dc_lru c' = mapLru toDisk m' ->
  (forall id e, lookupEntry m' id = Some e -> lookupEntry m id = Some e) -> sim m' c'.
Proof.
  intros [Hi Hm Hl Hb Ht Hs] Hm' Hi' [Kt Kk Ks] Hl' Hsub. split; try done.
  - intros id e He. rewrite (proj2 (Kk id ltac:(rewrite Hl', mapLru_lookup, He; by eexists))) by (by left).
    by apply Hb, Hsub.
  - intros s n. rewrite Kt. apply Ht.
  - intros s. rewrite Ks. apply Hs.
Qed.

Lemma shrunk_ext c c' c2 : shrunk root c c' -> dc_fs c2 = dc_fs c' -> (forall id, lookupEntry (dc_lru c2) id = lookupEntry (dc_lru c') id) ->
  shrunk root c c2.
Proof. intros [T K S] Hf Hl. split; rewrite Hf; [done| |done]. intros id. rewrite Hl. apply K. Qed.

Lemma sim_with m m' c l : sim m c -> mem_ok m' -> l = mapLru toDisk m' -> inv (c <| dc_lru := l |>) ->
  (forall id e, lookupEntry m' id = Some e -> exists e', lookupEntry m id = Some e' /\ body e' = body e) -> sim m' (c <| dc_lru := l |>).
Proof.
  intros [Hi Hm Hl Hb Ht Hs] Hm' -> Hi' Hsub. split; try done.
  intros id e He. destruct (Hsub _ _ He) as (e' & He' & <-). by apply Hb.
Qed.

Lemma Get_sim now id m c : sim m c -> valid id ->
  sim (MemoryCache.Get now id m).1 (Get now id c).1 /\ (MemoryCache.Get now id m).2 = (Get now id c).2.
Proof.
  intros Hsim Hv. pose proof Hsim as [Hi Hm Hl Hb Ht Hs].
  destruct (MemoryCache.Get now id m) as [m' r] eqn:Hgm, (Get now id c) as [c' r'] eqn:Hgd. cbn [fst snd].
  destruct (Get_mem_ok _ _ _ _ _ Hm Hgm) as [Hm' _].
  destruct (Get_spec _ _ _ _ _ _ _ _ Hi Hgd) as (Hi' & _).
  destruct (valid_plain _ Hv) as (Hne & _). pose proof (mo_wf _ Hm) as Hwf.
  unfold MemoryCache.Get in Hgm. rewrite bool_decide_false in Hgm by done. unfold Get in Hgd. rewrite Hv, Hl in Hgd.
  cbn [index heap mapLru] in Hgd. destruct (index m !! id) as [el|] eqn:Hx.
  2: { injection Hgm as <- <-. injection Hgd as <- <-. split; [|done]. eapply sim_with; [done|done|done|done|]. intros id' e He. by exists e. }
  pose proof Hx as (e & He & Hid)%(wf_index _ Hwf). rewrite lookup_fmap in Hgd. rewrite He in Hgm, Hgd.
  cbn [fmap option_fmap option_map] in Hgd. change (expiredD now (toDisk e)) with (expired now e) in Hgd.
  assert (Hld : lookupEntry m id = Some e) by (unfold lookupEntry; by rewrite Hx).
  destruct (expired now e).
  - injection Hgm as <- <-. injection Hgd as <- <-. split; [|done].
    assert (Hed : heap (dc_lru c) !! el = Some (toDisk e)) by (rewrite Hl; cbn; by rewrite lookup_fmap, He).
    destruct (removeLockedD_spec _ _ _ _ _ _ Hi Hed) as (Hlr & _ & Hi1). pose proof (removeLockedD_shrunk _ _ _ _ _ _ Hi Hed) as Hsh.
    assert (Hlm : dc_lru (removeLockedD el c) = mapLru toDisk (removeLocked el m)) by (by rewrite Hlr, Hl, mapLru_remove).
    assert (Hlk : forall id' e', lookupEntry (miss (removeLocked el m)) id' = Some e' -> lookupEntry m id' = Some e').
    { intros id' e'. change (lookupEntry (removeLocked el m) id' = Some e' -> lookupEntry m id' = Some e').
      rewrite (removeLocked_lookup _ _ e _ Hwf He). by case_decide. }
    assert (Hsh' : shrunk root c ((removeLockedD el c) <| dc_lru := miss (dc_lru (removeLockedD el c)) |>)).
    { eapply shrunk_ext; [exact Hsh|reflexivity|]. intros id'. reflexivity. }
    eapply sim_shrunk; [done|done|exact Hi'|exact Hsh'| |exact Hlk]. cbn [dc_lru upd eta_expand eta_DiskCache]. by rewrite Hlm.
  - assert (Ho : openFile (dc_fs c) (bodyPath (dc_root c) id) = Ok (body e)).
    { rewrite (di_root _ _ _ _ Hi), (bodyPath_eq root id Hv). by apply openFile_at, Hb. }
    match type of Hgd with context [openFile ?a ?p] =>
      change (openFile a p) with (openFile (dc_fs c) (bodyPath (dc_root c) id)) in Hgd end.
    rewrite Ho in Hgd. injection Hgm as <- <-. injection Hgd as <- <-. split; [|done].
    eapply sim_with; [done|done| |exact Hi'|].
    + by apply mapLru_touch.
    + intros id' e'. rewrite (touch_lookup _ _ e _ _ Hwf) by done. case_decide as Hd; [|by exists e'].
      cbn in Hid. rewrite Hd. cbn. rewrite Hid. intros [= <-]. by exists e.
Qed.

Lemma Evict_sim id m c : sim m c ->
  sim (MemoryCache.Evict id m).1 (Evict id c).1 /\ (MemoryCache.Evict id m).2 = (Evict id c).2.
Proof.
  intros Hsim. pose proof Hsim as [Hi Hm Hl Hb Ht Hs].
  rewrite Evict_removes. pose proof (Evict_mem_ok id m Hm) as Hm'. cbn. split; [|done].
  destruct (removeExistingD_spec _ _ _ id _ Hi) as (Hlr & Hi1 & Hsh).
  eapply sim_shrunk; [done|done|done|done|by rewrite Hlr, Hl, mapLru_existing|].
  intros id' e'. rewrite removeExisting_lookup by apply Hm. by case_decide.
Qed.

Lemma mkdirLoop_app (f : fs metaFile) pre p q :
  mkdirLoop f pre (p ++ q) = match mkdirLoop f pre p with Ok f' => mkdirLoop f' (pre ++ p) q | Err e => Err e end.
Proof.
  revert f pre. induction p as [|x p IH]; intros f pre; cbn [mkdirLoop app]; [by rewrite app_nil_r|].
  destruct (f !! (pre ++ [x])) as [[]|]; rewrite ?IH, <- ?app_assoc; done.
Qed.

Lemma mkdir_shard f s : disk_ok root always f -> f !! (root ++ [s]) = None \/ f !! (root ++ [s]) = Some Dir ->
  exists f', mkdirAll f (root ++ [s]) = Ok f' /\ f' !! (root ++ [s]) = Some Dir /\ forall q, q <> root ++ [s] -> f' !! q = f !! q.
Proof.
  intros Hok Hs. unfold mkdirAll. rewrite mkdirLoop_app, (mkdirLoop_exists f [] root) by (intros k; by apply (ok_root _ _ _ Hok)).
  cbn [mkdirLoop app]. destruct Hs as [Hs|Hs]; rewrite Hs.
  - eexists. split; [done|]. split; [apply lookup_insert_eq|]. intros q Hq. by apply lookup_insert_ne.
  - by exists f.
Qed.

(** [stage] on a disk without temporary files. *)
Lemma stage_run rnd id b c : inv c -> valid id -> isDecimal rnd = true ->
  (forall s n, dc_fs c !! at_ root s (n +:+ ".tmp") = None) ->
  (forall s, dc_fs c !! (root ++ [s]) = None \/ dc_fs c !! (root ++ [s]) = Some Dir) ->
  let mb := MaxBytes (policy (dc_lru c)) in
  let p := at_ root (shardOf id) (tmpName id rnd +:+ ".tmp") in
  let big := (0 <? mb) && (mb <? len b) in
  exists c', stage rnd id (Some (bytes_NewReader b)) c =
      (c', if big then Err (ErrNew "hotcache: blob %d bytes exceeds cache capacity %d") else Ok (p, len b)) /\
    (forall s n, (at_ root s (n +:+ ".tmp") <> p \/ big = true) -> dc_fs c' !! at_ root s (n +:+ ".tmp") = None) /\
    (forall s, dc_fs c' !! (root ++ [s]) = None \/ dc_fs c' !! (root ++ [s]) = Some Dir).
Proof.
  intros Hi Hv Hrnd Ht Hs mb p big. unfold stage, wrap, sys. unroll.
  rewrite Hv, (di_root _ _ _ _ Hi), (shardDir_eq root id Hv), (tmpPath_name root id rnd Hv Hrnd). fold p.
  destruct (mkdir_shard _ _ (di_disk _ _ _ _ Hi) (Hs (shardOf id))) as (f1 & Hm & Hd & Hf1). rewrite Hm.
  cbn [dc_fs setFs upd eta_expand eta_DiskCache]. unfold createTemp.
  assert (Hp1 : f1 !! p = None) by (rewrite Hf1 by apply at_shard; apply Ht).
  assert (Hw1 : writeNode f1 p (File []) = Ok (<[p := File []]> f1)) by (apply writeNode_at; [done|]; fold p; by rewrite Hp1).
  rewrite Hp1, Hw1.
  cbn [dc_fs setFs upd eta_expand eta_DiskCache rd_bytes rd_err bytes_NewReader].
  assert (Hd2 : <[p := File []]> f1 !! (root ++ [shardOf id]) = Some Dir) by (by rewrite lookup_insert_ne by apply at_shard).
  assert (Hw2 : writeNode (<[p := File []]> f1) p (File b) = Ok (<[p := File b]> f1)).
  { rewrite <- (insert_insert_eq f1 p (File b) (File [])). apply writeNode_at; [done|]. fold p. by rewrite lookup_insert_eq. }
  rewrite Hw2.
  fold mb. fold big.
  assert (Hq : forall s n, at_ root s (n +:+ ".tmp") <> p -> <[p := File b]> f1 !! at_ root s (n +:+ ".tmp") = None).
  { intros s n Hn. rewrite lookup_insert_ne by done. rewrite Hf1 by apply at_shard. apply Ht. }
  assert (Hsh : forall s, f1 !! (root ++ [s]) = None \/ f1 !! (root ++ [s]) = Some Dir).
  { intros s. destruct (decide (root ++ [s] = root ++ [shardOf id])) as [->|Hne]; [by right|]. rewrite Hf1 by done. apply Hs. }
  destruct big eqn:Hbig.
  - match goal with |- context [setFs (<[p:=File b]> f1) ?x] => set (c2 := setFs (<[p:=File b]> f1) x) end.
    exists (rm p c2). split; [reflexivity|].
    assert (Hrm : dc_fs (rm p c2) = delete p (<[p := File b]> f1)).
    { assert (Hc2 : dc_fs c2 !! p = Some (File b)) by apply lookup_insert_eq.
      pose proof (rm_at root c2 (shardOf id) (tmpName id rnd +:+ ".tmp")) as R. fold p in R. rewrite Hc2 in R. by rewrite R. }
    rewrite Hrm.
    split; intros s.
    + intros n _. destruct (decide (at_ root s (n +:+ ".tmp") = p)) as [->|Hne]; [apply lookup_delete_eq|].
      rewrite lookup_delete_ne by done. by apply Hq.
    + rewrite lookup_delete_ne, lookup_insert_ne by apply at_shard. apply Hsh.
  - eexists. split; [reflexivity|]. cbn [dc_fs setFs upd eta_expand eta_DiskCache]. split; intros s.
    + intros n [Hne|?]; [by apply Hq|done].
    + rewrite lookup_insert_ne by apply at_shard. apply Hsh.
Qed.

(** The memory cache refuses a declared size above the capacity before it
    reads the body; the disk cache looks at the bytes only. *)
Definition declaredFits (p : EvictionPolicy) (declared size : Z) : bool :=
  implb ((0 <? MaxBytes p) && (MaxBytes p <? declared)) (MaxBytes p <? size).
Definition sizeFits (m : MemoryCache) (o : PutOptions) (b : bytes) : Prop := declaredFits (policy m) (po_SizeBytes o) (len b) = true.

(** The answer of the memory cache to the Put of a finite body. *)
Lemma mem_Put_whole now id b o m : mem_ok m -> valid id -> sizeFits m o b ->
  let mb := MaxBytes (policy m) in
  MemoryCache.Put now id (Some (bytes_NewReader b)) o m =
    if (0 <? mb) && (mb <? len b) then (m, Err (ErrNew "hotcache: blob %d bytes exceeds cache capacity %d"))
    else (placeEntry (newEntry now (policy m) id b o) m, Ok tt).
Proof.
  intros Hm (Hne & _)%valid_plain Hsz mb. unfold MemoryCache.Put. rewrite bool_decide_false by done. fold mb.
  destruct ((0 <? po_SizeBytes o) && (0 <? mb) && (mb <? po_SizeBytes o)) eqn:Hbig.
  { apply andb_true_iff in Hbig as [[_ H0]%andb_true_iff H1]. unfold sizeFits, declaredFits in Hsz. fold mb in Hsz.
    rewrite H0, H1 in Hsz. cbn in Hsz. by rewrite H0, Hsz. }
  destruct (Z.ltb_spec 0 mb) as [Hmb|Hmb]; [|done]. cbn [andb].
  pose proof (mo_max _ Hm) as Hmax. unfold maxInt64 in Hmax. rewrite wrap64_small by (unfold int64_range; fold mb in Hmax; lia).
  unfold LimitReader, ReadAll, bytes_NewReader. cbn [rd_bytes rd_err]. destruct (Z.leb_spec (mb + 1) (len b)) as [Hl|Hl]; cbn [rd_err rd_bytes].
  - rewrite len_takeZ by lia. replace (mb <? Z.min (mb + 1) (len b)) with true by (symmetry; apply Z.ltb_lt; lia).
    by replace (mb <? len b) with true by (symmetry; apply Z.ltb_lt; lia).
  - done.
Qed.

Lemma Put_sim rnd now id b o m c : sim m c -> valid id -> isDecimal rnd = true -> sizeFits m o b ->
  sim (MemoryCache.Put now id (Some (bytes_NewReader b)) o m).1 (Put rnd now id (Some (bytes_NewReader b)) o c).1 /\
  (MemoryCache.Put now id (Some (bytes_NewReader b)) o m).2 = (Put rnd now id (Some (bytes_NewReader b)) o c).2.
Proof.
  intros Hsim Hv Hrnd Hsz. pose proof Hsim as [Hi Hm Hl Hb Ht Hs].
  destruct (MemoryCache.Put now id (Some (bytes_NewReader b)) o m) as [m' r] eqn:Hpm.
  destruct (Put_mem_ok _ _ _ _ _ _ _ Hm Hpm) as [Hm' _]. rewrite (mem_Put_whole now id b o m Hm Hv Hsz) in Hpm.
  destruct (stage_run rnd id b c Hi Hv Hrnd Ht Hs) as (c1 & Hst & Ht1 & Hs1).
  destruct (stage_spec _ _ _ _ _ _ _ _ _ Hi Hrnd Hst) as (Hi1 & [Hl1 Hk1] & Hst').
  unfold Put. unroll. rewrite Hst. rewrite Hl in *. cbn [policy mapLru] in *.
  assert (Hkeep : forall id' e, lookupEntry m id' = Some e -> dc_fs c1 !! at_ root (shardOf id') (id' +:+ ".bin") = Some (File (body e))).
  { intros id' e He. rewrite Hk1 by (rewrite (Hb _ _ He); by eexists). by apply Hb. }
  destruct ((0 <? MaxBytes (policy m)) && (MaxBytes (policy m) <? len b)) eqn:Hbig.
  - injection Hpm as <- <-. cbn [fst snd]. split; [|done]. split; try done. intros s n. apply Ht1. by right.
  - injection Hpm as <- <-. destruct Hst' as (_ & _ & _ & rd & [= <-] & _ & _ & Hf & _). cbn [rd_bytes bytes_NewReader] in Hf.
    destruct (publish_spec root always now id (tmpName id rnd) (len b) o c1 _ b Hi1 Hv Hf eq_refl eq_refl)
      as (c2 & Hpub & Hi2 & Hl2 & Hp2 & Hot & _ & Htmp2 & Hsh2); [done|].
    rewrite Hpub. cbn [fst snd]. split; [|done]. rewrite Hl1 in Hl2. cbn [policy mapLru] in Hl2.
    change (newEntryD now (policy m) id (len b) o) with (toDisk (newEntry now (policy m) id b o)) in Hl2.
    rewrite mapLru_place in Hl2 by done. split; try done.
    + intros id' e' He'. destruct (decide (id' = id)) as [->|Hne].
      * pose proof (placeEntry_lookup (newEntry now (policy m) id b o) m (mo_wf _ Hm)) as He.
        cbn [e_blobID memEntry_CacheEntry newEntry blobID] in He. rewrite He in He'. injection He' as <-. apply Hp2.
      * destruct (Hot id' Hne) as [_ Hq]; [rewrite Hl2, mapLru_lookup, He'; by eexists|].
        rewrite Hq by (by left). apply Hkeep. by apply (placeEntry_others (newEntry now (policy m) id b o) m id' e' (mo_wf _ Hm) Hne).
    + intros s n. apply Htmp2. intros Hne. apply Ht1. by left.
    + intros s. rewrite Hsh2. apply Hs1.
Qed.
End sim.

(** ** Runs over any cache *)
Inductive answer := AGet (r : result (reader * Metadata)) | ADone (r : result unit).

Definition answer1 {C} `{Cache C} (o : op) (c : C) : C * answer :=
  match o with
  | OpGet now id => let '(c, r) := c_Get now id c in (c, AGet r)
  | OpPut now id r po => let '(c, r) := c_Put now id r po c in (c, ADone r)
  | OpEvict id => let '(c, r) := c_Evict id c in (c, ADone r)
  end.
Fixpoint answers {C} `{Cache C} (ops : list op) (c : C) : list answer :=
  match ops with
  | [] => []
  | o :: ops' => let '(c, a) := answer1 o c in a :: answers ops' c
  end.

(** Calls the two caches read alike: keys that are file names, bodies in
    memory, no declared size above the capacity for a body that fits it. *)
Definition plainOp (p : EvictionPolicy) (o : op) : Prop :=
  match o with
  | OpGet _ id | OpEvict id => valid id
  | OpPut _ id r po => valid id /\ exists b, r = Some (bytes_NewReader b) /\ declaredFits p (po_SizeBytes po) (len b) = true
  end.

Lemma answer1_policy o (m : MemoryCache) : mem_ok m -> policy (answer1 o m).1 = policy m.
Proof.
  intros Hm. destruct o as [now id|now id r po|id]; cbn [answer1 c_Get c_Put c_Evict MemoryCache_Cache].
  - destruct (MemoryCache.Get now id m) eqn:Hg. by apply (Get_mem_ok _ _ _ _ _ Hm Hg).
  - destruct (MemoryCache.Put now id r po m) eqn:Hp. by apply (Put_mem_ok _ _ _ _ _ _ _ Hm Hp).
  - rewrite Evict_removes. apply removeExisting_policy.
Qed.

Lemma answer1_sim root rnd o (m : MemoryCache) c : (forall c, isDecimal (rnd c) = true) -> plainOp (policy m) o -> sim root m c ->
  sim root (answer1 o m).1 (@answer1 DiskCache (Disk_Cache rnd) o c).1 /\ (answer1 o m).2 = (@answer1 DiskCache (Disk_Cache rnd) o c).2.
Proof.
  intros Hrnd Ho Hsim. destruct o as [now id|now id r po|id]; cbn [answer1 c_Get c_Put c_Evict MemoryCache_Cache Disk_Cache plainOp] in *.
  - destruct (Get_sim root now id m c Hsim Ho) as [H1 H2].
    destruct (MemoryCache.Get now id m), (Get now id c). cbn in *. by rewrite H2.
  - destruct Ho as (Hv & b & -> & Hsz). destruct (Put_sim root (rnd c) now id b po m c Hsim Hv (Hrnd c) Hsz) as [H1 H2].
    destruct (MemoryCache.Put _ _ _ _ m), (Put _ _ _ _ _ c). cbn in *. by rewrite H2.
  - destruct (Evict_sim root id m c Hsim) as [H1 H2].
    destruct (MemoryCache.Evict id m), (Evict id c). cbn in *. by rewrite H2.
Qed.

Lemma answers_sim root rnd p ops (m : MemoryCache) c : (forall c, isDecimal (rnd c) = true) -> Forall (plainOp p) ops -> policy m = p -> sim root m c ->
  answers ops m = @answers DiskCache (Disk_Cache rnd) ops c.
Proof.
  intros Hrnd Hops. revert m c. induction Hops as [|o ops Ho _ IH]; intros m c Hp Hsim; [done|]. cbn [answers].
  pose proof (answer1_policy o m (sim_mem _ _ _ Hsim)) as Hp'. rewrite <- Hp in Ho.
  destruct (answer1_sim root rnd o m c Hrnd Ho Hsim) as [Hsim' Ha].
  destruct (answer1 o m) as [m' a], (@answer1 DiskCache (Disk_Cache rnd) o c) as [c' a']. cbn [fst snd] in *. rewrite Ha. f_equal.
  apply IH; [congruence|done].
Qed.

(** A cache root with nothing in it. *)
Definition emptyRoot (root : path) (f : fs metaFile) : Prop :=
  disk_ok root always f /\ forall s, f !! (root ++ [s]) = None.

Lemma emptyRoot_at root f s n : emptyRoot root f -> f !! at_ root s n = None.
Proof.
  intros [Hok Hno]. destruct (f !! at_ root s n) as [x|] eqn:Hx; [|done]. specialize (Hno s). by rewrite (ok_parent _ _ _ Hok _ _ _ Hx) in Hno.
Qed.

Lemma NewDiskCache_empty root order now p f : emptyRoot root f -> Validate p = Ok tt ->
  NewDiskCache order now (Some root) p f = (f, Ok (mkDiskCache root (newLru p) f [])).
Proof.
  intros [Hok Hno] Hval. unfold NewDiskCache.
  assert (Hk : bool_decide (Kind p = "") = false).
  { apply bool_decide_eq_false. intros Hk. unfold Validate in Hval. rewrite Hk in Hval. done. }
  rewrite Hk, Hval. unfold mkdirAll. rewrite (mkdirLoop_exists f [] root) by (intros k; by apply (ok_root _ _ _ Hok)).
  assert (Hrd : readDir f root = Ok []).
  { assert (Hch : children f root = []).
    { destruct (children f root) as [|[s nd] l] eqn:Hc; [done|].
      assert (Hin : (s, nd) ∈ children f root) by (rewrite Hc; apply list_elem_of_here).
      apply elem_of_children in Hin. by rewrite Hno in Hin. }
    pose proof (isDir_root root f (ok_root _ _ _ Hok)) as Hd. unfold readDir, stat, isDir in *. rewrite Hch. destruct root as [|x q]; [done|].
    destruct (f !! _) as [[]|]; done. }
  unfold warm, readShards. unroll. cbn [dc_fs dc_root]. rewrite Hrd. cbn [readShardList ret foldl].
  set (c := mkDiskCache root (newLru p) f []).
  change (foldl (fun c e => warmOne now e c) c (sort_Slice (fun a b => Before (de_storedAt a) (de_storedAt b)) [])) with c.
  match goal with |- context [if 0 <? MaxBytes (policy (dc_lru ?x)) then _ else _] => change x with c end.
  assert (Hev : evictMainD 0 c = c).
  { unfold evictMainD. cbn [c dc_lru policy newLru]. destruct (Z.leb_spec (MaxBytes p) 0) as [|Hm]; [done|].
    cbn [length hot main app evictMainLoopD dc_lru bytesUsed policy Nat.add newLru]. destruct (_ >? _) eqn:Hg; [|done].
    apply Z.gtb_lt in Hg. cbn in Hg. lia. }
  rewrite Hev. by destruct (0 <? _).
Qed.

Lemma newLru_lookup {E} `{CacheEntry E} p id (e : E) (Q : Prop) : lookupEntry (newLru p) id = Some e -> Q.
Proof. unfold lookupEntry, newLru. cbn [index]. by rewrite lookup_empty. Qed.

Lemma emptyRoot_sim root p f : emptyRoot root f -> MaxBytes p < maxInt64 ->
  sim root (newLru p) (mkDiskCache root (newLru p) f []).
Proof.
  intros He Hmax. pose proof He as [Hok Hno].
  split; cbn [dc_fs dc_lru].
  - split; cbn; try done.
    + apply newLru_wf.
    + intros s n [[x Hx]|[x Hx]]; by rewrite (emptyRoot_at _ _ _ _ He) in Hx.
    + intros e H%elem_of_nil. done.
  - split; [apply newLru_wf|unfold lookupEntry; cbn; by rewrite lookup_empty|done].
  - apply mapLru_new.
  - intros id e Hx. exact (newLru_lookup p id e _ Hx).
  - intros s n. by apply emptyRoot_at.
  - intros s. left. apply Hno.
Qed.

(** ** Properties *)

(** C6: over any sequence of calls the two caches read alike ([plainOp]:
    identifiers that the disk cache takes as file names, bodies that are
    bytes in memory, no declared size above the capacity for a body that
    fits it), made one after another at any times, a disk cache opened on an
    empty directory answers exactly as a memory cache with the same policy,
    whatever its kind, limits (below MaxInt64), deadlines and pins: the same
    hits with the same bodies and metadata, the same misses and errors - so
    both evict the same entries at the same calls. Outside these calls the
    two differ: [identifiers_differ], [declared_sizes_differ]. *)
Theorem disk_memory_equivalent root rnd order now p f m ops :
  (forall c, isDecimal (rnd c) = true) -> emptyRoot root f -> MaxBytes p < maxInt64 ->
  NewMemoryCache p = Ok m -> Kind p <> "" -> Forall (plainOp p) ops ->
  exists c, NewDiskCache order now (Some root) p f = (f, Ok c) /\
    answers ops m = @answers DiskCache (Disk_Cache rnd) ops c.
Proof.
  intros Hrnd He Hmax Hm Hk Hops. apply Validate_normalized in Hm as (q & -> & Hv & Hq).
  rewrite bool_decide_false in Hq by done. subst q.
  exists (mkDiskCache root (newLru p) f []). split; [by apply NewDiskCache_empty|].
  by apply (answers_sim root rnd p); [..|apply emptyRoot_sim].
Qed.

(** ** Witnesses *)
Definition ex_root : path := ["c"].
Definition ex_policy : EvictionPolicy := mkEvictionPolicy EvictionLRUHotPin 10 (f64_lit 1 2) 1 0.
Definition ex_disk : fs metaFile := {[ ex_root := Dir ]}.
Definition ex_put (now : Time) (id : string) (n : nat) (pin : bool) : op :=
  OpPut now id (Some (bytes_NewReader (repeat x01 n))) (mkPutOptions 0 "h" 0 pin false).
Definition ex_ops : list op :=
  [ex_put 1 "ab" 4 true; ex_put 2 "cd" 5 false; OpGet 3 "ab"; ex_put 4 "ef" 4 true; OpGet 5 "ab"; OpGet 6 "cd";
   ex_put 7 "big" 11 false; OpEvict "cd"; OpGet 8 "cd"].

Lemma ex_empty : emptyRoot ex_root ex_disk.
Proof.
  assert (Hno : forall s n, ex_disk !! at_ ex_root s n = None) by (intros; by apply lookup_singleton_ne).
  split; [split|].
  - intros k Hk. cbn in Hk. by replace k with 1%nat by lia.
  - intros s n x. by rewrite Hno.
  - intros s n x. by rewrite Hno.
  - intros s n x. by rewrite Hno.
  - intros s n. by rewrite Hno.
  - intros s n b m. by rewrite Hno.
  - intros s. by apply lookup_singleton_ne.
Qed.

Lemma disk_memory_equivalent_witness :
  exists c, NewDiskCache (fun l => l) 0 (Some ex_root) ex_policy ex_disk = (ex_disk, Ok c) /\
    answers ex_ops (newLru ex_policy : MemoryCache) = @answers DiskCache (Disk_Cache (fun _ => "7")) ex_ops c.
Proof.
  apply (disk_memory_equivalent ex_root (fun _ => "7") (fun l => l) 0 ex_policy ex_disk (newLru ex_policy) ex_ops).
  - reflexivity.
  - exact ex_empty.
  - reflexivity.
  - reflexivity.
  - discriminate.
  - assert (Hp : forall now id n pin, valid id -> plainOp ex_policy (ex_put now id n pin)).
    { intros now id n pin Hv. split; [exact Hv|]. exists (repeat x01 n). split; reflexivity. }
    repeat (apply Forall_cons_2; [first [apply Hp; reflexivity|reflexivity]|]). apply Forall_nil_2.
Defined.

(** The answers of that run: the pinned "ab" is dropped for "ef", "cd" stays. *)
Lemma ex_answers : map (fun a => match a with AGet r => is_Ok r | ADone r => is_Ok r end) (answers ex_ops (newLru ex_policy : MemoryCache))
  = [true; true; true; true; false; true; false; true; false].
Proof. vm_compute. reflexivity. Qed.

(** An entry with a deadline: the same answers before and behind it. *)
Definition ex_ttlOps : list op :=
  [OpPut 10 "ab" (Some (bytes_NewReader [x01])) (mkPutOptions 1 "h" 5 false false); OpGet 12 "ab"; OpGet 16 "ab"].

Example ttl_answers :
  map (fun a => match a with AGet r => is_Ok r | ADone r => is_Ok r end) (answers ex_ttlOps (newLru ex_policy : MemoryCache)) = [true; true; false]
  /\ match NewDiskCache (fun l => l) 0 (Some ex_root) ex_policy ex_disk with
     | (_, Ok c) => answers ex_ttlOps (newLru ex_policy : MemoryCache) = @answers DiskCache (Disk_Cache (fun _ => "7")) ex_ttlOps c
     | _ => False
     end.
Proof. split; vm_compute; reflexivity. Qed.

(** ** Where the two differ *)
Definition differ (ops : list op) : option (list bool * list bool) :=
  match NewDiskCache (fun l => l) 0 (Some ex_root) ex_policy ex_disk with
  | (_, Ok c) =>
      let good := map (fun a => match a with AGet r => is_Ok r | ADone r => is_Ok r end) in
      Some (good (answers ops (newLru ex_policy : MemoryCache)), good (@answers DiskCache (Disk_Cache (fun _ => "7")) ops c))
  | _ => None
  end.

(** The memory cache takes any non-empty identifier, the disk cache only what
    is a file name. *)
Example identifiers_differ :
  differ [ex_put 1 "a/b" 4 false; OpGet 2 "a/b"] = Some ([true; true], [false; false]).
Proof. vm_compute. reflexivity. Qed.

(** The memory cache refuses on the declared size, the disk cache counts. *)
Example declared_sizes_differ :
  differ [OpPut 1 "ab" (Some (bytes_NewReader [x01])) (mkPutOptions 11 "h" 0 false false)] = Some ([false], [true]).
Proof. vm_compute. reflexivity. Qed.
