(* ===== verification/Guardrails.v ===== *)
(** * pkg/storageguardrails/guardrails.go

    The fair-use guardrails: provider profiles, the default configuration,
    its validation, the residual billable window and the egress caps. *)
From S2P Require Import Prelude GoStd.
Local Open Scope Z_scope.

Definition WasabiMinStorageDays : Z := 90.
Definition WasabiStorageUSDPerTBMonth : float64 := f64_lit 699 100.

Record ProviderProfile := mkProviderProfile {
  pp_Name : string;
  pp_MinStorageDays : Z;
  pp_StorageUSDPerTB : float64;
  pp_EgressRatio : float64
}.

(** [ProfileFor]. *)
Definition ProfileFor (providerName : string) : ProviderProfile :=
  if bool_decide (providerName = "wasabi") then
    mkProviderProfile "wasabi" WasabiMinStorageDays WasabiStorageUSDPerTBMonth (f64_of_Z 1)
  else if bool_decide (providerName = "b2") then
    mkProviderProfile "b2" 0 (f64_of_Z 6) (f64_of_Z 10)
  else mkProviderProfile "s3" 0 (f64_of_Z 23) (f64_of_Z 0).

Record FairUseEgressBudget := mkBudget {
  eb_TenantID : string;
  eb_WindowStart : Time;
  eb_WindowDuration : Z;
  eb_EgressStorageRatio : float64;
  eb_SoftCapBytes : Z;
  eb_HardCapBytes : Z
}.

Record MinStorageTracker := mkMinStorageTracker {
  ms_TenantID : string;
  ms_PieceID : string;
  ms_StoredAt : Time;
  ms_DeletedAt : Time;
  ms_MinStorageDuration : Z
}.

Record CacheHitRatioTarget := mkHitRatio {
  hr_TenantID : string;
  hr_Min : float64;
  hr_WindowDuration : Z
}.

Record AlertThresholds := mkThresholds {
  at_EgressBudgetWarnRatio : float64;
  at_EgressBudgetCriticalRatio : float64;
  at_CacheHitRatioAlertMin : float64;
  at_ThrottlePolicy : string
}.

Record Guardrails := mkGuardrails {
  gr_Budget : FairUseEgressBudget;
  gr_HitRatio : CacheHitRatioTarget;
  gr_Thresholds : AlertThresholds;
  gr_MinStorage : Z
}.

(** [DefaultGuardrailsForProvider] and [DefaultGuardrails]. The product of
    durations is an [int64] product. *)
Definition DefaultGuardrailsForProvider (tenantID providerName : string) : Guardrails :=
  let profile := ProfileFor providerName in
  let minStorage := if 0 <? pp_MinStorageDays profile
                    then wrap64 (wrap64 (pp_MinStorageDays profile * 24) * Hour) else 0 in
  mkGuardrails
    (mkBudget tenantID zeroTime (30 * 24 * Hour) (pp_EgressRatio profile) 0 0)
    (mkHitRatio tenantID (f64_lit 9 10) (30 * 24 * Hour))
    (mkThresholds (f64_lit 8 10) (f64_lit 95 100) (f64_lit 85 100) "slowdown_origin_reads")
    minStorage.
Definition DefaultGuardrails (tenantID : string) : Guardrails :=
  DefaultGuardrailsForProvider tenantID "wasabi".

Definition f0 : float64 := f64_of_Z 0.
Definition f1 : float64 := f64_of_Z 1.
Definition outside01 (x : float64) : bool := f64_ltb x f0 || f64_ltb f1 x.

(** [Guardrails.Validate]. *)
Definition Validate (g : Guardrails) : result unit :=
  let b := gr_Budget g in
  let h := gr_HitRatio g in
  let t := gr_Thresholds g in
  if bool_decide (eb_TenantID b = "") then Err (ErrNew "storageguardrails: budget.tenant_id is required")
  else if f64_leb (eb_EgressStorageRatio b) f0 then Err (ErrNew "storageguardrails: budget.egress_storage_ratio must be > 0")
  else if eb_WindowDuration b <=? 0 then Err (ErrNew "storageguardrails: budget.window_duration must be > 0")
  else if negb (eb_HardCapBytes b =? 0) && (eb_HardCapBytes b <? eb_SoftCapBytes b)
  then Err (ErrNew "storageguardrails: budget.hard_cap_bytes (%d) must be >= soft_cap_bytes (%d)")
  else if outside01 (hr_Min h) then Err (ErrNew "storageguardrails: hit_ratio.min must be in [0, 1] (got %v)")
  else if hr_WindowDuration h <=? 0 then Err (ErrNew "storageguardrails: hit_ratio.window_duration must be > 0")
  else if outside01 (at_EgressBudgetWarnRatio t)
  then Err (ErrNew "storageguardrails: thresholds.egress_budget_warn_ratio must be in [0, 1]")
  else if outside01 (at_EgressBudgetCriticalRatio t)
  then Err (ErrNew "storageguardrails: thresholds.egress_budget_critical_ratio must be in [0, 1]")
  else if negb (f64_eqb (at_EgressBudgetCriticalRatio t) f0)
          && f64_ltb (at_EgressBudgetCriticalRatio t) (at_EgressBudgetWarnRatio t)
  then Err (ErrNew "storageguardrails: thresholds.egress_budget_warn_ratio (%v) must be <= critical_ratio (%v)")
  else if gr_MinStorage g <? 0 then Err (ErrNew "storageguardrails: min_storage_duration must be >= 0 (0 = no minimum)")
  else Ok tt.

(** [MinStorageTracker.ResidualBillableWindow]. *)
Definition ResidualBillableWindow (t : MinStorageTracker) (now : Time) : Z :=
  if ms_MinStorageDuration t <=? 0 then 0
  else
    let deletedAt := if IsZero (ms_DeletedAt t) then now else ms_DeletedAt t in
    let expiry := ms_StoredAt t + ms_MinStorageDuration t in
    if negb (Before deletedAt expiry) then 0 else Sub expiry deletedAt.

Record BudgetUsage := mkBudgetUsage {
  bu_Budget : FairUseEgressBudget;
  bu_UsedBytes : Z;
  bu_WindowStart : Time;
  bu_AsOf : Time
}.

Definition SoftCapExceeded (u : BudgetUsage) : bool :=
  if eb_SoftCapBytes (bu_Budget u) =? 0 then false else eb_SoftCapBytes (bu_Budget u) <=? bu_UsedBytes u.
Definition HardCapExceeded (u : BudgetUsage) : bool :=
  if eb_HardCapBytes (bu_Budget u) =? 0 then false else eb_HardCapBytes (bu_Budget u) <=? bu_UsedBytes u.
Definition WarnRatio (u : BudgetUsage) : float64 :=
  if eb_SoftCapBytes (bu_Budget u) =? 0 then f0
  else f64_div (f64_of_Z (bu_UsedBytes u)) (f64_of_Z (eb_SoftCapBytes (bu_Budget u))).
Definition CriticalRatio (u : BudgetUsage) : float64 :=
  if eb_HardCapBytes (bu_Budget u) =? 0 then f0
  else f64_div (f64_of_Z (bu_UsedBytes u)) (f64_of_Z (eb_HardCapBytes (bu_Budget u))).

(** ** Lemmas *)
Lemma Validate_inv g : Validate g = Ok tt ->
  eb_TenantID (gr_Budget g) <> "" /\ f64_leb (eb_EgressStorageRatio (gr_Budget g)) f0 = false /\
  0 < eb_WindowDuration (gr_Budget g) /\
  (eb_HardCapBytes (gr_Budget g) = 0 \/ eb_SoftCapBytes (gr_Budget g) <= eb_HardCapBytes (gr_Budget g)) /\
  0 < hr_WindowDuration (gr_HitRatio g) /\ 0 <= gr_MinStorage g.
Proof.
  unfold Validate. repeat case_match; try done. intros _. bool_hyps. split; [done|]. split; [done|]. split; [lia|].
  split; [|split; lia].
  destruct (Z.eqb_spec (eb_HardCapBytes (gr_Budget g)) 0); [by left|right].
  match goal with H : negb _ && _ = false |- _ => cbn in H; bool_hyps; lia end.
Qed.

(** A NaN passes every range check. *)
Lemma Validate_nan_hit_ratio tenant :
  let g := DefaultGuardrails tenant in tenant <> "" ->
  Validate (mkGuardrails (gr_Budget g) (mkHitRatio tenant S754_nan (30 * 24 * Hour)) (gr_Thresholds g) (gr_MinStorage g)) = Ok tt.
Proof. intros g Ht. unfold Validate. cbn [g DefaultGuardrails DefaultGuardrailsForProvider gr_Budget eb_TenantID]. by rewrite bool_decide_false. Qed.

(** ** Properties *)

(** the default guardrails of a provider pass their own validation
    exactly for the providers with an egress ratio, Wasabi and B2: for AWS S3
    and for every unknown provider name the defaults are rejected. *)
Lemma defaults_valid tenantID providerName :
  tenantID <> "" ->
  Validate (DefaultGuardrailsForProvider tenantID providerName) =
    if bool_decide (providerName = "wasabi" \/ providerName = "b2") then Ok tt
    else Err (ErrNew "storageguardrails: budget.egress_storage_ratio must be > 0").
Proof.
  intros Ht. unfold Validate, DefaultGuardrailsForProvider. cbn [gr_Budget eb_TenantID]. rewrite bool_decide_false by done.
  unfold ProfileFor. destruct (decide (providerName = "wasabi")) as [->|Hw]; [reflexivity|].
  rewrite (bool_decide_false (providerName = "wasabi")) by done.
  destruct (decide (providerName = "b2")) as [->|Hb]; [reflexivity|].
  rewrite (bool_decide_false (providerName = "b2")), (bool_decide_false (_ \/ _)) by naive_solver. reflexivity.
Qed.

(** The storage provider is always billed for at least the minimum
    duration and never for more than needed: the time a piece was held plus
    the residual window is the larger of the two, and the window never grows
    as time passes. *)
Lemma residual_window t now now' :
  let held := (if IsZero (ms_DeletedAt t) then now else ms_DeletedAt t) - ms_StoredAt t in
  let held' := (if IsZero (ms_DeletedAt t) then now' else ms_DeletedAt t) - ms_StoredAt t in
  0 <= held -> now <= now' -> int64_range (ms_MinStorageDuration t) ->
  held + ResidualBillableWindow t now = Z.max held (ms_MinStorageDuration t) /\
  0 <= ResidualBillableWindow t now' <= ResidualBillableWindow t now.
Proof.
  intros held held' Hh Hn Hr.
  assert (Heq : forall x, 0 <= (if IsZero (ms_DeletedAt t) then x else ms_DeletedAt t) - ms_StoredAt t ->
            ResidualBillableWindow t x = Z.max 0 (ms_MinStorageDuration t - ((if IsZero (ms_DeletedAt t) then x else ms_DeletedAt t) - ms_StoredAt t))).
  { intros x Hx. unfold ResidualBillableWindow, Before, Sub, maxInt64. unfold int64_range in Hr.
    destruct (Z.leb_spec (ms_MinStorageDuration t) 0); [lia|].
    revert Hx. unfold Time. generalize (if IsZero (ms_DeletedAt t) then x else ms_DeletedAt t). intros d Hx. destruct (Z.ltb_spec d (ms_StoredAt t + ms_MinStorageDuration t)); cbn [negb].
    - lia.
    - lia. }
  assert (Hh' : held <= held') by (unfold held, held'; destruct (IsZero _); lia).
  rewrite !Heq by (fold held held'; lia). fold held held'. lia.
Qed.

(** in a valid configuration the caps are ordered: usage over the hard
    cap is over the soft cap when one is set. *)
Lemma hard_cap_implies_soft g u :
  Validate g = Ok tt -> bu_Budget u = gr_Budget g -> eb_SoftCapBytes (gr_Budget g) <> 0 ->
  HardCapExceeded u = true -> SoftCapExceeded u = true.
Proof.
  intros (_ & _ & _ & Hcap & _)%Validate_inv Hb Hs. unfold HardCapExceeded, SoftCapExceeded. rewrite Hb.
  destruct (Z.eqb_spec (eb_HardCapBytes (gr_Budget g)) 0); [done|]. intros Hu. bool_hyps.
  destruct (Z.eqb_spec (eb_SoftCapBytes (gr_Budget g)) 0); [done|]. apply Z.leb_le. lia.
Qed.

(** ** Witnesses *)
Lemma defaults_valid_witness :
  Validate (DefaultGuardrailsForProvider "t" "s3") = Err (ErrNew "storageguardrails: budget.egress_storage_ratio must be > 0").
Proof. exact (defaults_valid "t" "s3" ltac:(discriminate)). Defined.

Definition ex_tracker := mkMinStorageTracker "t" "p" 100 zeroTime (90 * 24 * Hour).
Lemma residual_window_example :
  Hour + ResidualBillableWindow ex_tracker (100 + Hour) = 90 * 24 * Hour /\
  0 <= ResidualBillableWindow ex_tracker (100 + 2 * Hour) <= ResidualBillableWindow ex_tracker (100 + Hour).
Proof.
  apply (residual_window ex_tracker (100 + Hour) (100 + 2 * Hour)); vm_compute; intuition discriminate.
Defined.

Definition ex_budget := mkBudget "t" 0 (30 * 24 * Hour) (f64_of_Z 1) 10 20.
Definition ex_guardrails := mkGuardrails ex_budget (mkHitRatio "t" (f64_lit 9 10) Hour) (gr_Thresholds (DefaultGuardrails "t")) 0.
Lemma hard_cap_implies_soft_witness : SoftCapExceeded (mkBudgetUsage ex_budget 20 0 0) = true.
Proof. exact (hard_cap_implies_soft ex_guardrails (mkBudgetUsage ex_budget 20 0 0) eq_refl eq_refl ltac:(discriminate) eq_refl). Defined.
