(* ===== verification/Db.v ===== *)
(** * The database of internal/metadata

    The tables of internal/metadata/migrations as typed finite maps from the
    primary key to the row, and the way statements and transactions run. The
    Go code is modelled in [PgStatus], [MetaStore], [DriveStore] and
    [ContentStore]; here is what its SQL text means.

    A statement checks the constraints of the schema in the order NOT NULL,
    PRIMARY KEY or UNIQUE, foreign keys, and has no effect when one fails.
    Serial numbers nobody reads are left out, and a nil byte slice is the
    empty one. The link to the server may fail at any statement: [db_faults] is the
    script of the outcomes of the statements to come. [db_clock] is now() of
    the statement or transaction at hand. A commit that fails has not
    committed. *)
From S2P Require Import Prelude GoStd.
Local Open Scope Z_scope.

(** ** Documents

    A JSON text is the value it denotes; [None] is a text that is not JSON
    ([json.RawMessage] and [[]byte] of the source). *)
Inductive json : Type :=
| JNull | JBool (b : bool) | JNum (text : string) | JStr (s : string)
| JArr (l : list json) | JObj (l : list (string * json)).
Abbreviation RawMessage := (option json).

(** ** Rows: tables of 001_init.sql and 002_blob_placements.sql *)
Record tenantRow := mkTenantRow {
  tn_pool_id : string; tn_privacy_mode : string; tn_created_at : Time; tn_guardrails : json;
  tn_tenant_type : string; tn_bucket_name : string }.

Record fileVersionRow := mkFileVersionRow {
  fv_file_id : string; fv_tenant_id : string; fv_blob_key : string; fv_blob_version_id : option string;
  fv_size_bytes : Z; fv_checksum_sha256 : string; fv_encryption_mode : string; fv_commit_state : string;
  fv_cached_at : option Time; fv_durable_at : option Time; fv_retention_mode : string;
  fv_retain_until : option Time; fv_legal_hold : bool; fv_created_at : Time; fv_deleted_at : option Time }.
#[export] Instance eta_fileVersionRow : Eta fileVersionRow := fun r =>
  mkFileVersionRow (fv_file_id r) (fv_tenant_id r) (fv_blob_key r) (fv_blob_version_id r) (fv_size_bytes r)
    (fv_checksum_sha256 r) (fv_encryption_mode r) (fv_commit_state r) (fv_cached_at r) (fv_durable_at r)
    (fv_retention_mode r) (fv_retain_until r) (fv_legal_hold r) (fv_created_at r) (fv_deleted_at r).

Record placementRow := mkPlacementRow {
  bp_commit_state : string; bp_blob_version_id : option string; bp_size_bytes : Z; bp_checksum_sha256 : string;
  bp_cached_at : Time; bp_durable_at : option Time; bp_retention_mode : string; bp_retain_until : option Time;
  bp_legal_hold : bool; bp_created_at : Time; bp_updated_at : Time; bp_tenant_id : string }.
#[export] Instance eta_placementRow : Eta placementRow := fun r =>
  mkPlacementRow (bp_commit_state r) (bp_blob_version_id r) (bp_size_bytes r) (bp_checksum_sha256 r)
    (bp_cached_at r) (bp_durable_at r) (bp_retention_mode r) (bp_retain_until r) (bp_legal_hold r)
    (bp_created_at r) (bp_updated_at r) (bp_tenant_id r).

Record intentRow := mkIntentRow {
  wi_expected_length : Z; wi_checksum_sha256 : string; wi_state : string; wi_generation : Z;
  wi_created_at : Time; wi_adopted_at : option Time; wi_abandoned_at : option Time }.
#[export] Instance eta_intentRow : Eta intentRow := fun r =>
  mkIntentRow (wi_expected_length r) (wi_checksum_sha256 r) (wi_state r) (wi_generation r)
    (wi_created_at r) (wi_adopted_at r) (wi_abandoned_at r).

Record erasureRow := mkErasureRow {
  er_entity_type : string; er_entity_id : string; er_tenant_id : string; er_erasure_type : string;
  er_erasure_at : Time; er_erasure_generation : Z }.

Record outboxRow := mkOutboxRow {
  ob_event_type : string; ob_payload : json; ob_state : string; ob_attempts : Z; ob_max_attempts : Z;
  ob_last_error : option string; ob_available_at : Time; ob_created_at : Time; ob_completed_at : option Time }.
#[export] Instance eta_outboxRow : Eta outboxRow := fun r =>
  mkOutboxRow (ob_event_type r) (ob_payload r) (ob_state r) (ob_attempts r) (ob_max_attempts r)
    (ob_last_error r) (ob_available_at r) (ob_created_at r) (ob_completed_at r).

(** ** Rows: tables of 003_drive_demo.sql *)
Record folderRow := mkFolderRow {
  fd_tenant_id : string; fd_parent_folder_id : option string; fd_name_encrypted : bytes; fd_privacy_mode : string;
  fd_created_at : Time; fd_deleted_at : option Time }.

Record nodeRow := mkNodeRow {
  nd_tenant_id : string; nd_folder_id : string; nd_name_encrypted : bytes; nd_mime_type : string;
  nd_created_at : Time; nd_updated_at : Time; nd_deleted_at : option Time }.

Record domainRow := mkDomainRow {
  ed_tenant_id : string; ed_folder_id : option string; ed_privacy_mode : string; ed_generation : Z;
  ed_prev_generation : option Z; ed_prev_key_envelope : option bytes; ed_created_at : Time;
  ed_rotated_at : option Time }.
#[export] Instance eta_domainRow : Eta domainRow := fun r =>
  mkDomainRow (ed_tenant_id r) (ed_folder_id r) (ed_privacy_mode r) (ed_generation r) (ed_prev_generation r)
    (ed_prev_key_envelope r) (ed_created_at r) (ed_rotated_at r).

Record envelopeRow := mkEnvelopeRow {
  ke_domain_id : option string; ke_version_id : option string; ke_tenant_id : string; ke_envelope_type : string;
  ke_ciphertext : bytes; ke_nonce : bytes; ke_encapsulated_key : option bytes; ke_metadata : json;
  ke_created_at : Time }.

Record grantRow := mkGrantRow {
  sg_tenant_id : string; sg_node_id : option string; sg_grantor_user_id : string; sg_grantee_user_id : string;
  sg_generation : Z; sg_is_active : bool; sg_key_envelope_id : option string; sg_created_at : Time;
  sg_revoked_at : option Time }.
#[export] Instance eta_grantRow : Eta grantRow := fun r =>
  mkGrantRow (sg_tenant_id r) (sg_node_id r) (sg_grantor_user_id r) (sg_grantee_user_id r) (sg_generation r)
    (sg_is_active r) (sg_key_envelope_id r) (sg_created_at r) (sg_revoked_at r).

Record snapshotRow := mkSnapshotRow {
  ac_tenant_id : string; ac_node_id : option string; ac_revision : Z; ac_snapshot_hash : bytes;
  ac_acl_ciphertext : bytes; ac_created_at : Time }.

(** ** Rows: tables of 004_content_dedup.sql and 005_kdrv1_upload_sessions.sql *)
Record entryRow := mkEntryRow {
  ce_tenant_id : string; ce_plaintext_size : Z; ce_chunk_count : Z; ce_chunk_size : Z; ce_chunk_plan_root : string;
  ce_pepper_generation : Z; ce_created_at : Time }.

Record chunkRow := mkChunkRow {
  ck_chunk_content_hash : string; ck_blob_key : string; ck_plaintext_len : Z; ck_ciphertext_len : Z }.

Record sessionRow := mkSessionRow {
  us_tenant_id : string; us_node_id : string; us_folder_id : string; us_chunk_plan : json; us_manifest : json;
  us_header : json; us_wrapped_dek : string; us_wrap_nonce : string; us_chunks : json; us_state : string;
  us_created_at : Time; us_updated_at : Time }.
#[export] Instance eta_sessionRow : Eta sessionRow := fun r =>
  mkSessionRow (us_tenant_id r) (us_node_id r) (us_folder_id r) (us_chunk_plan r) (us_manifest r) (us_header r)
    (us_wrapped_dek r) (us_wrap_nonce r) (us_chunks r) (us_state r) (us_created_at r) (us_updated_at r).

(** ** The database *)
Record db := mkDb {
  tenants : gmap string tenantRow;
  files : gset string;
  file_versions : gmap string fileVersionRow;
  blob_placements : gmap string placementRow;
  write_intents : gmap (string * string) intentRow;
  erasure_ledger : list erasureRow;
  outbox : gmap Z outboxRow;
  outbox_seq : Z;
  folders : gmap string folderRow;
  nodes : gmap string nodeRow;
  encryption_domains : gmap string domainRow;
  key_envelopes : gmap string envelopeRow;
  share_grants : gmap string grantRow;
  snapshots : gmap string snapshotRow;
  content_entries : gmap string entryRow;
  content_chunks : gmap (string * Z) chunkRow;
  sessions : gmap string sessionRow;
  db_clock : Time;
  db_faults : list (option error)
}.
#[export] Instance eta_db : Eta db := fun d =>
  mkDb (tenants d) (files d) (file_versions d) (blob_placements d) (write_intents d)
    (erasure_ledger d) (outbox d) (outbox_seq d) (folders d) (nodes d) (encryption_domains d) (key_envelopes d)
    (share_grants d) (snapshots d) (content_entries d) (content_chunks d) (sessions d)
    (db_clock d) (db_faults d).

Definition emptyDb (clock : Time) : db := mkDb ∅ ∅ ∅ ∅ ∅ [] ∅ 0 ∅ ∅ ∅ ∅ ∅ ∅ ∅ ∅ ∅ clock [].

(** ** Errors of the server: [*pq.Error] with its code *)
Definition pqError (code : string) : error := ErrNew ("pq: " +:+ code).
Definition isPqCode (e : error) (code : string) : bool := bool_decide (e = pqError code).
Definition notNull : error := pqError "23502".
Definition foreignKey : error := pqError "23503".
Definition uniqueKey : error := pqError "23505".
Definition outOfRange : error := pqError "22003".
Definition invalidText : error := pqError "22P02".
(** [Scan] of NULL into a Go string. *)
Definition scanNull : error := ErrNew "sql: Scan error: converting NULL to string is unsupported".

(** INTEGER columns, JSONB parameters. *)
Definition jsonParam (m : RawMessage) : M db json :=
  fun d => match m with None => (d, Err invalidText) | Some j => (d, Ok j) end.
Definition int32 (z : Z) : bool := (- 2 ^ 31 <=? z) && (z <? 2 ^ 31).

(** TIMESTAMPTZ values are kept to a resolution of the server. *)
Class PgTime := pg_time : Time -> Time.

(** [nullString] of the source, COALESCE(c, ''), and the [Time] of a
    [sql.NullTime] when it is valid. *)
Definition nullString (s : string) : option string := if bool_decide (s = "") then None else Some s.
Definition coalesce (o : option string) : string := default "" o.

Lemma coalesce_nullString s : coalesce (nullString s) = s.
Proof. unfold coalesce, nullString. by case_bool_decide. Qed.

(** ** Statements and transactions *)
Notation MDB := (M db).

Definition stmt {A} (m : MDB A) : MDB A := fun d =>
  match db_faults d with
  | [] => m d
  | o :: fs => let d := d <| db_faults := fs |> in match o with Some e => (d, Err e) | None => m d end
  end.

(** [BeginTx] .. [Commit] with a deferred [Rollback]. *)
Definition transaction {A} (m : MDB A) : MDB A := fun d =>
  match stmt (ret tt) d with
  | (d0, Err e) => (d0, Err e)
  | (d0, Ok _) =>
      match m d0 with
      | (d1, Err e) => (d0 <| db_faults := db_faults d1 |>, Err e)
      | (d1, Ok a) =>
          match stmt (ret tt) d1 with
          | (d2, Err e) => (d0 <| db_faults := db_faults d2 |>, Err e)
          | (d2, Ok _) => (d2, Ok a)
          end
      end
  end.

(** [db.PrepareContext]: a round trip to the server. *)
Definition prepare : MDB unit := stmt (ret tt).

(** SELECT .. WHERE p ORDER BY less LIMIT n, over the rows of a table. *)
Definition selectRows {K R} `{Countable K} (t : gmap K R) (p : K -> R -> bool) : list (K * R) :=
  map_to_list (filter (fun kr : K * R => p kr.1 kr.2 = true) t).
Definition orderBy {X} (less : X -> X -> bool) (l : list X) : list X := sort_Slice less l.
Definition limit {X} (n : Z) (l : list X) : list X := take (Z.to_nat n) l.
(** LIMIT of a parameter: a negative one is refused. *)
Definition limitTo {X} (n : Z) (l : list X) : MDB (list X) :=
  fail_if (n <? 0) (pqError "2201W");; ret (limit n l).

Definition rowsLimit : Z := 1000.

(** ** Lemmas *)
Lemma stmt_cases {A} (m : MDB A) d d' r : stmt m d = (d', r) ->
  (exists e fs, db_faults d = Some e :: fs /\ d' = d <| db_faults := fs |> /\ r = Err e) \/
  (exists fs, m (d <| db_faults := fs |>) = (d', r)).
Proof.
  unfold stmt. destruct (db_faults d) as [|[e|] fs] eqn:Hf.
  - intros Hm. right. exists []. assert (Hd : d <| db_faults := [] |> = d) by (destruct d; cbn in *; by rewrite Hf).
    by rewrite Hd.
  - intros [= <- <-]. left. by exists e, fs.
  - right. by exists fs.
Qed.

Lemma healthy_stmt {A} (m : MDB A) d : db_faults d = [] -> stmt m d = m d.
Proof. unfold stmt. by intros ->. Qed.

Lemma healthy_transaction {A} (m : MDB A) d d1 a : db_faults d = [] -> m d = (d1, Ok a) -> db_faults d1 = [] ->
  transaction m d = (d1, Ok a).
Proof. intros Hf Hm Hf1. unfold transaction. rewrite healthy_stmt by done. cbn. by rewrite Hm, healthy_stmt. Qed.

(** Two states with the same tables. *)
Definition sameTables (d d' : db) : Prop := d' = d <| db_faults := db_faults d' |>.
#[export] Instance sameTables_refl : Reflexive sameTables.
Proof. intros []. reflexivity. Qed.
#[export] Instance sameTables_trans : Transitive sameTables.
Proof. intros x y z Hxy Hyz. unfold sameTables in *. rewrite Hyz at 1. rewrite Hxy at 1. reflexivity. Qed.

Lemma sameTables_faults d fs : sameTables d (d <| db_faults := fs |>).
Proof. by destruct d. Qed.

(** A transaction that fails has done nothing. *)
Lemma transaction_atomic {A} (m : MDB A) d d' e : transaction m d = (d', Err e) -> sameTables d d'.
Proof.
  unfold transaction. destruct (stmt (ret tt) d) as [d0 r0] eqn:H0.
  assert (Hd0 : sameTables d d0).
  { apply stmt_cases in H0 as [(x & fs & _ & -> & _)|(fs & [= <- _])]; apply sameTables_faults. }
  destruct r0 as [[]|]; [|by intros [= <- _]]. destruct (m d0) as [d1 [a|e1]].
  - destruct (stmt (ret tt) d1) as [d2 [[]|e2]]; [done|]. intros [= <- _]. etransitivity; [done|]. apply sameTables_faults.
  - intros [= <- _]. etransitivity; [done|]. apply sameTables_faults.
Qed.

Lemma elem_of_selectRows {K R} `{Countable K} (t : gmap K R) p k r :
  (k, r) ∈ selectRows t p <-> t !! k = Some r /\ p k r = true.
Proof.
  unfold selectRows. by rewrite elem_of_map_to_list, map_lookup_filter_Some.
Qed.

(** ORDER BY a key: the rows come in its order, and LIMIT keeps the first
    ones. *)
Section order.
Context {X : Type} (key : X -> Z).
Notation less := (fun x y : X => key x <? key y).

Lemma orderBy_insert_sorted x l : StronglySorted (fun y z => key y <= key z) l ->
  StronglySorted (fun y z => key y <= key z) (sort_insert less x l).
Proof.
  induction 1 as [|y l Hl IH Hy]; cbn; [by repeat constructor|]. destruct (Z.ltb_spec (key x) (key y)) as [Hxy|Hxy].
  - constructor; [by constructor|]. constructor; [lia|]. eapply Forall_impl; [exact Hy|]. cbn. lia.
  - constructor; [done|]. rewrite sort_insert_perm. constructor; [lia|done].
Qed.

Lemma orderBy_sorted l : StronglySorted (fun y z => key y <= key z) (orderBy less l).
Proof.
  unfold orderBy, sort_Slice. enough (Hacc : forall acc, StronglySorted (fun y z => key y <= key z) acc ->
    StronglySorted (fun y z => key y <= key z) (foldl (fun acc x => sort_insert less x acc) acc l))
    by (apply Hacc; constructor).
  induction l as [|x l IH]; intros acc Ha; cbn; [done|]. apply IH. by apply orderBy_insert_sorted.
Qed.

Lemma orderBy_perm l : orderBy less l ≡ₚ l.
Proof. apply sort_Slice_perm. Qed.

(** What LIMIT leaves out does not come before what it keeps. *)
Lemma limit_first n l x y : x ∈ limit n (orderBy less l) -> y ∈ l -> y ∉ limit n (orderBy less l) -> key x <= key y.
Proof.
  intros Hx Hy Hn. rewrite <- orderBy_perm in Hy. unfold limit in *.
  rewrite <- (take_drop (Z.to_nat n)) in Hy. apply elem_of_app in Hy as [Hy|Hy]; [done|].
  pose proof (orderBy_sorted l) as Hs. rewrite <- (take_drop (Z.to_nat n)) in Hs.
  exact (StronglySorted_app_1_elem_of _ _ _ _ _ Hs Hx Hy).
Qed.

Lemma limit_sorted n l : StronglySorted (fun y z => key y <= key z) (limit n (orderBy less l)).
Proof.
  pose proof (orderBy_sorted l) as Hs. rewrite <- (take_drop (Z.to_nat n)) in Hs.
  exact (StronglySorted_app_1_l _ _ _ Hs).
Qed.

Lemma limit_sub n l x : x ∈ limit n (orderBy less l) -> x ∈ l.
Proof.
  intros Hx. rewrite <- orderBy_perm. rewrite <- (take_drop (Z.to_nat n)). apply elem_of_app. by left.
Qed.

Lemma len_limit n l : 0 <= n -> len (limit n (orderBy less l)) = Z.min n (len l).
Proof. intros Hn. unfold limit, len. rewrite length_take, orderBy_perm. lia. Qed.
End order.

Lemma NoDup_selectRows {K R} `{Countable K} (t : gmap K R) p : NoDup (selectRows t p).*1.
Proof. apply NoDup_fst_map_to_list. Qed.

(** SELECT .. WHERE p ORDER BY key LIMIT n, as one statement of facts. *)
Record topRows {K R} `{Countable K} (t : gmap K R) (p : K -> R -> bool) (key : R -> Z) (n : Z) (l : list (K * R)) : Prop := {
  top_len : len l = Z.min n (len (selectRows t p));
  top_nodup : NoDup l.*1;
  top_sorted : StronglySorted (fun x y : K * R => key x.2 <= key y.2) l;
  top_sound : forall k r, (k, r) ∈ l -> t !! k = Some r /\ p k r = true;
  top_first : forall k r x, t !! k = Some r -> p k r = true -> k ∉ l.*1 -> x ∈ l -> key x.2 <= key r
}.

Lemma selectTop {K R} `{Countable K} (t : gmap K R) (p : K -> R -> bool) (key : R -> Z) n : 0 <= n ->
  topRows t p key n (limit n (orderBy (fun x y : K * R => key x.2 <? key y.2) (selectRows t p))).
Proof.
  pose (key' := fun x : K * R => key x.2). intros Hn. split.
  - exact (len_limit key' n _ Hn).
  - apply (sublist_NoDup _ (orderBy (fun x y => key' x <? key' y) (selectRows t p)).*1).
    + rewrite orderBy_perm. apply NoDup_selectRows.
    + unfold limit. rewrite fmap_take. apply sublist_take.
  - exact (limit_sorted key' n _).
  - intros k r Hx. by apply elem_of_selectRows, (limit_sub key' n).
  - intros k r x Hk Hp Hn' Hx. refine (limit_first key' n _ x (k, r) Hx _ _).
    + by apply elem_of_selectRows.
    + intros Hi. apply Hn'. apply list_elem_of_fmap. by exists (k, r).
Qed.

Lemma stmt_Ok {A} (m : MDB A) d d' a : stmt m d = (d', Ok a) -> exists fs, m (d <| db_faults := fs |>) = (d', Ok a).
Proof. by intros [(e & fs & _ & _ & ?)|Hm]%stmt_cases. Qed.

Lemma transaction_Ok {A} (m : MDB A) d d' a : transaction m d = (d', Ok a) ->
  exists fs d1, m (d <| db_faults := fs |>) = (d1, Ok a) /\ sameTables d1 d'.
Proof.
  unfold transaction. destruct (stmt (ret tt) d) as [d0 [[]|]] eqn:H0; [|done]. apply stmt_Ok in H0 as [fs [= <-]].
  destruct (m _) as [d1 [a1|e1]] eqn:Hm; [|done]. destruct (stmt (ret tt) d1) as [d2 [[]|e2]] eqn:H2; [|done].
  apply stmt_Ok in H2 as [fs' [= <-]]. intros [= <- <-]. exists fs, d1. split; [done|]. apply sameTables_faults.
Qed.

(** ** Runs: a sequence of calls, between which the rest of the database
    (all but the part [table]) may change in any way. *)
Inductive runs {O A T} (exec : O -> MDB A) (table : db -> T) : db -> list (O * result A) -> db -> Prop :=
| runs_nil d : runs exec table d [] d
| runs_env d d1 l d' : table d1 = table d -> runs exec table d1 l d' -> runs exec table d l d'
| runs_op o d d1 r l d' : exec o d = (d1, r) -> runs exec table d1 l d' -> runs exec table d ((o, r) :: l) d'.

(** An invariant that each call keeps and the other parts do not touch. *)
Lemma runs_inv {O A T} (exec : O -> MDB A) (table : db -> T) (P : T -> Prop) d l d' :
  (forall o d d1 r, P (table d) -> exec o d = (d1, r) -> P (table d1)) ->
  runs exec table d l d' -> P (table d) -> P (table d').
Proof.
  intros Hstep. induction 1 as [d|d d1 l d' Ht _ IH|o d d1 r l d' Ho _ IH]; intros Hp; [done| |].
  - apply IH. by rewrite Ht.
  - apply IH. by eapply Hstep.
Qed.

(** Counts of the calls with a given outcome, and accounting for them: what
    the calls cost is bounded by the rise of a level. *)
Definition tally {O A} (p : O -> result A -> bool) (l : list (O * result A)) : Z :=
  foldr (fun x acc => Z.b2z (p x.1 x.2) + acc) 0 l.

Lemma tally_nonneg {O A} (p : O -> result A -> bool) l : 0 <= tally p l.
Proof. unfold tally. induction l as [|x l IH]; cbn; [done|]. destruct (p _ _); cbn [Z.b2z]; lia. Qed.

Section level.
Context {O A T : Type} (exec : O -> MDB A) (table : db -> T) (P : T -> Prop) (level : T -> Z).

Lemma runs_accounts p q d l d' :
  (forall o d d1 r, P (table d) -> exec o d = (d1, r) ->
     P (table d1) /\ Z.b2z (p o r) - Z.b2z (q o r) <= level (table d1) - level (table d)) ->
  runs exec table d l d' -> P (table d) -> tally p l - tally q l <= level (table d') - level (table d).
Proof.
  intros Hstep. induction 1 as [d|d d1 l d' Ht _ IH|o d d1 r l d' Ho _ IH]; intros Hp; cbn; [lia| |].
  - rewrite <- Ht. apply IH. by rewrite Ht.
  - destruct (Hstep _ _ _ _ Hp Ho) as [Hp1 Hc]. specialize (IH Hp1). unfold tally in IH. unfold Z.b2z in *. lia.
Qed.

Lemma runs_tally_le p d l d' :
  (forall o d d1 r, P (table d) -> exec o d = (d1, r) ->
     P (table d1) /\ Z.b2z (p o r) <= level (table d1) - level (table d)) ->
  runs exec table d l d' -> P (table d) -> tally p l <= level (table d') - level (table d).
Proof.
  intros Hstep Hr Hp. assert (H0 : tally (fun _ _ => false) l = 0) by (clear; by induction l).
  enough (tally p l - tally (fun _ _ => false) l <= level (table d') - level (table d)) by lia.
  apply runs_accounts; [|done..]. cbn. intros o d0 d1 r Hp0 Ho. destruct (Hstep _ _ _ _ Hp0 Ho). split; [done|].
  rewrite Z.sub_0_r. done.
Qed.
End level.

Lemma runs_tally_ge {O A T} (exec : O -> MDB A) (table : db -> T) (P : T -> Prop) (level : T -> Z) p d l d' :
  (forall o d d1 r, P (table d) -> exec o d = (d1, r) ->
     P (table d1) /\ level (table d1) - level (table d) <= Z.b2z (p o r)) ->
  runs exec table d l d' -> P (table d) -> level (table d') - level (table d) <= tally p l.
Proof.
  intros Hstep Hr Hp. assert (H0 : tally (fun _ _ => false) l = 0) by (clear; by induction l).
  pose (down := fun t => - level t).
  enough (tally (fun _ _ => false) l - tally p l <= down (table d') - down (table d)) by (unfold down in *; lia).
  apply (runs_accounts exec table P); [|done..]. intros o d0 d1 r Hp0 Ho. destruct (Hstep _ _ _ _ Hp0 Ho).
  split; [done|]. unfold down. cbn [Z.b2z]. lia.
Qed.

(** A run from a list of calls. *)
Fixpoint runAll {O A} (exec : O -> MDB A) (l : list O) (d : db) : db * list (O * result A) :=
  match l with
  | [] => (d, [])
  | o :: l' => let '(d1, r) := exec o d in let '(d', out) := runAll exec l' d1 in (d', (o, r) :: out)
  end.

Lemma runAll_runs {O A T} (exec : O -> MDB A) (table : db -> T) l d :
  runs exec table d (runAll exec l d).2 (runAll exec l d).1.
Proof.
  revert d. induction l as [|o l IH]; intros d; cbn; [constructor|]. destruct (exec o d) as [d1 r] eqn:Ho.
  specialize (IH d1). destruct (runAll exec l d1) as [d' out]. by econstructor.
Qed.
