(* ===== verification/LocalFsDev.v ===== *)
(** * pkg/blobstore/local_fs_dev/local.go

    The local-filesystem provider: every version of a key is a body file and
    a JSON sidecar under the key's directory. Each method holds the mutex (or
    is used by one caller), so a method is one atomic step; a temporary file
    that is renamed or removed before the method returns is not shown. A method
    reads the clock once; the source reads it for the identifier of a version
    and again for its write time. *)
From Stdlib Require Import Strings.Ascii.
From S2P Require Import Prelude GoStd Sha256 BlobStore Fs.
Local Open Scope Z_scope.

Record sidecar := mkSidecar {
  sc_Key : string;
  sc_VersionID : string;
  sc_SizeBytes : Z;
  sc_ChecksumSHA256 : string;
  sc_ContentType : string;
  sc_VersioningState : BucketVersioningState;
  sc_Retention : RetentionState;
  sc_WriteTime : Time;
  sc_IsDeleteMarker : bool
}.
#[export] Instance eta_sidecar : Eta sidecar := fun s =>
  mkSidecar (sc_Key s) (sc_VersionID s) (sc_SizeBytes s) (sc_ChecksumSHA256 s) (sc_ContentType s)
    (sc_VersioningState s) (sc_Retention s) (sc_WriteTime s) (sc_IsDeleteMarker s).

Record multipartMeta := mkMultipartMeta {
  mm_Key : string;
  mm_UploadID : string;
  mm_ContentType : string;
  mm_ChecksumSHA256 : string;
  mm_Retention : RetentionSpec;
  mm_StartedAt : Time
}.

(** The JSON documents the provider writes. Reading one as the other keeps
    the fields of the same name. *)
Inductive doc := DSidecar (s : sidecar) | DUpload (m : multipartMeta).

Definition asSidecar (d : doc) : sidecar :=
  match d with
  | DSidecar s => s
  | DUpload m =>
      mkSidecar (mm_Key m) "" 0 (mm_ChecksumSHA256 m) (mm_ContentType m) ""
        (mkRetentionState (rs_Mode (mm_Retention m)) (rs_RetainUntil (mm_Retention m))
           (rs_LegalHold (mm_Retention m))) zeroTime false
  end.
Definition asUpload (d : doc) : multipartMeta :=
  match d with
  | DUpload m => m
  | DSidecar s =>
      mkMultipartMeta (sc_Key s) "" (sc_ContentType s) (sc_ChecksumSHA256 s)
        (mkRetentionSpec (rt_Mode (sc_Retention s)) (rt_RetainUntil (sc_Retention s))
           (rt_LegalHold (sc_Retention s))) zeroTime
  end.

Record Provider := mkProvider { lf_fs : fs doc; lf_counter : Z }.
#[export] Instance eta_Provider : Eta Provider := fun p => mkProvider (lf_fs p) (lf_counter p).

(** [validateKey]. *)
Definition badSegment (seg : string) : option error :=
  if bool_decide (seg = ".") || bool_decide (seg = "..")
  then Some (ErrNew "local_fs_dev: key %q must not contain relative path components")
  else if bool_decide (seg = "") then Some (ErrNew "local_fs_dev: key %q must not contain empty path segments")
  else None.
Fixpoint firstSome {A B} (f : A -> option B) (l : list A) : option B :=
  match l with
  | [] => None
  | x :: l' => match f x with Some y => Some y | None => firstSome f l' end
  end.
Definition validateKey (key : string) : result unit :=
  if bool_decide (key = "") then Err (ErrNew "local_fs_dev: key is required")
  else if ContainsRune key "\"%char then Err (ErrNew "local_fs_dev: key %q must not contain backslashes")
  else if ContainsRune key (ascii_of_nat 0) then Err (ErrNew "local_fs_dev: key %q must not contain NUL bytes")
  else match firstSome badSegment (Split key "/"%char) with
       | Some e => Err e
       | None => if bool_decide (key = "_multipart") then Err (ErrNew "local_fs_dev: key %q is reserved")
                 else Ok tt
       end.

(** [newVersionID]: the counter is a process-wide atomic. *)
Definition newVersionID (now : Time) : M Provider string := fun p =>
  let seq := wrapU64 (lf_counter p + 1) in
  (p <| lf_counter := seq |>, Ok (hexPad 16 (wrapU64 now) +:+ "-" +:+ hexPad 8 seq)).

(** [effectiveRetentionMode]. *)
Definition effectiveRetentionMode (spec : RetentionSpec) : RetentionMode :=
  if bool_decide (rs_Mode spec = "") then RetentionNone else rs_Mode spec.

(** The retention a new version gets from a request. *)
Definition newRetention (spec : RetentionSpec) : RetentionState :=
  mkRetentionState (effectiveRetentionMode spec)
    (if negb (bool_decide (rs_Mode spec = RetentionNone)) && negb (IsZero (rs_RetainUntil spec))
     then rs_RetainUntil spec else zeroTime)
    (rs_LegalHold spec).

(** [sidecarToMeta]. *)
Definition sidecarToMeta (sc : sidecar) : ObjectMeta :=
  mkObjectMeta (sc_Key sc) (sc_VersionID sc) (sc_VersioningState sc) (sc_SizeBytes sc)
    (sc_ChecksumSHA256 sc) (sc_Retention sc) (sc_WriteTime sc).

(** [latestVersion] and [latestNonDeleteMarker] of versions in write order. *)
Definition latestVersion (versions : list sidecar) : option sidecar := last versions.
Definition latestNonDeleteMarker (versions : list sidecar) : option sidecar :=
  last (filter (fun s => sc_IsDeleteMarker s = false) versions).

Definition nul : string := String (ascii_of_nat 0) EmptyString.

(** [computeWriteResultHash]. *)
Definition computeWriteResultHash (key versionID : string) (st : BucketVersioningState) (size : Z)
    (sum : string) : string :=
  sha256_hex (bytes_of_string
    ("local_fs_dev/v1" +:+ nul +:+ key +:+ nul +:+ versionID +:+ nul +:+ st +:+ nul +:+ pretty size
       +:+ nul +:+ sum)).

(** [fmt.Sprintf("part-%05d", n)] and the [Sscanf] that reads it back. *)
Definition partName (n : Z) : string :=
  let d := pretty (Z.abs n) in
  if n <? 0 then "part--" +:+ zeros (4 - String.length d) +:+ d else "part-" +:+ zeros (5 - String.length d) +:+ d.

Definition digit (c : ascii) : option Z :=
  let n := Z.of_N (N_of_ascii c) in if (48 <=? n) && (n <=? 57) then Some (n - 48) else None.
Fixpoint scanDigits (width : nat) (s : string) (acc : option Z) : option Z :=
  match width, s with
  | O, _ | _, EmptyString => acc
  | S w, String c s' =>
      match digit c with
      | None => acc
      | Some d => scanDigits w s' (Some (default 0 acc * 10 + d))
      end
  end.
Definition scanPart (name : string) : option Z := scanDigits 5 (sdrop 5 name) None.

(** [strconv.Atoi] of a number without sign; 0 on a syntax error. *)
Fixpoint atoi (s : string) (acc : Z) : Z :=
  match s with
  | EmptyString => acc
  | String c s' => match digit c with None => 0 | Some d => atoi s' (acc * 10 + d) end
  end.

Section provider.
Context (root : path).
Notation MP := (M Provider).

Definition versionsDir (key : string) : path := joinPath root key.
Definition versionBodyPath (key versionID : string) : path :=
  joinPath (versionsDir key) (versionID +:+ ".bin").
Definition versionMetaPath (key versionID : string) : path :=
  joinPath (versionsDir key) (versionID +:+ ".json").
Definition multipartDir (key uploadID : string) : path :=
  joinPath (joinPath (root ++ ["_multipart"]) key) uploadID.

(** File system calls on the provider's state. *)
Definition fsDo (f : fs doc -> result (fs doc)) : MP unit := fun p =>
  match f (lf_fs p) with
  | Ok f' => (p <| lf_fs := f' |>, Ok tt)
  | Err e => (p, Err e)
  end.
Definition fsGet {A} (f : fs doc -> result A) : MP A := fun p => (p, f (lf_fs p)).

(** [writeSidecar]. *)
Definition writeSidecar (q : path) (sc : sidecar) : MP unit :=
  wrap "local_fs_dev: write %q: %w" (fsDo (fun f => writeNode f q (JFile (DSidecar sc)))).

(** [loadSidecar] and [readSidecar]. *)
Definition loadSidecar (f : fs doc) (q : path) : result sidecar :=
  match readJ f q with Ok d => Ok (asSidecar d) | Err e => Err e end.
Definition readSidecar (key versionID : string) (f : fs doc) : result sidecar :=
  match loadSidecar f (versionMetaPath key versionID) with
  | Ok sc => Ok sc
  | Err e => if errors_Is e OsNotExist
             then Err (ErrWrap "local_fs_dev: %w: key %q version %q" (ErrSentinel BsNotFound))
             else Err e
  end.

(** [hasAnyVersionLocked]. *)
Definition hasAnyVersionLocked (f : fs doc) (key : string) : bool :=
  match readDir f (versionsDir key) with
  | Err _ => false
  | Ok es => existsb (fun e => HasSuffix e.1 ".json") es
  end.

(** [listVersionsLocked]. *)
Definition loadEntries (f : fs doc) (dir : path) (es : list (string * node doc)) : list sidecar :=
  omap (fun e => if HasSuffix e.1 ".json"
                 then match loadSidecar f (dir ++ [e.1]) with Ok sc => Some sc | Err _ => None end
                 else None) es.
Definition byWriteTime (l : list sidecar) : list sidecar :=
  sort_Slice (fun a b => sc_WriteTime a <? sc_WriteTime b) l.
Definition listVersionsLocked (f : fs doc) (key : string) : result (list sidecar) :=
  match readDir f (versionsDir key) with
  | Err e => if errors_Is e OsNotExist then Ok []
             else Err (ErrWrap "local_fs_dev: read versions %q: %w" e)
  | Ok es => Ok (byWriteTime (loadEntries f (versionsDir key) es))
  end.

(** The end of [Put], [CompleteMultipart] and [CopyWithinProvider]: publish
    the body, then the sidecar, and remove the body again if that fails. *)
Definition publish (key versionID : string) (data : bytes) (contentType : string)
    (spec : RetentionSpec) (now : Time) : MP PutResult :=
  let sum := sha256_hex data in
  let bodyPath := versionBodyPath key versionID in
  wrap "local_fs_dev: finalize %q: %w" (fsDo (fun f => writeNode f bodyPath (File data)));;
  let sc := mkSidecar key versionID (len data) sum contentType VersioningEnabled (newRetention spec)
              now false in
  r ← try (writeSidecar (versionMetaPath key versionID) sc);
  match r with
  | Err e => modify (fun p => match remove (lf_fs p) bodyPath with
                              | Ok f => p <| lf_fs := f |>
                              | Err _ => p
                              end);; throw e
  | Ok _ =>
      ret (mkPutResult key versionID VersioningEnabled (sc_Retention sc) now (len data) sum
             (computeWriteResultHash key versionID VersioningEnabled (len data) sum))
  end.

(** [Put]. *)
Definition Put (now : Time) (req : PutRequest) : MP PutResult :=
  lift (validateKey (pq_Key req));;
  match pq_Body req with
  | None => throw (ErrNew "local_fs_dev: body is required")
  | Some body =>
      any ← gets (fun p => hasAnyVersionLocked (lf_fs p) (pq_Key req));
      fail_if (pq_IfNoneMatch req && any)
        (ErrWrap "local_fs_dev: %w: key %q already exists" (ErrSentinel BsPreconditionFailed));;
      wrap "local_fs_dev: mkdir %q: %w" (fsDo (fun f => mkdirAll f (versionsDir (pq_Key req))));;
      versionID ← newVersionID now;
      data ← lift (match ReadAll body with
                   | Ok d => Ok d | Err e => Err (ErrWrap "local_fs_dev: write %q: %w" e) end);
      fail_if ((0 <? pq_ExpectedLength req) && negb (len data =? pq_ExpectedLength req))
        (ErrWrap "local_fs_dev: %w: wrote %d want %d" (ErrSentinel BsChecksumMismatch));;
      fail_if (negb (bool_decide (pq_ChecksumSHA256 req = ""))
               && negb (bool_decide (pq_ChecksumSHA256 req = sha256_hex data)))
        (ErrWrap "local_fs_dev: %w: got %s want %s" (ErrSentinel BsChecksumMismatch));;
      publish (pq_Key req) versionID data (pq_ContentType req) (pq_Retention req) now
  end.

(** [Head]. *)
Definition Head (now : Time) (ref : ObjectRef) : MP ObjectMeta :=
  lift (validateKey (or_Key ref));;
  versions ← fsGet (fun f => listVersionsLocked f (or_Key ref));
  match latestVersion versions with
  | Some cur =>
      fail_if (sc_IsDeleteMarker cur) (ErrWrap "local_fs_dev: %w: key %q" (ErrSentinel BsNotFound));;
      ret (sidecarToMeta cur)
  | None => throw (ErrWrap "local_fs_dev: %w: key %q" (ErrSentinel BsNotFound))
  end.

(** The range arithmetic of [Get]. *)
Definition rangeBytes (r : ByteRange) (data : bytes) : result bytes :=
  let size := len data in
  let start := br_Start r in
  let e := if (br_End r <? 0) || (size <=? br_End r) then size - 1 else br_End r in
  if (start <? 0) || (e <? start)
  then Err (ErrNew "local_fs_dev: invalid range [%d,%d] for %q size %d")
  else Ok (takeZ (e - start + 1) (dropZ start data)).

(** [Get]. *)
Definition Get (now : Time) (req : GetRequest) : MP (reader * ObjectMeta) :=
  let key := vr_Key (gq_Ref req) in
  lift (validateKey key);;
  sc ← (if negb (bool_decide (vr_VersionID (gq_Ref req) = ""))
        then fsGet (readSidecar key (vr_VersionID (gq_Ref req)))
        else versions ← fsGet (fun f => listVersionsLocked f key);
             match latestVersion versions with
             | Some cur =>
                 fail_if (sc_IsDeleteMarker cur)
                   (ErrWrap "local_fs_dev: %w: key %q" (ErrSentinel BsNotFound));;
                 ret cur
             | None => throw (ErrWrap "local_fs_dev: %w: key %q" (ErrSentinel BsNotFound))
             end);
  data ← fsGet (fun f =>
    match openFile f (versionBodyPath (sc_Key sc) (sc_VersionID sc)) with
    | Ok d => Ok d
    | Err e => if errors_Is e OsNotExist
               then Err (ErrWrap "local_fs_dev: %w: key %q" (ErrSentinel BsNotFound))
               else Err (ErrWrap "local_fs_dev: open %q: %w" e)
    end);
  match gq_Range req with
  | None => ret (bytes_NewReader data, sidecarToMeta sc)
  | Some r => part ← lift (rangeBytes r data); ret (bytes_NewReader part, sidecarToMeta sc)
  end.

(** [Delete]: a delete marker on top. *)
Definition Delete (now : Time) (ref : ObjectRef) : MP unit :=
  lift (validateKey (or_Key ref));;
  any ← gets (fun p => hasAnyVersionLocked (lf_fs p) (or_Key ref));
  fail_if (negb any) (ErrWrap "local_fs_dev: %w: key %q" (ErrSentinel BsNotFound));;
  versionID ← newVersionID now;
  writeSidecar (versionMetaPath (or_Key ref) versionID)
    (mkSidecar (or_Key ref) versionID 0 "" "" VersioningEnabled zeroRetentionState now true).

(** [PurgeAllVersions]. *)
Definition PurgeAllVersions (ref : ObjectRef) : MP unit :=
  lift (validateKey (or_Key ref));;
  st ← try (fsGet (fun f => stat f (versionsDir (or_Key ref))));
  match st with
  | Err e => if errors_Is e OsNotExist then ret tt
             else throw (ErrWrap "local_fs_dev: stat %q: %w" e)
  | Ok _ => fsDo (fun f => Ok (removeAll f (versionsDir (or_Key ref))))
  end.

(** [CreateMultipart]. *)
Definition CreateMultipart (now : Time) (req : MultipartRequest) : MP MultipartUpload :=
  lift (validateKey (mq_Key req));;
  uploadID ← newVersionID now;
  let dir := multipartDir (mq_Key req) uploadID in
  wrap "local_fs_dev: mkdir multipart: %w" (fsDo (fun f => mkdirAll f dir));;
  r ← try (wrap "local_fs_dev: write %q: %w" (fsDo (fun f => writeNode f (joinPath dir "upload.json")
        (JFile (DUpload (mkMultipartMeta (mq_Key req) uploadID (mq_ContentType req)
                  (mq_ChecksumSHA256 req) (mq_Retention req) now))))));
  match r with
  | Err e => fsDo (fun f => Ok (removeAll f dir));; throw e
  | Ok _ => ret (mkMultipartUpload (mq_Key req) uploadID)
  end.

(** [SignUploadPart]. *)
Definition SignUploadPart (now : Time) (req : SignPartRequest) : MP SignedRequest :=
  let dir := multipartDir (mu_Key (sp_Upload req)) (mu_UploadID (sp_Upload req)) in
  st ← try (fsGet (fun f => stat f dir));
  fail_if (negb (is_Ok st)) (ErrWrap "local_fs_dev: %w: upload %q" (ErrSentinel BsNotFound));;
  ret (mkSignedRequest
         ("file://" +:+ foldr (fun seg acc => "/" +:+ seg +:+ acc) "" (joinPath dir (partName (sp_PartNumber req))))
         ∅ (now + 15 * Minute)).

(** [UploadPart]; a body that fails to read leaves what was copied. *)
Definition UploadPart (now : Time) (req : UploadPartRequest) : MP UploadedPart :=
  lift (validateKey (mu_Key (uq_Upload req)));;
  fail_if (uq_PartNumber req <? 1) (ErrNew "local_fs_dev: part number must be >= 1");;
  match uq_Body req with
  | None => throw (ErrNew "local_fs_dev: part body is required")
  | Some body =>
      let dir := multipartDir (mu_Key (uq_Upload req)) (mu_UploadID (uq_Upload req)) in
      st ← try (fsGet (fun f => stat f dir));
      fail_if (negb (is_Ok st)) (ErrWrap "local_fs_dev: %w: upload %q" (ErrSentinel BsNotFound));;
      wrap "local_fs_dev: create part: %w"
        (fsDo (fun f => writeNode f (joinPath dir (partName (uq_PartNumber req))) (File (rd_bytes body))));;
      match rd_err body with
      | Some e => throw (ErrWrap "local_fs_dev: write part: %w" e)
      | None => ret (mkUploadedPart (uq_PartNumber req) (sha256_hex (rd_bytes body)) (len (rd_bytes body)))
      end
  end.

(** The concatenation of the staged parts, in the order of the request. *)
Fixpoint readParts (f : fs doc) (dir : path) (parts : list CompletedPart) : result bytes :=
  match parts with
  | [] => Ok []
  | part :: parts' =>
      match openFile f (joinPath dir (partName (cp_PartNumber part))) with
      | Err e => Err (ErrWrap "local_fs_dev: open part: %w" e)
      | Ok b => match readParts f dir parts' with
                | Err e => Err e
                | Ok rest => Ok (b ++ rest)
                end
      end
  end.

(** [CompleteMultipart]. *)
Definition CompleteMultipart (now : Time) (req : CompleteRequest) : MP PutResult :=
  let key := mu_Key (cq_Upload req) in
  lift (validateKey key);;
  let dir := multipartDir key (mu_UploadID (cq_Upload req)) in
  mp ← fsGet (fun f => match readJ f (joinPath dir "upload.json") with
                       | Ok d => Ok (asUpload d)
                       | Err _ => Err (ErrWrap "local_fs_dev: %w: upload %q" (ErrSentinel BsNotFound))
                       end);
  wrap "local_fs_dev: mkdir versions: %w" (fsDo (fun f => mkdirAll f (versionsDir key)));;
  versionID ← newVersionID now;
  data ← fsGet (fun f => readParts f dir (cq_Parts req));
  fail_if (negb (bool_decide (mm_ChecksumSHA256 mp = ""))
           && negb (bool_decide (mm_ChecksumSHA256 mp = sha256_hex data)))
    (ErrWrap "local_fs_dev: %w: got %s want %s" (ErrSentinel BsChecksumMismatch));;
  res ← publish key versionID data (mm_ContentType mp) (cq_Retention req) now;
  fsDo (fun f => Ok (removeAll f dir));;
  ret res.

(** [AbortMultipart]. *)
Definition AbortMultipart (upload : MultipartUpload) : MP unit :=
  lift (validateKey (mu_Key upload));;
  fsDo (fun f => Ok (removeAll f (multipartDir (mu_Key upload) (mu_UploadID upload)))).

(** [CopyWithinProvider]. *)
Definition CopyWithinProvider (now : Time) (req : CopyWithinProviderRequest) : MP PutResult :=
  let src := cw_Src req in
  lift (validateKey (vr_Key src));;
  lift (validateKey (cw_DstKey req));;
  srcSC ← (if negb (bool_decide (vr_VersionID src = ""))
           then fsGet (readSidecar (vr_Key src) (vr_VersionID src))
           else versions ← fsGet (fun f => listVersionsLocked f (vr_Key src));
                match latestNonDeleteMarker versions with
                | Some sc => ret sc
                | None => throw (ErrWrap "local_fs_dev: %w: src %q" (ErrSentinel BsNotFound))
                end);
  data ← wrap "local_fs_dev: open src: %w"
           (fsGet (fun f => openFile f (versionBodyPath (sc_Key srcSC) (sc_VersionID srcSC))));
  wrap "local_fs_dev: mkdir dst: %w" (fsDo (fun f => mkdirAll f (versionsDir (cw_DstKey req))));;
  versionID ← newVersionID now;
  fail_if (negb (bool_decide (sha256_hex data = sc_ChecksumSHA256 srcSC)))
    (ErrWrap "local_fs_dev: %w: copy checksum" (ErrSentinel BsChecksumMismatch));;
  publish (cw_DstKey req) versionID data (sc_ContentType srcSC) (cw_Retention req) now.

(** [GetRetention]. *)
Definition GetRetention (ref : VersionedObjectRef) : MP RetentionState :=
  lift (validateKey (vr_Key ref));;
  sc ← fsGet (readSidecar (vr_Key ref) (vr_VersionID ref));
  ret (sc_Retention sc).

(** The decision of [UpdateRetention] on the stored retention. *)
Definition extendUntil (old : RetentionState) (t : Time) (msg : string) : result RetentionState :=
  if negb (IsZero t) then
    if negb (IsZero (rt_RetainUntil old)) && Before t (rt_RetainUntil old)
    then Err (ErrWrap msg (ErrSentinel BsRetentionConflict))
    else Ok (old <| rt_RetainUntil := t |>)
  else Ok old.

Definition updatedRetention (old : RetentionState) (req : RetentionUpdate) : result RetentionState :=
  if bool_decide (rt_Mode old = RetentionCompliance) then
    if ru_ClearRetention req
    then Err (ErrWrap "local_fs_dev: %w: compliance lock cannot be cleared" (ErrSentinel BsRetentionConflict))
    else match extendUntil old (ru_RetainUntil req)
                 "local_fs_dev: %w: compliance retain-until cannot be shortened" with
         | Err e => Err e
         | Ok new =>
             if negb (bool_decide (ru_Mode req = RetentionNone))
                && negb (bool_decide (ru_Mode req = RetentionCompliance))
             then Err (ErrWrap "local_fs_dev: %w: compliance mode cannot be downgraded"
                         (ErrSentinel BsRetentionConflict))
             else Ok new
         end
  else if ru_ClearRetention req then Ok (mkRetentionState RetentionNone zeroTime false)
  else
    let old := if negb (bool_decide (ru_Mode req = RetentionNone)) then old <| rt_Mode := ru_Mode req |> else old in
    extendUntil old (ru_RetainUntil req) "local_fs_dev: %w: cannot shorten retention".

(** [UpdateRetention]. *)
Definition UpdateRetention (req : RetentionUpdate) : MP RetentionState :=
  let ref := ru_Ref req in
  lift (validateKey (vr_Key ref));;
  sc ← fsGet (readSidecar (vr_Key ref) (vr_VersionID ref));
  new ← lift (updatedRetention (sc_Retention sc) req);
  writeSidecar (versionMetaPath (vr_Key ref) (vr_VersionID ref)) (sc <| sc_Retention := new |>);;
  ret new.

(** [SetLegalHold]. *)
Definition SetLegalHold (ref : VersionedObjectRef) (enabled : bool) : MP RetentionState :=
  lift (validateKey (vr_Key ref));;
  sc ← fsGet (readSidecar (vr_Key ref) (vr_VersionID ref));
  let new := (sc_Retention sc) <| rt_LegalHold := enabled |> in
  writeSidecar (versionMetaPath (vr_Key ref) (vr_VersionID ref)) (sc <| sc_Retention := new |>);;
  ret new.

(** [ListObjects]. *)
Definition objectMetas (f : fs doc) (req : ListObjectsRequest) (es : list (string * node doc))
  : list ObjectMeta :=
  omap (fun e =>
    match e.2 with
    | Dir =>
        if negb (bool_decide (lo_Prefix req = "")) && negb (HasPrefix e.1 (lo_Prefix req)) then None
        else if negb (bool_decide (lo_Cursor req = "")) && negb (str_ltb (lo_Cursor req) e.1) then None
        else match listVersionsLocked f e.1 with
             | Err _ => None
             | Ok vs => option_map sidecarToMeta (latestNonDeleteMarker vs)
             end
    | _ => None
    end) es.

Definition ListObjects (req : ListObjectsRequest) : MP ObjectPage :=
  es ← wrap "local_fs_dev: list root: %w" (fsGet (fun f => readDir f root));
  metas0 ← gets (fun p => objectMetas (lf_fs p) req es);
  let metas := sort_Slice (fun a b => str_ltb (om_Key a) (om_Key b)) metas0 in
  let m := lo_MaxKeys req in
  let m := if m <=? 0 then 1000 else m in
  let m := if 1000 <? m then 1000 else m in
  let m := if len metas <? m then len metas else m in
  let page := takeZ m metas in
  ret (if m <? len metas
       then mkObjectPage page (match last page with Some x => om_Key x | None => "" end) true
       else mkObjectPage page "" false).

(** [ListObjectVersions]. *)
Definition ListObjectVersions (req : ListVersionsRequest) : MP VersionPage :=
  lift (validateKey (lv_Key req));;
  versions ← fsGet (fun f => listVersionsLocked f (lv_Key req));
  ret (mkVersionPage (map sidecarToMeta versions) "" false).

(** [os.Remove] that tolerates a missing file. *)
Definition removeIgnoreMissing (msg : string) (q : path) : MP unit := fun p =>
  match remove (lf_fs p) q with
  | Ok f => (p <| lf_fs := f |>, Ok tt)
  | Err e => if errors_Is e OsNotExist then (p, Ok tt) else (p, Err (ErrWrap msg e))
  end.

(** [DeleteVersion]. *)
Definition DeleteVersion (ref : VersionedObjectRef) : MP unit :=
  lift (validateKey (vr_Key ref));;
  removeIgnoreMissing "local_fs_dev: delete version meta: %w"
    (versionMetaPath (vr_Key ref) (vr_VersionID ref));;
  removeIgnoreMissing "local_fs_dev: delete version body: %w"
    (versionBodyPath (vr_Key ref) (vr_VersionID ref)).

(** [ListMultipartUploads]. *)
Definition uploadsOf (f : fs doc) (prefix : string) (es : list (string * node doc)) : list MultipartUpload :=
  mjoin (map (fun e =>
    match e.2 with
    | Dir =>
        if negb (bool_decide (prefix = "")) && negb (HasPrefix e.1 prefix) then []
        else match readDir f (root ++ ["_multipart"; e.1]) with
             | Err _ => []
             | Ok ds => omap (fun d => match d.2 with Dir => Some (mkMultipartUpload e.1 d.1) | _ => None end) ds
             end
    | _ => []
    end) es).
Definition uploadCursor (u : MultipartUpload) : string := mu_Key u +:+ "/" +:+ mu_UploadID u.

Definition ListMultipartUploads (req : ListUploadsRequest) : MP UploadPage := fun p =>
  match readDir (lf_fs p) (root ++ ["_multipart"]) with
  | Err e => if errors_Is e OsNotExist then (p, Ok (mkUploadPage [] ""))
             else (p, Err (ErrWrap "local_fs_dev: list multipart: %w" e))
  | Ok es =>
      let us := uploadsOf (lf_fs p) (lu_Prefix req) es in
      let us := sort_Slice (fun a b =>
        if bool_decide (mu_Key a = mu_Key b) then str_ltb (mu_UploadID a) (mu_UploadID b)
        else str_ltb (mu_Key a) (mu_Key b)) us in
      let us := if bool_decide (lu_Cursor req = "") then us
                else List.filter (fun u => str_ltb (lu_Cursor req) (uploadCursor u)) us in
      let m := lu_MaxKeys req in
      if (0 <? m) && (m <? len us) then
        let page := takeZ m us in
        (p, Ok (mkUploadPage page (match last page with Some u => uploadCursor u | None => "" end)))
      else (p, Ok (mkUploadPage us ""))
  end.

(** [ListParts]. *)
Definition partsOf (es : list (string * node doc)) : list CompletedPart :=
  omap (fun e =>
    if HasPrefix e.1 "part-"
    then match scanPart e.1 with
         | Some n => Some (mkCompletedPart n "" (match e.2 with File b => len b | _ => 0 end))
         | None => None
         end
    else None) es.

Definition ListParts (upload : MultipartUpload) (cursor : string) : MP PartPage := fun p =>
  match readDir (lf_fs p) (multipartDir (mu_Key upload) (mu_UploadID upload)) with
  | Err e => if errors_Is e OsNotExist then (p, Ok (mkPartPage [] ""))
             else (p, Err (ErrWrap "local_fs_dev: list parts: %w" e))
  | Ok es =>
      let parts := sort_Slice (fun a b => cp_PartNumber a <? cp_PartNumber b) (partsOf es) in
      let parts := if bool_decide (cursor = "") then parts
                   else List.filter (fun pt => atoi cursor 0 <? cp_PartNumber pt) parts in
      (p, Ok (mkPartPage parts ""))
  end.

(** [DeleteBatch]; the error text is kept abstract. *)
Fixpoint DeleteBatch (refs : list VersionedObjectRef) (p : Provider) : Provider * BatchDeleteResult :=
  match refs with
  | [] => (p, mkBatchDeleteResult [] [])
  | ref :: refs' =>
      let '(p, r) := DeleteVersion ref p in
      let '(p, rest) := DeleteBatch refs' p in
      match r with
      | Ok _ => (p, mkBatchDeleteResult (ref :: bd_Deleted rest) (bd_Errors rest))
      | Err _ => (p, mkBatchDeleteResult (bd_Deleted rest) (mkBatchDeleteError ref "error" :: bd_Errors rest))
      end
  end.
End provider.

(** [Capabilities]. *)
Definition Capabilities : ProviderCapabilities :=
  zeroCapabilities <| ProviderVersioning := true |> <| DeleteAllVersions := true |>
    <| ConditionalPut := true |> <| NativeSHA256Checksum := true |> <| S3ObjectLock := true |>
    <| PerVersionRetentionGet := true |> <| PerVersionRetentionExtend := true |>
    <| PerVersionRetentionClear := true |> <| LegalHoldSetClear := true |>
    <| GovernanceBypassDenied := true |> <| ListAndAbortMultipart := true |>
    <| pc_BucketVersioningState := VersioningEnabled |>
    <| MaxObjectSize := 5 * 1024 * 1024 * 1024 * 1024 |> <| MaxPartSize := 5 * 1024 * 1024 * 1024 |>
    <| MaxParts := 10000 |> <| MinPartBytes := 5 * 1024 * 1024 |> <| ChecksumOnComplete := true |>.

#[export] Instance eta_RetentionUpdate : Eta RetentionUpdate := fun r =>
  mkRetentionUpdate (ru_Ref r) (ru_Mode r) (ru_RetainUntil r) (ru_ClearRetention r).

(** The data-plane interface of the provider rooted at [root]; [io.Copy]
    reads a body to its end. *)
Definition putReads (now : Time) (req : PutRequest) (p : Provider) : Z :=
  match pq_Body req with Some body => len (rd_bytes body) | None => 0 end.

Definition Local_Store (root : path) : Store Provider := {|
  st_Put := Put root; st_PutReads := putReads; st_Get := Get root; st_Head := Head root;
  st_CreateMultipart := CreateMultipart root; st_UploadPart := UploadPart root;
  st_CompleteMultipart := CompleteMultipart root; st_AbortMultipart := AbortMultipart root
|}.

(** ** Paths of versions *)
Lemma validateKey_Ok key : validateKey key = Ok tt ->
  Forall (fun seg => seg <> "" /\ seg <> "." /\ seg <> "..") (Split key "/"%char).
Proof.
  unfold validateKey. repeat case_match; try done. intros _.
  match goal with H : firstSome _ ?l = None |- _ => revert H; generalize l end.
  induction l as [|seg l IH]; [constructor|]. cbn. unfold badSegment at 1.
  destruct (bool_decide (seg = ".")) eqn:H5; [done|].
  destruct (bool_decide (seg = "..")) eqn:H6; [done|].
  destruct (bool_decide (seg = "")) eqn:H7; [done|]. bool_hyps.
  intros Hl. constructor; [done|]. by apply IH.
Qed.

Lemma foldl_joinSeg segs base :
  Forall (fun seg => seg <> "" /\ seg <> "." /\ seg <> "..") segs -> foldl joinSeg base segs = base ++ segs.
Proof.
  intros Hs. revert base. induction Hs as [|seg segs (H1 & H2 & H3) _ IH]; intros base; cbn.
  - by rewrite app_nil_r.
  - unfold joinSeg at 2. rewrite !bool_decide_false by done. cbn. by rewrite IH, <- app_assoc.
Qed.

Lemma versionsDir_valid root key :
  validateKey key = Ok tt -> versionsDir root key = root ++ Split key "/"%char.
Proof. intros Hk%validateKey_Ok. unfold versionsDir, joinPath. by apply foldl_joinSeg. Qed.

Lemma versionsDir_nonnil root key : validateKey key = Ok tt -> versionsDir root key <> [].
Proof.
  intros Hk. rewrite versionsDir_valid by done. intros Hn. apply app_nil in Hn as [_ Hn].
  by apply Split_nonempty in Hn.
Qed.

(** A generated version ID names plain files. *)
Definition plainID (v : string) : Prop := ContainsRune v "/"%char = false.

Lemma newVersionID_plain now p : exists v,
  newVersionID now p = (p <| lf_counter := wrapU64 (lf_counter p + 1) |>, Ok v) /\ plainID v.
Proof.
  eexists. split; [reflexivity|]. unfold plainID. rewrite !ContainsRune_app, !hexPad_noSlash; [done|..];
    unfold wrapU64; apply Z.mod_pos_bound; lia.
Qed.

Lemma plain_suffix v suf : plainID v -> ContainsRune suf "/"%char = false -> (3 <= String.length suf)%nat ->
  forall dir, joinPath dir (v +:+ suf) = dir ++ [v +:+ suf].
Proof.
  intros Hv Hs Hl dir. apply joinPath_plain.
  - by rewrite ContainsRune_app, Hv, Hs.
  - intros Heq%(f_equal String.length). rewrite slength_app in Heq. cbn in Heq. lia.
  - intros Heq%(f_equal String.length). rewrite slength_app in Heq. cbn in Heq. lia.
  - intros Heq%(f_equal String.length). rewrite slength_app in Heq. cbn in Heq. lia.
Qed.

Lemma versionBodyPath_plain root key v : plainID v ->
  versionBodyPath root key v = versionsDir root key ++ [v +:+ ".bin"].
Proof. intros Hv. unfold versionBodyPath. apply plain_suffix; [done|done|cbn; lia]. Qed.

Lemma versionMetaPath_plain root key v : plainID v ->
  versionMetaPath root key v = versionsDir root key ++ [v +:+ ".json"].
Proof. intros Hv. unfold versionMetaPath. apply plain_suffix; [done|done|cbn; lia]. Qed.

Lemma bin_json_ne v : v +:+ ".bin" <> v +:+ ".json".
Proof. intros Heq%(f_equal String.length). rewrite !slength_app in Heq. cbn in Heq. lia. Qed.

(** ** Publishing a version *)
Lemma fsDo_Ok f p p' u : fsDo f p = (p', Ok u) -> exists f', f (lf_fs p) = Ok f' /\ p' = p <| lf_fs := f' |>.
Proof. unfold fsDo. destruct (f (lf_fs p)) as [f'|]; [|done]. intros [= <- _]. eauto. Qed.

Lemma wrap_Ok {S A} msg (m : M S A) s s' a : wrap msg m s = (s', Ok a) -> m s = (s', Ok a).
Proof. unfold wrap. destruct (m s) as [? []]; [done|by intros [=]]. Qed.

Lemma writeNode_Ok {J} (f f' : fs J) q n :
  writeNode f q n = Ok f' -> isDir f (removelast q) = true /\ isDir f q = false /\ f' = <[q := n]> f.
Proof.
  unfold writeNode. destruct (isDir f (removelast q)) eqn:H1; [|done].
  destruct (isDir f q) eqn:H2; [done|]. cbn. by intros [= <-].
Qed.

(** The sidecar of a new version. *)
Definition newSidecar (key vid : string) (data : bytes) (ct : string) (spec : RetentionSpec) (now : Time) : sidecar :=
  mkSidecar key vid (len data) (sha256_hex data) ct VersioningEnabled (newRetention spec) now false.

Lemma publish_Ok root key vid data ct spec now p p' r :
  publish root key vid data ct spec now p = (p', Ok r) ->
  p' = p <| lf_fs := <[versionMetaPath root key vid := JFile (DSidecar (newSidecar key vid data ct spec now))]>
             (<[versionBodyPath root key vid := File data]> (lf_fs p)) |>
  /\ pr_Size r = len data /\ pr_ChecksumSHA256 r = sha256_hex data.
Proof.
  unfold publish. intros H. apply bind_Ok_inv in H as ([] & p1 & H1 & H).
  apply wrap_Ok, fsDo_Ok in H1 as (f1 & H1 & ->). apply writeNode_Ok in H1 as (_ & _ & ->).
  apply bind_Ok_inv in H as (res & p2 & H2 & H). unfold try in H2.
  destruct (writeSidecar _ _ _) as [p3 [[]|e]] eqn:Hw; injection H2 as <- <-.
  - apply wrap_Ok, fsDo_Ok in Hw as (f2 & Hw & ->). apply writeNode_Ok in Hw as (_ & _ & ->).
    injection H as <- <-. done.
  - apply bind_Ok_inv in H as ([] & p4 & _ & H). by injection H.
Qed.

(** ** The store laws *)
Definition local_inv (t : Time) (p : Provider) : Prop :=
  zeroTime <= t /\ forall q d, lf_fs p !! q = Some (JFile d) -> sc_WriteTime (asSidecar d) <= t.

Definition local_stored (root : path) (p : Provider) (key : string) (b : bytes) : Prop :=
  validateKey key = Ok tt /\
  exists vs sc, listVersionsLocked root (lf_fs p) key = Ok vs /\ latestVersion vs = Some sc /\
    sc_IsDeleteMarker sc = false /\ sc_ChecksumSHA256 sc = sha256_hex b /\ sc_SizeBytes sc = len b /\
    openFile (lf_fs p) (versionBodyPath root (sc_Key sc) (sc_VersionID sc)) = Ok b.

Lemma stat_lookup {J} (f : fs J) q n : q <> [] -> f !! q = Some n -> stat f q = Ok n.
Proof. intros Hq Hf. unfold stat. destruct q; [done|]. by rewrite Hf. Qed.

Lemma isDir_lookup {J} (f : fs J) q : q <> [] -> isDir f q = true -> f !! q = Some Dir.
Proof. intros Hq. unfold isDir. destruct q; [done|]. by destruct (f !! _) as [[]|]. Qed.

Lemma mkdirAll_inv t p f d : local_inv t p -> mkdirAll (lf_fs p) d = Ok f -> local_inv t (p <| lf_fs := f |>).
Proof.
  intros [Hz Hi] Hm. split; [done|]. intros q d' Hq. cbn in Hq.
  destruct (mkdirAll_spec _ _ _ Hm) as [_ Hl]. destruct (Hl q) as [_ [Heq|[_ Heq]]]; [|congruence].
  rewrite Heq in Hq. by eapply Hi.
Qed.

(** A file system in which every sidecar but the one of the new version is
    older: the new version is the current one. *)
Lemma stored_intro root t now key vid data ct spec p' :
  t < now -> zeroTime <= t -> validateKey key = Ok tt -> plainID vid ->
  let dir := versionsDir root key in
  let sc := newSidecar key vid data ct spec now in
  lf_fs p' !! dir = Some Dir ->
  lf_fs p' !! (dir ++ [vid +:+ ".json"]) = Some (JFile (DSidecar sc)) ->
  lf_fs p' !! (dir ++ [vid +:+ ".bin"]) = Some (File data) ->
  (forall q d, lf_fs p' !! q = Some (JFile d) -> d = DSidecar sc \/ sc_WriteTime (asSidecar d) <= t) ->
  local_inv now p' /\ local_stored root p' key data.
Proof.
  cbv zeta. intros Ht Hz Hk Hv. set (dir := versionsDir root key).
  set (sc := newSidecar key vid data ct spec now). intros Hdir Hjson Hbin Hold.
  pose proof (versionsDir_nonnil root key Hk : dir <> []) as Hnn.
  split.
  { split; [lia|]. intros q d [->|Hq]%Hold; [cbn; lia|lia]. }
  split; [done|]. exists (byWriteTime (loadEntries (lf_fs p') dir (children (lf_fs p') dir))), sc.
  unfold listVersionsLocked, readDir. fold dir.
  rewrite (stat_lookup _ dir Dir Hnn Hdir). split; [done|]. split.
  - unfold latestVersion, byWriteTime. apply (sort_Slice_last sc_WriteTime).
    + unfold loadEntries. apply list_elem_of_omap. exists (vid +:+ ".json", JFile (DSidecar sc)). split.
      * by apply elem_of_children.
      * cbn [fst]. rewrite HasSuffix_app. unfold loadSidecar, readJ.
        by rewrite (stat_lookup _ _ (JFile (DSidecar sc))); [|intros [_ ?]%app_nil|].
    + intros y ([name n] & Hin & Hy)%list_elem_of_omap. cbn [fst] in Hy.
      destruct (HasSuffix name ".json"); [|done]. apply elem_of_children in Hin.
      unfold loadSidecar, readJ in Hy. rewrite (stat_lookup _ _ n) in Hy; [|by intros [_ ?]%app_nil|done].
      destruct n as [| |d]; try done. injection Hy as <-.
      destruct (Hold _ _ Hin) as [->|Hq]; [by left|right]. cbn [sc newSidecar sc_WriteTime]. lia.
  - do 3 (split; [done|]). cbn [sc_Key sc_VersionID sc newSidecar].
    rewrite versionBodyPath_plain by done. fold dir. unfold openFile.
    by rewrite (stat_lookup _ _ (File data)); [|intros [_ ?]%app_nil|].
Qed.

(** What publishing does to the file system. *)
Lemma publish_lookups root key vid data ct spec now p p' r :
  plainID vid -> publish root key vid data ct spec now p = (p', Ok r) ->
  let dir := versionsDir root key in
  let sc := newSidecar key vid data ct spec now in
  lf_fs p' !! (dir ++ [vid +:+ ".json"]) = Some (JFile (DSidecar sc)) /\
  lf_fs p' !! (dir ++ [vid +:+ ".bin"]) = Some (File data) /\
  (forall q, q <> dir ++ [vid +:+ ".json"] -> q <> dir ++ [vid +:+ ".bin"] -> lf_fs p' !! q = lf_fs p !! q) /\
  pr_Size r = len data /\ pr_ChecksumSHA256 r = sha256_hex data.
Proof.
  intros Hv Hp. apply publish_Ok in Hp as (-> & Hsz & Hsum). cbv zeta.
  rewrite versionBodyPath_plain, versionMetaPath_plain by done.
  cbn [lf_fs upd eta_expand eta_Provider]. rewrite lookup_insert_eq. split; [done|].
  rewrite lookup_insert_ne, lookup_insert_eq.
  - split; [done|]. split; [|done]. intros q Hq1 Hq2. by rewrite !lookup_insert_ne by congruence.
  - intros [_ [= Heq]]%app_inj_2; [|done]. symmetry in Heq. by apply bin_json_ne in Heq.
Qed.

(** After publishing at a later time the new version is the latest. *)
Lemma publish_stored root t now key vid data ct spec p p' r :
  local_inv t p -> t < now -> validateKey key = Ok tt -> plainID vid ->
  lf_fs p !! versionsDir root key = Some Dir ->
  publish root key vid data ct spec now p = (p', Ok r) ->
  local_inv now p' /\ local_stored root p' key data /\
  pr_Size r = len data /\ pr_ChecksumSHA256 r = sha256_hex data.
Proof.
  intros [Hz Hi] Ht Hk Hv Hd Hp.
  destruct (publish_lookups _ _ _ _ _ _ _ _ _ _ Hv Hp) as (Hj & Hb & Hq & Hsz & Hsum).
  assert (local_inv now p' /\ local_stored root p' key data) as [? ?]; [|done].
  eapply (stored_intro root t now key vid data ct spec); try done.
  - rewrite Hq; [done|..]; intros Heq%(f_equal length); rewrite length_app in Heq; cbn in Heq; lia.
  - intros q d Hlk. destruct (decide (q = versionsDir root key ++ [vid +:+ ".json"])) as [->|H1].
    { left. congruence. }
    destruct (decide (q = versionsDir root key ++ [vid +:+ ".bin"])) as [->|H2]; [congruence|].
    right. rewrite Hq in Hlk by done. by eapply Hi.
Qed.

Lemma local_inv_counter t p c : local_inv t p -> local_inv t (p <| lf_counter := c |>).
Proof. done. Qed.

Lemma lift_Ok {S A} (r : result A) (s s' : S) a : lift r s = (s', Ok a) -> r = Ok a /\ s' = s.
Proof. unfold lift. by intros [= <- ->]. Qed.

(** Take a successful bind apart. *)
Ltac bind_inv H x s H1 := apply bind_Ok_inv in H as (x & s & H1 & H).

Lemma Put_stored root t now req p p' r b :
  local_inv t p -> t < now -> pq_Body req = Some (bytes_NewReader b) ->
  Put root now req p = (p', Ok r) ->
  local_inv now p' /\ local_stored root p' (pq_Key req) b /\ pr_Size r = len b
    /\ pr_ChecksumSHA256 r = sha256_hex b.
Proof.
  intros Hi Ht Hb H. unfold Put in H. bind_inv H u p1 H1. apply lift_Ok in H1 as [Hk ->].
  destruct u. rewrite Hb in H. bind_inv H a p1 H1. injection H1 as <- _.
  bind_inv H u p1 H1. apply fail_if_Ok_inv in H1 as [_ ->].
  bind_inv H u' p1 H1. apply wrap_Ok, fsDo_Ok in H1 as (f1 & Hm & ->).
  pose proof (mkdirAll_inv _ _ _ _ Hi Hm) as Hi1.
  destruct (mkdirAll_spec _ _ _ Hm) as [Hd _].
  apply isDir_lookup in Hd; [|by apply versionsDir_nonnil].
  bind_inv H vid p1 H1. destruct (newVersionID_plain now (p <| lf_fs := f1 |>)) as (v & Hv & Hpl).
  rewrite Hv in H1. injection H1 as <- <-.
  bind_inv H data p1 H1. apply lift_Ok in H1 as [Hr ->]. injection Hr as <-.
  bind_inv H u1 p1 H1. apply fail_if_Ok_inv in H1 as [_ ->].
  bind_inv H u2 p1 H1. apply fail_if_Ok_inv in H1 as [_ ->].
  by eapply publish_stored in H.
Qed.

Lemma Get_stored root now p key b :
  local_stored root p key b ->
  exists md, Get root now (mkGetRequest (mkVersionedObjectRef key "") None) p
      = (p, Ok (bytes_NewReader b, md)) /\ om_ChecksumSHA256 md = sha256_hex b /\ om_Size md = len b.
Proof.
  intros (Hk & vs & sc & Hl & Hlast & Hdm & Hsum & Hsz & Hopen).
  exists (sidecarToMeta sc). split; [|done].
  unfold Get. cbn [gq_Ref vr_Key vr_VersionID gq_Range]. unroll. rewrite Hk. unfold fsGet.
  change (bool_decide ("" = "")) with true. cbv beta iota zeta delta [negb]. rewrite Hl, Hlast, Hdm.
  unroll. by rewrite Hopen.
Qed.

Lemma Head_stored root now p key b :
  local_stored root p key b ->
  exists md, Head root now (mkObjectRef key) p = (p, Ok md) /\
    om_ChecksumSHA256 md = sha256_hex b /\ om_Size md = len b.
Proof.
  intros (Hk & vs & sc & Hl & Hlast & Hdm & Hsum & Hsz & Hopen). exists (sidecarToMeta sc). split; [|done].
  unfold Head. cbn [or_Key]. unroll. rewrite Hk. unfold fsGet. cbv beta iota. rewrite Hl, Hlast, Hdm. done.
Qed.

(** Below the staging directory of an upload there is no version. *)
Lemma under_long p q : (length q < length p)%nat -> under p q = false.
Proof.
  intros Hl. unfold under. apply bool_decide_eq_false. intros Heq%(f_equal length).
  rewrite length_take in Heq. lia.
Qed.

Lemma multipartDir_valid root key uid :
  validateKey key = Ok tt -> plainID uid -> uid <> "" -> uid <> "." -> uid <> ".." ->
  multipartDir root key uid = root ++ "_multipart" :: Split key "/"%char ++ [uid].
Proof.
  intros Hk Hp H1 H2 H3. unfold multipartDir. rewrite joinPath_plain by done.
  unfold joinPath. rewrite foldl_joinSeg by by apply validateKey_Ok. by rewrite <- !app_assoc.
Qed.

Lemma readParts_Ok f dir parts datas :
  Forall2 (fun part d => openFile f (joinPath dir (partName (cp_PartNumber part))) = Ok d) parts datas ->
  readParts f dir parts = Ok (concat datas).
Proof. induction 1 as [|part d parts datas Hd _ IH]; [done|]. cbn [readParts concat]. by rewrite Hd, IH. Qed.

Lemma stat_file_keep (f f' : fs doc) q n :
  (forall n', f !! q = Some n' -> f' !! q = Some n') -> stat f q = Ok n -> stat f' q = Ok n.
Proof.
  intros Hk. unfold stat. destruct q; [done|]. destruct (f !! _) as [n'|]; [|done].
  intros [= ->]. by rewrite (Hk n eq_refl).
Qed.

Lemma openFile_keep (f f' : fs doc) q b :
  (forall n', f !! q = Some n' -> f' !! q = Some n') -> openFile f q = Ok b -> openFile f' q = Ok b.
Proof.
  intros Hk. unfold openFile. destruct (stat f q) as [n|] eqn:Hs; [|done].
  by rewrite (stat_file_keep _ _ _ _ Hk Hs).
Qed.

(** ** Properties *)

(** a stored object is read back: after a successful [Put] with a
    clock that has moved on, [Head] reports the length and SHA-256 of the
    body, [Get] returns the body, and a ranged [Get] returns exactly the
    requested inclusive range, an open or too large end meaning the rest. *)
Lemma Put_then_read root t now now' req p p' r b :
  local_inv t p -> t < now -> pq_Body req = Some (bytes_NewReader b) ->
  Put root now req p = (p', Ok r) ->
  pr_Size r = len b /\ pr_ChecksumSHA256 r = sha256_hex b /\
  (exists md, Head root now' (mkObjectRef (pq_Key req)) p' = (p', Ok md) /\
     om_Size md = len b /\ om_ChecksumSHA256 md = sha256_hex b) /\
  (exists md, Get root now' (mkGetRequest (mkVersionedObjectRef (pq_Key req) "") None) p'
     = (p', Ok (bytes_NewReader b, md))) /\
  (forall s e, 0 <= s <= e -> s < len b ->
     exists md, Get root now' (mkGetRequest (mkVersionedObjectRef (pq_Key req) "") (Some (mkByteRange s e))) p'
       = (p', Ok (bytes_NewReader (takeZ (Z.min (e + 1) (len b) - s) (dropZ s b)), md))).
Proof.
  intros Hi Ht Hb Hp. destruct (Put_stored _ _ _ _ _ _ _ _ Hi Ht Hb Hp) as (Hi' & Hst & Hsz & Hsum).
  split; [done|]. split; [done|]. split; [|split].
  - destruct (Head_stored root now' _ _ _ Hst) as (md & -> & ? & ?). by exists md.
  - pose proof Hst as (Hk & vs & sc & Hl & Hlast & Hdm & _ & _ & Hopen). exists (sidecarToMeta sc).
    unfold Get. cbn [gq_Ref vr_Key vr_VersionID gq_Range]. unroll. rewrite Hk. unfold fsGet.
    change (bool_decide ("" = "")) with true. cbv beta iota zeta delta [negb]. rewrite Hl, Hlast, Hdm.
    unroll. by rewrite Hopen.
  - intros s e Hse Hlen. pose proof Hst as (Hk & vs & sc & Hl & Hlast & Hdm & _ & _ & Hopen).
    exists (sidecarToMeta sc).
    assert (Hr : rangeBytes (mkByteRange s e) b = Ok (takeZ (Z.min (e + 1) (len b) - s) (dropZ s b))).
    { unfold rangeBytes. cbn [br_Start br_End].
      destruct (Z.ltb_spec e 0); [lia|]. destruct (Z.ltb_spec s 0); [lia|]. cbn [orb].
      destruct (Z.leb_spec (len b) e).
      - destruct (Z.ltb_spec (len b - 1) s); [lia|]. do 2 f_equal. lia.
      - destruct (Z.ltb_spec e s); [lia|]. do 2 f_equal. lia. }
    unfold Get. cbn [gq_Ref vr_Key vr_VersionID gq_Range]. unroll. rewrite Hk. unfold fsGet.
    change (bool_decide ("" = "")) with true. cbv beta iota zeta delta [negb]. rewrite Hl, Hlast, Hdm.
    unroll. by rewrite Hopen, Hr.
Qed.

(** C17: [CompleteMultipart] publishes the concatenation of the staged parts
    in the order of the request, as the current version of the key. *)
Theorem complete_concatenates root t now req p p' r datas :
  let key := mu_Key (cq_Upload req) in
  let uid := mu_UploadID (cq_Upload req) in
  local_inv t p -> t < now -> plainID uid -> uid <> "" -> uid <> "." -> uid <> ".." ->
  Forall2 (fun part d => openFile (lf_fs p)
      (joinPath (multipartDir root key uid) (partName (cp_PartNumber part))) = Ok d) (cq_Parts req) datas ->
  CompleteMultipart root now req p = (p', Ok r) ->
  local_stored root p' key (concat datas) /\ pr_Size r = len (concat datas) /\
  pr_ChecksumSHA256 r = sha256_hex (concat datas) /\
  forall q, under (multipartDir root key uid) q = true -> lf_fs p' !! q = None.
Proof.
  cbv zeta. intros Hi Ht Hu1 Hu2 Hu3 Hu4 Hparts H. unfold CompleteMultipart in H. cbv zeta in H.
  bind_inv H u p1 H1. apply lift_Ok in H1 as [Hk ->]. destruct u.
  bind_inv H mp p1 H1. injection H1 as <- _.
  bind_inv H u' p1 H1. apply wrap_Ok, fsDo_Ok in H1 as (f1 & Hm & ->).
  pose proof (mkdirAll_inv _ _ _ _ Hi Hm) as [Hz Hi1].
  destruct (mkdirAll_spec _ _ _ Hm) as [Hd Hkeep].
  apply isDir_lookup in Hd; [|by apply versionsDir_nonnil].
  bind_inv H vid p1 H1. destruct (newVersionID_plain now (p <| lf_fs := f1 |>)) as (v & Hv & Hpl).
  rewrite Hv in H1. injection H1 as <- <-.
  bind_inv H data p1 H1. unfold fsGet in H1. cbn [lf_fs upd eta_expand eta_Provider] in H1.
  rewrite (readParts_Ok f1 _ _ datas) in H1.
  2: { eapply Forall2_impl; [exact Hparts|]. intros part d. apply openFile_keep. apply Hkeep. }
  injection H1 as <- <-. bind_inv H u1 p1 H1. apply fail_if_Ok_inv in H1 as [_ ->].
  bind_inv H res p1 H1. destruct (publish_lookups _ _ _ _ _ _ _ _ _ _ Hpl H1) as (Hj & Hb & Hq & Hsz & Hsum).
  bind_inv H u2 p2 H2. apply fsDo_Ok in H2 as (f2 & [= <-] & ->). injection H as <- <-.
  set (mdir := multipartDir root _ _) in *.
  assert (Hml : forall q, (length q <= S (length (versionsDir root (mu_Key (cq_Upload req)))))%nat ->
                  under mdir q = false).
  { intros q Hl. apply under_long. unfold mdir. rewrite multipartDir_valid by done.
    rewrite versionsDir_valid in Hl by done. rewrite length_app in *. cbn. rewrite length_app. cbn. lia. }
  cbn [lf_fs upd eta_expand eta_Provider]. split; [|split; [done|split; [done|]]].
  - refine (proj2 (stored_intro root t now (mu_Key (cq_Upload req)) v (concat datas) (mm_ContentType mp)
      (cq_Retention req) (p1 <| lf_fs := removeAll (lf_fs p1) mdir |>) Ht Hz Hk Hpl _ _ _ _));
      cbn [lf_fs upd eta_expand eta_Provider].
    + rewrite lookup_removeAll, Hml by lia.
      rewrite Hq; [done|..]; intros Heq%(f_equal length); rewrite length_app in Heq; cbn in Heq; lia.
    + rewrite lookup_removeAll, Hml by (rewrite length_app; cbn; lia). exact Hj.
    + rewrite lookup_removeAll, Hml by (rewrite length_app; cbn; lia). exact Hb.
    + intros q d. rewrite lookup_removeAll. destruct (under mdir q); [done|]. intros Hlk.
      destruct (decide (q = versionsDir root (mu_Key (cq_Upload req)) ++ [v +:+ ".json"])) as [->|H3].
      { left. rewrite Hj in Hlk. by injection Hlk. }
      destruct (decide (q = versionsDir root (mu_Key (cq_Upload req)) ++ [v +:+ ".bin"])) as [->|H4].
      { rewrite Hb in Hlk. done. }
      right. rewrite Hq in Hlk by done. by eapply Hi1.
  - intros q Hun. by rewrite lookup_removeAll, Hun.
Qed.

(** C18: what a successful [UpdateRetention] makes of the retention of a
    version. Without a clear the period is not shortened - it is the one asked
    for, if any - and the legal hold stays; a COMPLIANCE lock keeps its mode
    and cannot be cleared at all; any other mode gives way to the mode asked
    for, unless that is NONE, so that a GOVERNANCE lock stays one only then. A
    clear of such a lock drops mode, period and legal hold. The new state is
    the one stored, and nothing else of the file system changes. *)
Theorem retention_monotone root req p p' new :
  UpdateRetention root req p = (p', Ok new) ->
  exists sc, readSidecar root (vr_Key (ru_Ref req)) (vr_VersionID (ru_Ref req)) (lf_fs p) = Ok sc /\
    let old := sc_Retention sc in
    (ru_ClearRetention req = false ->
       (IsZero (rt_RetainUntil old) = false -> rt_RetainUntil old <= rt_RetainUntil new) /\
       rt_RetainUntil new = (if IsZero (ru_RetainUntil req) then rt_RetainUntil old else ru_RetainUntil req) /\
       rt_LegalHold new = rt_LegalHold old) /\
    (rt_Mode old = RetentionCompliance -> rt_Mode new = RetentionCompliance /\ ru_ClearRetention req = false) /\
    (rt_Mode old <> RetentionCompliance -> ru_ClearRetention req = false ->
       rt_Mode new = if bool_decide (ru_Mode req = RetentionNone) then rt_Mode old else ru_Mode req) /\
    (ru_ClearRetention req = true -> new = mkRetentionState RetentionNone zeroTime false) /\
    lf_fs p' = <[versionMetaPath root (vr_Key (ru_Ref req)) (vr_VersionID (ru_Ref req)) :=
                  JFile (DSidecar (sc <| sc_Retention := new |>))]> (lf_fs p).
Proof.
  intros H. unfold UpdateRetention in H. cbv zeta in H. bind_inv H u p1 H1. apply lift_Ok in H1 as [_ ->].
  bind_inv H old p1 H1. injection H1 as <- Hsc. exists old. split; [done|].
  bind_inv H n p1 H1. apply lift_Ok in H1 as [Hup ->].
  bind_inv H u' p1 H1. apply wrap_Ok, fsDo_Ok in H1 as (f1 & Hw & ->). apply writeNode_Ok in Hw as (_ & _ & ->).
  injection H as <- <-. cbv zeta.
  assert (Hext : forall o msg, extendUntil o (ru_RetainUntil req) msg = Ok n ->
            (IsZero (rt_RetainUntil o) = false -> rt_RetainUntil o <= rt_RetainUntil n) /\
            rt_RetainUntil n = (if IsZero (ru_RetainUntil req) then rt_RetainUntil o else ru_RetainUntil req) /\
            rt_LegalHold n = rt_LegalHold o /\ rt_Mode n = rt_Mode o).
  { intros o msg. unfold extendUntil, Before. destruct (IsZero (ru_RetainUntil req)); cbn [negb].
    - intros [= <-]. done.
    - destruct (IsZero (rt_RetainUntil o)); cbn [negb andb]; [by intros [= <-]|].
      destruct (Z.ltb_spec (ru_RetainUntil req) (rt_RetainUntil o)); [done|]. by intros [= <-]. }
  unfold updatedRetention in Hup. case_bool_decide as Hc.
  - destruct (ru_ClearRetention req); [done|].
    destruct (extendUntil _ _ _) as [new'|] eqn:He; [|done].
    destruct (_ && _); [done|]. injection Hup as ->. destruct (Hext _ _ He) as (? & ? & ? & ?).
    split; [done|]. split; [by rewrite Hc in *|done].
  - destruct (ru_ClearRetention req).
    + injection Hup as <-. done.
    + apply Hext in Hup as (Hu & Hz & Hl & Hm).
      split; [|split; [done|split; [|done]]]; intros _; destruct (bool_decide (ru_Mode req = RetentionNone)); cbn [negb] in *; done.
Qed.

(** Which a request without a mode uses: its zero mode is not NONE, and takes
    the mode of a governance lock away. *)
Example zero_mode_drops_governance : updatedRetention (mkRetentionState RetentionGovernance 100 false)
  (mkRetentionUpdate (mkVersionedObjectRef "k" "v") "" 200 false) = Ok (mkRetentionState "" 200 false).
Proof. reflexivity. Qed.

Lemma Split_app_sep s c t : Split (s +:+ String c t) c = Split s c ++ Split t c.
Proof.
  induction s as [|d s IH].
  - change (Split (String c t) c = "" :: Split t c). cbn -[Ascii.eqb]. by rewrite Ascii.eqb_refl.
  - change ((d :: s)%string +:+ String c t) with (String d (s +:+ String c t)) || idtac.
    change (Split (String d (s +:+ String c t)) c = Split (String d s) c ++ Split t c).
    cbn [Split]. rewrite IH. destruct (Ascii.eqb d c); [done|].
    pose proof (Split_nonempty s c). by destruct (Split s c).
Qed.

(** purging a key removes its whole directory, and with it every
    object whose key continues the purged one behind a slash, whatever its
    retention: nothing below it is left and its [Head] fails. *)
Lemma purge_removes_nested_keys root key rest now p p' :
  let nested := key +:+ String "/" rest in
  validateKey key = Ok tt -> validateKey nested = Ok tt -> lf_fs p !! versionsDir root key = Some Dir ->
  PurgeAllVersions root (mkObjectRef key) p = (p', Ok tt) ->
  (forall q, lf_fs p' !! (versionsDir root nested ++ q) = None) /\
  (forall md, (Head root now (mkObjectRef nested) p').2 <> Ok md).
Proof.
  cbv zeta. intros Hk Hn Hd H. pose proof (versionsDir_nonnil root key Hk) as Hnn.
  unfold PurgeAllVersions in H. cbn [or_Key] in H. bind_inv H u p1 H1. apply lift_Ok in H1 as [_ ->].
  bind_inv H st p1 H1. unfold try, fsGet in H1. rewrite (stat_lookup _ _ _ Hnn Hd) in H1.
  injection H1 as <- <-. apply fsDo_Ok in H as (f1 & [= <-] & ->).
  assert (Hgone : forall q, lf_fs (p <| lf_fs := removeAll (lf_fs p) (versionsDir root key) |>)
                    !! (versionsDir root (key +:+ String "/" rest) ++ q) = None).
  { intros q. cbn [lf_fs upd eta_expand eta_Provider]. rewrite lookup_removeAll.
    replace (under _ _) with true; [done|]. symmetry. unfold under. apply bool_decide_eq_true.
    rewrite !versionsDir_valid, Split_app_sep by done. rewrite app_assoc, <- (app_assoc _ _ q).
    by rewrite take_app_length. }
  split; [exact Hgone|]. intros md. pose proof (versionsDir_nonnil root _ Hn) as Hnn'.
  unfold Head. cbn [or_Key]. unroll. rewrite Hn. unfold fsGet, listVersionsLocked, readDir.
  assert (Hs : exists e, stat (lf_fs (p <| lf_fs := removeAll (lf_fs p) (versionsDir root key) |>))
                 (versionsDir root (key +:+ String "/" rest)) = Err e).
  { specialize (Hgone []). rewrite app_nil_r in Hgone. unfold stat.
    destruct (versionsDir root (key +:+ String "/" rest)); [done|]. rewrite Hgone. eauto. }
  destruct Hs as [e ->]. by destruct (errors_Is e OsNotExist).
Qed.

(** ** Witnesses *)
Definition ex_root : path := ["data"].
Definition ex_init : Provider := mkProvider {[ ["data"] := Dir ]} 0.
Definition ex_req (key : string) (body : bytes) : PutRequest :=
  mkPutRequest key (Some (bytes_NewReader body)) 0 "" "text/plain" "" "" "" ""
    (mkRetentionSpec RetentionGovernance 1000 true) false.
Definition ex_put (key : string) (now : Time) (p : Provider) := Put ex_root now (ex_req key [x01; x02]) p.
Definition ex_stored : Provider := (ex_put "a/b" 10 ex_init).1.
Definition ex_result : PutResult :=
  match (ex_put "a/b" 10 ex_init).2 with
  | Ok r => r
  | Err _ => mkPutResult "" "" "" zeroRetentionState 0 0 "" ""
  end.

Lemma ex_init_inv : local_inv 5 ex_init.
Proof.
  split; [unfold zeroTime; lia|]. intros q d H. cbn [ex_init lf_fs] in H.
  by apply lookup_singleton_Some in H as [_ H].
Qed.

Lemma Put_then_read_example :
  exists md, Head ex_root 30 (mkObjectRef "a/b") ex_stored = (ex_stored, Ok md) /\ om_Size md = 2.
Proof.
  destruct (Put_then_read ex_root 5 10 30 (ex_req "a/b" [x01; x02]) ex_init ex_stored ex_result [x01; x02]
              ex_init_inv ltac:(lia) eq_refl eq_refl) as (_ & _ & (md & Hh & Hs & _) & _).
  exists md. split; [exact Hh|exact Hs].
Defined.

(** An upload of two parts, completed in the order 2, 1. *)
Definition ex_upload_sys : Provider :=
  mkProvider {[ ["data"] := Dir; ["data"; "_multipart"] := Dir; ["data"; "_multipart"; "k"] := Dir;
                ["data"; "_multipart"; "k"; "u"] := Dir;
                ["data"; "_multipart"; "k"; "u"; "upload.json"] :=
                  JFile (DUpload (mkMultipartMeta "k" "u" "" "" zeroRetentionSpec 1));
                ["data"; "_multipart"; "k"; "u"; "part-00001"] := File [x01];
                ["data"; "_multipart"; "k"; "u"; "part-00002"] := File [x02] ]} 0.
Definition ex_complete : CompleteRequest :=
  mkCompleteRequest (mkMultipartUpload "k" "u") [mkCompletedPart 2 "" 1; mkCompletedPart 1 "" 1]
    zeroRetentionSpec.
Definition ex_completed : Provider := (CompleteMultipart ex_root 10 ex_complete ex_upload_sys).1.
Definition ex_complete_result : PutResult :=
  match (CompleteMultipart ex_root 10 ex_complete ex_upload_sys).2 with
  | Ok r => r
  | Err _ => ex_result
  end.

Lemma ex_upload_inv : local_inv 5 ex_upload_sys.
Proof.
  split; [unfold zeroTime; lia|]. intros q d H. cbn [ex_upload_sys lf_fs] in H.
  repeat (apply lookup_insert_Some in H as [[_ H]|[_ H]]; [try discriminate H; injection H as <-; cbn; unfold zeroTime; lia|]).
  apply lookup_singleton_Some in H as [_ H]. discriminate.
Qed.

Lemma complete_concatenates_witness :
  local_stored ex_root ex_completed "k" [x02; x01] /\ pr_Size ex_complete_result = 2.
Proof.
  destruct (complete_concatenates ex_root 5 10 ex_complete ex_upload_sys ex_completed ex_complete_result
              [[x02]; [x01]] ex_upload_inv) as (H1 & H2 & _).
  - lia.
  - reflexivity.
  - discriminate.
  - discriminate.
  - discriminate.
  - repeat constructor.
  - reflexivity.
  - split; [exact H1|exact H2].
Defined.

(** Extending the retention of a stored version. *)
Definition ex_retention_sys : Provider :=
  mkProvider {[ ["data"] := Dir; ["data"; "k"] := Dir;
                ["data"; "k"; "v.json"] := JFile (DSidecar (mkSidecar "k" "v" 0 "" "" VersioningEnabled
                    (mkRetentionState RetentionCompliance 100 true) 1 false)) ]} 0.
Definition ex_update : RetentionUpdate :=
  mkRetentionUpdate (mkVersionedObjectRef "k" "v") RetentionNone 200 false.

Lemma retention_monotone_witness :
  exists p', UpdateRetention ex_root ex_update ex_retention_sys
      = (p', Ok (mkRetentionState RetentionCompliance 200 true)) /\ 100 <= 200.
Proof.
  exists (UpdateRetention ex_root ex_update ex_retention_sys).1. split; [reflexivity|].
  destruct (retention_monotone ex_root ex_update ex_retention_sys
              (UpdateRetention ex_root ex_update ex_retention_sys).1
              (mkRetentionState RetentionCompliance 200 true) eq_refl) as (sc0 & Hr & Hc & _).
  assert (Hs : sc_Retention sc0 = mkRetentionState RetentionCompliance 100 true)
    by (vm_compute in Hr; injection Hr as <-; reflexivity).
  rewrite Hs in Hc. exact (proj1 (Hc eq_refl) eq_refl).
Defined.

Definition ex_nested : Provider := (ex_put "a/b" 20 (ex_put "a" 10 ex_init).1).1.

Lemma purge_removes_nested_keys_witness :
  lf_fs (PurgeAllVersions ex_root (mkObjectRef "a") ex_nested).1 !! ["data"; "a"; "b"] = None.
Proof.
  refine (proj1 (purge_removes_nested_keys ex_root "a" "b" 30 ex_nested
    (PurgeAllVersions ex_root (mkObjectRef "a") ex_nested).1 eq_refl eq_refl eq_refl eq_refl) []).
Defined.
