(* ===== verification/LocalStore.v ===== *)
(** * The local provider implements the store interface

    [Local_StoreLaws]: the provider of [pkg/blobstore/local_fs_dev/local.go]
    keeps the promises of [StoreLaws], for the keys that do not lie below its
    staging directory ([good]). The lemmas follow the file system through
    each method: a method that does not publish a version is [calm]. *)
From Stdlib Require Import Strings.Ascii.
From S2P Require Import Prelude GoStd Sha256 BlobStore Fs LocalFsDev.
Local Open Scope Z_scope.

(** ** Names *)
Lemma Split_cons c s sep : exists p ps,
  Split (String c s) sep = if Ascii.eqb c sep then "" :: Split s sep else String c p :: ps.
Proof.
  cbn [Split]. destruct (Ascii.eqb c sep); [by exists "", []|].
  destruct (Split s sep) as [|p ps]; [by exists "", []|by exists p, ps].
Qed.

Lemma Split_inj s t sep : Split s sep = Split t sep -> s = t.
Proof.
  revert t. induction s as [|c s IH]; intros [|d t] Heq; [done| | |].
  - cbn -[Ascii.eqb] in Heq. destruct (Ascii.eqb d sep).
    + injection Heq as Heq. symmetry in Heq. by apply Split_nonempty in Heq.
    + by destruct (Split t sep).
  - cbn -[Ascii.eqb] in Heq. destruct (Ascii.eqb c sep).
    + injection Heq as Heq. by apply Split_nonempty in Heq.
    + by destruct (Split s sep).
  - cbn -[Ascii.eqb] in Heq. destruct (Ascii.eqb_spec c sep) as [->|Hc], (Ascii.eqb_spec d sep) as [->|Hd].
    + injection Heq as Heq. by rewrite (IH t Heq).
    + by destruct (Split t sep).
    + by destruct (Split s sep).
    + pose proof (Split_nonempty s sep) as Hs. pose proof (Split_nonempty t sep) as Ht.
      destruct (Split s sep) as [|p ps] eqn:Es, (Split t sep) as [|q qs] eqn:Et; try done.
      injection Heq as -> -> ->. by rewrite (IH t (eq_sym Et)).
Qed.

Lemma pretty_N_go_lead x s : (0 < x)%N -> exists c r, pretty_N_go x s = String c r /\ c <> "0"%char.
Proof.
  revert s. induction (N.lt_wf_0 x) as [x _ IH]; intros s Hx. rewrite pretty_N_go_step by done.
  destruct (N.lt_ge_cases x 10) as [Hlt|Hge].
  - rewrite N.div_small, N.mod_small, pretty_N_go_0 by done. eexists _, _. split; [done|].
    assert (x = 1 \/ x = 2 \/ x = 3 \/ x = 4 \/ x = 5 \/ x = 6 \/ x = 7 \/ x = 8 \/ x = 9)%N by lia.
    naive_solver.
  - apply IH; [by apply N.div_lt|]. apply N.div_str_pos. lia.
Qed.

Lemma pretty_N_go_noSlash x s : ContainsRune s "/"%char = false -> ContainsRune (pretty_N_go x s) "/"%char = false.
Proof.
  revert s. induction (N.lt_wf_0 x) as [x _ IH]; intros s Hs.
  assert (x = 0 \/ 0 < x)%N as [->|Hx] by lia; [done|].
  rewrite pretty_N_go_step by done. apply IH; [by apply N.div_lt|]. cbn -[Ascii.eqb]. rewrite Hs, orb_false_r.
  unfold pretty_N_char. by repeat case_match.
Qed.

Lemma pretty_pos n : 1 <= n -> exists x, (0 < x)%N /\ pretty n = pretty_N_go x "".
Proof. destruct n as [|x|x]; try lia. intros _. exists (Npos x). done. Qed.

Lemma zeros_length n : String.length (zeros n) = n.
Proof. induction n as [|n IH]; [done|]. cbn. by rewrite IH. Qed.

Lemma zeros_noSlash n : ContainsRune (zeros n) "/"%char = false.
Proof. by induction n. Qed.

Lemma partName_pos n : 0 <= n -> partName n = "part-" +:+ zeros (5 - String.length (pretty n)) +:+ pretty n.
Proof. intros Hn. unfold partName. by rewrite Z.abs_eq, (proj2 (Z.ltb_ge n 0)) by lia. Qed.

(** Zero-padded numbers differ: a proper pad puts a zero in front of a
    digit that is not one. *)
Lemma partName_inj n k : 1 <= n -> 1 <= k -> partName n = partName k -> n = k.
Proof.
  intros Hn Hk Heq. rewrite !partName_pos in Heq by lia.
  apply (f_equal (sdrop 5)) in Heq. change (sdrop 5 ("part-" +:+ ?s)) with s in Heq.
  cbn [sdrop] in Heq.
  assert (H : zeros (5 - String.length (pretty n)) +:+ pretty n
              = zeros (5 - String.length (pretty k)) +:+ pretty k) by exact Heq.
  clear Heq.
  pose proof (f_equal String.length H) as Hl. rewrite !slength_app, !zeros_length in Hl.
  destruct (pretty_pos n Hn) as (x & Hx & Hpx), (pretty_pos k Hk) as (y & Hy & Hpy).
  destruct (pretty_N_go_lead x "" Hx) as (c & r & Hc & Hcz).
  destruct (pretty_N_go_lead y "" Hy) as (d & q & Hd & Hdz).
  assert (Hpad : forall a b s t c r d q, zeros a +:+ s = zeros b +:+ t -> s = String c r -> t = String d q ->
            c <> "0"%char -> d <> "0"%char -> s = t).
  { clear. intros a b s t c r d q Heq -> -> Hc Hd. revert b Heq.
    induction a as [|a IH]; intros [|b] Heq.
    - exact Heq.
    - injection Heq as -> _. done.
    - injection Heq as <- _. done.
    - injection Heq as Heq. by eapply IH. }
  apply (inj pretty). eapply Hpad; [exact H|rewrite Hpx; exact Hc|rewrite Hpy; exact Hd|done|done].
Qed.

Lemma partName_plain dir n : 1 <= n -> joinPath dir (partName n) = dir ++ [partName n].
Proof.
  intros Hn. destruct (pretty_pos n Hn) as (x & Hx & Hpx). rewrite partName_pos by lia. apply joinPath_plain.
  - rewrite !ContainsRune_app, zeros_noSlash, Hpx, pretty_N_go_noSlash; done.
  - cbn. done.
  - cbn. done.
  - cbn. done.
Qed.

(** A generated identifier is a usable path component. *)
Lemma newVersionID_component now p : exists v,
  newVersionID now p = (p <| lf_counter := wrapU64 (lf_counter p + 1) |>, Ok v) /\ plainID v /\
  v <> "" /\ v <> "." /\ v <> "..".
Proof.
  destruct (newVersionID_plain now p) as (v & Hv & Hp). exists v. split; [done|]. split; [done|].
  unfold newVersionID in Hv. injection Hv as <-.
  assert (Hlen : (16 <= String.length (hexPad 16 (wrapU64 now)))%nat).
  { unfold hexPad. rewrite slength_app, zeros_length. lia. }
  split_and!; intros Heq%(f_equal String.length); rewrite !slength_app in Heq; cbn in Heq; lia.
Qed.

(** ** The invariant and the promises *)
Section laws.
Context (root : path).
Notation dir := (versionsDir root).
Notation fs := (fs doc).
Implicit Types (f : fs).

(** A valid key outside the staging directory. *)
Definition good (key : string) : Prop :=
  validateKey key = Ok tt /\ forall r, Split key "/"%char <> "_multipart" :: r.

Lemma dir_inj k k' : good k -> good k' -> dir k = dir k' -> k = k'.
Proof. intros [Hk _] [Hk' _]. rewrite !versionsDir_valid by done. intros Heq%app_inv_head. by eapply Split_inj. Qed.

(** The directories of good keys and what is in them are not staging paths. *)
Lemma good_not_staged key q r : good key -> dir key ++ q <> root ++ "_multipart" :: r.
Proof.
  intros [Hk Hm] Heq. rewrite versionsDir_valid, <- app_assoc in Heq by done. apply app_inv_head in Heq.
  destruct (Split key "/"%char) as [|s l] eqn:Hs; [by apply Split_nonempty in Hs|].
  injection Heq as -> _. by eapply Hm.
Qed.

Definition isJson (x : string) : Prop := HasSuffix x ".json" = true.

(** A version file [x] of [key] in [f], and the integrity of a version. *)
Definition version f (key x : string) (d : doc) : Prop :=
  isJson x /\ f !! (dir key ++ [x]) = Some (JFile d).

Definition sound f (key x : string) (sc : sidecar) : Prop :=
  exists vid, x = vid +:+ ".json" /\ plainID vid /\ sc_Key sc = key /\ sc_VersionID sc = vid /\
    (sc_IsDeleteMarker sc = false -> exists b, f !! (dir key ++ [vid +:+ ".bin"]) = Some (File b)
       /\ sc_ChecksumSHA256 sc = sha256_hex b /\ sc_SizeBytes sc = len b).

Definition inv (t : Time) (p : Provider) : Prop :=
  forall key x d, good key -> version (lf_fs p) key x d ->
    exists sc, d = DSidecar sc /\ sc_WriteTime sc <= t /\ sound (lf_fs p) key x sc /\
      forall x' d', version (lf_fs p) key x' d' -> sc_WriteTime (asSidecar d') = sc_WriteTime sc -> x' = x.

(** [b] is the body of the newest version of [key]. *)
Definition current f (key : string) (b : bytes) : Prop :=
  good key /\ f !! dir key = Some Dir /\ exists sc,
    version f key (sc_VersionID sc +:+ ".json") (DSidecar sc) /\ sc_IsDeleteMarker sc = false /\ sc_Key sc = key /\
    plainID (sc_VersionID sc) /\ f !! (dir key ++ [sc_VersionID sc +:+ ".bin"]) = Some (File b) /\
    sc_ChecksumSHA256 sc = sha256_hex b /\ sc_SizeBytes sc = len b /\
    forall x' d', version f key x' d' -> x' <> sc_VersionID sc +:+ ".json" ->
      sc_WriteTime (asSidecar d') < sc_WriteTime sc.

Definition stored_in (p : Provider) (key : string) (b : bytes) : Prop := current (lf_fs p) key b.

Definition staged_in (p : Provider) (u : MultipartUpload) (m : gmap Z bytes) : Prop :=
  good (mu_Key u) /\ plainID (mu_UploadID u) /\ mu_UploadID u <> "" /\ mu_UploadID u <> "." /\
  mu_UploadID u <> ".." /\
  forall n b, m !! n = Some b -> 1 <= n /\
    lf_fs p !! (multipartDir root (mu_Key u) (mu_UploadID u) ++ [partName n]) = Some (File b).

(** *** Changes that touch no version *)
Record calm f f' : Prop := {
  calm_dir : forall key, good key -> f !! dir key = Some Dir -> f' !! dir key = Some Dir;
  calm_version : forall key x d, good key -> version f' key x d <-> version f key x d;
  calm_body : forall key vid d b, good key -> version f key (vid +:+ ".json") d ->
    f !! (dir key ++ [vid +:+ ".bin"]) = Some (File b) -> f' !! (dir key ++ [vid +:+ ".bin"]) = Some (File b)
}.

Lemma calm_refl f : calm f f.
Proof. by split. Qed.

Lemma calm_trans f1 f2 f3 : calm f1 f2 -> calm f2 f3 -> calm f1 f3.
Proof.
  intros [H1 H2 H3] [H4 H5 H6]. split.
  - intros. by apply H4, H1.
  - intros. by rewrite H5, H2.
  - intros key vid d b Hg Hv Hb. eapply H6; [done|by apply H2|]. by eapply H3.
Qed.

Lemma calm_inv t p p' : calm (lf_fs p) (lf_fs p') -> inv t p -> inv t p'.
Proof.
  intros Hc Hi key x d Hg Hv. pose proof (proj1 (calm_version _ _ Hc _ _ _ Hg) Hv) as Hv0.
  destruct (Hi key x d Hg Hv0) as (sc & -> & Ht & (vid & -> & Hp & Hk & Hid & Hb) & Hu).
  exists sc. split; [done|]. split; [done|]. split.
  - exists vid. split; [done|]. split; [done|]. split; [done|]. split; [done|]. intros Hdm.
    destruct (Hb Hdm) as (b & Hbin & ? & ?). exists b. split; [|done]. by eapply (calm_body _ _ Hc).
  - intros x' d' Hv'. apply Hu. by apply (calm_version _ _ Hc).
Qed.

Lemma calm_current f f' key b : calm f f' -> current f key b -> current f' key b.
Proof.
  intros Hc (Hg & Hd & sc & Hv & Hdm & Hk & Hp & Hb & Hsum & Hsz & Hmax).
  split; [done|]. split; [by apply (calm_dir _ _ Hc)|]. exists sc.
  split; [by apply (calm_version _ _ Hc)|]. do 3 (split; [done|]).
  split; [by eapply (calm_body _ _ Hc)|]. do 2 (split; [done|]).
  intros x' d' Hv'. apply Hmax. by apply (calm_version _ _ Hc).
Qed.

(** Directories, staged files and removals below the staging directory. *)
Lemma calm_mkdirAll f f' q : mkdirAll f q = Ok f' -> calm f f'.
Proof.
  intros [_ Hl]%mkdirAll_spec. split.
  - intros key _ Hd. by apply (proj1 (Hl _)).
  - intros key x d _. unfold version. split; intros [Hj Hv]; (split; [done|]).
    + destruct (Hl (dir key ++ [x])) as [_ [Heq|[_ Heq]]]; congruence.
    + by apply (proj1 (Hl _)).
  - intros key vid d b _ _ Hb. by apply (proj1 (Hl _)).
Qed.

Lemma calm_staged_change f f' :
  (forall q, (forall r, q <> root ++ "_multipart" :: r) -> f' !! q = f !! q) -> calm f f'.
Proof.
  intros Hq. assert (Heq : forall key q, good key -> f' !! (dir key ++ q) = f !! (dir key ++ q)).
  { intros key q Hg. apply Hq. intros r. by apply good_not_staged. }
  split.
  - intros key Hg Hd. specialize (Heq key [] Hg). rewrite app_nil_r in Heq. by rewrite Heq.
  - intros key x d Hg. unfold version. by rewrite Heq.
  - intros key vid d b Hg _. by rewrite Heq.
Qed.

Lemma staging_path key uid q : good key -> plainID uid -> uid <> "" -> uid <> "." -> uid <> ".." ->
  exists r, multipartDir root key uid ++ q = root ++ "_multipart" :: r.
Proof.
  intros [Hk _] H1 H2 H3 H4. rewrite multipartDir_valid by done. rewrite <- app_assoc. by eexists.
Qed.

Lemma calm_removeAll f key uid : good key -> plainID uid -> uid <> "" -> uid <> "." -> uid <> ".." ->
  calm f (removeAll f (multipartDir root key uid)).
Proof.
  intros Hg H1 H2 H3 H4. apply calm_staged_change. intros q Hq. rewrite lookup_removeAll.
  destruct (under _ q) eqn:Hu; [|done]. unfold under in Hu. apply bool_decide_eq_true in Hu.
  destruct (staging_path key uid (drop (length (multipartDir root key uid)) q) Hg H1 H2 H3 H4) as [r Hr].
  exfalso. apply (Hq r). rewrite <- Hr. rewrite <- Hu at 1. by rewrite take_drop.
Qed.

(** *** Publishing *)

(** The sidecar file fails to be written below a directory that has just
    taken the body only if a directory is in its place. *)
Lemma json_blocked f d b j n e :
  isDir f d = true -> isDir f (d ++ [b]) = false -> b <> j ->
  (writeNode (<[d ++ [b] := File n]> f) (d ++ [j]) e = Err (ErrNew "is a directory") /\
     isDir (<[d ++ [b] := File n]> f) (d ++ [j]) = true) \/
  exists f2, writeNode (<[d ++ [b] := File n]> f) (d ++ [j]) e = Ok f2.
Proof.
  intros Hd Hb Hne. unfold writeNode. rewrite removelast_last.
  replace (isDir (<[d ++ [b] := File n]> f) d) with true; cbn [negb].
  - destruct (isDir _ (d ++ [j])) eqn:Hj; [by left|right; eauto].
  - symmetry. unfold isDir in *. destruct d as [|s l]; [done|].
    rewrite lookup_insert_ne; [done|].
    intros Heq%(f_equal length). rewrite length_app in Heq. cbn in Heq. lia.
Qed.

Lemma bin_not_json v : ~ isJson (v +:+ ".bin").
Proof.
  unfold isJson, HasSuffix. intros [_ Heq%String.eqb_eq]%andb_true_iff. revert Heq.
  generalize (String.length (v +:+ ".bin") - String.length ".json")%nat as n.
  intros n. revert n. induction v as [|c v IH]; intros n Heq.
  - by do 5 (destruct n as [|n]; [done|cbn in Heq]).
  - destruct n as [|n]; [|by apply (IH n)]. clear IH.
    pose proof (f_equal String.length Heq) as Hl. cbn [sdrop] in Hl. rewrite slength_app in Hl.
    destruct v as [|c2 v]; [by destruct c as [[] [] [] [] [] [] [] []]|cbn in Hl; lia].
Qed.

Definition jsonPath (key vid : string) : path := dir key ++ [vid +:+ ".json"].
Definition binPath (key vid : string) : path := dir key ++ [vid +:+ ".bin"].

Lemma child_inj key key' x x' : good key -> good key' -> dir key ++ [x] = dir key' ++ [x'] -> key = key' /\ x = x'.
Proof. intros Hg Hg' [Hd [= Hx]]%app_inj_2; [|done]. split; [by apply dir_inj|done]. Qed.

(** What the end of a write does to the file system. *)
Lemma publish_cases key vid data ct spec now p p' res : plainID vid ->
  publish root key vid data ct spec now p = (p', res) ->
  match res with
  | Ok r => isDir (lf_fs p) (binPath key vid) = false /\ isDir (lf_fs p) (jsonPath key vid) = false /\
      lf_fs p' = <[jsonPath key vid := JFile (DSidecar (newSidecar key vid data ct spec now))]>
                   (<[binPath key vid := File data]> (lf_fs p)) /\
      pr_Size r = len data /\ pr_ChecksumSHA256 r = sha256_hex data
  | Err _ => lf_fs p' = lf_fs p \/
      (isDir (lf_fs p) (binPath key vid) = false /\ lf_fs p !! jsonPath key vid = Some Dir /\
       lf_fs p' = delete (binPath key vid) (lf_fs p))
  end.
Proof.
  intros Hv. unfold publish, writeSidecar, fsDo, binPath, jsonPath. unroll. unfold wrap at 1.
  rewrite versionBodyPath_plain, versionMetaPath_plain by done.
  destruct (writeNode (lf_fs p) (dir key ++ [vid +:+ ".bin"]) (File data)) as [f1|e1] eqn:Hw1;
    [|intros [= <- <-]; by left].
  apply writeNode_Ok in Hw1 as (Hpar & Hnd & ->). rewrite removelast_last in Hpar.
  cbv beta iota zeta. unfold wrap. cbn [lf_fs upd eta_expand eta_Provider].
  assert (Hne : dir key ++ [vid +:+ ".json"] <> dir key ++ [vid +:+ ".bin"]).
  { intros [_ [= Heq]]%app_inj_2; [|done]. symmetry in Heq. by apply bin_json_ne in Heq. }
  fold (newSidecar key vid data ct spec now).
  destruct (json_blocked (lf_fs p) (dir key) (vid +:+ ".bin") (vid +:+ ".json") data
              (JFile (DSidecar (newSidecar key vid data ct spec now))) Hpar Hnd ltac:(apply bin_json_ne))
    as [[Hw Hd]|[f2 Hw]].
  - rewrite Hw. cbn [lf_fs upd eta_expand eta_Provider]. intros H.
    assert (Hr : remove (<[dir key ++ [vid +:+ ".bin"] := File data]> (lf_fs p)) (dir key ++ [vid +:+ ".bin"])
                 = Ok (delete (dir key ++ [vid +:+ ".bin"]) (lf_fs p))).
    { unfold remove. rewrite (stat_lookup _ _ (File data)); [by rewrite delete_insert_eq|by intros [_ ?]%app_nil|].
      by rewrite lookup_insert_eq. }
    rewrite Hr in H. injection H as <- <-. right. split; [done|]. split; [|done].

    apply isDir_lookup in Hd; [|by intros [_ ?]%app_nil]. by rewrite lookup_insert_ne in Hd.
  - rewrite Hw. intros [= <- <-]. apply writeNode_Ok in Hw as (_ & Hj & ->). split; [done|]. split; [|done].
    revert Hj. unfold isDir. destruct (dir key ++ [vid +:+ ".json"]) eqn:Hd; [done|]. by rewrite lookup_insert_ne.
Qed.

Lemma publish_Err_calm key vid data ct spec now p p' e : good key -> plainID vid ->
  publish root key vid data ct spec now p = (p', Err e) -> calm (lf_fs p) (lf_fs p').
Proof.
  intros Hg Hv [->|(Hb & Hj & ->)]%publish_cases; [apply calm_refl| |done].
  assert (Hnb : forall q, lf_fs p !! q = Some Dir -> q <> [] -> q <> binPath key vid).
  { intros q Hq Hn ->. unfold isDir in Hb. destruct (binPath key vid); [done|]. by rewrite Hq in Hb. }
  split.
  - intros k Hk Hd. rewrite lookup_delete_ne; [done|]. intros Heq. symmetry in Heq. revert Heq.
    apply Hnb; [done|]. apply versionsDir_nonnil, Hk.
  - intros k x d Hk. unfold version. split; intros [Hx Hl]; (split; [done|]).
    + by apply lookup_delete_Some in Hl as [_ ?].
    + rewrite lookup_delete_ne; [done|]. intros [<- <-]%child_inj; [|done|done]. by apply bin_not_json in Hx.
  - intros k vid' d b Hk [_ Hver] Hl. rewrite lookup_delete_ne; [done|].
    intros [<- <-%sapp_inj_r]%child_inj; [|done|done]. unfold jsonPath in Hj. congruence.
Qed.

(** The versions after a successful write. *)
Lemma publish_version f f' key vid data sc key' x d : good key -> good key' ->
  f' = <[jsonPath key vid := JFile (DSidecar sc)]> (<[binPath key vid := File data]> f) ->
  version f' key' x d <->
  (key' = key /\ x = vid +:+ ".json" /\ d = DSidecar sc) \/
  (~ (key' = key /\ x = vid +:+ ".json") /\ version f key' x d).
Proof.
  intros Hg Hg' ->. unfold version. rewrite lookup_insert_Some. split.
  - intros [Hx [[Heq [= <-]]|[Hne Hl]]].
    + apply child_inj in Heq as [-> ->]; [|done|done]. by left.
    + apply lookup_insert_Some in Hl as [[_ ?]|[_ Hl]]; [done|]. right. split; [|done].
      intros [-> ->]. by apply Hne.
  - intros [(-> & -> & ->)|(Hne & Hx & Hl)].
    + split; [apply HasSuffix_app|]. by left.
    + split; [done|]. right. split; [intros [<- <-]%child_inj; [|done|done]; by apply Hne|].
      rewrite lookup_insert_ne; [done|]. intros [<- <-]%child_inj; [|done|done]. by apply bin_not_json in Hx.
Qed.

Lemma publish_Ok_laws t key vid data ct spec now p p' r : inv t p -> t < now -> good key -> plainID vid ->
  lf_fs p !! dir key = Some Dir ->
  publish root key vid data ct spec now p = (p', Ok r) ->
  inv now p' /\ current (lf_fs p') key data /\
  (forall k b, k <> key -> current (lf_fs p) k b -> current (lf_fs p') k b) /\
  pr_Size r = len data /\ pr_ChecksumSHA256 r = sha256_hex data.
Proof.
  intros Hi Ht Hg Hv Hd (Hb & Hj & Hf & Hsz & Hsum)%publish_cases; [|done].
  set (sc := newSidecar key vid data ct spec now) in *.
  pose proof (fun k x d Hk => publish_version (lf_fs p) (lf_fs p') key vid data sc k x d Hg Hk Hf) as Hver.
  assert (Hdir : forall k, good k -> lf_fs p !! dir k = Some Dir -> lf_fs p' !! dir k = Some Dir).
  { intros k Hk Hkd. pose proof (versionsDir_nonnil root k (proj1 Hk)) as Hnn.
    rewrite Hf, !lookup_insert_ne; [done|..]; intros Heq; unfold isDir in *; rewrite Heq in *;
      destruct (dir k); try done; by rewrite Hkd in *. }
  assert (Hbin : lf_fs p' !! binPath key vid = Some (File data)).
  { rewrite Hf, lookup_insert_ne, lookup_insert_eq; [done|]. unfold jsonPath, binPath.
    intros [_ Heq]%child_inj; [|done|done]. symmetry in Heq. by apply bin_json_ne in Heq. }
  assert (Hbins : forall k vid' b, good k -> ~ (k = key /\ vid' = vid) ->
            lf_fs p !! binPath k vid' = Some (File b) -> lf_fs p' !! binPath k vid' = Some (File b)).
  { intros k vid' b Hk Hne Hl. rewrite Hf, !lookup_insert_ne; [done|..].
    - intros [<- <-%sapp_inj_r]%child_inj; [|done|done]. by apply Hne.
    - unfold jsonPath, binPath. intros [<- Heq]%child_inj; [|done|done]. apply (bin_not_json vid').
      unfold isJson. rewrite <- Heq. apply HasSuffix_app. }
  split; [|split; [|split; [|done]]].
  - intros k x d Hk Hvk. apply Hver in Hvk as [(-> & -> & ->)|(Hne & Hvk)]; [| |done].
    + exists sc. split; [done|]. split; [cbn; lia|]. split.
      * exists vid. do 4 (split; [done|]). intros _. by exists data.
      * intros x' d' Hv' Htm. apply Hver in Hv' as [(_ & -> & _)|(_ & Hv')]; [done| |done].
        destruct (Hi _ _ _ Hg Hv') as (sc' & -> & Hle & _). cbn in Htm. lia.
    + destruct (Hi _ _ _ Hk Hvk) as (sc' & -> & Hle & (vid' & -> & Hp & Hkk & Hid & Hbd) & Hu).
      exists sc'. split; [done|]. split; [lia|]. split.
      * exists vid'. do 4 (split; [done|]). intros Hdm. destruct (Hbd Hdm) as (b & Hl & ? & ?). exists b.
        split; [|done]. apply (Hbins k vid' b); [done| |done]. intros [-> ->]. by apply Hne.
      * intros x' d' Hv' Htm. apply Hver in Hv' as [(-> & -> & ->)|(_ & Hv')]; [| |done].
        -- cbn in Htm. lia.
        -- by eapply Hu.
  - split; [done|]. split; [by apply Hdir|]. exists sc. cbn [sc newSidecar sc_VersionID sc_IsDeleteMarker sc_Key sc_ChecksumSHA256 sc_SizeBytes sc_WriteTime].
    split; [apply Hver; [done|by left]|]. do 3 (split; [done|]). split; [done|]. do 2 (split; [done|]).
    intros x' d' Hv' Hne. apply Hver in Hv' as [(_ & -> & _)|(_ & Hv')]; [done| |done].
    destruct (Hi _ _ _ Hg Hv') as (sc' & -> & Hle & _). cbn. lia.
  - intros k b Hne (Hk & Hkd & sc' & Hvk & Hdm & Hkk & Hp & Hl & Hs1 & Hs2 & Hmax).
    split; [done|]. split; [by apply Hdir|]. exists sc'.
    split; [apply Hver; [done|]; right; split; [by intros [? _]|done]|]. do 3 (split; [done|]).
    split; [apply (Hbins k); [done|by intros [? _]|done]|]. do 2 (split; [done|]).
    intros x' d' Hv' Hx'. apply Hver in Hv' as [(-> & _)|(_ & Hv')]; [done| |done]. by apply (Hmax x' d').
Qed.

(** *** Reading *)
Lemma current_stored p key b : current (lf_fs p) key b -> local_stored root p key b.
Proof.
  intros (Hg & Hd & sc & [Hj Hv] & Hdm & Hk & Hp & Hb & Hsum & Hsz & Hmax). split; [apply Hg|].
  pose proof (versionsDir_nonnil root key (proj1 Hg)) as Hnn.
  exists (byWriteTime (loadEntries (lf_fs p) (dir key) (children (lf_fs p) (dir key)))), sc.
  unfold listVersionsLocked, readDir. rewrite (stat_lookup _ _ Dir Hnn Hd). split; [done|]. split.
  - unfold latestVersion, byWriteTime. apply (sort_Slice_last sc_WriteTime).
    + unfold loadEntries. apply list_elem_of_omap. exists (sc_VersionID sc +:+ ".json", JFile (DSidecar sc)).
      split; [by apply elem_of_children|]. cbn [fst]. rewrite Hj. unfold loadSidecar, readJ.
      by rewrite (stat_lookup _ _ (JFile (DSidecar sc))); [|intros [_ ?]%app_nil|].
    + intros y ([name n] & Hin & Hy)%list_elem_of_omap. cbn [fst] in Hy.
      destruct (HasSuffix name ".json") eqn:Hs; [|done]. apply elem_of_children in Hin.
      unfold loadSidecar, readJ in Hy. rewrite (stat_lookup _ _ n) in Hy; [|by intros [_ ?]%app_nil|done].
      destruct n as [| |d]; try done. injection Hy as <-.
      destruct (decide (name = sc_VersionID sc +:+ ".json")) as [->|Hne].
      { left. rewrite Hv in Hin. by injection Hin as <-. }
      right. by apply (Hmax name d).
  - do 3 (split; [done|]). rewrite Hk, versionBodyPath_plain by done. unfold openFile.
    by rewrite (stat_lookup _ _ (File b)); [|intros [_ ?]%app_nil|].
Qed.

Lemma max_entry {A} (k : A -> Z) (l : list A) : l <> [] -> exists x, x ∈ l /\ forall y, y ∈ l -> k y <= k x.
Proof.
  induction l as [|a l IH]; [done|]. intros _. destruct l as [|b l].
  { exists a. split; [set_solver|]. intros y ->%list_elem_of_singleton. lia. }
  destruct IH as (x & Hx & Hmax); [done|]. destruct (Z.le_gt_cases (k a) (k x)).
  - exists x. split; [set_solver|]. intros y [->|Hy]%elem_of_cons; [done|by apply Hmax].
  - exists a. split; [set_solver|]. intros y [->|Hy]%elem_of_cons; [lia|]. specialize (Hmax y Hy). lia.
Qed.

(** The newest listed version is the only one of its time. *)
Lemma latest_current t p key vs sc :
  inv t p -> good key -> listVersionsLocked root (lf_fs p) key = Ok vs -> latestVersion vs = Some sc ->
  sc_IsDeleteMarker sc = false ->
  exists b, current (lf_fs p) key b /\ sc_SizeBytes sc = len b /\ sc_ChecksumSHA256 sc = sha256_hex b.
Proof.
  intros Hi Hg Hl Hlast Hdm. pose proof (versionsDir_nonnil root key (proj1 Hg)) as Hnn.
  unfold listVersionsLocked, readDir in Hl. unfold latestVersion in Hlast.
  destruct (stat (lf_fs p) (dir key)) as [[| |]|e] eqn:Hst; [|done..|].
  2: { destruct (errors_Is e OsNotExist); [|done]. by injection Hl as <-. }
  assert (Hd : lf_fs p !! dir key = Some Dir).
  { unfold stat in Hst. destruct (dir key); [done|]. destruct (lf_fs p !! _); [by injection Hst as ->|done]. }
  injection Hl as <-. set (l := loadEntries (lf_fs p) (dir key) (children (lf_fs p) (dir key))) in *.
  assert (Hel : forall y, y ∈ l -> exists x d, version (lf_fs p) key x d /\ y = asSidecar d).
  { intros y ([name n] & Hin & Hy)%list_elem_of_omap. cbn [fst] in Hy.
    destruct (HasSuffix name ".json") eqn:Hs; [|done]. apply elem_of_children in Hin.
    unfold loadSidecar, readJ in Hy. rewrite (stat_lookup _ _ n) in Hy; [|by intros [_ ?]%app_nil|done].
    destruct n as [| |d]; try done. injection Hy as <-. by exists name, d. }
  assert (Hin : forall x d, version (lf_fs p) key x d -> asSidecar d ∈ l).
  { intros x d [Hj Hv]. apply list_elem_of_omap. exists (x, JFile d). split; [by apply elem_of_children|].
    cbn [fst]. rewrite Hj. unfold loadSidecar, readJ.
    by rewrite (stat_lookup _ _ (JFile d)); [|intros [_ ?]%app_nil|]. }
  assert (Hne : l <> []) by (intros ->; done).
  destruct (max_entry sc_WriteTime l Hne) as (m & Hm & Hmax).
  destruct (Hel m Hm) as (x & d & Hv & ->).
  destruct (Hi key x d Hg Hv) as (sc' & -> & _ & (vid & -> & Hp & Hk & Hid & Hb) & Hu). cbn [asSidecar] in *.
  assert (Hstrict : forall x' d', version (lf_fs p) key x' d' -> x' <> vid +:+ ".json" ->
            sc_WriteTime (asSidecar d') < sc_WriteTime sc').
  { intros x' d' Hv' Hx'. pose proof (Hmax _ (Hin _ _ Hv')).
    destruct (Z.eq_dec (sc_WriteTime (asSidecar d')) (sc_WriteTime sc')) as [Heq|]; [|lia].
    exfalso. apply Hx'. by eapply Hu. }
  assert (Hlm : last (byWriteTime l) = Some sc').
  { apply (sort_Slice_last sc_WriteTime); [done|]. intros y (x' & d' & Hv' & ->)%Hel.
    destruct (decide (x' = vid +:+ ".json")) as [->|Hx']; [|right; by apply (Hstrict x')].
    left. destruct Hv as [_ Hv], Hv' as [_ Hv']. rewrite Hv in Hv'. by injection Hv' as <-. }
  assert (sc = sc') as -> by congruence. destruct (Hb Hdm) as (b & Hbin & Hs & Hz). exists b. split; [|done].
  split; [done|]. split; [done|]. exists sc'. rewrite Hid. repeat (split; [done|]). done.
Qed.

(** *** The methods *)
Lemma inv_mono t t' p : t <= t' -> inv t p -> inv t' p.
Proof.
  intros Ht Hi key x d Hg Hv. destruct (Hi key x d Hg Hv) as (sc & ? & ? & ? & ?).
  exists sc. split; [done|]. split; [lia|done].
Qed.

(** The outcomes of a write: nothing published, or a version of [key] with
    body [data] on top of a calm state. *)
Definition wrote (now : Time) (key : string) (P : bytes -> Prop) (p p' : Provider) (res : result PutResult) : Prop :=
  (exists e, res = Err e /\ calm (lf_fs p) (lf_fs p')) \/
  (exists p1 vid data ct spec, calm (lf_fs p) (lf_fs p1) /\ lf_fs p1 !! dir key = Some Dir /\
     plainID vid /\ P data /\ publish root key vid data ct spec now p1 = (p', res)).

Lemma wrote_laws t now key P p p' res : inv t p -> t < now -> good key -> wrote now key P p p' res ->
  inv now p' /\ (forall k b, k <> key -> current (lf_fs p) k b -> current (lf_fs p') k b) /\
  (forall r, res = Ok r -> exists b, P b /\ current (lf_fs p') key b /\ pr_Size r = len b
     /\ pr_ChecksumSHA256 r = sha256_hex b).
Proof.
  intros Hi Ht Hg [(e & -> & Hc)|(p1 & vid & data & ct & spec & Hc & Hd & Hv & HP & Hpub)].
  - split; [eapply inv_mono; [|by eapply calm_inv]; lia|]. split; [|done]. intros k b _. by apply calm_current.
  - pose proof (calm_inv t _ _ Hc Hi) as Hi1. destruct res as [r|e].
    + destruct (publish_Ok_laws _ _ _ _ _ _ _ _ _ _ Hi1 Ht Hg Hv Hd Hpub) as (? & ? & Ho & ? & ?).
      split; [done|]. split; [intros k b Hk Hcur; apply Ho; [done|]; by apply (calm_current (lf_fs p))|].
      intros r' [= <-]. by exists data.
    + assert (Hc2 : calm (lf_fs p) (lf_fs p')) by (eapply calm_trans; [done|by eapply publish_Err_calm]).
      split; [eapply inv_mono; [|by eapply calm_inv]; lia|]. split; [|done]. intros k b _. by apply calm_current.
Qed.

Lemma Put_wrote now req p p' res : good (pq_Key req) -> Put root now req p = (p', res) ->
  wrote now (pq_Key req) (fun data => forall b, pq_Body req = Some (bytes_NewReader b) -> data = b) p p' res.
Proof.
  intros Hg. unfold Put. unroll. rewrite (proj1 Hg).
  assert (Herr : forall p1 e, calm (lf_fs p) (lf_fs p1) -> (p1, Err e) = (p', res) ->
            wrote now (pq_Key req) (fun data => forall b, pq_Body req = Some (bytes_NewReader b) -> data = b) p p' res)
    by (intros p1 e Hc [= <- <-]; left; by exists e).
  destruct (pq_Body req) as [body|]; [|apply Herr, calm_refl].
  destruct (pq_IfNoneMatch req && _); [apply Herr, calm_refl|]. unfold wrap, fsDo. cbv beta.
  destruct (mkdirAll (lf_fs _) _) as [f1|e1] eqn:Hm; [|apply Herr, calm_refl].
  pose proof (calm_mkdirAll _ _ _ Hm) as Hc. pose proof (proj1 (mkdirAll_spec _ _ _ Hm)) as Hd.
  apply isDir_lookup in Hd; [|apply versionsDir_nonnil, Hg].
  destruct (newVersionID_plain now (p <| lf_fs := f1 |>)) as (v & Hv & Hpl). rewrite Hv.
  destruct (ReadAll body) as [d|e] eqn:Hr; [|by apply Herr].
  destruct (_ && _); [by apply Herr|]. destruct (_ && _); [by apply Herr|].
  intros Hpub. right. eexists _, v, d, _, _. split; [|split; [|split; [done|split; [|exact Hpub]]]]; [exact Hc|exact Hd|].
  intros b [= ->]. by injection Hr.
Qed.

(** Methods that only read the provider. *)
Definition readonly {S A} (m : M S A) : Prop := forall s, (m s).1 = s.
Lemma readonly_bind {S A B} (m : M S A) (k : A -> M S B) :
  readonly m -> (forall a, readonly (k a)) -> readonly (m ≫= k).
Proof.
  intros Hm Hk s. specialize (Hm s). unfold mbind, M_bind, bind. destruct (m s) as [s1 [a|e]]; cbn in Hm; subst s1; [|done].
  apply Hk.
Qed.
Lemma readonly_if {S A} (b : bool) (m n : M S A) : readonly m -> readonly n -> readonly (if b then m else n).
Proof. by destruct b. Qed.

Lemma Head_same now ref p p' res : Head root now ref p = (p', res) -> p' = p.
Proof.
  intros H. change p' with (p', res).1. rewrite <- H. revert p H.
  enough (Hr : readonly (Head root now ref)) by (intros p _; apply Hr). unfold Head.
  apply readonly_bind; [by intros s|intros _]. apply readonly_bind; [by intros s|intros vs].
  destruct (latestVersion vs); [|by intros ?]. apply readonly_bind; [by apply readonly_if|by intros _ ?].
Qed.

Lemma Get_same now req p p' res : Get root now req p = (p', res) -> p' = p.
Proof.
  intros H. change p' with (p', res).1. rewrite <- H. revert p H.
  enough (Hr : readonly (Get root now req)) by (intros p _; apply Hr). unfold Get.
  apply readonly_bind; [by intros s|intros _]. apply readonly_bind; [|intros sc].
  - apply readonly_if; [by intros s|]. apply readonly_bind; [by intros s|intros vs].
    destruct (latestVersion vs); [|by intros ?]. apply readonly_bind; [by apply readonly_if|by intros _ ?].
  - apply readonly_bind; [by intros s|intros data].
    destruct (gq_Range req); [apply readonly_bind; [by intros ?|by intros ? ?]|by intros ?].
Qed.

Lemma Head_found t now k p p' md : inv t p -> good k -> Head root now (mkObjectRef k) p = (p', Ok md) ->
  exists b, current (lf_fs p) k b /\ om_Size md = len b /\ om_ChecksumSHA256 md = sha256_hex b.
Proof.
  intros Hi Hg. unfold Head, fsGet. cbn [or_Key]. unroll. rewrite (proj1 Hg).
  destruct (listVersionsLocked _ _ _) as [vs|] eqn:Hl; [|done].
  destruct (latestVersion vs) as [sc|] eqn:Hlast; [|done].
  destruct (sc_IsDeleteMarker sc) eqn:Hdm; [done|]. intros [= _ <-].
  by eapply latest_current.
Qed.

(** Writes below the staging directory of an open upload. *)
Lemma calm_staged_write f f' key uid x n : good key -> plainID uid -> uid <> "" -> uid <> "." -> uid <> ".." ->
  writeNode f (multipartDir root key uid ++ [x]) n = Ok f' -> calm f f'.
Proof.
  intros Hg H1 H2 H3 H4 (_ & _ & ->)%writeNode_Ok. apply calm_staged_change. intros q Hq.
  rewrite lookup_insert_ne; [done|].
  destruct (staging_path key uid [x] Hg H1 H2 H3 H4) as [r Hr]. intros <-. by apply (Hq r).
Qed.

Lemma CreateMultipart_laws now req p p' res : good (mq_Key req) ->
  CreateMultipart root now req p = (p', res) ->
  calm (lf_fs p) (lf_fs p') /\ forall u, res = Ok u -> mu_Key u = mq_Key req /\ staged_in p' u ∅.
Proof.
  intros Hg. unfold CreateMultipart, fsDo. unroll. rewrite (proj1 Hg).
  destruct (newVersionID_component now p) as (v & Hv & Hp & H1 & H2 & H3). rewrite Hv. unfold wrap. cbv beta.
  cbn [lf_fs upd eta_expand eta_Provider].
  destruct (mkdirAll (lf_fs _) _) as [f1|e1] eqn:Hm; [|intros [= <- <-]; split; [apply calm_refl|done]].
  pose proof (calm_mkdirAll _ _ _ Hm) as Hc.
  replace (joinPath (multipartDir root (mq_Key req) v) "upload.json")
    with (multipartDir root (mq_Key req) v ++ ["upload.json"]) by (symmetry; by apply joinPath_plain).
  cbn [lf_fs upd eta_expand eta_Provider].
  destruct (writeNode f1 _ _) as [f2|e2] eqn:Hw; intros [= <- <-].
  - split; [eapply calm_trans; [exact Hc|by eapply calm_staged_write]|].
    intros u [= <-]. split; [done|]. do 5 (split; [done|]). intros n b Hn. done.
  - split; [|done]. eapply calm_trans; [exact Hc|]. by apply calm_removeAll.
Qed.

Lemma UploadPart_laws now u n b m p p' res : staged_in p u m ->
  UploadPart root now (mkUploadPartRequest u n (Some (bytes_NewReader b))) p = (p', res) ->
  calm (lf_fs p) (lf_fs p') /\
  match res with
  | Ok part => staged_in p' u (<[n := b]> m) /\ up_PartNumber part = n
  | Err _ => staged_in p' u m
  end.
Proof.
  intros (Hg & Hp & H1 & H2 & H3 & Hm). unfold UploadPart, fsDo, fsGet.
  cbn [uq_Upload uq_PartNumber uq_Body bytes_NewReader rd_bytes rd_err]. unroll. rewrite (proj1 Hg).
  assert (Hst : staged_in p u m) by done.
  destruct (Z.ltb_spec n 1) as [Hn|Hn]; [intros [= <- <-]; split; [apply calm_refl|done]|].
  destruct (negb _); [intros [= <- <-]; split; [apply calm_refl|done]|]. unfold wrap. cbv beta.
  rewrite partName_plain by done.
  destruct (writeNode (lf_fs p) _ _) as [f1|e1] eqn:Hw; intros [= <- <-]; [|split; [apply calm_refl|done]].
  split; [by eapply calm_staged_write|]. split; [|done]. do 5 (split; [done|]).
  apply writeNode_Ok in Hw as (_ & _ & ->). cbn [lf_fs upd eta_expand eta_Provider].
  intros k d [[<- <-]|[Hne Hk]]%lookup_insert_Some; [split; [done|]; by rewrite lookup_insert_eq|].
  destruct (Hm k d Hk) as [Hk1 Hl]. split; [done|]. rewrite lookup_insert_ne; [done|].
  intros [_ Heq]%app_inj_2; [|done]. apply Hne, partName_inj; [done|done|congruence].
Qed.

Lemma staged_empty p p' u m : staged_in p u m -> staged_in p' u ∅.
Proof. intros (? & ? & ? & ? & ? & _). do 5 (split; [done|]). intros n b Hn. done. Qed.

Lemma CompleteMultipart_laws t now u parts spec m p p' res : inv t p -> t < now -> staged_in p u m ->
  CompleteMultipart root now (mkCompleteRequest u parts spec) p = (p', res) ->
  inv now p' /\ (forall k b, k <> mu_Key u -> current (lf_fs p) k b -> current (lf_fs p') k b) /\
  match res with
  | Ok r => forall datas, Forall2 (fun part d => m !! cp_PartNumber part = Some d) parts datas ->
      current (lf_fs p') (mu_Key u) (concat datas) /\ pr_Size r = len (concat datas)
      /\ pr_ChecksumSHA256 r = sha256_hex (concat datas)
  | Err _ => exists m', staged_in p' u m'
  end.
Proof.
  intros Hi Ht (Hg & Hp & H1 & H2 & H3 & Hm) H.
  assert (Hst : staged_in p u m) by done.
  assert (Hor : (exists e, res = Err e /\ wrote now (mu_Key u) (fun _ => True) p p' res) \/
    exists p2 r, res = Ok r /\ p' = p2 <| lf_fs := removeAll (lf_fs p2) (multipartDir root (mu_Key u) (mu_UploadID u)) |> /\
      wrote now (mu_Key u) (fun data => forall datas,
        Forall2 (fun part d => m !! cp_PartNumber part = Some d) parts datas -> data = concat datas) p p2 (Ok r)).
  { revert H. unfold CompleteMultipart, fsGet, fsDo. cbn [cq_Upload cq_Parts cq_Retention]. unroll.
    rewrite (proj1 Hg).
    assert (Herr : forall p1 e, calm (lf_fs p) (lf_fs p1) -> (p1, Err e) = (p', res) ->
      exists e, res = Err e /\ wrote now (mu_Key u) (fun _ => True) p p' res)
      by (intros p1 e Hc [= <- <-]; exists e; split; [done|]; left; by exists e).
    destruct (readJ _ _) as [dd|]; [|intros H; left; revert H; apply Herr, calm_refl]. unfold wrap.
    destruct (mkdirAll (lf_fs _) _) as [f1|e1] eqn:Hmk; [|intros H; left; revert H; apply Herr, calm_refl].
    pose proof (calm_mkdirAll _ _ _ Hmk) as Hc. pose proof (proj1 (mkdirAll_spec _ _ _ Hmk)) as Hd.
    apply isDir_lookup in Hd; [|apply versionsDir_nonnil, Hg].
    destruct (newVersionID_plain now (p <| lf_fs := f1 |>)) as (v & Hv & Hpl). rewrite Hv.
    cbn [lf_fs upd eta_expand eta_Provider].
    destruct (readParts _ _ _) as [data|e2] eqn:Hrd; [|intros H; left; revert H; by apply Herr].
    destruct (negb _ && _); [intros H; left; revert H; by apply Herr|].
    destruct (publish _ _ _ _ _ _ _ _) as [p2 [r|e]] eqn:Hpub; intros [= <- <-].
    - right. exists p2, r. split; [done|]. split; [done|]. right.
      eexists _, v, data, _, _. split; [|split; [|split; [done|split; [|exact Hpub]]]]; [exact Hc|exact Hd|].
      intros datas Hf. erewrite readParts_Ok in Hrd; [by injection Hrd as <-|].
      eapply Forall2_impl; [exact Hf|]. intros part d Hpart. cbn beta in Hpart.
      destruct (Hm _ _ Hpart) as [Hn Hl]. rewrite partName_plain by done. unfold openFile.
      rewrite (stat_lookup _ _ (File d)); [done|by intros [_ ?]%app_nil|].
      by apply (proj1 (proj2 (mkdirAll_spec _ _ _ Hmk) _)).
    - left. exists e. split; [done|]. right.
      eexists _, v, data, _, _. split; [|split; [|split; [done|split; [|exact Hpub]]]]; [exact Hc|exact Hd|done]. }
  destruct Hor as [(e & -> & Hw)|(p2 & r & -> & -> & Hw)];
    destruct (wrote_laws _ _ _ _ _ _ _ Hi Ht Hg Hw) as (Hi' & Ho & Hr).
  - split; [done|]. split; [done|]. exists ∅. by eapply staged_empty.
  - destruct (Hr r eq_refl) as (b & Hb & Hcur & Hsz & Hsum).
    assert (Hc : calm (lf_fs p2) (removeAll (lf_fs p2) (multipartDir root (mu_Key u) (mu_UploadID u))))
      by by apply calm_removeAll.
    split; [by eapply calm_inv|]. split; [intros k b' Hk Hcb; eapply calm_current; [exact Hc|by apply Ho]|].
    intros datas Hf. rewrite (Hb datas Hf) in *. split; [by eapply calm_current|done].
Qed.

Lemma AbortMultipart_calm u m p p' res : staged_in p u m -> AbortMultipart root u p = (p', res) ->
  calm (lf_fs p) (lf_fs p').
Proof.
  intros (Hg & Hp & H1 & H2 & H3 & _). unfold AbortMultipart, fsDo. unroll. rewrite (proj1 Hg).
  intros [= <- _]. by apply calm_removeAll.
Qed.
End laws.

(** The provider discharges the laws of the interface. *)
Program Definition Local_StoreLaws (root : path) : @StoreLaws Provider (Local_Store root) :=
  @Build_StoreLaws Provider (Local_Store root) good (inv root) (stored_in root) (staged_in root)
    _ _ _ _ _ _ _ _ _.
Next Obligation. intros. by eapply inv_mono. Qed.
Next Obligation.
  intros root t now req s s' res Hi Ht Hg H.
  destruct (wrote_laws _ _ _ _ _ _ _ _ Hi Ht Hg (Put_wrote _ _ _ _ _ _ Hg H)) as (Hi' & Ho & Hr).
  split; [done|]. split; [done|]. intros r b Hres Hb. destruct (Hr r Hres) as (b' & Hb' & ? & ? & ?).
  rewrite (Hb' b Hb) in *. cbn. unfold putReads. by rewrite Hb.
Qed.
Next Obligation. intros root t now req s s' res Hi H. apply (Get_same root now) in H as ->. by split. Qed.
Next Obligation.
  intros root t now s k b Hi Hst. destruct (Get_stored root now s k b (current_stored _ _ _ _ Hst)) as (md & ? & ? & ?).
  by exists s, md.
Qed.
Next Obligation.
  intros root t now s s' k res Hi Hg H. pose proof (Head_same root now _ _ _ _ H) as ->. split; [done|]. split; [done|].
  intros md ->. destruct (Head_found root t now _ _ _ _ Hi Hg H) as (b & ? & ? & ?). exists b. by auto.
Qed.
Next Obligation.
  intros root t now req s s' res Hi Hg H. destruct (CreateMultipart_laws _ _ _ _ _ _ Hg H) as [Hc Hu].
  split; [by eapply calm_inv|]. split; [intros k b; by apply calm_current|done].
Qed.
Next Obligation.
  intros root t now u n b m s s' res Hi Hst H. destruct (UploadPart_laws root now _ _ _ _ _ _ _ Hst H) as [Hc Hu].
  split; [by eapply calm_inv|]. split; [intros k b'; by apply calm_current|].
  destruct res; [done|]. by exists m.
Qed.
Next Obligation.
  intros root t now u parts spec m s s' res Hi Ht Hst H. exact (CompleteMultipart_laws root t now u parts spec m s s' res Hi Ht Hst H).
Qed.
Next Obligation.
  intros root t u m s s' res Hi Hst H. pose proof (AbortMultipart_calm _ _ _ _ _ _ Hst H) as Hc.
  split; [by eapply calm_inv|]. intros k b. by apply calm_current.
Qed.

Lemma Local_head_sums (root : path) : @head_sums Provider (Local_Store root) (Local_StoreLaws root).
Proof.
  intros t now s s' k md Hi Hg H. destruct (Head_found root t now _ _ _ _ Hi Hg H) as (b & _ & _ & ->).
  apply sha256_hex_nonempty.
Qed.

(** ** Properties *)

(** A [Put], whatever its outcome, leaves every other object readable
    with the body it had, also when one key continues the other behind a
    slash. *)
Lemma Put_isolated root t now now' req p p' res key b :
  inv root t p -> t < now -> good (pq_Key req) -> key <> pq_Key req -> current root (lf_fs p) key b ->
  Put root now req p = (p', res) ->
  inv root now p' /\
  exists md, Get root now' (mkGetRequest (mkVersionedObjectRef key "") None) p' = (p', Ok (bytes_NewReader b, md))
    /\ om_ChecksumSHA256 md = sha256_hex b /\ om_Size md = len b.
Proof.
  intros Hi Ht Hg Hne Hc Hp.
  destruct (wrote_laws _ _ _ _ _ _ _ _ Hi Ht Hg (Put_wrote _ _ _ _ _ _ Hg Hp)) as (Hi' & Ho & _).
  split; [done|]. apply Get_stored, current_stored. by apply Ho.
Qed.

(** ** Witnesses *)
Lemma good_a : good "a".
Proof. split; [reflexivity|]. intros r Hr. discriminate Hr. Qed.
Lemma good_ab : good "a/b".
Proof. split; [reflexivity|]. intros r Hr. discriminate Hr. Qed.

(** The empty provider. *)
Lemma ex_init_sound t : inv ex_root t ex_init.
Proof.
  intros key x d Hg [_ Hv]. cbn [ex_init lf_fs] in Hv. by apply lookup_singleton_Some in Hv as [_ Hv].
Qed.

Lemma ex_stored_ok : inv ex_root 10 ex_stored /\ current ex_root (lf_fs ex_stored) "a/b" [x01; x02].
Proof.
  assert (Hput : ex_put "a/b" 10 ex_init = (ex_stored, Ok ex_result)) by reflexivity.
  destruct (wrote_laws ex_root 5 10 "a/b" _ _ _ _ (ex_init_sound 5) ltac:(lia) good_ab
              (Put_wrote ex_root 10 (ex_req "a/b" [x01; x02]) _ _ _ good_ab Hput)) as (Hi & _ & Hr).
  split; [done|]. destruct (Hr ex_result eq_refl) as (b & Hb & Hc & _).
  by rewrite (Hb [x01; x02] eq_refl) in Hc.
Qed.

(** Putting "a" after "a/b": its files go to the parent directory. *)
Lemma Put_isolated_witness :
  exists md, Get ex_root 30 (mkGetRequest (mkVersionedObjectRef "a/b" "") None) (ex_put "a" 20 ex_stored).1
    = ((ex_put "a" 20 ex_stored).1, Ok (bytes_NewReader [x01; x02], md)).
Proof.
  destruct (Put_isolated ex_root 10 20 30 (ex_req "a" [x01; x02]) ex_stored (ex_put "a" 20 ex_stored).1
              (ex_put "a" 20 ex_stored).2 "a/b" [x01; x02]) as (_ & md & Hg & _).
  - apply ex_stored_ok.
  - lia.
  - exact good_a.
  - discriminate.
  - apply ex_stored_ok.
  - apply surjective_pairing.
  - exists md. exact Hg.
Defined.
