(* ===== verification/LocalDirs.v ===== *)
(** * Directories below a root

    What the local provider needs of the file system: a directory [d] below
    the root is there with all its ancestors ([through]), or nothing of it is
    and it can be made ([vacant]); a change of what lies under [d] may make
    its ancestors and touches nothing else ([outside]), so it cannot be seen
    from a directory that is neither above nor below ([apart]). *)
From S2P Require Import Prelude GoStd Fs.
Local Open Scope Z_scope.

Section fs.
Context {J : Type}.
Implicit Types (f : fs J).

Lemma child_ne (p : path) x : p <> p ++ [x].
Proof. intros Heq%(f_equal length). rewrite length_app in Heq. cbn in Heq. lia. Qed.

(** Every directory on the way to [p] is there. *)
Definition through f (p : path) : Prop := forall p1 x p2, p = p1 ++ x :: p2 -> f !! (p1 ++ [x]) = Some Dir.
(** A directory, or nothing. *)
Definition free f (q : path) : Prop := f !! q = None \/ f !! q = Some Dir.

Lemma through_nil f : through f []. Proof. by intros [|? ?] ? ? ?. Qed.
Lemma through_snoc f p x : through f p -> f !! (p ++ [x]) = Some Dir -> through f (p ++ [x]).
Proof.
  intros Hp Hx p1 y p2 Heq. destruct p2 as [|z p2 _] using rev_ind.
  - apply app_inj_tail in Heq as [-> ->]. done.
  - rewrite app_comm_cons, app_assoc in Heq. apply app_inj_tail in Heq as [Heq _]. by eapply Hp.
Qed.
Lemma through_prefix f p q : through f (p ++ q) -> through f p.
Proof. intros Hp p1 x p2 ->. apply (Hp p1 x (p2 ++ q)). by rewrite <- app_assoc. Qed.
Lemma through_at f p : through f p -> p <> [] -> f !! p = Some Dir.
Proof. intros Hp Hn. destruct p as [|x p _] using rev_ind; [done|]. by apply (Hp p x []). Qed.
(** [through] looks at the paths up to [p] only. *)
Lemma through_upto f f' p : (forall q r, p = q ++ r -> q <> [] -> f !! q = Some Dir -> f' !! q = Some Dir) -> through f p -> through f' p.
Proof.
  intros Hs Hp p1 x p2 Heq. apply (Hs _ p2); [by rewrite <- app_assoc|by destruct p1|by eapply Hp].
Qed.
Lemma through_weaken f f' p : (forall q, f !! q = Some Dir -> f' !! q = Some Dir) -> through f p -> through f' p.
Proof. intros Hf. apply through_upto. auto. Qed.
Lemma through_insert f p x q n : through f p -> through (<[p ++ x :: q := n]> f) p.
Proof.
  apply through_upto. intros q' r -> _ Hq. rewrite lookup_insert_ne; [done|]. intros Heq%(f_equal length).
  rewrite !length_app in Heq. cbn in Heq. lia.
Qed.
Lemma through_delete f p x q : through f p -> through (delete (p ++ x :: q) f) p.
Proof.
  apply through_upto. intros q' r -> _ Hq. rewrite lookup_delete_ne; [done|]. intros Heq%(f_equal length).
  rewrite !length_app in Heq. cbn in Heq. lia.
Qed.

Lemma through_isDir f p : through f p -> isDir f p = true.
Proof.
  intros Hp. destruct p as [|x p _] using rev_ind; [done|]. specialize (Hp p x [] eq_refl).
  unfold isDir. destruct (p ++ [x]) eqn:Hx; [done|]. by rewrite Hp.
Qed.
Lemma stat_through f p : through f p -> stat f p = Ok Dir.
Proof. intros Hp. unfold stat. destruct (decide (p = [])) as [->|Hn]; [done|]. rewrite (through_at f p) by done. by destruct p. Qed.

Lemma mkdirLoop_through f pre p q : (forall p1 x p2, p = p1 ++ x :: p2 -> f !! (pre ++ p1 ++ [x]) = Some Dir) ->
  mkdirLoop f pre (p ++ q) = mkdirLoop f (pre ++ p) q.
Proof.
  revert pre. induction p as [|x p IH]; intros pre Hp; [by rewrite app_nil_r|]. cbn [app mkdirLoop].
  pose proof (Hp [] x p eq_refl) as Hx. cbn [app] in Hx. rewrite Hx, IH.
  - by rewrite <- app_assoc.
  - intros p1 y p2 ->. rewrite <- app_assoc. by apply (Hp (x :: p1) y p2).
Qed.

Lemma stat_snoc f p x : stat f (p ++ [x]) = match f !! (p ++ [x]) with Some n => Ok n | None => Err (missing f (p ++ [x])) end.
Proof. unfold stat. by destruct (p ++ [x]) eqn:Hx; [destruct p|]. Qed.
Lemma stat_nonnil f p : p <> [] -> stat f p = match f !! p with Some n => Ok n | None => Err (missing f p) end.
Proof. by destruct p. Qed.
Lemma isDir_snoc f p x : isDir f (p ++ [x]) = match f !! (p ++ [x]) with Some Dir => true | _ => false end.
Proof. unfold isDir. by destruct (p ++ [x]) eqn:Hx; [destruct p|]. Qed.

(** A lookup below what is free fails with [os.ErrNotExist]. *)
Lemma blocked_free f pre p : (forall q r, p = q ++ r -> q <> [] -> r <> [] -> free f (pre ++ q)) -> blocked f pre p = false.
Proof.
  revert pre. induction p as [|x p IH]; intros pre Hp; [done|]. cbn [blocked]. destruct p as [|y p]; [done|].
  assert (Hx : blocked f (pre ++ [x]) (y :: p) = false).
  { apply IH. intros q r Heq Hq Hr. rewrite <- app_assoc. cbn [app]. apply (Hp (x :: q) r); [by rewrite Heq|done|done]. }
  destruct (Hp [x] (y :: p) eq_refl) as [Hn|Hn]; [done|done| |]; by rewrite Hn.
Qed.
Lemma missing_free f p : (forall q r, p = q ++ r -> q <> [] -> r <> [] -> free f q) -> missing f p = ErrSentinel OsNotExist.
Proof. intros Hp. unfold missing. by rewrite blocked_free. Qed.
Lemma missing_through f p x : through f p -> missing f (p ++ [x]) = ErrSentinel OsNotExist.
Proof.
  intros Hp. apply missing_free. intros q r Heq Hq Hr. destruct r as [|y r _] using rev_ind; [done|]. rewrite app_assoc in Heq.
  apply app_inj_tail in Heq as [-> _]. right. apply through_at; [by eapply through_prefix|done].
Qed.

Lemma writeNode_child f p x n : isDir f p = true -> f !! (p ++ [x]) <> Some Dir -> writeNode f (p ++ [x]) n = Ok (<[p ++ [x] := n]> f).
Proof.
  intros Hp Hx. unfold writeNode. rewrite removelast_last, Hp, isDir_snoc. cbn [negb].
  by destruct (f !! (p ++ [x])) as [[]|].
Qed.

Lemma NoDup_omap {A B} (g : A -> option B) (l : list A) :
  (forall x x' y, x ∈ l -> x' ∈ l -> g x = Some y -> g x' = Some y -> x = x') -> NoDup l -> NoDup (omap g l).
Proof.
  intros Hg. induction 1 as [|x l Hx _ IH]; [constructor|]. cbn.
  assert (Hl : NoDup (omap g l)) by (apply IH; intros z z' y Hz Hz'; apply Hg; by right).
  destruct (g x) as [y|] eqn:Hy; [|exact Hl]. constructor; [|exact Hl]. intros (x' & Hx' & Hy')%list_elem_of_omap.
  apply Hx. rewrite (Hg x x' y); [done|by left|by right|done|done].
Qed.
(** The entries of a directory, from what is known of its paths. *)
Lemma children_NoDup f p : NoDup (children f p).
Proof.
  unfold children. rewrite sort_Slice_perm. apply NoDup_omap; [|apply NoDup_map_to_list].
  intros [q n] [q' n'] [x m] _ _ H1 H2. cbn in H1, H2.
  destruct (childOf p q) as [y|] eqn:Hy; [|done]. destruct (childOf p q') as [y'|] eqn:Hy'; [|done].
  injection H1 as -> ->. injection H2 as -> ->. apply childOf_Some in Hy as ->. by apply childOf_Some in Hy' as ->.
Qed.
Lemma children_perm f p es : (forall x n, f !! (p ++ [x]) = Some n <-> (x, n) ∈ es) -> NoDup es -> children f p ≡ₚ es.
Proof.
  intros Hin Hes. apply NoDup_Permutation; [apply children_NoDup|done|].
  intros [x n]. by rewrite elem_of_children.
Qed.

Lemma lookup_under f p q : removeAll f p !! (p ++ q) = None.
Proof. rewrite lookup_removeAll. unfold under. by rewrite bool_decide_true by by rewrite take_app_length. Qed.
Lemma lookup_not_under f p q : (forall r, q <> p ++ r) -> removeAll f p !! q = f !! q.
Proof.
  intros Hq. rewrite lookup_removeAll. unfold under. rewrite bool_decide_false; [done|]. intros Ht.
  apply (Hq (drop (length p) q)). rewrite <- Ht at 1. by rewrite take_drop.
Qed.

(** ** Making directories *)
Fixpoint mkdirs (pre p : path) f : fs J :=
  match p with [] => f | x :: p' => mkdirs (pre ++ [x]) p' (<[pre ++ [x] := Dir]> f) end.
Lemma mkdirs_out pre p f q : (forall p1 r, p = p1 ++ r -> p1 <> [] -> q <> pre ++ p1) -> mkdirs pre p f !! q = f !! q.
Proof.
  revert pre f. induction p as [|x p IH]; intros pre f Hq; [done|]. cbn [mkdirs]. rewrite IH.
  - apply lookup_insert_ne. apply not_eq_sym. by apply (Hq [x] p).
  - intros p1 r -> Hp1. rewrite <- app_assoc. by apply (Hq (x :: p1) r).
Qed.
Lemma mkdirs_in pre p f p1 r : p = p1 ++ r -> p1 <> [] -> mkdirs pre p f !! (pre ++ p1) = Some Dir.
Proof.
  revert pre f p1. induction p as [|x p IH]; intros pre f p1 Heq Hp1; [by destruct p1|]. cbn [mkdirs].
  destruct p1 as [|y p1]; [done|]. injection Heq as <- Heq. destruct (decide (p1 = [])) as [->|Hn].
  - rewrite mkdirs_out; [apply lookup_insert_eq|]. intros p1 r' _ Hp Hx%(f_equal length). rewrite !length_app in Hx. destruct p1; [done|]. cbn in Hx. lia.
  - rewrite cons_middle, app_assoc. by apply IH.
Qed.
Lemma mkdirs_cases pre p f q : mkdirs pre p f !! q = f !! q \/
  mkdirs pre p f !! q = Some Dir /\ exists p1 r, p = p1 ++ r /\ p1 <> [] /\ q = pre ++ p1.
Proof.
  revert pre f. induction p as [|x p IH]; intros pre f; [by left|]. cbn [mkdirs].
  destruct (IH (pre ++ [x]) (<[pre ++ [x] := Dir]> f)) as [->|(Hd & p1 & r & -> & Hp & ->)].
  - destruct (decide (q = pre ++ [x])) as [->|Hn]; [right|left; by apply lookup_insert_ne]. split; [apply lookup_insert_eq|]. by exists [x], p.
  - right. split; [done|]. exists (x :: p1), r. by rewrite <- app_assoc.
Qed.
Lemma mkdirLoop_free f pre p : (forall q r, p = q ++ r -> q <> [] -> free f (pre ++ q)) -> mkdirLoop f pre p = Ok (mkdirs pre p f).
Proof.
  revert f pre. induction p as [|x p IH]; intros f pre Hp; [done|]. cbn [mkdirLoop mkdirs].
  assert (Hrec : mkdirLoop (<[pre ++ [x] := Dir]> f) (pre ++ [x]) p = Ok (mkdirs (pre ++ [x]) p (<[pre ++ [x] := Dir]> f))).
  { apply IH. intros q r -> Hq. unfold free. rewrite lookup_insert_ne.
    - rewrite <- app_assoc. by apply (Hp (x :: q) r).
    - intros Hx%(f_equal length). rewrite !length_app in Hx. destruct q; [done|]. cbn in Hx. lia. }
  destruct (Hp [x] p eq_refl) as [Hn|Hn]; [done| |]; rewrite Hn; [done|]. by rewrite insert_id in Hrec |- *.
Qed.
End fs.

(** ** A directory below the root *)
Section below.
Context {J : Type} (root : path).
Implicit Types (f : fs J) (d : path).

(** Neither is above the other. *)
Definition apart d d' : Prop := ~ d `prefix_of` d' /\ ~ d' `prefix_of` d.
Lemma apart_sym d d' : apart d d' -> apart d' d. Proof. by intros []. Qed.
Lemma apart_app e d d' : apart d d' -> apart (e ++ d) (e ++ d').
Proof. intros [H1 H2]. split; intros ?%prefix_app_inv; done. Qed.
Lemma apart_snoc d x y : x <> y -> apart (d ++ [x]) (d ++ [y]).
Proof. intros Hn. apply apart_app. split; intros [r Hr]; injection Hr as Hr; congruence. Qed.
Lemma apart_below d d' e e' : apart d d' -> apart (d ++ e) (d' ++ e').
Proof.
  assert (Hh : forall d d' e e', apart d d' -> ~ (d ++ e) `prefix_of` (d' ++ e')).
  { clear. intros d d' e e' [H1 H2] Hp. assert (Hd : d `prefix_of` (d' ++ e')) by (etrans; [by exists e|exact Hp]).
    destruct (prefix_weak_total d d' (d' ++ e')) as [?|?]; [done|by exists e'|done|done]. }
  intros Ha. split; [by apply Hh|by apply Hh, apart_sym].
Qed.
Lemma apart_ne d d' q q' : apart d d' -> root ++ d ++ q <> root ++ d' ++ q'.
Proof.
  intros Ha Heq%app_inv_head. destruct (apart_below d d' q q' Ha) as [Hp _]. apply Hp. by rewrite Heq.
Qed.

(** Nothing is there, and it can be made. *)
Definition vacant f d : Prop := (forall q, f !! (root ++ d ++ q) = None) /\
  forall p r, d = p ++ r -> p <> [] -> r <> [] -> free f (root ++ p).
(** A change of what lies under [d], which may make the directories above. *)
Definition outside d f f' : Prop := forall q, (forall r, q <> root ++ d ++ r) ->
  f' !! q = f !! q \/ f' !! q = Some Dir /\ exists p r, d = p ++ r /\ p <> [] /\ r <> [] /\ q = root ++ p.

Lemma outside_refl d f : outside d f f. Proof. intros q _. by left. Qed.
Lemma outside_trans d f1 f2 f3 : outside d f1 f2 -> outside d f2 f3 -> outside d f1 f3.
Proof. intros H1 H2 q Hq. destruct (H2 q Hq) as [->|?]; [by apply H1|by right]. Qed.
Lemma outside_insert d f r n : outside d f (<[root ++ d ++ r := n]> f).
Proof. intros q Hq. left. rewrite lookup_insert_ne; [done|]. intros <-. by eapply Hq. Qed.
Lemma outside_delete d f r : outside d f (delete (root ++ d ++ r) f).
Proof. intros q Hq. left. rewrite lookup_delete_ne; [done|]. intros <-. by eapply Hq. Qed.
Lemma outside_removeAll d f : outside d f (removeAll f (root ++ d)).
Proof. intros q Hq. left. apply lookup_not_under. intros r. rewrite <- app_assoc. apply Hq. Qed.
Lemma outside_weaken d e f f' : outside (d ++ e) f f' -> outside d f f'.
Proof.
  intros Ho q Hq. destruct (Ho q) as [?|(Hd & p & r & Heq & Hp & Hr & ->)].
  - intros r. rewrite <- app_assoc. apply Hq.
  - by left.
  - right. split; [done|]. destruct (prefix_weak_total p d (d ++ e)) as [[r' ->]|[r' ->]]; [by exists r|by exists e| |].
    + exists p, r'. split_and!; try done. intros ->. apply (Hq []). by rewrite !app_nil_r.
    + by destruct (Hq r').
Qed.
Lemma outside_root d f f' : outside d f f' -> d <> [] -> through f root -> through f' root.
Proof.
  intros Ho Hd. apply through_upto. intros q r Heq Hq Hf. destruct (Ho q) as [->|[? _]]; [|done|done].
  intros r' ->. apply (f_equal length) in Heq. rewrite !length_app in Heq. destruct d; [done|]. cbn in Heq. lia.
Qed.
(** What is apart sees nothing of the change. *)
Lemma outside_at d d' f f' q : apart d d' -> outside d f f' -> f' !! (root ++ d' ++ q) = f !! (root ++ d' ++ q).
Proof.
  intros Ha Ho. destruct (Ho (root ++ d' ++ q)) as [?|(_ & p & r & -> & _ & _ & Heq)]; [|done|].
  - intros r. by apply apart_ne, apart_sym.
  - apply app_inv_head in Heq as <-. destruct Ha as [_ Ha]. destruct Ha. exists (q ++ r). by rewrite app_assoc.
Qed.
Lemma outside_above d d' f f' p r : apart d d' -> outside d f f' -> d' = p ++ r ->
  f' !! (root ++ p) = f !! (root ++ p) \/ f' !! (root ++ p) = Some Dir.
Proof.
  intros [Ha _] Ho ->. destruct (Ho (root ++ p)) as [?|[? _]]; [|by left|by right].
  intros r' Heq%app_inv_head. apply Ha. exists (r' ++ r). by rewrite Heq, app_assoc.
Qed.
Lemma outside_through d d' f f' : d <> [] -> apart d d' -> outside d f f' -> through f (root ++ d') -> through f' (root ++ d').
Proof.
  intros Hd Ha Ho. apply through_upto. intros q r Heq Hq Hf.
  destruct (prefix_weak_total q root (root ++ d')) as [[r' Hr']|[p ->]]; [by exists r|by exists d'| |].
  - assert (Ht : through f' root -> f' !! q = Some Dir).
    { intros Ht. apply through_at; [|done]. rewrite Hr' in Ht. by eapply through_prefix. }
    destruct (Ho q) as [->|[? _]]; [|done|done]. intros r'' ->. apply (f_equal length) in Hr'. rewrite !length_app in Hr'. destruct d; [done|]. cbn in Hr'. lia.
  - rewrite <- app_assoc in Heq. apply app_inv_head in Heq. by destruct (outside_above d d' f f' p r Ha Ho Heq) as [-> | ->].
Qed.
Lemma outside_vacant d d' f f' : apart d d' -> outside d f f' -> vacant f d' -> vacant f' d'.
Proof.
  intros Ha Ho [Hn Hf]. split; [intros q; by rewrite (outside_at d d' f f')|]. intros p r Heq Hp Hr.
  destruct (outside_above d d' f f' p r Ha Ho Heq) as [Hs|Hs]; unfold free; rewrite Hs; [by eapply Hf|by right].
Qed.

(** The directory, made with what is above it. *)
Definition made f d : fs J := mkdirs root d f.
Lemma made_through f d : through f root -> through (made f d) (root ++ d).
Proof.
  intros Hr p1 x p2 Heq. unfold made.
  destruct (prefix_weak_total (p1 ++ [x]) root (root ++ d)) as [[r Hr']|[p Hp]]; [exists p2; by rewrite Heq, <- app_assoc|by exists d| |].
  - rewrite mkdirs_out; [apply (Hr p1 x r); by rewrite Hr', <- app_assoc|]. intros q r' _ Hq Hx. rewrite Hx in Hr'.
    apply (f_equal length) in Hr'. rewrite !length_app in Hr'. destruct q; [done|]. cbn in Hr'. lia.
  - rewrite Hp. destruct (decide (p = [])) as [->|Hn].
    + rewrite app_nil_r in Hp |- *. rewrite mkdirs_out.
      * apply through_at; [done|]. rewrite <- Hp. by destruct p1.
      * intros q r' _ Hq Hx%(f_equal length). rewrite length_app in Hx. destruct q; [done|]. cbn in Hx. lia.
    + apply (mkdirs_in _ _ _ _ p2); [|done]. rewrite cons_middle, app_assoc, Hp, <- app_assoc in Heq. by apply app_inv_head in Heq.
Qed.
Lemma made_below f d x q : made f d !! (root ++ d ++ x :: q) = f !! (root ++ d ++ x :: q).
Proof.
  apply mkdirs_out. intros p r -> Hp Heq%(f_equal length). rewrite !length_app in Heq. cbn in Heq. lia.
Qed.
Lemma outside_made f d : outside d f (made f d).
Proof.
  intros q Hq. destruct (mkdirs_cases root d f q) as [?|(Hd & p & r & -> & Hp & ->)]; [by left|right].
  split; [done|]. exists p, r. split_and!; try done. intros ->. apply (Hq []). by rewrite !app_nil_r.
Qed.
Lemma mkdirAll_made f d : through f root -> vacant f d \/ through f (root ++ d) -> mkdirAll f (root ++ d) = Ok (made f d).
Proof.
  intros Hr Hd. unfold mkdirAll. rewrite (mkdirLoop_through f []) by (intros p1 x p2; apply Hr). apply mkdirLoop_free.
  intros q r -> Hq. destruct Hd as [[Hn Hf]|Ht].
  - destruct (decide (r = [])) as [->|Hr']; [left|by apply (Hf q r)]. rewrite <- (app_nil_r (root ++ q)), <- app_assoc.
    rewrite app_assoc. rewrite app_nil_r in Hn. rewrite <- app_assoc. apply Hn.
  - right. apply through_at; [|by destruct root]. rewrite app_assoc in Ht. by eapply through_prefix.
Qed.

Lemma vacant_dir f d : vacant f d -> f !! (root ++ d) = None.
Proof. intros [Hn _]. specialize (Hn []). by rewrite app_nil_r in Hn. Qed.
Lemma vacant_missing f d q : through f root -> vacant f d -> missing f (root ++ d ++ q) = ErrSentinel OsNotExist.
Proof.
  intros Hr [Hn Hf]. apply missing_free. intros p r Heq Hp Hr'.
  destruct (prefix_weak_total p root (root ++ d ++ q)) as [[r' ->]|[p' ->]]; [by exists r|by exists (d ++ q)| |].
  - right. apply through_at; [by eapply through_prefix|done].
  - rewrite <- app_assoc in Heq. apply app_inv_head in Heq. destruct (prefix_weak_total p' d (d ++ q)) as [[r' ->]|[r' ->]]; [by exists r|by exists q| |].
    + destruct (decide (p' = [])) as [->|Hp'].
      { rewrite app_nil_r in *. right. by apply through_at. }
      destruct (decide (r' = [])) as [->|Hr2]; [|by apply (Hf p' r')]. left. specialize (Hn []). by rewrite !app_nil_r in Hn.
    + left. apply Hn.
Qed.
Lemma stat_vacant f d q : through f root -> d <> [] -> vacant f d -> stat f (root ++ d ++ q) = Err (ErrSentinel OsNotExist).
Proof.
  intros Hr Hd Hv. rewrite stat_nonnil by (destruct root; [by destruct d|done]). by rewrite (proj1 Hv), vacant_missing.
Qed.
Lemma vacant_removed f d : through f (root ++ d) -> vacant (removeAll f (root ++ d)) d.
Proof.
  intros Ht. split; [intros q; rewrite app_assoc; apply lookup_under|]. intros p r -> Hp Hr. right.
  rewrite lookup_not_under; [|intros r' Heq%(f_equal length); rewrite !length_app in Heq; destruct r; [done|cbn in Heq; lia]].
  apply through_at; [rewrite app_assoc in Ht; by eapply through_prefix|by destruct root].
Qed.
Lemma vacant_removed_vacant f d : vacant f d -> vacant (removeAll f (root ++ d)) d.
Proof.
  intros [Hn Hf]. split; [intros q; rewrite app_assoc; apply lookup_under|]. intros p r -> Hp Hr.
  unfold free. rewrite lookup_not_under; [by eapply Hf|]. intros r' Heq%(f_equal length). rewrite !length_app in Heq. destruct r; [done|cbn in Heq; lia].
Qed.
End below.
