(* ===== verification/LocalVersions.v ===== *)
(** * The versions of a key of the local provider

    What a key is to its clients: the list of its versions in the order they
    were written, each with its sidecar and, unless it is a delete marker, its
    body. The lemmas give every method of [LocalFsDev] on a key without a
    separator as an operation on that list, with its success. *)
From Stdlib Require Import Strings.Ascii.
From S2P Require Import Prelude GoStd Sha256 BlobStore Fs LocalFsDev LocalStore LocalDirs.
Local Open Scope Z_scope.

(** ** Version identifiers

    They begin with the time, so that versions written at different times have
    different ones. *)
Definition stamp (t c : Z) : string := hexPad 16 t +:+ "-" +:+ hexPad 8 c.

Fixpoint hexValue (v : Z) (s : string) : Z :=
  match s with
  | EmptyString => v
  | String c s => hexValue (v * 16 + Z.of_N (default 0%N (unhex_digit c))) s
  end.

Lemma unhex_hex n : (n < 16)%N -> unhex_digit (hex_digit n) = Some n.
Proof. intros Hn. destruct n as [|[[[[]|[]|]|[[]|[]|]|]|[[[]|[]|]|[[]|[]|]|]|]]; try reflexivity; lia. Qed.

Lemma hexValue_digits fuel z acc : 0 <= z < 16 ^ Z.of_nat fuel ->
  hexValue 0 (hexDigits fuel z acc) = hexValue z acc.
Proof.
  revert z acc. induction fuel as [|fuel IH]; intros z acc Hz; cbn [hexDigits].
  - change (16 ^ Z.of_nat 0) with 1 in Hz. by replace z with 0 by lia.
  - rewrite Nat2Z.inj_succ, Z.pow_succ_r in Hz by lia. pose proof (Z.mod_pos_bound z 16). pose proof (Z.div_mod z 16).
    assert (Hd : Z.of_N (default 0%N (unhex_digit (hex_digit (Z.to_N (z mod 16))))) = z mod 16).
    { rewrite unhex_hex by lia. cbn [default from_option id]. lia. }
    destruct (Z.ltb_spec z 16).
    + cbn [hexValue]. rewrite Hd, Z.mod_small by lia. reflexivity.
    + rewrite IH; [cbn [hexValue]; rewrite Hd; f_equal; lia|]. split; [by apply Z.div_pos; lia|]. apply Z.div_lt_upper_bound; lia.
Qed.

Lemma hexDigits_length fuel z acc : (String.length (hexDigits fuel z acc) <= fuel + String.length acc)%nat.
Proof.
  revert z acc. induction fuel as [|fuel IH]; intros z acc; cbn [hexDigits]; [lia|].
  destruct (z <? 16); [cbn; lia|]. etrans; [apply IH|]. cbn. lia.
Qed.

Lemma hexPad_length z : String.length (hexPad 16 z) = 16%nat.
Proof. unfold hexPad. rewrite slength_app, zeros_length. pose proof (hexDigits_length 16 z ""). cbn [String.length] in *. lia. Qed.

Lemma hexValue_zeros n s : hexValue 0 (zeros n +:+ s) = hexValue 0 s.
Proof. induction n as [|n IH]; [done|]. exact IH. Qed.

Lemma hexPad_value z : 0 <= z < 2 ^ 64 -> hexValue 0 (hexPad 16 z) = z.
Proof. intros Hz. unfold hexPad. rewrite hexValue_zeros, hexValue_digits by (change (16 ^ Z.of_nat 16) with (2 ^ 64); done). done. Qed.

Lemma sapp_split (a b c d : string) : String.length a = String.length b -> a +:+ c = b +:+ d -> a = b.
Proof.
  revert b. induction a as [|x a IH]; intros [|y b] Hl Heq; try done.
  injection Heq as -> Heq. injection Hl as Hl. by rewrite (IH _ Hl Heq).
Qed.

Lemma stamp_inj t t' c c' : 0 <= t < 2 ^ 64 -> 0 <= t' < 2 ^ 64 -> stamp t c = stamp t' c' -> t = t'.
Proof.
  intros Ht Ht' Heq. apply sapp_split in Heq; [|by rewrite !hexPad_length].
  by rewrite <- (hexPad_value t), <- (hexPad_value t'), Heq.
Qed.

Lemma newVersionID_stamp now p : 0 <= now < 2 ^ 63 -> exists c,
  newVersionID now p = (p <| lf_counter := wrapU64 (lf_counter p + 1) |>, Ok (stamp now c)) /\ plainID (stamp now c).
Proof.
  intros Hn. destruct (newVersionID_plain now p) as (v & Hv & Hp). unfold newVersionID in *. rewrite (wrapU64_small now) in Hv |- * by lia.
  injection Hv as <-. by eexists.
Qed.

(** ** Sets of keys

    Keys none of which is a path prefix of another, nor below the staging
    area: the provider keeps the versions of a key in the directory the key
    names, and purging a key takes everything below it. *)
Notation comps k := (Split k "/"%char).
Class Keys (K : string -> Prop) := {
  keys_valid : forall k, K k -> validateKey k = Ok tt;
  keys_free : forall k k', K k -> K k' -> comps k `prefix_of` comps k' -> k = k';
  keys_staging : forall k, K k -> head (comps k) <> Some "_multipart"
}.
Lemma keys_apart `{Keys K} k k' : K k -> K k' -> k <> k' -> apart (comps k) (comps k').
Proof. intros Hk Hk' Hn. split; intros Hp; [|apply not_eq_sym in Hn]; by apply Hn, keys_free. Qed.
Lemma keys_apart_staging `{Keys K} k d : K k -> apart (comps k) ("_multipart" :: d).
Proof.
  intros Hk. pose proof (keys_staging k Hk) as Hs. pose proof (Split_nonempty k "/"%char) as Hn.
  split; intros [r Hr]; destruct (comps k) as [|x l]; try done; injection Hr as Hx _; by subst x.
Qed.

(** A key of one component; the keys of [n] components. *)
Definition flat (k : string) : Prop := validateKey k = Ok tt /\ ContainsRune k "/"%char = false.
Lemma flat_key k : flat k -> "_multipart" <> k.
Proof. by intros [Hk _] <-. Qed.
#[export] Instance flat_Keys : Keys flat.
Proof.
  split.
  - by intros k [].
  - intros k k' [_ Hs] [_ Hs'] [r Hr]. rewrite !Split_noSep in Hr by done. by injection Hr as Hr _.
  - intros k Hk. pose proof Hk as [_ Hs]. rewrite Split_noSep by done. intros [= Hx]. by apply (flat_key k).
Qed.
Definition deep (n : nat) (k : string) : Prop :=
  validateKey k = Ok tt /\ head (comps k) <> Some "_multipart" /\ length (comps k) = n.
Lemma deep_Keys n : Keys (deep n).
Proof.
  split.
  - by intros k [].
  - intros k k' (_ & _ & Hl) (_ & _ & Hl') [r Hr]. pose proof (f_equal length Hr) as Hr'. rewrite length_app in Hr'.
    destruct r; [|cbn in Hr'; lia]. rewrite app_nil_r in Hr. by eapply Split_inj, eq_sym.
  - by intros k (_ & ? & _).
Qed.

(** ** The versions of a key *)
Section versions.
Context (root : path) {K : string -> Prop} `{!Keys K}.
Implicit Types (f : fs doc).

Notation kdir k := (root ++ comps k).

Lemma kdir_eq k : K k -> versionsDir root k = kdir k.
Proof. intros Hk. apply versionsDir_valid. by apply keys_valid. Qed.
Lemma kdir_nonnil k : kdir k <> [].
Proof. pose proof (Split_nonempty k "/"%char). by destruct root. Qed.

(** A version: its sidecar, and the body of what is not a delete marker. *)
Definition ver : Type := sidecar * option bytes.
Definition vid (v : ver) : string := sc_VersionID v.1.
Definition wtime (v : ver) : Z := sc_WriteTime v.1.
Definition filesOf (v : ver) : list (string * node doc) :=
  (vid v +:+ ".json", JFile (DSidecar v.1)) ::
  match v.2 with Some b => [(vid v +:+ ".bin", File b)] | None => [] end.

Record verOk (k : string) (v : ver) : Prop := {
  vo_key : sc_Key v.1 = k;
  vo_plain : plainID (vid v);
  vo_stamp : exists c, vid v = stamp (wtime v) c;
  vo_time : 0 <= wtime v < 2 ^ 63;
  vo_body : match v.2 with
    | Some b => sc_IsDeleteMarker v.1 = false /\ sc_ChecksumSHA256 v.1 = sha256_hex b /\ sc_SizeBytes v.1 = len b
    | None => sc_IsDeleteMarker v.1 = true end
}.

(** [vs]: the versions of [k], in the order of their write times. *)
Record holds f (k : string) (vs : list ver) : Prop := {
  ho_dir : through f (kdir k);
  ho_files : forall x n, f !! (kdir k ++ [x]) = Some n <-> (x, n) ∈ vs ≫= filesOf;
  ho_ok : Forall (verOk k) vs;
  ho_times : StronglySorted (fun a b => wtime a < wtime b) vs
}.
Definition versions f k vs : Prop := holds f k vs \/ vs = [] /\ vacant root f (comps k).

(** *** Names of files *)
Lemma json_inj a b : a +:+ ".json" = b +:+ ".json" -> a = b. Proof. apply sapp_inj_r. Qed.
Lemma bin_inj a b : a +:+ ".bin" = b +:+ ".bin" -> a = b. Proof. apply sapp_inj_r. Qed.
Lemma json_bin a b : a +:+ ".json" <> b +:+ ".bin".
Proof.
  intros Heq. apply (bin_not_json b). unfold isJson. rewrite <- Heq. apply HasSuffix_app.
Qed.

Lemma filesOf_names v w x n m : (x, n) ∈ filesOf v -> (x, m) ∈ filesOf w -> vid v = vid w.
Proof.
  unfold filesOf. intros Hv Hw.
  assert (Hx : forall v n, (x, n) ∈ (vid v +:+ ".json", JFile (DSidecar v.1)) :: match v.2 with Some b => [(vid v +:+ ".bin", @File doc b)] | None => [] end ->
    x = vid v +:+ ".json" \/ x = vid v +:+ ".bin").
  { clear. intros v n [Heq|Hin]%elem_of_cons; [injection Heq as -> _; by left|]. destruct v.2; [|by apply elem_of_nil in Hin].
    apply list_elem_of_singleton in Hin. injection Hin as -> _. by right. }
  destruct (Hx _ _ Hv) as [H1|H1], (Hx _ _ Hw) as [H2|H2]; rewrite H1 in H2.
  - by apply json_inj.
  - by apply json_bin in H2.
  - symmetry in H2. by apply json_bin in H2.
  - by apply bin_inj.
Qed.

Lemma filesOf_NoDup v : NoDup (filesOf v).
Proof.
  unfold filesOf. destruct v.2; [|repeat constructor; by intros ?%elem_of_nil].
  constructor; [|repeat constructor; by intros ?%elem_of_nil].
  intros Hin%list_elem_of_singleton. injection Hin as Heq _. by apply json_bin in Heq.
Qed.

Lemma vid_time k v w : verOk k v -> verOk k w -> vid v = vid w -> wtime v = wtime w.
Proof.
  intros [_ _ [c Hc] Ht _] [_ _ [c' Hc'] Ht' _] Heq. rewrite Hc, Hc' in Heq. apply stamp_inj in Heq; [done|lia|lia].
Qed.

Lemma files_NoDup k vs : Forall (verOk k) vs -> StronglySorted (fun a b => wtime a < wtime b) vs -> NoDup (vs ≫= filesOf).
Proof.
  intros Hok Hs. induction Hs as [|v vs Hs IH Hv]; [constructor|]. apply Forall_cons in Hok as [Hvo Hok].
  change (NoDup (filesOf v ++ (vs ≫= filesOf))). apply NoDup_app.
  split; [apply filesOf_NoDup|]. split; [|by apply IH]. intros [x n] Hx (w & Hxw & Hw)%list_elem_of_bind.
  rewrite Forall_forall in Hv, Hok. specialize (Hv w Hw). pose proof (filesOf_names _ _ _ _ _ Hx Hxw) as Heq.
  pose proof (vid_time k v w Hvo (Hok w Hw) Heq). lia.
Qed.

(** *** Reading *)
Lemma loadSidecar_file f k x sc : f !! (kdir k ++ [x]) = Some (JFile (DSidecar sc)) -> loadSidecar f (kdir k ++ [x]) = Ok sc.
Proof. intros Hf. unfold loadSidecar, readJ. by rewrite stat_snoc, Hf. Qed.

Lemma ver_json f k vs v : holds f k vs -> v ∈ vs -> f !! (kdir k ++ [vid v +:+ ".json"]) = Some (JFile (DSidecar v.1)).
Proof. intros Hh Hv. apply (ho_files _ _ _ Hh). apply list_elem_of_bind. exists v. split; [|done]. apply elem_of_cons. by left. Qed.
Lemma ver_bin f k vs v b : holds f k vs -> v ∈ vs -> v.2 = Some b -> f !! (kdir k ++ [vid v +:+ ".bin"]) = Some (File b).
Proof.
  intros Hh Hv Hb. apply (ho_files _ _ _ Hh). apply list_elem_of_bind. exists v. split; [|done]. unfold filesOf. rewrite Hb. set_solver.
Qed.

Lemma holds_children f k vs : holds f k vs -> children f (kdir k) ≡ₚ vs ≫= filesOf.
Proof.
  intros Hh. apply children_perm; [apply (ho_files _ _ _ Hh)|]. eapply files_NoDup; [apply (ho_ok _ _ _ Hh)|apply (ho_times _ _ _ Hh)].
Qed.

Lemma bin_suffix a : HasSuffix (a +:+ ".bin") ".json" = false.
Proof. destruct (HasSuffix (a +:+ ".bin") ".json") eqn:Hs; [by apply bin_not_json in Hs|done]. Qed.

Lemma loadEntries_files f k vs : (forall v, v ∈ vs -> f !! (kdir k ++ [vid v +:+ ".json"]) = Some (JFile (DSidecar v.1))) ->
  loadEntries f (kdir k) (vs ≫= filesOf) = map fst vs.
Proof.
  intros Hf. induction vs as [|v vs IH]; [done|]. change ((v :: vs) ≫= filesOf) with (filesOf v ++ (vs ≫= filesOf)).
  unfold loadEntries in *. rewrite omap_app, IH by (intros w Hw; apply Hf; set_solver). cbn [map]. unfold filesOf. cbn [omap list_omap fst].
  rewrite HasSuffix_app, (loadSidecar_file _ _ _ _ (Hf v ltac:(set_solver))). destruct v.2; cbn [omap list_omap fst].
  - by rewrite bin_suffix.
  - done.
Qed.

Lemma StronglySorted_map {A B} (g : A -> B) (R : B -> B -> Prop) l :
  StronglySorted (fun a b => R (g a) (g b)) l -> StronglySorted R (map g l).
Proof. induction 1 as [|x l _ IH Hx]; cbn; constructor; [done|]. by apply Forall_map. Qed.

Lemma strictly_inj {A} (key : A -> Z) l x y : StronglySorted (fun a b => key a < key b) l -> x ∈ l -> y ∈ l -> key x = key y -> x = y.
Proof.
  induction 1 as [|z l _ IH Hz]; [by intros ?%elem_of_nil|]. rewrite Forall_forall in Hz.
  intros [->|Hx]%elem_of_cons [->|Hy]%elem_of_cons Heq; [done| | |by apply IH].
  - specialize (Hz _ Hy). lia.
  - specialize (Hz _ Hx). lia.
Qed.

Lemma byWriteTime_id l vs : l ≡ₚ map fst vs -> StronglySorted (fun a b : ver => wtime a < wtime b) vs -> byWriteTime l = map fst vs.
Proof.
  intros Hl Hs. unfold byWriteTime.
  assert (Hs' : StronglySorted (fun a b => sc_WriteTime a < sc_WriteTime b) (map fst vs)) by (by apply StronglySorted_map).
  apply (StronglySorted_unique_strong (fun a b => sc_WriteTime a <= sc_WriteTime b)).
  - intros x y. rewrite sort_Slice_perm, Hl. intros Hx Hy H1 H2. apply (strictly_inj sc_WriteTime (map fst vs)); [done..|lia].
  - apply sort_Slice_sorted.
  - clear Hl. induction Hs' as [|x l' Hs'' IH Hx]; constructor; [done|]. eapply Forall_impl; [exact Hx|]. cbn. intros. lia.
  - by rewrite sort_Slice_perm.
Qed.

#[export] Instance loadEntries_perm f d : Proper ((≡ₚ) ==> (≡ₚ)) (loadEntries f d).
Proof. intros l l' Hl. unfold loadEntries. by rewrite Hl. Qed.

Lemma stat_kdir f k : through f root -> vacant root f (comps k) -> stat f (kdir k) = Err (ErrSentinel OsNotExist).
Proof.
  intros Hr Hv. pose proof (stat_vacant root f (comps k) [] Hr (Split_nonempty k _) Hv) as Hs. by rewrite app_nil_r in Hs.
Qed.

(** [listVersionsLocked] and [hasAnyVersionLocked]. *)
Lemma listVersions_versions f k vs : through f root -> K k -> versions f k vs -> listVersionsLocked root f k = Ok (map fst vs).
Proof.
  intros Hr Hk Hv. unfold listVersionsLocked, readDir. rewrite kdir_eq by done. destruct Hv as [Hv|[-> Hv]].
  - rewrite (stat_through _ _ (ho_dir _ _ _ Hv)). f_equal. apply byWriteTime_id; [|apply (ho_times _ _ _ Hv)].
    rewrite (holds_children _ _ _ Hv), loadEntries_files; [done|]. intros v Hin. by eapply ver_json.
  - by rewrite stat_kdir.
Qed.

Lemma hasAny_versions f k vs : through f root -> K k -> versions f k vs ->
  hasAnyVersionLocked root f k = match vs with [] => false | _ => true end.
Proof.
  intros Hr Hk Hv. unfold hasAnyVersionLocked, readDir. rewrite kdir_eq by done. destruct Hv as [Hv|[-> Hv]].
  - rewrite (stat_through _ _ (ho_dir _ _ _ Hv)). pose proof (holds_children _ _ _ Hv) as Hc. destruct vs as [|v vs].
    + cbn in Hc. by apply Permutation_nil_r in Hc as ->.
    + apply existsb_exists. exists (vid v +:+ ".json", JFile (DSidecar v.1)). split; [|apply HasSuffix_app].
      apply list_elem_of_In. rewrite Hc. by left.
  - by rewrite stat_kdir.
Qed.

Lemma ver_ok f k vs v : holds f k vs -> v ∈ vs -> verOk k v.
Proof. intros Hh Hv. pose proof (ho_ok _ _ _ Hh) as H. rewrite Forall_forall in H. by apply H. Qed.

(** A version by its identifier. *)
Lemma readSidecar_version f k vs v : K k -> holds f k vs -> v ∈ vs -> readSidecar root k (vid v) f = Ok v.1.
Proof.
  intros Hk Hh Hv. pose proof (ver_ok _ _ _ _ Hh Hv) as Hvo.
  unfold readSidecar. rewrite versionMetaPath_plain, kdir_eq by (done || apply (vo_plain _ _ Hvo)).
  by rewrite (loadSidecar_file _ _ _ _ (ver_json _ _ _ _ Hh Hv)).
Qed.
Lemma openFile_version f k vs v b : K k -> holds f k vs -> v ∈ vs -> v.2 = Some b -> openFile f (versionBodyPath root k (vid v)) = Ok b.
Proof.
  intros Hk Hh Hv Hb. pose proof (ver_ok _ _ _ _ Hh Hv) as Hvo.
  rewrite versionBodyPath_plain, kdir_eq by (done || apply (vo_plain _ _ Hvo)). unfold openFile.
  by rewrite stat_snoc, (ver_bin _ _ _ _ _ Hh Hv Hb).
Qed.

(** *** Writing *)

Lemma outside_versions d k' f f' vs : d <> [] -> apart d (comps k') -> outside root d f f' -> versions f k' vs -> versions f' k' vs.
Proof.
  intros Hd Ha Ho. assert (Hk : forall q, f' !! (kdir k' ++ q) = f !! (kdir k' ++ q)).
  { intros q. rewrite <- app_assoc. by apply (outside_at root d). }
  intros [Hh|[-> Hu]]; [left|right; split; [done|by eapply outside_vacant]].
  destruct Hh as [Ht Hf Hok Hs]. split; [by eapply outside_through| |done|done].
  intros x n. by rewrite <- Hf, Hk.
Qed.

Lemma made_file f k x : made root f (comps k) !! (kdir k ++ [x]) = f !! (kdir k ++ [x]).
Proof. rewrite <- app_assoc. apply made_below. Qed.
Lemma open_dir f k vs : through f root -> versions f k vs -> holds (made root f (comps k)) k vs.
Proof.
  intros Hr [Hh|[-> Hu]].
  - destruct Hh as [Ht Hf Hok Hs]. split; [by apply made_through| |done|done]. intros x n. by rewrite made_file.
  - split; [by apply made_through| |constructor|constructor]. intros x n. rewrite made_file, <- app_assoc, (proj1 Hu).
    cbn. split; [done|by intros ?%elem_of_nil].
Qed.

Lemma mkdir_versions f k vs : through f root -> K k -> versions f k vs ->
  mkdirAll f (versionsDir root k) = Ok (made root f (comps k)).
Proof.
  intros Hr Hk Hv. rewrite kdir_eq by done. apply mkdirAll_made; [done|].
  destruct Hv as [Hv|[_ Hv]]; [right; apply (ho_dir _ _ _ Hv)|by left].
Qed.
Lemma isDir_holds f k vs : holds f k vs -> isDir f (kdir k) = true.
Proof. intros Hh. apply through_isDir, (ho_dir _ _ _ Hh). Qed.

Lemma new_file f k vs v x n : holds f k vs -> verOk k v -> Forall (fun w => wtime w < wtime v) vs -> (x, n) ∈ filesOf v ->
  f !! (kdir k ++ [x]) = None.
Proof.
  intros Hh Hv Ht Hx. destruct (f !! (kdir k ++ [x])) as [m|] eqn:Hf; [|done]. exfalso.
  apply (ho_files _ _ _ Hh) in Hf. apply list_elem_of_bind in Hf as (w & Hxw & Hw).
  pose proof (ho_ok _ _ _ Hh) as Hok. rewrite Forall_forall in Ht, Hok. specialize (Ht w Hw).
  pose proof (vid_time k v w Hv (Hok w Hw) (filesOf_names _ _ _ _ _ Hx Hxw)). lia.
Qed.

Lemma StronglySorted_snoc {A} (R : A -> A -> Prop) l x : StronglySorted R l -> Forall (fun y => R y x) l -> StronglySorted R (l ++ [x]).
Proof.
  induction 1 as [|y l _ IH Hy]; intros Hx; cbn; [repeat constructor|]. apply Forall_cons in Hx as [Hyx Hx].
  constructor; [by apply IH|]. apply Forall_app. split; [done|by constructor].
Qed.

Lemma holds_snoc f f' k vs v : holds f k vs -> verOk k v -> Forall (fun w => wtime w < wtime v) vs ->
  through f' (kdir k) -> (forall x n, f' !! (kdir k ++ [x]) = Some n <-> (x, n) ∈ filesOf v \/ f !! (kdir k ++ [x]) = Some n) ->
  holds f' k (vs ++ [v]).
Proof.
  intros [Hd Hf Hok Ht] Hv Hlt Hd' Hf'. split; [done| | |].
  - intros x n. rewrite Hf', Hf. rewrite bind_app. rewrite elem_of_app. cbn. rewrite app_nil_r. tauto.
  - apply Forall_app. split; [done|by constructor].
  - by apply StronglySorted_snoc.
Qed.

Lemma publish_versions p k vs c b ct spec now : K k -> holds (lf_fs p) k vs -> Forall (fun w => wtime w < now) vs ->
  0 <= now < 2 ^ 63 -> plainID (stamp now c) ->
  let v := (newSidecar k (stamp now c) b ct spec now, Some b) in
  exists p', publish root k (stamp now c) b ct spec now p = (p', Ok (mkPutResult k (stamp now c) VersioningEnabled (newRetention spec)
      now (len b) (sha256_hex b) (computeWriteResultHash k (stamp now c) VersioningEnabled (len b) (sha256_hex b)))) /\
    holds (lf_fs p') k (vs ++ [v]) /\ outside root (comps k) (lf_fs p) (lf_fs p').
Proof.
  intros Hk Hh Hlt Hn Hpl v.
  assert (Hv : verOk k v) by (split; [done|done|by exists c|done|done]).
  assert (Hj : lf_fs p !! (kdir k ++ [stamp now c +:+ ".json"]) = None).
  { eapply (new_file _ _ _ v); [done..|]. apply elem_of_cons. by left. }
  assert (Hb : lf_fs p !! (kdir k ++ [stamp now c +:+ ".bin"]) = None).
  { eapply (new_file _ _ _ v _ (File b)); [done..|]. unfold filesOf. cbn. set_solver. }
  assert (Hjb : kdir k ++ [stamp now c +:+ ".json"] <> kdir k ++ [stamp now c +:+ ".bin"]).
  { intros Heq%app_inv_head. injection Heq as Heq. by apply json_bin in Heq. }
  pose proof (ho_dir _ _ _ Hh) as Hd.
  eexists. split; [|split].
  - unfold publish. rewrite versionBodyPath_plain, versionMetaPath_plain, kdir_eq by done. unfold writeSidecar. unroll. unfold fsDo, wrap.
    rewrite writeNode_child; [|by eapply isDir_holds|by rewrite Hb]. cbv beta iota. cbn [lf_fs upd eta_expand eta_Provider].
    rewrite writeNode_child; [reflexivity| |].
    + by apply through_isDir, through_insert.
    + rewrite lookup_insert_ne by done. by rewrite Hj.
  - cbn [lf_fs upd eta_expand eta_Provider]. apply (holds_snoc _ _ _ _ _ Hh Hv); [done| |].
    + by apply through_insert, through_insert.
    + intros x n. unfold filesOf. cbn [fst snd v vid newSidecar sc_VersionID]. rewrite elem_of_cons, list_elem_of_singleton.
      destruct (decide (x = stamp now c +:+ ".json")) as [->|Hx].
      { rewrite lookup_insert_eq, Hj. split; [intros [= <-]; by left; left|]. intros [[[= ->]|[= Heq _]]|?]; [done| |done].
        by apply json_bin in Heq. }
      rewrite lookup_insert_ne by (intros Heq%app_inv_head; congruence).
      destruct (decide (x = stamp now c +:+ ".bin")) as [->|Hx'].
      { rewrite lookup_insert_eq, Hb. split; [intros [= <-]; by left; right|]. intros [[[= Heq _]|[= ->]]|?]; [congruence|done|done]. }
      rewrite lookup_insert_ne by (intros Heq%app_inv_head; congruence). split; [by right|]. intros [[[= ? _]|[= ? _]]|?]; [congruence..|done].
  - cbn [lf_fs upd eta_expand eta_Provider]. rewrite <- !app_assoc.
    eapply outside_trans; [|apply outside_insert]. apply outside_insert.
Qed.

(** ** The methods *)
Definition hashOf (v : ver) : string :=
  computeWriteResultHash (sc_Key v.1) (vid v) VersioningEnabled (sc_SizeBytes v.1) (sc_ChecksumSHA256 v.1).
Definition resultOf (v : ver) : PutResult :=
  mkPutResult (sc_Key v.1) (vid v) VersioningEnabled (sc_Retention v.1) (wtime v) (sc_SizeBytes v.1) (sc_ChecksumSHA256 v.1) (hashOf v).
Definition newVer (k : string) (c : Z) (b : bytes) (ct : string) (spec : RetentionSpec) (now : Time) : ver :=
  (newSidecar k (stamp now c) b ct spec now, Some b).

(** [v] was written after every version in [vs]. *)
Definition after (now : Time) (vs : list ver) : Prop := Forall (fun w => wtime w < now) vs /\ 0 <= now < 2 ^ 63.

(** What [Put] checks of a body that has been read. *)
Definition sumOk (req : PutRequest) (b : bytes) : bool :=
  negb ((0 <? pq_ExpectedLength req) && negb (len b =? pq_ExpectedLength req)) &&
  negb (negb (bool_decide (pq_ChecksumSHA256 req = "")) && negb (bool_decide (pq_ChecksumSHA256 req = sha256_hex b))).

Lemma Put_body p k vs now req body : through (lf_fs p) root -> K k -> versions (lf_fs p) k vs -> after now vs ->
  pq_Key req = k -> pq_Body req = Some body -> pq_IfNoneMatch req && negb (bool_decide (vs = [])) = false ->
  exists p' c, outside root (comps k) (lf_fs p) (lf_fs p') /\
    match ReadAll body with
    | Err e => Put root now req p = (p', Err (ErrWrap "local_fs_dev: write %q: %w" e)) /\ holds (lf_fs p') k vs
    | Ok b =>
        let v := newVer k c b (pq_ContentType req) (pq_Retention req) now in
        if sumOk req b then Put root now req p = (p', Ok (resultOf v)) /\ holds (lf_fs p') k (vs ++ [v])
        else exists msg, Put root now req p = (p', Err (ErrWrap msg (ErrSentinel BsChecksumMismatch))) /\ holds (lf_fs p') k vs
    end.
Proof.
  intros Hr Hk Hv [Hlt Hn] Hkey Hb Hi. destruct (newVersionID_stamp now (mkProvider (made root (lf_fs p) (comps k)) (lf_counter p)) Hn) as (c & Hvid & Hpl).
  set (p1 := mkProvider (made root (lf_fs p) (comps k)) (wrapU64 (lf_counter p + 1))).
  assert (Hput : Put root now req p =
    (data ← lift (match ReadAll body with Ok d => Ok d | Err e => Err (ErrWrap "local_fs_dev: write %q: %w" e) end);
     fail_if ((0 <? pq_ExpectedLength req) && negb (len data =? pq_ExpectedLength req))
       (ErrWrap "local_fs_dev: %w: wrote %d want %d" (ErrSentinel BsChecksumMismatch));;
     fail_if (negb (bool_decide (pq_ChecksumSHA256 req = "")) && negb (bool_decide (pq_ChecksumSHA256 req = sha256_hex data)))
       (ErrWrap "local_fs_dev: %w: got %s want %s" (ErrSentinel BsChecksumMismatch));;
     publish root k (stamp now c) data (pq_ContentType req) (pq_Retention req) now) p1).
  { unfold Put. rewrite Hkey, Hb. unroll. rewrite (keys_valid _ Hk), (hasAny_versions _ _ _ Hr Hk Hv).
    assert (Hany : match vs with [] => false | _ => true end = negb (bool_decide (vs = []))) by (by destruct vs). rewrite Hany, Hi.
    unfold fsDo, wrap. rewrite (mkdir_versions _ _ _ Hr Hk Hv).
    cbv beta iota. change (p <| lf_fs := made root (lf_fs p) (comps k) |>) with (mkProvider (made root (lf_fs p) (comps k)) (lf_counter p)).
    rewrite Hvid. reflexivity. }
  rewrite Hput. pose proof (open_dir _ _ _ Hr Hv) as Hh. pose proof (outside_made root (lf_fs p) (comps k)) as Ho1.
  destruct (ReadAll body) as [b|e]; [|exists p1, c; split; [exact Ho1|by split]]. cbn zeta. unfold sumOk. unroll.
  assert (Hbad : forall msg, exists msg', (p1, @Err PutResult (ErrWrap msg (ErrSentinel BsChecksumMismatch))) = (p1, Err (ErrWrap msg' (ErrSentinel BsChecksumMismatch))) /\
    holds (lf_fs p1) k vs) by (intros msg; by exists msg).
  destruct ((0 <? _) && _); [exists p1, c; split; [exact Ho1|apply Hbad]|]. cbn [negb andb].
  destruct (negb _ && _); [exists p1, c; split; [exact Ho1|apply Hbad]|].
  destruct (publish_versions p1 k vs c b (pq_ContentType req) (pq_Retention req) now Hk Hh Hlt Hn Hpl) as (p' & Hp & Hh' & Ho).
  exists p', c. split; [by eapply outside_trans|]. cbn [negb andb]. by split.
Qed.

Lemma Put_versions p k vs now req b : through (lf_fs p) root -> K k -> versions (lf_fs p) k vs -> after now vs ->
  pq_Key req = k -> pq_Body req = Some (bytes_NewReader b) -> pq_IfNoneMatch req = false ->
  pq_ExpectedLength req = len b -> pq_ChecksumSHA256 req = "" \/ pq_ChecksumSHA256 req = sha256_hex b ->
  exists p' c, let v := newVer k c b (pq_ContentType req) (pq_Retention req) now in
    Put root now req p = (p', Ok (resultOf v)) /\ holds (lf_fs p') k (vs ++ [v]) /\ outside root (comps k) (lf_fs p) (lf_fs p').
Proof.
  intros Hr Hk Hv Ha Hkey Hb Hi Hl Hc. destruct (Put_body p k vs now req _ Hr Hk Hv Ha Hkey Hb) as (p' & c & Ho & Hp); [by rewrite Hi|].
  assert (Hs : sumOk req b = true).
  { unfold sumOk. rewrite Hl, Z.eqb_refl, andb_false_r. destruct Hc as [Hc|Hc]; rewrite Hc; [done|]. rewrite (bool_decide_true (sha256_hex b = sha256_hex b)) by done. by rewrite !andb_false_r. }
  cbn [ReadAll bytes_NewReader rd_err rd_bytes] in Hp. rewrite Hs in Hp. destruct Hp as [Hp Hh]. by exists p', c.
Qed.

Lemma Put_exists p k vs now req : through (lf_fs p) root -> K k -> versions (lf_fs p) k vs -> vs <> [] ->
  pq_Key req = k -> is_Some (pq_Body req) -> pq_IfNoneMatch req = true ->
  exists e, Put root now req p = (p, Err e) /\ errors_Is e BsPreconditionFailed = true.
Proof.
  intros Hr Hk Hv Hn Hkey [b Hb] Hi. eexists. split.
  - unfold Put. rewrite Hkey, Hb, Hi. unroll. rewrite (keys_valid _ Hk), (hasAny_versions _ _ _ Hr Hk Hv). destruct vs; [done|]. reflexivity.
  - reflexivity.
Qed.

(** A delete marker goes on top. *)
Definition marker (k : string) (c : Z) (now : Time) : ver :=
  (mkSidecar k (stamp now c) 0 "" "" VersioningEnabled zeroRetentionState now true, None).
Lemma Delete_versions p k vs now : through (lf_fs p) root -> K k -> versions (lf_fs p) k vs -> vs <> [] -> after now vs ->
  exists p' c, Delete root now (mkObjectRef k) p = (p', Ok tt) /\ holds (lf_fs p') k (vs ++ [marker k c now]) /\ outside root (comps k) (lf_fs p) (lf_fs p').
Proof.
  intros Hr Hk Hv Hne [Hlt Hn]. assert (Hh : holds (lf_fs p) k vs) by (by destruct Hv as [?|[-> _]]).
  destruct (newVersionID_stamp now p Hn) as (c & Hvid & Hpl). set (v := marker k c now).
  assert (Hvo : verOk k v) by (split; [done|done|by exists c|done|done]).
  assert (Hj : lf_fs p !! (kdir k ++ [stamp now c +:+ ".json"]) = None).
  { eapply (new_file _ _ _ v); [done..|]. apply elem_of_cons. by left. }
  eexists _, c. split; [|split].
  - unfold Delete, writeSidecar. cbn [or_Key]. unroll. rewrite (keys_valid _ Hk), (hasAny_versions _ _ _ Hr Hk Hv).
    destruct vs as [|w vs]; [done|]. cbn [negb]. rewrite Hvid. unfold fsDo, wrap. rewrite versionMetaPath_plain, kdir_eq by done.
    rewrite writeNode_child; [reflexivity| |].
    + cbn [lf_fs upd eta_expand eta_Provider]. by eapply isDir_holds.
    + cbn [lf_fs upd eta_expand eta_Provider]. by rewrite Hj.
  - cbn [lf_fs upd eta_expand eta_Provider]. apply (holds_snoc _ _ _ _ _ Hh Hvo); [done| |].
    + apply through_insert, (ho_dir _ _ _ Hh).
    + intros x n. unfold filesOf. cbn [fst snd v marker vid sc_VersionID]. rewrite list_elem_of_singleton.
      destruct (decide (x = stamp now c +:+ ".json")) as [->|Hx].
      { rewrite lookup_insert_eq, Hj. split; [intros [= <-]; by left|]. by intros [[= ->]|?]. }
      rewrite lookup_insert_ne by (intros Heq%app_inv_head; congruence). split; [by right|]. intros [[= ? _]|?]; [congruence|done].
  - cbn [lf_fs upd eta_expand eta_Provider]. rewrite <- app_assoc. apply outside_insert.
Qed.

Lemma last_map_snoc (vs : list ver) v : last (map fst (vs ++ [v])) = Some v.1.
Proof. rewrite map_app. apply last_snoc. Qed.

Lemma Head_versions p k vs v now : through (lf_fs p) root -> K k -> holds (lf_fs p) k (vs ++ [v]) ->
  exists e, Head root now (mkObjectRef k) p = (p, match v.2 with Some _ => Ok (sidecarToMeta v.1) | None => Err e end) /\
    errors_Is e BsNotFound = true.
Proof.
  intros Hr Hk Hh. pose proof (ver_ok _ _ _ v Hh ltac:(set_solver)) as Hok.
  pose proof (vo_body _ _ Hok) as Hb. exists (ErrWrap "local_fs_dev: %w: key %q" (ErrSentinel BsNotFound)). split; [|reflexivity].
  unfold Head, fsGet. cbn [or_Key]. unroll. rewrite (keys_valid _ Hk), (listVersions_versions _ _ _ Hr Hk (or_introl Hh)).
  unfold latestVersion. rewrite last_map_snoc. cbv iota. destruct v.2; [destruct Hb as [Hb _]|]; by rewrite Hb.
Qed.

(** The latest body, or a range of it. *)
Lemma Get_versions p k vs v b now rng b' : through (lf_fs p) root -> K k -> holds (lf_fs p) k (vs ++ [v]) -> v.2 = Some b ->
  match rng with None => b' = b | Some r => rangeBytes r b = Ok b' end ->
  Get root now (mkGetRequest (mkVersionedObjectRef k "") rng) p = (p, Ok (bytes_NewReader b', sidecarToMeta v.1)).
Proof.
  intros Hr Hk Hh Hb Hrng. pose proof (ver_ok _ _ _ v Hh ltac:(set_solver)) as Hok.
  pose proof (vo_body _ _ Hok) as Hvb. rewrite Hb in Hvb. destruct Hvb as [Hm _].
  unfold Get, fsGet. cbn [gq_Ref gq_Range vr_Key vr_VersionID]. unroll. rewrite (keys_valid _ Hk), (bool_decide_true ("" = "")) by done. cbn [negb].
  rewrite (listVersions_versions _ _ _ Hr Hk (or_introl Hh)). unfold latestVersion. rewrite last_map_snoc. cbv iota. rewrite Hm.
  rewrite (vo_key _ _ Hok). fold (vid v). rewrite (openFile_version _ _ _ v b Hk Hh) by (done || set_solver).
  destruct rng as [r|]; [by rewrite Hrng|by subst].
Qed.

Lemma ListVersions_versions p k vs req : through (lf_fs p) root -> K k -> versions (lf_fs p) k vs -> lv_Key req = k ->
  ListObjectVersions root req p = (p, Ok (mkVersionPage (map sidecarToMeta (map fst vs)) "" false)).
Proof. intros Hr Hk Hv Hq. unfold ListObjectVersions, fsGet. rewrite Hq. unroll. by rewrite (keys_valid _ Hk), (listVersions_versions _ _ _ Hr Hk Hv). Qed.

Lemma Purge_versions p k vs : K k -> holds (lf_fs p) k vs ->
  exists p', PurgeAllVersions root (mkObjectRef k) p = (p', Ok tt) /\ vacant root (lf_fs p') (comps k) /\ outside root (comps k) (lf_fs p) (lf_fs p').
Proof.
  intros Hk Hh. eexists. split; [|split].
  - unfold PurgeAllVersions, fsGet, fsDo. cbn [or_Key]. unroll. rewrite (keys_valid _ Hk), kdir_eq, (stat_through _ _ (ho_dir _ _ _ Hh)) by done. reflexivity.
  - cbn [lf_fs upd eta_expand eta_Provider]. apply vacant_removed, (ho_dir _ _ _ Hh).
  - cbn [lf_fs upd eta_expand eta_Provider]. apply outside_removeAll.
Qed.

Lemma last_nonmarker (vs : list ver) v : sc_IsDeleteMarker v.1 = false -> latestNonDeleteMarker (map fst (vs ++ [v])) = Some v.1.
Proof.
  intros Hm. unfold latestNonDeleteMarker. rewrite map_app, filter_app. cbn [map]. rewrite filter_cons_True by done. apply last_snoc.
Qed.

(** [CopyWithinProvider] in two parts: the source, and its copy. *)
Definition copySource f (src v : string) : result sidecar :=
  if negb (bool_decide (v = "")) then readSidecar root src v f
  else match listVersionsLocked root f src with
       | Err e => Err e
       | Ok vs => match latestNonDeleteMarker vs with
                  | Some sc => Ok sc
                  | None => Err (ErrWrap "local_fs_dev: %w: src %q" (ErrSentinel BsNotFound))
                  end
       end.
Definition copyFrom (now : Time) (dst : string) (spec : RetentionSpec) (sc : sidecar) : M Provider PutResult :=
  data ← wrap "local_fs_dev: open src: %w" (fsGet (fun f => openFile f (versionBodyPath root (sc_Key sc) (sc_VersionID sc))));
  wrap "local_fs_dev: mkdir dst: %w" (fsDo (fun f => mkdirAll f (versionsDir root dst)));;
  versionID ← newVersionID now;
  fail_if (negb (bool_decide (sha256_hex data = sc_ChecksumSHA256 sc))) (ErrWrap "local_fs_dev: %w: copy checksum" (ErrSentinel BsChecksumMismatch));;
  publish root dst versionID data (sc_ContentType sc) spec now.

Lemma Copy_parts p src v dst spec now : K src -> K dst ->
  CopyWithinProvider root now (mkCopyWithinProviderRequest (mkVersionedObjectRef src v) dst spec) p =
  match copySource (lf_fs p) src v with Ok sc => copyFrom now dst spec sc p | Err e => (p, Err e) end.
Proof.
  intros Hs Hk. unfold CopyWithinProvider, copySource, fsGet. cbn [cw_Src cw_DstKey cw_Retention vr_Key vr_VersionID]. unroll.
  rewrite (keys_valid _ Hs), (keys_valid _ Hk). destruct (negb _); [by destruct (readSidecar _ _ _ _)|].
  destruct (listVersionsLocked _ _ _) as [vs|e]; [|done]. by destruct (latestNonDeleteMarker vs).
Qed.

Lemma copyFrom_versions p src dst vsrc v b vs now spec : through (lf_fs p) root -> K src -> K dst ->
  holds (lf_fs p) src vsrc -> v ∈ vsrc -> v.2 = Some b -> versions (lf_fs p) dst vs -> after now vs ->
  exists p' c, let w := newVer dst c b (sc_ContentType v.1) spec now in
    copyFrom now dst spec v.1 p = (p', Ok (resultOf w)) /\ holds (lf_fs p') dst (vs ++ [w]) /\ outside root (comps dst) (lf_fs p) (lf_fs p').
Proof.
  intros Hr Hs Hk Hh Hin Hb Hv [Hlt Hn]. pose proof (ver_ok _ _ _ v Hh Hin) as Hok.
  pose proof (vo_body _ _ Hok) as Hvb. rewrite Hb in Hvb. destruct Hvb as (_ & Hsum & _).
  destruct (newVersionID_stamp now (mkProvider (made root (lf_fs p) (comps dst)) (lf_counter p)) Hn) as (c & Hvid & Hpl).
  destruct (publish_versions (mkProvider (made root (lf_fs p) (comps dst)) (wrapU64 (lf_counter p + 1))) dst vs c b
    (sc_ContentType v.1) spec now Hk (open_dir _ _ _ Hr Hv) Hlt Hn Hpl) as (p' & Hp & Hh' & Ho).
  exists p', c. cbn zeta. split; [|split; [done|]].
  - unfold copyFrom, fsGet, wrap, fsDo. rewrite (vo_key _ _ Hok). fold (vid v). unroll. rewrite (openFile_version _ _ _ v b Hs Hh) by done.
    rewrite (mkdir_versions _ _ _ Hr Hk Hv). cbv beta iota.
    change (p <| lf_fs := made root (lf_fs p) (comps dst) |>) with (mkProvider (made root (lf_fs p) (comps dst)) (lf_counter p)).
    rewrite Hvid, Hsum, bool_decide_true by done. exact Hp.
  - eapply outside_trans; [apply outside_made|exact Ho].
Qed.

Lemma Copy_versions p src dst vs0 v b vs now spec : through (lf_fs p) root -> K src -> K dst ->
  holds (lf_fs p) src (vs0 ++ [v]) -> v.2 = Some b -> versions (lf_fs p) dst vs -> after now vs ->
  exists p' c, let w := newVer dst c b (sc_ContentType v.1) spec now in
    CopyWithinProvider root now (mkCopyWithinProviderRequest (mkVersionedObjectRef src "") dst spec) p = (p', Ok (resultOf w)) /\
    holds (lf_fs p') dst (vs ++ [w]) /\ outside root (comps dst) (lf_fs p) (lf_fs p').
Proof.
  intros Hr Hs Hk Hh Hb Hv Ha. assert (Hin : v ∈ vs0 ++ [v]) by set_solver.
  destruct (copyFrom_versions p src dst _ v b vs now spec Hr Hs Hk Hh Hin Hb Hv Ha) as (p' & c & Hc & Hh' & Ho).
  exists p', c. split; [|by split]. rewrite Copy_parts by done. unfold copySource.
  pose proof (vo_body _ _ (ver_ok _ _ _ v Hh Hin)) as Hvb. rewrite Hb in Hvb.
  rewrite (listVersions_versions _ _ _ Hr Hs (or_introl Hh)), last_nonmarker by apply Hvb. exact Hc.
Qed.

(** *** One version among others *)
Lemma others f k vs1 v vs2 w x n m : holds f k (vs1 ++ v :: vs2) -> w ∈ vs1 ++ vs2 -> (x, n) ∈ filesOf w -> (x, m) ∈ filesOf v -> False.
Proof.
  intros Hh Hw Hxw Hxv. pose proof (filesOf_names _ _ _ _ _ Hxw Hxv) as Heq.
  assert (Hwo : verOk k w) by (eapply ver_ok; [exact Hh|set_solver]). assert (Hvo : verOk k v) by (eapply ver_ok; [exact Hh|set_solver]).
  pose proof (vid_time k w v Hwo Hvo Heq) as Ht. pose proof (ho_times _ _ _ Hh) as Hs.
  apply elem_of_app in Hw as [Hw|Hw].
  - pose proof (StronglySorted_app_1_elem_of _ _ _ w v Hs ltac:(set_solver) ltac:(set_solver)) as Hlt. cbn in Hlt. lia.
  - apply StronglySorted_app_1_r in Hs. apply StronglySorted_inv in Hs as [_ Hv]. rewrite Forall_forall in Hv. specialize (Hv w Hw). lia.
Qed.

Lemma files_split (vs1 : list ver) v vs2 x n : (x, n) ∈ (vs1 ++ v :: vs2) ≫= filesOf <-> (x, n) ∈ filesOf v \/ (x, n) ∈ (vs1 ++ vs2) ≫= filesOf.
Proof. rewrite !bind_app. change ((v :: vs2) ≫= filesOf) with (filesOf v ++ (vs2 ≫= filesOf)). rewrite !elem_of_app. tauto. Qed.

(** A sidecar is rewritten in place. *)
Lemma rewrite_version f k vs1 v vs2 sc : holds f k (vs1 ++ v :: vs2) -> verOk k (sc, v.2) -> sc_VersionID sc = vid v ->
  sc_WriteTime sc = wtime v -> holds (<[kdir k ++ [vid v +:+ ".json"] := JFile (DSidecar sc)]> f) k (vs1 ++ (sc, v.2) :: vs2).
Proof.
  intros Hh Hok Hid Ht. set (v' := (sc, v.2) : ver). assert (Hv' : vid v' = vid v) by exact Hid. assert (Hj : (vid v +:+ ".json", JFile (DSidecar v.1)) ∈ filesOf v) by (apply elem_of_cons; by left).
  split.
  - apply through_insert, (ho_dir _ _ _ Hh).
  - intros x n. rewrite files_split. destruct (decide (x = vid v +:+ ".json")) as [->|Hx].
    + rewrite lookup_insert_eq. unfold filesOf at 1. rewrite Hv'. cbn [fst snd v']. split.
      * intros [= <-]. left. apply elem_of_cons. by left.
      * intros [[[= ->]|Hin]%elem_of_cons|(w & Hxw & Hw)%list_elem_of_bind]; [done| |].
        -- destruct v.2; [|by apply elem_of_nil in Hin]. apply list_elem_of_singleton in Hin. injection Hin as Heq _. by apply json_bin in Heq.
        -- by destruct (others _ _ _ _ _ _ _ _ _ Hh Hw Hxw Hj).
    + rewrite lookup_insert_ne by (intros Heq%app_inv_head; congruence). rewrite (ho_files _ _ _ Hh), files_split.
      apply or_iff_compat_r. unfold filesOf. rewrite Hv', !elem_of_cons. cbn [fst snd v']. split; (intros [[= ? _]|Hin]; [congruence|by right]).
  - pose proof (ho_ok _ _ _ Hh) as Ho. rewrite Forall_app, Forall_cons in Ho |- *. tauto.
  - pose proof (ho_times _ _ _ Hh) as Hs. clear -Hs Ht. induction vs1 as [|w vs1 IH]; cbn in *; apply StronglySorted_inv in Hs as [Hs Hw]; constructor.
    + done.
    + eapply Forall_impl; [exact Hw|]. intros u Hu. cbn in *. unfold wtime in *. cbn. lia.
    + by apply IH.
    + rewrite Forall_app, Forall_cons in Hw |- *. unfold wtime in *. cbn. rewrite Ht. tauto.
Qed.

Lemma GetRetention_versions p k vs v : K k -> holds (lf_fs p) k vs -> v ∈ vs ->
  GetRetention root (mkVersionedObjectRef k (vid v)) p = (p, Ok (sc_Retention v.1)).
Proof.
  intros Hk Hh Hv. unfold GetRetention, fsGet. cbn [vr_Key vr_VersionID]. unroll.
  by rewrite (keys_valid _ Hk), (readSidecar_version _ _ _ _ Hk Hh Hv).
Qed.

Definition withRetention (v : ver) (rt : RetentionState) : ver := (v.1 <| sc_Retention := rt |>, v.2).

(** The end of the two methods that change the retention of a version. *)
Lemma writeRetention p k vs1 v vs2 rt : K k -> holds (lf_fs p) k (vs1 ++ v :: vs2) -> exists p',
  writeSidecar (versionMetaPath root k (vid v)) (v.1 <| sc_Retention := rt |>) p = (p', Ok tt) /\
  holds (lf_fs p') k (vs1 ++ withRetention v rt :: vs2) /\ outside root (comps k) (lf_fs p) (lf_fs p').
Proof.
  intros Hk Hh. pose proof (ver_ok _ _ _ v Hh ltac:(set_solver)) as Hok. eexists. split; [|split].
  - unfold writeSidecar, wrap, fsDo. rewrite versionMetaPath_plain, kdir_eq by (done || apply (vo_plain _ _ Hok)).
    rewrite writeNode_child; [reflexivity|by eapply isDir_holds|].
    by rewrite (ver_json _ _ _ v Hh) by set_solver.
  - cbn [lf_fs upd eta_expand eta_Provider]. apply rewrite_version; [done| |done|done]. destruct v as [sc b], Hok. by split.
  - cbn [lf_fs upd eta_expand eta_Provider]. rewrite <- app_assoc. apply outside_insert.
Qed.

Lemma UpdateRetention_versions p k vs1 v vs2 req : K k -> holds (lf_fs p) k (vs1 ++ v :: vs2) ->
  ru_Ref req = mkVersionedObjectRef k (vid v) ->
  match updatedRetention (sc_Retention v.1) req with
  | Ok rt => exists p', UpdateRetention root req p = (p', Ok rt) /\ holds (lf_fs p') k (vs1 ++ withRetention v rt :: vs2) /\ outside root (comps k) (lf_fs p) (lf_fs p')
  | Err e => UpdateRetention root req p = (p, Err e)
  end.
Proof.
  intros Hk Hh Hq. assert (Hu : UpdateRetention root req p = (new ← lift (updatedRetention (sc_Retention v.1) req);
    writeSidecar (versionMetaPath root k (vid v)) (v.1 <| sc_Retention := new |>);; ret new) p).
  { unfold UpdateRetention, fsGet. rewrite Hq. cbn [vr_Key vr_VersionID]. unroll. by rewrite (keys_valid _ Hk), (readSidecar_version _ _ _ v Hk Hh) by set_solver. }
  rewrite Hu. destruct (updatedRetention (sc_Retention v.1) req) as [rt|e]; [|done].
  destruct (writeRetention _ _ _ _ _ rt Hk Hh) as (p' & Hw & Hh' & Ho). exists p'. split; [|done]. unroll. by rewrite Hw.
Qed.

Lemma SetLegalHold_versions p k vs1 v vs2 enabled : K k -> holds (lf_fs p) k (vs1 ++ v :: vs2) -> exists p',
  let rt := (sc_Retention v.1) <| rt_LegalHold := enabled |> in
  SetLegalHold root (mkVersionedObjectRef k (vid v)) enabled p = (p', Ok rt) /\
  holds (lf_fs p') k (vs1 ++ withRetention v rt :: vs2) /\ outside root (comps k) (lf_fs p) (lf_fs p').
Proof.
  intros Hk Hh. destruct (writeRetention _ _ _ _ _ ((sc_Retention v.1) <| rt_LegalHold := enabled |>) Hk Hh) as (p' & Hw & Hh' & Ho).
  exists p'. split; [|done]. unfold SetLegalHold, fsGet. cbn [vr_Key vr_VersionID]. unroll.
  rewrite (keys_valid _ Hk), (readSidecar_version _ _ _ v Hk Hh) by set_solver. by rewrite Hw.
Qed.

(** *** Deleting versions *)
Lemma removeIgnoreMissing_child msg p q x : through (lf_fs p) q -> lf_fs p !! (q ++ [x]) <> Some Dir ->
  removeIgnoreMissing msg (q ++ [x]) p = (p <| lf_fs := delete (q ++ [x]) (lf_fs p) |>, Ok tt).
Proof.
  intros Hq Hx. unfold removeIgnoreMissing, remove. rewrite stat_snoc. destruct (lf_fs p !! (q ++ [x])) as [[]|] eqn:Hf; try done.
  rewrite missing_through by done. cbn [errors_Is]. rewrite bool_decide_true by done.
  rewrite delete_id by done. by destruct p.
Qed.

Lemma holds_delete f k vs1 v vs2 : holds f k (vs1 ++ v :: vs2) ->
  holds (delete (kdir k ++ [vid v +:+ ".bin"]) (delete (kdir k ++ [vid v +:+ ".json"]) f)) k (vs1 ++ vs2).
Proof.
  intros Hh. assert (Hj : (vid v +:+ ".json", JFile (DSidecar v.1)) ∈ filesOf v) by (apply elem_of_cons; by left). split.
  - apply through_delete, through_delete, (ho_dir _ _ _ Hh).
  - intros x n. assert (Hno : (x, n) ∈ (vs1 ++ vs2) ≫= filesOf -> x <> vid v +:+ ".json" /\ x <> vid v +:+ ".bin").
    { intros (w & Hxw & Hw)%list_elem_of_bind. split; intros ->; [by destruct (others _ _ _ _ _ _ _ _ _ Hh Hw Hxw Hj)|].
      assert (Heq : vid w = vid v).
      { unfold filesOf in Hxw. apply elem_of_cons in Hxw as [[= Hx _]|Hin]; [symmetry in Hx; by apply json_bin in Hx|].
        destruct w.2; [|by apply elem_of_nil in Hin]. apply list_elem_of_singleton in Hin. injection Hin as Hin _. by apply bin_inj. }
      apply (others _ _ _ _ _ w (vid v +:+ ".json") (JFile (DSidecar w.1)) (JFile (DSidecar v.1)) Hh Hw); [|done].
      unfold filesOf. rewrite Heq. apply elem_of_cons. by left. }
    destruct (decide (x = vid v +:+ ".bin")) as [->|Hb].
    { rewrite lookup_delete_eq. split; [done|]. intros Hin. by destruct (Hno Hin). }
    rewrite lookup_delete_ne by (intros Heq%app_inv_head; congruence). destruct (decide (x = vid v +:+ ".json")) as [->|Hx].
    { rewrite lookup_delete_eq. split; [done|]. intros Hin. by destruct (Hno Hin). }
    rewrite lookup_delete_ne by (intros Heq%app_inv_head; congruence). rewrite (ho_files _ _ _ Hh), files_split.
    split; [|by right]. intros [Hin|]; [|done]. unfold filesOf in Hin. apply elem_of_cons in Hin as [[= ? _]|Hin]; [congruence|].
    destruct v.2; [|by apply elem_of_nil in Hin]. apply list_elem_of_singleton in Hin. injection Hin as ? _. congruence.
  - pose proof (ho_ok _ _ _ Hh) as Ho. rewrite Forall_app, Forall_cons in Ho. apply Forall_app. tauto.
  - pose proof (ho_times _ _ _ Hh) as Hs. clear -Hs. induction vs1 as [|w vs1 IH]; cbn in *; apply StronglySorted_inv in Hs as [Hs Hw]; [done|].
    constructor; [by apply IH|]. rewrite Forall_app, Forall_cons in Hw. apply Forall_app. tauto.
Qed.

Lemma DeleteVersion_versions p k vs1 v vs2 : through (lf_fs p) root -> K k -> holds (lf_fs p) k (vs1 ++ v :: vs2) -> exists p',
  DeleteVersion root (mkVersionedObjectRef k (vid v)) p = (p', Ok tt) /\ holds (lf_fs p') k (vs1 ++ vs2) /\ outside root (comps k) (lf_fs p) (lf_fs p').
Proof.
  intros Hr Hk Hh. pose proof (ver_ok _ _ _ v Hh ltac:(set_solver)) as Hok. pose proof (ho_dir _ _ _ Hh) as Ht.
  assert (Hfile : forall x, lf_fs p !! (kdir k ++ [x]) <> Some Dir).
  { intros x Hx. apply (ho_files _ _ _ Hh) in Hx. apply list_elem_of_bind in Hx as (w & Hxw & _). unfold filesOf in Hxw.
    apply elem_of_cons in Hxw as [?|Hxw]; [done|]. destruct w.2; [by apply list_elem_of_singleton in Hxw|by apply elem_of_nil in Hxw]. }
  eexists. split; [|split].
  - unfold DeleteVersion. cbn [vr_Key vr_VersionID]. unroll. rewrite (keys_valid _ Hk), versionMetaPath_plain, versionBodyPath_plain, kdir_eq by (done || apply (vo_plain _ _ Hok)).
    rewrite removeIgnoreMissing_child by done. rewrite removeIgnoreMissing_child; [reflexivity| |].
    + by apply through_delete.
    + cbn [lf_fs upd eta_expand eta_Provider]. destruct (decide (vid v +:+ ".json" = vid v +:+ ".bin")) as [Heq|Hne]; [by apply json_bin in Heq|].
      rewrite lookup_delete_ne; [apply Hfile|]. intros Heq%app_inv_head. congruence.
  - apply (holds_delete _ _ _ _ _ Hh).
  - cbn [lf_fs upd eta_expand eta_Provider]. rewrite <- !app_assoc. eapply outside_trans; [apply outside_delete|apply outside_delete].
Qed.

End versions.

(** ** Listing the keys: those of one component *)
Section listing.
Context (root : path).
Implicit Types (f : fs doc).

Lemma flat_comps k : flat k -> comps k = [k].
Proof. intros [_ Hs]. by apply Split_noSep. Qed.

Lemma readDir_root f : through f root -> readDir f root = Ok (children f root).
Proof. intros Hr. unfold readDir. by rewrite stat_through. Qed.

Lemma ListObjects_versions p prefix ks : through (lf_fs p) root -> NoDup ks -> len ks <= 1000 ->
  (forall k, k ∈ ks -> flat k /\ HasPrefix k prefix = true /\ exists vs v, holds root (lf_fs p) k (vs ++ [v]) /\ is_Some v.2) ->
  exists page, ListObjects root (mkListObjectsRequest prefix "" 0) p = (p, Ok page) /\ len ks <= len (op_Objects page).
Proof.
  intros Hr Hnd Hlen Hks. unfold ListObjects, fsGet. cbn [lo_MaxKeys]. unroll. unfold wrap. rewrite (readDir_root _ Hr).
  set (metas0 := objectMetas root (lf_fs p) (mkListObjectsRequest prefix "" 0) (children (lf_fs p) root)).
  set (metas := sort_Slice _ metas0). cbv beta iota.
  assert (Hin : forall k, k ∈ ks -> k ∈ map om_Key metas).
  { intros k Hk. destruct (Hks k Hk) as (Hf & Hp & vs & v & Hh & [b Hb]). pose proof (ver_ok root _ _ _ v Hh ltac:(set_solver)) as Hok.
    pose proof (vo_body _ _ Hok) as Hvb. rewrite Hb in Hvb.
    apply list_elem_of_fmap. exists (sidecarToMeta v.1). split; [cbn; symmetry; apply (vo_key _ _ Hok)|]. unfold metas. rewrite sort_Slice_perm.
    unfold metas0, objectMetas. apply list_elem_of_omap. exists (k, Dir). split; [apply elem_of_children; pose proof (ho_dir _ _ _ _ Hh) as Hd; rewrite flat_comps in Hd by done; apply through_at; [done|by destruct root]|].
    cbn [fst snd lo_Prefix lo_Cursor]. rewrite Hp, andb_false_r, (bool_decide_true ("" = "")) by done. cbn [negb andb].
    rewrite (listVersions_versions root _ _ _ Hr Hf (or_introl Hh)), last_nonmarker by apply Hvb. done. }
  assert (Hle : len ks <= len metas).
  { unfold len. rewrite <- (length_map om_Key metas). apply inj_le, submseteq_length, NoDup_submseteq; [done|]. exact Hin. }
  change (0 <=? 0) with true. cbv iota. change (1000 <? 1000) with false. cbv iota.
  eexists. split; [reflexivity|]. pose proof (len_nonneg ks). destruct (Z.ltb_spec (len metas) 1000).
  - rewrite (proj2 (Z.ltb_ge (len metas) (len metas))) by lia. cbn [op_Objects]. rewrite takeZ_ge by lia. done.
  - destruct (1000 <? len metas); cbn [op_Objects]; rewrite len_takeZ by lia; lia.
Qed.

End listing.

(** ** Staged uploads *)
Section staged.
Context (root : path) {K : string -> Prop} `{!Keys K}.
Implicit Types (f : fs doc).
Notation mdir k := ("_multipart" :: comps k).

(** No upload of [k] is staged; an upload is staged in its directory. *)
Definition stagedDir f k uid : Prop := through f (root ++ mdir k ++ [uid]).

Lemma stamp_long t c : (17 <= String.length (stamp t c))%nat.
Proof. unfold stamp. rewrite !slength_app, hexPad_length. cbn. lia. Qed.
Lemma stamp_nonempty t c : stamp t c <> "".
Proof. intros Heq. pose proof (stamp_long t c) as H. rewrite Heq in H. cbn in H. lia. Qed.
Lemma staging_dir k t c : K k -> plainID (stamp t c) -> multipartDir root k (stamp t c) = root ++ mdir k ++ [stamp t c].
Proof.
  intros Hk Hp. pose proof (stamp_long t c) as Hl. pose proof (keys_valid k Hk) as Hv.
  by rewrite multipartDir_valid by (done || (intros Heq; rewrite Heq in Hl; cbn in Hl; lia)).
Qed.

Lemma vacant_child f d x : vacant root f d -> vacant root f (d ++ [x]).
Proof.
  intros [Hn Hf]. split; [intros q; rewrite <- app_assoc; apply Hn|]. intros p r Heq Hp Hr.
  destruct r as [|y r _] using rev_ind; [done|]. rewrite app_assoc in Heq. apply app_inj_tail in Heq as [-> _].
  destruct (decide (r = [])) as [->|Hr']; [|by apply (Hf p r)]. left. specialize (Hn []). by rewrite !app_nil_r in Hn.
Qed.

Lemma CreateMultipart_staged p k req now : through (lf_fs p) root -> K k -> vacant root (lf_fs p) (mdir k) -> 0 <= now < 2 ^ 63 ->
  mq_Key req = k -> exists p' c, plainID (stamp now c) /\
    CreateMultipart root now req p = (p', Ok (mkMultipartUpload k (stamp now c))) /\
    stagedDir (lf_fs p') k (stamp now c) /\ outside root (mdir k) (lf_fs p) (lf_fs p').
Proof.
  intros Hr Hk Hu Hn Hq. destruct (newVersionID_stamp now p Hn) as (c & Hvid & Hpl). eexists _, c. split; [exact Hpl|].
  set (uid := stamp now c) in *. set (d := mdir k ++ [uid]). set (f1 := made root (lf_fs p) d).
  assert (Hf1 : forall x, f1 !! ((root ++ d) ++ [x]) = None).
  { intros x. unfold f1. rewrite <- app_assoc, made_below. unfold d. rewrite <- app_assoc. apply (proj1 Hu). }
  assert (Ht1 : through f1 (root ++ d)) by by apply made_through.
  split; [|split].
  - unfold CreateMultipart. rewrite Hq. unroll. rewrite (keys_valid k Hk), Hvid. unfold fsDo, wrap. fold uid.
    pose proof (staging_dir k now c Hk Hpl) as Hsd. fold uid in Hsd. rewrite Hsd. fold d. cbn [lf_fs upd eta_expand eta_Provider].
    rewrite (mkdirAll_made root _ d Hr) by (left; by apply vacant_child). fold f1.
    cbn [lf_fs upd eta_expand eta_Provider]. rewrite joinPath_plain by done.
    rewrite writeNode_child; [reflexivity|by apply through_isDir|by rewrite Hf1].
  - cbn [lf_fs upd eta_expand eta_Provider]. by apply through_insert.
  - cbn [lf_fs upd eta_expand eta_Provider]. eapply (outside_weaken root (mdir k) [uid]). eapply outside_trans; [apply outside_made|].
    rewrite <- app_assoc. apply outside_insert.
Qed.

Lemma AbortMultipart_staged p k t c : K k -> plainID (stamp t c) -> exists p',
  AbortMultipart root (mkMultipartUpload k (stamp t c)) p = (p', Ok tt) /\ outside root (mdir k) (lf_fs p) (lf_fs p').
Proof.
  intros Hk Hp. eexists. split.
  - unfold AbortMultipart, fsDo. cbn [mu_Key mu_UploadID]. unroll. rewrite (keys_valid k Hk). reflexivity.
  - cbn [lf_fs upd eta_expand eta_Provider]. rewrite (staging_dir k t c Hk Hp).
    eapply (outside_weaken root (mdir k) [stamp t c]). apply outside_removeAll.
Qed.

Lemma SignUploadPart_staged p k t c n len now : K k -> plainID (stamp t c) -> stagedDir (lf_fs p) k (stamp t c) -> exists url,
  SignUploadPart root now (mkSignPartRequest (mkMultipartUpload k (stamp t c)) n len) p
    = (p, Ok (mkSignedRequest url ∅ (now + 15 * Minute))) /\ url <> "".
Proof.
  intros Hk Hp Hu. eexists. split.
  - unfold SignUploadPart, fsGet. cbn [sp_Upload sp_PartNumber mu_Key mu_UploadID]. unroll. rewrite (staging_dir k t c Hk Hp), (stat_through _ _ Hu). reflexivity.
  - done.
Qed.
End staged.

(** The listing of the uploads sees those of keys of one component. *)
Lemma ListUploads_staged root p k t c : flat k -> stagedDir root (lf_fs p) k (stamp t c) -> exists page,
  ListMultipartUploads root (mkListUploadsRequest k "" 0) p = (p, Ok page) /\ mkMultipartUpload k (stamp t c) ∈ ul_Uploads page.
Proof.
  intros Hk Ht. unfold stagedDir in Ht. rewrite flat_comps in Ht by done. cbn [app] in Ht.
  assert (Hd : through (lf_fs p) (root ++ ["_multipart"])) by (apply (through_prefix _ _ [k; stamp t c]); by rewrite <- app_assoc).
  assert (Hkd : through (lf_fs p) (root ++ ["_multipart"; k])) by (apply (through_prefix _ _ [stamp t c]); by rewrite <- app_assoc).
  unfold ListMultipartUploads, readDir. rewrite (stat_through _ _ Hd). cbn [lu_Prefix lu_Cursor lu_MaxKeys].
  rewrite bool_decide_true by done. change (0 <? 0) with false. cbn [andb]. eexists. split; [reflexivity|]. cbn [ul_Uploads].
  rewrite sort_Slice_perm. unfold uploadsOf. apply list_elem_of_join. eexists. split; [|apply list_elem_of_fmap; exists (k, Dir); split; [reflexivity|]].
  - cbn [fst snd]. pose proof (HasPrefix_app k "") as Hp. assert (Hkk : k +:+ "" = k) by (clear; induction k as [|x k IH]; [done|]; exact (f_equal (String x) IH)).
    rewrite Hkk in Hp. rewrite Hp, andb_false_r. unfold readDir. rewrite (stat_through _ _ Hkd).
    apply list_elem_of_omap. exists (stamp t c, Dir). split; [|done]. apply elem_of_children, through_at; [by rewrite <- app_assoc|by destruct root].
  - apply elem_of_children. rewrite <- app_assoc. apply through_at; [exact Hkd|by destruct root].
Qed.
