(* ===== verification/ContractLocal.v ===== *)
(** * The local provider passes the conformance suite

    From any root directory in which nothing lies under the keys of the suite,
    and for any clock that moves on. The lemmas give every method of
    [LocalFsDev] that the suite calls its success: what is needed for it to
    return without an error, and the versions the key has then. *)
From Stdlib Require Import Strings.Ascii.
From S2P Require Import Prelude GoStd Sha256 BlobStore Contract Fs LocalFsDev LocalStore LocalDirs LocalVersions.
Local Open Scope Z_scope.

(** The provider rooted at [root] as an adapter; only some methods read the
    clock. *)
Definition Local_BlobStore (root : path) : BlobStore Provider := {|
  bl_Store := Local_Store root; bl_Delete := Delete root; bl_PurgeAllVersions := fun _ => PurgeAllVersions root;
  bl_SignUploadPart := SignUploadPart root; bl_CopyWithinProvider := CopyWithinProvider root;
  bl_GetRetention := fun _ => GetRetention root; bl_UpdateRetention := fun _ => UpdateRetention root;
  bl_SetLegalHold := fun _ => SetLegalHold root; bl_Capabilities := Capabilities |}.
Definition Local_BlobInventory (root : path) : BlobInventory Provider := {|
  iv_ListObjects := fun _ => ListObjects root; iv_ListObjectVersions := fun _ => ListObjectVersions root;
  iv_DeleteVersion := fun _ => DeleteVersion root; iv_ListMultipartUploads := fun _ => ListMultipartUploads root;
  iv_ListParts := fun _ => ListParts root;
  iv_DeleteBatch := fun _ refs p => let (p, r) := DeleteBatch root refs p in (p, Ok r) |}.

Section passes.
Context (root : path) (clock : nat -> Time).
#[local] Instance local_BlobStore : BlobStore Provider := Local_BlobStore root.
#[local] Instance local_BlobInventory : BlobInventory Provider := Local_BlobInventory root.

(** Far more readings than the suite makes; it is over within three days. *)
Definition readings : nat := 60.
Definition moves_on : Prop := forall i j, (i < j <= readings)%nat -> 0 <= clock i < clock j /\ clock j < clock i + 3 * Day /\ clock j < 2 ^ 63.

(** Nothing lies under any of the keys [ks]. *)
Definition ready (ks : list string) (p : Provider) : Prop :=
  through (lf_fs p) root /\ forall k, k ∈ ks -> flat k /\ vacant root (lf_fs p) (comps k) /\ vacant root (lf_fs p) ("_multipart" :: comps k).

Lemma ready_sub ks ks' p : (forall k, k ∈ ks' -> k ∈ ks) -> ready ks p -> ready ks' p.
Proof. intros Hs [Hr Hk]. split; [done|]. intros k Hin. by apply Hk, Hs. Qed.

Lemma keeps_root (k : string) (f f' : fs doc) : outside root (comps k) f f' -> through f root -> through f' root.
Proof. intros Ho. eapply outside_root; [exact Ho|apply Split_nonempty]. Qed.
Lemma ready_outside k ks p p' : outside root (comps k) (lf_fs p) (lf_fs p') -> flat k -> k ∉ ks -> ready ks p -> ready ks p'.
Proof.
  intros Ho Hf Hn [Hr Hks]. split; [by eapply keeps_root|]. intros k' Hin.
  destruct (Hks k' Hin) as (Hk' & Hu & Hs). assert (k <> k') by congruence. split; [done|].
  split; (eapply outside_vacant; [|exact Ho|done]); [by apply (keys_apart (K := flat) k k')|by apply (keys_apart_staging (K := flat) k)].
Qed.

Lemma ready_stage k ks p p' : outside root ("_multipart" :: comps k) (lf_fs p) (lf_fs p') -> flat k -> k ∉ ks -> ready ks p -> ready ks p'.
Proof.
  intros Ho Hf Hn [Hr Hks]. split; [by eapply outside_root|]. intros k' Hin.
  destruct (Hks k' Hin) as (Hk' & Hu & Hs). assert (k <> k') by congruence. split; [done|].
  split; (eapply outside_vacant; [|exact Ho|done]); [by apply apart_sym, (keys_apart_staging (K := flat) k')|].
  by apply (apart_app ["_multipart"]), (keys_apart (K := flat) k k').
Qed.

(** ** Running a test

    [wp m s Q]: the part [m] of a test, started in [s], does not stop, and [Q]
    holds of what it leaves. *)
Definition wp {A} (m : T Provider A) (s : testState Provider) (Q : A -> testState Provider -> Prop) : Prop :=
  exists s' a, m s = (s', Some a) /\ Q a s'.

Lemma wp_ret {A} (a : A) s (Q : A -> testState Provider -> Prop) : Q a s -> wp (mret a) s Q.
Proof. intros HQ. by exists s, a. Qed.
Lemma wp_bind {A B} (m : T Provider A) (k : A -> T Provider B) s Q : wp m s (fun a s' => wp (k a) s' Q) -> wp (m ≫= k) s Q.
Proof.
  intros (s1 & a & Hm & s2 & b & Hk & HQ). exists s2, b. split; [|done]. unfold mbind, T_bind. by rewrite Hm.
Qed.
Lemma wp_mono {A} (m : T Provider A) s (Q Q' : A -> testState Provider -> Prop) : (forall a s', Q a s' -> Q' a s') -> wp m s Q -> wp m s Q'.
Proof. intros HQ (s' & a & Hm & Ha). exists s', a. split; [done|by apply HQ]. Qed.
Lemma wp_call {A} (f : Time -> M Provider A) p n fl p' r (Q : result A -> testState Provider -> Prop) :
  f (clock n) p = (p', r) -> Q r (mkTestState p' (S n) fl) -> wp (call clock f) (mkTestState p n fl) Q.
Proof. intros Hf HQ. eexists _, r. split; [|exact HQ]. unfold call. cbn [te_calls te_store te_failures]. by rewrite Hf. Qed.
Lemma wp_now p n fl (Q : Time -> testState Provider -> Prop) : Q (clock n) (mkTestState p (S n) fl) -> wp (now clock) (mkTestState p n fl) Q.
Proof. intros HQ. by eexists _, _. Qed.
Lemma wp_ok {A} msg (a : A) s (Q : A -> testState Provider -> Prop) : Q a s -> wp (orFatal msg (Ok a)) s Q.
Proof. apply wp_ret. Qed.
Lemma wp_fine b msg s (Q : unit -> testState Provider -> Prop) : b = false -> Q tt s -> wp (errorIf b msg) s Q.
Proof. intros ->. apply wp_ret. Qed.
Lemma wp_expected {A} (e : error) (x : sentinel) m1 m2 s (Q : unit -> testState Provider -> Prop) :
  errors_Is e x = true -> Q tt s -> wp (expectErr (A := A) (Err e) x m1 m2) s Q.
Proof. intros He HQ. unfold expectErr. apply wp_fine; [by rewrite He|done]. Qed.

(** What a test leaves: no new report, [m] readings more, and the keys of the
    tests to come as they were. *)
Definition left (n : nat) (fl : list string) (ks : list string) {A} : A -> testState Provider -> Prop := fun _ s =>
  te_calls s = n /\ te_failures s = fl /\ ready ks (te_store s).
Definition passes (test : T Provider unit) (ks : list string) (m : nat) : Prop := forall p n fl ks',
  (n + m <= readings)%nat -> NoDup (ks ++ ks') -> ready (ks ++ ks') p ->
  wp test (mkTestState p n fl) (left (n + m) fl ks').

Hypothesis Hclock : moves_on.

Lemma after_nil n : (n < readings)%nat -> after (clock n) [].
Proof. intros Hn. destruct (Hclock n (S n)) as (? & ? & ?); [unfold readings in *; lia|]. split; [constructor|lia]. Qed.
Lemma after_one v i n : wtime v = clock i -> (i < n <= readings)%nat -> after (clock n) [v].
Proof. intros Hv Hi. destruct (Hclock i n Hi) as (? & ? & ?). split; [repeat constructor; lia|lia]. Qed.

(** [putObject] on the versions of a key. *)
Definition putVer (k : string) (c : Z) (b : bytes) (t : Time) : ver := newVer k c b octets zeroRetentionSpec t.
Lemma wp_put p n fl k b vs (Q : result PutResult -> testState Provider -> Prop) :
  through (lf_fs p) root -> flat k -> versions root (lf_fs p) k vs -> after (clock n) vs ->
  (forall p' c, holds root (lf_fs p') k (vs ++ [putVer k c b (clock n)]) -> outside root (comps k) (lf_fs p) (lf_fs p') ->
     through (lf_fs p') root -> Q (Ok (resultOf (putVer k c b (clock n)))) (mkTestState p' (S n) fl)) ->
  wp (putObject clock k b) (mkTestState p n fl) Q.
Proof.
  intros Hr Hk Hv Ha HQ. destruct (Put_versions root p k vs (clock n) (mkPutRequest k (Some (bytes_NewReader b)) (len b) (sha256_hex b)
    octets k "" "" "" zeroRetentionSpec false) b Hr Hk Hv Ha eq_refl eq_refl eq_refl eq_refl (or_intror eq_refl)) as (p' & c & Hp & Hh & Ho).
  eapply wp_call; [exact Hp|]. apply HQ; [done|done|by eapply keeps_root].
Qed.

(** [getAll] of the latest version. *)
Lemma wp_get p n fl k vs v b rng b' msg (Q : bytes * ObjectMeta -> testState Provider -> Prop) :
  through (lf_fs p) root -> flat k -> holds root (lf_fs p) k (vs ++ [v]) -> v.2 = Some b ->
  match rng with None => b' = b | Some r => rangeBytes r b = Ok b' end ->
  Q (b', sidecarToMeta v.1) (mkTestState p (S n) fl) ->
  wp (getAll clock (mkGetRequest (latest k) rng) msg) (mkTestState p n fl) Q.
Proof.
  intros Hr Hk Hh Hb Hrng HQ. unfold getAll. apply wp_bind. eapply wp_call; [exact (Get_versions root p k vs v b (clock n) rng b' Hr Hk Hh Hb Hrng)|].
  apply wp_bind, wp_ok, wp_bind. exact (wp_ok _ b' _ _ (wp_ret _ _ _ HQ)).
Qed.

(** The first key of a test. *)
Lemma ready_first k ks p : ready (k :: ks) p ->
  through (lf_fs p) root /\ flat k /\ versions root (lf_fs p) k [] /\ vacant root (lf_fs p) ("_multipart" :: comps k) /\ ready ks p.
Proof.
  intros Hr. pose proof Hr as [Ht Hk]. destruct (Hk k ltac:(set_solver)) as (Hf & Hu & Hs). split; [done|]. split; [done|].
  split; [by right|]. split; [done|]. eapply ready_sub; [|done]. set_solver.
Qed.

(** The start of a test: put a body under a fresh key. *)
Lemma wp_put_first p n fl k ks b (Q : result PutResult -> testState Provider -> Prop) :
  ready (k :: ks) p -> k ∉ ks -> (n < readings)%nat ->
  (forall p' c, flat k -> through (lf_fs p') root -> holds root (lf_fs p') k [putVer k c b (clock n)] -> ready ks p' ->
     outside root (comps k) (lf_fs p) (lf_fs p') -> Q (Ok (resultOf (putVer k c b (clock n)))) (mkTestState p' (S n) fl)) ->
  wp (putObject clock k b) (mkTestState p n fl) Q.
Proof.
  intros Hr Hn Hlt HQ. destruct (ready_first _ _ _ Hr) as (Ht & Hf & Hv & _ & Hr').
  eapply wp_put; [done|done|exact Hv|by apply after_nil|]. intros p' c Hh Ho Ht'. apply HQ; [done|done|done| |done]. by eapply ready_outside.
Qed.

(** One step of a test: the next part of it. *)
Ltac part := apply wp_bind.
(** A check of a value the step before has shown to be right. *)
Ltac fine := apply wp_fine; [cbn; rewrite ?Z.eqb_refl, ?bool_decide_true by done; try done|].

Lemma putVer_id k c b t : vid (putVer k c b t) = stamp t c. Proof. done. Qed.

Lemma PutGetHeadDelete_passes : passes (testPutGetHeadDelete clock) [randomKey "putget"] 5.
Proof.
  intros p n fl ks' Hn Hd Hr. unfold testPutGetHeadDelete. set (key := randomKey "putget"). set (body := text _). cbv zeta.
  apply NoDup_cons in Hd as [Hk _]. cbn [app] in Hr.
  part. eapply wp_put_first; [exact Hr|exact Hk|lia|]. intros p1 c Hf Ht Hh Hr1 Ho1. set (v := putVer key c body (clock n)) in *.
  part. apply wp_ok. part. apply wp_fine; [cbn; by rewrite bool_decide_true|].
  part. apply wp_fine; [cbn; by rewrite Z.eqb_refl|].
  part. apply wp_fine; [apply bool_decide_false, stamp_nonempty|].
  part. apply wp_fine; [apply bool_decide_false, sha256_hex_nonempty|].
  part. destruct (Head_versions root p1 key [] v (clock (S n)) Ht Hf Hh) as (e & He & _). eapply wp_call; [exact He|]. cbv iota beta.
  part. apply wp_ok. part. apply wp_fine; [cbn; by rewrite Z.eqb_refl|].
  part. eapply (wp_get _ _ _ _ [] v body None body); [done|done|done|done|done|].
  part. apply wp_fine; [unfold bytes_Equal; by rewrite bool_decide_true|].
  part. apply wp_fine; [cbn; by rewrite Z.eqb_refl|].
  destruct (Delete_versions root p1 key [v] (clock (S (S (S n)))) Ht Hf (or_introl Hh) ltac:(done)) as (p2 & c2 & Hdel & Hh2 & Ho2).
  { apply (after_one v n); [done|lia]. }
  part. eapply wp_call; [exact Hdel|]. part. apply wp_ok.
  part. destruct (Head_versions root p2 key [v] _ (clock (S (S (S (S n))))) (keeps_root _ _ _ Ho2 Ht) Hf Hh2) as (e2 & He2 & Hnf).
  eapply wp_call; [exact He2|]. cbv iota beta. cbn [marker snd]. apply wp_expected; [done|].
  split; [cbn; lia|]. split; [done|]. by eapply ready_outside.
Qed.

(** The beginning of a test with one key, up to its first [putObject]. *)
Ltac begin := intros p n fl ks' Hn Hd Hr; cbn [app] in Hd, Hr; apply NoDup_cons in Hd as [Hk Hd]; cbv zeta.
Ltac put_first := part; eapply wp_put_first; [eassumption|eassumption|lia|]; intros p1 c Hf Ht Hh Hr1 Ho1.
(** The end: the readings counted, nothing reported. *)
Ltac leave := split; [cbn; lia|]; split; [done|].

Lemma ConditionalPut_passes : passes (testConditionalPut clock) [randomKey "cond"] 2.
Proof.
  unfold testConditionalPut. generalize (randomKey "cond") as key. intros key. begin. put_first. part. apply wp_ok.
  destruct (Put_exists root p1 key _ (clock (S n)) (mkPutRequest key (Some (bytes_NewReader (text "second"))) 5 (sha256_hex (text "second"))
    "" "" "" "" "" zeroRetentionSpec true) Ht Hf (or_introl Hh)) as (e & He & Hx); [done|done|by eexists|done|].
  part. eapply wp_call; [exact He|]. apply wp_fine; [by rewrite Hx|]. by leave.
Qed.

Lemma ByteRange_passes : passes (testByteRange clock) [randomKey "range"] 2.
Proof.
  unfold testByteRange. generalize (randomKey "range") as key. intros key. begin. put_first. part. apply wp_ok.
  part. eapply (wp_get _ _ _ _ [] _ (text "0123456789abcdef") (Some (mkByteRange 4 7)) (text "4567")); [done|done|exact Hh|done|reflexivity|].
  apply wp_fine; [unfold bytes_Equal; by rewrite bool_decide_true|]. by leave.
Qed.

Lemma ChecksumVerification_passes : passes (testChecksumVerification clock) [randomKey "checksum"] 2.
Proof.
  unfold testChecksumVerification. generalize (randomKey "checksum") as key. intros key. begin. put_first. part. apply wp_ok.
  part. eapply (wp_get _ _ _ _ [] _ (text "checksum me") None); [done|done|exact Hh|done|reflexivity|].
  apply wp_fine; [|by leave]. cbn [sidecarToMeta om_ChecksumSHA256]. rewrite (bool_decide_true (_ = sha256_hex _)) by done. by rewrite andb_false_r.
Qed.

(** Two versions under a fresh key. *)
Lemma wp_putTwo p n fl k ks (Q : PutResult * PutResult -> testState Provider -> Prop) :
  ready (k :: ks) p -> k ∉ ks -> (S n < readings)%nat ->
  (forall p' c c', let v := putVer k c (text "v1") (clock n) in let w := putVer k c' (text "v2") (clock (S n)) in
     flat k -> through (lf_fs p') root -> holds root (lf_fs p') k [v; w] -> ready ks p' ->
     Q (resultOf v, resultOf w) (mkTestState p' (S (S n)) fl)) ->
  wp (putTwo clock k) (mkTestState p n fl) Q.
Proof.
  intros Hr Hk Hn HQ. unfold putTwo. put_first. part. apply wp_ok. part.
  eapply wp_put; [exact Ht|exact Hf|by left|eapply after_one; [done|lia]|]. intros p2 c2 Hh2 Ho2 Ht2.
  part. apply wp_ok. apply wp_ret. apply HQ; [done|done|done|]. by eapply ready_outside.
Qed.

Lemma PurgeAllVersions_passes : passes (testPurgeAllVersions clock) [randomKey "purge"] 4.
Proof.
  unfold testPurgeAllVersions. generalize (randomKey "purge") as key. intros key. begin.
  part. eapply wp_putTwo; [exact Hr|exact Hk|lia|]. intros p1 c c' v w Hf Ht Hh Hr1.
  destruct (Purge_versions root p1 key [v; w] Hf Hh) as (p2 & Hp & Hu & Ho).
  part. eapply wp_call; [exact Hp|]. part. apply wp_ok.
  part. eapply wp_call; [apply (ListVersions_versions root p2 key []); [by eapply keeps_root|done|by right|done]|].
  part. apply wp_ok. apply wp_fine; [done|]. leave. by eapply ready_outside.
Qed.

Lemma CopyWithinProvider_passes : passes (testCopyWithinProvider clock) [randomKey "copysrc"; randomKey "copydst"] 3.
Proof.
  unfold testCopyWithinProvider. generalize (randomKey "copysrc") as src. generalize (randomKey "copydst") as dst. intros dst src. begin.
  put_first. part. apply wp_ok. apply NoDup_cons in Hd as [Hk2 _].
  destruct (ready_first _ _ _ Hr1) as (_ & Hfd & Hvd & _ & Hr1').
  destruct (Copy_versions root p1 src dst [] _ _ [] (clock (S n)) zeroRetentionSpec Ht Hf Hfd Hh eq_refl Hvd) as (p2 & c2 & Hc & Hh2 & Ho2).
  { apply after_nil. lia. }
  part. eapply wp_call; [exact Hc|]. part. apply wp_ok. part. apply wp_fine; [cbn; by rewrite bool_decide_true|].
  part. eapply (wp_get _ _ _ _ [] _ (text "copy this payload") None); [by eapply keeps_root|done|exact Hh2|done|reflexivity|].
  apply wp_fine; [unfold bytes_Equal; by rewrite bool_decide_true|]. leave. by eapply ready_outside.
Qed.

(** One version under each of some fresh keys. *)
Definition stored (p : Provider) (k : string) : Prop := flat k /\ exists v, holds root (lf_fs p) k [v] /\ is_Some v.2.

Lemma stored_outside k k' p p' : flat k -> k <> k' -> outside root (comps k) (lf_fs p) (lf_fs p') -> stored p k' -> stored p' k'.
Proof.
  intros Hk Hn Ho (Hf & v & Hh & Hv). split; [done|]. exists v. split; [|done].
  by destruct (outside_versions root (comps k) k' _ _ [v] (Split_nonempty k _) (keys_apart (K := flat) k k' Hk Hf Hn) Ho (or_introl Hh)) as [?|[? _]].
Qed.

Lemma wp_putNumbered before ks ks' p n fl (Q : unit -> testState Provider -> Prop) :
  Forall (stored p) before -> ready (ks ++ ks') p -> NoDup (before ++ ks ++ ks') -> (n + length ks <= readings)%nat ->
  (forall p', Forall (stored p') (before ++ ks) -> through (lf_fs p') root -> ready ks' p' -> Q tt (mkTestState p' (n + length ks) fl)) ->
  wp (putNumbered clock ks) (mkTestState p n fl) Q.
Proof.
  revert before p n. induction ks as [|k ks IH]; intros before p n Hb Hr Hd Hn HQ; cbn [putNumbered].
  - apply wp_ret. rewrite <- (Nat.add_0_r n). apply HQ; [by rewrite app_nil_r|apply Hr|done].
  - cbn [app length] in *. assert (Hk : k ∉ ks ++ ks') by (apply NoDup_app in Hd as (_ & _ & Hd); by apply NoDup_cons in Hd as [? _]).
    assert (Hkb : k ∉ before) by (apply NoDup_app in Hd as (_ & Hd & _); intros Hin; apply (Hd k Hin); by left).
    put_first. part. apply wp_ok. rewrite cons_middle, app_assoc in Hd. apply (IH (before ++ [k])); [|done|done|lia|].
    + apply Forall_app. split; [|apply Forall_singleton; split; [done|by eexists]]. rewrite Forall_forall in Hb |- *. intros k' Hin.
      eapply stored_outside; [exact Hf| |exact Ho1|by apply Hb]. congruence.
    + intros p' Hs Hr' Hks. rewrite <- app_assoc in Hs. replace (S n + length ks)%nat with (n + S (length ks))%nat by lia. by apply HQ.
Qed.

Lemma InventoryListObjects_passes : passes (testInventoryListObjects clock) (map (fun i : Z => listPrefix +:+ "-" +:+ pretty i) [0; 1; 2]) 4.
Proof.
  intros p n fl ks' Hn Hd Hr. unfold testInventoryListObjects. set (ks := map _ _) in *.
  part. eapply (wp_putNumbered []); [constructor|exact Hr|exact Hd|change (length ks) with 3%nat; lia|]. intros p1 Hs Ht Hr1.
  destruct (ListObjects_versions root p1 listPrefix ks) as (page & Hp & Hl).
  { done. } { by apply NoDup_app in Hd as [? _]. } { done. }
  { intros k Hk. rewrite Forall_forall in Hs. destruct (Hs k Hk) as (Hf & v & Hh & Hv). split; [done|]. split; [|by exists [], v].
    apply list_elem_of_fmap in Hk as (i & -> & _). apply HasPrefix_app. }
  part. eapply wp_call; [exact Hp|]. part. apply wp_ok. apply wp_fine; [|by leave]. apply Z.ltb_ge. exact Hl.
Qed.

Lemma InventoryListVersions_passes : passes (testInventoryListVersions clock) [randomKey "versions"] 3.
Proof.
  unfold testInventoryListVersions. generalize (randomKey "versions") as key. intros key. begin.
  part. eapply wp_putTwo; [exact Hr|exact Hk|lia|]. intros p1 c c' v w Hf Ht Hh Hr1.
  part. eapply wp_call; [by apply (ListVersions_versions root p1 key [v; w] _ Ht Hf (or_introl Hh))|].
  part. apply wp_ok. apply wp_fine; [done|]. by leave.
Qed.

Lemma DeleteBatch_two a b p p1 p2 : DeleteVersion root a p = (p1, Ok tt) -> DeleteVersion root b p1 = (p2, Ok tt) ->
  iv_DeleteBatch (clock 0) [a; b] p = (p2, Ok (mkBatchDeleteResult [a; b] [])).
Proof. intros Ha Hb. cbn [iv_DeleteBatch local_BlobInventory Local_BlobInventory DeleteBatch]. by rewrite Ha, Hb. Qed.

Lemma InventoryBatchDelete_passes : passes (testInventoryBatchDelete clock) [randomKey "batchdel"] 3.
Proof.
  unfold testInventoryBatchDelete. generalize (randomKey "batchdel") as key. intros key. begin.
  part. eapply wp_putTwo; [exact Hr|exact Hk|lia|]. intros p1 c c' v w Hf Ht Hh Hr1.
  destruct (DeleteVersion_versions root p1 key [] v [w] Ht Hf Hh) as (p2 & Hd1 & Hh2 & Ho2).
  pose proof (keeps_root _ _ _ Ho2 Ht) as Ht2.
  destruct (DeleteVersion_versions root p2 key [] w [] Ht2 Hf Hh2) as (p3 & Hd2 & Hh3 & Ho3).
  part. eapply wp_call; [exact (DeleteBatch_two _ _ _ _ _ Hd1 Hd2)|].
  part. apply wp_ok. apply wp_fine; [done|]. leave. eapply ready_outside; [exact Ho3|done|done|]. by eapply ready_outside.
Qed.

(** [createMultipart] of a fresh key. *)
Lemma wp_createMultipart p n fl k ks ct (Q : MultipartUpload -> testState Provider -> Prop) :
  ready (k :: ks) p -> k ∉ ks -> (n < readings)%nat ->
  (forall p' c, flat k -> plainID (stamp (clock n) c) -> stagedDir root (lf_fs p') k (stamp (clock n) c) -> ready ks p' ->
     Q (mkMultipartUpload k (stamp (clock n) c)) (mkTestState p' (S n) fl)) ->
  wp (createMultipart clock k ct) (mkTestState p n fl) Q.
Proof.
  intros Hr Hk Hn HQ. destruct (ready_first _ _ _ Hr) as (Ht & Hf & _ & Hu & Hr').
  destruct (CreateMultipart_staged root p k (mkMultipartRequest k ct "" "" "" zeroRetentionSpec "") (clock n) Ht Hf Hu) as (p' & c & Hpl & Hc & Hs & Ho).
  { by apply after_nil. } { done. }
  part. eapply wp_call; [exact Hc|]. apply wp_ok. apply HQ; [done|done|done|]. by eapply ready_stage.
Qed.

Ltac create := part; eapply wp_createMultipart; [eassumption|eassumption|lia|]; intros p1 c Hf Hpl Hs Hr1.

Lemma Multipart_passes : passes (testMultipart clock) [randomKey "multipart"] 2.
Proof.
  unfold testMultipart. generalize (randomKey "multipart") as key. intros key. begin. create.
  part. apply wp_fine; [apply bool_decide_false, stamp_nonempty|].
  destruct (ListUploads_staged root p1 key (clock n) c Hf Hs) as (page & Hp & Hin).
  part. eapply wp_call; [exact Hp|]. part. apply wp_ok. apply wp_fine; [|by leave].
  apply negb_false_iff, existsb_exists. eexists. split; [by apply list_elem_of_In|]. by apply bool_decide_true.
Qed.

Lemma AbortMultipart_passes : passes (testAbortMultipart clock) [randomKey "abort"] 2.
Proof.
  unfold testAbortMultipart. generalize (randomKey "abort") as key. intros key. begin. create.
  destruct (AbortMultipart_staged root p1 key _ _ Hf Hpl) as (p2 & Ha & Ho).
  part. eapply wp_call; [exact Ha|]. apply wp_ok. leave. by eapply ready_stage.
Qed.

Lemma DirectStagingDisabled_passes : passes (testDirectStagingDisabled clock) [randomKey "staging"] 3.
Proof.
  unfold testDirectStagingDisabled. generalize (randomKey "staging") as key. intros key. begin. create.
  destruct (SignUploadPart_staged root p1 key _ _ 1 0 (clock (S n)) Hf Hpl Hs) as (url & Hu & Hne).
  destruct (AbortMultipart_staged root p1 key _ _ Hf Hpl) as (p2 & Ha & Ho).
  part. eapply wp_call; [exact Hu|]. part. part. apply wp_fine; [by apply bool_decide_false|]. apply wp_fine; [done|].
  part. eapply wp_call; [exact Ha|]. apply wp_ret. leave. by eapply ready_stage.
Qed.

(** ** Retention *)
Lemma extendUntil_later old t msg : 0 <= t -> rt_RetainUntil old <= t -> extendUntil old t msg = Ok (old <| rt_RetainUntil := t |>).
Proof.
  intros Ht Ho. unfold extendUntil, IsZero, Before. rewrite (proj2 (Z.eqb_neq t zeroTime)) by (unfold zeroTime; lia).
  rewrite (proj2 (Z.ltb_ge t _)) by lia. by rewrite andb_false_r.
Qed.
Lemma extendUntil_sooner old t msg : 0 <= t < rt_RetainUntil old -> extendUntil old t msg = Err (ErrWrap msg (ErrSentinel BsRetentionConflict)).
Proof.
  intros Ht. unfold extendUntil, IsZero, Before. rewrite !(proj2 (Z.eqb_neq _ zeroTime)) by (unfold zeroTime; lia).
  by rewrite (proj2 (Z.ltb_lt t _)) by lia.
Qed.

Lemma clock_before i j : (i < j <= readings)%nat -> 0 <= clock i < clock j /\ clock j < clock i + 3 * Day.
Proof. intros Hij. destruct (Hclock i j Hij) as (? & ? & ?). lia. Qed.

(** [putLocked] of a fresh key: the version is locked for a year. *)
Definition lockedVer (k : string) (c : Z) (b : bytes) (mode : RetentionMode) (n : nat) : ver :=
  newVer k c b octets (mkRetentionSpec mode (clock n + 365 * Day) false) (clock (S n)).
Lemma wp_putLocked p n fl k ks b mode msg (Q : VersionedObjectRef -> testState Provider -> Prop) :
  ready (k :: ks) p -> k ∉ ks -> (S n < readings)%nat -> mode <> "" -> mode <> RetentionNone ->
  (forall p' c, let v := lockedVer k c b mode n in flat k -> holds root (lf_fs p') k [v] -> ready ks p' ->
     sc_Retention v.1 = mkRetentionState mode (clock n + 365 * Day) false ->
     Q (mkVersionedObjectRef k (vid v)) (mkTestState p' (S (S n)) fl)) ->
  wp (putLocked clock k b mode msg) (mkTestState p n fl) Q.
Proof.
  intros Hr Hk Hn Hm Hm' HQ. destruct (ready_first _ _ _ Hr) as (Ht & Hf & Hv & _ & Hr'). destruct (clock_before n (S n)) as [Hc _]; [unfold readings in *; lia|].
  part. part. apply wp_now, wp_ret.
  destruct (Put_versions root p k [] (clock (S n)) (mkPutRequest k (Some (bytes_NewReader b)) (len b) "" octets "" "" "" ""
    (mkRetentionSpec mode (clock n + 365 * Day) false) false) b Ht Hf Hv) as (p' & c & Hp & Hh & Ho); [by apply after_nil|done..|by left|].
  part. eapply wp_call; [exact Hp|]. part. apply wp_ok. apply wp_ret. apply HQ; [done|done|by eapply ready_outside|].
  cbn. unfold newRetention, effectiveRetentionMode. cbn [rs_Mode rs_RetainUntil rs_LegalHold]. rewrite !bool_decide_false by done.
  cbn. unfold IsZero. rewrite (proj2 (Z.eqb_neq _ zeroTime)) by (unfold zeroTime, Day, Hour, Minute, Second, Millisecond; lia). done.
Qed.

(** [UpdateRetention] of the only version of a key: done or refused. *)
Lemma wp_update p n fl k ks v req rt (Q : result RetentionState -> testState Provider -> Prop) :
  flat k -> holds root (lf_fs p) k [v] -> ready ks p -> k ∉ ks -> ru_Ref req = mkVersionedObjectRef k (vid v) ->
  updatedRetention (sc_Retention v.1) req = Ok rt ->
  (forall p', holds root (lf_fs p') k [withRetention v rt] -> ready ks p' -> Q (Ok rt) (mkTestState p' (S n) fl)) ->
  wp (call clock (fun t => bl_UpdateRetention t req)) (mkTestState p n fl) Q.
Proof.
  intros Hf Hh Hr Hk Hq Hu HQ. pose proof (UpdateRetention_versions root p k [] v [] req Hf Hh Hq) as H. rewrite Hu in H.
  destruct H as (p' & Hp & Hh' & Ho). eapply wp_call; [exact Hp|]. apply HQ; [done|by eapply ready_outside].
Qed.
Lemma wp_refused p n fl k v req e (Q : result RetentionState -> testState Provider -> Prop) :
  flat k -> holds root (lf_fs p) k [v] -> ru_Ref req = mkVersionedObjectRef k (vid v) ->
  updatedRetention (sc_Retention v.1) req = Err e -> Q (Err e) (mkTestState p (S n) fl) ->
  wp (call clock (fun t => bl_UpdateRetention t req)) (mkTestState p n fl) Q.
Proof.
  intros Hf Hh Hq Hu HQ. pose proof (UpdateRetention_versions root p k [] v [] req Hf Hh Hq) as H. rewrite Hu in H.
  eapply wp_call; [exact H|done].
Qed.

Lemma updated_governance old req : rt_Mode old = RetentionGovernance -> ru_Mode req = RetentionGovernance -> ru_ClearRetention req = false ->
  updatedRetention old req = extendUntil old (ru_RetainUntil req) "local_fs_dev: %w: cannot shorten retention".
Proof. destruct old as [m u h]. cbn. intros -> Hm Hc. unfold updatedRetention. cbn. rewrite Hc, Hm. done. Qed.

Ltac day := unfold Day, Hour, Minute, Second, Millisecond in *; lia.

Lemma Retention_passes : passes (testRetention clock) [randomKey "retention"; randomKey "compliance"] 12.
Proof.
  unfold testRetention. generalize (randomKey "retention") as k1. generalize (randomKey "compliance") as k2. intros k2 k1. begin.
  destruct (clock_before n (3 + n)) as [? ?]; [lia|]. destruct (clock_before n (5 + n)) as [? ?]; [lia|].
  destruct (clock_before (3 + n) (5 + n)) as [? ?]; [lia|]. destruct (clock_before (7 + n) (9 + n)) as [? ?]; [lia|]. cbn [Nat.add] in *.
  part. eapply wp_putLocked; [exact Hr|exact Hk|lia|done|done|]. intros p1 c v Hf Hh Hr1 Hrt.
  part. eapply wp_call; [eapply (GetRetention_versions (K := flat) root); [done|exact Hh|by apply list_elem_of_singleton]|]. rewrite Hrt.
  part. apply wp_ok. part. apply wp_fine; [done|].
  part. part. apply wp_now, wp_ret.
  part. eapply (wp_update _ _ _ _ _ _ _ (mkRetentionState RetentionGovernance (clock (3 + n) + 365 * Day + Day) false));
    [exact Hf|exact Hh|exact Hr1|exact Hk|done| |].
  { rewrite Hrt, updated_governance, extendUntil_later by (done || cbn; day). done. }
  intros p2 Hh2 Hr2. part. apply wp_fine; [done|]. part. apply wp_fine; [unfold IsZero; apply Z.eqb_neq; unfold zeroTime; cbn; day|].
  part. part. apply wp_now, wp_ret.
  part. eapply wp_refused; [exact Hf|exact Hh2|done| |].
  { cbn [withRetention fst sc_Retention upd]. rewrite updated_governance by done. apply extendUntil_sooner. cbn. day. }
  part. apply wp_expected; [done|]. apply NoDup_cons in Hd as [Hk2 _].
  part. eapply wp_putLocked; [exact Hr2|exact Hk2|lia|done|done|]. intros p3 c3 w Hf3 Hh3 Hr3 Hrt3.
  part. part. apply wp_now, wp_ret.
  part. eapply wp_update; [exact Hf3|exact Hh3|exact Hr3|exact Hk2|done| |].
  { rewrite Hrt3. unfold updatedRetention. cbn [rt_Mode ru_ClearRetention ru_RetainUntil ru_Mode]. rewrite bool_decide_true by done.
    rewrite extendUntil_later by (cbn; day). done. }
  intros p4 Hh4 Hr4. part. apply wp_fine; [done|].
  part. eapply wp_refused; [exact Hf3|exact Hh4|done| |].
  { done. }
  apply wp_expected; [done|]. by leave.
Qed.

Lemma LegalHold_passes : passes (testLegalHold clock) [randomKey "legalhold"] 3.
Proof.
  unfold testLegalHold. generalize (randomKey "legalhold") as key. intros key. begin. put_first. part. apply wp_ok.
  destruct (SetLegalHold_versions root p1 key [] _ [] true Hf Hh) as (p2 & Hs & Hh2 & Ho).
  part. eapply wp_call; [exact Hs|]. part. apply wp_ok.
  part. eapply wp_call; [exact (GetRetention_versions _ _ _ _ _ Hf Hh2 (proj2 (list_elem_of_singleton _ _) eq_refl))|].
  part. apply wp_ok. apply wp_fine; [done|]. leave. by eapply ready_outside.
Qed.
(** ** The suite *)

(** The keys of each test and the readings it makes. *)
Definition plan (a : Adapter) : list (list string * nat) :=
  [([randomKey "putget"], 5%nat); ([randomKey "cond"], 2%nat); ([randomKey "range"], 2%nat); ([randomKey "checksum"], 2%nat);
   ([randomKey "purge"], 4%nat); ([randomKey "copysrc"; randomKey "copydst"], 3%nat);
   (map (fun i : Z => listPrefix +:+ "-" +:+ pretty i) [0; 1; 2], 4%nat); ([randomKey "versions"], 3%nat); ([randomKey "batchdel"], 3%nat)] ++
  (if SkipMultipart a then [] else [([randomKey "multipart"], 2%nat); ([randomKey "abort"], 2%nat)]) ++
  (if SkipRetention a then [] else [([randomKey "retention"; randomKey "compliance"], 12%nat); ([randomKey "legalhold"], 3%nat)]) ++
  [([randomKey "staging"], 3%nat)].
Definition suiteKeys (a : Adapter) : list string := concat (map fst (plan a)).

Lemma suite_passes a : Forall2 (fun test '(ks, m) => passes test ks m) (suite clock a) (plan a).
Proof.
  unfold suite, plan. repeat apply Forall2_app.
  - repeat apply Forall2_cons_2; [apply PutGetHeadDelete_passes|apply ConditionalPut_passes|apply ByteRange_passes|
      apply ChecksumVerification_passes|apply PurgeAllVersions_passes|apply CopyWithinProvider_passes|apply InventoryListObjects_passes|
      apply InventoryListVersions_passes|apply InventoryBatchDelete_passes|constructor].
  - destruct (SkipMultipart a); [constructor|]. repeat apply Forall2_cons_2; [apply Multipart_passes|apply AbortMultipart_passes|constructor].
  - destruct (SkipRetention a); [constructor|]. repeat apply Forall2_cons_2; [apply Retention_passes|apply LegalHold_passes|constructor].
  - repeat apply Forall2_cons_2; [apply DirectStagingDisabled_passes|constructor].
Qed.

Lemma all_pass tests ps : Forall2 (fun test '(ks, m) => passes test ks m) tests ps -> forall p n fl,
  (n + sum_list (map snd ps) <= readings)%nat -> NoDup (concat (map fst ps)) -> ready (concat (map fst ps)) p ->
  te_failures (foldl (fun s test => (Run test s).1) (mkTestState p n fl) tests) = fl.
Proof.
  induction 1 as [|test [ks m] tests ps Ht _ IH]; intros p n fl Hn Hd Hr; [done|]. cbn [map fst snd concat foldl] in *.
  change (sum_list (m :: map snd ps)) with (m + sum_list (map snd ps))%nat in Hn.
  destruct (Ht p n fl _ ltac:(lia) Hd Hr) as ([p' n' fl'] & [] & Hm & [= ->] & [= ->] & Hr'). unfold Run at 2. rewrite Hm. cbn [fst].
  cbn [te_store] in Hr'. apply IH; [lia| |done]. by apply NoDup_app in Hd as (_ & _ & ?).
Qed.

Lemma suiteKeys_ok a : NoDup (suiteKeys a) /\ Forall flat (suiteKeys a) /\ (sum_list (map snd (plan a)) <= readings)%nat.
Proof.
  assert (Hb : bool_decide (NoDup (suiteKeys a)) && forallb (fun k => is_Ok (validateKey k) && negb (ContainsRune k "/"%char)) (suiteKeys a)
    && (sum_list (map snd (plan a)) <=? readings)%nat = true) by (destruct a as [[] []]; vm_compute; reflexivity).
  apply andb_true_iff in Hb as [[Hd Hf]%andb_true_iff Hs]. apply bool_decide_eq_true in Hd. apply Nat.leb_le in Hs. split; [done|]. split; [|done].
  apply Forall_forall. intros k Hk. rewrite forallb_forall in Hf. specialize (Hf k (proj1 (list_elem_of_In _ _) Hk)).
  apply andb_true_iff in Hf as [Hv Hc%negb_true_iff]. split; [|done]. by destruct (validateKey k) as [[]|].
Qed.

(** Nothing is there under the keys of the suite. *)
Definition unused (f : fs doc) (k : string) : Prop := forall q, f !! (root ++ k :: q) = None.
Definition unstaged (f : fs doc) (k : string) : Prop :=
  (f !! (root ++ ["_multipart"]) = None \/ f !! (root ++ ["_multipart"]) = Some Dir) /\
  forall q, f !! (root ++ "_multipart" :: k :: q) = None.
Definition fresh (a : Adapter) (p : Provider) : Prop :=
  through (lf_fs p) root /\ forall k, k ∈ suiteKeys a -> unused (lf_fs p) k /\ unstaged (lf_fs p) k.

Lemma unused_vacant f k : flat k -> unused f k -> vacant root f (comps k).
Proof.
  intros Hk Hu. rewrite flat_comps by done. split; [done|]. intros p r Heq Hp Hr. destruct p as [|x [|]]; [done| |done]. by destruct r.
Qed.
Lemma unstaged_vacant f k : flat k -> unstaged f k -> vacant root f ("_multipart" :: comps k).
Proof.
  intros Hk [Hd Hu]. rewrite flat_comps by done. split; [done|]. intros p r Heq Hp Hr.
  destruct p as [|x [|y [|]]]; [done| |by destruct r|done]. injection Heq as <- _. exact Hd.
Qed.

(** C16: the local provider passes the whole conformance suite, with no failure reported by any test, from any root
    directory that has nothing under the keys the suite uses and on any clock that moves on. *)
Theorem local_passes a p : fresh a p -> te_failures (RunSuite clock a (mkTestState p 0 [])) = [].
Proof.
  intros [Ht Hk]. destruct (suiteKeys_ok a) as (Hd & Hf & Hs). rewrite Forall_forall in Hf.
  apply (all_pass _ _ (suite_passes a)); [done|done|]. split; [done|]. intros k Hin. destruct (Hk k Hin). specialize (Hf k Hin). split_and!; [done|by apply unused_vacant|by apply unstaged_vacant].
Qed.
End passes.

(** From an empty file system, with a reading every second. *)
Lemma local_passes_witness : let a := mkAdapter false false in let clock := fun n : nat => Z.of_nat n * Second in
  let s := mkTestState (mkProvider {[["data"] := Dir]} 0) 0 [] in
  moves_on clock /\ fresh ["data"] a (te_store s) /\
  te_failures (@RunSuite Provider (Local_BlobStore ["data"]) (Local_BlobInventory ["data"]) clock a s) = [].
Proof.
  intros a clock s. assert (Hc : moves_on clock).
  { intros i j Hij. unfold readings in Hij. subst clock. cbv beta. unfold Day, Hour, Minute, Second, Millisecond. lia. }
  assert (Hf : fresh ["data"] a (te_store s)).
  { split.
    - intros p1 x p2 Heq. destruct p1 as [|y p1]; [|by destruct p1]. injection Heq as <- <-. reflexivity.
    - intros k _. split; [intros q|split; [left|intros q]]; cbn [te_store s lf_fs]; by rewrite lookup_singleton_ne. }
  split; [exact Hc|]. split; [exact Hf|]. exact (local_passes ["data"] clock Hc a _ Hf).
Defined.

(** The suite at work: an adapter that ignores [IfNoneMatch] is reported - but
    as answering another error, since the second put of [testConditionalPut]
    declares a length its body does not have. *)
Definition Unconditional_BlobStore (root : path) : BlobStore Provider := {|
  bl_Store := {| st_Put := fun t req => Put root t (req <| pq_IfNoneMatch := false |>); st_PutReads := putReads; st_Get := Get root;
    st_Head := Head root; st_CreateMultipart := CreateMultipart root; st_UploadPart := UploadPart root;
    st_CompleteMultipart := CompleteMultipart root; st_AbortMultipart := AbortMultipart root |};
  bl_Delete := Delete root; bl_PurgeAllVersions := fun _ => PurgeAllVersions root; bl_SignUploadPart := SignUploadPart root;
  bl_CopyWithinProvider := CopyWithinProvider root; bl_GetRetention := fun _ => GetRetention root;
  bl_UpdateRetention := fun _ => UpdateRetention root; bl_SetLegalHold := fun _ => SetLegalHold root; bl_Capabilities := Capabilities |}.
Example unconditional_reported :
  te_failures (@RunSuite Provider (Unconditional_BlobStore ["data"]) (Local_BlobInventory ["data"]) (fun n => Z.of_nat n * Second)
    (mkAdapter false false) (mkTestState (mkProvider {[["data"] := Dir]} 0) 0 [])) = ["Put with IfNoneMatch returned %v, want ErrPreconditionFailed"].
Proof. vm_compute. reflexivity. Qed.
