(* ===== verification/LocalUploads.v ===== *)
(** * The uploads of the local provider

    What a staged upload is to its clients: the request it was opened with and
    its parts by number. The lemmas give the calls on an upload as operations on
    that, beside the versions of [LocalVersions]. *)
From Stdlib Require Import Strings.Ascii.
From S2P Require Import Prelude GoStd Sha256 BlobStore Fs LocalFsDev LocalStore LocalDirs LocalVersions.
Local Open Scope Z_scope.

Record upload := mkUpload { up_meta : multipartMeta; up_parts : gmap Z bytes }.
#[export] Instance eta_upload : Eta upload := fun u => mkUpload (up_meta u) (up_parts u).

(** An identifier that names one directory. *)
Definition uidOk (v : string) : Prop := plainID v /\ v <> "" /\ v <> "." /\ v <> "..".

Section uploads.
Context (root : path) {K : string -> Prop} `{!Keys K}.
Implicit Types (f : fs doc).
Notation ud k uid := ("_multipart" :: comps k ++ [uid]).
Notation udir k uid := (root ++ ud k uid).

(** The files of an upload; nothing at all where there is none. *)
Definition staging f (k uid : string) (o : option upload) : Prop :=
  match o with
  | None => vacant root f (ud k uid)
  | Some u =>
      through f (udir k uid) /\
      f !! (udir k uid ++ ["upload.json"]) = Some (JFile (DUpload (up_meta u))) /\
      forall n, 1 <= n -> f !! (udir k uid ++ [partName n]) = File <$> up_parts u !! n
  end.
(** All uploads of the keys. *)
Definition stages f (ups : gmap (string * string) upload) : Prop :=
  forall k uid, K k -> uidOk uid -> staging f k uid (ups !! (k, uid)).

Lemma udir_eq k uid : K k -> uidOk uid -> multipartDir root k uid = udir k uid.
Proof. intros Hk (Hp & H1 & H2 & H3). apply multipartDir_valid; try done. by apply keys_valid. Qed.
Lemma stamp_uid t c : plainID (stamp t c) -> uidOk (stamp t c).
Proof. intros Hp. pose proof (stamp_long t c) as Hl. split; [done|]. split_and!; intros Heq; rewrite Heq in Hl; cbn in Hl; lia. Qed.
Lemma ud_apart k uid k' uid' : K k -> K k' -> (k', uid') <> (k, uid) -> apart (ud k uid) (ud k' uid').
Proof.
  intros Hk Hk' Hn. change (apart (["_multipart"] ++ (comps k ++ [uid])) (["_multipart"] ++ (comps k' ++ [uid']))). apply apart_app.
  destruct (decide (k = k')) as [<-|Hne]; [apply apart_snoc; congruence|]. by apply apart_below, keys_apart.
Qed.

(** What is apart from an upload leaves it alone. *)
Lemma staging_apart d k uid f f' o : d <> [] -> apart d (ud k uid) -> outside root d f f' -> staging f k uid o -> staging f' k uid o.
Proof.
  intros Hd Ha Ho. destruct o as [u|]; cbn [staging]; [|by eapply outside_vacant].
  intros (Ht & Hj & Hp). split; [by eapply outside_through|]. rewrite <- !app_assoc in Hj |- *. split.
  - by rewrite (outside_at root d (ud k uid) f f').
  - intros n Hn. specialize (Hp n Hn). rewrite <- app_assoc in Hp |- *. by rewrite (outside_at root d (ud k uid) f f').
Qed.
(** A change elsewhere, and a change of one upload. *)
Lemma stages_elsewhere k f f' ups : K k -> outside root (comps k) f f' -> stages f ups -> stages f' ups.
Proof.
  intros Hk Ho Hu k' uid Hk' Hid. eapply staging_apart; [..|exact Ho|by apply Hu]; [apply Split_nonempty|by apply keys_apart_staging].
Qed.
Lemma stages_alter k uid f f' ups ups' : K k -> outside root (ud k uid) f f' -> stages f ups -> staging f' k uid (ups' !! (k, uid)) ->
  (forall k' uid', (k', uid') <> (k, uid) -> ups' !! (k', uid') = ups !! (k', uid')) -> stages f' ups'.
Proof.
  intros Hk Ho Hu Hst Hother k' uid' Hk' Hid. destruct (decide ((k', uid') = (k, uid))) as [Heq|Hn]; [by injection Heq as -> ->|].
  rewrite Hother by done. eapply staging_apart; [..|exact Ho|by apply Hu]; [done|by apply ud_apart].
Qed.

(** ** The calls *)
Lemma Create_upload p ups req now : through (lf_fs p) root -> K (mq_Key req) -> stages (lf_fs p) ups -> 0 <= now < 2 ^ 63 ->
  (forall c, ups !! (mq_Key req, stamp now c) = None) ->
  exists p' c, let k := mq_Key req in let uid := stamp now c in
    CreateMultipart root now req p = (p', Ok (mkMultipartUpload k uid)) /\ uidOk uid /\ outside root (ud k uid) (lf_fs p) (lf_fs p') /\
    staging (lf_fs p') k uid (Some (mkUpload (mkMultipartMeta k uid (mq_ContentType req) (mq_ChecksumSHA256 req) (mq_Retention req) now) ∅)).
Proof.
  intros Hr Hk Hu Hn Hnew. destruct (newVersionID_stamp now p Hn) as (c & Hvid & Hpl). eexists _, c. cbn zeta.
  set (k := mq_Key req) in *. set (uid := stamp now c) in *. pose proof (stamp_uid now c Hpl : uidOk uid) as Hid.
  pose proof (Hu k uid Hk Hid) as Hnone. unfold uid in Hnone at 2. rewrite Hnew in Hnone. cbn [staging] in Hnone.
  set (f1 := made root (lf_fs p) (ud k uid)).
  assert (Hf1 : forall x, f1 !! (udir k uid ++ [x]) = None).
  { intros x. unfold f1. rewrite <- app_assoc, made_below. apply (proj1 Hnone). }
  assert (Ht1 : through f1 (udir k uid)) by by apply made_through.
  split; [|split; [done|split]].
  - unfold CreateMultipart. fold k. unroll. rewrite (keys_valid k Hk), Hvid. unfold fsDo, wrap. fold uid. rewrite (udir_eq k uid Hk Hid).
    cbn [lf_fs upd eta_expand eta_Provider]. rewrite (mkdirAll_made root _ (ud k uid) Hr) by by left. fold f1.
    cbn [lf_fs upd eta_expand eta_Provider]. rewrite joinPath_plain by done. rewrite writeNode_child; [reflexivity|by apply through_isDir|by rewrite Hf1].
  - cbn [lf_fs upd eta_expand eta_Provider]. eapply outside_trans; [apply outside_made|]. rewrite <- app_assoc. apply outside_insert.
  - cbn [lf_fs upd eta_expand eta_Provider staging up_meta up_parts]. split_and!; [by apply through_insert|by rewrite lookup_insert_eq|].
    intros n Hn1. rewrite lookup_empty, lookup_insert_ne; [apply Hf1|]. intros Heq%app_inv_head. rewrite partName_pos in Heq by lia. done.
Qed.

(** A part is written, even when its body fails on the way. *)
Lemma UploadPart_upload p k uid u n body now : K k -> uidOk uid -> staging (lf_fs p) k uid (Some u) -> 1 <= n -> exists p',
  UploadPart root now (mkUploadPartRequest (mkMultipartUpload k uid) n (Some body)) p =
    (p', match rd_err body with
         | Some e => Err (ErrWrap "local_fs_dev: write part: %w" e)
         | None => Ok (mkUploadedPart n (sha256_hex (rd_bytes body)) (len (rd_bytes body)))
         end) /\
  outside root (ud k uid) (lf_fs p) (lf_fs p') /\ staging (lf_fs p') k uid (Some (u <| up_parts := <[n := rd_bytes body]> (up_parts u) |>)).
Proof.
  intros Hk Hid (Hd & Hj & Hp) Hn. eexists. split; [|split].
  - unfold UploadPart. cbn [uq_Upload uq_PartNumber uq_Body mu_Key mu_UploadID]. unroll. rewrite (keys_valid k Hk), (proj2 (Z.ltb_ge n 1)) by lia.
    unfold fsGet, fsDo, wrap. rewrite (udir_eq k uid Hk Hid), (stat_through _ _ Hd). cbv beta iota. cbn [is_Ok negb].
    rewrite partName_plain by lia. rewrite writeNode_child; [|by apply through_isDir|].
    + cbv beta iota. destruct (rd_err body); reflexivity.
    + rewrite Hp by done. by destruct (up_parts u !! n).
  - cbn [lf_fs upd eta_expand eta_Provider]. rewrite <- app_assoc. apply outside_insert.
  - cbn [lf_fs upd eta_expand eta_Provider staging up_meta up_parts eta_upload]. split_and!.
    + by apply through_insert.
    + rewrite lookup_insert_ne; [done|]. intros Heq%app_inv_head. rewrite partName_pos in Heq by lia. done.
    + intros m Hm1. destruct (decide (m = n)) as [->|Hne]; [by rewrite !lookup_insert_eq|].
      rewrite (lookup_insert_ne (up_parts u)) by done. rewrite lookup_insert_ne; [by apply Hp|].
      intros Heq%app_inv_head. injection Heq as Heq. by apply Hne, partName_inj.
Qed.

Lemma stat_udir f k uid : through f root -> staging f k uid None -> stat f (udir k uid) = Err (ErrSentinel OsNotExist).
Proof. intros Hr Hv. pose proof (stat_vacant root f (ud k uid) [] Hr ltac:(done) Hv) as Hs. by rewrite app_nil_r in Hs. Qed.
Lemma UploadPart_absent p k uid n body now : through (lf_fs p) root -> K k -> uidOk uid -> staging (lf_fs p) k uid None -> 1 <= n ->
  UploadPart root now (mkUploadPartRequest (mkMultipartUpload k uid) n (Some body)) p =
    (p, Err (ErrWrap "local_fs_dev: %w: upload %q" (ErrSentinel BsNotFound))).
Proof.
  intros Hr Hk Hid Hno Hn. unfold UploadPart. cbn [uq_Upload uq_PartNumber uq_Body mu_Key mu_UploadID]. unroll.
  rewrite (keys_valid k Hk), (proj2 (Z.ltb_ge n 1)) by lia. unfold fsGet. rewrite (udir_eq k uid Hk Hid).
  by rewrite stat_udir.
Qed.

Lemma remove_upload f k uid o : staging f k uid o -> staging (removeAll f (udir k uid)) k uid None.
Proof. destruct o as [u|]; cbn [staging]; [intros (Ht & _); by apply vacant_removed|apply vacant_removed_vacant]. Qed.
Lemma Abort_upload p k uid o : K k -> uidOk uid -> staging (lf_fs p) k uid o -> exists p',
  AbortMultipart root (mkMultipartUpload k uid) p = (p', Ok tt) /\ outside root (ud k uid) (lf_fs p) (lf_fs p') /\ staging (lf_fs p') k uid None.
Proof.
  intros Hk Hid Hst. exists (p <| lf_fs := removeAll (lf_fs p) (udir k uid) |>). split; [|split; [apply outside_removeAll|by eapply remove_upload]].
  unfold AbortMultipart, fsDo. cbn [mu_Key mu_UploadID]. unroll. by rewrite (keys_valid k Hk), (udir_eq k uid Hk Hid).
Qed.

(** The parts of a completion, in its order. *)
Fixpoint gather (m : gmap Z bytes) (parts : list CompletedPart) : option bytes :=
  match parts with
  | [] => Some []
  | part :: parts => b ← m !! cp_PartNumber part; rest ← gather m parts; Some (b ++ rest)
  end.
Lemma readParts_upload f k uid u parts : staging f k uid (Some u) -> Forall (fun part => 1 <= cp_PartNumber part) parts ->
  match gather (up_parts u) parts with
  | Some b => readParts f (udir k uid) parts = Ok b
  | None => readParts f (udir k uid) parts = Err (ErrWrap "local_fs_dev: open part: %w" (ErrSentinel OsNotExist))
  end.
Proof.
  intros (Ht & _ & Hp) Hn.
  induction Hn as [|part parts Hn _ IH]; [done|]. cbn [gather readParts]. rewrite partName_plain by done.
  unfold openFile. rewrite stat_snoc, (Hp _ Hn). destruct (up_parts u !! cp_PartNumber part) as [b|]; cbn; [|by rewrite missing_through].
  destruct (gather (up_parts u) parts) as [rest|]; cbn; by rewrite IH.
Qed.

Lemma Complete_absent p k uid parts spec now : through (lf_fs p) root -> K k -> uidOk uid -> staging (lf_fs p) k uid None ->
  CompleteMultipart root now (mkCompleteRequest (mkMultipartUpload k uid) parts spec) p =
    (p, Err (ErrWrap "local_fs_dev: %w: upload %q" (ErrSentinel BsNotFound))).
Proof.
  intros Hr Hk Hid Hno. unfold CompleteMultipart, fsGet. cbn [cq_Upload cq_Parts cq_Retention mu_Key mu_UploadID]. unroll.
  rewrite (keys_valid k Hk), (udir_eq k uid Hk Hid). rewrite joinPath_plain by done. unfold readJ. rewrite <- app_assoc.
  by rewrite (stat_vacant root _ (ud k uid)).
Qed.

Definition fits (m : multipartMeta) (b : bytes) : bool :=
  negb (negb (bool_decide (mm_ChecksumSHA256 m = "")) && negb (bool_decide (mm_ChecksumSHA256 m = sha256_hex b))).
Lemma Complete_upload p k uid u vs parts spec now : through (lf_fs p) root -> K k -> uidOk uid -> staging (lf_fs p) k uid (Some u) ->
  versions root (lf_fs p) k vs -> after now vs -> Forall (fun part => 1 <= cp_PartNumber part) parts ->
  let complete := CompleteMultipart root now (mkCompleteRequest (mkMultipartUpload k uid) parts spec) in
  exists p' c f1, outside root (comps k) (lf_fs p) f1 /\
    match gather (up_parts u) parts with
    | None => complete p = (p', Err (ErrWrap "local_fs_dev: open part: %w" (ErrSentinel OsNotExist))) /\ lf_fs p' = f1 /\ holds root f1 k vs
    | Some b =>
        let v := newVer k c b (mm_ContentType (up_meta u)) spec now in
        if fits (up_meta u) b
        then complete p = (p', Ok (resultOf v)) /\ holds root f1 k (vs ++ [v]) /\ outside root (ud k uid) f1 (lf_fs p') /\ staging (lf_fs p') k uid None
        else complete p = (p', Err (ErrWrap "local_fs_dev: %w: got %s want %s" (ErrSentinel BsChecksumMismatch))) /\ lf_fs p' = f1 /\ holds root f1 k vs
    end.
Proof.
  intros Hr Hk Hid Hst Hv [Hlt Hn] Hparts complete. set (p0 := mkProvider (made root (lf_fs p) (comps k)) (lf_counter p)).
  destruct (newVersionID_stamp now p0 Hn) as (c & Hvid & Hpl). set (p1 := mkProvider (lf_fs p0) (wrapU64 (lf_counter p + 1))).
  pose proof (open_dir root _ _ _ Hr Hv) as Hh. pose proof (outside_made root (lf_fs p) (comps k)) as Ho.
  assert (Hst1 : staging (lf_fs p1) k uid (Some u)).
  { eapply staging_apart; [..|exact Ho|exact Hst]; [apply Split_nonempty|by apply keys_apart_staging]. }
  pose proof (readParts_upload (lf_fs p1) k uid u parts Hst1 Hparts) as Hread.
  assert (Hgo : complete p = (data ← fsGet (fun f => readParts f (udir k uid) parts);
    fail_if (negb (bool_decide (mm_ChecksumSHA256 (up_meta u) = "")) && negb (bool_decide (mm_ChecksumSHA256 (up_meta u) = sha256_hex data))) (ErrWrap "local_fs_dev: %w: got %s want %s" (ErrSentinel BsChecksumMismatch));;
    res ← publish root k (stamp now c) data (mm_ContentType (up_meta u)) spec now;
    fsDo (fun f => Ok (removeAll f (udir k uid)));; ret res) p1).
  { unfold complete, CompleteMultipart. cbn [cq_Upload cq_Parts cq_Retention mu_Key mu_UploadID]. unroll. unfold fsGet, fsDo, wrap.
    rewrite (keys_valid k Hk), (udir_eq k uid Hk Hid). rewrite joinPath_plain by done. unfold readJ. destruct Hst as (_ & Hj & _). rewrite stat_snoc, Hj.
    cbn [asUpload]. rewrite (mkdir_versions _ _ _ _ Hr Hk Hv). cbv beta iota.
    change (p <| lf_fs := made root (lf_fs p) (comps k) |>) with p0. rewrite Hvid. reflexivity. }
  rewrite Hgo. revert Hgo. generalize complete as m. intros m _. unroll. unfold fsGet. destruct (gather (up_parts u) parts) as [b|].
  - rewrite Hread. cbn zeta. unfold fits. destruct (negb _ && negb _); cbn [negb].
    + exists p1, c, (lf_fs p1). by split_and!; try exact Ho; try exact Hh.
    + destruct (publish_versions root p1 k vs c b (mm_ContentType (up_meta u)) spec now Hk Hh Hlt Hn Hpl) as (p2 & Hp & Hh2 & Ho2).
      rewrite Hp. unfold fsDo. eexists _, c, (lf_fs p2). split; [by eapply outside_trans|]. split; [reflexivity|]. split; [done|].
      split; [apply outside_removeAll|]. eapply remove_upload.
      eapply staging_apart; [..|exact Ho2|exact Hst1]; [apply Split_nonempty|by apply keys_apart_staging].
  - rewrite Hread. exists p1, c, (lf_fs p1). by split_and!; try exact Ho; try exact Hh.
Qed.
End uploads.
