(* ===== verification/LocalRefine.v ===== *)
(** * The local provider as a store of versions

    The abstract specification: a key has a list of versions and its open
    uploads have their parts, the methods are operations on them, and an error is
    what [errors.Is] tells of it. The local provider refines it: any sequence of
    calls, at times that move on, answers as the specification does. No key is
    a path prefix of another, the identifiers are single path components and
    the part numbers of a completion positive; the listings of keys, uploads
    and parts are not in the specification, and the serial part of a new
    identifier is any number. *)
From Stdlib Require Import Strings.Ascii.
From S2P Require Import Prelude GoStd Sha256 BlobStore Fs LocalFsDev LocalStore LocalDirs LocalVersions LocalUploads.
Local Open Scope Z_scope.

(** ** The specification *)
Inductive op :=
| OpPut (req : PutRequest) | OpHead (k : string) | OpGet (k v : string) (rng : option ByteRange) | OpDelete (k : string)
| OpPurge (k : string) | OpCopy (k v dst : string) (spec : RetentionSpec) | OpGetRetention (k v : string)
| OpUpdateRetention (k v : string) (mode : RetentionMode) (until : Time) (clear : bool) | OpSetLegalHold (k v : string) (on : bool)
| OpListVersions (k : string) | OpDeleteVersion (k v : string)
| OpCreate (req : MultipartRequest) | OpUploadPart (k uid : string) (n : Z) (body : option reader)
| OpComplete (k uid : string) (parts : list CompletedPart) (spec : RetentionSpec) | OpAbort (k uid : string).

(** The sentinel an error wraps. *)
Fixpoint kindOf (e : error) : option sentinel :=
  match e with ErrNew _ => None | ErrSentinel s => Some s | ErrWrap _ e => kindOf e end.
Inductive reply :=
| Done | Wrote (r : PutResult) | Described (m : ObjectMeta) | Body (b : bytes) (m : ObjectMeta) | Retains (rt : RetentionState)
| Versions (l : list ObjectMeta) | Opened (u : MultipartUpload) | PartDone (part : UploadedPart) | Failed (s : option sentinel).
Definition answer {A} (f : A -> reply) (r : result A) : reply :=
  match r with Ok a => f a | Err e => Failed (kindOf e) end.
Definition NotFound : reply := Failed (Some BsNotFound).

Record bucket := mkBucket { bk_versions : gmap string (list ver); bk_uploads : gmap (string * string) upload }.
#[export] Instance eta_bucket : Eta bucket := fun s => mkBucket (bk_versions s) (bk_uploads s).
Definition emptyBucket : bucket := mkBucket ∅ ∅.
Definition at_key (s : bucket) (k : string) : list ver := default [] (bk_versions s !! k).
Definition put_key (k : string) (vs : list ver) (s : bucket) : bucket := s <| bk_versions := <[k := vs]> (bk_versions s) |>.
Definition push (k : string) (v : ver) (s : bucket) : bucket := put_key k (at_key s k ++ [v]) s.
Definition put_upload (k uid : string) (u : upload) (s : bucket) : bucket := s <| bk_uploads := <[(k, uid) := u]> (bk_uploads s) |>.
Definition drop_upload (k uid : string) (s : bucket) : bucket := s <| bk_uploads := delete (k, uid) (bk_uploads s) |>.

(** The version with an identifier, between the others. *)
Fixpoint pick (v : string) (vs : list ver) : option (list ver * ver * list ver) :=
  match vs with
  | [] => None
  | w :: vs => if bool_decide (vid w = v) then Some ([], w, vs)
               else '(a, x, b) ← pick v vs; Some (w :: a, x, b)
  end.
Definition bodies (vs : list ver) : list ver := filter (fun w => is_Some w.2) vs.

Section spec.
Context (c : Z) (now : Time).
Definition specPut (req : PutRequest) (s : bucket) : bucket * reply :=
  let k := pq_Key req in
  match pq_Body req with
  | None => (s, Failed None)
  | Some body =>
      if pq_IfNoneMatch req && negb (bool_decide (at_key s k = [])) then (s, Failed (Some BsPreconditionFailed))
      else match ReadAll body with
           | Err e => (s, Failed (kindOf e))
           | Ok b =>
               let v := newVer k c b (pq_ContentType req) (pq_Retention req) now in
               if sumOk req b then (push k v s, Wrote (resultOf v)) else (s, Failed (Some BsChecksumMismatch))
           end
  end.

Definition readVer (w : ver) (rng : option ByteRange) : reply :=
  match w.2 with
  | None => NotFound
  | Some b => match rng with
              | None => Body b (sidecarToMeta w.1)
              | Some r => answer (fun b' => Body b' (sidecarToMeta w.1)) (rangeBytes r b)
              end
  end.
(** The source of a copy: the version asked for, or the latest with a body. *)
Definition sourceOf (v : string) (vs : list ver) : option ver :=
  if bool_decide (v = "") then last (bodies vs) else '(_, w, _) ← pick v vs; Some w.

Definition specStep (o : op) (s : bucket) : bucket * reply :=
  match o with
  | OpPut req => specPut req s
  | OpHead k => (s, match last (at_key s k) with Some (sc, Some _) => Described (sidecarToMeta sc) | _ => NotFound end)
  | OpGet k v rng => (s, match (if bool_decide (v = "") then last (at_key s k) else '(_, w, _) ← pick v (at_key s k); Some w) with
                         | Some w => readVer w rng | None => NotFound end)
  | OpDelete k => if bool_decide (at_key s k = []) then (s, NotFound) else (push k (marker k c now) s, Done)
  | OpPurge k => (put_key k [] s, Done)
  | OpCopy k v dst spec =>
      match sourceOf v (at_key s k) with
      | None => (s, NotFound)
      | Some (sc, None) => (s, Failed (Some OsNotExist))
      | Some (sc, Some b) => let w := newVer dst c b (sc_ContentType sc) spec now in (push dst w s, Wrote (resultOf w))
      end
  | OpGetRetention k v => (s, match pick v (at_key s k) with Some (_, w, _) => Retains (sc_Retention w.1) | None => NotFound end)
  | OpUpdateRetention k v mode until clear =>
      match pick v (at_key s k) with
      | None => (s, NotFound)
      | Some (a, w, b) =>
          match updatedRetention (sc_Retention w.1) (mkRetentionUpdate (mkVersionedObjectRef k v) mode until clear) with
          | Err e => (s, Failed (kindOf e))
          | Ok rt => (put_key k (a ++ withRetention w rt :: b) s, Retains rt)
          end
      end
  | OpSetLegalHold k v on =>
      match pick v (at_key s k) with
      | None => (s, NotFound)
      | Some (a, w, b) => let rt := (sc_Retention w.1) <| rt_LegalHold := on |> in (put_key k (a ++ withRetention w rt :: b) s, Retains rt)
      end
  | OpListVersions k => (s, Versions (map (fun w => sidecarToMeta w.1) (at_key s k)))
  | OpDeleteVersion k v => (match pick v (at_key s k) with Some (a, _, b) => put_key k (a ++ b) s | None => s end, Done)
  | OpCreate req =>
      let k := mq_Key req in
      (put_upload k (stamp now c) (mkUpload (mkMultipartMeta k (stamp now c) (mq_ContentType req) (mq_ChecksumSHA256 req) (mq_Retention req) now) ∅) s,
       Opened (mkMultipartUpload k (stamp now c)))
  | OpUploadPart k uid n body =>
      match body with
      | None => (s, Failed None)
      | Some r =>
          if n <? 1 then (s, Failed None)
          else match bk_uploads s !! (k, uid) with
               | None => (s, NotFound)
               | Some u =>
                   (put_upload k uid (u <| up_parts := <[n := rd_bytes r]> (up_parts u) |>) s,
                    match rd_err r with
                    | Some e => Failed (kindOf e)
                    | None => PartDone (mkUploadedPart n (sha256_hex (rd_bytes r)) (len (rd_bytes r)))
                    end)
               end
      end
  | OpComplete k uid parts spec =>
      match bk_uploads s !! (k, uid) with
      | None => (s, NotFound)
      | Some u =>
          match gather (up_parts u) parts with
          | None => (s, Failed (Some OsNotExist))
          | Some b =>
              let v := newVer k c b (mm_ContentType (up_meta u)) spec now in
              if fits (up_meta u) b then (push k v (drop_upload k uid s), Wrote (resultOf v)) else (s, Failed (Some BsChecksumMismatch))
          end
      end
  | OpAbort k uid => (drop_upload k uid s, Done)
  end.
End spec.

(** Calls one after the other, with the serial numbers of the versions. *)
Fixpoint specRun (calls : list (Time * op)) (serials : list Z) (s : bucket) : bucket * list reply :=
  match calls, serials with
  | (now, o) :: calls, c :: serials =>
      let (s, r) := specStep c now o s in let (s, rs) := specRun calls serials s in (s, r :: rs)
  | _, _ => (s, [])
  end.

(** ** The provider *)
Section refinement.
Context (root : path) (K : string -> Prop) `{!Keys K}.
Definition localStep (now : Time) (o : op) (p : Provider) : Provider * reply :=
  match o with
  | OpPut req => let (p, r) := Put root now req p in (p, answer Wrote r)
  | OpHead k => let (p, r) := Head root now (mkObjectRef k) p in (p, answer Described r)
  | OpGet k v rng => let (p, r) := Get root now (mkGetRequest (mkVersionedObjectRef k v) rng) p in
      (p, answer (fun x => Body (rd_bytes x.1) x.2) r)
  | OpDelete k => let (p, r) := Delete root now (mkObjectRef k) p in (p, answer (fun _ => Done) r)
  | OpPurge k => let (p, r) := PurgeAllVersions root (mkObjectRef k) p in (p, answer (fun _ => Done) r)
  | OpCopy k v dst spec =>
      let (p, r) := CopyWithinProvider root now (mkCopyWithinProviderRequest (mkVersionedObjectRef k v) dst spec) p in (p, answer Wrote r)
  | OpGetRetention k v => let (p, r) := GetRetention root (mkVersionedObjectRef k v) p in (p, answer Retains r)
  | OpUpdateRetention k v mode until clear =>
      let (p, r) := UpdateRetention root (mkRetentionUpdate (mkVersionedObjectRef k v) mode until clear) p in (p, answer Retains r)
  | OpSetLegalHold k v on => let (p, r) := SetLegalHold root (mkVersionedObjectRef k v) on p in (p, answer Retains r)
  | OpListVersions k => let (p, r) := ListObjectVersions root (mkListVersionsRequest k "" 0) p in
      (p, answer (fun page => Versions (vp_Versions page)) r)
  | OpDeleteVersion k v => let (p, r) := DeleteVersion root (mkVersionedObjectRef k v) p in (p, answer (fun _ => Done) r)
  | OpCreate req => let (p, r) := CreateMultipart root now req p in (p, answer Opened r)
  | OpUploadPart k uid n body =>
      let (p, r) := UploadPart root now (mkUploadPartRequest (mkMultipartUpload k uid) n body) p in (p, answer PartDone r)
  | OpComplete k uid parts spec =>
      let (p, r) := CompleteMultipart root now (mkCompleteRequest (mkMultipartUpload k uid) parts spec) p in (p, answer Wrote r)
  | OpAbort k uid => let (p, r) := AbortMultipart root (mkMultipartUpload k uid) p in (p, answer (fun _ => Done) r)
  end.
Fixpoint localRun (calls : list (Time * op)) (p : Provider) : Provider * list reply :=
  match calls with
  | [] => (p, [])
  | (now, o) :: calls => let (p, r) := localStep now o p in let (p, rs) := localRun calls p in (p, r :: rs)
  end.

(** The keys and identifiers of a call. *)
Definition callOk (o : op) : Prop :=
  match o with
  | OpPut req => K (pq_Key req)
  | OpHead k | OpDelete k | OpPurge k | OpListVersions k => K k
  | OpGet k v _ | OpGetRetention k v | OpUpdateRetention k v _ _ _ | OpSetLegalHold k v _ | OpDeleteVersion k v => K k /\ plainID v
  | OpCopy k v dst _ => K k /\ plainID v /\ K dst
  | OpCreate req => K (mq_Key req)
  | OpUploadPart k uid _ _ | OpAbort k uid => K k /\ uidOk uid
  | OpComplete k uid parts _ => K k /\ uidOk uid /\ Forall (fun part => 1 <= cp_PartNumber part) parts
  end.

(** The provider holds the versions and the uploads of the bucket. *)
Record tells (p : Provider) (s : bucket) : Prop := {
  te_root : through (lf_fs p) root;
  te_keys : forall k, K k -> versions root (lf_fs p) k (at_key s k);
  te_uploads : stages (K := K) root (lf_fs p) (bk_uploads s) }.
(** Everything in the bucket was written before [now]. *)
Record before (now : Time) (s : bucket) : Prop := {
  be_versions : forall k, Forall (fun w => wtime w < now) (at_key s k);
  be_uploads : forall k uid, is_Some (bk_uploads s !! (k, uid)) -> exists t c, uid = stamp t c /\ 0 <= t < now }.

(** ** Lemmas *)
Ltac bucket_fields := cbn [fst snd push put_key put_upload drop_upload bk_versions bk_uploads upd eta_expand eta_bucket].
Lemma at_put k vs s k' : at_key (put_key k vs s) k' = if decide (k' = k) then vs else at_key s k'.
Proof. unfold at_key, put_key. cbn. case_decide; subst; [by rewrite lookup_insert_eq|by rewrite lookup_insert_ne by congruence]. Qed.
Lemma at_push k v s k' : at_key (push k v s) k' = if decide (k' = k) then at_key s k ++ [v] else at_key s k'.
Proof. apply at_put. Qed.

Lemma pick_Some v vs a w b : pick v vs = Some (a, w, b) -> vs = a ++ w :: b /\ vid w = v.
Proof.
  revert a. induction vs as [|x vs IH]; intros a; [done|]. cbn. case_bool_decide as Hx; [by intros [= <- <- <-]|].
  destruct (pick v vs) as [[[a' w'] b']|]; [|done]. cbn. intros [= <- <- <-]. destruct (IH a' eq_refl) as [-> ?]. done.
Qed.
Lemma pick_None v vs w : pick v vs = None -> w ∈ vs -> vid w <> v.
Proof.
  induction vs as [|x vs IH]; [by intros _ ?%elem_of_nil|]. cbn. case_bool_decide as Hx; [done|].
  destruct (pick v vs) as [[[a' w'] b']|]; [done|]. intros _ [->|Hw]%elem_of_cons; [done|by apply IH].
Qed.

Lemma tells_frame k vs p p' s : K k -> tells p s -> outside root (comps k) (lf_fs p) (lf_fs p') -> versions root (lf_fs p') k vs ->
  tells p' (put_key k vs s).
Proof.
  intros Hk [Hr Hs Hu] Ho Hv. pose proof (Split_nonempty k "/"%char) as Hn. split; [by eapply outside_root| |by eapply stages_elsewhere]. intros k' Hk'.
  rewrite at_put. case_decide as Heq; [by subst|]. eapply outside_versions; [exact Hn|by apply keys_apart, not_eq_sym|exact Ho|by apply Hs].
Qed.
Lemma tells_same k p p' s : K k -> tells p s -> outside root (comps k) (lf_fs p) (lf_fs p') -> versions root (lf_fs p') k (at_key s k) -> tells p' s.
Proof.
  intros Hk [Hr Hs Hu] Ho Hv. pose proof (Split_nonempty k "/"%char) as Hn. split; [by eapply outside_root| |by eapply stages_elsewhere]. intros k' Hk'.
  destruct (decide (k' = k)) as [->|He]; [done|]. eapply outside_versions; [exact Hn|by apply keys_apart, not_eq_sym|exact Ho|by apply Hs].
Qed.

Lemma kindOf_wrap msg e : kindOf (ErrWrap msg e) = kindOf e. Proof. done. Qed.

(** *** What is not there *)
Lemma no_file f k vs v suf : versions root f k vs -> (forall w, w ∈ vs -> vid w <> v) -> suf = ".json" \/ suf = ".bin" ->
  f !! ((root ++ comps k) ++ [v +:+ suf]) = None.
Proof.
  intros [Hh|[-> Hu]] Hv Hs; [|rewrite <- app_assoc; apply Hu].
  destruct (f !! _) as [n|] eqn:Hf; [|done]. exfalso. apply (ho_files _ _ _ _ Hh) in Hf. apply list_elem_of_bind in Hf as (w & Hx & Hw).
  apply (Hv w Hw). unfold filesOf in Hx. apply elem_of_cons in Hx as [Hx|Hx].
  - injection Hx as Hx _. destruct Hs as [-> | ->]; [by apply json_inj in Hx|]. symmetry in Hx. by apply json_bin in Hx.
  - destruct w.2; [|by apply elem_of_nil in Hx]. apply list_elem_of_singleton in Hx. injection Hx as Hx _.
    destruct Hs as [-> | ->]; [by apply json_bin in Hx|]. by apply bin_inj in Hx.
Qed.
Lemma no_body f k vs w : holds root f k vs -> w ∈ vs -> w.2 = None -> f !! ((root ++ comps k) ++ [vid w +:+ ".bin"]) = None.
Proof.
  intros Hh Hw Hb. destruct (f !! _) as [n|] eqn:Hf; [|done]. exfalso. apply (ho_files _ _ _ _ Hh) in Hf.
  apply list_elem_of_bind in Hf as (u & Hx & Hu). assert (Huw : vid u = vid w /\ is_Some u.2).
  { unfold filesOf in Hx. apply elem_of_cons in Hx as [Hx|Hx]; [injection Hx as Hx _; symmetry in Hx; by apply json_bin in Hx|].
    destruct u.2; [|by apply elem_of_nil in Hx]. apply list_elem_of_singleton in Hx. injection Hx as Hx _. by apply bin_inj in Hx. }
  destruct Huw as [Heq [b Hub]]. pose proof (ver_ok _ _ _ _ u Hh Hu) as Hou. pose proof (ver_ok _ _ _ _ w Hh Hw) as How.
  pose proof (vid_time k u w Hou How Heq) as Ht. pose proof (strictly_inj wtime vs u w (ho_times _ _ _ _ Hh) Hu Hw Ht). congruence.
Qed.
Lemma missing_file f k vs x : through f root -> versions root f k vs -> missing f ((root ++ comps k) ++ [x]) = ErrSentinel OsNotExist.
Proof.
  intros Hr [Hh|[-> Hu]]; [apply missing_through, (ho_dir _ _ _ _ Hh)|]. rewrite <- app_assoc. by apply vacant_missing.
Qed.
Lemma readSidecar_none f k vs v : through f root -> K k -> plainID v -> versions root f k vs -> pick v vs = None ->
  exists e, readSidecar root k v f = Err e /\ kindOf e = Some BsNotFound.
Proof.
  intros Hr Hk Hp Hv Hn. eexists. unfold readSidecar, loadSidecar, readJ. rewrite versionMetaPath_plain, (kdir_eq root k Hk), stat_snoc by done.
  rewrite (no_file _ _ _ _ ".json" Hv) by (intros; by eapply pick_None || by left). rewrite (missing_file _ _ _ _ Hr Hv). done.
Qed.
Lemma readSidecar_some f k vs v a w b : K k -> versions root f k vs -> pick v vs = Some (a, w, b) ->
  holds root f k (a ++ w :: b) /\ w ∈ vs /\ vid w = v /\ readSidecar root k v f = Ok w.1.
Proof.
  intros Hk Hv [-> <-]%pick_Some. assert (Hh : holds root f k (a ++ w :: b)) by (destruct Hv as [?|[Hv _]]; [done|by destruct a]).
  assert (Hw : w ∈ a ++ w :: b) by set_solver. do 3 (split; [done|]). by eapply readSidecar_version.
Qed.

(** *** Each call *)
Definition refined (c : Z) (now : Time) (o : op) (p : Provider) (s : bucket) : Prop :=
  exists p', localStep now o p = (p', (specStep c now o s).2) /\ tells p' (specStep c now o s).1.

Lemma put_refines p s now req : tells p s -> before now s -> 0 <= now < 2 ^ 63 -> K (pq_Key req) -> exists c, refined c now (OpPut req) p s.
Proof.
  intros Ht Hb Hn Hk. set (k := pq_Key req). unfold refined. cbn [localStep specStep]. unfold specPut. fold k.
  pose proof (te_keys _ _ Ht k Hk) as Hv. destruct (pq_Body req) as [body|] eqn:Hbody.
  2: { exists 0, p. split; [|done]. unfold Put. rewrite Hbody. unroll. by rewrite (keys_valid _ Hk). }
  destruct (pq_IfNoneMatch req && negb (bool_decide (at_key s k = []))) eqn:Hi.
  { apply andb_true_iff in Hi as [Hi He%negb_true_iff%bool_decide_eq_false]. exists 0, p. split; [|done].
    destruct (Put_exists root p k _ now req (te_root _ _ Ht) Hk Hv He eq_refl) as (e & Hp & _); [by rewrite Hbody|done|].
    rewrite Hp. unfold Put in Hp. rewrite Hbody in Hp. revert Hp. unroll. rewrite (keys_valid _ Hk). fold k. rewrite (hasAny_versions root _ k _ (te_root _ _ Ht) (Hk : K k) Hv), Hi.
    destruct (at_key s k); [done|]. cbn. by intros [= <-]. }
  destruct (Put_body root p k _ now req body (te_root _ _ Ht) Hk Hv (conj (be_versions _ _ Hb k) Hn) eq_refl Hbody Hi) as (p' & c & Ho & Hp).
  exists c, p'. destruct (ReadAll body) as [b|e].
  - cbn zeta in *. destruct (sumOk req b).
    + destruct Hp as [-> Hh]. split; [done|]. apply (tells_frame _ _ p); [done..|by left].
    + destruct Hp as (msg & -> & Hh). split; [done|]. apply (tells_same k p); [done..|by left].
  - destruct Hp as [-> Hh]. split; [done|]. apply (tells_same k p); [done..|by left].
Qed.

Lemma holds_nonempty k s p : tells p s -> K k -> at_key s k <> [] -> holds root (lf_fs p) k (at_key s k).
Proof. intros Ht Hk Hn. by destruct (te_keys _ _ Ht k Hk) as [?|[? _]]. Qed.

(** The latest version, marker or not. *)
Lemma latest_sidecar k s p : tells p s -> K k ->
  listVersionsLocked root (lf_fs p) k = Ok (map fst (at_key s k)) /\
  match last (at_key s k) with
  | None => True
  | Some w => w ∈ at_key s k /\ verOk k w /\ latestVersion (map fst (at_key s k)) = Some w.1 /\
      sc_IsDeleteMarker w.1 = match w.2 with Some _ => false | None => true end
  end.
Proof.
  intros Ht Hk. split; [by apply (listVersions_versions root _ k _ (te_root _ _ Ht) Hk), Ht|]. destruct (last (at_key s k)) as [w|] eqn:Hl; [|done].
  assert (Hw : w ∈ at_key s k) by (apply last_Some in Hl as [l ->]; set_solver).
  assert (Hh : holds root (lf_fs p) k (at_key s k)) by (apply holds_nonempty; [done..|]; by intros Hn; rewrite Hn in Hw; apply elem_of_nil in Hw).
  pose proof (ver_ok _ _ _ _ w Hh Hw) as Hok. split; [done|]. split; [done|]. split.
  - apply last_Some in Hl as [l ->]. apply last_map_snoc.
  - pose proof (vo_body _ _ Hok) as Hb. destruct w.2; [apply Hb|done].
Qed.

Lemma head_refines c p s now k : tells p s -> K k -> refined c now (OpHead k) p s.
Proof.
  intros Ht Hk. exists p. split; [|done]. cbn [localStep specStep snd]. destruct (latest_sidecar k s p Ht Hk) as [Hl Hw].
  unfold Head, fsGet. cbn [or_Key]. unroll. rewrite (keys_valid _ Hk), Hl. destruct (last (at_key s k)) as [[sc o]|] eqn:Hlast.
  - destruct Hw as (_ & _ & Hlv & Hm). rewrite Hlv. cbn [fst snd] in *. rewrite Hm. by destruct o.
  - apply last_None in Hlast. rewrite Hlast. done.
Qed.

(** What is read of a version. *)
Lemma read_refines p s k w rng : tells p s -> K k -> w ∈ at_key s k ->
  match (match openFile (lf_fs p) (versionBodyPath root (sc_Key w.1) (sc_VersionID w.1)) with
         | Ok d => Ok d
         | Err e => if errors_Is e OsNotExist then Err (ErrWrap "local_fs_dev: %w: key %q" (ErrSentinel BsNotFound))
                    else Err (ErrWrap "local_fs_dev: open %q: %w" e)
         end) with
  | Ok data => answer (fun x : reader * ObjectMeta => Body (rd_bytes x.1) x.2)
      match rng with
      | None => Ok (bytes_NewReader data, sidecarToMeta w.1)
      | Some r => match rangeBytes r data with Ok part => Ok (bytes_NewReader part, sidecarToMeta w.1) | Err e => Err e end
      end
  | Err e => Failed (kindOf e)
  end = readVer w rng.
Proof.
  intros Ht Hk Hw. assert (Hh : holds root (lf_fs p) k (at_key s k)) by (apply holds_nonempty; [done..|]; by intros Hn; rewrite Hn in Hw; apply elem_of_nil in Hw).
  pose proof (ver_ok _ _ _ _ w Hh Hw) as Hok. rewrite (vo_key _ _ Hok). fold (vid w). unfold readVer. destruct w.2 as [b|] eqn:Hb.
  - rewrite (openFile_version _ _ _ _ w b Hk Hh Hw Hb). destruct rng as [r|]; [|done]. by destruct (rangeBytes r b).
  - unfold openFile. rewrite versionBodyPath_plain, (kdir_eq root k Hk), stat_snoc by (done || apply (vo_plain _ _ Hok)).
    rewrite (no_body _ _ _ w Hh Hw Hb), (missing_file _ _ _ _ (te_root _ _ Ht) (or_introl Hh)). done.
Qed.

Lemma pick_cases p s k v : tells p s -> K k -> plainID v ->
  match pick v (at_key s k) with
  | None => exists e, readSidecar root k v (lf_fs p) = Err e /\ kindOf e = Some BsNotFound
  | Some (a, w, b) => holds root (lf_fs p) k (a ++ w :: b) /\ at_key s k = a ++ w :: b /\ vid w = v /\
      readSidecar root k v (lf_fs p) = Ok w.1
  end.
Proof.
  intros Ht Hk Hp. pose proof (te_keys _ _ Ht k Hk) as Hv. destruct (pick v (at_key s k)) as [[[a w] b]|] eqn:He.
  - destruct (readSidecar_some _ _ _ _ _ _ _ Hk Hv He) as (Hh & _ & Hid & Hr). split; [done|]. split; [|done]. by apply pick_Some in He as [-> _].
  - eapply readSidecar_none; [apply Ht|done..].
Qed.

Lemma get_reads c p s now k v rng : tells p s -> K k -> plainID v ->
  localStep now (OpGet k v rng) p = (p, (specStep c now (OpGet k v rng) s).2).
Proof.
  intros Ht Hk Hp. cbn [localStep specStep snd]. destruct (latest_sidecar k s p Ht Hk) as [Hl Hw].
  unfold Get, fsGet. cbn [gq_Ref gq_Range vr_Key vr_VersionID]. unroll. rewrite (keys_valid _ Hk). case_bool_decide as Hv; cbn [negb].
  - rewrite Hl. destruct (last (at_key s k)) as [w|] eqn:Hlast.
    + destruct Hw as (Hw & _ & Hlv & Hm). rewrite Hlv, Hm, <- (read_refines p s k w rng Ht Hk Hw).
      destruct w.2 eqn:Hb; cbv beta iota.
      * destruct (match openFile _ _ with Ok _ => _ | Err _ => _ end); [|done]. destruct rng; [|done]. by destruct (rangeBytes _ _).
      * rewrite (read_refines p s k w rng Ht Hk Hw). unfold readVer. by rewrite Hb.
    + apply last_None in Hlast. rewrite Hlast. done.
  - pose proof (pick_cases p s k v Ht Hk Hp) as Hc. destruct (pick v (at_key s k)) as [[[a w] b]|] eqn:He; cbn.
    + destruct Hc as (_ & Hat & _ & ->). assert (Hw' : w ∈ at_key s k) by (rewrite Hat; set_solver). rewrite <- (read_refines p s k w rng Ht Hk Hw').
      destruct (match openFile _ _ with Ok _ => _ | Err _ => _ end); [|done]. destruct rng; [|done]. by destruct (rangeBytes _ _).
    + destruct Hc as (e & -> & Hkind). cbn. by rewrite Hkind.
Qed.

Lemma delete_refines p s now k : tells p s -> before now s -> 0 <= now < 2 ^ 63 -> K k -> exists c, refined c now (OpDelete k) p s.
Proof.
  intros Ht Hb Hn Hk. pose proof (te_keys _ _ Ht k Hk) as Hv. unfold refined. cbn [localStep specStep]. case_bool_decide as He.
  - exists 0, p. split; [|done]. unfold Delete. cbn [or_Key]. unroll. rewrite (keys_valid _ Hk), (hasAny_versions _ _ _ _ (te_root _ _ Ht) Hk Hv), He. done.
  - destruct (Delete_versions root p k _ now (te_root _ _ Ht) Hk Hv He (conj (be_versions _ _ Hb k) Hn)) as (p' & c & -> & Hh & Ho).
    exists c, p'. split; [done|]. apply (tells_frame _ _ p); [done..|by left].
Qed.

Lemma purge_refines c p s now k : tells p s -> K k -> refined c now (OpPurge k) p s.
Proof.
  intros Ht Hk. unfold refined. cbn [localStep specStep fst snd]. destruct (te_keys _ _ Ht k Hk) as [Hh|[He Hu]].
  - destruct (Purge_versions root p k _ Hk Hh) as (p' & -> & Hu & Ho). exists p'. split; [done|]. apply (tells_frame _ _ p); [done..|by right].
  - exists p. split.
    + unfold PurgeAllVersions, fsGet. cbn [or_Key]. unroll. rewrite (keys_valid _ Hk), (kdir_eq root k Hk), (stat_kdir root _ k (te_root _ _ Ht) Hu) by done. done.
    + apply (tells_frame _ _ p); [done..|apply outside_refl|by right].
Qed.

Lemma copy_refines p s now k v dst spec : tells p s -> before now s -> 0 <= now < 2 ^ 63 -> K k -> plainID v -> K dst ->
  exists c, refined c now (OpCopy k v dst spec) p s.
Proof.
  intros Ht Hb Hn Hk Hp Hd. unfold refined. cbn [localStep specStep]. rewrite (Copy_parts root p k v dst spec now Hk Hd).
  assert (Hsrc : match sourceOf v (at_key s k) with
    | None => exists e, copySource root (lf_fs p) k v = Err e /\ kindOf e = Some BsNotFound
    | Some w => w ∈ at_key s k /\ copySource root (lf_fs p) k v = Ok w.1 end).
  { unfold sourceOf, copySource. case_bool_decide as Hv; cbn [negb].
    - rewrite (proj1 (latest_sidecar k s p Ht Hk)). assert (Hlast : latestNonDeleteMarker (map fst (at_key s k)) = fst <$> last (bodies (at_key s k))).
      { unfold latestNonDeleteMarker, bodies. rewrite <- fmap_last. f_equal. assert (Hall : Forall (verOk k) (at_key s k)).
        { destruct (te_keys _ _ Ht k Hk) as [Hh|[-> _]]; [apply Hh|constructor]. }
        clear -Hall. induction Hall as [|w l Hw _ IH]; [done|]. pose proof (vo_body _ _ Hw) as Hb. cbn [map]. destruct (w.2) as [b|] eqn:Hwb.
        - rewrite !filter_cons_True by (try rewrite Hwb; done || apply Hb). cbn. by rewrite IH.
        - rewrite !filter_cons_False by (try rewrite Hwb; first [by intros [? ?]|congruence]). exact IH. }
      rewrite Hlast. destruct (last (bodies (at_key s k))) as [w|] eqn:Hw; cbn; [|by eexists]. split; [|done].
      apply last_Some in Hw as [l Hl]. assert (Hin : w ∈ bodies (at_key s k)) by (rewrite Hl; set_solver). by apply list_elem_of_filter in Hin as [_ ?].
    - pose proof (pick_cases p s k v Ht Hk Hp) as Hc. destruct (pick v (at_key s k)) as [[[a w] b]|]; cbn; [|done].
      destruct Hc as (_ & Hat & _ & ->). split; [rewrite Hat; set_solver|done]. }
  destruct (sourceOf v (at_key s k)) as [w|]; [|destruct Hsrc as (e & -> & He); exists 0, p; split; [cbn; by rewrite He|done]].
  destruct Hsrc as [Hw ->]. assert (Hh : holds root (lf_fs p) k (at_key s k)) by (apply holds_nonempty; [done..|]; by intros Hnil; rewrite Hnil in Hw; apply elem_of_nil in Hw).
  destruct w as [sc [b|]].
  - destruct (copyFrom_versions root p k dst _ (sc, Some b) b _ now spec (te_root _ _ Ht) Hk Hd Hh Hw eq_refl (te_keys _ _ Ht dst Hd) (conj (be_versions _ _ Hb dst) Hn)) as (p' & c & Hc & Hh' & Ho).
    rewrite Hc. exists c, p'. split; [done|]. apply (tells_frame _ _ p); [done..|by left].
  - exists 0, p. split; [|done]. unfold copyFrom, wrap, fsGet. unroll. pose proof (ver_ok _ _ _ _ _ Hh Hw) as Hok.
    pose proof (vo_key _ _ Hok) as Hkey. cbn [fst] in *. rewrite Hkey. unfold openFile. rewrite versionBodyPath_plain, (kdir_eq root k Hk), stat_snoc by (done || apply (vo_plain _ _ Hok)).
    change (sc_VersionID sc) with (vid (sc, None)). by rewrite (no_body _ _ _ _ Hh Hw eq_refl), (missing_file _ _ _ _ (te_root _ _ Ht) (or_introl Hh)).
Qed.

(** The calls on one version. *)
Lemma retention_refines c p s now k v : tells p s -> K k -> plainID v -> refined c now (OpGetRetention k v) p s.
Proof.
  intros Ht Hk Hp. exists p. split; [|done]. cbn [localStep specStep snd]. pose proof (pick_cases p s k v Ht Hk Hp) as Hc.
  unfold GetRetention, fsGet. cbn [vr_Key vr_VersionID]. unroll. rewrite (keys_valid _ Hk). destruct (pick v (at_key s k)) as [[[a w] b]|].
  - by destruct Hc as (_ & _ & _ & ->).
  - destruct Hc as (e & -> & He). cbn. by rewrite He.
Qed.
Lemma update_refines c p s now k v mode until clear : tells p s -> K k -> plainID v -> refined c now (OpUpdateRetention k v mode until clear) p s.
Proof.
  intros Ht Hk Hp. unfold refined. cbn [localStep specStep]. pose proof (pick_cases p s k v Ht Hk Hp) as Hc.
  destruct (pick v (at_key s k)) as [[[a w] b]|].
  - destruct Hc as (Hh & _ & <- & _).
    pose proof (UpdateRetention_versions root p k a w b (mkRetentionUpdate (mkVersionedObjectRef k (vid w)) mode until clear) Hk Hh eq_refl) as Hu.
    destruct (updatedRetention _ _) as [rt|e].
    + destruct Hu as (p' & -> & Hh' & Ho). exists p'. split; [done|]. apply (tells_frame _ _ p); [done..|by left].
    + rewrite Hu. by exists p.
  - destruct Hc as (e & Hr & He). exists p. split; [|done]. unfold UpdateRetention, fsGet. cbn [ru_Ref vr_Key vr_VersionID]. unroll. rewrite (keys_valid _ Hk), Hr.
    cbn. by rewrite He.
Qed.
Lemma hold_refines c p s now k v on : tells p s -> K k -> plainID v -> refined c now (OpSetLegalHold k v on) p s.
Proof.
  intros Ht Hk Hp. unfold refined. cbn [localStep specStep]. pose proof (pick_cases p s k v Ht Hk Hp) as Hc.
  destruct (pick v (at_key s k)) as [[[a w] b]|].
  - destruct Hc as (Hh & _ & <- & _). destruct (SetLegalHold_versions root p k a w b on Hk Hh) as (p' & -> & Hh' & Ho).
    exists p'. split; [done|]. apply (tells_frame _ _ p); [done..|by left].
  - destruct Hc as (e & Hr & He). exists p. split; [|done]. unfold SetLegalHold, fsGet. cbn [vr_Key vr_VersionID]. unroll. rewrite (keys_valid _ Hk), Hr.
    cbn. by rewrite He.
Qed.
Lemma versions_refines c p s now k : tells p s -> K k -> refined c now (OpListVersions k) p s.
Proof.
  intros Ht Hk. exists p. split; [|done]. cbn [localStep specStep snd].
  rewrite (ListVersions_versions root p k _ (mkListVersionsRequest k "" 0) (te_root _ _ Ht) Hk (te_keys _ _ Ht k Hk) eq_refl). cbn. by rewrite map_map.
Qed.

Lemma remove_absent msg p q : stat (lf_fs p) q = Err (ErrSentinel OsNotExist) -> removeIgnoreMissing msg q p = (p, Ok tt).
Proof. intros Hq. unfold removeIgnoreMissing, remove. by rewrite Hq. Qed.
Lemma deleteVersion_refines c p s now k v : tells p s -> K k -> plainID v -> refined c now (OpDeleteVersion k v) p s.
Proof.
  intros Ht Hk Hp. unfold refined. cbn [localStep specStep fst snd]. pose proof (te_keys _ _ Ht k Hk) as Hv.
  destruct (pick v (at_key s k)) as [[[a w] b]|] eqn:He.
  - destruct (readSidecar_some _ _ _ _ _ _ _ Hk Hv He) as (Hh & _ & <- & _).
    destruct (DeleteVersion_versions root p k a w b (te_root _ _ Ht) Hk Hh) as (p' & -> & Hh' & Ho).
    exists p'. split; [done|]. apply (tells_frame _ _ p); [done..|by left].
  - exists p. split; [|done]. assert (Hs : forall suf, suf = ".json" \/ suf = ".bin" -> stat (lf_fs p) ((root ++ comps k) ++ [v +:+ suf]) = Err (ErrSentinel OsNotExist)).
    { intros suf Hsuf. rewrite stat_snoc, (no_file _ _ _ _ _ Hv) by (done || (intros; by eapply pick_None)). by rewrite (missing_file _ _ _ _ (te_root _ _ Ht) Hv). }
    unfold DeleteVersion. cbn [vr_Key vr_VersionID]. unroll. rewrite (keys_valid _ Hk), versionMetaPath_plain, versionBodyPath_plain, (kdir_eq root k Hk) by done.
    rewrite remove_absent by (apply Hs; by left). by rewrite remove_absent by (apply Hs; by right).
Qed.

(** *** The calls on uploads *)
Lemma tells_upload k uid p p' s s' : K k -> tells p s -> outside root ("_multipart" :: comps k ++ [uid]) (lf_fs p) (lf_fs p') ->
  bk_versions s' = bk_versions s -> staging root (lf_fs p') k uid (bk_uploads s' !! (k, uid)) ->
  (forall k' uid', (k', uid') <> (k, uid) -> bk_uploads s' !! (k', uid') = bk_uploads s !! (k', uid')) -> tells p' s'.
Proof.
  intros Hk [Hr Hs Hu] Ho Hv Hst Hother. split; [by eapply outside_root| |by eapply stages_alter].
  intros k' Hk'. unfold at_key. rewrite Hv. eapply outside_versions; [..|exact Ho|by apply Hs]; [done|by apply apart_sym, keys_apart_staging].
Qed.

Lemma staging_at p s k uid : tells p s -> K k -> uidOk uid -> staging root (lf_fs p) k uid (bk_uploads s !! (k, uid)).
Proof. intros Ht. by apply (te_uploads _ _ Ht). Qed.

Lemma create_refines p s now req : tells p s -> before now s -> 0 <= now < 2 ^ 63 -> K (mq_Key req) -> exists c, refined c now (OpCreate req) p s.
Proof.
  intros Ht Hb Hn Hk. destruct (Create_upload root p (bk_uploads s) req now (te_root _ _ Ht) Hk (te_uploads _ _ Ht) Hn) as (p' & c & Hc & Hid & Ho & Hst).
  { intros c. destruct (bk_uploads s !! _) eqn:Hu; [|done]. destruct (be_uploads _ _ Hb (mq_Key req) (stamp now c)) as (t & c' & Heq & Ht'); [by eexists|].
    apply stamp_inj in Heq; lia. }
  exists c, p'. cbn [localStep specStep fst snd]. rewrite Hc. split; [done|].
  apply (tells_upload _ _ _ _ _ _ Hk Ht Ho); [done|bucket_fields; by rewrite lookup_insert_eq|]. intros k' uid' Hne. bucket_fields. by rewrite lookup_insert_ne.
Qed.
Lemma part_refines c p s now k uid n body : tells p s -> K k -> uidOk uid -> refined c now (OpUploadPart k uid n body) p s.
Proof.
  intros Ht Hk Hid. pose proof (staging_at p s k uid Ht Hk Hid) as Hst. unfold refined. cbn [localStep specStep].
  destruct body as [r|].
  2: { exists p. split; [|done]. unfold UploadPart. cbn [uq_Upload uq_PartNumber uq_Body mu_Key]. unroll. rewrite (keys_valid _ Hk). by destruct (n <? 1). }
  destruct (Z.ltb_spec n 1) as [Hlt|Hge].
  { exists p. split; [|done]. unfold UploadPart. cbn [uq_Upload uq_PartNumber uq_Body mu_Key]. unroll. by rewrite (keys_valid _ Hk), (proj2 (Z.ltb_lt n 1)). }
  destruct (bk_uploads s !! (k, uid)) as [u|] eqn:Hu.
  - destruct (UploadPart_upload root p k uid u n r now Hk Hid Hst Hge) as (p' & -> & Ho & Hst'). exists p'. split; [by destruct (rd_err r)|].
    apply (tells_upload _ _ _ _ _ _ Hk Ht Ho); [done|bucket_fields; by rewrite lookup_insert_eq|]. intros k' uid' Hne. bucket_fields. by rewrite lookup_insert_ne.
  - rewrite (UploadPart_absent root p k uid n r now (te_root _ _ Ht) Hk Hid Hst Hge). by exists p.
Qed.
Lemma abort_refines c p s now k uid : tells p s -> K k -> uidOk uid -> refined c now (OpAbort k uid) p s.
Proof.
  intros Ht Hk Hid. destruct (Abort_upload root p k uid _ Hk Hid (staging_at p s k uid Ht Hk Hid)) as (p' & Ha & Ho & Hst). exists p'. cbn [localStep specStep fst snd]. rewrite Ha.
  split; [done|]. apply (tells_upload _ _ _ _ _ _ Hk Ht Ho); [done|bucket_fields; by rewrite lookup_delete_eq|]. intros k' uid' Hne. bucket_fields. by rewrite lookup_delete_ne.
Qed.
Lemma complete_refines p s now k uid parts spec : tells p s -> before now s -> 0 <= now < 2 ^ 63 -> K k -> uidOk uid ->
  Forall (fun part => 1 <= cp_PartNumber part) parts -> exists c, refined c now (OpComplete k uid parts spec) p s.
Proof.
  intros Ht Hb Hn Hk Hid Hp. pose proof (staging_at p s k uid Ht Hk Hid) as Hst. unfold refined. cbn [localStep specStep].
  destruct (bk_uploads s !! (k, uid)) as [u|] eqn:Hu; [|exists 0, p; by rewrite (Complete_absent root p k uid parts spec now (te_root _ _ Ht) Hk Hid Hst)].
  destruct (Complete_upload root p k uid u _ parts spec now (te_root _ _ Ht) Hk Hid Hst (te_keys _ _ Ht k Hk) (conj (be_versions _ _ Hb k) Hn) Hp)
    as (p' & c & f1 & Ho & Hc). exists c, p'.
  assert (Hsame : lf_fs p' = f1 -> holds root f1 k (at_key s k) -> tells p' s) by (intros <- Hh; apply (tells_same k p); [done..|by left]).
  destruct (gather (up_parts u) parts) as [b|]; cbn zeta in *; [destruct (fits (up_meta u) b)|].
  - destruct Hc as (-> & Hh & Ho2 & Hst2). split; [done|].
    assert (Ht1 : tells (mkProvider f1 0) (push k (newVer k c b (mm_ContentType (up_meta u)) spec now) s)) by (apply (tells_frame k _ p); [done..|by left]).
    apply (tells_upload k uid (mkProvider f1 0) _ _ _ Hk Ht1 Ho2); [done|bucket_fields; by rewrite lookup_delete_eq|].
    intros k' uid' Hne. bucket_fields. by rewrite lookup_delete_ne.
  - destruct Hc as (-> & Hf & Hh). split; [done|by apply Hsame].
  - destruct Hc as (-> & Hf & Hh). split; [done|by apply Hsame].
Qed.

(** What a call leaves was written by then. *)
Lemma before_mono s now t : before now s -> now < t -> before t s.
Proof.
  intros [Hv Hu] Ht. split; [intros k; eapply Forall_impl; [apply (Hv k)|]; cbn; lia|].
  intros k uid Hs. destruct (Hu k uid Hs) as (t' & c & -> & ?). exists t', c. split; [done|lia].
Qed.
Lemma before_put k vs s t : before t s -> Forall (fun w => wtime w < t) vs -> before t (put_key k vs s).
Proof. intros [Hv Hu] Hvs. split; [|exact Hu]. intros k'. rewrite at_put. by case_decide. Qed.
Lemma before_push k v s t : before t s -> wtime v < t -> before t (push k v s).
Proof. intros Hb Ht. apply before_put; [done|]. apply Forall_app. split; [apply Hb|by constructor]. Qed.
Lemma before_upload k uid u s t t' c : before t s -> uid = stamp t' c -> 0 <= t' < t -> before t (put_upload k uid u s).
Proof.
  intros [Hv Hu] -> Ht. split; [exact Hv|]. intros k' uid'. cbn. intros [x [[[= <- <-] _]|[_ Hx]]%lookup_insert_Some]; [by exists t', c|].
  apply (Hu k'). by eexists.
Qed.
Lemma before_drop k uid s t : before t s -> before t (drop_upload k uid s).
Proof. intros [Hv Hu]. split; [exact Hv|]. intros k' uid'. cbn. intros [x [_ Hx]%lookup_delete_Some]. apply (Hu k'). by eexists. Qed.
Lemma before_step c now o s t : before now s -> 0 <= now < t -> before t (specStep c now o s).1.
Proof.
  intros Hb Ht. pose proof (before_mono s now t Hb ltac:(lia)) as Hs.
  assert (Hpick : forall k v a w b, pick v (at_key s k) = Some (a, w, b) -> Forall (fun w => wtime w < t) a /\ wtime w < t /\ Forall (fun w => wtime w < t) b).
  { intros k v a w b [Hat _]%pick_Some. pose proof (be_versions _ _ Hs k) as H. rewrite Hat, Forall_app, Forall_cons in H. tauto. }
  assert (Hnow : now < t) by lia.
  destruct o; cbn [specStep fst]; unfold specPut; repeat case_match; cbn [fst snd]; try done; simplify_eq;
    try (by apply before_push; first [by apply before_drop|done]); try (by apply before_drop).
  1: by apply before_put; [|apply Forall_nil].
  1, 2, 3: apply before_put; [done|];
    match goal with H : pick _ _ = Some _ |- _ => destruct (Hpick _ _ _ _ _ H) as (? & ? & ?) end;
    apply Forall_app; split; [done|]; try (constructor; done); done.
  1: eapply before_upload; [done|reflexivity|lia].
  all: match goal with H : bk_uploads _ !! (?k, ?uid) = Some _ |- _ => destruct (be_uploads _ _ Hs k uid) as (t' & c' & -> & ?) end; [by eexists|by eapply before_upload].
Qed.

Lemma step_refines p s now o : tells p s -> before now s -> 0 <= now < 2 ^ 63 -> callOk o -> exists c, refined c now o p s.
Proof.
  intros Ht Hb Hn Ho. destruct o; cbn [callOk] in Ho.
  - by apply put_refines.
  - exists 0. by apply head_refines.
  - destruct Ho. exists 0, p. split; [by apply get_reads|done].
  - by apply delete_refines.
  - exists 0. by apply purge_refines.
  - destruct Ho as (? & ? & ?). by apply copy_refines.
  - destruct Ho. exists 0. by apply retention_refines.
  - destruct Ho. exists 0. by apply update_refines.
  - destruct Ho. exists 0. by apply hold_refines.
  - exists 0. by apply versions_refines.
  - destruct Ho. exists 0. by apply deleteVersion_refines.
  - by apply create_refines.
  - destruct Ho. exists 0. by apply part_refines.
  - destruct Ho as (? & ? & ?). by apply complete_refines.
  - destruct Ho. exists 0. by apply abort_refines.
Qed.

(** Calls in the order of their times, on a bucket written before. *)
Record paced (s : bucket) (calls : list (Time * op)) : Prop := {
  pa_sorted : StronglySorted (fun x y : Time * op => x.1 < y.1) calls;
  pa_calls : Forall (fun x => 0 <= x.1 < 2 ^ 63 /\ callOk x.2 /\ before x.1 s) calls }.

Lemma paced_step c now o s calls : paced s ((now, o) :: calls) -> before now s /\ 0 <= now < 2 ^ 63 /\ callOk o /\ paced (specStep c now o s).1 calls.
Proof.
  intros [Hs Hf]. apply StronglySorted_inv in Hs as [Hs Hlt]. apply Forall_cons in Hf as [(Hn & Ho & Hb) Hf]. do 3 (split; [done|]). split; [done|].
  rewrite Forall_forall in Hf, Hlt |- *. intros x Hx. destruct (Hf x Hx) as (? & ? & _). do 2 (split; [done|]).
  apply (before_step c now); [done|]. split; [apply Hn|by apply (Hlt x Hx)].
Qed.

Lemma run_refines calls p s : tells p s -> paced s calls -> exists serials p', length serials = length calls /\
  localRun calls p = (p', (specRun calls serials s).2) /\ tells p' (specRun calls serials s).1.
Proof.
  revert p s. induction calls as [|[now o] calls IH]; intros p s Ht Hp; [by exists [], p|].
  destruct (paced_step 0 _ _ _ _ Hp) as (Hb & Hn & Ho & _). destruct (step_refines p s now o Ht Hb Hn Ho) as (c & p1 & Hl & Ht1).
  destruct (paced_step c _ _ _ _ Hp) as (_ & _ & _ & Hp1). destruct (IH p1 _ Ht1 Hp1) as (serials & p2 & Hlen & Hr & Ht2).
  exists (c :: serials), p2. cbn [length localRun specRun]. rewrite Hl, Hr. destruct (specStep c now o s) as [s1 r]. cbn [fst snd] in *.
  destruct (specRun calls serials s1) as [s2 rs]. split; [lia|done].
Qed.

(** *** A version lasts *)
Definition lookupVer (v : string) (vs : list ver) : option ver := head (filter (fun w => vid w = v) vs).
Definition spares (k v : string) (o : op) : Prop :=
  match o with OpPurge k' => k' <> k | OpDeleteVersion k' v' => (k', v') <> (k, v) | _ => True end.
(** The same version, but for its retention. *)
Definition sameVer (w w' : ver) : Prop := w' = withRetention w (sc_Retention w'.1).

Lemma sameVer_refl w : sameVer w w. Proof. by destruct w as [[] ?]. Qed.
Lemma sameVer_trans w w1 w2 : sameVer w w1 -> sameVer w1 w2 -> sameVer w w2.
Proof. unfold sameVer. intros H1 H2. rewrite H2, H1. done. Qed.

Lemma lookupVer_app v l l' w : lookupVer v l = Some w -> lookupVer v (l ++ l') = Some w.
Proof. unfold lookupVer. rewrite filter_app. by destruct (filter _ l). Qed.
Lemma lookupVer_pick v vs : lookupVer v vs = (fun x => x.1.2) <$> pick v vs.
Proof.
  unfold lookupVer. induction vs as [|w vs IH]; [done|]. cbn [pick]. case_bool_decide as Hw.
  - by rewrite filter_cons_True.
  - rewrite filter_cons_False by done. rewrite IH. by destruct (pick v vs) as [[[? ?] ?]|].
Qed.
(** One version is changed, or left out. *)
Lemma lookupVer_replace v a w w' b x : lookupVer v (a ++ w :: b) = Some x -> sameVer w w' ->
  exists x', lookupVer v (a ++ w' :: b) = Some x' /\ sameVer x x'.
Proof.
  unfold lookupVer. intros Hx Hs. assert (Hv : vid w' = vid w) by (rewrite Hs; done). rewrite filter_app in Hx |- *.
  destruct (filter _ a) as [|y l]; [|exists x; split; [done|apply sameVer_refl]]. cbn [app] in *. destruct (decide (vid w = v)) as [He|He].
  - rewrite filter_cons_True in Hx |- * by congruence. injection Hx as <-. by exists w'.
  - rewrite filter_cons_False in Hx |- * by congruence. exists x. split; [done|apply sameVer_refl].
Qed.
Lemma lookupVer_without v a w b x : vid w <> v -> lookupVer v (a ++ w :: b) = Some x -> lookupVer v (a ++ b) = Some x.
Proof. unfold lookupVer. intros Hw. rewrite !filter_app, filter_cons_False by done. done. Qed.

Lemma spec_keeps c now o s k v w : spares k v o -> lookupVer v (at_key s k) = Some w ->
  exists w', lookupVer v (at_key (specStep c now o s).1 k) = Some w' /\ sameVer w w'.
Proof.
  intros Ho Hw. assert (Hsame : exists w', lookupVer v (at_key s k) = Some w' /\ sameVer w w') by (exists w; split; [done|apply sameVer_refl]).
  assert (Hpush : forall k' x, exists w', lookupVer v (at_key (push k' x s) k) = Some w' /\ sameVer w w').
  { intros k' x. rewrite at_push. case_decide as Hk; [|done]. subst k'. exists w. split; [by apply lookupVer_app|apply sameVer_refl]. }
  assert (Hrep : forall k' v' a x b rt, pick v' (at_key s k') = Some (a, x, b) ->
    exists w', lookupVer v (at_key (put_key k' (a ++ withRetention x rt :: b) s) k) = Some w' /\ sameVer w w').
  { intros k' v' a x b rt [Hat _]%pick_Some. rewrite at_put. case_decide as Hk; [|done]. subst k'. rewrite Hat in Hw.
    apply (lookupVer_replace _ _ _ _ _ _ Hw). by destruct x as [[] ?]. }
  destruct o; cbn [specStep fst spares] in *; unfold specPut; repeat case_match; cbn [fst]; try done; try (by apply Hpush); try (by eapply Hrep).
  - rewrite at_put. by case_decide.
  - rewrite at_put. case_decide as Hk; [|done]. subst k0. match goal with H : pick _ _ = Some _ |- _ => apply pick_Some in H as [Hat Hv] end.
    rewrite Hat in Hw. exists w. split; [|apply sameVer_refl]. eapply lookupVer_without; [|exact Hw]. congruence.
Qed.
Lemma calls_keep calls serials s k v w : Forall (fun x => spares k v x.2) calls -> lookupVer v (at_key s k) = Some w ->
  exists w', lookupVer v (at_key (specRun calls serials s).1 k) = Some w' /\ sameVer w w'.
Proof.
  revert serials s w. induction calls as [|[now o] calls IH]; intros serials s w Hs Hw; [exists w; split; [done|apply sameVer_refl]|].
  destruct serials as [|c serials]; [exists w; split; [done|apply sameVer_refl]|]. apply Forall_cons in Hs as [Ho Hs]. cbn [specRun].
  destruct (spec_keeps c now o s k v w Ho Hw) as (w1 & Hw1 & Hs1). destruct (specStep c now o s) as [s1 r]. cbn [fst] in Hw1.
  destruct (IH serials s1 w1 Hs Hw1) as (w2 & Hw2 & Hs2). destruct (specRun calls serials s1). exists w2. split; [done|]. by eapply sameVer_trans.
Qed.

Lemma lookupVer_new k vs v : Forall (verOk k) (vs ++ [v]) -> Forall (fun w => wtime w < wtime v) vs -> lookupVer (vid v) (vs ++ [v]) = Some v.
Proof.
  rewrite Forall_app, Forall_singleton. intros [Hvs Hv] Ht. unfold lookupVer. rewrite filter_app. assert (Hn : filter (fun w => vid w = vid v) vs = []).
  { rewrite Forall_forall in Hvs, Ht. apply elem_of_nil_inv. intros w [He Hw]%list_elem_of_filter. specialize (Ht w Hw).
    pose proof (vid_time k w v (Hvs w Hw) Hv He). lia. }
  rewrite Hn. by rewrite filter_cons_True.
Qed.

Lemma vacant_empty (f : fs doc) d : d <> [] -> (forall x q, f !! (root ++ x :: q) = None) -> vacant root f d.
Proof.
  intros Hd Hu. destruct d as [|x d]; [done|]. split; [intros q; apply Hu|]. intros [|y p] r _ Hp _; [done|]. left. apply Hu.
Qed.
Lemma tells_empty p : through (lf_fs p) root -> (forall x q, lf_fs p !! (root ++ x :: q) = None) -> tells p emptyBucket.
Proof.
  intros Hr Hu. split; [done| |].
  - intros k Hk. right. split; [done|]. apply vacant_empty; [apply Split_nonempty|done].
  - intros k uid Hk Hid. unfold emptyBucket. cbn [bk_uploads]. rewrite lookup_empty. by apply vacant_empty.
Qed.

(** ** Properties *)

(** C14: From an empty root directory, any calls at times that move on, on keys
    none of which is a path prefix of another nor below "_multipart" ([Keys]:
    the keys of one depth, for instance), with version and upload identifiers
    of one path component and positive part numbers, answer what the store of
    versions answers, errors included, for some serial numbers in the
    identifiers, and the directory holds the versions and the open uploads of
    that store at the end. Outside these calls lie [purge_removes_nested_keys]
    and [abort_escapes]. *)
Theorem local_refines p calls : through (lf_fs p) root -> (forall x q, lf_fs p !! (root ++ x :: q) = None) -> paced emptyBucket calls ->
  exists serials p', length serials = length calls /\ localRun calls p = (p', (specRun calls serials emptyBucket).2) /\
    tells p' (specRun calls serials emptyBucket).1.
Proof. intros Hr Hu Hp. apply run_refines; [|done]. by apply tells_empty. Qed.

(** C15: A version that was written is read back by its identifier, with the
    body, checksum and identifier it was written with, after any such calls
    (keys none of which is a path prefix of another, identifiers of one path
    component, times that move on) that neither purge its key nor delete it:
    later versions, delete markers, copies, uploads in parts and changes of
    its retention leave it alone, and so does whatever is done to other
    keys. *)
Theorem version_survives p s now req body b p1 r calls p2 replies t :
  tells p s -> paced s ((now, OpPut req) :: calls) -> pq_Body req = Some body -> ReadAll body = Ok b ->
  localStep now (OpPut req) p = (p1, Wrote r) -> Forall (fun x => spares (pq_Key req) (pr_VersionID r) x.2) calls ->
  localRun calls p1 = (p2, replies) ->
  exists m, localStep t (OpGet (pq_Key req) (pr_VersionID r) None) p2 = (p2, Body b m) /\
    om_Key m = pq_Key req /\ om_VersionID m = pr_VersionID r /\ om_ChecksumSHA256 m = sha256_hex b /\ om_Size m = len b.
Proof.
  intros Ht Hp Hbody Hread Hput Hsp Hrun. destruct (paced_step 0 _ _ _ _ Hp) as (Hb & Hn & Hk & _). cbn [callOk] in Hk.
  destruct (put_refines p s now req Ht Hb Hn Hk) as (c & p1' & Hl & Ht1). rewrite Hput in Hl. injection Hl as <- Hrep.
  destruct (paced_step c _ _ _ _ Hp) as (_ & _ & _ & Hp1). cbn [specStep] in *. unfold specPut in *. rewrite Hbody, Hread in *.
  set (k := pq_Key req) in *. destruct (_ && _); [done|]. destruct (sumOk req b); [|done]. cbn [fst snd] in *.
  set (v := newVer k c b (pq_ContentType req) (pq_Retention req) now) in *. injection Hrep as Hr. subst r. cbn [resultOf pr_VersionID] in *.
  assert (Hat : at_key (push k v s) k = at_key s k ++ [v]) by (rewrite at_push; by rewrite decide_True).
  assert (Hh : holds root (lf_fs p1) k (at_key s k ++ [v])) by (rewrite <- Hat; apply holds_nonempty; [done..|]; rewrite Hat; by destruct (at_key s k)).
  assert (Hlook : lookupVer (vid v) (at_key (push k v s) k) = Some v) by (rewrite Hat; eapply lookupVer_new; [apply Hh|apply (be_versions _ _ Hb k)]).
  pose proof (ver_ok _ _ _ _ v Hh ltac:(set_solver)) as Hok.
  destruct (run_refines calls p1 _ Ht1 Hp1) as (serials & p2' & _ & Hl & Ht2). rewrite Hrun in Hl. injection Hl as <- _.
  destruct (calls_keep calls serials _ k (vid v) v Hsp Hlook) as (w & Hw & Hs).
  pose proof (get_reads 0 p2 _ t k (vid v) None Ht2 Hk (vo_plain _ _ Hok)) as Hg.
  rewrite Hg. cbn [specStep snd]. rewrite bool_decide_false by apply stamp_nonempty. rewrite lookupVer_pick in Hw.
  destruct (pick (vid v) _) as [[[a x] d]|]; [|done]. injection Hw as ->. cbn. unfold readVer. rewrite Hs. cbn. by eexists.
Qed.
End refinement.

(** ** Witnesses *)

(** Keys of two components, with a common first one. *)
#[local] Existing Instance deep_Keys.
Definition ex_disk : Provider := mkProvider {[["data"] := Dir]} 0.
Definition ex_body (k : string) (b : bytes) : PutRequest := mkPutRequest k (Some (bytes_NewReader b)) (len b) "" "" "" "" "" "" zeroRetentionSpec false.
Definition ex_first : Time * op := (10, OpPut (ex_body "t/a" [x01; x02])).
Definition ex_later : list (Time * op) :=
  [(20, OpPut (ex_body "t/a" [x03])); (30, OpDelete "t/a"); (40, OpHead "t/a"); (50, OpCopy "t/a" "" "t/b" zeroRetentionSpec);
   (60, OpUpdateRetention "t/b" "none" RetentionGovernance 1000 false); (61, OpCreate (mkMultipartRequest "t/b" "" "" "" "" zeroRetentionSpec ""));
   (62, OpUploadPart "t/a" "none" 1 (Some (bytes_NewReader [x04]))); (63, OpAbort "t/a" "none"); (70, OpPurge "t/b"); (80, OpListVersions "t/a")].

Lemma ex_disk_empty : through (lf_fs ex_disk) ["data"] /\ forall x q, lf_fs ex_disk !! (["data"] ++ x :: q) = None.
Proof.
  split.
  - intros p1 x p2 Heq. destruct p1 as [|y p1]; [|by destruct p1]. injection Heq as <- <-. reflexivity.
  - intros x q. cbn [ex_disk lf_fs]. by rewrite lookup_singleton_ne.
Qed.
Lemma ex_keys : deep 2 "t/a" /\ deep 2 "t/b" /\ plainID "" /\ uidOk "none".
Proof. unfold uidOk, deep, plainID. split_and!; vm_compute; done. Qed.
Lemma ex_paced : paced (deep 2) emptyBucket (ex_first :: ex_later).
Proof.
  destruct ex_keys as (Ha & Hb & He & Hn). pose proof (proj1 Hn) as Hp. split; [repeat constructor|].
  assert (Hc : forall t o, 0 <= t < 2 ^ 63 -> callOk (deep 2) o -> 0 <= (t, o).1 < 2 ^ 63 /\ callOk (deep 2) (t, o).2 /\ before (t, o).1 emptyBucket).
  { intros t o Ht Ho. split; [done|]. split; [done|]. split; [intros k; constructor|]. intros k uid [x Hx]. cbn in Hx. by rewrite lookup_empty in Hx. }
  repeat (apply Forall_cons_2; [apply Hc; [lia|first [done|by repeat constructor]]|]). constructor.
Qed.
Lemma local_refines_witness : exists serials p', length serials = 11%nat /\
  localRun ["data"] (ex_first :: ex_later) ex_disk = (p', (specRun (ex_first :: ex_later) serials emptyBucket).2) /\
  tells ["data"] (deep 2) p' (specRun (ex_first :: ex_later) serials emptyBucket).1.
Proof. destruct ex_disk_empty as [Hr Hu]. exact (local_refines ["data"] (deep 2) ex_disk (ex_first :: ex_later) Hr Hu ex_paced). Defined.

Lemma version_survives_witness : exists p1 r p2 replies m, localStep ["data"] 10 ex_first.2 ex_disk = (p1, Wrote r) /\
  localRun ["data"] ex_later p1 = (p2, replies) /\ localStep ["data"] 90 (OpGet "t/a" (pr_VersionID r) None) p2 = (p2, Body [x01; x02] m).
Proof.
  assert (Hp : exists p1 r, localStep ["data"] 10 ex_first.2 ex_disk = (p1, Wrote r)) by (vm_compute; by do 2 eexists).
  destruct Hp as (p1 & r & Hp). destruct (localRun ["data"] ex_later p1) as [p2 replies] eqn:Hrun. destruct ex_disk_empty as [Hr Hu].
  assert (Hs : Forall (fun x : Time * op => spares "t/a" (pr_VersionID r) x.2) ex_later) by (repeat (apply Forall_cons; split); [..|constructor]; done).
  destruct (version_survives ["data"] (deep 2) ex_disk emptyBucket 10 (ex_body "t/a" [x01; x02]) (bytes_NewReader [x01; x02]) [x01; x02] p1 r ex_later p2 replies 90
    (tells_empty ["data"] (deep 2) ex_disk Hr Hu) ex_paced eq_refl eq_refl Hp Hs Hrun) as (m & Hm & _).
  exists p1, r, p2, replies, m. split; [exact Hp|]. split; [exact Hrun|exact Hm].
Defined.

(** An upload from its start to its end: the identifier is the one the first call gives. *)
Example upload_round : let (p1, r) := localStep ["data"] 10 (OpCreate (mkMultipartRequest "a" "text/plain" "" "" "" zeroRetentionSpec "")) ex_disk in
  match r with
  | Opened u =>
      let uid := mu_UploadID u in
      let (p2, rs) := localRun ["data"] [(20, OpUploadPart "a" uid 2 (Some (bytes_NewReader [x02])));
        (30, OpUploadPart "a" uid 1 (Some (bytes_NewReader [x01]))); (40, OpComplete "a" uid [mkCompletedPart 1 "" 1; mkCompletedPart 2 "" 1] zeroRetentionSpec);
        (50, OpAbort "a" uid)] p1 in
      match localStep ["data"] 60 (OpGet "a" "" None) p2 with (_, Body b m) => (b, om_Size m) | _ => ([], 0) end
  | _ => ([], 0)
  end = ([x01; x02], 2).
Proof. vm_compute. reflexivity. Qed.

(** An upload identifier is not checked the way a key is: one that climbs out of the staging area takes the directory of
    the whole store with it. *)
Example abort_escapes : let (p1, r) := localStep ["data"] 10 (OpPut (ex_body "a" [x01; x02])) ex_disk in
  let (p2, r2) := AbortMultipart ["data"] (mkMultipartUpload "a" "../..") p1 in
  (r2, size (lf_fs p1), lf_fs p2) = (Ok tt, 4%nat, ∅).
Proof. vm_compute. reflexivity. Qed.

(** A part whose body fails on the way has replaced the good one all the same, and the completion, which does not look at
    the sizes it is given, publishes it. *)
Example failed_part_published : let (p1, r) := localStep ["data"] 10 (OpCreate (mkMultipartRequest "a" "" "" "" "" zeroRetentionSpec "")) ex_disk in
  match r with
  | Opened u =>
      let uid := mu_UploadID u in
      let (p2, rs) := localRun ["data"] [(20, OpUploadPart "a" uid 1 (Some (bytes_NewReader [x01; x02])));
        (30, OpUploadPart "a" uid 1 (Some (mkReader [x01] (Some (ErrNew "reset"))))); (40, OpComplete "a" uid [mkCompletedPart 1 "" 2] zeroRetentionSpec)] p1 in
      match localStep ["data"] 60 (OpGet "a" "" None) p2 with (_, Body b m) => (nth 1 rs Done, b) | _ => (Done, []) end
  | _ => (Done, [])
  end = (Failed None, [x01]).
Proof. vm_compute. reflexivity. Qed.
