(* ===== verification/Multipart.v ===== *)
(** * internal/blobio/pipeline.go: promoteMultipart

    The reader goroutine, the upload workers and the collector of
    [promoteMultipart] as a machine: each goroutine has a program counter,
    the two bounded channels are queues, and [step] is one atomic action of
    the goroutine a [choice] names. [drive] is one schedule of the machine,
    which the sequential model of the pipeline runs; the safety theorem
    covers every schedule. *)
From S2P Require Import Prelude GoStd Sha256 BlobStore Fs LocalFsDev LocalStore.
Local Open Scope Z_scope.

(** [promotePartSize]. *)
Definition promotePartSize : Z := 16 * 1024 * 1024.

Record partJob := mkPartJob { pj_num : Z; pj_body : bytes }.
(** The result of one upload: the part, or [err]. *)
Record partResult := mkPartResult { ps_num : Z; ps_res : result UploadedPart }.

(** Program counters. [RdSend job last]: the reader is at the send of [job],
    the last one if the read was short. *)
Inductive readerPc := RdLoop | RdRead | RdSend (job : partJob) (last : bool) | RdExit.
Inductive workerPc := WRange | WJob (job : partJob) | WUpload (job : partJob)
| WReply (res : partResult) | WExit.
(** [CoAbort e]: returning [e], the deferred abort is next; [CoCancel r]: the
    deferred cancel is next. *)
Inductive collectorPc := CoCollect | CoAbort (e : error) | CoCancel (r : result PutResult)
| CoReturned (r : result PutResult).

Record mpart (St : Type) := mkMpart {
  mp_store : St;
  mp_rest : bytes;
  mp_hash : bytes;
  mp_partNum : Z;
  mp_reader : readerPc;
  mp_readErr : option error;
  mp_partCh : list partJob;
  mp_workers : list workerPc;
  mp_resultCh : list partResult;
  mp_results : gmap Z partResult;
  mp_col : collectorPc;
  mp_cancelled : bool
}.
Arguments mkMpart {St}.
Arguments mp_store {St} _.
Arguments mp_rest {St} _.
Arguments mp_hash {St} _.
Arguments mp_partNum {St} _.
Arguments mp_reader {St} _.
Arguments mp_readErr {St} _.
Arguments mp_partCh {St} _.
Arguments mp_workers {St} _.
Arguments mp_resultCh {St} _.
Arguments mp_results {St} _.
Arguments mp_col {St} _.
Arguments mp_cancelled {St} _.
#[export] Instance eta_mpart St : Eta (mpart St) := fun m =>
  mkMpart (mp_store m) (mp_rest m) (mp_hash m) (mp_partNum m) (mp_reader m) (mp_readErr m)
    (mp_partCh m) (mp_workers m) (mp_resultCh m) (mp_results m) (mp_col m) (mp_cancelled m).

(** Which goroutine moves. [ChSendCancelled] is the reader's other select
    case, [ChCtxDone] the collector's, [ChCancel] a cancellation from
    outside. *)
Inductive choice := ChReader | ChSendCancelled | ChWorker (i : nat) | ChCollect | ChFinish
| ChCtxDone | ChCancel.

Definition ctxErr : error := ErrSentinel CtxCanceled.

(** How the input ends: a reader that fails with [io.ErrUnexpectedEOF]
    looks like one at its end. *)
Definition endOfInput (rerr : option error) : bool :=
  match rerr with None => true | Some e => bool_decide (e = ErrSentinel IoUnexpectedEOF) end.

(** The completed parts in order, up to the largest number. *)
Definition maxPart (results : gmap Z partResult) : Z :=
  foldr (fun r acc => if acc <? r.1 then r.1 else acc) 0 (map_to_list results).

Definition partOf (r : partResult) : UploadedPart :=
  match ps_res r with Ok p => p | Err _ => mkUploadedPart 0 "" 0 end.

Fixpoint completedFrom (count : nat) (i : Z) (results : gmap Z partResult)
  : result (list CompletedPart) :=
  match count with
  | O => Ok []
  | S count' =>
      match results !! i with
      | None => Err (ErrNew "blobio: missing part %d result")
      | Some res =>
          match completedFrom count' (i + 1) results with
          | Err e => Err e
          | Ok parts =>
              let part := partOf res in
              Ok (mkCompletedPart (up_PartNumber part) (up_ChecksumSHA256 part) (up_Size part) :: parts)
          end
      end
  end.

(** Storing a result; a failed one makes the collector return. *)
Fixpoint drain (l : list partResult) (results : gmap Z partResult)
  : gmap Z partResult * option error :=
  match l with
  | [] => (results, None)
  | r :: l' =>
      match ps_res r with
      | Err e => (<[ps_num r := r]> results, Some (ErrWrap "blobio: upload part %d: %w" e))
      | Ok _ => drain l' (<[ps_num r := r]> results)
      end
  end.

Definition isExit (w : workerPc) : bool := match w with WExit => true | _ => false end.
Definition readerDone (p : readerPc) : bool := match p with RdExit => true | _ => false end.

Section machine.
Context {St : Type} `{Store St}.
Context (now : Time) (psize : Z) (upload : MultipartUpload) (rerr : option error)
  (checksum : string) (par : nat).
Notation mpart := (mpart St).
Implicit Types (m : mpart).

(** The error of [io.ReadFull] that stops the reader: a short read that is
    not the end of the input. *)
Definition readErrOf (short : bool) : option error :=
  if short && negb (endOfInput rerr) then rerr else None.

(** The reader goroutine. *)
Definition stepReader m : option mpart :=
  match mp_reader m with
  | RdLoop =>
      if mp_cancelled m
      then Some (m <| mp_readErr := Some ctxErr |> <| mp_reader := RdExit |>)
      else Some (m <| mp_reader := RdRead |>)
  | RdRead =>
      let chunk := takeZ psize (mp_rest m) in
      let short := len chunk <? psize in
      let m := m <| mp_rest := dropZ psize (mp_rest m) |> in
      match readErrOf short with
      | Some e =>
          Some (m <| mp_readErr := Some (if mp_cancelled m then ctxErr
                                         else ErrWrap "blobio: multipart read part %d: %w" e) |>
                  <| mp_reader := RdExit |>)
      | None =>
          if len chunk =? 0 then Some (m <| mp_reader := RdExit |>)
          else Some (m <| mp_hash := mp_hash m ++ chunk |>
                       <| mp_reader := RdSend (mkPartJob (mp_partNum m) chunk) short |>)
      end
  | RdSend job last =>
      if (length (mp_partCh m) <? par)%nat
      then Some (m <| mp_partCh := mp_partCh m ++ [job] |>
                   <| mp_partNum := wrap32 (mp_partNum m + 1) |>
                   <| mp_reader := if last then RdExit else RdLoop |>)
      else None
  | RdExit => None
  end.

Definition stepSendCancelled m : option mpart :=
  match mp_reader m with
  | RdSend _ _ =>
      if mp_cancelled m
      then Some (m <| mp_readErr := Some ctxErr |> <| mp_reader := RdExit |>)
      else None
  | _ => None
  end.

(** An upload worker: [for job := range partCh]. *)
Definition setWorker (i : nat) (w : workerPc) m : mpart := m <| mp_workers := <[i := w]> (mp_workers m) |>.

Definition stepWorker (i : nat) m : option mpart :=
  match mp_workers m !! i with
  | Some WRange =>
      match mp_partCh m with
      | job :: q => Some (setWorker i (WJob job) (m <| mp_partCh := q |>))
      | [] => if readerDone (mp_reader m) then Some (setWorker i WExit m) else None
      end
  | Some (WJob job) =>
      if mp_cancelled m then Some (setWorker i (WReply (mkPartResult (pj_num job) (Err ctxErr))) m)
      else Some (setWorker i (WUpload job) m)
  | Some (WUpload job) =>
      let '(s, r) := st_UploadPart now
                       (mkUploadPartRequest upload (pj_num job) (Some (bytes_NewReader (pj_body job))))
                       (mp_store m) in
      Some (setWorker i (WReply (mkPartResult (pj_num job) r)) (m <| mp_store := s |>))
  | Some (WReply res) =>
      if (length (mp_resultCh m) <? par)%nat
      then Some (setWorker i WRange (m <| mp_resultCh := mp_resultCh m ++ [res] |>))
      else None
  | _ => None
  end.

(** The collector. *)
Definition stepCollect m : option mpart :=
  match mp_col m with
  | CoCollect =>
      match mp_resultCh m with
      | [] => None
      | r :: q =>
          let m := m <| mp_resultCh := q |> <| mp_results := <[ps_num r := r]> (mp_results m) |> in
          match ps_res r with
          | Err e => Some (m <| mp_col := CoAbort (ErrWrap "blobio: upload part %d: %w" e) |>)
          | Ok _ => Some m
          end
      end
  | CoAbort e =>
      let '(s, _) := st_AbortMultipart upload (mp_store m) in
      Some (m <| mp_store := s |> <| mp_col := CoCancel (Err e) |>)
  | CoCancel r => Some (m <| mp_cancelled := true |> <| mp_col := CoReturned r |>)
  | CoReturned _ => None
  end.

(** All workers are done: drain, then build and complete the upload. *)
Definition complete m : mpart :=
  match mp_readErr m with
  | Some e => m <| mp_col := CoAbort e |>
  | None =>
      match completedFrom (Z.to_nat (maxPart (mp_results m))) 1 (mp_results m) with
      | Err e => m <| mp_col := CoAbort e |>
      | Ok parts =>
          if negb (bool_decide (sha256_hex (mp_hash m) = checksum))
          then m <| mp_col := CoAbort (ErrWrap "blobio: %w: multipart checksum mismatch"
                                         (ErrSentinel BsChecksumMismatch)) |>
          else match st_CompleteMultipart now (mkCompleteRequest upload parts zeroRetentionSpec)
                       (mp_store m) with
               | (s, Err e) => m <| mp_store := s |>
                                 <| mp_col := CoAbort (ErrWrap "blobio: complete multipart: %w" e) |>
               | (s, Ok r) => m <| mp_store := s |> <| mp_col := CoCancel (Ok r) |>
               end
      end
  end.

Definition stepFinish m : option mpart :=
  match mp_col m with
  | CoCollect =>
      if forallb isExit (mp_workers m) then
        let '(results, err) := drain (mp_resultCh m) (mp_results m) in
        let m := m <| mp_resultCh := [] |> <| mp_results := results |> in
        match err with
        | Some e => Some (m <| mp_col := CoAbort e |>)
        | None => Some (complete m)
        end
      else None
  | _ => None
  end.

Definition stepCtxDone m : option mpart :=
  match mp_col m with
  | CoCollect => if mp_cancelled m then Some (m <| mp_col := CoAbort ctxErr |>) else None
  | _ => None
  end.

Definition step (c : choice) m : option mpart :=
  match c with
  | ChReader => stepReader m
  | ChSendCancelled => stepSendCancelled m
  | ChWorker i => stepWorker i m
  | ChCollect => stepCollect m
  | ChFinish => stepFinish m
  | ChCtxDone => stepCtxDone m
  | ChCancel => Some (m <| mp_cancelled := true |>)
  end.

(** The state when the goroutines have been started. *)
Definition start (s : St) (body : bytes) : mpart :=
  mkMpart s body [] 1 RdLoop None [] (repeat WRange par) [] ∅ CoCollect false.

Inductive reach (s : St) (body : bytes) : mpart -> Prop :=
| reach_start : reach s body (start s body)
| reach_step c m m' : reach s body m -> step c m = Some m' -> reach s body m'.

(** One schedule: the first goroutine, in a fixed order, that can move. *)
Fixpoint firstEnabled (cs : list choice) m : option mpart :=
  match cs with
  | [] => None
  | c :: cs' => match step c m with Some m' => Some m' | None => firstEnabled cs' m end
  end.

Definition schedule : list choice :=
  ChCollect :: ChFinish :: map ChWorker (seq 0 par) ++ [ChReader].

Fixpoint drive (fuel : nat) m : option (mpart * result PutResult) :=
  match fuel with
  | O => None
  | S fuel' =>
      match mp_col m with
      | CoReturned r => Some (m, r)
      | _ => match firstEnabled schedule m with
             | Some m' => drive fuel' m'
             | None => None
             end
      end
  end.
End machine.

(** The effective parallelism. *)
Definition workers (parallelism : Z) : nat := Z.to_nat (if parallelism <? 1 then 1 else parallelism).

(** [promoteMultipart], run under [drive]; [None] would mean that the fuel
    was not enough, which [multipart_returns] excludes. *)
Definition promoteMultipart {St} `{Store St} (now : Time) (psize parallelism : Z) (blobID : string)
    (r : reader) (checksum : string) (retention : RetentionSpec) (s : St)
  : option (St * result PutResult) :=
  match st_CreateMultipart now
          (mkMultipartRequest blobID "application/octet-stream" "" "" "" retention "") s with
  | (s, Err e) => Some (s, Err (ErrWrap "blobio: create multipart: %w" e))
  | (s, Ok upload) =>
      let par := workers parallelism in
      match drive now psize upload (rd_err r) checksum par (10 * length (rd_bytes r) + par + 8)
              (start par s (rd_bytes r)) with
      | Some (m, res) => Some (mp_store m, res)
      | None => None
      end
  end.

(** ** Chunks *)
Definition chunkAt (psize : Z) (body : bytes) (k : Z) : bytes :=
  takeZ psize (dropZ (psize * (k - 1)) body).

Lemma chunk_next psize (h rest body : bytes) k :
  0 <= psize -> 1 <= k -> h ++ rest = body -> len h = psize * (k - 1) ->
  takeZ psize rest = chunkAt psize body k.
Proof.
  intros Hp Hk <- Hl. unfold chunkAt. rewrite (dropZ_drop _ (h ++ rest)), <- Hl.
  unfold len. by rewrite Nat2Z.id, drop_app_length.
Qed.

(** [count] chunks from number [i] on. *)
Fixpoint chunkList (psize : Z) (body : bytes) (count : nat) (i : Z) : list bytes :=
  match count with
  | O => []
  | S count' => chunkAt psize body i :: chunkList psize body count' (i + 1)
  end.

Lemma chunkList_concat psize (body : bytes) n i :
  0 <= psize -> 1 <= i ->
  concat (chunkList psize body n i) = takeZ (psize * Z.of_nat n) (dropZ (psize * (i - 1)) body).
Proof.
  intros Hp. revert i. induction n as [|n IH]; intros i Hi.
  { by rewrite takeZ_take, Z.mul_0_r. }
  cbn [chunkList concat]. rewrite IH by lia.
  unfold chunkAt. rewrite !takeZ_take, !dropZ_drop.
  replace (psize * (i + 1 - 1)) with (psize * (i - 1) + psize) by lia.
  rewrite Z2Nat.inj_add, <- drop_drop by (try apply Z.mul_nonneg_nonneg; lia).
  set (l := drop (Z.to_nat (psize * (i - 1))) body).
  replace (psize * Z.of_nat (S n)) with (psize + psize * Z.of_nat n) by lia.
  rewrite Z2Nat.inj_add by (try apply Z.mul_nonneg_nonneg; lia). by rewrite take_take_drop.
Qed.

(** ** The invariant of every schedule *)
Section invariant.
Context {St : Type} `{StoreLaws St}.
Context (t now : Time) (psize : Z) (upload : MultipartUpload) (rerr : option error)
  (checksum : string) (par : nat) (s0 : St) (body : bytes).
Context (Hps : 0 < psize) (Hlen : len body < psize * (2 ^ 31 - 2)) (Htime : t < now).
Implicit Types (m : mpart St).
Notation chunk := (chunkAt psize body).

Definition jobOk (n : Z) (job : partJob) : Prop :=
  pj_body job = chunk (pj_num job) /\ 1 <= pj_num job < n.
Definition resOk (n : Z) (r : partResult) : Prop := 1 <= ps_num r < n.
Definition workerOk m (w : workerPc) : Prop :=
  match w with
  | WRange => True
  | WJob job | WUpload job => jobOk (mp_partNum m) job
  | WReply r => resOk (mp_partNum m) r
  | WExit => mp_partCh m = [] /\ mp_reader m = RdExit
  end.
Definition workerNum (w : workerPc) : option Z :=
  match w with WJob job | WUpload job => Some (pj_num job) | WReply r => Some (ps_num r) | _ => None end.

(** The results that exist, and where a part is after its job was sent. *)
Definition resultIn m (r : partResult) : Prop :=
  (exists i, mp_workers m !! i = Some (WReply r)) \/ r ∈ mp_resultCh m \/
  (exists k, mp_results m !! k = Some r).
Definition located m (k : Z) : Prop :=
  (exists job, job ∈ mp_partCh m /\ pj_num job = k) \/
  (exists i w, mp_workers m !! i = Some w /\ workerNum w = Some k) \/
  (exists r, r ∈ mp_resultCh m /\ ps_num r = k) \/ is_Some (mp_results m !! k).

Definition readerOk m : Prop :=
  1 <= mp_partNum m < 2 ^ 31 /\
  match mp_reader m with
  | RdLoop | RdRead =>
      mp_hash m ++ mp_rest m = body /\ len (mp_hash m) = psize * (mp_partNum m - 1)
  | RdSend job last =>
      mp_hash m ++ mp_rest m = body /\ pj_num job = mp_partNum m /\ pj_body job = chunk (mp_partNum m) /\
      psize * (mp_partNum m - 1) < len (mp_hash m) /\
      if last then mp_rest m = [] /\ len (mp_hash m) <= psize * mp_partNum m
      else len (mp_hash m) = psize * mp_partNum m
  | RdExit => mp_readErr m = None -> mp_hash m = body /\ len body <= psize * (mp_partNum m - 1)
  end.

Record tokens m : Prop := {
  tk_partCh : forall job, job ∈ mp_partCh m -> jobOk (mp_partNum m) job;
  tk_workers : forall i w, mp_workers m !! i = Some w -> workerOk m w;
  tk_resultCh : forall r, r ∈ mp_resultCh m -> resOk (mp_partNum m) r;
  tk_results : forall k r, mp_results m !! k = Some r -> ps_num r = k /\ resOk (mp_partNum m) r
    /\ (mp_col m = CoCollect -> is_Ok (ps_res r) = true);
  tk_cover : mp_col m = CoCollect -> forall k, 1 <= k < mp_partNum m -> located m k;
  tk_len : length (mp_workers m) = par
}.

Definition noErr m : Prop :=
  (forall i r, mp_workers m !! i = Some (WReply r) -> is_Ok (ps_res r) = true) /\
  (forall r, r ∈ mp_resultCh m -> is_Ok (ps_res r) = true).

(** Stored bodies of other keys are untouched. *)
Definition frame (s : St) : Prop := forall k b, k <> mu_Key upload -> stored s0 k b -> stored s k b.

Definition completed (s : St) (r : PutResult) : Prop :=
  store_inv now s /\ frame s /\ stored s (mu_Key upload) body /\ pr_Size r = len body /\
  pr_ChecksumSHA256 r = sha256_hex body /\ sha256_hex body = checksum.

Definition storeOk m : Prop :=
  match mp_col m with
  | CoCollect => store_inv t (mp_store m) /\ frame (mp_store m) /\
      exists sm, staged (mp_store m) upload sm /\
        (noErr m -> forall r, resultIn m r -> sm !! ps_num r = Some (chunk (ps_num r)) /\
           forall p, ps_res r = Ok p -> up_PartNumber p = ps_num r)
  | CoAbort _ => store_inv now (mp_store m) /\ frame (mp_store m) /\
      exists sm, staged (mp_store m) upload sm
  | CoCancel (Ok r) | CoReturned (Ok r) => completed (mp_store m) r /\
      forall i w, mp_workers m !! i = Some w -> w = WExit
  | CoCancel (Err _) | CoReturned (Err _) => True
  end.

Definition inv m : Prop := readerOk m /\ tokens m /\ storeOk m.

(** *** The reader *)
Lemma jobOk_mono n n' job : n <= n' -> jobOk n job -> jobOk n' job.
Proof. unfold jobOk. intros ? [? ?]. split; [done|lia]. Qed.
Lemma resOk_mono n n' r : n <= n' -> resOk n r -> resOk n' r.
Proof. unfold resOk. lia. Qed.

Lemma short_rest (rest : bytes) : len (takeZ psize rest) < psize -> dropZ psize rest = [].
Proof.
  intros Hs. apply len_nil. rewrite len_dropZ by lia. rewrite len_takeZ in Hs by lia. lia.
Qed.

Lemma read_reader_ok m m' :
  mp_reader m = RdRead -> readerOk m -> stepReader psize rerr par m = Some m' -> readerOk m'.
Proof.
  intros Hr [Hn Hm]. unfold stepReader. rewrite Hr in *. destruct Hm as [Hb Hl].
  destruct (readErrOf _ _) as [e|] eqn:He.
  { intros [= <-]. split; [done|]. cbn. done. }
  destruct (Z.eqb_spec (len (takeZ psize (mp_rest m))) 0) as [Hz|Hz]; intros [= <-]; split; cbn; try done.
  - intros _. rewrite len_takeZ in Hz by lia. pose proof (len_nonneg (mp_rest m)).
    rewrite (len_nil (mp_rest m)), app_nil_r in Hb by lia. split; [done|]. rewrite <- Hb. lia.
  - split; [by rewrite <- app_assoc, takeZ_dropZ|]. split; [done|].
    split; [apply (chunk_next _ (mp_hash m)); (done || lia)|].
    pose proof (len_nonneg (takeZ psize (mp_rest m))). rewrite len_app. split; [lia|].
    destruct (Z.ltb_spec (len (takeZ psize (mp_rest m))) psize) as [Hs|Hs].
    + split; [by apply short_rest|lia].
    + assert (len (takeZ psize (mp_rest m)) = psize) as -> by (rewrite len_takeZ in * by lia; lia). lia.
Qed.

Lemma sendable m job last :
  readerOk m -> mp_reader m = RdSend job last -> wrap32 (mp_partNum m + 1) = mp_partNum m + 1 /\
  mp_partNum m + 1 < 2 ^ 31.
Proof.
  intros [Hn Hm] Hr. rewrite Hr in Hm. destruct Hm as (Hb & _ & _ & Hlt & _).
  assert (len (mp_hash m) <= len body) by (rewrite <- Hb, len_app; pose proof (len_nonneg (mp_rest m)); lia).
  assert (mp_partNum m - 1 < 2 ^ 31 - 2) by nia. split; [apply wrap32_small; lia|lia].
Qed.

Lemma stepReader_inv m m' : inv m -> stepReader psize rerr par m = Some m' -> inv m'.
Proof.
  intros (Hr & Ht & Hs) Hstep. destruct (mp_reader m) as [| |job last|] eqn:Hpc.
  - unfold stepReader in Hstep. rewrite Hpc in Hstep.
    destruct Ht, Hr as [Hn Hr]. rewrite Hpc in Hr.
    destruct (mp_cancelled m); injection Hstep as <-; (split; [split; [done|]; cbn; done|]);
      (split; [split; try done|exact Hs]); cbn; intros i w Hw; specialize (tk_workers0 i w Hw);
      destruct w; cbn in *; try done; destruct tk_workers0; congruence.
  - pose proof (read_reader_ok _ _ Hpc Hr Hstep) as Hr'. split; [done|].
    unfold stepReader in Hstep. rewrite Hpc in Hstep. destruct Ht.
    destruct (readErrOf _ _); [|destruct (_ =? 0)]; injection Hstep as <-;
      (split; [split; try done|exact Hs]); cbn; intros i w Hw; specialize (tk_workers0 i w Hw);
      destruct w; cbn in *; try done; destruct tk_workers0; congruence.
  - destruct (sendable m job last Hr Hpc) as [Hw32 Hlt]. unfold stepReader in Hstep. rewrite Hpc in Hstep.
    destruct (Nat.ltb _ _); [|done]. injection Hstep as <-. rewrite Hw32.
    destruct Hr as [Hn Hr]. rewrite Hpc in Hr. destruct Hr as (Hb & Hnum & Hbody & Hgt & Hlast).
    split; [|split].
    + split; cbn; [lia|]. replace (mp_partNum m + 1 - 1) with (mp_partNum m) by lia.
      destruct last; [|done]. intros _. destruct Hlast as [Hnil Hle].
      rewrite Hnil, app_nil_r in Hb. split; [done|]. by rewrite <- Hb.
    + destruct Ht. split; cbn; try done.
      * intros j [Hj|Hj%list_elem_of_singleton]%elem_of_app; [eapply jobOk_mono; [|by eauto]; lia|].
        subst j. split; [by rewrite Hnum|]. lia.
      * intros i w Hw. specialize (tk_workers0 i w Hw). destruct w; cbn in *; try done.
        -- eapply jobOk_mono; [|done]; lia.
        -- eapply jobOk_mono; [|done]; lia.
        -- eapply resOk_mono; [|done]; lia.
        -- destruct tk_workers0. congruence.
      * intros r Hr. eapply resOk_mono; [|by eauto]; lia.
      * intros k r Hr. destruct (tk_results0 k r Hr) as (? & ? & ?). split; [done|].
        split; [|done]. eapply resOk_mono; [|done]; lia.
      * intros Hc k Hk. destruct (decide (k = mp_partNum m)) as [->|Hne].
        -- left. exists job. split; [|done]. cbn. set_solver.
        -- destruct (tk_cover0 Hc k ltac:(lia)) as [(j & Hj & Hjk)|Hloc]; [|by right].
           left. exists j. split; [|done]. cbn. set_solver.
    + exact Hs.
  - unfold stepReader in Hstep. by rewrite Hpc in Hstep.
Qed.

Lemma stepSendCancelled_inv m m' : inv m -> stepSendCancelled m = Some m' -> inv m'.
Proof.
  intros (Hr & Ht & Hs) Hstep. unfold stepSendCancelled in Hstep.
  destruct (mp_reader m) eqn:Hpc; try done. destruct (mp_cancelled m); [|done]. injection Hstep as <-.
  destruct Hr as [Hn Hr]. split; [split; [done|]; cbn; done|]. destruct Ht.
  split; [split; try done|exact Hs]. cbn. intros i w Hw. specialize (tk_workers0 i w Hw).
  destruct w; cbn in *; try done. destruct tk_workers0. congruence.
Qed.

(** *** The workers *)

(** A worker moves from [w] to [w'] and keeps its part, if it holds one. *)
Lemma located_worker m m' i w w' :
  mp_workers m !! i = Some w -> mp_workers m' = <[i := w']> (mp_workers m) ->
  (forall k, workerNum w = Some k -> located m' k) ->
  (forall job, job ∈ mp_partCh m -> located m' (pj_num job)) ->
  (forall r, r ∈ mp_resultCh m -> r ∈ mp_resultCh m') -> mp_results m' = mp_results m ->
  forall k, located m k -> located m' k.
Proof.
  intros Hw Hw' Hk Hj Hr Hres k [(job & Hin & <-)|[(j & v & Hv & Hvk)|[(r & Hin & <-)|Hin]]].
  - by apply Hj.
  - destruct (decide (i = j)) as [<-|Hne].
    + apply Hk. congruence.
    + right. left. exists j, v. split; [|done]. by rewrite Hw', list_lookup_insert_ne.
  - right. right. left. exists r. split; [by apply Hr|done].
  - right. right. right. by rewrite Hres.
Qed.

Lemma worker_take_inv m i job q :
  inv m -> mp_workers m !! i = Some WRange -> mp_partCh m = job :: q ->
  inv (setWorker i (WJob job) (m <| mp_partCh := q |>)).
Proof.
  intros (Hr & Ht & Hs) Hw Hq. pose proof (lookup_lt_Some _ _ _ Hw) as Hlt.
  split; [done|]. split.
  - pose proof Ht as Ht0. destruct Ht. rewrite Hq in tk_partCh0.
    split; cbn; try done.
    + intros j Hj. apply tk_partCh0. set_solver.
    + intros j v [(<- & <- & _)|[_ Hv]]%list_lookup_insert_Some; [apply tk_partCh0; set_solver|].
      specialize (tk_workers0 j v Hv). destruct v; cbn in *; try done. destruct tk_workers0. congruence.
    + intros Hc k Hk. eapply (located_worker m _ i WRange (WJob job)); try done; [|by apply tk_cover0].
      * intros j. rewrite Hq. intros [->|Hj]%elem_of_cons.
        -- right. left. exists i, (WJob job). cbn. by rewrite list_lookup_insert_eq.
        -- left. by exists j.
    + by rewrite length_insert.
  - unfold storeOk in *. cbn [mp_col setWorker upd eta_expand eta_mpart].
    destruct (mp_col m) as [| |[]|[]]; try done.
    + destruct Hs as (? & ? & sm & Hst & Hsm). split; [done|]. split; [done|]. exists sm. split; [done|].
      intros [Hn1 Hn2] r Hres. apply Hsm.
      * split; [|done]. intros j r' Hj. apply (Hn1 j). cbn. rewrite list_lookup_insert_ne; [done|].
        intros ->. congruence.
      * destruct Hres as [[j Hj]|Hk]; [|by right]. left. exists j.
        cbn in Hj. by apply list_lookup_insert_Some in Hj as [(_ & ? & _)|[_ ?]].
    + destruct Hs as [_ Hs]. by specialize (Hs i _ Hw).
    + destruct Hs as [_ Hs]. by specialize (Hs i _ Hw).
Qed.

(** A worker that changes neither the channels nor the store, and does not
    report a success. *)
Lemma worker_local_inv m i w w' :
  inv m -> mp_workers m !! i = Some w -> workerOk m w' -> workerNum w' = workerNum w -> w <> WExit ->
  (forall r, w <> WReply r) -> (forall r, w' = WReply r -> is_Ok (ps_res r) = false) ->
  inv (setWorker i w' m).
Proof.
  intros (Hr & Ht & Hs) Hw Hok Hnum Hne Hnr Hkind. pose proof (lookup_lt_Some _ _ _ Hw) as Hlt.
  split; [done|]. split.
  - pose proof Ht as Ht0. destruct Ht. split; cbn; try done.
    + intros j v [(<- & <- & _)|[_ Hv]]%list_lookup_insert_Some; [exact Hok|exact (tk_workers0 j v Hv)].
    + intros Hc k Hk. eapply (located_worker m _ i w w'); try done; [| |by apply tk_cover0].
      * intros k' Hk'. right. left. exists i, w'. cbn. rewrite list_lookup_insert_eq by done. by rewrite Hnum.
      * intros j Hj. left. by exists j.
    + by rewrite length_insert.
  - unfold storeOk in *. cbn [mp_col setWorker upd eta_expand eta_mpart].
    destruct (mp_col m) as [| |[]|[]]; try done.
    + destruct Hs as (? & ? & sm & Hst & Hsm). split; [done|]. split; [done|]. exists sm. split; [done|].
      intros [Hn1 Hn2] r Hres. apply Hsm.
      * split; [|done]. intros j r' Hj. apply (Hn1 j). cbn. rewrite list_lookup_insert_ne; [done|].
        intros ->. rewrite Hj in Hw. injection Hw as <-. by eapply Hnr.
      * destruct Hres as [[j Hj]|Hk]; [|by right]. left. exists j. cbn in Hj.
        apply list_lookup_insert_Some in Hj as [(<- & Heq & _)|[_ Hj]]; [|done].
        specialize (Hn1 i r). cbn in Hn1. rewrite list_lookup_insert_eq in Hn1 by done.
        rewrite Heq in Hn1. specialize (Hn1 eq_refl). rewrite (Hkind r Heq) in Hn1. done.
    + destruct Hs as [_ Hs]. by specialize (Hs i _ Hw).
    + destruct Hs as [_ Hs]. by specialize (Hs i _ Hw).
Qed.

Lemma frame_trans (s s' : St) :
  (forall k b, stored s k b -> stored s' k b) -> frame s -> frame s'.
Proof. intros Hk Hf k b Hne Hst. by apply Hk, Hf. Qed.

Lemma worker_upload_inv m i job s r :
  inv m -> mp_workers m !! i = Some (WUpload job) ->
  st_UploadPart now (mkUploadPartRequest upload (pj_num job) (Some (bytes_NewReader (pj_body job))))
    (mp_store m) = (s, r) ->
  inv (setWorker i (WReply (mkPartResult (pj_num job) r)) (m <| mp_store := s |>)).
Proof.
  intros (Hr & Ht & Hs) Hw Hup. pose proof (lookup_lt_Some _ _ _ Hw) as Hlt.
  pose proof (tk_workers _ Ht i _ Hw) as [Hjob Hnum]. split; [done|]. split.
  - pose proof Ht as Ht0. destruct Ht. split; cbn; try done.
    + intros j v [(<- & <- & _)|[_ Hv]]%list_lookup_insert_Some; [exact Hnum|exact (tk_workers0 j v Hv)].
    + intros Hc k Hk. eapply (located_worker m _ i (WUpload job)); try done; [| |by apply tk_cover0].
      * intros k' Hk'. right. left. eexists i, _. cbn. rewrite list_lookup_insert_eq by done. by split.
      * intros j Hj. left. by exists j.
    + by rewrite length_insert.
  - unfold storeOk in *. cbn [mp_col mp_store setWorker upd eta_expand eta_mpart].
    destruct (mp_col m) as [| |[]|[]]; try done.
    + destruct Hs as (Hi & Hf & sm & Hst & Hsm).
      destruct (store_UploadPart _ _ _ _ _ _ _ _ _ Hi Hst Hup) as (Hi' & Hk' & Hres).
      split; [done|]. split; [by eapply frame_trans|]. destruct r as [p|e].
      * destruct Hres as [Hst' Hp]. exists (<[pj_num job := pj_body job]> sm). split; [done|].
        intros [Hn1 Hn2] r Hin.
        assert (Hold : noErr m).
        { split; [|done]. intros j r' Hj. apply (Hn1 j). cbn. rewrite list_lookup_insert_ne; [done|].
          intros ->. congruence. }
        assert (Hcase : r = mkPartResult (pj_num job) (Ok p) \/ resultIn m r).
        { destruct Hin as [[j Hj]|Hk]; [|by right; right]. cbn in Hj.
          apply list_lookup_insert_Some in Hj as [(_ & [= <-] & _)|[_ Hj]]; [by left|].
          right. left. by exists j. }
        destruct Hcase as [->|Hin0]; cbn [ps_num ps_res].
        { rewrite lookup_insert_eq, Hjob. split; [done|]. by intros p' [= <-]. }
        destruct (Hsm Hold r Hin0) as [Hsr Hpr]. split; [|done].
        destruct (decide (ps_num r = pj_num job)) as [Heq|Hneq].
        { rewrite Heq, lookup_insert_eq, Hjob. done. }
        by rewrite lookup_insert_ne.
      * destruct Hres as [sm' Hst']. exists sm'. split; [done|]. intros [Hn1 _].
        specialize (Hn1 i (mkPartResult (pj_num job) (Err e))). cbn in Hn1.
        rewrite list_lookup_insert_eq in Hn1 by done. by specialize (Hn1 eq_refl).
    + destruct Hs as (Hi & Hf & sm & Hst).
      destruct (store_UploadPart _ _ _ _ _ _ _ _ _ Hi Hst Hup) as (Hi' & Hk' & Hres).
      split; [done|]. split; [by eapply frame_trans|].
      destruct r as [p|e']; [destruct Hres; eauto|done].
    + destruct Hs as [_ Hs]. by specialize (Hs i _ Hw).
    + destruct Hs as [_ Hs]. by specialize (Hs i _ Hw).
Qed.

Lemma worker_reply_inv m i r :
  inv m -> mp_workers m !! i = Some (WReply r) ->
  inv (setWorker i WRange (m <| mp_resultCh := mp_resultCh m ++ [r] |>)).
Proof.
  intros (Hr & Ht & Hs) Hw. pose proof (lookup_lt_Some _ _ _ Hw) as Hlt.
  pose proof (tk_workers _ Ht i _ Hw) as Hok. split; [done|]. split.
  - pose proof Ht as Ht0. destruct Ht. split; cbn; try done.
    + intros j v [(<- & <- & _)|[_ Hv]]%list_lookup_insert_Some; [done|exact (tk_workers0 j v Hv)].
    + intros r' [Hr'|Hr'%list_elem_of_singleton]%elem_of_app; [by apply tk_resultCh0|by subst r'].
    + intros Hc k Hk. eapply (located_worker m _ i (WReply r)); try done; [| | |by apply tk_cover0].
      * intros k' [= <-]. right. right. left. exists r. split; [|done]. cbn. set_solver.
      * intros j Hj. left. by exists j.
      * intros r' Hr'. cbn. set_solver.
    + by rewrite length_insert.
  - unfold storeOk in *. cbn [mp_col mp_store setWorker upd eta_expand eta_mpart].
    destruct (mp_col m) as [| |[]|[]]; try done.
    + destruct Hs as (? & ? & sm & Hst & Hsm). split; [done|]. split; [done|]. exists sm. split; [done|].
      intros [Hn1 Hn2] r' Hres. apply Hsm.
      * split; [|intros r0 Hr0; apply Hn2; cbn; set_solver]. intros j r0 Hj.
        destruct (decide (j = i)) as [->|Hne].
        -- assert (r0 = r) as -> by congruence. apply Hn2. cbn. set_solver.
        -- apply (Hn1 j). cbn. by rewrite list_lookup_insert_ne.
      * destruct Hres as [[j Hj]|[Hk|Hk]]; [| |by right; right].
        -- left. exists j. cbn in Hj. by apply list_lookup_insert_Some in Hj as [(_ & ? & _)|[_ ?]].
        -- cbn in Hk. apply elem_of_app in Hk as [Hk|Hk%list_elem_of_singleton]; [by right; left|].
           subst r'. left. by exists i.
    + destruct Hs as [_ Hs]. by specialize (Hs i _ Hw).
    + destruct Hs as [_ Hs]. by specialize (Hs i _ Hw).
Qed.

Lemma stepWorker_inv i m m' : inv m -> stepWorker now upload par i m = Some m' -> inv m'.
Proof.
  intros Hi Hstep. unfold stepWorker in Hstep. destruct (mp_workers m !! i) as [[|job|job|r|]|] eqn:Hw; try done.
  - destruct (mp_partCh m) as [|job q] eqn:Hq.
    + destruct (mp_reader m) eqn:Hpc; try done. injection Hstep as <-.
      by eapply (worker_local_inv m i WRange WExit).
    + injection Hstep as <-. by apply worker_take_inv.
  - pose proof (tk_workers _ (proj1 (proj2 Hi)) i _ Hw) as Hok.
    destruct (mp_cancelled m); injection Hstep as <-; eapply (worker_local_inv m i (WJob job)); try done.
    + by destruct Hok.
    + by intros r [= <-].
  - destruct (st_UploadPart _ _ _) as [s r] eqn:Hup. injection Hstep as <-. by apply worker_upload_inv.
  - destruct (Nat.ltb _ _); [|done]. injection Hstep as <-. by apply worker_reply_inv.
Qed.

(** *** The collector *)
Lemma tokens_same m m' :
  tokens m -> mp_partCh m' = mp_partCh m -> mp_workers m' = mp_workers m ->
  mp_resultCh m' = mp_resultCh m -> mp_results m' = mp_results m -> mp_partNum m' = mp_partNum m ->
  mp_reader m' = mp_reader m -> (mp_col m' = CoCollect -> mp_col m = CoCollect) -> tokens m'.
Proof.
  intros [] H1 H2 H3 H4 H5 H6 Hc. split; rewrite ?H1, ?H2, ?H3, ?H4, ?H5; try done.
  - intros i w Hw. specialize (tk_workers0 i w Hw). destruct w; cbn in *; rewrite ?H1, ?H5, ?H6; done.
  - intros k r Hr. destruct (tk_results0 k r Hr) as (? & ? & ?). auto.
  - intros Hcol k Hk. specialize (tk_cover0 (Hc Hcol) k Hk). unfold located in *. by rewrite H1, H2, H3, H4.
Qed.

Lemma abort_inv m e : inv m -> mp_col m = CoCollect -> inv (m <| mp_col := CoAbort e |>).
Proof.
  intros (Hr & Ht & Hs) Hc. split; [done|]. split; [by eapply tokens_same|].
  unfold storeOk in Hs. rewrite Hc in Hs. destruct Hs as (Hi & Hf & sm & Hst & _). unfold storeOk. cbn.
  split; [by eapply (store_time t now); [lia|]|]. split; [done|]. by exists sm.
Qed.

(** Moving a result from the channel to the map. *)
Lemma collect_tokens m r q :
  tokens m -> mp_resultCh m = r :: q -> (mp_col m = CoCollect -> is_Ok (ps_res r) = true) ->
  tokens (m <| mp_resultCh := q |> <| mp_results := <[ps_num r := r]> (mp_results m) |>).
Proof.
  intros [] Hq Hok. rewrite Hq in *. split; cbn; try done.
  - intros r' Hr'. apply tk_resultCh0. set_solver.
  - intros k r' [[<- <-]|[Hne Hk]]%lookup_insert_Some; [|by apply tk_results0].
    split; [done|]. split; [|done]. apply tk_resultCh0. set_solver.
  - intros Hc k Hk. destruct (tk_cover0 Hc k Hk) as [Hl|[Hl|[(r' & Hin & <-)|Hl]]].
    + by left.
    + right. by left.
    + rewrite Hq in Hin. apply elem_of_cons in Hin as [->|Hin].
      * do 3 right. cbn. rewrite lookup_insert_eq. by eexists.
      * do 2 right. left. by exists r'.
    + do 3 right. cbn. destruct (decide (ps_num r = k)) as [<-|Hne]; [rewrite lookup_insert_eq; by eexists|].
      by rewrite lookup_insert_ne.
Qed.

Lemma stepCollect_inv m m' : inv m -> stepCollect upload m = Some m' -> inv m'.
Proof.
  intros Hinv Hstep. pose proof Hinv as (Hr & Ht & Hs). unfold stepCollect in Hstep.
  destruct (mp_col m) as [|e|r|r] eqn:Hc; try done.
  - destruct (mp_resultCh m) as [|r q] eqn:Hq; [done|]. destruct (ps_res r) as [p|e] eqn:Hres.
    + injection Hstep as <-. split; [done|]. split; [apply collect_tokens; try done; intros _; by rewrite Hres|].
      unfold storeOk in *. cbn [mp_col mp_store upd eta_expand eta_mpart] in *. rewrite Hc in *.
      destruct Hs as (Hi & Hf & sm & Hst & Hsm). split; [done|]. split; [done|]. exists sm. split; [done|].
      intros [Hn1 Hn2] r' Hin. apply Hsm.
      * split; [done|]. rewrite Hq. intros r0 [->|Hr0]%elem_of_cons; [by rewrite Hres|by apply Hn2].
      * destruct Hin as [Hin|[Hin|[k Hk]]]; [by left|right; left; rewrite Hq; cbn in Hin; set_solver|].
        cbn in Hk. apply lookup_insert_Some in Hk as [[_ <-]|[_ Hk]]; [right; left; rewrite Hq; set_solver|].
        right. right. by exists k.
    + injection Hstep as <-. apply (abort_inv m (ErrWrap "blobio: upload part %d: %w" e)) in Hinv as (Hr' & Ht' & Hs'); [|done].
      split; [done|]. split; [|exact Hs'].
      exact (collect_tokens _ r q Ht' Hq ltac:(done)).
  - destruct (st_AbortMultipart _ _) as [s r]. injection Hstep as <-. split; [done|]. split; [|done].
    by eapply tokens_same.
  - injection Hstep as <-. split; [done|]. split; [by eapply tokens_same|].
    unfold storeOk in *. rewrite Hc in Hs. cbn. by destruct r.
Qed.

(** *** The end of the collection *)
Lemma drain_spec l res res' :
  drain l res = (res', None) ->
  (forall r, r ∈ l -> is_Ok (ps_res r) = true) /\
  (forall k r, res' !! k = Some r -> (r ∈ l /\ ps_num r = k) \/ res !! k = Some r) /\
  (forall k, (exists r, r ∈ l /\ ps_num r = k) \/ is_Some (res !! k) -> is_Some (res' !! k)).
Proof.
  revert res. induction l as [|r l IH]; intros res; cbn.
  { intros [= <-]. split; [by intros r Hr%elem_of_nil|]. split; [by right|].
    intros k [(r & Hr%elem_of_nil & _)|?]; done. }
  destruct (ps_res r) as [p|e] eqn:Hr; [|done]. intros (H1 & H2 & H3)%IH. split; [|split].
  - intros r' [->|Hin]%elem_of_cons; [by rewrite Hr|by apply H1].
  - intros k r' Hk. destruct (H2 k r' Hk) as [[? ?]|[[<- <-]|[_ ?]]%lookup_insert_Some];
      [left; split; [by apply list_elem_of_further|done]|left; split; [by apply list_elem_of_here|done]|by right].
  - intros k Hk. apply H3. destruct Hk as [(r' & [->|Hin]%elem_of_cons & <-)|Hk].
    + right. rewrite lookup_insert_eq. by eexists.
    + left. by exists r'.
    + right. destruct (decide (ps_num r = k)) as [<-|]; [rewrite lookup_insert_eq; by eexists|by rewrite lookup_insert_ne].
Qed.

Lemma maxPart_spec (results : gmap Z partResult) n :
  0 <= n -> (forall k r, results !! k = Some r -> 1 <= k <= n) -> (0 < n -> is_Some (results !! n)) ->
  maxPart results = n.
Proof.
  intros Hn Hle Hin. unfold maxPart.
  assert (Hle' : forall x, x ∈ map_to_list results -> 1 <= x.1 <= n)
    by (intros [k r] Hx%elem_of_map_to_list; by eapply Hle).
  assert (Hin' : 0 < n -> exists x, x ∈ map_to_list results /\ x.1 = n)
    by (intros [r Hr]%Hin; exists (n, r); split; [by apply elem_of_map_to_list|done]).
  revert Hle' Hin'. generalize (map_to_list results) as l. clear Hle Hin.
  induction l as [|x l IH]; intros Hle Hin; cbn.
  { destruct (decide (0 < n)) as [(x & Hx%elem_of_nil & _)%Hin|]; [done|lia]. }
  pose proof (Hle x (list_elem_of_here x l)) as Hx.
  assert (Hb : foldr (fun r acc => if acc <? r.1 then r.1 else acc) 0 l <= n).
  { clear IH Hin. induction l as [|y l IHl]; cbn; [lia|].
    pose proof (Hle y ltac:(set_solver)). destruct (Z.ltb_spec (foldr (fun r acc => if acc <? r.1 then r.1 else acc) 0 l) y.1);
      [lia|]. apply IHl. intros z Hz. apply Hle. set_solver. }
  destruct (Hin ltac:(lia)) as (y & [->|Hy]%elem_of_cons & Hyn).
  - destruct (Z.ltb_spec (foldr (fun r acc => if acc <? r.1 then r.1 else acc) 0 l) x.1); lia.
  - rewrite IH; [destruct (Z.ltb_spec n x.1); lia|by intros z Hz; apply Hle; set_solver|].
    intros _. by exists y.
Qed.

Lemma completedFrom_spec (results : gmap Z partResult) (sm : gmap Z bytes) count i :
  (forall k, i <= k < i + Z.of_nat count -> exists r p, results !! k = Some r /\ ps_res r = Ok p
     /\ up_PartNumber p = k /\ sm !! k = Some (chunk k)) ->
  exists parts, completedFrom count i results = Ok parts /\
    Forall2 (fun p d => sm !! cp_PartNumber p = Some d) parts (chunkList psize body count i).
Proof.
  revert i. induction count as [|count IH]; intros i Hall; [by exists []|].
  destruct (Hall i ltac:(lia)) as (r & p & Hr & Hp & Hn & Hsm). cbn [completedFrom chunkList]. rewrite Hr.
  destruct (IH (i + 1)) as (parts & -> & Hf); [intros k Hk; apply Hall; lia|].
  eexists. split; [reflexivity|]. constructor; [|done]. cbn. unfold partOf. by rewrite Hp, Hn, Hsm.
Qed.

(** All workers have exited and every result is a success. *)
Lemma complete_inv m :
  inv m -> mp_col m = CoCollect -> (forall i w, mp_workers m !! i = Some w -> w = WExit) ->
  mp_resultCh m = [] -> (0 < par)%nat -> inv (complete now upload checksum m).
Proof.
  intros Hinv Hc Hexit Hnil Hpar. pose proof Hinv as ([Hn Hr] & Ht & Hs). unfold storeOk in Hs. rewrite Hc in Hs.
  destruct Hs as (Hi & Hf & sm & Hst & Hsm).
  destruct (lookup_lt_is_Some_2 (mp_workers m) 0%nat) as [w0 Hw0]; [by rewrite (tk_len _ Ht)|].
  pose proof (Hexit 0%nat w0 Hw0) as ->. destruct (tk_workers _ Ht _ _ Hw0) as [Hch Hrd].
  rewrite Hrd in Hr. unfold complete. destruct (mp_readErr m) as [e|] eqn:He; [by apply abort_inv|].
  destruct (Hr eq_refl) as [Hhash Hfull].
  assert (Hno : noErr m).
  { split; [intros i r Hw; by specialize (Hexit _ _ Hw)|]. rewrite Hnil. by intros r Hr0%elem_of_nil. }
  assert (Hres : forall k, 1 <= k < mp_partNum m -> is_Some (mp_results m !! k)).
  { intros k Hk. destruct (tk_cover _ Ht Hc k Hk) as [(j & Hj & _)|[(i & w & Hw & Hwk)|[(r & Hin & _)|Hl]]]; [| | |done].
    - rewrite Hch in Hj. by apply elem_of_nil in Hj.
    - by rewrite (Hexit i w Hw) in Hwk.
    - rewrite Hnil in Hin. by apply elem_of_nil in Hin. }
  rewrite (maxPart_spec _ (mp_partNum m - 1)); [|lia| |intros ?; apply Hres; lia].
  2: { intros k r Hk. destruct (tk_results _ Ht k r Hk) as (<- & Hok & _). unfold resOk in Hok. lia. }
  destruct (completedFrom_spec (mp_results m) sm (Z.to_nat (mp_partNum m - 1)) 1) as (parts & -> & Hparts).
  { intros k Hk. destruct (Hres k ltac:(lia)) as [r Hr0]. destruct (tk_results _ Ht k r Hr0) as (Hnum & _ & Hok).
    specialize (Hok Hc). destruct (ps_res r) as [p|] eqn:Hp; [|done]. exists r, p.
    assert (Hin : resultIn m r) by (do 2 right; by exists k).
    destruct (Hsm Hno r Hin) as [Hsr Hpr]. rewrite Hnum in *. repeat split; try done. by apply Hpr. }
  case_bool_decide as Hsum; cbn [negb]; [|by apply abort_inv].
  destruct (st_CompleteMultipart _ _ _) as [s [r|e]] eqn:Hcm;
    destruct (store_CompleteMultipart _ _ _ _ _ _ _ _ _ Hi Htime Hst Hcm) as (Hi' & Hk' & Hd).
  - split; [split; cbn; [done|by rewrite Hrd]|].
    split; [by eapply tokens_same|]. unfold storeOk. cbn.
    split; [|done]. destruct (Hd _ Hparts) as (Hst' & Hsz & Hsm').
    assert (Hcat : concat (chunkList psize body (Z.to_nat (mp_partNum m - 1)) 1) = body).
    { rewrite chunkList_concat, Z2Nat.id by lia. replace (psize * (1 - 1)) with 0 by lia.
      rewrite dropZ_drop. cbn [Z.to_nat drop]. by apply takeZ_ge. }
    rewrite Hcat in *. rewrite Hhash in Hsum. split; [done|]. split; [|done].
    intros k b Hne Hb. apply Hk'; [done|]. by apply Hf.
  - split; [split; cbn; [done|by rewrite Hrd]|].
    split; [by eapply tokens_same|]. unfold storeOk. cbn.
    split; [done|]. split; [|done]. intros k b Hne Hb. apply Hk'; [done|]. by apply Hf.
Qed.

Lemma drain_tokens l res res' n o :
  drain l res = (res', o) -> (forall r, r ∈ l -> resOk n r) ->
  (forall k r, res !! k = Some r -> ps_num r = k /\ resOk n r) ->
  forall k r, res' !! k = Some r -> ps_num r = k /\ resOk n r.
Proof.
  revert res. induction l as [|r l IH]; intros res; cbn; [by intros [= <- <-]|].
  intros Hd Hl Hres. pose proof (Hl r (list_elem_of_here r l)) as Hr.
  assert (Hins : forall k r0, <[ps_num r := r]> res !! k = Some r0 -> ps_num r0 = k /\ resOk n r0).
  { intros k r0 [[<- <-]|[_ ?]]%lookup_insert_Some; [done|by apply Hres]. }
  destruct (ps_res r) as [p|e]; [|by injection Hd as <- _].
  eapply IH; try done. intros r' Hr'. apply Hl. by apply list_elem_of_further.
Qed.

Lemma all_exit m : forallb isExit (mp_workers m) = true ->
  forall i w, mp_workers m !! i = Some w -> w = WExit.
Proof.
  intros Hall i w Hw. rewrite forallb_forall in Hall.
  specialize (Hall w (proj1 (list_elem_of_In _ _) (list_elem_of_lookup_2 _ _ _ Hw))). by destruct w.
Qed.

Lemma stepFinish_inv m m' : (0 < par)%nat -> inv m -> stepFinish now upload checksum m = Some m' -> inv m'.
Proof.
  intros Hpar Hinv Hstep. pose proof Hinv as (Hr & Ht & Hs). unfold stepFinish in Hstep.
  destruct (mp_col m) eqn:Hc; try done. destruct (forallb _ _) eqn:Hall; [|done].
  pose proof (all_exit m Hall) as Hexit. unfold storeOk in Hs. rewrite Hc in Hs.
  destruct Hs as (Hi & Hf & sm & Hst & Hsm).
  destruct (drain _ _) as [results [e|]] eqn:Hd; injection Hstep as <-.
  - split; [done|]. split; [|unfold storeOk; cbn; split; [eapply (store_time t now); [lia|done]|eauto]].
    destruct Ht. split; cbn; try done; [by intros r Hr0%elem_of_nil|].
    intros k r Hk. assert (ps_num r = k /\ resOk (mp_partNum m) r) as [? ?]; [|done].
    eapply (drain_tokens _ _ _ _ _ Hd tk_resultCh0); [|done]. intros k' r' Hk'.
    by destruct (tk_results0 k' r' Hk') as (? & ? & _).
  - destruct (drain_spec _ _ _ Hd) as (Hok & Hfrom & Hto). apply complete_inv; try done. split; [done|]. split.
    + destruct Ht. split; cbn; try done; [by intros r Hr0%elem_of_nil| |].
      * intros k r Hk. assert (ps_num r = k /\ resOk (mp_partNum m) r) as [? ?].
        { eapply (drain_tokens _ _ _ _ _ Hd tk_resultCh0); [|done]. intros k' r' Hk'.
          by destruct (tk_results0 k' r' Hk') as (? & ? & _). }
        split; [done|]. split; [done|]. intros _.
        destruct (Hfrom k r Hk) as [[Hin _]|Hin]; [by apply Hok|]. by apply (tk_results0 k r Hin).
      * intros _ k Hk. destruct (tk_cover0 Hc k Hk) as [Hl|[Hl|Hl]]; [by left|right; by left|].
        do 3 right. by apply Hto.
    + unfold storeOk. cbn. rewrite Hc. split; [done|]. split; [done|]. exists sm. split; [done|].
      intros [Hn1 _] r Hin. apply Hsm.
      * split; [intros i r0 Hw; by specialize (Hexit i _ Hw)|done].
      * destruct Hin as [Hin|[Hin|[k Hk]]]; [by left|by apply elem_of_nil in Hin|].
        cbn in Hk. destruct (Hfrom k r Hk) as [[Hin _]|Hin]; [by right; left|]. do 2 right. by exists k.
Qed.

Lemma stepCtxDone_inv m m' : inv m -> stepCtxDone m = Some m' -> inv m'.
Proof.
  intros Hinv Hstep. unfold stepCtxDone in Hstep. destruct (mp_col m) eqn:Hc; try done.
  destruct (mp_cancelled m); [|done]. injection Hstep as <-. by apply abort_inv.
Qed.

Lemma machine_step_inv c m m' : (0 < par)%nat -> inv m ->
  step now psize upload rerr checksum par c m = Some m' -> inv m'.
Proof.
  intros Hpar Hi. destruct c; cbn [step].
  - by apply stepReader_inv.
  - by apply stepSendCancelled_inv.
  - by apply stepWorker_inv.
  - by apply stepCollect_inv.
  - by apply stepFinish_inv.
  - by apply stepCtxDone_inv.
  - intros [= <-]. destruct Hi as (Hr & Ht & Hs). split; [done|]. split; [by eapply tokens_same|exact Hs].
Qed.

Lemma start_inv : store_inv t s0 -> staged s0 upload ∅ -> inv (start par s0 body).
Proof.
  intros Hi Hst. split; [split; cbn; [lia|]; split; [done|]; unfold len; cbn; lia|]. split.
  - split; cbn; try done.
    + by intros j Hj%elem_of_nil.
    + intros i w Hw. apply list_elem_of_lookup_2, list_elem_of_In, repeat_spec in Hw. by subst w.
    + by intros r Hr%elem_of_nil.
    + intros _ k Hk. lia.
    + by rewrite repeat_length.
  - unfold storeOk. cbn. split; [done|]. split; [by intros k b _|]. exists ∅. split; [done|].
    intros _ r [[i Hw]|[Hin|[k Hk]]].
    + cbn in Hw. apply list_elem_of_lookup_2, list_elem_of_In, repeat_spec in Hw. done.
    + by apply elem_of_nil in Hin.
    + done.
Qed.

Lemma reach_inv m : (0 < par)%nat -> store_inv t s0 -> staged s0 upload ∅ ->
  reach now psize upload rerr checksum par s0 body m -> inv m.
Proof. intros Hpar Hi Hst. induction 1; [by apply start_inv|by eapply machine_step_inv]. Qed.
End invariant.

(** ** Termination *)
Section termination.
Context {St : Type} `{Store St}.
Context (now : Time) (psize : Z) (upload : MultipartUpload) (rerr : option error)
  (checksum : string) (par : nat).
Implicit Types (m : mpart St).
Notation step := (step now psize upload rerr checksum par).

Definition readerWeight (p : readerPc) : nat :=
  match p with RdLoop => 3 | RdRead => 2 | RdSend _ _ => 9 | RdExit => 0 end.
Definition workerWeight (w : workerPc) : nat :=
  match w with WRange => 1 | WJob _ => 5 | WUpload _ => 4 | WReply _ => 3 | WExit => 0 end.
Definition colWeight (c : collectorPc) : nat :=
  match c with CoCollect => 4 | CoAbort _ => 3 | CoCancel _ => 2 | CoReturned _ => 0 end.
Fixpoint workersWeight (l : list workerPc) : nat :=
  match l with [] => 0 | w :: l' => workerWeight w + workersWeight l' end.

(** Every action but a cancellation lowers it. *)
Definition measure m : nat :=
  (10 * length (mp_rest m) + readerWeight (mp_reader m) + 5 * length (mp_partCh m)
   + workersWeight (mp_workers m) + length (mp_resultCh m) + colWeight (mp_col m))%nat.

Lemma workersWeight_insert l i w w' :
  l !! i = Some w -> (workersWeight (<[i := w']> l) + workerWeight w = workersWeight l + workerWeight w')%nat.
Proof.
  revert i. induction l as [|v l IH]; intros [|i] Hi; try done.
  - injection Hi as ->. unfold workersWeight. cbn. lia.
  - specialize (IH i Hi).
    change ((workerWeight v + workersWeight (<[i := w']> l) + workerWeight w
             = workerWeight v + workersWeight l + workerWeight w')%nat). lia.
Qed.

Lemma setWorker_measure m i w w' :
  mp_workers m !! i = Some w -> (measure (setWorker i w' m) + workerWeight w = measure m + workerWeight w')%nat.
Proof. intros Hw. unfold measure. cbn. pose proof (workersWeight_insert _ i w w' Hw). lia. Qed.

Lemma stepReader_measure m m' : 0 < psize ->
  stepReader psize rerr par m = Some m' -> (measure m' < measure m)%nat.
Proof.
  intros Hp. unfold stepReader, measure. destruct (mp_reader m) as [| |job last|] eqn:Hr; [| | |done].
  - destruct (mp_cancelled m); intros [= <-]; cbn; lia.
  - assert (Hd : (length (dropZ psize (mp_rest m)) <= length (mp_rest m))%nat)
      by (rewrite dropZ_drop, length_drop; lia).
    destruct (readErrOf _ _); [intros [= <-]; cbn; lia|].
    destruct (Z.eqb_spec (len (takeZ psize (mp_rest m))) 0) as [Hz|Hz]; intros [= <-]; cbn; [lia|].
    assert (length (dropZ psize (mp_rest m)) < length (mp_rest m))%nat; [|lia].
    rewrite len_takeZ in Hz by lia. rewrite dropZ_drop, length_drop. unfold len in Hz. lia.
  - destruct (Nat.ltb _ _); [|done]. intros [= <-]. cbn. rewrite length_app. cbn. destruct last; cbn; lia.
Qed.

Lemma stepWorker_measure i m m' : stepWorker now upload par i m = Some m' -> (measure m' < measure m)%nat.
Proof.
  unfold stepWorker. destruct (mp_workers m !! i) as [[|job|job|r|]|] eqn:Hw; try done.
  - destruct (mp_partCh m) as [|job q] eqn:Hq.
    + destruct (readerDone _); [|done]. intros [= <-]. pose proof (setWorker_measure m i _ WExit Hw). cbn in *. lia.
    + intros [= <-]. pose proof (setWorker_measure m i _ (WJob job) Hw) as Hm.
      unfold measure in *. cbn in *. rewrite Hq in *. cbn in *. lia.
  - destruct (mp_cancelled m); intros [= <-];
      [pose proof (setWorker_measure m i _ (WReply (mkPartResult (pj_num job) (Err ctxErr))) Hw)
      |pose proof (setWorker_measure m i _ (WUpload job) Hw)]; cbn in *; lia.
  - destruct (st_UploadPart _ _ _) as [s r]. intros [= <-].
    pose proof (setWorker_measure m i _ (WReply (mkPartResult (pj_num job) r)) Hw) as Hm.
    unfold measure in *. cbn in *. lia.
  - destruct (Nat.ltb _ _); [|done]. intros [= <-]. pose proof (setWorker_measure m i _ WRange Hw) as Hm.
    unfold measure in *. cbn in *. rewrite length_app. cbn. lia.
Qed.

Lemma complete_col m : mp_col (complete now upload checksum m) <> CoCollect /\
  complete now upload checksum m = (complete now upload checksum m) <| mp_col := mp_col (complete now upload checksum m) |> /\
  mp_rest (complete now upload checksum m) = mp_rest m /\ mp_reader (complete now upload checksum m) = mp_reader m /\
  mp_partCh (complete now upload checksum m) = mp_partCh m /\ mp_workers (complete now upload checksum m) = mp_workers m /\
  mp_resultCh (complete now upload checksum m) = mp_resultCh m.
Proof.
  unfold complete. destruct (mp_readErr m); [done|]. destruct (completedFrom _ _ _); [|done].
  destruct (negb _); [done|]. by destruct (st_CompleteMultipart _ _ _) as [s []].
Qed.

Lemma stepFinish_measure m m' : stepFinish now upload checksum m = Some m' -> (measure m' < measure m)%nat.
Proof.
  unfold stepFinish. destruct (mp_col m) eqn:Hc; try done. destruct (forallb _ _); [|done].
  destruct (drain _ _) as [results [e|]]; intros [= <-].
  - unfold measure. cbn. rewrite Hc. cbn. lia.
  - match goal with |- context [complete now upload checksum ?m1] =>
      pose proof (complete_col m1) as (Hn & _ & H1 & H2 & H3 & H4 & H5); set (mc := complete now upload checksum m1) in * end.
    unfold measure. rewrite H1, H2, H3, H4, H5, Hc. cbn. destruct (mp_col mc); cbn; try done; lia.
Qed.

Lemma step_measure c m m' : 0 < psize -> c <> ChCancel -> step c m = Some m' -> (measure m' < measure m)%nat.
Proof.
  intros Hp Hc. destruct c; cbn [Multipart.step]; try done.
  - by apply stepReader_measure.
  - unfold stepSendCancelled, measure. destruct (mp_reader m) eqn:Hr; try done. destruct (mp_cancelled m); [|done].
    intros [= <-]. cbn. lia.
  - apply stepWorker_measure.
  - unfold stepCollect, measure. destruct (mp_col m) eqn:Hc'; try done.
    + destruct (mp_resultCh m) eqn:Hq; [done|]. destruct (ps_res _); intros [= <-]; cbn; rewrite ?Hc'; cbn; lia.
    + destruct (st_AbortMultipart _ _). intros [= <-]. cbn. lia.
    + intros [= <-]. cbn. lia.
  - apply stepFinish_measure.
  - unfold stepCtxDone, measure. destruct (mp_col m) eqn:Hc'; try done. destruct (mp_cancelled m); [|done].
    intros [= <-]. cbn. lia.
Qed.

(** *** Some goroutine can always move *)
Lemma firstEnabled_None cs m :
  firstEnabled now psize upload rerr checksum par cs m = None -> forall c, c ∈ cs -> step c m = None.
Proof.
  induction cs as [|c cs IH]; cbn; [by intros _ c Hc%elem_of_nil|].
  destruct (step c m) eqn:Hs; [done|]. intros Hn c' [->|Hc']%elem_of_cons; [done|by apply IH].
Qed.

Lemma firstEnabled_Some cs m m' :
  firstEnabled now psize upload rerr checksum par cs m = Some m' -> exists c, c ∈ cs /\ step c m = Some m'.
Proof.
  induction cs as [|c cs IH]; cbn; [done|]. destruct (step c m) eqn:Hs.
  - intros [= <-]. exists c. split; [apply list_elem_of_here|done].
  - intros (c' & ? & ?)%IH. exists c'. split; [by apply list_elem_of_further|done].
Qed.

Lemma schedule_progress m : (0 < par)%nat -> length (mp_workers m) = par ->
  (forall r, mp_col m <> CoReturned r) ->
  firstEnabled now psize upload rerr checksum par (schedule par) m <> None.
Proof.
  intros Hpar Hlen Hcol Hnone. pose proof (firstEnabled_None _ _ Hnone) as Hall. unfold schedule in Hall.
  assert (Hco : step ChCollect m = None) by (apply Hall; set_solver).
  assert (Hfi : step ChFinish m = None) by (apply Hall; set_solver).
  assert (Hre : step ChReader m = None) by (apply Hall; set_solver).
  assert (Hwo : forall i w, mp_workers m !! i = Some w -> step (ChWorker i) m = None).
  { intros i w Hw%lookup_lt_Some. apply Hall. do 2 apply list_elem_of_further. apply elem_of_app. left.
    apply list_elem_of_In, in_map, in_seq. lia. }
  clear Hall Hnone. cbn [Multipart.step] in *. unfold stepCollect in Hco.
  destruct (mp_col m) as [| | |r] eqn:Hc; [|by destruct (st_AbortMultipart _ _)|done|by eapply Hcol].
  destruct (mp_resultCh m) as [|r q] eqn:Hq; [|by destruct (ps_res r)].
  unfold stepFinish in Hfi. rewrite Hc in Hfi.
  destruct (forallb isExit (mp_workers m)) eqn:Hex; [by destruct (drain _ _) as [? []]|].
  apply not_true_iff_false in Hex. apply Hex. apply forallb_forall. intros w Hin.
  apply list_elem_of_In, list_elem_of_lookup in Hin as [i Hw]. specialize (Hwo i w Hw). unfold stepWorker in Hwo.
  rewrite Hw in Hwo. destruct w as [|job|job|r|]; [| | | |done].
  - destruct (mp_partCh m) eqn:Hpc; [|done]. unfold stepReader in Hre. rewrite Hpc in Hre.
    destruct (mp_reader m); [by destruct (mp_cancelled m)| | |done].
    + destruct (readErrOf _ _); [done|]. by destruct (_ =? 0).
    + destruct (Nat.ltb_spec (length (@nil partJob)) par); [done|]. cbn in *. lia.
  - by destruct (mp_cancelled m).
  - by destruct (st_UploadPart _ _ _).
  - rewrite Hq in Hwo. destruct (Nat.ltb_spec (length (@nil partResult)) par); [done|]. cbn in *. lia.
Qed.

Lemma step_workers c m m' : step c m = Some m' -> length (mp_workers m') = length (mp_workers m).
Proof.
  destruct c; cbn [Multipart.step].
  - unfold stepReader. repeat case_match; intros [= <-]; done.
  - unfold stepSendCancelled. repeat case_match; intros [= <-]; done.
  - unfold stepWorker. repeat case_match; try done; intros [= <-]; cbn; by rewrite length_insert.
  - unfold stepCollect. repeat case_match; intros [= <-]; done.
  - unfold stepFinish. repeat case_match; try done; intros [= <-]; [done|]. by rewrite (proj1 (proj2 (proj2 (proj2 (proj2 (proj2 (complete_col _))))))).
  - unfold stepCtxDone. repeat case_match; intros [= <-]; done.
  - by intros [= <-].
Qed.

Lemma drive_returns fuel m : 0 < psize -> (0 < par)%nat -> length (mp_workers m) = par ->
  (measure m < fuel)%nat -> exists m' r, drive now psize upload rerr checksum par fuel m = Some (m', r).
Proof.
  intros Hp Hpar. revert m. induction fuel as [|fuel IH]; intros m Hlen Hm; [lia|]. cbn [drive].
  assert (Hgo : (forall r, mp_col m <> CoReturned r) -> exists m' r,
            match firstEnabled now psize upload rerr checksum par (schedule par) m with
            | Some m' => drive now psize upload rerr checksum par fuel m'
            | None => None
            end = Some (m', r)).
  { intros Hc. destruct (firstEnabled _ _ _ _ _ _ _ _) as [m1|] eqn:Hf; [|by apply schedule_progress in Hf].
    apply firstEnabled_Some in Hf as (c & Hin & Hs). apply IH.
    - by rewrite (step_workers _ _ _ Hs).
    - assert (measure m1 < measure m)%nat; [|lia]. eapply (step_measure c); try done.
      intros ->. unfold schedule in Hin.
      apply elem_of_cons in Hin as [?|[?|[Hin|?%list_elem_of_singleton]%elem_of_app]%elem_of_cons]; try done.
      apply list_elem_of_In, in_map_iff in Hin as (? & ? & _). done. }
  destruct (mp_col m) as [| | |r] eqn:Hc; [by apply Hgo|by apply Hgo|by apply Hgo|by exists m, r].
Qed.
End termination.

(** ** The pipeline's view of one run *)
Section run.
Context {St : Type} `{StoreLaws St}.

(** Run to its end, the schedule keeps the other keys whatever happens. *)
Lemma drive_frame t now psize upload rerr checksum par s0 body fuel m m' r :
  0 < psize -> len body < psize * (2 ^ 31 - 2) -> t < now -> (0 < par)%nat ->
  (mp_col m = CoCollect \/ (exists e, mp_col m = CoAbort e) \/ (exists r, mp_col m = CoCancel (Ok r))
     \/ (exists r, mp_col m = CoReturned (Ok r))) ->
  inv t now psize upload checksum par s0 body m ->
  drive now psize upload rerr checksum par fuel m = Some (m', r) ->
  store_inv now (mp_store m') /\ frame upload s0 (mp_store m') /\
  (forall res, r = Ok res -> completed now upload checksum s0 body (mp_store m') res).
Proof.
  intros Hps Hlen Ht Hpar. revert m. induction fuel as [|fuel IH]; intros m Hcol Hinv; cbn [drive]; [done|].
  pose proof Hinv as (_ & _ & Hs). unfold storeOk in Hs.
  destruct (mp_col m) as [|e|r0|r0] eqn:Hc.
  - destruct (firstEnabled _ _ _ _ _ _ _ _) as [m1|] eqn:Hf; [|done].
    apply firstEnabled_Some in Hf as (c & _ & Hstep). apply IH; [|by eapply machine_step_inv].
    assert (Hno : forall x, mp_col m1 <> CoCancel (Err x) /\ mp_col m1 <> CoReturned (Err x)
                    /\ forall y, mp_col m1 <> CoReturned (Ok y)).
    { revert Hstep. clear - Hc. destruct c; cbn [step].
      - unfold stepReader. repeat case_match; intros [= <-]; cbn; rewrite Hc; done.
      - unfold stepSendCancelled. repeat case_match; intros [= <-]; cbn; rewrite Hc; done.
      - unfold stepWorker. repeat case_match; try done; intros [= <-]; cbn; rewrite Hc; done.
      - unfold stepCollect. rewrite Hc. repeat case_match; intros [= <-]; cbn; rewrite ?Hc; done.
      - unfold stepFinish. rewrite Hc. destruct (forallb _ _); [|done].
        destruct (drain _ _) as [? [e|]]; intros [= <-]; [done|]. unfold complete. cbn.
        repeat case_match; cbn; done.
      - unfold stepCtxDone. rewrite Hc. destruct (mp_cancelled m); intros [= <-]; done.
      - intros [= <-]. cbn. rewrite Hc. done. }
    destruct (mp_col m1) as [|e|[r1|e]|[r1|e]]; [by left|right; left; eauto|right; right; left; eauto|..].
    + by destruct (Hno e) as (? & _).
    + destruct (Hno (ErrNew "")) as (_ & _ & Hx). by specialize (Hx r1).
    + by destruct (Hno e) as (_ & ? & _).
  - destruct Hs as (Hi & Hf & sm & Hst).
    unfold schedule. cbn [firstEnabled step]. unfold stepCollect. rewrite Hc.
    destruct (st_AbortMultipart upload (mp_store m)) as [s1 ra] eqn:Hab.
    destruct (store_AbortMultipart _ _ _ _ _ _ Hi Hst Hab) as [Hi1 Hk1].
    destruct fuel as [|[|fuel]]; try done. cbn. intros [= <- <-]. cbn. split; [done|].
    split; [by eapply frame_trans|done].
  - destruct r0 as [r0|e]; [|by destruct Hcol as [?|[[? ?]|[[? ?]|[? ?]]]]].
    destruct Hs as [Hcomp _]. unfold schedule. cbn [firstEnabled step]. unfold stepCollect. rewrite Hc.
    destruct fuel as [|fuel]; [done|]. cbn. intros [= <- <-]. cbn.
    pose proof Hcomp as (? & ? & _). split; [done|]. split; [done|]. by intros res [= <-].
  - destruct r0 as [r0|e]; [|by destruct Hcol as [?|[[? ?]|[[? ?]|[? ?]]]]].
    destruct Hs as [Hcomp _]. intros [= <- <-]. pose proof Hcomp as (? & ? & _).
    split; [done|]. split; [done|]. by intros res [= <-].
Qed.

Lemma workers_pos parallelism : (0 < workers parallelism)%nat.
Proof. unfold workers. destruct (Z.ltb_spec parallelism 1); lia. Qed.

Lemma start_measure {S'} `{Store S'} par (s : S') body :
  (measure (start par s body) < 10 * length body + par + 8)%nat.
Proof.
  unfold measure. cbn [start mp_rest mp_reader mp_partCh mp_workers mp_resultCh mp_col].
  assert (workersWeight (repeat WRange par) = par) as ->; [|cbn; lia].
  induction par as [|n IH]; [done|]. cbn. by rewrite IH.
Qed.

(** [promoteMultipart] on a lawful store. *)
Lemma promoteMultipart_spec t now psize parallelism id r checksum ret s s' res :
  store_inv t s -> t < now -> good_key id -> 0 < psize -> len (rd_bytes r) < psize * (2 ^ 31 - 2) ->
  promoteMultipart now psize parallelism id r checksum ret s = Some (s', res) ->
  store_inv now s' /\ (forall k b, k <> id -> stored s k b -> stored s' k b) /\
  (forall x, res = Ok x -> stored s' id (rd_bytes r) /\ pr_Size x = len (rd_bytes r) /\
     pr_ChecksumSHA256 x = sha256_hex (rd_bytes r) /\ sha256_hex (rd_bytes r) = checksum).
Proof.
  intros Hi Ht Hg Hps Hlen. unfold promoteMultipart.
  destruct (st_CreateMultipart _ _ _) as [s1 [u|e]] eqn:Hc;
    destruct (store_CreateMultipart t now (mkMultipartRequest id "application/octet-stream" "" "" "" ret "")
                _ _ _ Hi Hg Hc) as (Hi1 & Hk1 & Hu).
  2: { intros [= <- <-]. split; [eapply store_time; [|done]; lia|]. split; [by intros k b _; apply Hk1|done]. }
  destruct (Hu u eq_refl) as [Hkey Hst]. cbn [mq_Key] in Hkey.
  destruct (drive _ _ _ _ _ _ _ _) as [[m' res']|] eqn:Hd; [|done]. intros [= <- <-].
  destruct (drive_frame t now psize u (rd_err r) checksum (workers parallelism) s1 (rd_bytes r) _ _ _ _
              Hps Hlen Ht (workers_pos _)
              (or_introl (eq_refl : mp_col (start (workers parallelism) s1 (rd_bytes r)) = CoCollect))
              (start_inv t now psize u checksum _ s1 (rd_bytes r) Hi1 Hst) Hd) as (Hi2 & Hf & Hok).
  split; [done|]. split; [intros k b Hne Hb; apply Hf; [by rewrite Hkey|by apply Hk1]|].
  intros x Hx. destruct (Hok x Hx) as (_ & _ & Hsd & ? & ? & ?). by rewrite Hkey in Hsd.
Qed.
End run.

(** ** Properties *)

(** C19: whatever the interleaving of the reader, the workers and the
    collector, a multipart promote that returns success has stored exactly
    the bytes of the cached body under the blob's key: the parts were
    numbered, uploaded and completed without loss, repetition or
    reordering, their SHA-256 is the recorded one, and no other object was
    touched. *)
Theorem multipart_any_schedule {St} `{StoreLaws St} t now psize upload rerr checksum par s body m r :
  store_inv t s -> staged s upload ∅ -> t < now -> 0 < psize -> len body < psize * (2 ^ 31 - 2) ->
  (0 < par)%nat ->
  reach now psize upload rerr checksum par s body m -> mp_col m = CoReturned (Ok r) ->
  stored (mp_store m) (mu_Key upload) body /\ pr_Size r = len body /\
  pr_ChecksumSHA256 r = sha256_hex body /\ sha256_hex body = checksum /\
  (forall k b, k <> mu_Key upload -> stored s k b -> stored (mp_store m) k b).
Proof.
  intros Hi Hst Ht Hps Hlen Hpar Hr Hc.
  pose proof (reach_inv t now psize upload rerr checksum par s body Hps Hlen Ht m Hpar Hi Hst Hr) as (_ & _ & Hs).
  unfold storeOk in Hs. rewrite Hc in Hs. destruct Hs as [(_ & Hf & ? & ? & ? & ?) _]. done.
Qed.

(** C20: a multipart promote terminates under every schedule: every action
    of a goroutine lowers a natural number, while the collector has not
    returned some goroutine can move, and the run of [promoteMultipart] ends
    within its fuel. *)
Theorem multipart_returns {St} `{Store St} now psize parallelism id r checksum ret (s : St) :
  0 < psize ->
  (forall upload rerr par c m m', c <> ChCancel ->
     step now psize upload rerr checksum par c m = Some m' -> (measure m' < measure m)%nat) /\
  (forall upload rerr par body m, (0 < par)%nat ->
     reach now psize upload rerr checksum par s body m -> (forall x, mp_col m <> CoReturned x) ->
     exists c m', c <> ChCancel /\ step now psize upload rerr checksum par c m = Some m') /\
  (exists s' res, promoteMultipart now psize parallelism id r checksum ret s = Some (s', res)).
Proof.
  intros Hps. split; [intros; by eapply step_measure|]. split.
  - intros upload rerr par body m Hpar Hr Hc.
    assert (Hlen : length (mp_workers m) = par).
    { clear Hc. induction Hr as [|c m m' _ IH Hs]; [apply repeat_length|]. by rewrite (step_workers _ _ _ _ _ _ _ _ _ Hs). }
    destruct (firstEnabled now psize upload rerr checksum par (schedule par) m) as [m'|] eqn:Hf.
    + apply firstEnabled_Some in Hf as (c & Hin & Hs). exists c, m'. split; [|done]. intros ->.
      unfold schedule in Hin. do 2 (apply elem_of_cons in Hin as [?|Hin]; [done|]).
      apply elem_of_app in Hin as [Hin|Hin%list_elem_of_singleton]; [|done].
      apply list_elem_of_In, in_map_iff in Hin as (? & ? & _). done.
    + exfalso. by apply (schedule_progress now psize upload rerr checksum par m) in Hf.
  - unfold promoteMultipart. destruct (st_CreateMultipart _ _ _) as [s1 [u|e]]; [|eauto].
    destruct (drive_returns now psize u (rd_err r) checksum (workers parallelism)
                (10 * length (rd_bytes r) + workers parallelism + 8)
                (start (workers parallelism) s1 (rd_bytes r))) as (m' & res & ->).
    + done.
    + apply workers_pos.
    + apply repeat_length.
    + apply start_measure.
    + eauto.
Qed.

(** One action of an explicit schedule. *)
Ltac act c R :=
  let R' := fresh "R" in
  epose proof (reach_step _ _ _ _ _ _ _ _ c _ _ R) as R';
  cbn [step stepReader stepWorker stepCollect stepSendCancelled setWorker mp_store mp_rest mp_hash mp_partNum
       mp_reader mp_readErr mp_partCh mp_workers mp_resultCh mp_results mp_col mp_cancelled upd eta_expand
       eta_mpart lookup list_lookup insert list_insert length app Nat.ltb Nat.leb readErrOf endOfInput
       andb negb ps_res ps_num pj_num pj_body readerDone] in R';
  repeat match goal with
  | H : ?l = true |- _ => rewrite H in R'
  | H : ?l = false |- _ => rewrite H in R'
  | H : st_AbortMultipart _ _ = _ |- _ => rewrite H in R'
  | H : forall n b, st_UploadPart _ _ _ = _ |- _ => rewrite H in R'
  end;
  cbn [andb negb readErrOf] in R';
  specialize (R' eq_refl); clear R; rename R' into R.

(** a failed multipart promote can leak a worker: with uploads that
    fail, one worker and at least three parts, there is a schedule after
    which the promote has returned its error, a worker is blocked for ever
    on the send of a result nobody will receive, and no action of any
    goroutine changes the state any more. *)
Lemma stuck_worker {St} `{Store St} now psize upload checksum (s s1 : St) body e ra :
  0 < psize -> 3 * psize <= len body ->
  (forall n b, st_UploadPart now (mkUploadPartRequest upload n (Some (bytes_NewReader b))) s = (s, Err e)) ->
  st_AbortMultipart upload s = (s1, ra) ->
  exists m, reach now psize upload None checksum 1 s body m /\
    mp_col m = CoReturned (Err (ErrWrap "blobio: upload part %d: %w" e)) /\
    (exists r, mp_workers m = [WReply r]) /\
    forall c m', step now psize upload None checksum 1 c m = Some m' -> m' = m.
Proof.
  intros Hps Hlen Hup Hab.
  set (r1 := dropZ psize body). set (r2 := dropZ psize r1).
  assert (Hl1 : len r1 = len body - psize) by (unfold r1; rewrite len_dropZ by lia; lia).
  assert (Hl2 : len r2 = len body - 2 * psize) by (unfold r2; rewrite len_dropZ by lia; lia).
  assert (Hfull : forall l : bytes, psize <= len l ->
            (len (takeZ psize l) <? psize) = false /\ (len (takeZ psize l) =? 0) = false).
  { intros l Hl. rewrite len_takeZ, Z.min_l by lia. split; [apply Z.ltb_ge; lia|apply Z.eqb_neq; lia]. }
  destruct (Hfull body ltac:(lia)) as [Ha1 Ha2]. destruct (Hfull r1 ltac:(lia)) as [Hb1 Hb2].
  destruct (Hfull r2 ltac:(lia)) as [Hc1 Hc2].
  subst r1 r2. pose proof (reach_start now psize upload None checksum 1 s body) as R. unfold start in R. cbn [repeat] in R.
  act ChReader R. act ChReader R. act ChReader R. act ChReader R.
  do 4 act (ChWorker 0) R.
  act ChReader R. act ChReader R. act ChReader R. act ChReader R.
  do 3 act (ChWorker 0) R.
  do 3 act ChCollect R.
  act (ChWorker 0) R. act ChReader R. act ChReader R. do 2 act (ChWorker 0) R.
  eexists. split; [exact R|]. split; [reflexivity|]. split; [by eexists|].
  intros c m'. destruct c as [| |[|i]| | | |]; cbn; try done. by intros [= <-].
Qed.

(** ** Witnesses *)
Lemma drive_reach {St} `{Store St} now psize upload rerr checksum par s body fuel (m m' : mpart St) r :
  reach now psize upload rerr checksum par s body m ->
  drive now psize upload rerr checksum par fuel m = Some (m', r) ->
  reach now psize upload rerr checksum par s body m' /\ mp_col m' = CoReturned r.
Proof.
  revert m. induction fuel as [|fuel IH]; intros m Hr; [done|]. cbn [drive].
  assert (Hgo : match firstEnabled now psize upload rerr checksum par (schedule par) m with
                | Some m' => drive now psize upload rerr checksum par fuel m'
                | None => None
                end = Some (m', r) ->
                reach now psize upload rerr checksum par s body m' /\ mp_col m' = CoReturned r).
  { destruct (firstEnabled _ _ _ _ _ _ _ _) as [m1|] eqn:Hf; [|done].
    apply firstEnabled_Some in Hf as (c & _ & Hs). apply IH. by eapply reach_step. }
  destruct (mp_col m) as [| | |r0] eqn:Hc; try done. intros [= <- <-]. done.
Qed.

#[local] Instance ex_Store : Store Provider := Local_Store ex_root.
#[local] Instance ex_Laws : StoreLaws Provider := Local_StoreLaws ex_root.

(** An upload of "k" opened on the empty provider. *)
Definition ex_opened : Provider * result MultipartUpload :=
  CreateMultipart ex_root 10 (mkMultipartRequest "k" "" "" "" "" zeroRetentionSpec "") ex_init.
Definition ex_upload : MultipartUpload :=
  match ex_opened.2 with Ok u => u | Err _ => mkMultipartUpload "" "" end.
Definition ex_body : bytes := [x01; x02; x03].
Lemma good_k : good "k".
Proof. split; [reflexivity|]. intros r Hr. discriminate Hr. Qed.

Lemma ex_opened_ok : LocalStore.inv ex_root 5 ex_opened.1 /\ staged_in ex_root ex_opened.1 ex_upload ∅.
Proof.
  assert (Hu : ex_opened.2 = Ok ex_upload).
  { unfold ex_upload. assert (Ho : is_Ok ex_opened.2 = true) by (vm_compute; reflexivity).
    revert Ho. generalize ex_opened.2. by intros [u|e]. }
  pose proof (surjective_pairing ex_opened) as Hc. rewrite Hu in Hc. unfold ex_opened at 1 in Hc.
  destruct (CreateMultipart_laws ex_root 10 (mkMultipartRequest "k" "" "" "" "" zeroRetentionSpec "") _ _ _ good_k Hc)
    as [Hcalm Hst].
  split; [exact (calm_inv ex_root 5 _ _ Hcalm (ex_init_sound 5))|]. exact (proj2 (Hst ex_upload eq_refl)).
Qed.

Lemma ex_key : mu_Key ex_upload = "k".
Proof. vm_compute. reflexivity. Qed.

(** The run of a schedule that ends in success. *)
Lemma drive_end {St} `{Store St} now psize upload rerr checksum par fuel (s : St) body :
  match drive now psize upload rerr checksum par fuel (start par s body) with
  | Some (_, Ok _) => true | _ => false end = true ->
  exists m r, reach now psize upload rerr checksum par s body m /\ mp_col m = CoReturned (Ok r).
Proof.
  destruct (drive _ _ _ _ _ _ _ _) as [[m [r|e]]|] eqn:Hd; try done. intros _. exists m, r.
  eapply drive_reach; [|exact Hd]. constructor.
Qed.

Lemma ex_run : exists m r,
  reach 10 2 ex_upload None (sha256_hex ex_body) 2 ex_opened.1 ex_body m /\ mp_col m = CoReturned (Ok r).
Proof. apply (drive_end _ _ _ _ _ _ 100). vm_compute. reflexivity. Qed.

(** Three bytes in parts of two, by two workers. *)
Lemma multipart_any_schedule_witness : exists m r,
  reach 10 2 ex_upload None (sha256_hex ex_body) 2 ex_opened.1 ex_body m /\
  mp_col m = CoReturned (Ok r) /\ stored (mp_store m) "k" ex_body /\ pr_Size r = len ex_body.
Proof.
  destruct ex_run as (m & r & Hr & Hc). exists m, r.
  destruct (multipart_any_schedule 5 10 2 ex_upload None (sha256_hex ex_body) 2 ex_opened.1 ex_body m r)
    as (Hst & Hsz & _).
  - exact (proj1 ex_opened_ok).
  - exact (proj2 ex_opened_ok).
  - lia.
  - lia.
  - vm_compute. reflexivity.
  - lia.
  - exact Hr.
  - exact Hc.
  - rewrite ex_key in Hst. split; [exact Hr|]. split; [exact Hc|]. split; [exact Hst|exact Hsz].
Defined.

Lemma multipart_returns_witness : exists s' res,
  promoteMultipart 10 promotePartSize 4 "k" (bytes_NewReader ex_body) "" zeroRetentionSpec ex_init = Some (s', res).
Proof.
  destruct (multipart_returns 10 promotePartSize 4 "k" (bytes_NewReader ex_body) "" zeroRetentionSpec ex_init)
    as (_ & _ & Hr); [reflexivity|]. exact Hr.
Defined.

(** Uploads to a key the provider refuses. *)
Lemma stuck_worker_witness : exists m : mpart Provider,
  mp_col m = CoReturned (Err (ErrWrap "blobio: upload part %d: %w" (ErrNew "local_fs_dev: key is required"))) /\
  exists r, mp_workers m = [WReply r].
Proof.
  destruct (stuck_worker 10 1 (mkMultipartUpload "" "") "" ex_init ex_init ex_body
              (ErrNew "local_fs_dev: key is required") (Err (ErrNew "local_fs_dev: key is required")))
    as (m & _ & Hc & Hw & _).
  - lia.
  - vm_compute. discriminate.
  - intros n b. reflexivity.
  - reflexivity.
  - exists m. split; [exact Hc|exact Hw].
Defined.
