(* ===== verification/Singleflight.v ===== *)
(** * internal/blobio/pipeline.go: the deduplication of [Promote] and [restoreFromL2]

    Concurrent calls for one blob share one run. Both methods begin the same
    way, over a [sync.Map] from the blob to a call record: [LoadOrStore]; the
    one that stored its record leads - it does the work, publishes the outcome
    in the record, closes the channel [done] and deletes the map entry; the
    others wait for the channel or their own context. A value of type [A] is
    what the work returns; the work itself is one step of its own, of any
    duration and outcome, a panic included. *)
From S2P Require Import Prelude GoStd.
Local Open Scope Z_scope.

Section singleflight.
Context {A : Type} (zero : A).

Inductive outcome := Finished (r : result A) | Panicked (e : error).
(** What the record holds for the others, and what the leader returns: after
    a recovered panic, its unnamed results are zero values. *)
Definition shared (o : outcome) : result A := match o with Finished r => r | Panicked e => Err e end.
Definition returned (o : outcome) : result A := match o with Finished r => r | Panicked _ => Ok zero end.

(** [inflightCall] and [promoteCall]; [ca_key] is the map key it was stored under. *)
Record callRecord := mkCall { ca_key : string; ca_done : bool; ca_out : option outcome }.

(** A goroutine: outside, working, about to close [done], about to delete the
    entry, waiting. *)
Inductive place := Outside | Leads (c : nat) | Closes (c : nat) (o : outcome) | Deletes (c : nat) (o : outcome) | Waits (c : nat).

Record flight := mkFlight { inflight : gmap string nat; calls : list callRecord; places : list place }.
#[local] Instance eta_flight : Eta flight := fun s => mkFlight (inflight s) (calls s) (places s).

(** [Enter t k]: goroutine [t] calls for blob [k]; [Work t o]: its work ends;
    [Go t]: its next step; [GiveUp t e]: its context is done. *)
Inductive act := Enter (t : nat) (k : string) | Work (t : nat) (o : outcome) | Go (t : nat) | GiveUp (t : nat) (e : error).
Inductive event := Quiet | Returns (t c : nat) (led : bool) (r : result A) | GivesUp (t : nat).

Definition at_ (t : nat) (p : place) (s : flight) : flight := s <| places := <[t := p]> (places s) |>.
Definition record (c : nat) (f : callRecord -> callRecord) (s : flight) : flight := s <| calls := alter f c (calls s) |>.

Definition step (s : flight) (a : act) : option (flight * event) :=
  match a with
  | Enter t k =>
      match places s !! t with
      | Some Outside =>
          match inflight s !! k with
          | Some c => Some (at_ t (Waits c) s, Quiet)
          | None =>
              let c := length (calls s) in
              Some (at_ t (Leads c) (s <| inflight := <[k := c]> (inflight s) |>
                                       <| calls := calls s ++ [mkCall k false None] |>), Quiet)
          end
      | _ => None
      end
  | Work t o =>
      match places s !! t with
      | Some (Leads c) => Some (at_ t (Closes c o) (record c (fun r => mkCall (ca_key r) (ca_done r) (Some o)) s), Quiet)
      | _ => None
      end
  | Go t =>
      match places s !! t with
      | Some (Closes c o) => Some (at_ t (Deletes c o) (record c (fun r => mkCall (ca_key r) true (ca_out r)) s), Quiet)
      | Some (Deletes c o) =>
          match calls s !! c with
          | Some r => Some (at_ t Outside (s <| inflight := delete (ca_key r) (inflight s) |>), Returns t c true (returned o))
          | None => None
          end
      | Some (Waits c) =>
          match calls s !! c with
          | Some (mkCall _ true (Some o)) => Some (at_ t Outside s, Returns t c false (shared o))
          | _ => None
          end
      | _ => None
      end
  | GiveUp t e => match places s !! t with Some (Waits c) => Some (at_ t Outside s, GivesUp t) | _ => None end
  end.

Definition start (n : nat) : flight := mkFlight ∅ [] (replicate n Outside).

Inductive flies : flight -> list (act * event) -> flight -> Prop :=
| flies_nil s : flies s [] s
| flies_snoc s l s1 a e s2 : flies s l s1 -> step s1 a = Some (s2, e) -> flies s (l ++ [(a, e)]) s2.

(** ** The invariant *)

(** The call a goroutine leads, and the record a place stands for. *)
Definition leads (p : place) : option nat :=
  match p with Leads c | Closes c _ | Deletes c _ => Some c | _ => None end.
Definition placeOk (rs : list callRecord) (p : place) : Prop :=
  match p with
  | Outside => True
  | Leads c => exists k, rs !! c = Some (mkCall k false None)
  | Closes c o => exists k, rs !! c = Some (mkCall k false (Some o))
  | Deletes c o => exists k, rs !! c = Some (mkCall k true (Some o))
  | Waits c => is_Some (rs !! c)
  end.
(** A record that is not done has a leader before its last step. *)
Definition working (c : nat) (p : place) : Prop := p = Leads c \/ exists o, p = Closes c o.
Definition recordOk (ps : list place) (c : nat) (r : callRecord) : Prop :=
  if ca_done r then is_Some (ca_out r) else exists t p, ps !! t = Some p /\ working c p.

Record flight_inv (s : flight) : Prop := {
  fi_map : forall k c, inflight s !! k = Some c <->
    (exists t p, places s !! t = Some p /\ leads p = Some c) /\ (exists r, calls s !! c = Some r /\ ca_key r = k);
  fi_one : forall t t' p p' c, places s !! t = Some p -> places s !! t' = Some p' -> leads p = Some c -> leads p' = Some c -> t = t';
  fi_place : forall t p, places s !! t = Some p -> placeOk (calls s) p;
  fi_record : forall c r, calls s !! c = Some r -> recordOk (places s) c r
}.

Lemma flight_start_inv n : flight_inv (start n).
Proof.
  assert (Hp : forall t p, places (start n) !! t = Some p -> p = Outside) by (intros t p [? _]%lookup_replicate; done).
  split.
  - intros k c. cbn. rewrite lookup_empty. split; [done|]. intros [_ (r & Hr & _)]. by rewrite lookup_nil in Hr.
  - by intros t t' p p' c ->%Hp.
  - by intros t p ->%Hp.
  - intros c r Hc. cbn in Hc. by rewrite lookup_nil in Hc.
Qed.

Lemma at_lookup (t t' : nat) p p' (ps : list place) : <[t := p]> ps !! t' = Some p' -> (t' = t /\ p' = p) \/ (t' <> t /\ ps !! t' = Some p').
Proof. intros [(-> & -> & _)|[Hn Hp]]%list_lookup_insert_Some; [by left|right; done]. Qed.

Lemma leads_lt rs p c : placeOk rs p -> leads p = Some c -> (c < length rs)%nat.
Proof. destruct p; cbn; try done; intros [k Hk] [= <-]; by apply lookup_lt_Some in Hk. Qed.

(** Changing the record of one call keeps the places that stand for others. *)
Lemma placeOk_alter rs f c p : leads p <> Some c -> placeOk rs p -> placeOk (alter f c rs) p.
Proof.
  destruct p as [|c'|c' o|c' o|c']; cbn; try done; intros Hn.
  1-3: intros [k Hk]; exists k; rewrite list_lookup_alter_ne by congruence; done.
  intros [r Hr]. destruct (decide (c = c')) as [->|]; [rewrite list_lookup_alter_eq, Hr; by eexists|].
  rewrite list_lookup_alter_ne by done. by eexists.
Qed.

(** Another place for the leader [t] of call [c], with a new record for it. *)
Lemma lead_step s t c p p' f : flight_inv s -> places s !! t = Some p -> leads p = Some c -> leads p' = Some c ->
  (forall r, ca_key (f r) = ca_key r) -> placeOk (alter f c (calls s)) p' ->
  (forall r, calls s !! c = Some r -> recordOk (<[t := p']> (places s)) c (f r)) ->
  flight_inv (at_ t p' (record c f s)).
Proof.
  intros [Hm Ho Hp Hr] Ht Hl Hl' Hk Hok Hrec.
  assert (Hother : forall t' q, t' <> t -> places s !! t' = Some q -> leads q <> Some c).
  { intros t' q Hn Hq Hlq. apply Hn. by eapply (Ho t' t). }
  assert (Hlt : (t < length (places s))%nat) by (by eapply lookup_lt_Some).
  split; cbn [at_ record inflight calls places upd eta_expand eta_flight].
  - intros k c'. rewrite Hm. assert (Hkeys : (exists r, calls s !! c' = Some r /\ ca_key r = k) <->
      (exists r, alter f c (calls s) !! c' = Some r /\ ca_key r = k)).
    { destruct (decide (c = c')) as [->|]; [|by rewrite list_lookup_alter_ne]. rewrite list_lookup_alter_eq.
      split; intros (r & Hr' & Hrk); destruct (calls s !! c') as [r0|] eqn:H0; cbn in *; try done.
      - injection Hr' as ->. eexists. split; [done|]. by rewrite Hk.
      - injection Hr' as <-. eexists. split; [done|]. by rewrite <- Hrk, Hk. }
    rewrite Hkeys. apply and_iff_compat_r. split.
    + intros (t' & q & Hq & Hlq). destruct (decide (t' = t)) as [->|Hn].
      * exists t, p'. rewrite list_lookup_insert_eq by done. split; [done|]. congruence.
      * exists t', q. by rewrite list_lookup_insert_ne.
    + intros (t' & q & [(-> & ->)|(Hn & Hq)]%at_lookup & Hlq); [exists t, p; split; [done|congruence]|by exists t', q].
  - intros t1 t2 p1 p2 c' [(-> & ->)|(Hn1 & H1)]%at_lookup [(-> & ->)|(Hn2 & H2)]%at_lookup L1 L2; [done| | |by eapply Ho].
    + rewrite Hl' in L1. injection L1 as <-. by destruct (Hother t2 p2 Hn2 H2).
    + rewrite Hl' in L2. injection L2 as <-. by destruct (Hother t1 p1 Hn1 H1).
  - intros t' q [(-> & ->)|(Hn & Hq)]%at_lookup; [done|]. apply placeOk_alter; [by eapply Hother|by eapply Hp].
  - intros c' r Hc'. destruct (decide (c = c')) as [->|Hn].
    + rewrite list_lookup_alter_eq in Hc'. destruct (calls s !! c') as [r0|] eqn:H0; [|done]. cbn in Hc'. injection Hc' as <-. by apply Hrec.
    + rewrite list_lookup_alter_ne in Hc' by done. specialize (Hr _ _ Hc'). unfold recordOk in *. destruct (ca_done r); [done|].
      destruct Hr as (t' & q & Hq & Hw). exists t', q. split; [|done]. rewrite list_lookup_insert_ne; [done|].
      intros <-. rewrite Ht in Hq. injection Hq as ->. destruct Hw as [->|[o ->]]; cbn in Hl; congruence.
Qed.

(** A place that leads nothing, in the stead of another such. *)
Lemma quiet_step s t p p' : flight_inv s -> places s !! t = Some p -> leads p = None -> leads p' = None ->
  placeOk (calls s) p' -> flight_inv (at_ t p' s).
Proof.
  intros [Hm Ho Hp Hr] Ht Hl Hl' Hok.
  split; cbn [at_ inflight calls places upd eta_expand eta_flight].
  - intros k c. rewrite Hm. apply and_iff_compat_r. split.
    + intros (t' & q & Hq & Hlq). exists t', q. split; [|done]. rewrite list_lookup_insert_ne; congruence.
    + intros (t' & q & [(-> & ->)|(Hn & Hq)]%at_lookup & Hlq); [congruence|by exists t', q].
  - intros t1 t2 p1 p2 c [(-> & ->)|(_ & H1)]%at_lookup [(-> & ->)|(_ & H2)]%at_lookup L1 L2; [done|congruence..|by eapply Ho].
  - intros t' q [(-> & ->)|(_ & Hq)]%at_lookup; [done|by eapply Hp].
  - intros c r Hc. specialize (Hr _ _ Hc). unfold recordOk in *. destruct (ca_done r); [done|].
    destruct Hr as (t' & q & Hq & Hw). exists t', q. split; [|done]. rewrite list_lookup_insert_ne; [done|].
    intros <-. rewrite Ht in Hq. injection Hq as ->. destruct Hw as [->|[o ->]]; done.
Qed.

(** A fresh call is led by the goroutine that stored it. *)
Lemma enter_step s t k : flight_inv s -> places s !! t = Some Outside -> inflight s !! k = None ->
  flight_inv (at_ t (Leads (length (calls s))) (s <| inflight := <[k := length (calls s)]> (inflight s) |>
                                                  <| calls := calls s ++ [mkCall k false None] |>)).
Proof.
  intros [Hm Ho Hp Hr] Ht Hk. set (c0 := length (calls s)).
  assert (Hlt : (t < length (places s))%nat) by (by eapply lookup_lt_Some).
  assert (Hold : forall t' q, places s !! t' = Some q -> leads q <> Some c0).
  { intros t' q Hq Hl. pose proof (leads_lt _ _ _ (Hp _ _ Hq) Hl). unfold c0 in *. lia. }
  split; cbn [at_ inflight calls places upd eta_expand eta_flight].
  - intros k' c. rewrite lookup_insert_Some, Hm. split.
    + intros [[-> <-]|[Hne [(t' & q & Hq & Hl) (r & Hc & Hrk)]]].
      * split; [exists t, (Leads c0); split; [by apply list_lookup_insert_eq|done]|].
        exists (mkCall k' false None). split; [by rewrite lookup_app_r, Nat.sub_diag by lia|done].
      * split; [exists t', q; split; [|done]|exists r; split; [by apply lookup_app_l_Some|done]].
        rewrite list_lookup_insert_ne; [done|]. intros <-. rewrite Ht in Hq. injection Hq as <-. done.
    + intros [(t' & q & [(-> & ->)|(Hn & Hq)]%at_lookup & Hl) (r & Hc & Hrk)].
      * injection Hl as <-. rewrite lookup_app_r, Nat.sub_diag in Hc by lia. injection Hc as <-. by left.
      * assert (Hc' : calls s !! c = Some r).
        { rewrite lookup_app_l in Hc; [done|]. by eapply leads_lt; [eapply Hp|]. }
        right. split; [|split; [by exists t', q|by exists r]]. intros <-.
        assert (Hi : inflight s !! k = Some c) by (apply Hm; split; [by exists t', q|by exists r]). congruence.
  - intros t1 t2 p1 p2 c [(-> & ->)|(_ & H1)]%at_lookup [(-> & ->)|(_ & H2)]%at_lookup L1 L2; [done| | |by eapply Ho].
    + injection L1 as <-. by destruct (Hold _ _ H2).
    + injection L2 as <-. by destruct (Hold _ _ H1).
  - intros t' q [(-> & ->)|(_ & Hq)]%at_lookup.
    + exists k. by rewrite lookup_app_r, Nat.sub_diag by lia.
    + specialize (Hp _ _ Hq). destruct q; cbn in *; try done; [destruct Hp as [k1 Hp]; exists k1..|destruct Hp as [r Hp]; exists r];
        by apply lookup_app_l_Some.
  - intros c r [Hc|[Hge Hc]]%lookup_app_Some.
    + specialize (Hr _ _ Hc). unfold recordOk in *. destruct (ca_done r); [done|]. destruct Hr as (t' & q & Hq & Hw).
      exists t', q. split; [|done]. rewrite list_lookup_insert_ne; [done|]. intros <-. rewrite Ht in Hq. injection Hq as <-.
      by destruct Hw as [?|[??]].
    + apply list_lookup_singleton_Some in Hc as [Hc <-]. assert (c = c0) as -> by (unfold c0; lia).
      exists t, (Leads c0). split; [by apply list_lookup_insert_eq|by left].
Qed.

(** The last step of a leader. *)
Lemma leave_step s t c o r : flight_inv s -> places s !! t = Some (Deletes c o) -> calls s !! c = Some r ->
  flight_inv (at_ t Outside (s <| inflight := delete (ca_key r) (inflight s) |>)).
Proof.
  intros [Hm Ho Hp Hr] Ht Hc.
  assert (Hlt : (t < length (places s))%nat) by (by eapply lookup_lt_Some).
  split; cbn [at_ inflight calls places upd eta_expand eta_flight].
  - intros k c'. rewrite lookup_delete_Some, Hm. split.
    + intros [Hne [(t' & q & Hq & Hl) Hk]]. split; [|done]. exists t', q. split; [|done].
      rewrite list_lookup_insert_ne; [done|]. intros <-. rewrite Ht in Hq. injection Hq as <-. injection Hl as <-.
      destruct Hk as (r' & Hr' & <-). rewrite Hc in Hr'. injection Hr' as ->. done.
    + intros [(t' & q & [(-> & ->)|(Hn & Hq)]%at_lookup & Hl) (r' & Hr' & Hk)]; [done|].
      split; [|split; [by exists t', q|by exists r']]. intros Heq.
      assert (H1 : inflight s !! k = Some c') by (apply Hm; split; [by exists t', q|by exists r']).
      assert (H2 : inflight s !! k = Some c) by (apply Hm; split; [by exists t, (Deletes c o)|by exists r]).
      apply Hn. eapply (Ho t' t q (Deletes c o) c'); [done|done|done|]. cbn. congruence.
  - intros t1 t2 p1 p2 c' [(-> & ->)|(_ & H1)]%at_lookup [(-> & ->)|(_ & H2)]%at_lookup L1 L2; [done..|by eapply Ho].
  - intros t' q [(-> & ->)|(_ & Hq)]%at_lookup; [done|by eapply Hp].
  - intros c' r' Hc'. specialize (Hr _ _ Hc'). unfold recordOk in *. destruct (ca_done r'); [done|].
    destruct Hr as (t' & q & Hq & Hw). exists t', q. split; [|done]. rewrite list_lookup_insert_ne; [done|].
    intros <-. rewrite Ht in Hq. injection Hq as <-. by destruct Hw as [?|[??]].
Qed.

Lemma flight_step_inv s a s' e : flight_inv s -> step s a = Some (s', e) -> flight_inv s'.
Proof.
  intros Hi Hs. pose proof (fi_place _ Hi) as Hp. destruct a as [t k|t o|t|t e0]; cbn [step] in Hs;
    (destruct (places s !! t) as [p|] eqn:Ht; [|done]); specialize (Hp _ _ Ht).
  - destruct p; try done. destruct (inflight s !! k) as [c|] eqn:Hk; injection Hs as <- <-.
    + eapply quiet_step; [done|done|done|done|]. apply (fi_map _ Hi) in Hk as [_ (r & Hr & _)]. by eexists.
    + by apply enter_step.
  - destruct p as [|c| | |]; try done. injection Hs as <- <-. destruct Hp as [k Hk]. eapply lead_step; try done.
    + exists k. by rewrite list_lookup_alter_eq, Hk.
    + intros r Hr. rewrite Hk in Hr. injection Hr as <-. cbn. exists t, (Closes c o). split; [|right; by exists o].
      apply list_lookup_insert_eq. by eapply lookup_lt_Some.
  - destruct p as [| |c o|c o|c]; try done.
    + injection Hs as <- <-. destruct Hp as [k Hk]. eapply lead_step; try done.
      * exists k. by rewrite list_lookup_alter_eq, Hk.
      * intros r Hr. rewrite Hk in Hr. injection Hr as <-. by eexists.
    + destruct (calls s !! c) as [r|] eqn:Hc; [|done]. injection Hs as <- <-. by eapply leave_step.
    + repeat case_match; try done. injection Hs as <- <-. by eapply quiet_step.
  - destruct p; try done. injection Hs as <- <-. by eapply quiet_step.
Qed.

Lemma flies_inv s l s' : flies s l s' -> flight_inv s -> flight_inv s'.
Proof. induction 1 as [|s l s1 a e s2 _ IH Hs]; [done|]. intros Hi. by eapply flight_step_inv; [apply IH|]. Qed.

(** ** Properties *)

(** A finished call keeps its outcome. *)
Lemma step_done s a s' e c k o : flight_inv s -> step s a = Some (s', e) ->
  calls s !! c = Some (mkCall k true (Some o)) -> calls s' !! c = Some (mkCall k true (Some o)).
Proof.
  intros Hi Hs Hc. destruct a as [t k'|t o'|t|t e0]; cbn [step] in Hs; (destruct (places s !! t) as [p|] eqn:Ht; [|done]);
    pose proof (fi_place _ Hi _ _ Ht) as Hp; destruct p as [|c'|c' o''|c' o''|c']; try done.
  - destruct (inflight s !! k'); injection Hs as <- <-; [done|]. by apply lookup_app_l_Some.
  - injection Hs as <- <-. destruct Hp as [k0 Hp]. cbn. rewrite list_lookup_alter_ne; [done|]. intros <-. congruence.
  - injection Hs as <- <-. destruct Hp as [k0 Hp]. cbn. rewrite list_lookup_alter_ne; [done|]. intros <-. congruence.
  - destruct (calls s !! c'); [|done]. by injection Hs as <- <-.
  - repeat case_match; try done. by injection Hs as <- <-.
  - by injection Hs as <- <-.
Qed.

(** What a goroutine still has to do. *)
Definition effort (p : place) : Z := match p with Outside => 0 | Leads _ => 3 | Closes _ _ => 2 | Deletes _ _ | Waits _ => 1 end.
Definition flightLoad (s : flight) : Z := sumOver effort (places s).
Definition isEnter (a : act) : bool := match a with Enter _ _ => true | _ => false end.

Lemma step_load s a s' e : step s a = Some (s', e) -> isEnter a = false -> flightLoad s' < flightLoad s.
Proof.
  intros Hs Ha. unfold flightLoad. destruct a as [t k|t o|t|t e0]; [done|..]; cbn [step] in Hs;
    (destruct (places s !! t) as [p|] eqn:Ht; [|done]); destruct p; try done; repeat case_match; try done; injection Hs as <- <-;
    cbn [at_ record places upd eta_expand eta_flight]; erewrite sumOver_insert by eassumption; cbn [effort]; lia.
Qed.

Lemma flightLoad_bound s : flightLoad s <= 3 * Z.of_nat (length (places s)).
Proof.
  unfold flightLoad. induction (places s) as [|p ps IH]; [done|]. rewrite sumOver_cons. cbn [length].
  assert (effort p <= 3) by (by destruct p). lia.
Qed.

Lemma step_places s a s' e : step s a = Some (s', e) -> length (places s') = length (places s).
Proof.
  destruct a as [t k|t o|t|t e0]; cbn [step]; repeat case_match; try done; intros [= <- <-]; cbn; by rewrite length_insert.
Qed.

Lemma flight_progress s : flight_inv s -> (exists t p, places s !! t = Some p /\ p <> Outside) ->
  forall o, exists t a s' e, (a = Go t \/ a = Work t o) /\ step s a = Some (s', e).
Proof.
  intros Hi (t & p & Ht & Hp) o. pose proof (fi_place _ Hi _ _ Ht) as Hok. destruct p as [|c|c o'|c o'|c]; [done| | | |].
  - exists t, (Work t o). do 2 eexists. split; [by right|]. cbn [step]. by rewrite Ht.
  - exists t, (Go t). do 2 eexists. split; [by left|]. cbn [step]. by rewrite Ht.
  - exists t, (Go t). destruct Hok as [k Hk]. do 2 eexists. split; [by left|]. cbn [step]. by rewrite Ht, Hk.
  - destruct Hok as [[k [] out] Hr].
    + pose proof (fi_record _ Hi _ _ Hr) as [o' Ho]. cbn in Ho. subst out. exists t, (Go t). do 2 eexists.
      split; [by left|]. cbn [step]. by rewrite Ht, Hr.
    + destruct (fi_record _ Hi _ _ Hr) as (t' & q & Hq & [->|[o' ->]]).
      * exists t', (Work t' o). do 2 eexists. split; [by right|]. cbn [step]. by rewrite Hq.
      * exists t', (Go t'). do 2 eexists. split; [by left|]. cbn [step]. by rewrite Hq.
Qed.

(** C21: Whatever the interleaving of the callers: at most one goroutine at a
    time works for a blob, and whoever returns from a call returns the one
    outcome of that call's work - the others what the leader published, also a
    recovered panic, which the leader itself does not report. *)
Theorem one_flight n l s : flies (start n) l s ->
  (forall t t' c c' r r', places s !! t = Some (Leads c) -> places s !! t' = Some (Leads c') ->
     calls s !! c = Some r -> calls s !! c' = Some r' -> ca_key r = ca_key r' -> t = t') /\
  (forall a t c led r, (a, Returns t c led r) ∈ l -> exists k o,
     calls s !! c = Some (mkCall k true (Some o)) /\ r = if led then returned o else shared o).
Proof.
  intros Hl. pose proof (flies_inv _ _ _ Hl (flight_start_inv n)) as Hi. split.
  - intros t t' c c' r r' Ht Ht' Hc Hc' Hk.
    assert (H1 : inflight s !! ca_key r = Some c) by (apply (fi_map _ Hi); split; [by exists t, (Leads c)|by exists r]).
    assert (H2 : inflight s !! ca_key r = Some c') by (apply (fi_map _ Hi); split; [by exists t', (Leads c')|by exists r']).
    assert (c = c') as <- by congruence. by eapply (fi_one _ Hi).
  - clear Hi. pose proof (flight_start_inv n) as H0. revert H0 Hl. generalize (start n). intros s0 H0 Hl.
    induction Hl as [|s0 l s1 a e s2 Hl IH Hs]; [by intros * ?%elem_of_nil|]. specialize (IH H0).
    pose proof (flies_inv _ _ _ Hl H0) as Hi.
    intros a' t c led r [Hin|Hin%list_elem_of_singleton]%elem_of_app.
    { destruct (IH _ _ _ _ _ Hin) as (k & o & Hc & Hr). exists k, o. split; [by eapply step_done|done]. }
    injection Hin as -> <-. destruct a as [t' k|t' o|t'|t' e0]; cbn [step] in Hs; repeat case_match; try done; simplify_eq.
    + match goal with H : places s1 !! _ = Some (Deletes _ ?o) |- _ => pose proof (fi_place _ Hi _ _ H) as [k Hk]; by exists k, o end.
    + match goal with H : calls s1 !! _ = Some (mkCall ?k true (Some ?o)) |- _ => by exists k, o end.
Qed.

(** C22: Nobody waits for ever: while a goroutine is inside a call, some step
    other than a new call is possible once the work it depends on ends, however
    it ends; and without new calls, at most three steps per goroutine are left. *)
Theorem flight_ends n l s : flies (start n) l s ->
  ((exists t p, places s !! t = Some p /\ p <> Outside) ->
     forall o, exists t a s' e, (a = Go t \/ a = Work t o) /\ step s a = Some (s', e)) /\
  (forall l' s', flies s l' s' -> Forall (fun ae => isEnter ae.1 = false) l' ->
     Z.of_nat (length l') <= flightLoad s - flightLoad s' /\ flightLoad s <= 3 * Z.of_nat n).
Proof.
  intros Hl. pose proof (flies_inv _ _ _ Hl (flight_start_inv n)) as Hi. split; [by apply flight_progress|].
  intros l' s' Hl' Hf. split.
  - clear -Hl' Hf. induction Hl' as [|s l s1 a e s2 Hl IH Hs]; [cbn; lia|].
    apply Forall_app in Hf as [Hf Ha]. apply Forall_cons in Ha as [Ha _]. specialize (IH Hf). rewrite length_app. cbn [length].
    pose proof (step_load _ _ _ _ Hs Ha). lia.
  - assert (Hp : length (places s) = n).
    { clear -Hl. remember (start n) as s0 eqn:H0. induction Hl as [|s0 l s1 a e s2 Hl IH Hs].
      - subst. apply length_replicate.
      - rewrite (step_places _ _ _ _ Hs). by apply IH. }
    rewrite <- Hp. apply flightLoad_bound.
Qed.

(** A schedule, executed. *)
Fixpoint fly (l : list act) (s : flight) : option (flight * list (act * event)) :=
  match l with
  | [] => Some (s, [])
  | a :: l' => '(s1, e) ← step s a; '(s2, es) ← fly l' s1; Some (s2, (a, e) :: es)
  end.
Lemma flies_cons s a e s1 l s2 : step s a = Some (s1, e) -> flies s1 l s2 -> flies s ((a, e) :: l) s2.
Proof.
  intros Hs. induction 1 as [s1|s1 l s2 b f s3 Hl IH Hb]; [by apply (flies_snoc s [] s); [constructor|]|].
  rewrite app_comm_cons. eapply flies_snoc; [by apply IH|done].
Qed.
Lemma fly_flies l s s' es : fly l s = Some (s', es) -> flies s es s'.
Proof.
  revert s es. induction l as [|a l IH]; cbn; intros s es; [intros [= <- <-]; constructor|].
  destruct (step s a) as [[s1 e]|] eqn:Hs; [|done]. cbn. destruct (fly l s1) as [[s2 es']|] eqn:Hf; [|done]. cbn.
  intros [= <- <-]. by eapply flies_cons; [|apply IH].
Qed.
End singleflight.
Arguments flies {A} zero.
Arguments fly {A} zero.
Arguments step {A} zero.

(** ** Witnesses: a leader that panics and one that waits for it *)
Definition ex_panic : outcome (A := nat) := Panicked (ErrNew "panic").
Definition ex_acts : list (act (A := nat)) :=
  [Enter 0 "k"; Enter 1 "k"; Work 0 ex_panic; Go 0; Go 1; Go 0].
Definition ex_flown := default (start 2, []) (fly O ex_acts (start 2)).
Lemma ex_flies : flies O (start 2) ex_flown.2 ex_flown.1.
Proof.
  apply (fly_flies _ ex_acts). unfold ex_flown. destruct (fly O ex_acts (start 2)) as [[s es]|] eqn:Hf; [done|].
  exfalso. by vm_compute in Hf.
Qed.

(** The leader returns a zero value without error, the other the panic. *)
Lemma one_flight_witness : exists k o, calls ex_flown.1 !! O = Some (mkCall k true (Some o)) /\
  shared o = Err (ErrNew "panic") /\ In (Go 0, Returns 0 0 true (Ok O)) ex_flown.2.
Proof.
  destruct (one_flight O 2 _ _ ex_flies) as [_ He].
  destruct (He (Go 1) 1%nat O false (Err (ErrNew "panic"))) as (k & o & Hc & Ho).
  { unfold ex_flown. vm_compute. do 4 (apply elem_of_cons; right). apply elem_of_cons. by left. }
  exists k, o. split; [exact Hc|]. split; [by rewrite Ho|]. vm_compute. tauto.
Defined.

Lemma flight_ends_witness : flightLoad ex_flown.1 <= 6.
Proof. exact (proj2 (proj2 (flight_ends O 2 _ _ ex_flies) [] _ (flies_nil O _) (Forall_nil_2 _))). Defined.

(** A call that begins after the work has ended, but before the leader deletes
    the entry, still returns its outcome. *)
Example stale_share : snd <$> fly O [Enter 0 "k"; Work 0 (Finished (Ok 7%nat)); Go 0; Enter 1 "k"; Go 1] (start 2)
  = Some [(Enter 0 "k", Quiet); (Work 0 (Finished (Ok 7%nat)), Quiet); (Go 0, Quiet); (Enter 1 "k", Quiet);
          (Go 1, Returns 1 0 false (Ok 7%nat))].
Proof. reflexivity. Qed.
