(* ===== verification/Pipeline.v ===== *)
(** * internal/blobio/pipeline.go

    The read and write path over an L1 cache, an L2 store and a status
    store. A method is one sequence of calls on the three; concurrent calls
    on one blob, which share one run, are in [Singleflight], the goroutines of a multipart
    promote in [Multipart]. The cache write that [Read] leaves to a
    goroutine is a task of the pipeline's state, run by [stepBackground]
    at any later time. [now] is the clock during a call, [finish] the clock
    at its end. *)
From S2P Require Import Prelude GoStd Sha256 BlobStore HotCache Multipart.
Local Open Scope Z_scope.

Definition CommitState : Type := string.
Definition CommitCached : CommitState := "CACHED".
Definition CommitDurable : CommitState := "COMMITTED_DURABLE".

Record BlobStatus := mkBlobStatus {
  bs_BlobID : string;
  bs_CommitState : CommitState;
  bs_Size : Z;
  bs_ChecksumSHA256 : string;
  bs_VersionID : string;
  bs_CachedAt : Time;
  bs_DurableAt : Time;
  bs_FileID : string;
  bs_TenantID : string;
  bs_Retention : RetentionSpec
}.
#[export] Instance eta_BlobStatus : Eta BlobStatus := fun s =>
  mkBlobStatus (bs_BlobID s) (bs_CommitState s) (bs_Size s) (bs_ChecksumSHA256 s) (bs_VersionID s)
    (bs_CachedAt s) (bs_DurableAt s) (bs_FileID s) (bs_TenantID s) (bs_Retention s).

Record WriteResult := mkWriteResult {
  wr_BlobID : string; wr_CommitState : CommitState; wr_Size : Z; wr_ChecksumSHA256 : string }.

Record ReadResult := mkReadResult {
  rr_Body : reader; rr_Size : Z; rr_ChecksumSHA256 : string; rr_VersionID : string; rr_FromCache : bool }.
#[export] Instance eta_ReadResult : Eta ReadResult := fun r =>
  mkReadResult (rr_Body r) (rr_Size r) (rr_ChecksumSHA256 r) (rr_VersionID r) (rr_FromCache r).

Record WriteOptions := mkWriteOptions {
  wo_PromoteSync : bool;
  wo_PinHot : bool;
  wo_Retention : RetentionSpec;
  wo_FileID : string;
  wo_TenantID : string
}.

(** ** The status store

    [Get] returns a pointer: what it points to is read with [ss_load] in the
    state of the moment, so that a store that updates its records in place
    shows the update through it. *)
Class StatusStore (SS : Type) := {
  ss_Ptr : Type;
  ss_load : SS -> ss_Ptr -> BlobStatus;
  ss_Get : string -> M SS (option ss_Ptr);
  ss_Put : BlobStatus -> M SS unit;
  ss_MarkDurable : string -> string -> Z -> string -> Time -> M SS unit
}.

(** The update [MarkDurable] makes to a record. *)
Definition marked (versionID : string) (size : Z) (checksum : string) (durableAt : Time) (s : BlobStatus)
  : BlobStatus :=
  s <| bs_CommitState := CommitDurable |> <| bs_VersionID := versionID |> <| bs_Size := size |>
    <| bs_ChecksumSHA256 := checksum |> <| bs_DurableAt := durableAt |>.

(** [MemoryStatusStore]: a map to records on a heap. *)
Record MemoryStatusStore := mkMemoryStatusStore { ms_heap : list BlobStatus; ms_m : gmap string nat }.
#[export] Instance eta_MemoryStatusStore : Eta MemoryStatusStore :=
  fun s => mkMemoryStatusStore (ms_heap s) (ms_m s).

Definition NewMemoryStatusStore : MemoryStatusStore := mkMemoryStatusStore [] ∅.

Definition zeroBlobStatus : BlobStatus :=
  mkBlobStatus "" "" 0 "" "" zeroTime zeroTime "" "" zeroRetentionSpec.

Definition ms_load (s : MemoryStatusStore) (p : nat) : BlobStatus := default zeroBlobStatus (ms_heap s !! p).
Definition ms_Get (blobID : string) : M MemoryStatusStore (option nat) := fun s => (s, Ok (ms_m s !! blobID)).
Definition ms_Put (status : BlobStatus) : M MemoryStatusStore unit := fun s =>
  (mkMemoryStatusStore (ms_heap s ++ [status]) (<[bs_BlobID status := length (ms_heap s)]> (ms_m s)), Ok tt).
Definition ms_MarkDurable (blobKey versionID : string) (size : Z) (checksum : string) (durableAt : Time)
  : M MemoryStatusStore unit := fun s =>
  match ms_m s !! blobKey with
  | None => (s, Ok tt)
  | Some p => (s <| ms_heap := alter (marked versionID size checksum durableAt) p (ms_heap s) |>, Ok tt)
  end.

#[export] Instance Memory_StatusStore : StatusStore MemoryStatusStore := {|
  ss_Ptr := nat; ss_load := ms_load; ss_Get := ms_Get; ss_Put := ms_Put; ss_MarkDurable := ms_MarkDurable
|}.

(** ** The pipeline *)

(** A pending cache write of [Read]. *)
Record restoreTask := mkRestoreTask { rk_blobID : string; rk_body : bytes; rk_meta : ObjectMeta }.

Record Pipeline (C St SS : Type) := mkPipeline {
  pl_cache : C;
  pl_store : St;
  pl_status : SS;
  maxRestoreBytes : Z;
  multipartParallelism : Z;
  pl_cancelled : bool;
  pl_bg : list restoreTask;
  promoteAttempts : Z;
  promoteSuccesses : Z;
  promoteFailures : Z;
  promoteSkipped : Z;
  promoteDurationNs : Z
}.
Arguments mkPipeline {C St SS}.
Arguments pl_cache {C St SS} _.
Arguments pl_store {C St SS} _.
Arguments pl_status {C St SS} _.
Arguments maxRestoreBytes {C St SS} _.
Arguments multipartParallelism {C St SS} _.
Arguments pl_cancelled {C St SS} _.
Arguments pl_bg {C St SS} _.
Arguments promoteAttempts {C St SS} _.
Arguments promoteSuccesses {C St SS} _.
Arguments promoteFailures {C St SS} _.
Arguments promoteSkipped {C St SS} _.
Arguments promoteDurationNs {C St SS} _.
#[export] Instance eta_Pipeline C St SS : Eta (Pipeline C St SS) := fun p =>
  mkPipeline (pl_cache p) (pl_store p) (pl_status p) (maxRestoreBytes p) (multipartParallelism p)
    (pl_cancelled p) (pl_bg p) (promoteAttempts p) (promoteSuccesses p) (promoteFailures p)
    (promoteSkipped p) (promoteDurationNs p).

Definition DefaultMaxRestoreBytes : Z := 256 * 1024 * 1024.
Definition DefaultMultipartParallelism : Z := 4.
Definition promoteMultipartThreshold : Z := 100 * 1024 * 1024.

(** [NewWithStatusStore] and [New]. *)
Definition NewWithStatusStore {C St SS} (cache : C) (store : St) (status : SS) : Pipeline C St SS :=
  mkPipeline cache store status DefaultMaxRestoreBytes DefaultMultipartParallelism false [] 0 0 0 0 0.
Definition New {C St} (cache : C) (store : St) : Pipeline C St MemoryStatusStore :=
  NewWithStatusStore cache store NewMemoryStatusStore.

Record PipelineStats := mkPipelineStats {
  PromoteAttempts : Z; PromoteSuccesses : Z; PromoteFailures : Z; PromoteSkipped : Z;
  PromoteDurationAvgMs : float64 }.

Section pipeline.
Context {C St SS : Type} `{!Cache C} `{!Store St} `{!StatusStore SS}.
Notation Pipeline := (Pipeline C St SS).
Notation MP := (M Pipeline).

Definition SetMaxRestoreBytes (n : Z) (p : Pipeline) : Pipeline := p <| maxRestoreBytes := n |>.
Definition SetMultipartParallelism (n : Z) (p : Pipeline) : Pipeline := p <| multipartParallelism := n |>.

(** Calls on the three parts. *)
Definition onCache {A} (m : M C A) : MP A := fun p =>
  let (c, r) := m (pl_cache p) in (p <| pl_cache := c |>, r).
Definition onStore {A} (m : M St A) : MP A := fun p =>
  let (s, r) := m (pl_store p) in (p <| pl_store := s |>, r).
Definition onStatus {A} (m : M SS A) : MP A := fun p =>
  let (s, r) := m (pl_status p) in (p <| pl_status := s |>, r).

(** [Counter.Add(1)] on an [atomic.Int64]. *)
Definition countFailure : MP unit := modify (fun p => p <| promoteFailures := wrap64 (promoteFailures p + 1) |>).
Definition countSkipped : MP unit := modify (fun p => p <| promoteSkipped := wrap64 (promoteSkipped p + 1) |>).
Definition countSuccess : MP unit := modify (fun p => p <| promoteSuccesses := wrap64 (promoteSuccesses p + 1) |>).
Definition failWith {A} (e : error) : MP A := countFailure;; throw e.

(** [checkAlreadyDurable]. *)
Definition sameObject (meta : ObjectMeta) (status : BlobStatus) : bool :=
  if negb (om_Size meta =? bs_Size status) then false
  else if negb (bool_decide (om_ChecksumSHA256 meta = ""))
          && negb (bool_decide (bs_ChecksumSHA256 status = ""))
          && negb (bool_decide (om_ChecksumSHA256 meta = bs_ChecksumSHA256 status)) then false
  else true.
Definition checkAlreadyDurable (now : Time) (blobID : string) (status : BlobStatus) : MP bool :=
  r ← try (onStore (st_Head now (mkObjectRef blobID)));
  ret (match r with Err _ => false | Ok meta => sameObject meta status end).

(** [promoteSingle]: the hasher has seen the bytes the store has read. *)
Definition promoteSingle (now : Time) (blobID : string) (r : reader) (status : BlobStatus) : MP PutResult :=
  let req := mkPutRequest blobID (Some r) (bs_Size status) (bs_ChecksumSHA256 status)
               "application/octet-stream" "" "" "" "" (bs_Retention status) false in
  seen ← gets (fun p => takeZ (st_PutReads now req (pl_store p)) (rd_bytes r));
  res ← wrap "blobio: promote put: %w" (onStore (st_Put now req));
  fail_if (negb (bool_decide (bs_ChecksumSHA256 status = ""))
           && negb (bool_decide (sha256_hex seen = bs_ChecksumSHA256 status)))
    (ErrWrap "blobio: %w: promote checksum mismatch" (ErrSentinel BsChecksumMismatch));;
  ret res.

(** [promoteMultipart]; the [None] case does not occur
    ([Multipart.multipart_returns]). *)
Definition promoteMultipart (now : Time) (blobID : string) (r : reader) (status : BlobStatus) : MP PutResult :=
  fun p =>
    match Multipart.promoteMultipart now promotePartSize (multipartParallelism p) blobID r
            (bs_ChecksumSHA256 status) (bs_Retention status) (pl_store p) with
    | Some (s, res) => (p <| pl_store := s |>, res)
    | None => (p, Err (ErrNew "out of fuel"))
    end.

(** The upload of [promoteLocked]. *)
Definition upload (now : Time) (blobID : string) (r : reader) (status : BlobStatus) : MP PutResult :=
  if promoteMultipartThreshold <? bs_Size status
  then promoteMultipart now blobID r status else promoteSingle now blobID r status.

(** The cache write after a promote: the entry becomes evictable. *)
Definition reputEvictable (now : Time) (blobID : string) (status : BlobStatus) : MP unit :=
  c ← try (onCache (c_Get now blobID));
  match c with
  | Err _ => ret tt
  | Ok (body, _) =>
      _ ← try (onCache (c_Put now blobID (Some body)
                 (mkPutOptions (bs_Size status) (bs_ChecksumSHA256 status) 0 false false)));
      ret tt
  end.

(** [promoteLocked] after its deferred bookkeeping is set up. *)
Definition promoteBody (now : Time) (blobID : string) : MP unit :=
  st ← try (onStatus (ss_Get blobID));
  match st with
  | Err e => failWith (ErrWrap "blobio: status get: %w" e)
  | Ok None => failWith (ErrWrap "blobio: %w: blob %q not in status store" (ErrSentinel BsNotFound))
  | Ok (Some ptr) =>
      status ← gets (fun p => ss_load (pl_status p) ptr);
      if bool_decide (bs_CommitState status = CommitDurable) then countSkipped else
      already ← checkAlreadyDurable now blobID status;
      if (already : bool) then
        countSkipped;;
        r ← try (onStatus (ss_MarkDurable blobID (bs_VersionID status) (bs_Size status)
                             (bs_ChecksumSHA256 status) now));
        match r with
        | Err e => failWith (ErrWrap "blobio: mark durable after HEAD skip: %w" e)
        | Ok _ => ret tt
        end
      else
        c ← try (onCache (c_Get now blobID));
        match c with
        | Err e => failWith (ErrWrap "blobio: promote cache get: %w" e)
        | Ok (r, _) =>
            up ← try (upload now blobID r status);
            match up with
            | Err e => failWith e
            | Ok res =>
                m ← try (onStatus (ss_MarkDurable blobID (pr_VersionID res) (pr_Size res)
                                     (pr_ChecksumSHA256 res) (pr_WriteTime res)));
                match m with
                | Err e => failWith (ErrWrap "blobio: mark durable after promote: %w" e)
                | Ok _ =>
                    status' ← gets (fun p => ss_load (pl_status p) ptr);
                    reputEvictable now blobID status';;
                    countSuccess
                end
            end
        end
  end.

(** [promoteLocked] and [Promote], as the call that runs it. *)
Definition promoteLocked (now finish : Time) (blobID : string) : MP unit := fun p =>
  let (p, r) := promoteBody now blobID (p <| promoteAttempts := wrap64 (promoteAttempts p + 1) |>) in
  (p <| promoteDurationNs := wrap64 (promoteDurationNs p + Sub finish now) |>, r).
Definition Promote (now finish : Time) (blobID : string) : MP unit := promoteLocked now finish blobID.

(** [Write]. *)
Definition Write (now finish : Time) (blobID : string) (body : bytes) (opts : WriteOptions) : MP WriteResult :=
  fail_if (bool_decide (blobID = "")) (ErrNew "blobio: blob_id is required");;
  let checksum := sha256_hex body in
  wrap "blobio: cache put: %w" (onCache (c_Put now blobID (Some (bytes_NewReader body))
    (mkPutOptions (len body) checksum 0 (wo_PinHot opts) true)));;
  wrap "blobio: status put: %w" (onStatus (ss_Put
    (mkBlobStatus blobID CommitCached (len body) checksum "" now zeroTime (wo_FileID opts)
       (wo_TenantID opts) (wo_Retention opts))));;
  if wo_PromoteSync opts then
    wrap "blobio: sync promote: %w" (Promote now finish blobID);;
    ret (mkWriteResult blobID CommitDurable (len body) checksum)
  else ret (mkWriteResult blobID CommitCached (len body) checksum).

(** [restoreFromL2], as the call that runs it. *)
Definition restoreFromL2 (now : Time) (blobID : string) : MP (bytes * ObjectMeta) :=
  got ← wrap "blobio: l2 get: %w" (onStore (st_Get now (mkGetRequest (mkVersionedObjectRef blobID "") None)));
  let '(r, meta) := got in
  mx ← gets maxRestoreBytes;
  let rd := if 0 <? mx then LimitReader r (wrap64 (mx + 1)) else r in
  body ← wrap "blobio: l2 read: %w" (lift (ReadAll rd));
  fail_if ((0 <? mx) && (mx <? len body)) (ErrNew "blobio: l2 restore of %q exceeds max_restore_bytes %d");;
  if bool_decide (om_ChecksumSHA256 meta = "")
  then ret (body, meta <| om_ChecksumSHA256 := sha256_hex body |>)
  else
    fail_if (negb (bool_decide (sha256_hex body = om_ChecksumSHA256 meta)))
      (ErrWrap "blobio: %w: l2 checksum mismatch" (ErrSentinel BsChecksumMismatch));;
    ret (body, meta).

(** [Read]. *)
Definition Read (now : Time) (blobID : string) : MP ReadResult :=
  fail_if (bool_decide (blobID = "")) (ErrNew "blobio: blob_id is required");;
  c ← try (onCache (c_Get now blobID));
  match c with
  | Ok (r, _) =>
      st ← try (onStatus (ss_Get blobID));
      ss ← gets pl_status;
      let result := mkReadResult r 0 "" "" true in
      match st with
      | Ok (Some ptr) =>
          let status := ss_load ss ptr in
          ret (mkReadResult r (bs_Size status) (bs_ChecksumSHA256 status) (bs_VersionID status) true)
      | _ => ret result
      end
  | Err e =>
      if negb (errors_Is e HcCacheMiss) then throw (ErrWrap "blobio: cache get: %w" e) else
      got ← restoreFromL2 now blobID;
      let '(body, meta) := got in
      modify (fun p => p <| pl_bg := pl_bg p ++ [mkRestoreTask blobID body meta] |>);;
      ret (mkReadResult (bytes_NewReader body) (om_Size meta) (om_ChecksumSHA256 meta) (om_VersionID meta) false)
  end.

(** The goroutine of [Read]. *)
Definition runRestore (now : Time) (t : restoreTask) : MP unit :=
  stop ← gets pl_cancelled;
  if (stop : bool) then ret tt else
  let meta := rk_meta t in
  _ ← try (onCache (c_Put now (rk_blobID t) (Some (bytes_NewReader (rk_body t)))
             (mkPutOptions (om_Size meta) (om_ChecksumSHA256 meta) 0 false false)));
  _ ← try (onStatus (ss_Put
             (mkBlobStatus (rk_blobID t) CommitDurable (om_Size meta) (om_ChecksumSHA256 meta)
                (om_VersionID meta) zeroTime (om_WriteTime meta) "" ""
                (mkRetentionSpec (rt_Mode (om_Retention meta)) (rt_RetainUntil (om_Retention meta))
                   (rt_LegalHold (om_Retention meta))))));
  ret tt.

(** The [i]-th pending goroutine runs. *)
Definition stepBackground (now : Time) (i : nat) : MP unit := fun p =>
  match pl_bg p !! i with
  | None => (p, Ok tt)
  | Some t => runRestore now t (p <| pl_bg := delete i (pl_bg p) |>)
  end.

(** [Status]. *)
Definition Status (blobID : string) : MP ss_Ptr :=
  st ← wrap "blobio: status get: %w" (onStatus (ss_Get blobID));
  match st with
  | None => throw (ErrWrap "blobio: %w: blob %q" (ErrSentinel BsNotFound))
  | Some ptr => ret ptr
  end.

(** [Evict]. *)
Definition Evict (blobID : string) : MP unit :=
  st ← try (onStatus (ss_Get blobID));
  ss ← gets pl_status;
  fail_if (match st with
           | Ok (Some ptr) => negb (bool_decide (bs_CommitState (ss_load ss ptr) = CommitDurable))
           | _ => false
           end) (ErrNew "blobio: cannot evict blob %q: not yet durable");;
  onCache (c_Evict blobID).

(** [Stats]. *)
Definition Stats (p : Pipeline) : PipelineStats :=
  let avgMs := if 0 <? promoteAttempts p
               then f64_div (f64_div (f64_of_Z (promoteDurationNs p)) (f64_of_Z (promoteAttempts p)))
                      (f64_of_Z 1000000)
               else f64_of_Z 0 in
  mkPipelineStats (promoteAttempts p) (promoteSuccesses p) (promoteFailures p) (promoteSkipped p) avgMs.

(** [Close]: cancel, then wait for the goroutines, which see the
    cancellation. *)
Fixpoint waitAll (now : Time) (fuel : nat) (p : Pipeline) : Pipeline :=
  match fuel with
  | O => p
  | S fuel' => waitAll now fuel' (stepBackground now 0 p).1
  end.
Definition Close (now : Time) : MP unit := fun p =>
  let p := p <| pl_cancelled := true |> in (waitAll now (length (pl_bg p)) p, Ok tt).
End pipeline.

(** ** The paths of a promote *)
Section paths.
Context {C St SS : Type} `{!Cache C} `{!Store St} `{!StatusStore SS}.
Notation Pipeline := (Pipeline C St SS).
Implicit Types (p : Pipeline).

(** The counters after a path: [add n z]. *)
Definition bump_failures p : Pipeline := p <| promoteFailures := wrap64 (promoteFailures p + 1) |>.
Definition bump_skipped p : Pipeline := p <| promoteSkipped := wrap64 (promoteSkipped p + 1) |>.
Definition bump_successes p : Pipeline := p <| promoteSuccesses := wrap64 (promoteSuccesses p + 1) |>.

(** The HEAD of [checkAlreadyDurable] and its verdict. *)
Definition headVerdict (r : result ObjectMeta) (status : BlobStatus) : bool :=
  match r with Err _ => false | Ok meta => sameObject meta status end.

Inductive promotePath (now : Time) (id : string) p : Pipeline -> result unit -> Prop :=
| PathStatusError s e :
    ss_Get id (pl_status p) = (s, Err e) ->
    promotePath now id p (bump_failures (p <| pl_status := s |>)) (Err (ErrWrap "blobio: status get: %w" e))
| PathUnknown s :
    ss_Get id (pl_status p) = (s, Ok None) ->
    promotePath now id p (bump_failures (p <| pl_status := s |>))
      (Err (ErrWrap "blobio: %w: blob %q not in status store" (ErrSentinel BsNotFound)))
| PathDurable s ptr :
    ss_Get id (pl_status p) = (s, Ok (Some ptr)) ->
    bs_CommitState (ss_load s ptr) = CommitDurable ->
    promotePath now id p (bump_skipped (p <| pl_status := s |>)) (Ok tt)
| PathHead s ptr s1 h s2 r :
    ss_Get id (pl_status p) = (s, Ok (Some ptr)) ->
    bs_CommitState (ss_load s ptr) <> CommitDurable ->
    st_Head now (mkObjectRef id) (pl_store p) = (s1, h) -> headVerdict h (ss_load s ptr) = true ->
    ss_MarkDurable id (bs_VersionID (ss_load s ptr)) (bs_Size (ss_load s ptr))
      (bs_ChecksumSHA256 (ss_load s ptr)) now s = (s2, r) ->
    let p1 := bump_skipped (p <| pl_status := s2 |> <| pl_store := s1 |>) in
    promotePath now id p
      (match r with Ok _ => p1 | Err _ => bump_failures p1 end)
      (match r with Ok _ => Ok tt | Err e => Err (ErrWrap "blobio: mark durable after HEAD skip: %w" e) end)
| PathCacheError s ptr s1 h c e :
    ss_Get id (pl_status p) = (s, Ok (Some ptr)) ->
    bs_CommitState (ss_load s ptr) <> CommitDurable ->
    st_Head now (mkObjectRef id) (pl_store p) = (s1, h) -> headVerdict h (ss_load s ptr) = false ->
    c_Get now id (pl_cache p) = (c, Err e) ->
    promotePath now id p (bump_failures (p <| pl_status := s |> <| pl_store := s1 |> <| pl_cache := c |>))
      (Err (ErrWrap "blobio: promote cache get: %w" e))
| PathUploadError s ptr s1 h c rd md s2 e :
    ss_Get id (pl_status p) = (s, Ok (Some ptr)) ->
    bs_CommitState (ss_load s ptr) <> CommitDurable ->
    st_Head now (mkObjectRef id) (pl_store p) = (s1, h) -> headVerdict h (ss_load s ptr) = false ->
    c_Get now id (pl_cache p) = (c, Ok (rd, md)) ->
    let p1 := p <| pl_status := s |> <| pl_store := s1 |> <| pl_cache := c |> in
    upload now id rd (ss_load s ptr) p1 = (p1 <| pl_store := s2 |>, Err e) ->
    promotePath now id p (bump_failures (p1 <| pl_store := s2 |>)) (Err e)
| PathMarkError s ptr s1 h c rd md s2 res s3 e :
    ss_Get id (pl_status p) = (s, Ok (Some ptr)) ->
    bs_CommitState (ss_load s ptr) <> CommitDurable ->
    st_Head now (mkObjectRef id) (pl_store p) = (s1, h) -> headVerdict h (ss_load s ptr) = false ->
    c_Get now id (pl_cache p) = (c, Ok (rd, md)) ->
    let p1 := p <| pl_status := s |> <| pl_store := s1 |> <| pl_cache := c |> in
    upload now id rd (ss_load s ptr) p1 = (p1 <| pl_store := s2 |>, Ok res) ->
    ss_MarkDurable id (pr_VersionID res) (pr_Size res) (pr_ChecksumSHA256 res) (pr_WriteTime res) s = (s3, Err e) ->
    promotePath now id p (bump_failures (p1 <| pl_store := s2 |> <| pl_status := s3 |>))
      (Err (ErrWrap "blobio: mark durable after promote: %w" e))
| PathDone s ptr s1 h c rd md s2 res s3 c2 :
    ss_Get id (pl_status p) = (s, Ok (Some ptr)) ->
    bs_CommitState (ss_load s ptr) <> CommitDurable ->
    st_Head now (mkObjectRef id) (pl_store p) = (s1, h) -> headVerdict h (ss_load s ptr) = false ->
    c_Get now id (pl_cache p) = (c, Ok (rd, md)) ->
    let p1 := p <| pl_status := s |> <| pl_store := s1 |> <| pl_cache := c |> in
    upload now id rd (ss_load s ptr) p1 = (p1 <| pl_store := s2 |>, Ok res) ->
    ss_MarkDurable id (pr_VersionID res) (pr_Size res) (pr_ChecksumSHA256 res) (pr_WriteTime res) s = (s3, Ok tt) ->
    let p2 := p1 <| pl_store := s2 |> <| pl_status := s3 |> in
    reputEvictable now id (ss_load s3 ptr) p2 = (p2 <| pl_cache := c2 |>, Ok tt) ->
    promotePath now id p (bump_successes (p2 <| pl_cache := c2 |>)) (Ok tt).

Lemma upload_store now id r status p : exists s res, upload now id r status p = (p <| pl_store := s |>, res).
Proof.
  unfold upload. destruct (_ <? _).
  - unfold promoteMultipart. destruct (Multipart.promoteMultipart _ _ _ _ _ _ _ _) as [[s res]|]; [by eauto|].
    exists (pl_store p). eexists. by destruct p.
  - unfold promoteSingle, onStore, wrap. unroll. destruct (st_Put _ _ _) as [s [res|e]]; [|by eauto].
    destruct (_ && _); by eauto.
Qed.

Lemma reput_cache now id status p : exists c, reputEvictable now id status p = (p <| pl_cache := c |>, Ok tt).
Proof.
  unfold reputEvictable, onCache. unroll. destruct (c_Get now id (pl_cache p)) as [c [[r md]|e]]; [|by eauto].
  cbn [pl_cache upd eta_expand eta_Pipeline]. destruct (c_Put _ _ _ _ c) as [c2 r2]. by eauto.
Qed.

Lemma promoteBody_path now id p p' r : promoteBody now id p = (p', r) -> promotePath now id p p' r.
Proof.
  unfold promoteBody, failWith, countFailure, countSkipped, countSuccess, checkAlreadyDurable, onStatus, onStore.
  unroll. destruct (ss_Get id (pl_status p)) as [s [[ptr|]|e]] eqn:Hg.
  2: { intros [= <- <-]. by apply PathUnknown. }
  2: { intros [= <- <-]. by apply PathStatusError. }
  cbn [pl_status pl_store pl_cache upd eta_expand eta_Pipeline].
  destruct (bool_decide (bs_CommitState (ss_load s ptr) = CommitDurable)) eqn:Hd; bool_hyps.
  { intros [= <- <-]. by eapply PathDurable. }
  cbn [pl_status pl_store pl_cache upd eta_expand eta_Pipeline].
  destruct (st_Head now (mkObjectRef id) (pl_store p)) as [s1 h] eqn:Hh.
  cbn [pl_status pl_store pl_cache upd eta_expand eta_Pipeline].
  fold (headVerdict h (ss_load s ptr)). destruct (headVerdict h (ss_load s ptr)) eqn:Hv.
  { cbn [pl_status pl_store pl_cache upd eta_expand eta_Pipeline].
    destruct (ss_MarkDurable id _ _ _ now s) as [s2 [[]|e]] eqn:Hm; intros [= <- <-].
    - exact (PathHead now id p s ptr s1 h s2 (Ok tt) Hg Hd Hh Hv Hm).
    - exact (PathHead now id p s ptr s1 h s2 (Err e) Hg Hd Hh Hv Hm). }
  unfold onCache. cbn [pl_status pl_store pl_cache upd eta_expand eta_Pipeline].
  destruct (c_Get now id (pl_cache p)) as [c [[rd md]|e]] eqn:Hc.
  2: { intros [= <- <-]. by eapply (PathCacheError now id p s ptr s1 h c e). }
  set (p1 := p <| pl_status := s |> <| pl_store := s1 |> <| pl_cache := c |>).
  match goal with |- context [upload now id rd (ss_load s ptr) ?q] => change q with p1 end.
  destruct (upload_store now id rd (ss_load s ptr) p1) as (s2 & [res|e] & Hu); rewrite Hu.
  2: { intros [= <- <-]. exact (PathUploadError now id p s ptr s1 h c rd md s2 e Hg Hd Hh Hv Hc Hu). }
  cbn [pl_status upd eta_expand eta_Pipeline]. change (pl_status p1) with s.
  destruct (ss_MarkDurable id _ _ _ _ s) as [s3 [[]|e]] eqn:Hm.
  2: { intros [= <- <-]. exact (PathMarkError now id p s ptr s1 h c rd md s2 res s3 e Hg Hd Hh Hv Hc Hu Hm). }
  set (p2 := p1 <| pl_store := s2 |> <| pl_status := s3 |>).
  match goal with |- context [reputEvictable now id ?st ?q] =>
    change (reputEvictable now id st q) with (reputEvictable now id (ss_load s3 ptr) p2) end.
  destruct (reput_cache now id (ss_load s3 ptr) p2) as (c2 & Hr). rewrite Hr. intros [= <- <-].
  exact (PathDone now id p s ptr s1 h c rd md s2 res s3 c2 Hg Hd Hh Hv Hc Hu Hm Hr).
Qed.

Lemma Promote_path now finish id p p' r : Promote now finish id p = (p', r) ->
  exists p1, promotePath now id (p <| promoteAttempts := wrap64 (promoteAttempts p + 1) |>) p1 r /\
    p' = p1 <| promoteDurationNs := wrap64 (promoteDurationNs p1 + Sub finish now) |>.
Proof.
  unfold Promote, promoteLocked. destruct (promoteBody _ _ _) as [p1 r1] eqn:Hb. intros [= <- <-].
  exists p1. split; [by apply promoteBody_path|done].
Qed.

(** What [restoreFromL2] does: one store read; a body it returns fits the
    limit and has the checksum it is returned with. *)
Lemma restore_cases now id p p' r : restoreFromL2 now id p = (p', r) ->
  exists s g, st_Get now (mkGetRequest (mkVersionedObjectRef id "") None) (pl_store p) = (s, g) /\
    p' = p <| pl_store := s |> /\
    match r with
    | Err _ => True
    | Ok (body, meta) => exists rd md, g = Ok (rd, md) /\
        ReadAll (if 0 <? maxRestoreBytes p then LimitReader rd (wrap64 (maxRestoreBytes p + 1)) else rd) = Ok body /\
        (0 < maxRestoreBytes p -> len body <= maxRestoreBytes p) /\
        om_ChecksumSHA256 meta = sha256_hex body /\ om_Size meta = om_Size md /\
        (om_ChecksumSHA256 md <> "" -> meta = md)
    end.
Proof.
  unfold restoreFromL2, onStore, wrap. unroll.
  destruct (st_Get _ _ _) as [s g] eqn:Hg. destruct g as [[rd md]|e].
  2: { intros [= <- <-]. by exists s, (Err e). }
  cbn [pl_store maxRestoreBytes upd eta_expand eta_Pipeline].
  destruct (ReadAll _) as [body|e] eqn:Hr; [|intros [= <- <-]; by eexists _, _].
  destruct ((0 <? maxRestoreBytes p) && (maxRestoreBytes p <? len body)) eqn:Hm;
    [intros [= <- <-]; by eexists _, _|].
  assert (Hle : 0 < maxRestoreBytes p -> len body <= maxRestoreBytes p).
  { intros Hp. apply andb_false_iff in Hm as [Hm|Hm]; bool_hyps; lia. }
  destruct (bool_decide (om_ChecksumSHA256 md = "")) eqn:Hs; bool_hyps.
  - intros [= <- <-]. eexists _, _. split; [done|]. split; [done|]. exists rd, md.
    do 3 (split; [done|]). split; [done|]. split; [done|]. done.
  - destruct (bool_decide (sha256_hex body = om_ChecksumSHA256 md)) eqn:He; bool_hyps; cbn [negb];
      intros [= <- <-]; eexists _, _; (split; [done|]); (split; [done|]); [|done].
    exists rd, md. do 3 (split; [done|]). split; [done|]. split; [done|]. done.
Qed.
End paths.

Lemma wrap_cases {S A} msg (m : M S A) s s' r : wrap msg m s = (s', r) ->
  (exists a, r = Ok a /\ m s = (s', Ok a)) \/ (exists e, r = Err (ErrWrap msg e) /\ m s = (s', Err e)).
Proof. unfold wrap. destruct (m s) as [s1 [a|e]]; intros [= <- <-]; eauto. Qed.

(** ** The laws of a status store, and the memory store *)
(** What a store must keep of a record: a store may round the times and drop
    the fields the pipeline never reads back. *)
Record sameStatus (st st' : BlobStatus) : Prop := {
  ss_BlobID : bs_BlobID st' = bs_BlobID st;
  ss_CommitState : bs_CommitState st' = bs_CommitState st;
  ss_Size : bs_Size st' = bs_Size st;
  ss_Checksum : bs_ChecksumSHA256 st' = bs_ChecksumSHA256 st;
  ss_VersionID : bs_VersionID st' = bs_VersionID st;
  ss_Mode : rs_Mode (bs_Retention st') = rs_Mode (bs_Retention st);
  ss_LegalHold : rs_LegalHold (bs_Retention st') = rs_LegalHold (bs_Retention st)
}.
#[export] Instance sameStatus_refl : Reflexive sameStatus.
Proof. by split. Qed.

Lemma sameStatus_inv st o : option_Forall2 sameStatus (Some st) o -> exists st', o = Some st' /\ sameStatus st st'.
Proof. inversion 1 as [x y Hs|]; subst. by exists y. Qed.

(** What a status store that answers its reads promises; its writes may fail.
    The in-memory store does; the Postgres one as long as its link does not
    fail. What the pipeline does when a read fails is [promotePath] and
    [PipelineSafety.Evict_on_status_error]. *)
Class StatusLaws (SS : Type) `{StatusStore SS} := {
  ss_inv : SS -> Prop;
  view : SS -> string -> option BlobStatus;
  (* Get finds what is there. *)
  status_Get : forall s id, ss_inv s -> exists s' o, ss_Get id s = (s', Ok o) /\ ss_inv s' /\
    (forall k, view s' k = view s k) /\ view s id = ss_load s' <$> o;
  (* Put and MarkDurable write one record, or fail and write nothing. *)
  status_Put : forall st s s' r, ss_inv s -> ss_Put st s = (s', r) -> ss_inv s' /\
    (forall k, k <> bs_BlobID st -> view s' k = view s k) /\
    match r with
    | Ok _ => option_Forall2 sameStatus (Some st) (view s' (bs_BlobID st))
    | Err _ => view s' (bs_BlobID st) = view s (bs_BlobID st)
    end;
  status_MarkDurable : forall id v sz sum t s s' r, ss_inv s -> ss_MarkDurable id v sz sum t s = (s', r) ->
    ss_inv s' /\ (forall k, k <> id -> view s' k = view s k) /\
    match r with
    | Ok _ => option_Forall2 sameStatus (marked v sz sum t <$> view s id) (view s' id)
    | Err _ => view s' id = view s id
    end
}.

(** Every name points to a cell of its own. *)
Definition ms_inv (s : MemoryStatusStore) : Prop :=
  (forall id p, ms_m s !! id = Some p -> (p < length (ms_heap s))%nat) /\
  (forall id id' p, ms_m s !! id = Some p -> ms_m s !! id' = Some p -> id = id').
Definition ms_view (s : MemoryStatusStore) (id : string) : option BlobStatus := ms_load s <$> ms_m s !! id.

#[export] Program Instance Memory_StatusLaws : StatusLaws MemoryStatusStore := {|
  ss_inv := ms_inv; view := ms_view
|}.
Next Obligation. intros s id Hi. exists s, (ms_m s !! id). done. Qed.
Next Obligation.
  intros st s s' r [Hb Hinj] [= <- <-]. split; [split; cbn|split].
  - intros id p [[_ <-]|[_ Hl]]%lookup_insert_Some; rewrite length_app; cbn; [lia|]. specialize (Hb _ _ Hl). lia.
  - intros id id' p [[<- <-]|[Hn Hl]]%lookup_insert_Some [[<- Hp]|[Hn' Hl']]%lookup_insert_Some; try done.
    + specialize (Hb _ _ Hl'). lia.
    + subst p. specialize (Hb _ _ Hl). lia.
    + by eapply Hinj.
  - intros k Hk. unfold ms_view. cbn. rewrite lookup_insert_ne by done. destruct (ms_m s !! k) as [p|] eqn:Hl; [|done].
    cbn. unfold ms_load. cbn. by rewrite lookup_app_l by by eapply Hb.
  - unfold ms_view. cbn. rewrite lookup_insert_eq. cbn. unfold ms_load. cbn.
    rewrite lookup_app_r, Nat.sub_diag by lia. cbn. by constructor.
Qed.
Next Obligation.
  intros id v sz sum t s s' r [Hb Hinj]. cbn. unfold ms_MarkDurable, ms_view.
  destruct (ms_m s !! id) as [p|] eqn:Hl; intros [= <- <-]; cbn.
  - split; [split; cbn; [intros k q; rewrite length_alter; apply Hb|done]|]. split.
    + intros k Hk. destruct (ms_m s !! k) as [q|] eqn:Hq; [|done]. cbn. unfold ms_load. cbn.
      rewrite list_lookup_alter_ne; [done|]. intros ->. apply Hk. by eapply Hinj.
    + rewrite Hl. cbn. unfold ms_load. cbn. rewrite list_lookup_alter_eq.
      destruct (lookup_lt_is_Some_2 _ _ (Hb _ _ Hl)) as [x ->]. by constructor.
  - split; [done|]. split; [done|]. rewrite Hl. by constructor.
Qed.
