(* ===== verification/PipelineSafety.v ===== *)
(** * Correctness of the pipeline

    Over any cache, store and status store that keep their promises
    ([CacheLaws], [StoreLaws], [StatusLaws]): an invariant of the pipeline,
    what each operation leaves unaffected, and the fact that a written blob
    is never lost, through any sequence of operations, when the HEAD of the
    store reports checksums ([head_sums]). Witnesses run the in-memory cache
    over the local filesystem provider. *)
From S2P Require Import Prelude GoStd Sha256 BlobStore HotCache LruCore MemoryCache LocalFsDev LocalStore Multipart Pipeline.
Local Open Scope Z_scope.

(** ** Safety: a written blob stays readable *)
Section safety.
Context {C St SS : Type} `{CacheLaws C} `{StoreLaws St} `{StatusLaws SS}.
Notation Pipeline := (Pipeline C St SS).
Implicit Types (p : Pipeline).

(** The largest body whose parts fit an [int32] number. *)
Definition bodyLimit : Z := promotePartSize * (2 ^ 31 - 2).

Record pinv (t : Time) p : Prop := {
  pi_cache : cache_inv (pl_cache p);
  pi_store : store_inv t (pl_store p);
  pi_status : ss_inv (pl_status p);
  pi_content : forall id b, content (pl_cache p) id b -> len b < bodyLimit;
  pi_bg : forall k, k ∈ pl_bg p -> len (rk_body k) < bodyLimit;
  pi_max : 0 < maxRestoreBytes p < bodyLimit
}.

(** [sum] and [size] identify a body up to a collision of SHA-256. *)
Definition is_body (size : Z) (sum : string) (b : bytes) : Prop := len b = size /\ sha256_hex b = sum.

(** The blob is recorded with its size and checksum; either it is CACHED and
    its bytes are protected in the cache, or it is durable and the store has
    them. Whatever else holds a body of the blob agrees. *)
Record safe (id : string) (size : Z) (sum : string) p : Prop := {
  sf_view : exists st, view (pl_status p) id = Some st /\ bs_Size st = size /\ bs_ChecksumSHA256 st = sum /\
    ((bs_CommitState st = CommitCached /\
        (exists b, protected (pl_cache p) id b /\ is_body size sum b) /\
        (forall k, k ∈ pl_bg p -> rk_blobID k <> id)) \/
     (bs_CommitState st = CommitDurable /\ exists b, stored (pl_store p) id b /\ is_body size sum b));
  sf_content : forall b, content (pl_cache p) id b -> is_body size sum b;
  sf_bg : forall k, k ∈ pl_bg p -> rk_blobID k = id ->
    is_body size sum (rk_body k) /\ om_Size (rk_meta k) = size /\ om_ChecksumSHA256 (rk_meta k) = sum
}.

(** The store holds [b], of [size] bytes, under [id] and a HEAD of it says
    nothing of its checksum: a promote takes such an object for the blob. *)
Definition blindHead (now : Time) (id : string) (size : Z) (s : St) (b : bytes) : Prop :=
  stored s id b /\ len b = size /\
  exists s' md, st_Head now (mkObjectRef id) s = (s', Ok md) /\ om_Size md = size /\ om_ChecksumSHA256 md = "".

Lemma head_sums_not_blind t now id size s b : head_sums -> store_inv t s -> good_key id -> ~ blindHead now id size s b.
Proof. intros Hh Hi Hg (_ & _ & s' & md & Hm & _ & He). by apply (Hh t now s s' id md). Qed.

(** A step that is not about [id] and loses nothing of it. *)
Record unaffected (id : string) p p' : Prop := {
  un_protected : forall b, protected (pl_cache p) id b -> protected (pl_cache p') id b;
  un_content : forall b, content (pl_cache p') id b -> content (pl_cache p) id b;
  un_stored : forall b, stored (pl_store p) id b -> stored (pl_store p') id b;
  un_view : view (pl_status p') id = view (pl_status p) id;
  un_bg : forall k, k ∈ pl_bg p' -> rk_blobID k = id -> k ∈ pl_bg p
}.

Lemma unaffected_refl id p : unaffected id p p.
Proof. by split. Qed.
Lemma unaffected_trans id p1 p2 p3 : unaffected id p1 p2 -> unaffected id p2 p3 -> unaffected id p1 p3.
Proof.
  intros [] []. split; [by auto|by auto|by auto|congruence|]. intros k Hk Hid. apply un_bg0; [by apply un_bg1|done].
Qed.

Lemma safe_unaffected id size sum p p' : unaffected id p p' -> safe id size sum p -> safe id size sum p'.
Proof.
  intros [Up Uc Us Uv Ub] [(st & Hv & Hsz & Hsum & Hcase) Hc Hbg]. split; [|by auto|by auto].
  exists st. rewrite Uv. do 3 (split; [done|]). destruct Hcase as [(Hst & (b & Hb & Hib) & Hno)|(Hst & b & Hb & Hib)].
  - left. split; [done|]. split; [exists b; by auto|]. intros k Hk Hid. by apply (Hno k); [apply Ub|].
  - right. split; [done|]. exists b. by auto.
Qed.

Lemma pinv_time t t' p : t <= t' -> pinv t p -> pinv t' p.
Proof. intros Ht []. split; try done. by eapply store_time. Qed.

(** *** The effect of each call on the parts *)
Lemma cacheGet_keeps t now id p c r : pinv t p -> c_Get now id (pl_cache p) = (c, r) ->
  pinv t (p <| pl_cache := c |>) /\ forall id', unaffected id' p (p <| pl_cache := c |>).
Proof.
  intros [] Hg. destruct (Get_inv _ _ _ _ _ pi_cache0 Hg) as [Hi Hk].
  split; [split; cbn; try done|]; [|intros id'; split; cbn; try done; intros b; apply Hk].
  intros id' b Hb. by eapply pi_content0, Hk.
Qed.

Lemma cachePut_keeps t now id b o p c r : pinv t p -> len b < bodyLimit ->
  c_Put now id (Some (bytes_NewReader b)) o (pl_cache p) = (c, r) ->
  pinv t (p <| pl_cache := c |>) /\ (forall id', id' <> id -> unaffected id' p (p <| pl_cache := c |>)) /\
  (forall b', content c id b' -> content (pl_cache p) id b' \/ b' = b).
Proof.
  intros [] Hb Hp. pose proof (Put_inv _ _ _ _ _ _ _ pi_cache0 Hp) as Hi.
  assert (Hc : forall id' b', content c id' b' -> content (pl_cache p) id' b' \/ (id' = id /\ b' = b))
    by (intros id' b'; by eapply Put_content).
  split; [split; cbn; try done|split].
  - intros id' b' [Hc'|[_ ->]]%Hc; [by eapply pi_content0|done].
  - intros id' Hne. split; cbn; try done.
    + intros b'. by eapply Put_protects.
    + intros b' [Hc'|[-> _]]%Hc; done.
  - intros b' [Hc'|[_ ->]]%Hc; auto.
Qed.

Lemma statusGet_keeps t id p s r : pinv t p -> ss_Get id (pl_status p) = (s, r) ->
  pinv t (p <| pl_status := s |>) /\ (forall id', unaffected id' p (p <| pl_status := s |>)) /\
  exists o, r = Ok o /\ view (pl_status p) id = ss_load s <$> o /\ view s id = ss_load s <$> o.
Proof.
  intros [] Hg. destruct (status_Get (pl_status p) id pi_status0) as (s' & o & Hg' & Hi & Hk & Hv).
  rewrite Hg in Hg'. injection Hg' as -> ->. split; [by split|]. split; [by intros id'; split|].
  exists o. split; [done|]. split; [done|]. by rewrite Hk.
Qed.

Lemma statusPut_keeps t st p s r : pinv t p -> ss_Put st (pl_status p) = (s, r) ->
  pinv t (p <| pl_status := s |>) /\ forall id', id' <> bs_BlobID st -> unaffected id' p (p <| pl_status := s |>).
Proof.
  intros [] Hp. destruct (status_Put _ _ _ _ pi_status0 Hp) as (Hi & Hk & _). split; [by split|].
  intros id' Hne. split; cbn; try done. by apply Hk.
Qed.

Lemma statusMark_keeps t id v sz sum d p s r : pinv t p -> ss_MarkDurable id v sz sum d (pl_status p) = (s, r) ->
  pinv t (p <| pl_status := s |>) /\ forall id', id' <> id -> unaffected id' p (p <| pl_status := s |>).
Proof.
  intros [] Hp. destruct (status_MarkDurable _ _ _ _ _ _ _ _ pi_status0 Hp) as (Hi & Hk & _). split; [by split|].
  intros id' Hne. split; cbn; try done. by apply Hk.
Qed.

Lemma storeHead_keeps t now id p s r : pinv t p -> good_key id -> st_Head now (mkObjectRef id) (pl_store p) = (s, r) ->
  pinv t (p <| pl_store := s |>) /\ (forall id', unaffected id' p (p <| pl_store := s |>)) /\
  (forall md, r = Ok md -> exists b, stored (pl_store p) id b /\ stored s id b /\ om_Size md = len b /\
     (om_ChecksumSHA256 md = sha256_hex b \/ om_ChecksumSHA256 md = "")).
Proof.
  intros [] Hg Hh. destruct (store_Head _ _ _ _ _ _ pi_store0 Hg Hh) as (Hi & Hk & Hmd).
  split; [by split|]. split; [intros id'; split; cbn; try done; intros b; apply Hk|].
  intros md Hr. destruct (Hmd md Hr) as (b & Hb & ? & ?). exists b. by auto.
Qed.

Lemma storeGet_keeps t now req p s r : pinv t p -> st_Get now req (pl_store p) = (s, r) ->
  pinv t (p <| pl_store := s |>) /\ forall id', unaffected id' p (p <| pl_store := s |>).
Proof.
  intros [] Hg. destruct (store_Get_any _ _ _ _ _ _ pi_store0 Hg) as (Hi & Hk).
  split; [by split|]. intros id'; split; cbn; try done; intros b; apply Hk.
Qed.

(** The upload of a promote, of a body in memory. *)
Lemma upload_keeps t now id b st p p' r : pinv t p -> t < now -> good_key id -> len b < bodyLimit ->
  upload now id (bytes_NewReader b) st p = (p', r) ->
  pinv now p' /\ (forall id', id' <> id -> unaffected id' p p') /\
  (exists s, p' = p <| pl_store := s |>) /\
  forall res, r = Ok res -> stored (pl_store p') id b /\ pr_Size res = len b /\ pr_ChecksumSHA256 res = sha256_hex b.
Proof.
  intros Hpi Ht Hg Hb Hu. destruct (upload_store now id (bytes_NewReader b) st p) as (s & r0 & Hu0).
  rewrite Hu in Hu0. injection Hu0 as -> <-. pose proof Hpi as [].
  enough (Hen : store_inv now s /\ (forall k b', k <> id -> stored (pl_store p) k b' -> stored s k b') /\
    forall res, r = Ok res -> stored s id b /\ pr_Size res = len b /\ pr_ChecksumSHA256 res = sha256_hex b).
  { destruct Hen as (Hi & Hk & Hok). split; [by split|]. split; [|split; [by eexists|done]].
    intros id' Hne. split; cbn; try done. intros b'. by apply Hk. }
  revert Hu. unfold upload. destruct (_ <? _).
  - unfold promoteMultipart. destruct (Multipart.promoteMultipart _ _ _ _ _ _ _ _) as [[s' r']|] eqn:Hm.
    + intros [= <- <-].
      destruct (promoteMultipart_spec t now promotePartSize (multipartParallelism p) id (bytes_NewReader b) _ _ _ _ _
                  pi_store0 Ht Hg ltac:(done) Hb Hm) as (Hi & Hk & Hok).
      split; [done|]. split; [done|]. intros res Hr. destruct (Hok res Hr) as (? & ? & ? & _). done.
    + destruct (multipart_returns now promotePartSize (multipartParallelism p) id (bytes_NewReader b)
                  (bs_ChecksumSHA256 st) (bs_Retention st) (pl_store p)) as (_ & _ & (s' & r' & Hm')); [done|congruence].
  - unfold promoteSingle, onStore, wrap. unroll.
    match goal with |- context [st_Put now ?q (pl_store p)] => set (req := q) end.
    destruct (st_Put now req (pl_store p)) as [s' [res|e]] eqn:Hp.
    + destruct (store_Put t now req _ _ _ pi_store0 Ht Hg Hp) as (Hi & Hk & Hok).
      specialize (Hok res b eq_refl eq_refl).
      destruct (_ && _); intros [= <- <-]; (split; [done|]); (split; [done|]); intros res' Hr; [done|].
      injection Hr as <-. destruct Hok as (? & ? & ? & _). done.
    + destruct (store_Put t now req _ _ _ pi_store0 Ht Hg Hp) as (Hi & Hk & _). intros [= <- <-]. done.
Qed.

Lemma pinv_same t p p' : pl_cache p' = pl_cache p -> pl_store p' = pl_store p -> pl_status p' = pl_status p ->
  pl_bg p' = pl_bg p -> maxRestoreBytes p' = maxRestoreBytes p -> pinv t p -> pinv t p'.
Proof. intros E1 E2 E3 E4 E5 []. split; rewrite ?E1, ?E2, ?E3, ?E4, ?E5; done. Qed.

Lemma unaffected_same id p p' : pl_cache p' = pl_cache p -> pl_store p' = pl_store p -> pl_status p' = pl_status p ->
  pl_bg p' = pl_bg p -> unaffected id p p'.
Proof. intros E1 E2 E3 E4. split; rewrite ?E1, ?E2, ?E3, ?E4; done. Qed.

(** The cache write after a promote. *)
Lemma reput_keeps t now id st p p' r : pinv t p -> reputEvictable now id st p = (p', r) ->
  pinv t p' /\ (forall id', id' <> id -> unaffected id' p p') /\
  (exists c, p' = p <| pl_cache := c |>) /\
  (forall b, content (pl_cache p') id b -> content (pl_cache p) id b).
Proof.
  intros Hpi. unfold reputEvictable, onCache. unroll.
  destruct (c_Get now id (pl_cache p)) as [c [[rd md]|e]] eqn:Hg;
    destruct (cacheGet_keeps _ _ _ _ _ _ Hpi Hg) as [Hpi1 Hu1].
  2: { intros [= <- <-]. split; [done|]. split; [by intros; apply Hu1|]. split; [by eexists|]. apply (Hu1 id). }
  pose proof (Get_content _ _ _ _ _ _ (pi_cache _ _ Hpi) Hg) as (b & -> & Hb).
  pose proof (pi_content _ _ Hpi _ _ Hb) as Hlen. cbn [pl_cache upd eta_expand eta_Pipeline].
  destruct (c_Put _ _ _ _ c) as [c2 r2] eqn:Hp. intros [= <- <-].
  destruct (cachePut_keeps t now id b _ (p <| pl_cache := c |>) c2 r2 Hpi1 Hlen Hp) as (Hpi2 & Hu2 & Hc2).
  split; [exact Hpi2|]. split; [|split; [by exists c2|]].
  - intros id' Hne. eapply unaffected_trans; [apply Hu1|]. by apply Hu2.
  - intros b' [Hb'| ->]%Hc2; [|done]. by apply (un_content _ _ _ (Hu1 id)).
Qed.

(** The calls a promote starts with. *)
Lemma pathHead_keeps t now id p s ptr s1 h : pinv t p -> good_key id -> ss_Get id (pl_status p) = (s, Ok (Some ptr)) ->
  st_Head now (mkObjectRef id) (pl_store p) = (s1, h) ->
  let q := p <| pl_status := s |> <| pl_store := s1 |> in pinv t q /\ forall id', unaffected id' p q.
Proof.
  intros Hpi Hg Hs Hh. destruct (statusGet_keeps _ _ _ _ _ Hpi Hs) as (Hpi1 & Hu1 & _).
  destruct (storeHead_keeps t now id (p <| pl_status := s |>) s1 h Hpi1 Hg Hh) as (Hpi2 & Hu2 & _).
  split; [exact Hpi2|]. intros id'. eapply unaffected_trans; [apply Hu1|apply Hu2].
Qed.
Lemma pathGet_keeps t now id p s ptr s1 h c rd md : pinv t p -> good_key id -> ss_Get id (pl_status p) = (s, Ok (Some ptr)) ->
  st_Head now (mkObjectRef id) (pl_store p) = (s1, h) -> c_Get now id (pl_cache p) = (c, Ok (rd, md)) ->
  let q := p <| pl_status := s |> <| pl_store := s1 |> <| pl_cache := c |> in
  pinv t q /\ (forall id', unaffected id' p q) /\ exists b, rd = bytes_NewReader b /\ len b < bodyLimit.
Proof.
  intros Hpi Hg Hs Hh Hc. destruct (pathHead_keeps t now id p s ptr s1 h Hpi Hg Hs Hh) as [Hpi1 Hu1].
  destruct (cacheGet_keeps t now id (p <| pl_status := s |> <| pl_store := s1 |>) c _ Hpi1 Hc) as [Hpi2 Hu2].
  split; [exact Hpi2|]. split; [intros id'; eapply unaffected_trans; [apply Hu1|apply Hu2]|].
  destruct (Get_content _ _ _ _ _ _ (pi_cache _ _ Hpi) Hc) as (b & -> & Hb). exists b. split; [done|].
  exact (pi_content _ _ Hpi _ _ Hb).
Qed.

Lemma path_keeps t now id p p' r : pinv t p -> t < now -> good_key id ->
  promotePath now id p p' r -> pinv now p' /\ forall id', id' <> id -> unaffected id' p p'.
Proof.
  intros Hpi Ht Hg Hpath.
  assert (Hbump : forall q q', pl_cache q' = pl_cache q -> pl_store q' = pl_store q -> pl_status q' = pl_status q ->
    pl_bg q' = pl_bg q -> maxRestoreBytes q' = maxRestoreBytes q ->
    pinv now q /\ (forall id', id' <> id -> unaffected id' p q) ->
    pinv now q' /\ (forall id', id' <> id -> unaffected id' p q')).
  { intros q q' E1 E2 E3 E4 E5 [Hq Hu]. split; [by eapply pinv_same|]. intros id' Hne.
    eapply unaffected_trans; [by apply Hu|]. by apply unaffected_same. }
  assert (Hle : t <= now) by lia.
  pose proof (fun s ptr s1 h Hs Hh => pathHead_keeps t now id p s ptr s1 h Hpi Hg Hs Hh) as Hpre.
  pose proof (fun s ptr s1 h c rd md Hs Hh Hc => pathGet_keeps t now id p s ptr s1 h c rd md Hpi Hg Hs Hh Hc) as Hpre2.
  destruct Hpath as [s e Hs|s Hs|s ptr Hs Hd|s ptr s1 h s2 r Hs Hd Hh Hv Hm p1|s ptr s1 h c e Hs Hd Hh Hv Hc
                    |s ptr s1 h c rd md s2 e Hs Hd Hh Hv Hc p1 Hu
                    |s ptr s1 h c rd md s2 res s3 e Hs Hd Hh Hv Hc p1 Hu Hm
                    |s ptr s1 h c rd md s2 res s3 c2 Hs Hd Hh Hv Hc p1 Hu Hm p2 Hr].
  - destruct (statusGet_keeps _ _ _ _ _ Hpi Hs) as (_ & _ & o & ? & _). done.
  - destruct (statusGet_keeps _ _ _ _ _ Hpi Hs) as (Hpi1 & Hu1 & _).
    apply (Hbump (p <| pl_status := s |>)); try done. split; [by eapply pinv_time|by intros; apply Hu1].
  - destruct (statusGet_keeps _ _ _ _ _ Hpi Hs) as (Hpi1 & Hu1 & _).
    apply (Hbump (p <| pl_status := s |>)); try done. split; [by eapply pinv_time|by intros; apply Hu1].
  - destruct (Hpre s ptr s1 h Hs Hh) as [Hpi1 Hu1].
    destruct (statusMark_keeps t _ _ _ _ _ (p <| pl_status := s |> <| pl_store := s1 |>) s2 r Hpi1 Hm) as [Hpi2 Hu2].
    apply (Hbump (p <| pl_status := s2 |> <| pl_store := s1 |>)); try by destruct r.
    split; [by eapply (pinv_time t)|]. intros id' Hne. eapply unaffected_trans; [apply Hu1|by apply Hu2].
  - destruct (Hpre s ptr s1 h Hs Hh) as [Hpi1 Hu1].
    destruct (cacheGet_keeps t now id (p <| pl_status := s |> <| pl_store := s1 |>) c _ Hpi1 Hc) as [Hpi2 Hu2].
    apply (Hbump (p <| pl_status := s |> <| pl_store := s1 |> <| pl_cache := c |>)); try done.
    split; [by eapply (pinv_time t)|]. intros id' Hne. eapply unaffected_trans; [apply Hu1|apply Hu2].
  - destruct (Hpre2 s ptr s1 h c rd md Hs Hh Hc) as (Hpi1 & Hu1 & b & -> & Hlen).
    destruct (upload_keeps t now id b _ p1 _ _ Hpi1 Ht Hg Hlen Hu) as (Hpi2 & Hu2 & _).
    apply (Hbump (p1 <| pl_store := s2 |>)); try done. split; [done|].
    intros id' Hne. eapply unaffected_trans; [apply Hu1|by apply Hu2].
  - destruct (Hpre2 s ptr s1 h c rd md Hs Hh Hc) as (Hpi1 & Hu1 & b & -> & Hlen).
    destruct (upload_keeps t now id b _ p1 _ _ Hpi1 Ht Hg Hlen Hu) as (Hpi2 & Hu2 & _).
    destruct (statusMark_keeps now _ _ _ _ _ (p1 <| pl_store := s2 |>) s3 _ Hpi2 Hm) as [Hpi3 Hu3].
    apply (Hbump (p1 <| pl_store := s2 |> <| pl_status := s3 |>)); try done. split; [exact Hpi3|].
    intros id' Hne. eapply unaffected_trans; [apply Hu1|]. eapply unaffected_trans; [by apply Hu2|by apply Hu3].
  - destruct (Hpre2 s ptr s1 h c rd md Hs Hh Hc) as (Hpi1 & Hu1 & b & -> & Hlen).
    destruct (upload_keeps t now id b _ p1 _ _ Hpi1 Ht Hg Hlen Hu) as (Hpi2 & Hu2 & _).
    destruct (statusMark_keeps now _ _ _ _ _ (p1 <| pl_store := s2 |>) s3 _ Hpi2 Hm) as [Hpi3 Hu3].
    destruct (reput_keeps now now id _ p2 _ _ Hpi3 Hr) as (Hpi4 & Hu4 & _ & _).
    apply (Hbump (p2 <| pl_cache := c2 |>)); try done. split; [exact Hpi4|].
    intros id' Hne. eapply unaffected_trans; [apply Hu1|]. eapply unaffected_trans; [by apply Hu2|].
    eapply unaffected_trans; [by apply Hu3|by apply Hu4].
Qed.

(** *** A promote of the blob itself *)
Lemma safe_sum id size sum p : safe id size sum p -> sum <> "".
Proof.
  intros [(st & _ & _ & _ & [(_ & (b & _ & _ & <-) & _)|(_ & b & _ & _ & <-)]) _ _]; apply sha256_hex_nonempty.
Qed.

(** While the blob is CACHED its safety does not depend on the store. *)
Lemma safe_cached id size sum p p' st : safe id size sum p -> view (pl_status p) id = Some st ->
  bs_CommitState st <> CommitDurable ->
  (forall b, protected (pl_cache p) id b -> protected (pl_cache p') id b) ->
  (forall b, content (pl_cache p') id b -> content (pl_cache p) id b) ->
  view (pl_status p') id = view (pl_status p) id -> pl_bg p' = pl_bg p -> safe id size sum p'.
Proof.
  intros [(st0 & Hv & Hsz & Hsum & Hcase) Hc Hbg] Hst Hnd Ep Ec Ev Eb. rewrite Hst in Hv. injection Hv as <-.
  split; [|by auto|by rewrite Eb]. exists st. rewrite Ev, Eb. do 3 (split; [done|]).
  destruct Hcase as [(? & (b & Hb & ?) & ?)|[? _]]; [|done]. left. split; [done|]. split; [exists b; by auto|done].
Qed.

(** The blob becomes durable. *)
Lemma safe_durable id size sum p p' b v d : safe id size sum p ->
  stored (pl_store p') id b -> is_body size sum b ->
  (forall b', content (pl_cache p') id b' -> content (pl_cache p) id b') ->
  option_Forall2 sameStatus (marked v size sum d <$> view (pl_status p) id) (view (pl_status p') id) -> pl_bg p' = pl_bg p ->
  safe id size sum p' /\ exists st, view (pl_status p') id = Some st /\ bs_CommitState st = CommitDurable.
Proof.
  intros [(st & Hv & _) Hc Hbg] Hs Hib Ec Ev Eb. rewrite Hv in Ev. cbn [fmap option_fmap option_map] in Ev.
  apply sameStatus_inv in Ev as (st' & Hy & [_ Hcs Hsz Hsum _ _ _]). rewrite Hy.
  split; [|by exists st']. split; [|by auto|by rewrite Eb].
  exists st'. split; [done|]. split; [by rewrite Hsz|]. split; [by rewrite Hsum|]. right. split; [by rewrite Hcs|]. by exists b.
Qed.

Lemma sameObject_size meta st : sameObject meta st = true -> om_Size meta = bs_Size st.
Proof. unfold sameObject. by destruct (Z.eqb_spec (om_Size meta) (bs_Size st)). Qed.
Lemma sameObject_body meta st b : sameObject meta st = true -> bs_ChecksumSHA256 st <> "" ->
  om_Size meta = len b -> om_ChecksumSHA256 meta = sha256_hex b -> is_body (bs_Size st) (bs_ChecksumSHA256 st) b.
Proof.
  intros Hs Hne Hsz Hsum. pose proof (sameObject_size _ _ Hs) as Hsize. unfold sameObject in Hs.
  rewrite Hsum in Hs. pose proof (sha256_hex_nonempty b).
  rewrite (bool_decide_false (sha256_hex b = "")), (bool_decide_false (bs_ChecksumSHA256 st = "")) in Hs by done.
  destruct (negb _); [done|]. cbn [negb andb] in Hs. case_bool_decide as Heq; [|done]. split; [lia|done].
Qed.

(** What a promote learns of a safe blob from the status store and from the cache. *)
Lemma safe_status t id size sum p s ptr : pinv t p -> safe id size sum p -> ss_Get id (pl_status p) = (s, Ok (Some ptr)) ->
  ss_inv s /\ (forall k, view s k = view (pl_status p) k) /\ view (pl_status p) id = Some (ss_load s ptr) /\
  bs_Size (ss_load s ptr) = size /\ bs_ChecksumSHA256 (ss_load s ptr) = sum.
Proof.
  intros Hpi Hsafe Hs. destruct (status_Get (pl_status p) id (pi_status _ _ Hpi)) as (s' & o & Hs' & Hi & Hk & Hv).
  rewrite Hs in Hs'. injection Hs' as <- <-. cbn in Hv. do 2 (split; [done|]). split; [done|].
  destruct (sf_view _ _ _ _ Hsafe) as (st & Hst & ? & ? & _). rewrite Hv in Hst. by injection Hst as <-.
Qed.
Lemma safe_cache t now id p c rd md : pinv t p -> c_Get now id (pl_cache p) = (c, Ok (rd, md)) ->
  (forall b, protected (pl_cache p) id b -> protected c id b) /\ (forall b, content c id b -> content (pl_cache p) id b) /\
  exists b, rd = bytes_NewReader b /\ content (pl_cache p) id b /\ len b < bodyLimit.
Proof.
  intros Hpi Hc. destruct (Get_inv _ _ _ _ _ (pi_cache _ _ Hpi) Hc) as [_ Hk].
  split; [intros b; apply Hk|]. split; [intros b; apply Hk|].
  destruct (Get_content _ _ _ _ _ _ (pi_cache _ _ Hpi) Hc) as (b & -> & Hb). exists b. split; [done|].
  split; [done|]. exact (pi_content _ _ Hpi _ _ Hb).
Qed.

(** What a promote of a safe blob leaves behind: success means that it is
    recorded durable and that the store has a body of its size, which is the
    blob's unless the promote took an object found by a blind HEAD for it. *)
Definition promoted (now : Time) (id : string) (size : Z) (sum : string) p p' (r : result unit) : Prop :=
  match r with
  | Ok _ => (exists st, view (pl_status p') id = Some st /\ bs_CommitState st = CommitDurable) /\
      exists b, stored (pl_store p') id b /\ len b = size /\
        (sha256_hex b = sum /\ safe id size sum p' \/ blindHead now id size (pl_store p) b)
  | Err _ => safe id size sum p' /\ view (pl_status p') id = view (pl_status p) id
  end.

Lemma promoted_safe t now id size sum p p' r : head_sums -> store_inv t (pl_store p) -> good_key id ->
  promoted now id size sum p p' r -> safe id size sum p' /\ match r with
    | Ok _ => exists st, view (pl_status p') id = Some st /\ bs_CommitState st = CommitDurable
    | Err _ => view (pl_status p') id = view (pl_status p) id
    end.
Proof.
  intros Hh Hi Hg. destruct r; [|done]. intros [Hd (b & _ & _ & [[_ Hs]|Hb])]; [done|].
  by destruct (head_sums_not_blind t now id size (pl_store p) b Hh Hi Hg).
Qed.

Lemma stored_durable id size sum p : safe id size sum p ->
  bs_CommitState <$> view (pl_status p) id = Some CommitDurable ->
  exists b, stored (pl_store p) id b /\ is_body size sum b.
Proof.
  intros Hs Hd. destruct (sf_view _ _ _ _ Hs) as (st' & Hv' & _ & _ & [(Hc & _)|(_ & b & Hst & Hib)]); [|by exists b].
  rewrite Hv' in Hd. cbn in Hd. injection Hd as Hd. by rewrite Hd in Hc.
Qed.

Lemma promoted_durable now id size sum p p' : safe id size sum p' ->
  (exists st, view (pl_status p') id = Some st /\ bs_CommitState st = CommitDurable) ->
  promoted now id size sum p p' (Ok tt).
Proof.
  intros Hs (st & Hv & Hd). split; [by exists st|].
  destruct (stored_durable _ _ _ _ Hs) as (b & Hst & Hb & Hl); [rewrite Hv; cbn; by rewrite Hd|]. exists b. by auto.
Qed.

(** The HEAD of a promote found an object it takes for the blob. *)
Lemma head_promoted t now id size sum p s ptr s1 h s2 r : pinv t p -> good_key id -> safe id size sum p ->
  ss_Get id (pl_status p) = (s, Ok (Some ptr)) -> bs_CommitState (ss_load s ptr) <> CommitDurable ->
  st_Head now (mkObjectRef id) (pl_store p) = (s1, h) -> headVerdict h (ss_load s ptr) = true ->
  ss_MarkDurable id (bs_VersionID (ss_load s ptr)) (bs_Size (ss_load s ptr))
    (bs_ChecksumSHA256 (ss_load s ptr)) now s = (s2, r) ->
  promoted now id size sum p (p <| pl_status := s2 |> <| pl_store := s1 |>) r.
Proof.
  intros Hpi Hg Hsafe Hs Hd Hh Hv Hm.
  destruct (safe_status t id size sum p s ptr Hpi Hsafe Hs) as (Hi & Hk & Hvw & Hsz & Hsum).
  destruct (storeHead_keeps t now id p s1 h Hpi Hg Hh) as (_ & _ & Hmd).
  destruct h as [md|e]; [|done]. destruct (Hmd md eq_refl) as (b & Hb0 & Hb & Hbs & Hbsum).
  pose proof (sameObject_size _ _ Hv) as Hmz.
  destruct (status_MarkDurable _ _ _ _ _ _ _ _ Hi Hm) as (_ & _ & Hvm). rewrite Hk, Hsz, Hsum in Hvm.
  destruct r as [[]|e]; [|split; [by eapply safe_cached|done]].
  destruct Hbsum as [Hbsum|Hblind].
  - assert (Hib : is_body size sum b).
    { rewrite <- Hsz, <- Hsum. eapply sameObject_body; try done. rewrite Hsum. by eapply safe_sum. }
    apply promoted_durable; by eapply safe_durable.
  - rewrite Hvw in Hvm. apply sameStatus_inv in Hvm as (st' & Hy & [_ Hcs _ _ _ _ _]).
    split; [by exists st'|]. exists b. do 2 (split; [done || lia|]). right. split; [done|]. split; [lia|].
    exists s1, md. split; [done|]. by rewrite Hmz.
Qed.

Lemma path_safe t now id size sum p p' r : pinv t p -> t < now -> good_key id ->
  safe id size sum p -> promotePath now id p p' r -> promoted now id size sum p p' r.
Proof.
  intros Hpi Ht Hg Hsafe Hpath.
  pose proof (fun s ptr Hs => safe_status t id size sum p s ptr Hpi Hsafe Hs) as Hget.
  pose proof (fun c rd md Hc => safe_cache t now id p c rd md Hpi Hc) as Hcget.
  destruct Hpath as [s e Hs|s Hs|s ptr Hs Hd|s ptr s1 h s2 r Hs Hd Hh Hv Hm p1|s ptr s1 h c e Hs Hd Hh Hv Hc
                    |s ptr s1 h c rd md s2 e Hs Hd Hh Hv Hc p1 Hu
                    |s ptr s1 h c rd md s2 res s3 e Hs Hd Hh Hv Hc p1 Hu Hm
                    |s ptr s1 h c rd md s2 res s3 c2 Hs Hd Hh Hv Hc p1 Hu Hm p2 Hr].
  - destruct (statusGet_keeps _ _ _ _ _ Hpi Hs) as (_ & _ & o & ? & _). done.
  - destruct (statusGet_keeps _ _ _ _ _ Hpi Hs) as (_ & _ & o & [= <-] & Hvw & _). cbn in Hvw.
    destruct (sf_view _ _ _ _ Hsafe) as (st & Hst & _). congruence.
  - destruct (Hget s ptr Hs) as (_ & Hk & Hvw & _).
    destruct (statusGet_keeps _ _ _ _ _ Hpi Hs) as (_ & Hun & _). apply promoted_durable.
    + eapply safe_unaffected; [|exact Hsafe]. eapply unaffected_trans; [apply (Hun id)|]. by apply unaffected_same.
    + exists (ss_load s ptr). split; [|done]. cbn. by rewrite Hk.
  - pose proof (head_promoted t now id size sum p s ptr s1 h s2 r Hpi Hg Hsafe Hs Hd Hh Hv Hm) as Hp.
    assert (Hsame : forall q', pl_cache q' = pl_cache p -> pl_store q' = s1 -> pl_status q' = s2 ->
      pl_bg q' = pl_bg p -> safe id size sum (p <| pl_status := s2 |> <| pl_store := s1 |>) -> safe id size sum q').
    { intros q' ? ? ? ?. eapply safe_unaffected. by apply unaffected_same. }
    destruct r as [u|e]; [destruct Hp as [Hdur (b & Hb & Hl & Hc)]|destruct Hp as [Hp1 Hp2]].
    + split; [done|]. exists b. split; [done|]. split; [done|]. destruct Hc as [[? ?]|?]; [left|by right].
      split; [done|]. by eapply Hsame.
    + split; [by eapply Hsame|done].
  - destruct (Hget s ptr Hs) as (Hi & Hk & Hvw & _). destruct (Get_inv _ _ _ _ _ (pi_cache _ _ Hpi) Hc) as [_ Hcc].
    split; [|by cbn]. eapply safe_cached; try done; intros b; apply Hcc.
  - destruct (Hget s ptr Hs) as (Hi & Hk & Hvw & _). destruct (Hcget _ _ _ Hc) as (Hp1 & Hp2 & _).
    split; [|by cbn]. by eapply safe_cached.
  - destruct (Hget s ptr Hs) as (Hi & Hk & Hvw & _). destruct (Hcget _ _ _ Hc) as (Hp1 & Hp2 & _).
    destruct (status_MarkDurable _ _ _ _ _ _ _ _ Hi Hm) as (_ & _ & Hvm). rewrite Hk in Hvm.
    split; [|by cbn]. by eapply safe_cached.
  - destruct (Hget s ptr Hs) as (Hi & Hk & Hvw & Hsz & Hsum).
    destruct (Hcget _ _ _ Hc) as (Hp1 & Hp2 & b & -> & Hb & Hlen).
    destruct (storeHead_keeps t now id p s1 h Hpi Hg Hh) as (Hpi1 & _).
    assert (Hpi2 : pinv t p1).
    { destruct (cacheGet_keeps _ _ _ _ _ _ Hpi Hc) as [Hpc _]. destruct Hpc, Hpi1. by split. }
    destruct (upload_keeps t now id b _ p1 _ _ Hpi2 Ht Hg Hlen Hu) as (Hpi3 & _ & _ & Hok).
    destruct (Hok res eq_refl) as (Hst & Hrs & Hrsum).
    destruct (sf_content _ _ _ _ Hsafe b Hb) as [Hbl Hbsum].
    destruct (status_MarkDurable _ _ _ _ _ _ _ _ Hi Hm) as (Hi3 & _ & Hvm).
    rewrite Hk, Hrs, Hrsum, Hbl, Hbsum in Hvm.
    assert (Hpi4 : pinv now p2) by (destruct Hpi3; by split).
    destruct (reput_keeps now now id _ p2 _ _ Hpi4 Hr) as (_ & _ & _ & Hcont).
    destruct (safe_durable id size sum p (bump_successes (p2 <| pl_cache := c2 |>)) b (pr_VersionID res) (pr_WriteTime res)) as [Hs' Hd'];
      try done; [intros b' Hb'; apply Hp2; by apply Hcont|]. by apply promoted_durable.
Qed.

(** *** The methods *)
Lemma Promote_keeps t now finish id p p' r : pinv t p -> t < now -> good_key id ->
  Promote now finish id p = (p', r) ->
  pinv now p' /\ (forall id', id' <> id -> unaffected id' p p') /\
  forall size sum, safe id size sum p -> promoted now id size sum p p' r.
Proof.
  intros Hpi Ht Hg (p1 & Hpath & ->)%Promote_path.
  set (p0 := p <| promoteAttempts := wrap64 (promoteAttempts p + 1) |>) in *.
  assert (Hpi0 : pinv t p0) by by apply (pinv_same t p).
  assert (Hu0 : forall id', unaffected id' p p0) by (intros; by apply unaffected_same).
  set (p2 := p1 <| promoteDurationNs := wrap64 (promoteDurationNs p1 + Sub finish now) |>).
  assert (Hu2 : forall id', unaffected id' p1 p2) by (intros; by apply unaffected_same).
  destruct (path_keeps t now id p0 p1 r Hpi0 Ht Hg Hpath) as [Hpi1 Hu1].
  split; [by apply (pinv_same now p1)|]. split.
  - intros id' Hne. eapply unaffected_trans; [apply Hu0|]. eapply unaffected_trans; [by apply Hu1|apply Hu2].
  - intros size sum Hs. apply (safe_unaffected _ _ _ _ _ (Hu0 id)) in Hs.
    pose proof (path_safe t now id size sum p0 p1 r Hpi0 Ht Hg Hs Hpath) as Hr. destruct r as [u|e].
    + destruct Hr as [Hd (b & Hb & Hl & [[? ?]|?])]; (split; [done|]); exists b; (split; [done|]); (split; [done|]);
        [left|by right]. split; [done|]. exact (safe_unaffected _ _ _ _ _ (Hu2 id) ltac:(done)).
    + destruct Hr as [Hs1 Hv]. split; [exact (safe_unaffected _ _ _ _ _ (Hu2 id) Hs1)|exact Hv].
Qed.

Lemma Write_keeps t now finish id body opts p p' r : pinv t p -> t < now -> good_key id -> len body < bodyLimit ->
  Write now finish id body opts p = (p', r) ->
  pinv now p' /\ (forall id', id' <> id -> unaffected id' p p') /\
  (forall res, r = Ok res -> (forall k, k ∈ pl_bg p -> rk_blobID k <> id) -> head_sums ->
     safe id (len body) (sha256_hex body) p' /\ cache_key id /\ wr_Size res = len body /\ wr_ChecksumSHA256 res = sha256_hex body).
Proof.
  intros Hpi Ht Hg Hlen. unfold Write. intros Hw.
  apply bind_cases in Hw as [(e & He & ->)|([] & p1 & Hn & Hw)].
  { unfold fail_if in He. case_bool_decide; [|done]. injection He as <-.
    split; [eapply pinv_time; [|done]; lia|]. split; [intros; apply unaffected_refl|done]. }
  apply fail_if_Ok_inv in Hn as [Hid ->]. bool_hyps.
  unfold onCache in Hw. unfold mbind, M_bind, bind at 1, wrap at 1 in Hw.
  destruct (c_Put now id _ _ (pl_cache p)) as [c rc] eqn:Hp.
  destruct (cachePut_keeps t now id body _ p c _ Hpi Hlen Hp) as (Hpi1 & Hu1 & Hc1).
  destruct rc as [[]|e].
  2: { injection Hw as <- <-. split; [eapply (pinv_time t); [|done]; lia|]. done. }
  set (p1 := p <| pl_cache := c |>) in *. unfold onStatus, bind at 1, wrap at 1 in Hw.
  match type of Hw with context [ss_Put ?x] => set (st := x) in * end.
  destruct (ss_Put st (pl_status p1)) as [s rs] eqn:Hs.
  destruct (statusPut_keeps t st p1 s rs Hpi1 Hs) as [Hpi2 Hu2].
  destruct (status_Put _ _ _ _ (pi_status _ _ Hpi1) Hs) as (_ & _ & Hvs).
  assert (Hu12 : forall id', id' <> id -> unaffected id' p (p1 <| pl_status := s |>)).
  { intros id' Hne. eapply unaffected_trans; [by apply Hu1|]. by apply Hu2. }
  destruct rs as [[]|e].
  2: { injection Hw as <- <-. split; [eapply (pinv_time t); [|done]; lia|]. done. }
  set (p2 := p1 <| pl_status := s |>) in *.
  assert (Hsafe : (forall k, k ∈ pl_bg p -> rk_blobID k <> id) -> safe id (len body) (sha256_hex body) p2).
  { intros Hno. destruct (Put_holds now (pl_cache p) id body (mkPutOptions (len body) (sha256_hex body) 0 (wo_PinHot opts) true) c (pi_cache _ _ Hpi) (Z.le_refl 0) Hp) as (Hci & Hh & Hpr).
    apply sameStatus_inv in Hvs as (st' & Hy & [_ Hcs Hsz Hsum _ _ _]).
    split.
    - exists st'. split; [done|]. split; [by rewrite Hsz|]. split; [by rewrite Hsum|]. left. split; [by rewrite Hcs|].
      split; [|done]. exists body. split; [by apply Hpr|done].
    - intros b Hb. by rewrite (holds_content _ _ _ _ Hci Hh Hb).
    - intros k Hk Hkid. by destruct (Hno k Hk). }
  destruct (wo_PromoteSync opts).
  - apply bind_cases in Hw as [(e & He & ->)|([] & p3 & Hpr & Hw)].
    + apply wrap_cases in He as [(? & ? & _)|(e1 & _ & He)]; [done|].
      destruct (Promote_keeps t now finish id p2 p' _ Hpi2 Ht Hg He) as (Hpi3 & Hu3 & _).
      split; [done|]. split; [|done]. intros id' Hne. eapply unaffected_trans; [by apply Hu12|by apply Hu3].
    + apply wrap_cases in Hpr as [([] & _ & Hpr)|(? & ? & _)]; [|done]. injection Hw as <- <-.
      destruct (Promote_keeps t now finish id p2 p3 _ Hpi2 Ht Hg Hpr) as (Hpi3 & Hu3 & Hs3).
      split; [done|]. split; [intros id' Hne; eapply unaffected_trans; [by apply Hu12|by apply Hu3]|].
      intros res [= <-] Hno Hh. split; [|split; [by eapply Put_key|done]].
      exact (proj1 (promoted_safe t now id _ _ p2 p3 _ Hh (pi_store _ _ Hpi2) Hg (Hs3 _ _ (Hsafe Hno)))).
  - injection Hw as <- <-. split; [eapply (pinv_time t); [|exact Hpi2]; lia|]. split; [done|].
    intros res [= <-] Hno _. split; [by apply Hsafe|]. split; [by eapply Put_key|done].
Qed.

(** The restore of a stored blob that fits. *)
Lemma restore_stored t now id b p : pinv t p -> stored (pl_store p) id b -> len b <= maxRestoreBytes p ->
  exists s md, restoreFromL2 now id p = (p <| pl_store := s |>, Ok (b, md)) /\
    om_Size md = len b /\ om_ChecksumSHA256 md = sha256_hex b.
Proof.
  intros [] Hst Hle. destruct (store_Get t now (pl_store p) id b pi_store0 Hst) as (s & md & Hg & Hsum & Hsz).
  exists s, md. split; [|done]. unfold restoreFromL2, onStore, wrap. unroll. rewrite Hg.
  cbn [pl_store maxRestoreBytes upd eta_expand eta_Pipeline].
  destruct (Z.ltb_spec 0 (maxRestoreBytes p)); [|lia]. pose proof (len_nonneg b).
  rewrite wrap64_small by (unfold int64_range, bodyLimit, promotePartSize in *; lia).
  unfold LimitReader, bytes_NewReader. cbn [rd_bytes].
  destruct (Z.leb_spec (maxRestoreBytes p + 1) (len b)); [lia|]. cbn [ReadAll rd_err rd_bytes].
  destruct (Z.ltb_spec (maxRestoreBytes p) (len b)); [lia|]. cbn [andb].
  rewrite Hsum. rewrite bool_decide_false by apply sha256_hex_nonempty. by rewrite bool_decide_true.
Qed.

Lemma restore_keeps t now id p p' r : pinv t p -> restoreFromL2 now id p = (p', r) ->
  pinv t p' /\ (forall id', unaffected id' p p') /\
  (forall body meta, r = Ok (body, meta) -> len body < bodyLimit).
Proof.
  intros Hpi (s & g & Hg & -> & Hr)%restore_cases.
  destruct (storeGet_keeps t now _ p s g Hpi Hg) as [Hpi1 Hu1]. split; [done|]. split; [done|].
  intros body meta ->. destruct Hr as (rd & md & _ & _ & Hle & _). destruct Hpi. specialize (Hle ltac:(lia)). lia.
Qed.

(** A safe blob that the cache does not have is durable, and restored whole. *)
Lemma safe_miss t now id size sum p c e : pinv t p -> safe id size sum p -> c_Get now id (pl_cache p) = (c, Err e) ->
  exists st b, view (pl_status p) id = Some st /\ bs_Size st = size /\ bs_ChecksumSHA256 st = sum /\
    bs_CommitState st = CommitDurable /\ stored (pl_store p) id b /\ is_body size sum b.
Proof.
  intros Hpi Hsafe Hc. destruct (sf_view _ _ _ _ Hsafe) as (st & ? & ? & ? & [(_ & (b & Hb & _) & _)|(? & b & ? & ?)]).
  - exfalso. pose proof (protected_holds _ _ _ (pi_cache _ _ Hpi) Hb) as Hh.
    destruct (Get_holds now _ _ _ (pi_cache _ _ Hpi) Hh) as (? & ? & Hg & _). congruence.
  - by exists st, b.
Qed.
Lemma restore_body t now id size sum p p' b body meta : pinv t p -> stored (pl_store p) id b -> is_body size sum b ->
  restoreFromL2 now id p = (p', Ok (body, meta)) -> is_body size sum body /\ om_Size meta = size /\ om_ChecksumSHA256 meta = sum.
Proof.
  intros Hpi Hst [Hbl Hbs] Hrs. pose proof (restore_cases now id _ _ _ Hrs) as (s & g & Hg & -> & rd & md & -> & Hra & Hle & Hms & Hmz & Hmd).
  destruct (store_Get t now (pl_store p) id b (pi_store _ _ Hpi) Hst) as (s' & md' & Hg' & Hsum' & Hsz').
  rewrite Hg in Hg'. injection Hg' as -> -> ->. specialize (Hmd ltac:(rewrite Hsum'; apply sha256_hex_nonempty)). subst meta.
  split; [|split; congruence]. split; [|congruence].
  destruct (pi_max _ _ Hpi) as [Hm1 Hm2]. destruct (Z.ltb_spec 0 (maxRestoreBytes p)); [|lia].
  rewrite wrap64_small in Hra by (unfold int64_range, bodyLimit, promotePartSize in *; lia).
  specialize (Hle ltac:(lia)). unfold LimitReader, bytes_NewReader in Hra. cbn [rd_bytes] in Hra.
  destruct (Z.leb_spec (maxRestoreBytes p + 1) (len b)); cbn in Hra; injection Hra as <-; [|lia].
  rewrite len_takeZ in Hle by lia. lia.
Qed.

(** [Read] keeps the invariant, and a blob that is safe is safe after it and is what it returns. *)
Definition readOf (t : Time) id p p' (r : result ReadResult) : Prop :=
  pinv t p' /\ (forall id', id' <> id -> unaffected id' p p') /\
  (forall size sum, safe id size sum p -> safe id size sum p' /\
     (cache_key id -> size <= maxRestoreBytes p ->
        exists res b, r = Ok res /\ rr_Body res = bytes_NewReader b /\ is_body size sum b /\
          rr_Size res = size /\ rr_ChecksumSHA256 res = sum)).

(** The body was restored: it goes back to the cache in the background. *)
Lemma restored_keeps t now id p c e p2 body meta r : pinv t p -> c_Get now id (pl_cache p) = (c, Err e) ->
  (forall id', unaffected id' p (p <| pl_cache := c |>)) -> pinv t (p <| pl_cache := c |>) ->
  restoreFromL2 now id (p <| pl_cache := c |>) = (p2, Ok (body, meta)) ->
  rr_Body r = bytes_NewReader body -> rr_Size r = om_Size meta -> rr_ChecksumSHA256 r = om_ChecksumSHA256 meta ->
  readOf t id p (p2 <| pl_bg := pl_bg p2 ++ [mkRestoreTask id body meta] |>) (Ok r).
Proof.
  intros Hpi Hc Hu1 Hpi1 Hrs Hrb Hrz Hrc. destruct (restore_keeps t now id _ _ _ Hpi1 Hrs) as (Hpi2 & Hu2 & Hlen).
  specialize (Hlen _ _ eq_refl). set (p3 := p2 <| pl_bg := pl_bg p2 ++ [mkRestoreTask id body meta] |>).
  split; [|split].
  - destruct Hpi2. split; cbn; try done. intros k [Hk|Hk%list_elem_of_singleton]%elem_of_app; [by apply pi_bg0|by subst k].
  - intros id' Hne. eapply unaffected_trans; [apply Hu1|]. eapply unaffected_trans; [apply Hu2|].
    split; cbn; try done. intros k [Hk|Hk%list_elem_of_singleton]%elem_of_app Hkid; [done|]. subst k. cbn in Hkid. congruence.
  - intros size sum Hsafe. destruct (safe_miss _ _ _ _ _ _ _ _ Hpi Hsafe Hc) as (st & b & Hv & Hsz & Hsum & Hd & Hst & Hib).
    pose proof (restore_body t now id size sum _ _ b _ _ Hpi1 Hst Hib Hrs) as (Hbody & Hms & Hmc).
    assert (Hp2 : view (pl_status p2) id = view (pl_status p) id).
    { pose proof (restore_cases now id _ _ _ Hrs) as (s & g & _ & -> & _). done. }
    assert (Hbg : pl_bg p2 = pl_bg p) by (pose proof (restore_cases now id _ _ _ Hrs) as (s & g & _ & -> & _); done).
    split; [split|].
    + exists st. split; [cbn; by rewrite Hp2|]. do 2 (split; [done|]). right. split; [done|]. exists b. split; [|done].
      cbn. apply (un_stored _ _ _ (Hu2 id)). exact Hst.
    + intros b' Hb'. apply (sf_content _ _ _ _ Hsafe). apply (un_content _ _ _ (Hu1 id)). by apply (un_content _ _ _ (Hu2 id)).
    + cbn. rewrite Hbg. intros k [Hk|Hk%list_elem_of_singleton]%elem_of_app Hkid; [by apply (sf_bg _ _ _ _ Hsafe)|by subst k].
    + intros _ _. exists r, body. rewrite Hrb, Hrz, Hrc. done.
Qed.

Lemma Read_keeps t now id p p' r : pinv t p -> Read now id p = (p', r) -> readOf t id p p' r.
Proof.
  intros Hpi. unfold Read. intros Hr. destruct (decide (id = "")) as [->|Hid].
  { injection Hr as <- <-. split; [done|]. split; [intros; apply unaffected_refl|]. intros size sum Hs.
    split; [done|]. intros Hk. by destruct cache_key_nonempty. }
  unfold fail_if in Hr. rewrite bool_decide_false in Hr by done. unfold onCache in Hr. revert Hr. unroll.
  destruct (c_Get now id (pl_cache p)) as [c [[rd md]|e]] eqn:Hc; destruct (cacheGet_keeps t now id p c _ Hpi Hc) as [Hpi1 Hu1].
  - unfold onStatus. cbn [pl_status upd eta_expand eta_Pipeline]. destruct (ss_Get id (pl_status p)) as [s rs] eqn:Hs.
    destruct (statusGet_keeps t id (p <| pl_cache := c |>) s rs Hpi1 Hs) as (Hpi2 & Hu2 & o & -> & Hv & _).
    cbn [pl_status upd eta_expand eta_Pipeline] in Hv. intros Hr.
    assert (Heq : p' = p <| pl_cache := c |> <| pl_status := s |>) by (destruct o; by injection Hr as <- _).
    assert (Hu : forall id', unaffected id' p p').
    { intros id'. rewrite Heq. eapply unaffected_trans; [apply Hu1|apply Hu2]. }
    split; [by rewrite Heq|]. split; [by intros; apply Hu|]. intros size sum Hsafe.
    split; [by eapply safe_unaffected|]. intros _ _. destruct (Get_content _ _ _ _ _ _ (pi_cache _ _ Hpi) Hc) as (b & -> & Hb).
    pose proof (sf_content _ _ _ _ Hsafe b Hb) as Hib. destruct (sf_view _ _ _ _ Hsafe) as (st & Hst & Hsz & Hsum & _).
    rewrite Hst in Hv. destruct o as [ptr|]; [|done]. cbn in Hv. injection Hv as ->. injection Hr as _ <-. by eexists _, b.
  - pose proof (fun Hk => Get_error _ _ _ _ _ (pi_cache _ _ Hpi) Hk Hc) as Hcont. destruct (errors_Is e HcCacheMiss); cbn [negb].
    2: { intros [= <- <-]. split; [done|]. split; [by intros; apply Hu1|]. intros size sum Hsafe.
      split; [exact (safe_unaffected _ _ _ _ _ (Hu1 id) Hsafe)|]. intros Hk. by discriminate (Hcont Hk). }
    destruct (restoreFromL2 now id (p <| pl_cache := c |>)) as [p2 [[body meta]|e2]] eqn:Hrs; intros [= <- <-]; [by eapply restored_keeps|].
    destruct (restore_keeps t now id _ _ _ Hpi1 Hrs) as (Hpi2 & Hu2 & _).
    assert (Hu : forall id', unaffected id' p p2) by (intros id'; eapply unaffected_trans; [apply Hu1|apply Hu2]).
    split; [done|]. split; [by intros; apply Hu|]. intros size sum Hsafe. split; [exact (safe_unaffected _ _ _ _ _ (Hu id) Hsafe)|].
    intros _ Hmax. exfalso. destruct (safe_miss _ _ _ _ _ _ _ _ Hpi Hsafe Hc) as (st & b & _ & _ & _ & _ & Hst & Hbl & _).
    destruct (restore_stored t now id b (p <| pl_cache := c |>) Hpi1 Hst ltac:(cbn; lia)) as (s & md & Hg & _). congruence.
Qed.

Lemma Evict_keeps t id p p' r : pinv t p -> Evict id p = (p', r) ->
  pinv t p' /\ (forall id', id' <> id -> unaffected id' p p') /\
  (forall size sum, safe id size sum p -> safe id size sum p').
Proof.
  intros Hpi. unfold Evict, onStatus, onCache. unroll.
  destruct (ss_Get id (pl_status p)) as [s rs] eqn:Hs.
  destruct (statusGet_keeps t id p s rs Hpi Hs) as (Hpi1 & Hu1 & o & -> & Hv & _).
  cbn [pl_status pl_cache upd eta_expand eta_Pipeline].
  match goal with |- context [if ?refuse then _ else _] => destruct refuse eqn:Href end.
  { intros [= <- <-]. split; [done|]. split; [by intros; apply Hu1|]. intros size sum Hsafe.
    exact (safe_unaffected _ _ _ _ _ (Hu1 id) Hsafe). }
  cbn [pl_status pl_cache upd eta_expand eta_Pipeline].
  destruct (c_Evict id (pl_cache p)) as [c rc] eqn:He. intros [= <- <-].
  destruct (Evict_frame _ _ _ _ (pi_cache _ _ Hpi) He) as (Hci & _ & Hk).
  assert (Hu : forall id', id' <> id -> unaffected id' p (p <| pl_status := s |> <| pl_cache := c |>)).
  { intros id' Hne. eapply unaffected_trans; [apply Hu1|]. split; cbn; try done; intros b; by apply Hk. }
  split; [|split; [done|]].
  - destruct Hpi1. split; try done. intros id' b Hb. by eapply pi_content0, Hk.
  - intros size sum Hsafe. apply (safe_unaffected _ _ _ _ _ (Hu1 id)) in Hsafe as [(st & Hst & Hsz & Hsum & Hcase) Hc Hbg].
    split; [|intros b Hb; by apply Hc, Hk|done]. exists st. split; [done|]. split; [done|]. split; [done|].
    destruct Hcase as [(Hcs & _)|Hd]; [|right; exact Hd]. exfalso.
    rewrite (un_view _ _ _ (Hu1 id)), Hv in Hst. destruct o as [ptr|]; [|done]. cbn in Hst. injection Hst as Hst.
    rewrite <- Hst in Hcs. unfold wrap in Href. cbn in Href. rewrite Hcs in Href. discriminate Href.
Qed.

Lemma runRestore_keeps t now k p p' r : pinv t p -> len (rk_body k) < bodyLimit ->
  runRestore now k p = (p', r) ->
  pinv t p' /\ (forall id', id' <> rk_blobID k -> unaffected id' p p') /\ pl_bg p' = pl_bg p /\
  pl_cancelled p' = pl_cancelled p /\
  forall size sum st b, safe (rk_blobID k) size sum p -> view (pl_status p) (rk_blobID k) = Some st ->
    bs_CommitState st = CommitDurable -> stored (pl_store p) (rk_blobID k) b -> is_body size sum b ->
    is_body size sum (rk_body k) -> om_Size (rk_meta k) = size -> om_ChecksumSHA256 (rk_meta k) = sum ->
    safe (rk_blobID k) size sum p'.
Proof.
  intros Hpi Hlen. unfold runRestore, onCache, onStatus. unroll.
  destruct (pl_cancelled p) eqn:Hcan.
  { intros [= <- <-]. split; [done|]. split; [intros; apply unaffected_refl|]. done. }
  destruct (c_Put _ _ _ _ (pl_cache p)) as [c rc] eqn:Hp.
  destruct (cachePut_keeps t now _ _ _ p c rc Hpi Hlen Hp) as (Hpi1 & Hu1 & Hc1).
  cbn [pl_status upd eta_expand eta_Pipeline].
  match goal with |- context [ss_Put ?x] => set (st := x) end.
  destruct (ss_Put st (pl_status p)) as [s rs] eqn:Hs. intros [= <- <-].
  destruct (statusPut_keeps t st (p <| pl_cache := c |>) s rs Hpi1 Hs) as [Hpi2 Hu2].
  destruct (status_Put _ _ _ _ (pi_status _ _ Hpi) Hs) as (_ & _ & Hvs). cbn [bs_BlobID st] in Hvs.
  split; [exact Hpi2|]. split; [intros id' Hne; eapply unaffected_trans; [by apply Hu1|by apply Hu2]|].
  split; [done|]. split; [done|]. intros size sum st0 b [(st1 & Hv & Hsz & Hsum & _) Hc Hbg] Hv0 Hd Hst Hib Hik Hms Hmsum.
  rewrite Hv0 in Hv. injection Hv as <-.
  split; [|intros b' [Hb'| ->]%Hc1; [by apply Hc|done]|done].
  destruct rs as [[]|e].
  - apply sameStatus_inv in Hvs as (st' & Hy & [_ Hcs Hsz' Hsum' _ _ _]). exists st'. split; [exact Hy|].
    split; [by rewrite Hsz'|]. split; [by rewrite Hsum'|]. right. split; [by rewrite Hcs|]. by exists b.
  - exists st0. cbn. rewrite Hvs. do 3 (split; [done|]). right. split; [done|]. by exists b.
Qed.

Lemma Background_keeps t now i p p' r : pinv t p -> stepBackground now i p = (p', r) ->
  pinv t p' /\ pl_cancelled p' = pl_cancelled p /\ pl_bg p' = delete i (pl_bg p) /\
  forall id size sum, safe id size sum p -> safe id size sum p'.
Proof.
  intros Hpi. unfold stepBackground. destruct (pl_bg p !! i) as [k|] eqn:Hi.
  2: { intros [= <- <-]. apply lookup_ge_None_1 in Hi. rewrite delete_ge by exact Hi.
    split; [done|]. split; [done|]. by split. }
  pose proof (list_elem_of_lookup_2 _ _ _ Hi) as Hk. set (p1 := p <| pl_bg := delete i (pl_bg p) |>).
  assert (Hsub : forall x, x ∈ pl_bg p1 -> x ∈ pl_bg p) by (intros x Hx; exact (list_elem_of_delete_inv x i _ Hx)).
  assert (Hpi1 : pinv t p1) by (destruct Hpi; split; try done; intros x Hx; by apply pi_bg0, Hsub).
  assert (Hu1 : forall id, unaffected id p p1) by (intros id; split; cbn; try done; intros x Hx _; by apply Hsub).
  intros Hr. destruct (runRestore_keeps t now k p1 p' r Hpi1 (pi_bg _ _ Hpi k Hk) Hr) as (Hpi2 & Hu2 & Hb & Hc & Hsame).
  split; [done|]. split; [done|]. split; [done|]. intros id size sum Hs.
  pose proof (safe_unaffected _ _ _ _ _ (Hu1 id) Hs) as Hs1.
  destruct (decide (id = rk_blobID k)) as [->|Hne]; [|exact (safe_unaffected _ _ _ _ _ (Hu2 id Hne) Hs1)].
  destruct (sf_view _ _ _ _ Hs) as (st & Hv & _ & _ & [(_ & _ & Hno)|(Hd & b & Hst & Hib)]).
  - by destruct (Hno k Hk).
  - destruct (sf_bg _ _ _ _ Hs k Hk eq_refl) as (Hik & Hms & Hmsum).
    by apply (Hsame size sum st b).
Qed.

Lemma Close_keeps t now p p' r : pinv t p -> Close now p = (p', r) ->
  pinv t p' /\ forall id size sum, safe id size sum p -> safe id size sum p'.
Proof.
  intros Hpi [= <- _].
  assert (Hwait : forall fuel q, pinv t q -> pinv t (waitAll now fuel q) /\
            forall id size sum, safe id size sum q -> safe id size sum (waitAll now fuel q)).
  { induction fuel as [|fuel IH]; intros q Hq; cbn [waitAll]; [done|].
    destruct (stepBackground now 0 q) as [q1 r1] eqn:Hq1. cbn [fst].
    destruct (Background_keeps t now 0 q q1 r1 Hq Hq1) as (Hpq & _ & _ & Hs). destruct (IH q1 Hpq) as [Hp2 Hs2].
    split; [done|]. intros. by apply Hs2, Hs. }
  destruct (Hwait (length (pl_bg p)) (p <| pl_cancelled := true |>)) as [Hp2 Hs2]; [by apply (pinv_same t p)|].
  split; [done|]. intros id size sum Hs. apply Hs2. eapply safe_unaffected; [|done]. by apply unaffected_same.
Qed.

(** ** Operation sequences *)
Inductive op :=
| OpWrite (id : string) (body : bytes) (opts : WriteOptions)
| OpRead (id : string)
| OpPromote (id : string)
| OpEvict (id : string)
| OpStatus (id : string)
| OpBackground (i : nat)
| OpClose.

Definition runOp (now finish : Time) (o : op) p : Pipeline :=
  match o with
  | OpWrite id body opts => (Write now finish id body opts p).1
  | OpRead id => (Read now id p).1
  | OpPromote id => (Promote now finish id p).1
  | OpEvict id => (Evict id p).1
  | OpStatus id => (Status id p).1
  | OpBackground i => (stepBackground now i p).1
  | OpClose => (Close now p).1
  end.

(** The operations a run of the theorem may make: on keys the store covers,
    with bodies of a representable size, and no second write of [id]. *)
Definition allowed (id : string) (o : op) : Prop :=
  match o with
  | OpWrite id' body _ => id' <> id /\ good_key id' /\ len body < bodyLimit
  | OpPromote id' => good_key id'
  | _ => True
  end.

(** A run: the clock of each operation is later than the one before. *)
Inductive run (id : string) : Time -> Pipeline -> Time -> Pipeline -> Prop :=
| run_nil t p : run id t p t p
| run_cons t p now finish o t' p' : t < now -> allowed id o -> run id now (runOp now finish o p) t' p' ->
    run id t p t' p'.

Lemma runOp_safe t now finish o id size sum p : head_sums -> pinv t p -> t < now -> allowed id o -> safe id size sum p ->
  pinv now (runOp now finish o p) /\ safe id size sum (runOp now finish o p).
Proof.
  intros Hh Hpi Ht Ha Hs.
  assert (Hadv : forall q, pinv t q -> pinv now q) by (intros q; apply pinv_time; lia).
  destruct o as [id' body opts|id'|id'|id'|id'|i|]; cbn [runOp allowed] in *.
  - destruct Ha as (Hne & Hg & Hlen). destruct (Write now finish id' body opts p) as [p' r] eqn:Hw. cbn [fst].
    destruct (Write_keeps t now finish id' body opts p p' r Hpi Ht Hg Hlen Hw) as (Hpi' & Hu & _).
    split; [done|]. exact (safe_unaffected _ _ _ _ _ (Hu id ltac:(done)) Hs).
  - destruct (Read now id' p) as [p' r] eqn:Hr. cbn [fst].
    destruct (Read_keeps t now id' p p' r Hpi Hr) as (Hpi' & Hu & Hsame). split; [by apply Hadv|].
    destruct (decide (id = id')) as [->|Hne]; [by apply Hsame|]. exact (safe_unaffected _ _ _ _ _ (Hu id Hne) Hs).
  - rename Ha into Hg. destruct (Promote now finish id' p) as [p' r] eqn:Hr. cbn [fst].
    destruct (Promote_keeps t now finish id' p p' r Hpi Ht Hg Hr) as (Hpi' & Hu & Hsame). split; [done|].
    destruct (decide (id = id')) as [->|Hne];
      [exact (proj1 (promoted_safe t now id' _ _ p p' r Hh (pi_store _ _ Hpi) Hg (Hsame _ _ Hs)))|]. exact (safe_unaffected _ _ _ _ _ (Hu id Hne) Hs).
  - destruct (Evict id' p) as [p' r] eqn:Hr. cbn [fst].
    destruct (Evict_keeps t id' p p' r Hpi Hr) as (Hpi' & Hu & Hsame). split; [by apply Hadv|].
    destruct (decide (id = id')) as [->|Hne]; [by apply Hsame|]. exact (safe_unaffected _ _ _ _ _ (Hu id Hne) Hs).
  - unfold Status, wrap, onStatus. unroll. destruct (ss_Get id' (pl_status p)) as [s rs] eqn:Hg.
    destruct (statusGet_keeps t id' p s rs Hpi Hg) as (Hpi1 & Hu1 & o & -> & _).
    destruct o; cbn [fst]; (split; [by apply Hadv|exact (safe_unaffected _ _ _ _ _ (Hu1 id) Hs)]).
  - destruct (stepBackground now i p) as [p' r] eqn:Hr. cbn [fst].
    destruct (Background_keeps t now i p p' r Hpi Hr) as (Hpi' & _ & _ & Hsame). split; [by apply Hadv|by apply Hsame].
  - destruct (Close now p) as [p' r] eqn:Hr. cbn [fst].
    destruct (Close_keeps t now p p' r Hpi Hr) as (Hpi' & Hsame). split; [by apply Hadv|by apply Hsame].
Qed.

Lemma run_safe id size sum t p t' p' : head_sums -> run id t p t' p' -> pinv t p -> safe id size sum p ->
  pinv t' p' /\ safe id size sum p'.
Proof.
  intros Hh. induction 1 as [|t p now finish o t' p' Ht Ha _ IH]; [done|]. intros Hpi Hs.
  destruct (runOp_safe t now finish o id size sum p Hh Hpi Ht Ha Hs) as [Hpi1 Hs1]. by apply IH.
Qed.

Lemma run_time id t p t' p' : run id t p t' p' -> t <= t'.
Proof. induction 1; lia. Qed.
End safety.

(** ** Properties *)


(** C24: a promote is sound, up to the HEAD it trusts. Of a safe blob, over a
    store that keeps the laws and a status store that answers its reads:
    success means that the blob is recorded durable and that the store holds a
    body of the recorded size; either this has the recorded SHA-256, and the
    blob is still safe, or it is the very object that the store already held
    before, of the same size and of an unknown checksum, as the HEAD the promote
    took for a proof reported none ([BlindPromote.blind_promote] is such a run over the S3
    adapter; a store whose HEAD reports checksums has none). A failure leaves the
    blob safe and its record as it was, so that a CACHED blob stays CACHED.
    Every other blob is unaffected. *)
Theorem promote_sound {C St SS} `{CacheLaws C} `{StoreLaws St} `{StatusLaws SS}
    t now finish id size sum (p p' : Pipeline C St SS) r :
  pinv t p -> t < now -> good_key id -> safe id size sum p ->
  Promote now finish id p = (p', r) ->
  pinv now p' /\ (forall id', id' <> id -> unaffected id' p p') /\
  (head_sums -> safe id size sum p') /\
  match r with
  | Ok _ => (exists st, view (pl_status p') id = Some st /\ bs_CommitState st = CommitDurable) /\
      exists b, stored (pl_store p') id b /\ len b = size /\
        (sha256_hex b = sum /\ safe id size sum p' \/
         stored (pl_store p) id b /\ exists s1 md, st_Head now (mkObjectRef id) (pl_store p) = (s1, Ok md) /\
           om_Size md = size /\ om_ChecksumSHA256 md = "")
  | Err _ => safe id size sum p' /\ view (pl_status p') id = view (pl_status p) id
  end.
Proof.
  intros Hpi Ht Hg Hs Hr.
  destruct (Promote_keeps t now finish id p p' r Hpi Ht Hg Hr) as (Hpi' & Hu & Hsame).
  pose proof (Hsame size sum Hs) as Hp. split; [done|]. split; [done|]. split.
  - intros Hh. exact (proj1 (promoted_safe t now id _ _ p p' r Hh (pi_store _ _ Hpi) Hg Hp)).
  - destruct r; [|exact Hp]. destruct Hp as [Hd (b & Hb & Hl & Hc)]. split; [done|]. exists b. split; [done|].
    split; [done|]. destruct Hc as [?|(? & _ & Hmd)]; [by left|by right].
Qed.

(** a body written without a synchronous promote is what the next read
    returns, from the cache and byte for byte, with its length and SHA-256,
    and the blob is recorded CACHED with the options it was written with. *)
Lemma write_read {C St SS} `{CacheLaws C} `{!Store St} `{StatusLaws SS}
    now finish now2 id body opts (p p1 : Pipeline C St SS) res :
  cache_inv (pl_cache p) -> ss_inv (pl_status p) -> wo_PromoteSync opts = false ->
  Write now finish id body opts p = (p1, Ok res) ->
  res = mkWriteResult id CommitCached (len body) (sha256_hex body) /\
  (exists st, view (pl_status p1) id = Some st /\
    sameStatus (mkBlobStatus id CommitCached (len body) (sha256_hex body) "" now zeroTime
      (wo_FileID opts) (wo_TenantID opts) (wo_Retention opts)) st) /\
  exists p2, Read now2 id p1 =
    (p2, Ok (mkReadResult (bytes_NewReader body) (len body) (sha256_hex body) "" true)).
Proof.
  intros Hci Hsi Hns. unfold Write, onCache, onStatus, wrap. unroll. rewrite Hns.
  destruct (bool_decide (id = "")) eqn:Hid; bool_hyps; [done|].
  destruct (c_Put _ _ _ _ (pl_cache p)) as [c [[]|e]] eqn:Hp; [|done].
  cbn [pl_status pl_cache upd eta_expand eta_Pipeline].
  destruct (ss_Put _ (pl_status p)) as [s [[]|e]] eqn:Hs; [|done]. intros [= <- <-].
  destruct (Put_holds _ _ _ _ (mkPutOptions _ _ 0 _ _) _ Hci (Z.le_refl 0) Hp) as (Hci' & Hh & _).
  destruct (status_Put _ _ _ _ Hsi Hs) as (Hsi' & _ & Hv). cbn [bs_BlobID] in Hv.
  apply sameStatus_inv in Hv as (st' & Hy & Hsame).
  split; [done|]. split; [exists st'; split; [exact Hy|exact Hsame]|].
  unfold Read, onCache, onStatus. unroll. rewrite bool_decide_eq_false_2 by done.
  cbn [pl_status pl_cache upd eta_expand eta_Pipeline].
  destruct (Get_holds now2 _ _ _ Hci' Hh) as (c' & md & -> & _).
  cbn [pl_status pl_cache upd eta_expand eta_Pipeline].
  destruct (status_Get s id Hsi') as (s' & o & -> & _ & _ & Hv'). rewrite Hy in Hv'.
  destruct o as [ptr|]; [|done]. cbn in Hv'. injection Hv' as Hv'.
  cbn [pl_status pl_cache upd eta_expand eta_Pipeline]. rewrite <- Hv'. destruct Hsame as [_ _ Hsz Hsum Hvid _ _].
  cbn in Hsz, Hsum, Hvid. rewrite Hsz, Hsum, Hvid. by eexists.
Qed.

(** The metrics of a promote: it counts one attempt, and then exactly
    one success, one skip or one failure; a returned error is a failure and
    a returned [nil] is not. The one exception is a promote that finds the
    object in the store and then fails to record it: it is counted as
    skipped and as failed. Over any cache, store and status store. *)
Lemma promote_counts {C St SS} `{Cache C} `{Store St} `{StatusStore SS}
    now finish id (p p' : Pipeline C St SS) r :
  Promote now finish id p = (p', r) ->
  exists ok failed skipped,
    promoteAttempts p' = wrap64 (promoteAttempts p + 1) /\
    promoteSuccesses p' = (if ok : bool then wrap64 (promoteSuccesses p + 1) else promoteSuccesses p) /\
    promoteFailures p' = (if failed : bool then wrap64 (promoteFailures p + 1) else promoteFailures p) /\
    promoteSkipped p' = (if skipped : bool then wrap64 (promoteSkipped p + 1) else promoteSkipped p) /\
    failed = negb (is_Ok r) /\ ok = is_Ok r && negb skipped /\
    (failed && skipped = true -> exists e, r = Err (ErrWrap "blobio: mark durable after HEAD skip: %w" e)).
Proof.
  intros Hp. destruct (Promote_path _ _ _ _ _ _ Hp) as (p1 & Hpath & ->). clear Hp.
  destruct Hpath;
    try (match goal with |- context [match ?x with Ok _ => _ | Err _ => _ end] => destruct x end);
    [exists false, true, false|exists false, true, false|exists false, false, true|exists false, false, true
    |exists false, true, true|exists false, true, false|exists false, true, false|exists false, true, false
    |exists true, false, false]; do 6 (split; [reflexivity|]); intros Hb; first [discriminate Hb|by eexists].
Qed.

(** C25: a read that misses the cache, over any cache, store and status
    store: what it returns is a body of at most [maxRestoreBytes], reported
    with the SHA-256 of that very body, whatever checksum the store
    reported; the status store is left alone, and one background task is
    added, that carries the same body. *)
Theorem restore_verified {C St SS} `{Cache C} `{Store St} `{StatusStore SS}
    now id (p p' : Pipeline C St SS) r :
  Read now id p = (p', Ok r) -> rr_FromCache r = false ->
  exists body meta, rr_Body r = bytes_NewReader body /\ rr_ChecksumSHA256 r = sha256_hex body /\
    rr_Size r = om_Size meta /\ om_ChecksumSHA256 meta = sha256_hex body /\
    (0 < maxRestoreBytes p -> len body <= maxRestoreBytes p) /\
    pl_status p' = pl_status p /\ pl_bg p' = pl_bg p ++ [mkRestoreTask id body meta].
Proof.
  unfold Read, onCache, onStatus. unroll. destruct (bool_decide (id = "")); [done|].
  destruct (c_Get now id (pl_cache p)) as [c [[rd md]|e]].
  { cbn [pl_status upd eta_expand eta_Pipeline]. destruct (ss_Get id (pl_status p)) as [s [[ptr|]|e]];
      intros [= <- <-]; done. }
  destruct (negb (errors_Is e HcCacheMiss)); [done|].
  destruct (restoreFromL2 now id _) as [p2 [[body meta]|e2]] eqn:Hr; [|done]. intros [= <- <-] _.
  destruct (restore_cases _ _ _ _ _ Hr) as (s & g & _ & -> & rd & md & _ & _ & Hle & Hsum & Hsz & _).
  exists body, meta. cbn. split; [done|]. split; [done|]. split; [done|]. split; [done|]. split; [exact Hle|done].
Qed.

(** [Evict] never touches the cache of a blob recorded as not durable,
    and reports an error; of any other blob it removes the cached body. It
    never changes a record or the store. *)
Lemma Evict_guard {C St SS} `{CacheLaws C} `{!Store St} `{StatusLaws SS} id (p p' : Pipeline C St SS) r :
  cache_inv (pl_cache p) -> ss_inv (pl_status p) -> Evict id p = (p', r) ->
  (forall k, view (pl_status p') k = view (pl_status p) k) /\ pl_store p' = pl_store p /\
  match view (pl_status p) id with
  | Some st =>
      if bool_decide (bs_CommitState st = CommitDurable)
      then r = Ok tt -> forall b, ~ content (pl_cache p') id b
      else is_Ok r = false /\ pl_cache p' = pl_cache p
  | None => r = Ok tt -> forall b, ~ content (pl_cache p') id b
  end.
Proof.
  intros Hci Hsi. unfold Evict, onStatus, onCache. unroll.
  destruct (status_Get (pl_status p) id Hsi) as (s & o & -> & _ & Hk & Hv). rewrite Hv.
  cbn [pl_status pl_cache upd eta_expand eta_Pipeline].
  destruct o as [ptr|]; cbn [fmap option_fmap option_map];
    [destruct (bool_decide (bs_CommitState (ss_load s ptr) = CommitDurable)); cbn [negb]|];
    cbn [pl_status pl_cache upd eta_expand eta_Pipeline];
    [|intros [= <- <-]; split; [exact Hk|by split]|];
    (destruct (c_Evict id (pl_cache p)) as [c rc] eqn:He; intros [= <- <-]; split; [exact Hk|]; split; [done|];
     intros -> b; by apply (Evict_frame _ _ _ _ Hci He)).
Qed.

(** when the status store cannot be read, [Evict] ignores its error and
    removes the cached body, also of a blob that is not durable yet, whose
    only copy this is. *)
Lemma Evict_on_status_error {C St SS} `{CacheLaws C} `{!Store St} `{StatusStore SS}
    id (p p' : Pipeline C St SS) s e :
  cache_inv (pl_cache p) -> ss_Get id (pl_status p) = (s, Err e) -> Evict id p = (p', Ok tt) ->
  pl_store p' = pl_store p /\ pl_status p' = s /\ forall b, ~ content (pl_cache p') id b.
Proof.
  intros Hci Hg. unfold Evict, onStatus, onCache. unroll. rewrite Hg.
  cbn [pl_status pl_cache upd eta_expand eta_Pipeline].
  destruct (c_Evict id (pl_cache p)) as [c rc] eqn:He. intros [= <- ->].
  split; [done|]. split; [done|]. intros b. by apply (Evict_frame _ _ _ _ Hci He).
Qed.

(** the cache write a read leaves behind records the body it restored as
    the durable one, whatever has been recorded since: after a newer write of
    the blob it turns the record back, and a promote then reports success
    without an upload. *)
Lemma stale_restore {C St} `{Cache C} `{Store St} now now2 finish i k
    (p p1 p2 : Pipeline C St MemoryStatusStore) r r2 :
  ms_inv (pl_status p) -> pl_cancelled p = false -> pl_bg p !! i = Some k ->
  stepBackground now i p = (p1, r) -> Promote now2 finish (rk_blobID k) p1 = (p2, r2) ->
  (exists st, ms_view (pl_status p1) (rk_blobID k) = Some st /\ bs_CommitState st = CommitDurable /\
     bs_ChecksumSHA256 st = om_ChecksumSHA256 (rk_meta k) /\ bs_Size st = om_Size (rk_meta k)) /\
  r2 = Ok tt /\ pl_store p2 = pl_store p1 /\ promoteSuccesses p2 = promoteSuccesses p1.
Proof.
  intros Hms Hcan Hk. unfold stepBackground. rewrite Hk. unfold runRestore, onCache, onStatus. unroll.
  cbn [pl_cancelled pl_cache upd eta_expand eta_Pipeline]. destruct (pl_cancelled p); [done|].
  cbn [pl_cache].
  destruct (c_Put _ _ _ _ (pl_cache p)) as [c rc]. cbn [pl_status upd eta_expand eta_Pipeline].
  cbn [pl_status].
  match goal with |- context [ss_Put ?x] => set (st := x) end.
  destruct (ss_Put st (pl_status p)) as [s rs] eqn:Hs. intros [= <- _]. intros Hp.
  cbn in Hs. injection Hs as Hs <-.
  assert (Hv : ms_view s (rk_blobID k) = Some st).
  { rewrite <- Hs. unfold ms_view. cbn [ms_m]. rewrite lookup_insert_eq. cbn. unfold ms_load. cbn.
    by rewrite lookup_app_r, Nat.sub_diag by lia. }
  cbn [pl_status upd eta_expand eta_Pipeline].
  split; [exists st; split; [exact Hv|done]|].
  destruct (Promote_path _ _ _ _ _ _ Hp) as (q & Hpath & ->).
  unfold ms_view in Hv.
  destruct (ms_m s !! rk_blobID k) as [ptr|] eqn:Hptr; [|done].
  assert (Hg : ss_Get (rk_blobID k) s = (s, Ok (Some ptr))) by (cbn; unfold ms_Get; by rewrite Hptr).
  assert (Hd : bs_CommitState (ss_load s ptr) = CommitDurable).
  { cbn in Hv. injection Hv as Hv. cbn. by rewrite Hv. }
  destruct Hpath as [s1 e Hg'|s1 Hg'|s1 ptr' Hg' _|s1 ptr' s2 h s3 r' Hg' Hn|s1 ptr' s2 h c1 e Hg' Hn
    |s1 ptr' s2 h c1 rd md s4 e Hg' Hn|s1 ptr' s2 h c1 rd md s4 res s5 e Hg' Hn
    |s1 ptr' s2 h c1 rd md s4 res s5 c2 Hg' Hn];
    cbn [pl_status upd eta_expand eta_Pipeline] in Hg'; rewrite Hg in Hg';
    first [discriminate Hg'|injection Hg' as -> ->]; first [by destruct Hn|done].
Qed.

(** ** Witnesses: the in-memory cache over the local provider *)
#[local] Instance ex_Store : Store Provider := Local_Store ex_root.
#[local] Instance ex_StoreLaws : StoreLaws Provider := Local_StoreLaws ex_root.
Lemma ex_sums : head_sums (St := Provider).
Proof. exact (Local_head_sums ex_root). Qed.

Definition ex_pipe : Pipeline MemoryCache Provider MemoryStatusStore :=
  New (newLru (DefaultEvictionPolicy 1000)) ex_init.
Definition ex_bytes : bytes := [x01; x02].
Definition ex_options : WriteOptions := mkWriteOptions false false zeroRetentionSpec "" "".

Lemma ex_pipe_ok t : pinv t ex_pipe.
Proof.
  split.
  - by apply ex_inv.
  - exact (ex_init_sound t).
  - by split.
  - intros id b Hb. exfalso. by destruct Hb as (e & He & _).
  - intros k Hk. by apply elem_of_nil in Hk.
  - done.
Qed.

(** A write, and what it returns. *)
Definition ex_written := (Write 10 11 "a" ex_bytes ex_options ex_pipe).1.
Definition ex_write_result := mkWriteResult "a" CommitCached 2 (sha256_hex ex_bytes).
Lemma ex_write_ok : Write 10 11 "a" ex_bytes ex_options ex_pipe = (ex_written, Ok ex_write_result).
Proof. unfold ex_written. apply run_eq. vm_compute. reflexivity. Qed.

(** Promoted, evicted, restored by a read, and cached again. *)
Definition ex_ops : list op := [OpPromote "a"; OpEvict "a"; OpRead "a"; OpBackground 0; OpClose].
Fixpoint runOps (now : Time) (l : list op) (p : Pipeline MemoryCache Provider MemoryStatusStore) :=
  match l with
  | [] => p
  | o :: l' => runOps (now + 1) l' (runOp (now + 1) (now + 1) o p)
  end.
Lemma runOps_run id now l p : Forall (allowed id) l -> run id now p (now + Z.of_nat (length l)) (runOps now l p).
Proof.
  revert now p. induction l as [|o l IH]; intros now p Hl; cbn [runOps length].
  - rewrite Z.add_0_r. constructor.
  - apply Forall_cons in Hl as [Ho Hl]. eapply (run_cons _ _ _ (now + 1) (now + 1)); [lia|exact Ho|].
    replace (now + Z.of_nat (S (length l))) with (now + 1 + Z.of_nat (length l)) by lia. by apply IH.
Qed.
Lemma ex_ops_allowed : Forall (allowed "a") ex_ops.
Proof. repeat constructor; done. Qed.


Lemma ex_written_safe : pinv 10 ex_written /\ safe "a" 2 (sha256_hex ex_bytes) ex_written.
Proof.
  destruct (Write_keeps 5 10 11 "a" ex_bytes ex_options ex_pipe ex_written _ (ex_pipe_ok 5) ltac:(lia) good_a
              ltac:(done) ex_write_ok) as (Hpi & _ & Hs).
  split; [exact Hpi|]. destruct (Hs _ eq_refl) as [Hsafe _]; [|exact ex_sums|exact Hsafe].
  intros k Hk. by apply elem_of_nil in Hk.
Qed.

Definition ex_promoted := (Promote 20 21 "a" ex_written).1.
Lemma ex_promote_ok : Promote 20 21 "a" ex_written = (ex_promoted, Ok tt).
Proof. unfold ex_promoted. apply run_eq. vm_compute. reflexivity. Qed.

Lemma ex_promoted_durable : bs_CommitState <$> view (pl_status ex_promoted) "a" = Some CommitDurable.
Proof. vm_compute. reflexivity. Qed.

Lemma promote_sound_witness : exists b,
  stored (pl_store ex_promoted) "a" b /\ len b = 2 /\ sha256_hex b = sha256_hex ex_bytes.
Proof.
  destruct (promote_sound 10 20 21 "a" 2 (sha256_hex ex_bytes) ex_written ex_promoted (Ok tt)) as (_ & _ & Hs & _).
  - exact (proj1 ex_written_safe).
  - lia.
  - exact good_a.
  - exact (proj2 ex_written_safe).
  - exact ex_promote_ok.
  - exact (stored_durable _ _ _ _ (Hs ex_sums) ex_promoted_durable).
Defined.

Lemma write_read_witness : exists p2,
  Read 12 "a" ex_written = (p2, Ok (mkReadResult (bytes_NewReader ex_bytes) 2 (sha256_hex ex_bytes) "" true)).
Proof.
  destruct (write_read 10 11 12 "a" ex_bytes ex_options ex_pipe ex_written ex_write_result) as (_ & _ & Hr).
  - exact (pi_cache _ _ (ex_pipe_ok 5)).
  - exact (pi_status _ _ (ex_pipe_ok 5)).
  - reflexivity.
  - exact ex_write_ok.
  - exact Hr.
Defined.

(** A promote of an unknown blob. *)
Lemma promote_counts_witness : exists ok failed skipped : bool,
  promoteAttempts (Promote 20 21 "b" ex_written).1 = 1 /\
  promoteFailures (Promote 20 21 "b" ex_written).1 = (if failed then 1 else 0) /\ failed = true /\
  ok = false && negb skipped.
Proof.
  destruct (promote_counts 20 21 "b" ex_written _ _ (surjective_pairing _)) as (ok & f & sk & Ha & _ & Hf & _ & Hr & Ho & _).
  exists ok, f, sk. split; [rewrite Ha; reflexivity|]. split; [rewrite Hf; reflexivity|].
  split; [rewrite Hr; reflexivity|rewrite Ho; reflexivity].
Defined.

(** The blob promoted, evicted and read: its cache write is pending. *)
Definition ex_restoring := runOps 30 [OpEvict "a"; OpRead "a"] ex_promoted.
Definition ex_evicted := runOps 30 [OpEvict "a"] ex_promoted.

Lemma restore_verified_witness : exists body meta,
  rr_ChecksumSHA256 (match (Read 40 "a" ex_evicted).2 with Ok r => r | Err _ => mkReadResult (bytes_NewReader []) 0 "" "" true end)
    = sha256_hex body /\ pl_bg (Read 40 "a" ex_evicted).1 = [mkRestoreTask "a" body meta].
Proof.
  destruct (Read 40 "a" ex_evicted) as [p' [r|e]] eqn:Hr; [|by (assert (Hf : is_Ok (Read 40 "a" ex_evicted).2 = false) by (by rewrite Hr); vm_compute in Hf)].
  destruct (restore_verified 40 "a" ex_evicted p' r Hr) as (body & meta & _ & Hs & _ & _ & _ & _ & Hbg).
  - assert (Hf : (Read 40 "a" ex_evicted).2 = Ok r) by (by rewrite Hr). vm_compute in Hf. by injection Hf as <-.
  - exists body, meta. cbn [fst snd]. split; [exact Hs|]. rewrite Hbg. reflexivity.
Defined.

(** A blob that is not durable yet. *)
Lemma Evict_guard_witness : pl_cache (Evict "a" ex_written).1 = pl_cache ex_written.
Proof.
  destruct (Evict_guard "a" ex_written _ _ (pi_cache _ _ (proj1 ex_written_safe)) (pi_status _ _ (proj1 ex_written_safe))
              (surjective_pairing _)) as (_ & _ & Hg).
  assert (Hv : bs_CommitState <$> view (pl_status ex_written) "a" = Some CommitCached) by (vm_compute; reflexivity).
  destruct (view (pl_status ex_written) "a") as [st|]; [|discriminate Hv]. injection Hv as Hv. rewrite Hv in Hg.
  exact (proj2 Hg).
Defined.

(** A status store whose database does not answer. *)
Definition ex_down : StatusStore MemoryStatusStore := {|
  ss_Ptr := nat; ss_load := ms_load;
  ss_Get := fun _ s => (s, Err (ErrNew "connection refused")); ss_Put := ms_Put; ss_MarkDurable := ms_MarkDurable
|}.
Definition ex_lost := (@Evict MemoryCache Provider MemoryStatusStore _ ex_down "a" ex_written).1.
Lemma ex_lost_ok : @Evict MemoryCache Provider MemoryStatusStore _ ex_down "a" ex_written = (ex_lost, Ok tt).
Proof. unfold ex_lost. apply run_eq. vm_compute. reflexivity. Qed.
Lemma Evict_on_status_error_witness :
  option_map bs_CommitState (ms_view (pl_status ex_written) "a") = Some CommitCached /\
  forall b, ~ content (pl_cache ex_lost) "a" b.
Proof.
  split; [vm_compute; reflexivity|].
  destruct (@Evict_on_status_error MemoryCache Provider MemoryStatusStore _ _ _ ex_down "a" ex_written
              ex_lost (pl_status ex_written) (ErrNew "connection refused")) as (_ & _ & Hc).
  - exact (pi_cache _ _ (proj1 ex_written_safe)).
  - reflexivity.
  - exact ex_lost_ok.
  - exact Hc.
Defined.

(** A newer body written while the cache write of a read is pending. *)
Definition ex_newer := (Write 50 51 "a" [x03] ex_options ex_restoring).1.
Definition ex_overwritten := (stepBackground 60 0 ex_newer).1.

Lemma ex_newer_bg : exists k, pl_bg ex_newer !! 0%nat = Some k /\ rk_blobID k = "a" /\ om_Size (rk_meta k) = 2.
Proof. vm_compute. eexists. split; [reflexivity|]. split; reflexivity. Qed.

Lemma ex_newer_ok : ms_inv (pl_status ex_newer).
Proof.
  destruct (Promote_keeps 10 20 21 "a" ex_written ex_promoted (Ok tt)
              (proj1 ex_written_safe) ltac:(lia) good_a ex_promote_ok) as (Hp & _ & Hs).
  destruct (promoted_safe 10 20 "a" _ _ _ _ _ ex_sums (pi_store _ _ (proj1 ex_written_safe)) good_a
              (Hs _ _ (proj2 ex_written_safe))) as [Hs' _].
  assert (Hp' : pinv 30 ex_promoted) by (eapply pinv_time; [|exact Hp]; lia).
  destruct (run_safe "a" 2 (sha256_hex ex_bytes) 30 ex_promoted 32 ex_restoring ex_sums) as [Hr _];
    [apply (runOps_run "a" 30 [OpEvict "a"; OpRead "a"] ex_promoted); by repeat constructor|exact Hp'|exact Hs'|].
  destruct (Write_keeps 32 50 51 "a" [x03] ex_options ex_restoring _ _ Hr ltac:(lia) good_a ltac:(done)
              (surjective_pairing _)) as [Hw _].
  exact (pi_status _ _ Hw).
Qed.

Lemma stale_restore_witness :
  option_map bs_CommitState (ms_view (pl_status ex_newer) "a") = Some CommitCached /\
  (exists st, ms_view (pl_status ex_overwritten) "a" = Some st /\ bs_CommitState st = CommitDurable /\ bs_Size st = 2) /\
  (Promote 70 71 "a" ex_overwritten).2 = Ok tt.
Proof.
  split; [vm_compute; reflexivity|]. destruct ex_newer_bg as (k & Hk & Hid & Hsz).
  destruct (stale_restore 60 70 71 0 k ex_newer ex_overwritten (Promote 70 71 "a" ex_overwritten).1
              (stepBackground 60 0 ex_newer).2 (Promote 70 71 "a" ex_overwritten).2) as ((st & Hv & Hd & _ & Hs) & Hr & _).
  - exact ex_newer_ok.
  - vm_compute. reflexivity.
  - exact Hk.
  - apply surjective_pairing.
  - rewrite Hid. apply surjective_pairing.
  - rewrite Hid in Hv. split; [|exact Hr]. exists st. split; [exact Hv|]. split; [exact Hd|]. by rewrite Hs.
Defined.
