(* ===== verification/BlindPromote.v ===== *)
(** * A promote over the S3 adapter

    The adapter of [pkg/blobstore/s3/s3.go] sets no [ChecksumMode] on its
    HEAD, so a service that keeps to the documented API reports no checksum,
    and [checkAlreadyDurable] of [internal/blobio/pipeline.go] is left with
    the size. The runs below are of the pipeline over the adapter and a
    bucket of the simplest kind. *)
From S2P Require Import Prelude GoStd Sha256 BlobStore HotCache LruCore MemoryCache S3 Pipeline PipelineSafety.
Local Open Scope Z_scope.

(** A bucket: the current body of every key. Nothing is asked of it but
    HEAD, GET and PUT of whole objects. *)
Definition objects : Type := gmap string bytes.
Definition noSuchKey : sdkError := mkSdkError true false false true (Some 404) false "not found" (ErrNew "NoSuchKey").
Definition refused : sdkError := mkSdkError false false false false (Some 501) false "not implemented" (ErrNew "NotImplemented").
Definition objectsClient : S3API objects := {|
  PutObject i w := (<[pi_Key i := rd_bytes (pi_Body i)]> w, inl (mkPutObjectOutput None None None));
  GetObject i w := (w, match w !! gi_Key i with
    | Some b => inl (mkGetObjectOutput (bytes_NewReader b) None (Some (len b)) None None)
    | None => inr noSuchKey
    end);
  HeadObject i w := (w, match w !! hi_Key i with
    | Some b => inl (mkHeadObjectOutput None (Some (len b)) None None)
    | None => inr noSuchKey
    end);
  DeleteObject i w := (delete (di_Key i) w, inl tt);
  DeleteObjects _ _ w := (w, inr refused); ListObjectsV2 _ w := (w, inr refused);
  sdk_ListObjectVersions _ w := (w, inr refused); CopyObject _ w := (w, inr refused);
  CreateMultipartUpload _ w := (w, inr refused); sdk_UploadPart _ w := (w, inr refused);
  CompleteMultipartUpload _ w := (w, inr refused); AbortMultipartUpload _ w := (w, inr refused);
  sdk_ListMultipartUploads _ w := (w, inr refused); sdk_ListParts _ _ w := (w, inr refused);
  GetObjectRetention _ w := (w, inr refused); PutObjectRetention _ _ w := (w, inr refused);
  GetObjectLegalHold _ w := (w, inr refused); PutObjectLegalHold _ _ w := (w, inr refused)
|}.

(** The SDK reads the whole body of a put. *)
#[local] Instance ex_s3 : Store (Provider objects) :=
  S3_Store ex_cfg objectsClient (fun _ req _ => match pq_Body req with Some r => len (rd_bytes r) | None => 0 end).

Definition over (w : objects) : Pipeline MemoryCache (Provider objects) MemoryStatusStore :=
  New (newLru (DefaultEvictionPolicy 1000)) (mkProvider None w).
(** A write that asks for no retention. *)
Definition unlocked : WriteOptions := mkWriteOptions false false (mkRetentionSpec RetentionNone zeroTime false) "" "".
Definition oldBody : bytes := [x09; x09].
Definition newBody : bytes := [x01; x02].

(** Write and promote a body, then evict it and read it back: what the
    promote answered, how the blob is recorded, what the bucket holds, and
    what was read. *)
Definition writePromoteRead (w : objects) :=
  let p1 := (Write 10 11 "a" newBody unlocked (over w)).1 in
  let '(p2, r) := Promote 20 21 "a" p1 in
  let p3 := (Evict "a" p2).1 in
  (r, bs_CommitState <$> view (pl_status p2) "a", world (pl_store p2) !! "a",
   match (Read 40 "a" p3).2 with Ok res => Some (rd_bytes (rr_Body res)) | Err _ => None end).

(** The bucket does not hold the key: the body is uploaded and read back. *)
Example promote_uploads :
  writePromoteRead ∅ = (Ok tt, Some CommitDurable, Some newBody, Some newBody).
Proof. vm_compute. reflexivity. Qed.

(** It holds another body of the same size: the promote uploads nothing,
    reports success and records the blob durable; the written body is lost. *)
Example blind_promote :
  writePromoteRead {["a" := oldBody]} = (Ok tt, Some CommitDurable, Some oldBody, Some oldBody).
Proof. vm_compute. reflexivity. Qed.
