(* ===== verification/PgStatus.v ===== *)
(** * internal/metadata/status_store.go: [PostgresStatusStore]

    The status store over the table blob_placements, as an implementation of
    the pipeline's [StatusStore] interface, and the queries of the worker's
    jobs. [Postgres_StatusLaws] makes every theorem of [PipelineSafety] one
    about a pipeline over Postgres. *)
From S2P Require Import Prelude GoStd BlobStore HotCache LruCore MemoryCache LocalFsDev LocalStore Db Pipeline.
Local Open Scope Z_scope.

Section status.
Context `{!PgTime}.

(** ** The status store *)
Definition nullTime (t : Time) : option Time := if IsZero t then None else Some (pg_time t).

Definition scanStatus (blobKey : string) (r : placementRow) : BlobStatus :=
  mkBlobStatus blobKey (bp_commit_state r) (bp_size_bytes r) (bp_checksum_sha256 r)
    (default "" (bp_blob_version_id r)) (bp_cached_at r) (default zeroTime (bp_durable_at r)) "" ""
    (mkRetentionSpec (bp_retention_mode r) (default zeroTime (bp_retain_until r)) (bp_legal_hold r)).

Definition status_store_Get (blobID : string) : MDB (option BlobStatus) :=
  r ← try (stmt (gets (fun d => blob_placements d !! blobID)));
  match r with
  | Err e => if errors_Is e SqlNoRows then ret None else throw (ErrWrap "metadata: status get: %w" e)
  | Ok row => ret (scanStatus blobID <$> row)
  end.

Definition status_store_Put (status : BlobStatus) : MDB unit :=
  wrap "metadata: status put: %w" (stmt (fun d =>
    match nullTime (bs_CachedAt status) with
    | None => (d, Err notNull)
    | Some cachedAt =>
        let id := bs_BlobID status in
        let excluded := mkPlacementRow (bs_CommitState status) (nullString (bs_VersionID status)) (bs_Size status)
              (bs_ChecksumSHA256 status) cachedAt (nullTime (bs_DurableAt status))
              (rs_Mode (bs_Retention status)) (nullTime (rs_RetainUntil (bs_Retention status)))
              (rs_LegalHold (bs_Retention status)) (db_clock d) (db_clock d) "" in
        let row := match blob_placements d !! id with
                   | None => excluded
                   | Some old => excluded <| bp_cached_at := bp_cached_at old |>
                       <| bp_created_at := bp_created_at old |> <| bp_tenant_id := bp_tenant_id old |>
                   end in
        (d <| blob_placements := <[id := row]> (blob_placements d) |>, Ok tt)
    end)).

Definition status_store_MarkDurable (blobKey versionID : string) (size : Z) (checksum : string) (durableAt : Time)
  : MDB unit :=
  n ← wrap "metadata: mark durable: %w" (stmt (fun d =>
    match blob_placements d !! blobKey with
    | None => (d, Ok 0)
    | Some old =>
        (d <| blob_placements := <[blobKey :=
              old <| bp_commit_state := "COMMITTED_DURABLE" |> <| bp_blob_version_id := nullString versionID |>
                  <| bp_size_bytes := size |> <| bp_checksum_sha256 := checksum |>
                  <| bp_durable_at := Some (pg_time durableAt) |> <| bp_updated_at := db_clock d |>]>
              (blob_placements d) |>, Ok 1)
    end));
  fail_if (n =? 0) (ErrSentinel MdNotFound).

#[export] Instance Postgres_StatusStore : StatusStore db := {|
  ss_Ptr := BlobStatus; ss_load _ p := p; ss_Get := status_store_Get; ss_Put := status_store_Put;
  ss_MarkDurable := status_store_MarkDurable
|}.

(** ** The queries of the worker's jobs *)
Record CachedPlacement := mkCachedPlacement {
  cp_BlobKey : string; cp_SizeBytes : Z; cp_ChecksumSHA256 : string; cp_CachedAt : Time }.

Definition isCached (r : placementRow) : bool := bool_decide (bp_commit_state r = "CACHED").
Definition isDurable (r : placementRow) : bool := bool_decide (bp_commit_state r = "COMMITTED_DURABLE").
Definition olderPlacement (x y : string * placementRow) : bool := bp_cached_at x.2 <? bp_cached_at y.2.
Definition scanCached (x : string * placementRow) : CachedPlacement :=
  mkCachedPlacement x.1 (bp_size_bytes x.2) (bp_checksum_sha256 x.2) (bp_cached_at x.2).

Definition ListCachedPlacements (lim : Z) : MDB (list CachedPlacement) :=
  rows ← wrap "metadata: list cached placements: %w" (stmt (
    d ← gets id;
    limitTo lim (orderBy olderPlacement (selectRows (blob_placements d) (fun _ r => isCached r)))));
  ret (map scanCached rows).

Record DurablePlacement := mkDurablePlacement {
  dp_BlobKey : string; dp_BlobVersionID : string; dp_SizeBytes : Z; dp_ChecksumSHA256 : string; dp_DurableAt : Time }.

Definition scanDurable (x : string * placementRow) : DurablePlacement :=
  mkDurablePlacement x.1 (coalesce (bp_blob_version_id x.2)) (bp_size_bytes x.2) (bp_checksum_sha256 x.2)
    (default zeroTime (bp_durable_at x.2)).

(** [shuffle]: the order of ORDER BY random() in this call. *)
Definition SampleDurablePlacements (shuffle : list (string * placementRow) -> list (string * placementRow)) (lim : Z)
  : MDB (list DurablePlacement) :=
  rows ← wrap "metadata: sample durable placements: %w" (stmt (
    d ← gets id; limitTo lim (shuffle (selectRows (blob_placements d) (fun _ r => isDurable r)))));
  ret (map scanDurable rows).

Definition CountCachedPlacements : MDB Z :=
  wrap "metadata: count cached placements: %w" (stmt (
    gets (fun d => len (selectRows (blob_placements d) (fun _ r => isCached r))))).

(** ** The laws of a status store *)
Definition placed (d : db) (id : string) : option BlobStatus := scanStatus id <$> blob_placements d !! id.

Lemma placed_insert d d' id row k : blob_placements d' = <[id := row]> (blob_placements d) ->
  placed d' k = if decide (id = k) then Some (scanStatus k row) else placed d k.
Proof.
  unfold placed. intros ->. case_decide as Hk.
  - subst. by rewrite lookup_insert_eq.
  - by rewrite lookup_insert_ne.
Qed.

#[export] Program Instance Postgres_StatusLaws : StatusLaws db := {|
  ss_inv d := db_faults d = []; view := placed
|}.
Next Obligation.
  intros d id Hf. exists d, (placed d id). split; [|by destruct (placed d id)].
  cbn. unfold status_store_Get, try. unroll. by rewrite healthy_stmt.
Qed.
Next Obligation.
  intros st d d' r Hf. cbn. unfold status_store_Put, wrap. rewrite healthy_stmt by done.
  destruct (nullTime (bs_CachedAt st)) as [c|] eqn:Hc; intros [= <- <-]; [|done].
  split; [done|]. split.
  - intros k Hk. erewrite placed_insert by done. by rewrite decide_False.
  - erewrite placed_insert by done. rewrite decide_True by done. constructor. pose proof (coalesce_nullString (bs_VersionID st)).
    by destruct (blob_placements d !! bs_BlobID st); split.
Qed.
Next Obligation.
  intros id v sz sum t d d' r Hf. cbn. unfold status_store_MarkDurable, wrap. unroll. rewrite healthy_stmt by done.
  destruct (blob_placements d !! id) as [old|] eqn:Ho; [|by intros [= <- <-]].
  intros [= <- <-]. split; [done|]. split.
  - intros k Hk. erewrite placed_insert by done. by rewrite decide_False.
  - unfold placed. rewrite Ho. cbn [blob_placements upd eta_expand eta_db]. rewrite lookup_insert_eq. constructor.
    pose proof (coalesce_nullString v). by split.
Qed.

(** ** Properties *)
(** C33: A status written with [Put] is the one [Get] returns: every field
    the pipeline reads, the times to the resolution of the server; the time of
    the first caching survives the later writes of the same blob. *)
Theorem status_roundtrip st d d' : db_faults d = [] -> status_store_Put st d = (d', Ok tt) ->
  exists st', status_store_Get (bs_BlobID st) d' = (d', Ok (Some st')) /\ sameStatus st st' /\
    bs_CachedAt st' = default (pg_time (bs_CachedAt st)) (bp_cached_at <$> blob_placements d !! bs_BlobID st) /\
    bs_DurableAt st' = default zeroTime (nullTime (bs_DurableAt st)) /\
    rs_RetainUntil (bs_Retention st') = default zeroTime (nullTime (rs_RetainUntil (bs_Retention st))) /\
    bs_FileID st' = "" /\ bs_TenantID st' = "".
Proof.
  intros Hf Hp. destruct (@status_Put db _ Postgres_StatusLaws st d d' _ Hf Hp) as (Hf' & _ & Hs). apply sameStatus_inv in Hs as (st' & Hs & Hsame).
  exists st'. cbn in Hf'. unfold status_store_Get, try. unroll. rewrite healthy_stmt by done.
  cbn in Hs. unfold placed in Hs. rewrite Hs. split; [done|]. split; [done|].
  unfold status_store_Put, wrap in Hp. rewrite healthy_stmt in Hp by done.
  destruct (nullTime (bs_CachedAt st)) as [c|] eqn:Hc; [|done]. injection Hp as <-.
  cbn [blob_placements upd eta_expand eta_db] in Hs. rewrite lookup_insert_eq in Hs. injection Hs as <-.
  unfold nullTime in Hc. destruct (IsZero _); [done|]. injection Hc as <-.
  by destruct (blob_placements d !! bs_BlobID st).
Qed.

(** The queue of the promotion job: no more than the limit, as many as
    there are when they fit, each a distinct blob in state CACHED, the oldest
    first, and nothing left behind is older than what is listed. *)
Lemma list_cached_oldest lim d d' l : db_faults d = [] -> ListCachedPlacements lim d = (d', Ok l) ->
  d' = d /\ 0 <= lim /\ CountCachedPlacements d = (d, Ok (len (selectRows (blob_placements d) (fun _ r => isCached r)))) /\
  len l = Z.min lim (len (selectRows (blob_placements d) (fun _ r => isCached r))) /\
  NoDup (map cp_BlobKey l) /\ StronglySorted (fun x y => cp_CachedAt x <= cp_CachedAt y) l /\
  (forall c, c ∈ l -> exists r, blob_placements d !! cp_BlobKey c = Some r /\
     bp_commit_state r = "CACHED" /\ c = scanCached (cp_BlobKey c, r)) /\
  (forall k r c, blob_placements d !! k = Some r -> bp_commit_state r = "CACHED" -> k ∉ map cp_BlobKey l ->
     c ∈ l -> cp_CachedAt c <= bp_cached_at r).
Proof.
  intros Hf. unfold ListCachedPlacements, CountCachedPlacements, limitTo, wrap. unroll. rewrite !healthy_stmt by done.
  destruct (lim <? 0) eqn:Hl; [done|]. bool_hyps. cbn [id]. intros [= <- <-].
  destruct (selectTop (blob_placements d) (fun _ r => isCached r) bp_cached_at lim Hl) as [Hlen Hnd Hs Hin Hfst].
  unfold orderBy in *. fold olderPlacement in *.
  set (top := limit lim (sort_Slice olderPlacement (selectRows (blob_placements d) (fun _ r => isCached r)))) in *.
  assert (Hkeys : map cp_BlobKey (map scanCached top) = top.*1) by (rewrite map_map; done).
  do 3 (split; [done|]). split; [|rewrite Hkeys; split; [done|split; [|split]]].
  - unfold len in *. by rewrite length_map.
  - exact (StronglySorted_fmap scanCached (fun x y => bp_cached_at x.2 <= bp_cached_at y.2) _ _ (fun _ _ Hxy => Hxy) Hs).
  - intros c ([k r] & -> & Hx)%list_elem_of_fmap. destruct (Hin _ _ Hx) as [Hk Hc]. exists r.
    split; [done|]. split; [|done]. by apply bool_decide_eq_true in Hc.
  - intros k r c Hk Hc Hn (x & -> & Hx)%list_elem_of_fmap. apply (Hfst k); [done| |done|done].
    by apply bool_decide_eq_true.
Qed.

(** A read that comes from L2 leaves the row of the blob as it is: the
    status it records carries no caching time, which the table refuses. The
    cache write is done all the same. *)
Lemma restore_never_recorded {C St} `{Cache C} `{Store St} now k (p p' : Pipeline C St db) r :
  db_faults (pl_status p) = [] -> pl_cancelled p = false -> runRestore now k p = (p', r) ->
  r = Ok tt /\ pl_status p' = pl_status p /\
  pl_cache p' = (c_Put now (rk_blobID k) (Some (bytes_NewReader (rk_body k)))
    (mkPutOptions (om_Size (rk_meta k)) (om_ChecksumSHA256 (rk_meta k)) 0 false false) (pl_cache p)).1.
Proof.
  intros Hf Hc. unfold runRestore, onCache, onStatus. unroll. rewrite Hc.
  destruct (c_Put _ _ _ _ _) as [c rc]. cbn [pl_status upd eta_expand eta_Pipeline ss_Put Postgres_StatusStore].
  unfold status_store_Put, wrap. rewrite healthy_stmt by done. by intros [= <- <-].
Qed.
End status.

(** ** Witnesses: a server with microseconds *)
#[local] Instance ex_micros : PgTime := fun t => t / 1000 * 1000.

Definition ex_clean : db := emptyDb 5000.
Definition ex_status : BlobStatus :=
  mkBlobStatus "blob" CommitCached 3 "00ff" "" 1500 zeroTime "f" "t" (mkRetentionSpec "GOVERNANCE" 9001 true).
Definition ex_put := (status_store_Put ex_status ex_clean).1.

Lemma ex_put_ok : status_store_Put ex_status ex_clean = (ex_put, Ok tt).
Proof. apply run_eq. vm_compute. reflexivity. Qed.

Lemma status_roundtrip_witness : exists st',
  status_store_Get "blob" ex_put = (ex_put, Ok (Some st')) /\ sameStatus ex_status st' /\ bs_CachedAt st' = 1000.
Proof.
  destruct (status_roundtrip ex_status ex_clean ex_put eq_refl ex_put_ok) as (st' & Hg & Hs & Hc & _).
  exists st'. exact (conj Hg (conj Hs Hc)).
Defined.

Definition ex_put2 := (status_store_Put (ex_status <| bs_BlobID := "old" |> <| bs_CachedAt := 700 |>) ex_put).1.
Definition ex_listed : list CachedPlacement := [mkCachedPlacement "old" 3 "00ff" 0].

Lemma list_cached_oldest_witness :
  ListCachedPlacements 1 ex_put2 = (ex_put2, Ok ex_listed) /\ NoDup (map cp_BlobKey ex_listed).
Proof.
  assert (Hl : ListCachedPlacements 1 ex_put2 = (ex_put2, Ok ex_listed)) by (vm_compute; reflexivity).
  destruct (list_cached_oldest 1 ex_put2 ex_put2 ex_listed eq_refl Hl) as (_ & _ & _ & _ & Hn & _).
  exact (conj Hl Hn).
Defined.

#[local] Instance ex_fs_Store : Store Provider := Local_Store ex_root.
Definition ex_pg_pipe : Pipeline MemoryCache Provider db :=
  NewWithStatusStore (newLru (DefaultEvictionPolicy 1000)) ex_init ex_put.
Definition ex_restored : restoreTask := mkRestoreTask "blob" [x01; x02; x03] 
  (mkObjectMeta "blob" "v1" VersioningNeverEnabled 3 "00ff" zeroRetentionState 9).

Lemma restore_never_recorded_witness : exists p',
  runRestore 7 ex_restored ex_pg_pipe = (p', Ok tt) /\ pl_status p' = ex_put /\
  is_Ok (c_Get 8 "blob" (pl_cache p')).2 = true.
Proof.
  destruct (runRestore 7 ex_restored ex_pg_pipe) as [p' r] eqn:Hr.
  destruct (restore_never_recorded 7 ex_restored ex_pg_pipe p' r eq_refl eq_refl Hr) as (-> & Hs & Hc).
  exists p'. split; [reflexivity|]. split; [exact Hs|]. rewrite Hc. vm_compute. reflexivity.
Defined.
