(* ===== verification/MetaStore.v ===== *)
(** * internal/metadata/store.go

    Tenants, file versions, the outbox, the erasure ledger and the write
    intents. A method is one statement, or one transaction of statements. *)
From S2P Require Import Prelude GoStd Db.
Local Open Scope Z_scope.

(** ** Prepared statements: whether each of the four is there *)
Record preparedStmts := mkPreparedStmts {
  getTenant : bool; getFolder : bool; getNode : bool; getEncryptionDomain : bool }.
#[export] Instance eta_preparedStmts : Eta preparedStmts := fun p =>
  mkPreparedStmts (getTenant p) (getFolder p) (getNode p) (getEncryptionDomain p).
Definition noStmts : preparedStmts := mkPreparedStmts false false false false.

Definition InitStmts : MDB preparedStmts :=
  t ← try prepare; f ← try prepare; n ← try prepare; e ← try prepare;
  ret (mkPreparedStmts (is_Ok t) (is_Ok f) (is_Ok n) (is_Ok e)).

(** A read through the prepared statement, or inline when it is nil: the
    same query. *)
Definition queryRow {A} (prepared : bool) (q : MDB A) : MDB A := if prepared then stmt q else stmt q.

(** [row.Scan] with [sql.ErrNoRows] turned into [ErrNotFound]. *)
Definition scanRow {A} (prepared : bool) (q : db -> option A) : MDB A :=
  r ← try (queryRow prepared (
    d ← gets id;
    match q d with Some a => ret a | None => throw (ErrSentinel SqlNoRows) end));
  match r with
  | Err e => throw (if errors_Is e SqlNoRows then ErrSentinel MdNotFound else e)
  | Ok a => ret a
  end.

(** ** Tenants *)
Record Tenant := mkTenant {
  t_ID : string; t_PoolID : string; t_PrivacyMode : string; t_Guardrails : RawMessage; t_CreatedAt : Time }.

Definition CreateTenant (t : Tenant) : MDB unit := stmt (
  j ← jsonParam (t_Guardrails t);
  modify (fun d => match tenants d !! t_ID t with
    | Some _ => d
    | None => d <| tenants := <[t_ID t := mkTenantRow (t_PoolID t) (t_PrivacyMode t) (db_clock d) j "b2b" ""]> (tenants d) |>
    end)).

Definition GetTenant (ps : preparedStmts) (id : string) : MDB Tenant :=
  scanRow (getTenant ps) (fun d =>
    (fun r => mkTenant id (tn_pool_id r) (tn_privacy_mode r) (Some (tn_guardrails r)) (tn_created_at r))
      <$> tenants d !! id).

(** ** File versions *)
Record FileVersion := mkFileVersion {
  v_ID : string; v_FileID : string; v_TenantID : string; v_BlobKey : string; v_BlobVersionID : string;
  v_SizeBytes : Z; v_ChecksumSHA256 : string; v_EncryptionMode : string; v_CommitState : string;
  v_CachedAt : option Time; v_DurableAt : option Time; v_RetentionMode : string; v_RetainUntil : option Time;
  v_LegalHold : bool; v_CreatedAt : Time; v_DeletedAt : option Time }.

Section times.
Context `{!PgTime}.

Definition CreateFileVersion (v : FileVersion) : MDB unit := stmt (
  d ← gets id;
  fail_if (bool_decide (is_Some (file_versions d !! v_ID v))) uniqueKey;;
  fail_if (negb (bool_decide (v_FileID v ∈ files d))) foreignKey;;
  fail_if (negb (bool_decide (is_Some (tenants d !! v_TenantID v)))) foreignKey;;
  modify (fun d => d <| file_versions := <[v_ID v :=
    mkFileVersionRow (v_FileID v) (v_TenantID v) (v_BlobKey v) (Some (v_BlobVersionID v)) (v_SizeBytes v)
      (v_ChecksumSHA256 v) (v_EncryptionMode v) (v_CommitState v) (pg_time <$> v_CachedAt v) None
      (v_RetentionMode v) (pg_time <$> v_RetainUntil v) (v_LegalHold v) (db_clock d) None]> (file_versions d) |>)).

(** UPDATE of the rows at one key that satisfy a condition: the number of
    rows affected. *)
Definition updateAt {K R} `{Countable K} (get : db -> gmap K R) (set : gmap K R -> db -> db) (k : K) (p : R -> bool)
    (f : db -> R -> R) : MDB Z := fun d =>
  match get d !! k with
  | Some r => if p r then (set (<[k := f d r]> (get d)) d, Ok 1) else (d, Ok 0)
  | None => (d, Ok 0)
  end.

Definition updateVersion := updateAt file_versions (fun t d => d <| file_versions := t |>).
Definition MarkFileVersionDurable (id blobVersionID : string) (durableAt : Time) : MDB unit :=
  n ← stmt (updateVersion id (fun r => bool_decide (fv_commit_state r = "CACHED")) (fun _ r =>
        r <| fv_commit_state := "COMMITTED_DURABLE" |> <| fv_blob_version_id := Some blobVersionID |>
          <| fv_durable_at := Some (pg_time durableAt) |>));
  fail_if (n =? 0) (ErrSentinel MdNotCachable).

(** ORDER BY cached_at: NULL comes last. *)
Definition olderVersion (x y : string * fileVersionRow) : bool :=
  match fv_cached_at x.2, fv_cached_at y.2 with
  | Some a, Some b => a <? b
  | Some _, None => true
  | None, _ => false
  end.
Definition scanVersion (x : string * fileVersionRow) : result FileVersion :=
  let r := x.2 in
  match fv_blob_version_id r with
  | None => Err scanNull
  | Some bv => Ok (mkFileVersion x.1 (fv_file_id r) (fv_tenant_id r) (fv_blob_key r) bv (fv_size_bytes r)
      (fv_checksum_sha256 r) (fv_encryption_mode r) (fv_commit_state r) (fv_cached_at r) (fv_durable_at r)
      (fv_retention_mode r) (fv_retain_until r) (fv_legal_hold r) (fv_created_at r) (fv_deleted_at r))
  end.

(** The loop over [rows.Next]: the first row that does not scan ends it. *)
Fixpoint scanAll {X A} (scan : X -> result A) (l : list X) : result (list A) :=
  match l with
  | [] => Ok []
  | x :: l' =>
      match scan x with
      | Err e => Err e
      | Ok a => match scanAll scan l' with Err e => Err e | Ok as' => Ok (a :: as') end
      end
  end.

Definition ListCachedVersions (lim : Z) : MDB (list FileVersion) :=
  rows ← stmt (
    d ← gets id;
    limitTo lim (orderBy olderVersion (selectRows (file_versions d)
      (fun _ r => bool_decide (fv_commit_state r = "CACHED") && bool_decide (fv_deleted_at r = None)))));
  lift (scanAll scanVersion rows).
End times.

(** ** The outbox *)
Record OutboxEvent := mkOutboxEvent {
  o_ID : Z; o_EventType : string; o_Payload : json; o_State : string; o_Attempts : Z; o_MaxAttempts : Z;
  o_LastError : string; o_AvailableAt : Time; o_CreatedAt : Time }.

Definition EnqueueOutbox (eventType : string) (payload : RawMessage) : MDB unit := stmt (
  j ← jsonParam payload;
  modify (fun d => d <| outbox_seq := outbox_seq d + 1 |> <| outbox := <[outbox_seq d + 1 :=
    mkOutboxRow eventType j "PENDING" 0 5 None (db_clock d) (db_clock d) None]> (outbox d) |>)).

Definition scanEvent (x : Z * outboxRow) : result OutboxEvent :=
  let r := x.2 in
  match ob_last_error r with
  | None => Err scanNull
  | Some le => Ok (mkOutboxEvent x.1 (ob_event_type r) (ob_payload r) (ob_state r) (ob_attempts r) (ob_max_attempts r)
      le (ob_available_at r) (ob_created_at r))
  end.

(** [locked]: the rows other transactions hold, which SKIP LOCKED skips. *)
Definition claimable (locked : gset Z) (now : Time) (id : Z) (r : outboxRow) : bool :=
  bool_decide (ob_state r = "PENDING") && (ob_available_at r <=? now) && negb (bool_decide (id ∈ locked)).
Definition byId (x y : Z * outboxRow) : bool := x.1 <? y.1.

Definition updateEvent := updateAt outbox (fun t d => d <| outbox := t |>).
Fixpoint markInProgress (ids : list Z) : MDB unit :=
  match ids with
  | [] => ret tt
  | id :: ids' =>
      stmt (updateEvent id (fun _ => true) (fun _ r => r <| ob_state := "IN_PROGRESS" |>));;
      markInProgress ids'
  end.

Definition ClaimOutboxEvents (locked : gset Z) (lim : Z) : MDB (list OutboxEvent) := transaction (
  rows ← stmt (
    d ← gets id;
    limitTo lim (orderBy byId (selectRows (outbox d) (claimable locked (db_clock d)))));
  events ← lift (scanAll scanEvent rows);
  markInProgress (map o_ID events);;
  ret events).

Definition CompleteOutboxEvent (id : Z) : MDB unit :=
  _ ← stmt (updateEvent id (fun _ => true) (fun d r =>
        r <| ob_state := "DONE" |> <| ob_completed_at := Some (db_clock d) |>));
  ret tt.

(** [backoff.Seconds()] and its [%.0f] text, read back by the server as an
    interval: the nearest integer, ties to even. *)
Definition f64_add (x y : float64) : float64 := SFadd 53 1024 x y.
Definition DurationSeconds (d : Z) : float64 :=
  f64_add (f64_of_Z (Z.quot d Second)) (f64_div (f64_of_Z (Z.rem d Second)) (f64_of_Z 1000000000)).
Definition roundEven (n e : Z) : Z :=
  let q := n / e in
  match Z.compare (2 * (n mod e)) e with
  | Lt => q | Gt => q + 1 | Eq => if Z.even q then q else q + 1
  end.
Definition formatRound (x : float64) : Z :=
  match x with
  | S754_finite sg m e =>
      let a := if 0 <=? e then Z.pos m * 2 ^ e else roundEven (Z.pos m) (2 ^ (- e)) in
      if sg then - a else a
  | _ => 0
  end.

Definition failedRow (lastError : string) (available : Time) (r : outboxRow) : outboxRow :=
  r <| ob_attempts := ob_attempts r + 1 |> <| ob_last_error := Some lastError |>
    <| ob_state := if ob_max_attempts r <=? ob_attempts r + 1 then "FAILED" else "PENDING" |>
    <| ob_available_at := available |>.
Definition FailOutboxEvent (id : Z) (lastError : string) (backoff : Z) : MDB unit :=
  _ ← stmt (
    d ← gets (fun d => d);
    fail_if (match outbox d !! id with Some r => negb (int32 (ob_attempts r + 1)) | None => false end) outOfRange;;
    updateEvent id (fun _ => true) (fun d r =>
      failedRow lastError (db_clock d + formatRound (DurationSeconds backoff) * Second) r));
  ret tt.

(** ** The erasure ledger *)
Definition sameEntity (entityType entityID : string) (r : erasureRow) : bool :=
  bool_decide (er_entity_type r = entityType) && bool_decide (er_entity_id r = entityID).
(** MAX(erasure_generation): NULL when there is no row. *)
Definition maxGeneration (entityType entityID : string) (l : list erasureRow) : option Z :=
  foldr (fun r acc => if sameEntity entityType entityID r
           then Some (match acc with None => er_erasure_generation r | Some g => Z.max (er_erasure_generation r) g end)
           else acc) None l.

(** The INSERT .. SELECT of [RecordErasure] in its two halves: the row it
    makes of what it reads, and the row it adds. Under READ COMMITTED another
    statement may do its own between the two, there being no lock and no
    unique index: [erasing] below. *)
Definition nextGeneration (entityType entityID : string) (l : list erasureRow) : Z :=
  default 1 ((fun g => g + 1) <$> maxGeneration entityType entityID l).
Definition newErasure (entityType entityID tenantID erasureType : string) : MDB erasureRow :=
  d ← gets id;
  let gen := nextGeneration entityType entityID (erasure_ledger d) in
  fail_if (negb (int32 gen)) outOfRange;;
  ret (mkErasureRow entityType entityID tenantID erasureType (db_clock d) gen).
Definition insertErasure (r : erasureRow) : MDB unit :=
  modify (fun d => d <| erasure_ledger := erasure_ledger d ++ [r] |>).

(** Nothing in between: the statement of a caller that is alone. *)
Definition RecordErasure (entityType entityID tenantID erasureType : string) : MDB unit := stmt (
  row ← newErasure entityType entityID tenantID erasureType;
  insertErasure row).

Definition LatestErasureGeneration (entityType entityID : string) : MDB Z := stmt (
  gets (fun d => default 0 (maxGeneration entityType entityID (erasure_ledger d)))).

(** ** Write intents *)
Record WriteIntent := mkWriteIntent {
  w_BlobKey : string; w_IdempotencyToken : string; w_ExpectedLength : Z; w_ChecksumSHA256 : string }.

Definition CreateWriteIntent (intent : WriteIntent) : MDB unit :=
  r ← try (stmt (
    d ← gets id;
    let k := (w_BlobKey intent, w_IdempotencyToken intent) in
    fail_if (bool_decide (is_Some (write_intents d !! k))) uniqueKey;;
    modify (fun d => d <| write_intents := <[k := mkIntentRow (w_ExpectedLength intent) (w_ChecksumSHA256 intent)
      "PROPOSED" 1 (db_clock d) None None]> (write_intents d) |>)));
  match r with
  | Err e => throw (if isPqCode e "23505" then ErrSentinel MdConflict else e)
  | Ok _ => ret tt
  end.

Definition updateIntent := updateAt write_intents (fun t d => d <| write_intents := t |>).
Definition AdoptWriteIntent (blobKey idempotencyToken : string) : MDB unit :=
  n ← stmt (updateIntent (blobKey, idempotencyToken) (fun r => bool_decide (wi_state r = "PROPOSED"))
        (fun d r => r <| wi_state := "ADOPTED" |> <| wi_adopted_at := Some (db_clock d) |>));
  fail_if (n =? 0) (ErrSentinel MdNotFound).

Definition AbandonWriteIntent (blobKey idempotencyToken : string) : MDB unit :=
  _ ← stmt (updateIntent (blobKey, idempotencyToken) (fun _ => true)
        (fun d r => r <| wi_state := "ABANDONED" |> <| wi_abandoned_at := Some (db_clock d) |>));
  ret tt.

(** ** Lemmas on statements *)
(** ** Write intents: each is created and adopted at most once *)
Inductive intentOp :=
| OpCreate (intent : WriteIntent) | OpAdopt (blobKey token : string) | OpAbandon (blobKey token : string).
Definition runIntent (o : intentOp) : MDB unit :=
  match o with
  | OpCreate i => CreateWriteIntent i | OpAdopt k t => AdoptWriteIntent k t | OpAbandon k t => AbandonWriteIntent k t
  end.
Definition creates (k : string * string) (o : intentOp) (r : result unit) : bool :=
  match o with OpCreate i => is_Ok r && bool_decide ((w_BlobKey i, w_IdempotencyToken i) = k) | _ => false end.
Definition adopts (k : string * string) (o : intentOp) (r : result unit) : bool :=
  match o with OpAdopt b t => is_Ok r && bool_decide ((b, t) = k) | _ => false end.

(** What a call does to the intent at a key. *)
Lemma updateAt_lookup {K R} `{Countable K} (get : db -> gmap K R) set k p f d d' n :
  (forall t d, get (set t d) = t) -> updateAt get set k p f d = (d', Ok n) ->
  (exists r, get d !! k = Some r /\ p r = true /\ get d' = <[k := f d r]> (get d) /\ n = 1) \/
  (d' = d /\ n = 0 /\ forall r, get d !! k = Some r -> p r = false).
Proof.
  intros Hset. unfold updateAt. destruct (get d !! k) as [r|] eqn:Hk; [destruct (p r) eqn:Hp|]; intros [= <- <-].
  - left. exists r. rewrite Hset. done.
  - right. split; [done|]. split; [done|]. intros r' [= <-]. done.
  - by right.
Qed.

Inductive intentMove (k : string * string) (t t1 : gmap (string * string) intentRow) (c a : bool) : Prop :=
| MoveNone : t1 !! k = t !! k -> c = false -> a = false -> intentMove k t t1 c a
| MoveCreate row : t !! k = None -> t1 !! k = Some row -> wi_state row = "PROPOSED" -> c = true -> a = false ->
    intentMove k t t1 c a
| MoveAdopt row row1 : t !! k = Some row -> wi_state row = "PROPOSED" -> t1 !! k = Some row1 ->
    wi_state row1 = "ADOPTED" -> c = false -> a = true -> intentMove k t t1 c a
| MoveAbandon row row1 : t !! k = Some row -> t1 !! k = Some row1 -> wi_state row1 = "ABANDONED" -> c = false ->
    a = false -> intentMove k t t1 c a.

Lemma updateAt_Ok {K R} `{Countable K} (get : db -> gmap K R) set k p f d : exists d' n, updateAt get set k p f d = (d', Ok n).
Proof. unfold updateAt. destruct (get d !! k) as [r|]; [destruct (p r)|]; eauto. Qed.

(** A single UPDATE statement. *)
Lemma update_stmt {K R} `{Countable K} (get : db -> gmap K R) set k p f d d' r :
  (forall t d, get (set t d) = t) -> (forall d fs, get (d <| db_faults := fs |>) = get d) ->
  stmt (updateAt get set k p f) d = (d', r) ->
  (exists e, r = Err e /\ get d' = get d) \/
  (exists row fs, r = Ok 1 /\ get d !! k = Some row /\ p row = true /\
     get d' = <[k := f (d <| db_faults := fs |>) row]> (get d)) \/
  (r = Ok 0 /\ get d' = get d /\ forall row, get d !! k = Some row -> p row = false).
Proof.
  intros Hset Hf Hs. apply stmt_cases in Hs as [(x & fs & _ & -> & ->)|(fs & Hs)].
  - left. exists x. by rewrite Hf.
  - right. destruct r as [n|e].
    + apply updateAt_lookup in Hs as [(row & Hk & Hp & Hd & ->)|(-> & -> & Hn)]; [| |done].
      * rewrite Hf in *. left. exists row, fs. by rewrite Hd.
      * rewrite Hf in *. by right.
    + destruct (updateAt_Ok get set k p f (d <| db_faults := fs |>)) as (? & ? & Hu). by rewrite Hu in Hs.
Qed.

Lemma update_frame {K R F} `{Countable K} (fr : db -> F) (get : db -> gmap K R) set k p f d d' r :
  (forall t d, fr (set t d) = fr d) -> (forall d fs, fr (d <| db_faults := fs |>) = fr d) ->
  stmt (updateAt get set k p f) d = (d', r) -> fr d' = fr d.
Proof.
  intros Hset Hf Hs. apply stmt_cases in Hs as [(x & fs & _ & -> & _)|(fs & Hs)]; [done|].
  unfold updateAt in Hs. destruct (get _ !! k) as [row|]; [destruct (p row)|]; injection Hs as <- _;
    [etransitivity; [apply Hset|apply Hf]|apply Hf..].
Qed.

Lemma CreateWriteIntent_cases i d d1 r : CreateWriteIntent i d = (d1, r) ->
  let k := (w_BlobKey i, w_IdempotencyToken i) in
  (exists e, r = Err e /\ write_intents d1 = write_intents d) \/
  (r = Ok tt /\ write_intents d !! k = None /\
   exists row, write_intents d1 = <[k := row]> (write_intents d) /\ wi_state row = "PROPOSED").
Proof.
  unfold CreateWriteIntent, try. unroll. destruct (stmt _ d) as [d2 r2] eqn:Hs.
  apply stmt_cases in Hs as [(e & fs & _ & -> & ->)|(fs & Hs)]; [intros [= <- <-]; left; by eexists|].
  unfold gets, fail_if, modify in Hs. cbn [id write_intents upd eta_expand eta_db] in Hs.
  destruct (bool_decide (is_Some _)) eqn:Hk; bool_hyps; injection Hs as <- <-; intros [= <- <-].
  - left. by eexists.
  - right. split; [done|]. split; [by apply eq_None_not_Some|]. by eexists.
Qed.

Lemma intent_moves k o d d1 r : runIntent o d = (d1, r) ->
  intentMove k (write_intents d) (write_intents d1) (creates k o r) (adopts k o r).
Proof.
  destruct o as [i|b t|b t]; cbn [runIntent creates adopts].
  - intros [(e & -> & ->)|(-> & Hn & row & -> & Hr)]%CreateWriteIntent_cases; [by apply MoveNone|].
    cbn [is_Ok andb]. case_bool_decide as Hk; [subst k|by apply MoveNone; [rewrite lookup_insert_ne|..]].
    apply (MoveCreate _ _ _ _ _ row); try done. by rewrite lookup_insert_eq.
  - unfold AdoptWriteIntent. unroll. destruct (stmt _ d) as [d2 r2] eqn:Hs.
    apply update_stmt in Hs as [(e & -> & Hd)|[(row & fs & -> & Hk & Hp & Hd)|(-> & Hd & Hn)]]; [..|done|done];
      intros [= <- <-]; rewrite Hd; [by apply MoveNone| |by apply MoveNone]. cbn [is_Ok andb]. bool_hyps.
    case_bool_decide as Hk'; [subst k|by apply MoveNone; [rewrite lookup_insert_ne|..]].
    eapply MoveAdopt; [done|done|by rewrite lookup_insert_eq|done..].
  - unfold AbandonWriteIntent. unroll. destruct (stmt _ d) as [d2 r2] eqn:Hs.
    apply update_stmt in Hs as [(e & -> & Hd)|[(row & fs & -> & Hk & Hp & Hd)|(-> & Hd & Hn)]]; [..|done|done];
      intros [= <- <-]; rewrite Hd; [by apply MoveNone| |by apply MoveNone].
    destruct (decide ((b, t) = k)) as [<-|Hk']; [|by apply MoveNone; [rewrite lookup_insert_ne|..]].
    eapply MoveAbandon; [done|by rewrite lookup_insert_eq|done..].
Qed.

(** 1 once the intent exists; once it has left PROPOSED; while it is
    ADOPTED. *)
Definition existsLevel (k : string * string) (t : gmap (string * string) intentRow) : Z := if t !! k then 1 else 0.
Definition settledLevel (k : string * string) (t : gmap (string * string) intentRow) : Z :=
  match t !! k with Some r => if bool_decide (wi_state r = "PROPOSED") then 0 else 1 | None => 0 end.
Definition adoptedLevel (k : string * string) (t : gmap (string * string) intentRow) : Z :=
  match t !! k with Some r => if bool_decide (wi_state r = "ADOPTED") then 1 else 0 | None => 0 end.

Lemma intentMove_levels k t t1 c a : intentMove k t t1 c a ->
  existsLevel k t1 - existsLevel k t = Z.b2z c /\
  Z.b2z a <= settledLevel k t1 - settledLevel k t /\
  adoptedLevel k t1 - adoptedLevel k t <= Z.b2z a.
Proof.
  unfold existsLevel, settledLevel, adoptedLevel.
  destruct 1 as [-> -> ->|row -> -> Hr -> ->|row row1 -> Hr -> Hr1 -> ->|row row1 -> -> Hr1 -> ->];
    cbn [Z.b2z]; repeat case_bool_decide; subst; try congruence; lia.
Qed.

Ltac tally_step Hm := let Ho := fresh in intros ? ? ? ? _ Ho; apply Hm in Ho; split; [exact I|unfold Z.b2z in *; lia].

(** C31: However the calls on write intents are interleaved and whichever of
    their statements fail, an intent that does not exist yet is created at most
    once and adopted at most once, never adopted without having been created,
    and it is in state ADOPTED only if a call of [AdoptWriteIntent] reported so. *)
Theorem intents_settle_once k d l d' : runs runIntent write_intents d l d' -> write_intents d !! k = None ->
  tally (adopts k) l <= tally (creates k) l <= 1 /\
  (forall row, write_intents d' !! k = Some row -> tally (creates k) l = 1 /\
     (wi_state row = "ADOPTED" -> tally (adopts k) l = 1)).
Proof.
  intros Hr Hk.
  pose proof (fun o d d1 r Ho => intentMove_levels k _ _ _ _ (intent_moves k o d d1 r Ho)) as Hm.
  assert (H1 : tally (creates k) l <= existsLevel k (write_intents d') - existsLevel k (write_intents d))
    by (apply (runs_tally_le runIntent _ (fun _ => True)); [tally_step Hm|exact Hr|exact I]).
  assert (H2 : existsLevel k (write_intents d') - existsLevel k (write_intents d) <= tally (creates k) l)
    by (apply (runs_tally_ge runIntent _ (fun _ => True)); [tally_step Hm|exact Hr|exact I]).
  assert (H3 : tally (adopts k) l <= settledLevel k (write_intents d') - settledLevel k (write_intents d))
    by (apply (runs_tally_le runIntent _ (fun _ => True)); [tally_step Hm|exact Hr|exact I]).
  assert (H4 : adoptedLevel k (write_intents d') - adoptedLevel k (write_intents d) <= tally (adopts k) l)
    by (apply (runs_tally_ge runIntent _ (fun _ => True)); [tally_step Hm|exact Hr|exact I]).
  clear Hm Hr. unfold existsLevel, settledLevel, adoptedLevel in *. rewrite Hk in *.
  destruct (write_intents d' !! k) as [row|] eqn:Hd'.
  - split; [repeat case_bool_decide; lia|]. intros ? [= <-]. split; [lia|]. intros Ha. rewrite bool_decide_true in H4 by done.
    repeat case_bool_decide; lia.
  - split; [lia|done].
Qed.

(** ** The erasure ledger: generations *)
Definition generations (entityType entityID : string) (l : list erasureRow) : list Z :=
  map er_erasure_generation (List.filter (sameEntity entityType entityID) l).
Definition ledgerOk (l : list erasureRow) : Prop :=
  forall ty i, generations ty i l = seqZ 1 (len (generations ty i l)).

(** (type, id, tenant, kind) of a call. *)
Definition erase (o : string * string * string * string) : MDB unit :=
  let '(ty, i, tenant, kind) := o in RecordErasure ty i tenant kind.
Definition erases (ty i : string) (o : string * string * string * string) (r : result unit) : bool :=
  let '(ty', i', _, _) := o in is_Ok r && bool_decide (ty' = ty) && bool_decide (i' = i).

Lemma maxGeneration_seq ty i l n m : generations ty i l = seqZ m (Z.of_nat n) ->
  maxGeneration ty i l = if bool_decide (n = 0%nat) then None else Some (m + Z.of_nat n - 1).
Proof.
  revert n m. induction l as [|r l IH]; intros n m; cbn.
  - destruct n; [done|]. by rewrite seqZ_cons by lia.
  - fold (maxGeneration ty i l). unfold generations in *. cbn. destruct (sameEntity ty i r); [|by apply IH].
    destruct n as [|n]; [done|]. rewrite seqZ_cons by lia. cbn [map]. intros [= -> Hl].
    replace (Z.pred (Z.of_nat (S n))) with (Z.of_nat n) in Hl by lia. rewrite (IH _ _ Hl).
    repeat case_bool_decide; try done; f_equal; lia.
Qed.

Lemma generations_app ty i l k : generations ty i (l ++ k) = generations ty i l ++ generations ty i k.
Proof. unfold generations. by rewrite List.filter_app, map_app. Qed.

Lemma ledger_max ty i l : ledgerOk l ->
  nextGeneration ty i l = len (generations ty i l) + 1 /\
  default 0 (maxGeneration ty i l) = len (generations ty i l).
Proof.
  intros Hl. unfold nextGeneration. specialize (Hl ty i). unfold len in *. apply maxGeneration_seq in Hl. rewrite Hl.
  case_bool_decide; cbn; lia.
Qed.

Lemma erase_step o d d1 r : ledgerOk (erasure_ledger d) -> erase o d = (d1, r) ->
  ledgerOk (erasure_ledger d1) /\
  (exists k, erasure_ledger d1 = erasure_ledger d ++ k) /\
  forall ty i, len (generations ty i (erasure_ledger d1)) - len (generations ty i (erasure_ledger d)) =
    Z.b2z (erases ty i o r).
Proof.
  destruct o as [[[ty' i'] tn] kd]. intros Hl Hs. cbn in Hs. unfold RecordErasure, newErasure, insertErasure in Hs.
  apply stmt_cases in Hs as [(e & fs & _ & -> & ->)|(fs & Hs)].
  { split; [done|]. split; [exists []; by rewrite app_nil_r|]. intros ty i. by rewrite Z.sub_diag. }
  unfold mbind, M_bind, bind, gets, fail_if, modify, throw, ret in Hs. cbn [id] in Hs.
  destruct (ledger_max ty' i' _ Hl) as [Hg _]. cbn [erasure_ledger upd eta_expand eta_db] in Hs.
  rewrite Hg in Hs. destruct (int32 _); injection Hs as <- <-; cbn [erasure_ledger upd eta_expand eta_db erases is_Ok negb andb].
  2: { split; [done|]. split; [exists []; by rewrite app_nil_r|]. intros ty i. by rewrite Z.sub_diag. }
  set (n := len (generations ty' i' (erasure_ledger d))).
  assert (Hgen : forall ty i, generations ty i (erasure_ledger d ++ [mkErasureRow ty' i' tn kd (db_clock d) (n + 1)]) =
    generations ty i (erasure_ledger d) ++ if bool_decide (ty' = ty) && bool_decide (i' = i) then [n + 1] else []).
  { intros ty i. rewrite generations_app. unfold generations at 2. cbn. unfold sameEntity. cbn.
    by destruct (_ && _). }
  split; [|split; [by eexists|]].
  - intros ty i. rewrite Hgen, len_app. destruct (_ && _) eqn:He; [|by rewrite app_nil_r, Z.add_0_r].
    bool_hyps. subst. fold n. rewrite (Hl ty i) at 1. fold n. change (len [n + 1]) with 1.
    assert (Hn : 0 <= n) by apply len_nonneg. rewrite seqZ_app by lia. f_equal.
    rewrite (Z.add_comm n). rewrite (seqZ_cons _ 1) by lia. done.
  - intros ty i. rewrite Hgen, len_app. destruct (_ && _); [change (len [n + 1]) with 1|change (len (@nil Z)) with 0]; cbn [Z.b2z]; lia.
Qed.

(** Calls one after another: the erasures of an entity carry the generations
    1, 2, .. in the order they were recorded, one for each call that
    succeeded. *)
Lemma serial_generations d l d' ty i : runs erase erasure_ledger d l d' -> erasure_ledger d = [] ->
  generations ty i (erasure_ledger d') = seqZ 1 (tally (erases ty i) l) /\
  (forall d2 g, LatestErasureGeneration ty i d' = (d2, Ok g) -> g = tally (erases ty i) l) /\
  (forall o d2 r, erase o d' = (d2, r) -> exists k, erasure_ledger d2 = erasure_ledger d' ++ k).
Proof.
  intros Hr Hd.
  assert (H0 : ledgerOk (erasure_ledger d)) by (intros ? ?; by rewrite Hd).
  pose proof (runs_inv _ _ ledgerOk d l d' ltac:(intros; by eapply erase_step) Hr H0) as Hl.
  assert (Hn : len (generations ty i (erasure_ledger d')) = tally (erases ty i) l).
  { pose (lv := fun t => len (generations ty i t)).
    assert (H1 : tally (erases ty i) l <= lv (erasure_ledger d') - lv (erasure_ledger d)).
    { apply (runs_tally_le erase _ ledgerOk); [|done..]. intros o d0 d1 r Hp Ho.
      destruct (erase_step _ _ _ _ Hp Ho) as (Hp1 & _ & Hc). split; [done|]. by rewrite <- (Hc ty i). }
    assert (H2 : lv (erasure_ledger d') - lv (erasure_ledger d) <= tally (erases ty i) l).
    { apply (runs_tally_ge erase _ ledgerOk); [|done..]. intros o d0 d1 r Hp Ho.
      destruct (erase_step _ _ _ _ Hp Ho) as (Hp1 & _ & Hc). split; [done|]. by rewrite <- (Hc ty i). }
    unfold lv in *. rewrite Hd in H1, H2. change (len (generations ty i [])) with 0 in *. lia. }
  rewrite <- Hn. split; [apply Hl|]. split.
  - intros d2 g [fs [= _ <-]]%stmt_Ok. by apply ledger_max.
  - intros o d2 r Ho. by eapply erase_step.
Qed.

(** ** The erasure ledger under concurrent calls *)
Record erasing := mkErasing { er_db : db; er_open : gmap nat erasureRow }.
Inductive erasureEvent :=
| EBegin (n : nat) (call : string * string * string * string)
| ECommit (n : nat)
| EAbort (n : nat).
Definition callOf (e : erasureEvent) : nat := match e with EBegin n _ | ECommit n | EAbort n => n end.
(** A statement reads what is committed when it begins, and its row is seen
    when it commits. *)
Definition erasureStep (e : erasureEvent) (s : erasing) : option erasing :=
  match e with
  | EBegin n (ty, i, tenant, kind) =>
      match er_open s !! n, newErasure ty i tenant kind (er_db s) with
      | Some _, _ => None
      | None, (d, Ok row) => Some (mkErasing d (<[n := row]> (er_open s)))
      | None, (d, Err _) => Some (mkErasing d (er_open s))
      end
  | ECommit n => row ← er_open s !! n; Some (mkErasing (insertErasure row (er_db s)).1 (delete n (er_open s)))
  | EAbort n => _ ← er_open s !! n; Some (mkErasing (er_db s) (delete n (er_open s)))
  end.
Fixpoint erasureRun (es : list erasureEvent) (s : erasing) : option erasing :=
  match es with
  | [] => Some s
  | e :: es' => s' ← erasureStep e s; erasureRun es' s'
  end.

Definition latest (ty i : string) (l : list erasureRow) : Z := default 0 (maxGeneration ty i l).
(** The generations of an entity are 1 to the latest. *)
Definition covered (ty i : string) (l : list erasureRow) : Prop :=
  0 <= latest ty i l /\ forall g, g ∈ generations ty i l <-> 1 <= g <= latest ty i l.
Definition entityOf (r : erasureRow) (ty i : string) : Prop := sameEntity ty i r = true.

Lemma maxGeneration_spec ty i l :
  match maxGeneration ty i l with
  | None => generations ty i l = []
  | Some m => m ∈ generations ty i l /\ forall g, g ∈ generations ty i l -> g <= m
  end.
Proof.
  induction l as [|r l IH]; [done|]. cbn [maxGeneration foldr]. fold (maxGeneration ty i l). unfold generations in *. cbn [List.filter].
  destruct (sameEntity ty i r); [|done]. cbn [map]. destruct (maxGeneration ty i l) as [m|].
  - destruct IH as [Hm Hle]. split.
    + destruct (Z.max_spec (er_erasure_generation r) m) as [[_ ->]|[_ ->]]; [by right|left].
    + intros g Hg. apply elem_of_cons in Hg as [->|Hg]; [lia|]. apply Hle in Hg. lia.
  - rewrite IH. split; [left|]. intros g Hg. apply list_elem_of_singleton in Hg as ->. done.
Qed.

Lemma generations_one ty i r : generations ty i [r] = if sameEntity ty i r then [er_erasure_generation r] else [].
Proof. unfold generations. cbn. by destruct (sameEntity ty i r). Qed.

Lemma latest_next ty i l : nextGeneration ty i l = latest ty i l + 1.
Proof. unfold nextGeneration, latest. by destruct (maxGeneration ty i l). Qed.

(** Committing a row whose generation the latest one allows. *)
Lemma latest_commit ty i l r : covered ty i l ->
  (entityOf r ty i -> 1 <= er_erasure_generation r <= latest ty i l + 1) ->
  covered ty i (l ++ [r]) /\
  latest ty i (l ++ [r]) = (if sameEntity ty i r then Z.max (latest ty i l) (er_erasure_generation r) else latest ty i l).
Proof.
  intros [H0 Hc] Hr. unfold entityOf in Hr.
  assert (Hl : latest ty i (l ++ [r]) = (if sameEntity ty i r then Z.max (latest ty i l) (er_erasure_generation r) else latest ty i l)).
  { pose proof (maxGeneration_spec ty i (l ++ [r])) as Hm. unfold latest at 1. rewrite generations_app, generations_one in Hm.
    destruct (sameEntity ty i r).
    - specialize (Hr eq_refl). destruct (maxGeneration ty i (l ++ [r])) as [m|]; [|by destruct (generations ty i l)].
      change (default 0 (Some m)) with m. destruct Hm as [Hin Hle]. assert (er_erasure_generation r <= m) by (apply Hle; set_solver).
      apply elem_of_app in Hin as [Hin%Hc|Hin]; [|apply list_elem_of_singleton in Hin as ->].
      + destruct (decide (latest ty i l = 0)); [lia|]. assert (latest ty i l <= m) by (apply Hle, elem_of_app; left; apply Hc; lia). lia.
      + destruct (decide (latest ty i l = 0)); [lia|]. assert (latest ty i l <= er_erasure_generation r) by (apply Hle, elem_of_app; left; apply Hc; lia). lia.
    - rewrite app_nil_r in Hm. destruct (maxGeneration ty i (l ++ [r])) as [m|].
      + change (default 0 (Some m)) with m. destruct Hm as [Hin%Hc Hle]. assert (latest ty i l <= m) by (apply Hle, Hc; lia). lia.
      + change (default 0 (@None Z)) with 0. destruct (decide (latest ty i l = 0)) as [|Hn]; [done|]. assert (Hin : latest ty i l ∈ generations ty i l) by (apply Hc; lia).
        rewrite Hm in Hin. by apply not_elem_of_nil in Hin. }
  split; [|done]. unfold covered. rewrite Hl, generations_app, generations_one. destruct (sameEntity ty i r).
  - specialize (Hr eq_refl). split; [lia|]. intros g. rewrite elem_of_app, list_elem_of_singleton, Hc. lia.
  - split; [done|]. intros g. by rewrite app_nil_r.
Qed.

(** The invariant: every ledger is covered, every open row may be committed. *)
Definition erasingOk (s : erasing) : Prop := forall ty i, covered ty i (erasure_ledger (er_db s)) /\
  forall n r, er_open s !! n = Some r -> entityOf r ty i -> 1 <= er_erasure_generation r <= latest ty i (erasure_ledger (er_db s)) + 1.

Lemma newErasure_inv ty i tn kd d d' r : newErasure ty i tn kd d = (d', r) ->
  d' = d /\ (forall row, r = Ok row -> row = mkErasureRow ty i tn kd (db_clock d) (latest ty i (erasure_ledger d) + 1)).
Proof.
  unfold newErasure, gets, fail_if, throw, ret, mbind, M_bind, bind. cbn [id]. rewrite latest_next.
  destruct (negb _); intros [= <- <-]; split; [done| |done|]; intros row; [done|]. by intros [= <-].
Qed.

Lemma erasureStep_ok e s s' : erasingOk s -> erasureStep e s = Some s' ->
  erasingOk s' /\ (exists k, erasure_ledger (er_db s') = erasure_ledger (er_db s) ++ k) /\
  (forall n, callOf e <> n -> er_open s' !! n = er_open s !! n).
Proof.
  intros Hok Hs. destruct e as [n [[[ty' i'] tn] kd]|n|n]; cbn [erasureStep callOf] in *.
  - destruct (er_open s !! n) eqn:Hn; [done|]. destruct (newErasure ty' i' tn kd (er_db s)) as [d' r] eqn:He.
    apply newErasure_inv in He as [-> Hrow]. destruct r as [row|]; injection Hs as <-.
    2: { split; [done|]. split; [exists []; by rewrite app_nil_r|done]. }
    split; [|split; [exists []; by rewrite app_nil_r|intros k Hk; by apply lookup_insert_ne]].
    intros ty i. destruct (Hok ty i) as [Hc Ho]. split; [done|]. cbn [er_open er_db]. intros k r Hr He.
    destruct (decide (n = k)) as [<-|Hk]; [|rewrite lookup_insert_ne in Hr by done; by eapply Ho].
    rewrite lookup_insert_eq in Hr. injection Hr as <-. rewrite (Hrow row eq_refl) in He |- *. unfold entityOf, sameEntity in He.
    cbn in He |- *. bool_hyps. subst. destruct Hc. lia.
  - destruct (er_open s !! n) as [row|] eqn:Hn; [|done]. injection Hs as <-. split; [|split; [by eexists|intros k Hk; by apply lookup_delete_ne]].
    intros ty i. destruct (Hok ty i) as [Hc Ho]. destruct (latest_commit ty i _ row Hc (Ho n row Hn)) as [Hc' Hl'].
    split; [done|]. cbn [er_open er_db]. intros k r Hr He. apply lookup_delete_Some in Hr as [_ Hr].
    change (1 <= er_erasure_generation r <= latest ty i (erasure_ledger (er_db s) ++ [row]) + 1). rewrite Hl'.
    specialize (Ho k r Hr He). destruct (sameEntity ty i row); lia.
  - destruct (er_open s !! n) as [row|] eqn:Hn; [|done]. injection Hs as <-.
    split; [|split; [exists []; by rewrite app_nil_r|intros k Hk; by apply lookup_delete_ne]].
    intros ty i. destruct (Hok ty i) as [Hc Ho]. split; [done|]. cbn [er_open er_db]. intros k r [_ Hr]%lookup_delete_Some. by eapply Ho.
Qed.

Lemma erasureRun_ok es s s' : erasingOk s -> erasureRun es s = Some s' ->
  erasingOk s' /\ (exists k, erasure_ledger (er_db s') = erasure_ledger (er_db s) ++ k) /\
  (forall n, Forall (fun e => callOf e <> n) es -> er_open s' !! n = er_open s !! n).
Proof.
  revert s. induction es as [|e es IH]; intros s Hok Hr; cbn in Hr.
  - injection Hr as <-. split; [done|]. split; [exists []; by rewrite app_nil_r|done].
  - destruct (erasureStep e s) as [s1|] eqn:He; [|done]. cbn in Hr. destruct (erasureStep_ok _ _ _ Hok He) as (Hok1 & [k1 Hk1] & Hn1).
    destruct (IH _ Hok1 Hr) as (Hok2 & [k2 Hk2] & Hn2). split; [done|]. split; [exists (k1 ++ k2); by rewrite Hk2, Hk1, app_assoc|].
    intros n [Hen Hes]%Forall_cons. by rewrite Hn2, Hn1.
Qed.

Lemma covered_count ty i l : covered ty i l ->
  latest ty i l <= len (generations ty i l) /\ (latest ty i l = len (generations ty i l) <-> NoDup (generations ty i l)).
Proof.
  intros [H0 Hc]. set (n := latest ty i l) in *. set (gs := generations ty i l) in *.
  assert (Hsub : seqZ 1 n ⊆+ gs).
  { apply NoDup_submseteq; [apply NoDup_seqZ|]. intros g Hg. apply Hc. apply elem_of_seqZ in Hg. lia. }
  pose proof (submseteq_length _ _ Hsub) as Hlen. rewrite length_seqZ in Hlen. unfold len. split; [lia|]. split.
  - intros He. rewrite <- (submseteq_length_Permutation _ _ Hsub); [apply NoDup_seqZ|]. rewrite length_seqZ. lia.
  - intros Hnd. assert (Hp : gs ≡ₚ seqZ 1 n).
    { apply NoDup_Permutation; [done|apply NoDup_seqZ|]. intros g. rewrite Hc, elem_of_seqZ. lia. }
    rewrite Hp, length_seqZ. lia.
Qed.

(** C32: calls of [RecordErasure] at the same time, in any interleaving of
    their reads and commits, on a ledger that began empty. The generations of
    an entity are 1, 2, .. up to the latest without a gap; there are at least
    as many erasures as the latest generation, and exactly as many when no
    two calls recorded the same one (calls that overlap can:
    [concurrent_erasures]). A call that begins now gets, when it commits, the
    generation after the latest one, above all that is committed, whatever
    other calls do in between, and the ledger only grows. *)
Theorem erasure_generations es d s ty i : erasure_ledger d = [] -> erasureRun es (mkErasing d ∅) = Some s ->
  let l := erasure_ledger (er_db s) in
  (forall g, g ∈ generations ty i l <-> 1 <= g <= latest ty i l) /\
  (forall d2 g, LatestErasureGeneration ty i (er_db s) = (d2, Ok g) -> g = latest ty i l) /\
  latest ty i l <= len (generations ty i l) /\
  (latest ty i l = len (generations ty i l) <-> NoDup (generations ty i l)) /\
  (forall n tn kd s1 es' s2 s3, erasureStep (EBegin n (ty, i, tn, kd)) s = Some s1 -> Forall (fun e => callOf e <> n) es' ->
     erasureRun es' s1 = Some s2 -> erasureStep (ECommit n) s2 = Some s3 -> exists k row,
     erasure_ledger (er_db s3) = l ++ k ++ [row] /\ sameEntity ty i row = true /\ er_erasure_generation row = latest ty i l + 1).
Proof.
  intros Hd Hr l.
  assert (H0 : erasingOk (mkErasing d ∅)).
  { intros ty' i'. cbn [er_db]. rewrite Hd. split; [|done]. split; [done|]. intros g. cbn. rewrite elem_of_nil. lia. }
  destruct (erasureRun_ok _ _ _ H0 Hr) as (Hok & _ & _). destruct (Hok ty i) as [Hc Ho]. split; [apply Hc|].
  split; [by intros d2 g [fs [= _ <-]]%stmt_Ok|].
  destruct (covered_count ty i l Hc) as [H1 H2]. split; [done|]. split; [done|].
  intros n tn kd s1 es' s2 s3 Hb Hes Hr2 Hcm. destruct (erasureStep_ok _ _ _ Hok Hb) as (Hok1 & _ & _).
  destruct (erasureRun_ok _ _ _ Hok1 Hr2) as (_ & [k Hk] & Hn). specialize (Hn n Hes). cbn [erasureStep] in *.
  destruct (er_open s !! n) eqn:Hfree; [done|]. destruct (newErasure ty i tn kd (er_db s)) as [d' r] eqn:He.
  apply newErasure_inv in He as [-> Hrow]. destruct r as [row|]; injection Hb as <-; cbn [er_open er_db] in *.
  2: { by rewrite Hn, Hfree in Hcm. }
  rewrite Hn, lookup_insert_eq in Hcm. injection Hcm as <-. exists k, row. split.
  - cbn. rewrite Hk. by rewrite <- app_assoc.
  - rewrite (Hrow row eq_refl). unfold sameEntity. cbn. by rewrite !bool_decide_true.
Qed.

(** Two calls that overlap record the same generation. *)
Example concurrent_erasures :
  let call := ("file", "1", "t", "HARD_PURGE") in
  (fun s => generations "file" "1" (erasure_ledger (er_db s))) <$>
    erasureRun [EBegin 0 call; EBegin 1 call; ECommit 0; ECommit 1; EBegin 2 call; ECommit 2] (mkErasing (emptyDb 1000) ∅) = Some [1; 1; 2].
Proof. reflexivity. Qed.

(** ** The outbox: deliveries *)
Inductive outboxOp :=
| OpEnqueue (eventType : string) (payload : RawMessage)
| OpClaim (locked : gset Z) (lim : Z)
| OpComplete (id : Z)
| OpFail (id : Z) (lastError : string) (backoff : Z).
Definition runOutbox (o : outboxOp) : MDB (list OutboxEvent) :=
  match o with
  | OpEnqueue ty j => EnqueueOutbox ty j;; ret []
  | OpClaim locked lim => ClaimOutboxEvents locked lim
  | OpComplete id => CompleteOutboxEvent id;; ret []
  | OpFail id e b => FailOutboxEvent id e b;; ret []
  end.
Definition claims (id : Z) (o : outboxOp) (r : result (list OutboxEvent)) : bool :=
  match o, r with OpClaim _ _, Ok evs => bool_decide (id ∈ map o_ID evs) | _, _ => false end.
Definition fails (id : Z) (o : outboxOp) (r : result (list OutboxEvent)) : bool :=
  match o with OpFail id' _ _ => is_Ok r && bool_decide (id' = id) | _ => false end.

Definition outboxTable (d : db) : Z * gmap Z outboxRow := (outbox_seq d, outbox d).
Definition outboxOk (t : Z * gmap Z outboxRow) : Prop := forall id r, t.2 !! id = Some r -> id <= t.1.

(** What a call does to the event at a number. *)
Inductive eventMove (id : Z) (t t1 : Z * gmap Z outboxRow) (c f : bool) : Prop :=
| EvSame : t1.2 !! id = t.2 !! id -> c = false -> f = false -> eventMove id t t1 c f
| EvNew row : t.2 !! id = None -> t1.2 !! id = Some row -> ob_state row = "PENDING" -> ob_last_error row = None ->
    c = false -> f = false -> eventMove id t t1 c f
| EvClaimed row row1 : t.2 !! id = Some row -> ob_state row = "PENDING" -> is_Some (ob_last_error row) ->
    t1.2 !! id = Some row1 -> ob_state row1 = "IN_PROGRESS" -> ob_last_error row1 = ob_last_error row ->
    c = true -> f = false -> eventMove id t t1 c f
| EvDone row row1 : t.2 !! id = Some row -> t1.2 !! id = Some row1 -> ob_state row1 = "DONE" ->
    ob_last_error row1 = ob_last_error row -> c = false -> f = false -> eventMove id t t1 c f
| EvFailed : c = false -> f = true -> eventMove id t t1 c f.

Lemma scanAll_Forall2 {X A} (scan : X -> result A) l as' : scanAll scan l = Ok as' ->
  Forall2 (fun x a => scan x = Ok a) l as'.
Proof.
  revert as'. induction l as [|x l IH]; intros as' Hs; cbn in Hs; [injection Hs as <-; constructor|].
  destruct (scan x) as [a|] eqn:Hx; [|done]. destruct (scanAll scan l) as [l'|] eqn:Hl; [|done].
  injection Hs as <-. constructor; [done|by apply IH].
Qed.

Lemma scan_ids rows evs : scanAll scanEvent rows = Ok evs ->
  map o_ID evs = rows.*1 /\ forall id r, (id, r) ∈ rows -> is_Some (ob_last_error r).
Proof.
  intros Hs%scanAll_Forall2. induction Hs as [|[i r] e rows evs He _ IH]; cbn; [by split; [|set_solver]|].
  unfold scanEvent in He. cbn in He. destruct (ob_last_error r) as [le|] eqn:Hle; [|done]. injection He as <-.
  destruct IH as [-> IH]. split; [done|]. intros id r'. rewrite elem_of_cons. intros [[= -> ->]|Hin]; [by eexists|].
  by eapply IH.
Qed.

Lemma markInProgress_Ok ids d d1 u : markInProgress ids d = (d1, Ok u) -> outbox_seq d1 = outbox_seq d /\
  forall id, outbox d1 !! id = if bool_decide (id ∈ ids)
    then (fun r => r <| ob_state := "IN_PROGRESS" |>) <$> outbox d !! id else outbox d !! id.
Proof.
  revert d. induction ids as [|i ids IH]; intros d; cbn [markInProgress].
  { intros [= <- _]. split; [done|]. intros id. by rewrite bool_decide_false by set_solver. }
  intros Hm. apply bind_Ok_inv in Hm as (n & d2 & Hu & Hm).
  pose proof Hu as Hseq. apply (update_frame outbox_seq) in Hseq; [|done..]. rewrite <- Hseq.
  destruct (IH _ Hm) as [-> Hl]. split; [done|]. intros id. rewrite Hl. clear Hl Hm IH Hseq.
  apply update_stmt in Hu as [(e & [=] & _)|[(row & fs & _ & Hk & _ & ->)|(_ & -> & Hn)]]; [|..|done|done].
  - destruct (decide (i = id)) as [->|Hi].
    + rewrite lookup_insert_eq, Hk, (bool_decide_true (id ∈ id :: ids)) by set_solver. by case_bool_decide.
    + rewrite lookup_insert_ne by done. repeat case_bool_decide; try done; set_solver.
  - destruct (decide (i = id)) as [->|Hi].
    + destruct (outbox d !! id) as [row|] eqn:Hk; [by specialize (Hn row eq_refl)|]. by repeat case_bool_decide.
    + repeat case_bool_decide; try done; set_solver.
Qed.

Definition window (locked : gset Z) (lim : Z) (d : db) : list (Z * outboxRow) :=
  limit lim (orderBy byId (selectRows (outbox d) (claimable locked (db_clock d)))).

(** A claim that succeeds has read the window and marked what it returns. *)
Lemma claim_Ok locked lim d d1 evs : ClaimOutboxEvents locked lim d = (d1, Ok evs) ->
  map o_ID evs = (window locked lim d).*1 /\
  (forall id r, (id, r) ∈ window locked lim d -> is_Some (ob_last_error r)) /\
  outbox_seq d1 = outbox_seq d /\
  forall id, outbox d1 !! id = if bool_decide (id ∈ map o_ID evs)
    then (fun r => r <| ob_state := "IN_PROGRESS" |>) <$> outbox d !! id else outbox d !! id.
Proof.
  intros (fs & d2 & Hb & Hsame)%transaction_Ok. apply bind_Ok_inv in Hb as (rows & d3 & Hq & Hb).
  apply bind_Ok_inv in Hb as (evs' & d4 & Hs & Hb). injection Hs as <- Hs.
  apply bind_Ok_inv in Hb as (u & d5 & Hm & [= <- <-]).
  apply stmt_Ok in Hq as [fs' Hq]. unfold limitTo in Hq.
  unfold mbind, M_bind, bind, gets, fail_if, mret, M_ret, ret, throw in Hq. cbn [id] in Hq.
  destruct (lim <? 0); [done|]. injection Hq as <- <-.
  destruct (scan_ids _ _ Hs) as [Hids Hle]. split; [exact Hids|]. split; [exact Hle|].
  destruct (markInProgress_Ok _ _ _ _ Hm) as [Hseq Hl]. rewrite Hsame. split; [exact Hseq|exact Hl].
Qed.

Lemma elem_of_window locked lim d id r : (id, r) ∈ window locked lim d ->
  outbox d !! id = Some r /\ ob_state r = "PENDING" /\ ob_available_at r <= db_clock d /\ id ∉ locked.
Proof.
  unfold window. intros Hin%(limit_sub (fun x : Z * outboxRow => x.1)).
  apply elem_of_selectRows in Hin as [Hk Hc]. unfold claimable in Hc. by bool_hyps.
Qed.

Lemma event_enqueue id ty j d d1 r : outboxOk (outboxTable d) -> EnqueueOutbox ty j d = (d1, r) ->
  outboxOk (outboxTable d1) /\ eventMove id (outboxTable d) (outboxTable d1) false false.
Proof.
  intros Hok Hs. apply stmt_cases in Hs as [(e & fs & _ & -> & _)|(fs & Hs)]; [split; [done|by apply EvSame]|].
  unfold jsonParam, modify in Hs. unfold mbind, M_bind, bind in Hs. destruct j as [j|]; injection Hs as <- _;
    [|split; [done|by apply EvSame]].
  unfold outboxTable, outboxOk in *. cbn [outbox outbox_seq upd eta_expand eta_db fst snd] in *. split.
  - intros id' row [[<- _]|[_ Hl]]%lookup_insert_Some; [done|]. specialize (Hok _ _ Hl). lia.
  - destruct (decide (outbox_seq d + 1 = id)) as [<-|Hi].
    + eapply EvNew; cbn [snd]; [|by rewrite lookup_insert_eq|done..]. apply eq_None_not_Some. intros [row Hr].
      specialize (Hok _ _ Hr). lia.
    + apply EvSame; [|done..]. cbn [snd]. by rewrite lookup_insert_ne.
Qed.

Lemma outboxOk_dom (t t1 : Z * gmap Z outboxRow) : outboxOk t -> t1.1 = t.1 ->
  (forall id, is_Some (t1.2 !! id) -> is_Some (t.2 !! id)) -> outboxOk t1.
Proof. intros Hok Hs Hd id r Hr. rewrite Hs. destruct (Hd id) as [r0 Hr0]; [by eexists|]. by eapply Hok. Qed.

(** One UPDATE of an event by its number. *)
Lemma event_update id i p f d d1 r : outboxOk (outboxTable d) -> stmt (updateEvent i p f) d = (d1, r) ->
  outboxOk (outboxTable d1) /\ (i <> id -> outbox d1 !! id = outbox d !! id) /\
  (outbox d1 !! id = outbox d !! id \/ exists row fs, is_Ok r = true /\ outbox d !! id = Some row /\
     outbox d1 !! id = Some (f (d <| db_faults := fs |>) row)).
Proof.
  intros Hok Hs. pose proof Hs as Hseq. apply (update_frame outbox_seq) in Hseq; [|done..].
  apply update_stmt in Hs as [(e & _ & Hd)|[(row & fs & -> & Hk & _ & Hd)|(_ & Hd & _)]]; [|..|done|done].
  - split; [|by rewrite Hd; auto]. unfold outboxTable. by rewrite Hseq, Hd.
  - split; [|split].
    + apply (outboxOk_dom (outboxTable d)); [done|done|]. cbn. rewrite Hd. intros id'.
      destruct (decide (i = id')) as [<-|Hi]; [by rewrite Hk|by rewrite lookup_insert_ne].
    + intros Hi. by rewrite Hd, lookup_insert_ne.
    + destruct (decide (i = id)) as [<-|Hi]; [right|left; by rewrite Hd, lookup_insert_ne].
      exists row, fs. by rewrite Hd, lookup_insert_eq.
  - split; [|by rewrite Hd; auto]. unfold outboxTable. by rewrite Hseq, Hd.
Qed.

Lemma event_claim id locked lim d d1 r : outboxOk (outboxTable d) -> ClaimOutboxEvents locked lim d = (d1, r) ->
  outboxOk (outboxTable d1) /\ eventMove id (outboxTable d) (outboxTable d1) (claims id (OpClaim locked lim) r) false.
Proof.
  intros Hok Hc. destruct r as [evs|e].
  2: { apply transaction_atomic in Hc. unfold outboxTable. rewrite Hc. split; [done|by apply EvSame]. }
  apply claim_Ok in Hc as (Hids & Hle & Hseq & Hl). split.
  - apply (outboxOk_dom (outboxTable d)); [done|done|]. cbn. intros id'. rewrite Hl. case_bool_decide; [|done].
    by rewrite fmap_is_Some.
  - cbn [claims]. specialize (Hl id). case_bool_decide as Hin; [|by apply EvSame].
    rewrite Hids in Hin. apply list_elem_of_fmap in Hin as ([id' row] & -> & Hin). cbn [fst] in *.
    destruct (elem_of_window _ _ _ _ _ Hin) as (Hrow & Hp & _). specialize (Hle _ _ Hin).
    rewrite Hrow in Hl. by eapply EvClaimed.
Qed.

Lemma stmt_check {A} (chk : db -> bool) e (m : MDB A) d d' r : (forall fs, chk (d <| db_faults := fs |>) = chk d) ->
  stmt (x ← gets (fun d => d); fail_if (chk x) e;; m) d = (d', r) ->
  (exists e', r = Err e' /\ sameTables d d') \/ stmt m d = (d', r).
Proof.
  intros Hc. unfold stmt. destruct (db_faults d) as [|[e'|] fs]; unroll.
  - destruct (chk d); [|by right]. intros [= <- <-]. left. by exists e.
  - by right.
  - rewrite Hc. destruct (chk d); [|by right]. intros [= <- <-]. left. exists e. split; [done|apply sameTables_faults].
Qed.

Lemma event_fail id i le b d d1 r : outboxOk (outboxTable d) -> FailOutboxEvent i le b d = (d1, r) ->
  outboxOk (outboxTable d1) /\ eventMove id (outboxTable d) (outboxTable d1) false (is_Ok r && bool_decide (i = id)).
Proof.
  intros Hok. unfold FailOutboxEvent. intros Hr. apply bind_cases in Hr as [(e & Hs & ->)|(u & d2 & Hs & [= <- <-])].
  - apply stmt_check in Hs as [(e' & _ & Hs)|Hs]; [| |done].
    + unfold outboxTable. rewrite Hs. split; [done|by apply EvSame].
    + destruct (event_update id _ _ _ _ _ _ Hok Hs) as (Hok1 & _ & [Hid|(row & fs & Hf & _)]); [|done].
      split; [done|by apply EvSame].
  - apply stmt_check in Hs as [(e' & [=] & _)|Hs]; [|done].
    destruct (event_update id _ _ _ _ _ _ Hok Hs) as (Hok1 & Hne & _). split; [done|]. cbn [is_Ok andb].
    case_bool_decide as Hi; [by apply EvFailed|]. apply EvSame; [by apply Hne|done..].
Qed.

Lemma event_moves id o d d1 r : outboxOk (outboxTable d) -> runOutbox o d = (d1, r) ->
  outboxOk (outboxTable d1) /\ eventMove id (outboxTable d) (outboxTable d1) (claims id o r) (fails id o r).
Proof.
  intros Hok. destruct o as [ty j|locked lim|i|i e b]; cbn [runOutbox].
  - intros [(e & Hs & ->)|(u & d2 & Hs & [= <- <-])]%bind_cases; by eapply event_enqueue.
  - by apply event_claim.
  - unfold CompleteOutboxEvent. unroll. destruct (stmt _ d) as [d2 r2] eqn:Hs.
    destruct (event_update id _ _ _ _ _ _ Hok Hs) as (Hok2 & Hne & Hid).
    destruct r2; intros [= <- <-]; (split; [done|]);
      (destruct Hid as [Hid|(row & fs & _ & Hrow & Hid)]; [by apply EvSame|by eapply EvDone]).
  - intros [(e' & Hs & ->)|(u & d2 & Hs & [= <- <-])]%bind_cases; by eapply (event_fail id) in Hs.
Qed.

(** 1 while the event can be claimed at some time without further reports. *)
Definition readyLevel (id : Z) (t : Z * gmap Z outboxRow) : Z :=
  match t.2 !! id with
  | Some r => match ob_last_error r with
              | Some _ => Z.b2z (bool_decide (ob_state r = "PENDING")) | None => 0 end
  | None => 0
  end.

Lemma readyLevel_range id t : 0 <= readyLevel id t <= 1.
Proof. unfold readyLevel. repeat case_match; try lia. by case_bool_decide. Qed.

Lemma eventMove_level id t t1 c f : eventMove id t t1 c f ->
  Z.b2z c - Z.b2z f <= - readyLevel id t1 - - readyLevel id t.
Proof.
  pose proof (readyLevel_range id t) as H0. pose proof (readyLevel_range id t1) as H1.
  destruct 1 as [Hs -> ->|row Hn Hr Hp He -> ->|row row1 Hr Hp [le He] Hr1 Hp1 He1 -> ->
    |row row1 Hr Hr1 Hp1 He1 -> -> | -> ->]; cbn [Z.b2z]; try lia.
  - unfold readyLevel in *. rewrite Hs in *. lia.
  - unfold readyLevel in H1 |- * at 1. rewrite Hr, He. lia.
  - assert (Ht : readyLevel id t = 1) by (unfold readyLevel; by rewrite Hr, He, Hp).
    assert (Ht1 : readyLevel id t1 = 0) by (unfold readyLevel; by rewrite Hr1, He1, He, Hp1). lia.
  - assert (Ht1 : readyLevel id t1 = 0) by (unfold readyLevel; rewrite Hr1, Hp1; by destruct (ob_last_error row1)). lia.
Qed.

(** However the calls of producers and workers on the outbox are
    interleaved, and whatever rows other transactions hold: an event is handed
    out at most as many times as a failure has been reported for it, so never
    twice for one report - and never a first time, because a new event has a
    NULL last_error that [ClaimOutboxEvents] reads into a Go string. *)
Lemma outbox_deliveries id d l d' : runs runOutbox outboxTable d l d' -> outboxOk (outboxTable d) ->
  outbox d !! id = None -> tally (claims id) l <= tally (fails id) l.
Proof.
  intros Hr Hok Hn.
  enough (tally (claims id) l - tally (fails id) l <= - readyLevel id (outboxTable d') - - readyLevel id (outboxTable d)).
  { pose proof (readyLevel_range id (outboxTable d')). unfold readyLevel in H at 2. cbn [outboxTable snd] in H.
    rewrite Hn in H. lia. }
  apply (runs_accounts runOutbox outboxTable outboxOk (fun t => - readyLevel id t)); [|done..].
  intros o d0 d1 r Hp Ho. destruct (event_moves id _ _ _ _ Hp Ho) as [Hp1 Hm]. split; [done|].
  by apply eventMove_level.
Qed.

(** A claim whose window, the due unlocked PENDING events with the least
    numbers, holds an event that never failed returns an error and changes
    nothing: no event of the window is handed out. *)
Lemma claim_fresh_fails locked lim d d' r id row : ClaimOutboxEvents locked lim d = (d', r) ->
  (id, row) ∈ window locked lim d -> ob_last_error row = None -> (exists e, r = Err e) /\ sameTables d d'.
Proof.
  intros Hc Hw Hn. destruct r as [evs|e].
  - apply claim_Ok in Hc as (_ & Hle & _). destruct (Hle _ _ Hw) as [le Hl]. by rewrite Hn in Hl.
  - split; [by exists e|]. by eapply transaction_atomic.
Qed.

(** ** Witnesses *)
Definition ex_md : db := emptyDb 1000.
Definition ex_intent : WriteIntent := mkWriteIntent "b" "t" 5 "ff".
Definition ex_intents := runAll runIntent
  [OpAdopt "b" "t"; OpCreate ex_intent; OpAdopt "b" "t"; OpCreate ex_intent; OpAdopt "b" "t"; OpAbandon "b" "t"] ex_md.

Lemma intents_settle_once_witness :
  tally (adopts ("b", "t")) ex_intents.2 = 1 /\ tally (creates ("b", "t")) ex_intents.2 <= 1.
Proof.
  destruct (intents_settle_once ("b", "t") ex_md ex_intents.2 ex_intents.1) as [H _].
  - exact (runAll_runs _ _ _ _).
  - reflexivity.
  - split; [vm_compute; reflexivity|exact (proj2 H)].
Defined.

(** Two calls that overlap, one given up, one of another entity, and one
    behind them. *)
Definition ex_call (i kind : string) : string * string * string * string := ("file", i, "t", kind).
Definition ex_erasures : list erasureEvent :=
  [EBegin 0 (ex_call "1" "SOFT_DELETE"); EBegin 1 (ex_call "1" "HARD_PURGE"); EBegin 2 (ex_call "2" "SOFT_DELETE"); ECommit 1;
   EAbort 0; ECommit 2].

Lemma erasure_generations_witness : exists s, erasureRun ex_erasures (mkErasing ex_md ∅) = Some s /\
  (forall g, g ∈ generations "file" "1" (erasure_ledger (er_db s)) <-> 1 <= g <= 1) /\
  forall s1 s2, erasureStep (EBegin 3 (ex_call "1" "HARD_PURGE")) s = Some s1 -> erasureStep (ECommit 3) s1 = Some s2 ->
    generations "file" "1" (erasure_ledger (er_db s2)) = [1; 2].
Proof.
  eexists. split; [reflexivity|]. match goal with |- context [er_db ?x] => set (s := x) end.
  destruct (erasure_generations ex_erasures ex_md s "file" "1") as (Hc & _ & _ & _ & Hn); [reflexivity|reflexivity|]. split; [exact Hc|].
  intros s1 s2 Hb Hcm. destruct (Hn 3%nat "t" "HARD_PURGE" s1 [] s1 s2 Hb (Forall_nil_2 _) eq_refl Hcm) as (k & row & Hl & He & Hg).
  vm_compute in Hb. injection Hb as <-. vm_compute in Hcm. injection Hcm as <-. reflexivity.
Defined.

Definition ex_queue := runAll runOutbox
  [OpEnqueue "PROMOTE_BLOB" (Some JNull); OpClaim ∅ 10; OpFail 1 "no worker" 0; OpClaim ∅ 10; OpClaim ∅ 10] ex_md.

Lemma outbox_deliveries_example :
  tally (claims 1) ex_queue.2 = 1 /\ tally (claims 1) ex_queue.2 <= tally (fails 1) ex_queue.2.
Proof.
  split; [vm_compute; reflexivity|].
  apply (outbox_deliveries 1 ex_md ex_queue.2 ex_queue.1); [exact (runAll_runs _ _ _ _)| |reflexivity].
  intros id r H. cbn in H. by rewrite lookup_empty in H.
Defined.

Definition ex_fresh : db := (EnqueueOutbox "PROMOTE_BLOB" (Some JNull) ex_md).1.
Lemma claim_fresh_fails_witness : exists e,
  (ClaimOutboxEvents ∅ 10 ex_fresh).2 = Err e /\ sameTables ex_fresh (ClaimOutboxEvents ∅ 10 ex_fresh).1.
Proof.
  destruct (ClaimOutboxEvents ∅ 10 ex_fresh) as [d' r] eqn:H.
  destruct (claim_fresh_fails ∅ 10 ex_fresh d' r 1 (mkOutboxRow "PROMOTE_BLOB" JNull "PENDING" 0 5 None 1000 1000 None) H)
    as [[e ->] Hs]; [|reflexivity|exists e; exact (conj eq_refl Hs)].
  assert (Hw : window ∅ 10 ex_fresh = [(1, mkOutboxRow "PROMOTE_BLOB" JNull "PENDING" 0 5 None 1000 1000 None)])
    by (vm_compute; reflexivity).
  rewrite Hw. apply list_elem_of_here.
Defined.
