(* ===== verification/DriveStore.v ===== *)
(** * internal/metadata/drive_store.go

    Folders, nodes, encryption domains, key envelopes, share grants and
    access snapshots. That the tenant-scoped methods keep the tenants apart is
    in [TenantIsolation]. *)
From S2P Require Import Prelude GoStd Db MetaStore.
Local Open Scope Z_scope.

(** A reference of a foreign key: NULL refers to nothing. *)
Definition refers {R} (t : gmap string R) (o : option string) : bool :=
  match o with None => true | Some k => bool_decide (is_Some (t !! k)) end.
Definition tenantExists (d : db) (t : string) : bool := bool_decide (is_Some (tenants d !! t)).

(** SELECT .. WHERE p ORDER BY created_at LIMIT 1000. *)
Definition listRows {R A} (t : db -> gmap string R) (p : R -> bool) (created : R -> Time) (scan : string * R -> A)
  : MDB (list A) := stmt (gets (fun d =>
    map scan (limit rowsLimit (orderBy (fun x y => created x.2 <? created y.2) (selectRows (t d) (fun _ r => p r)))))).

(** ** Folders *)
Record Folder := mkFolder {
  fo_ID : string; fo_TenantID : string; fo_ParentFolderID : string; fo_NameEncrypted : bytes;
  fo_PrivacyMode : string; fo_CreatedAt : Time }.

Definition CreateFolder (f : Folder) : MDB unit := stmt (
  d ← gets id;
  let parentID := nullString (fo_ParentFolderID f) in
  if bool_decide (is_Some (folders d !! fo_ID f)) then ret tt else
  fail_if (negb (tenantExists d (fo_TenantID f))) foreignKey;;
  fail_if (negb (bool_decide (parentID = Some (fo_ID f)) || refers (folders d) parentID)) foreignKey;;
  modify (fun d => d <| folders := <[fo_ID f := mkFolderRow (fo_TenantID f) parentID (fo_NameEncrypted f)
    (fo_PrivacyMode f) (db_clock d) None]> (folders d) |>)).

Definition scanFolder (x : string * folderRow) : Folder :=
  let r := x.2 in mkFolder x.1 (fd_tenant_id r) (coalesce (fd_parent_folder_id r)) (fd_name_encrypted r)
    (fd_privacy_mode r) (fd_created_at r).
Definition inFolder (tenantID parentFolderID : string) (r : folderRow) : bool :=
  bool_decide (fd_tenant_id r = tenantID) && bool_decide (fd_deleted_at r = None)
  && bool_decide (fd_parent_folder_id r = nullString parentFolderID).
Definition ListFolders (tenantID parentFolderID : string) : MDB (list Folder) :=
  listRows folders (inFolder tenantID parentFolderID) fd_created_at scanFolder.

Definition live {R} (deleted : R -> option Time) (o : option R) : option R :=
  match o with Some r => if bool_decide (deleted r = None) then Some r else None | None => None end.
Definition GetFolder (ps : preparedStmts) (id : string) : MDB Folder :=
  scanRow (getFolder ps) (fun d => (fun r => scanFolder (id, r)) <$> live fd_deleted_at (folders d !! id)).

(** ** Nodes *)
Record Node := mkNode {
  no_ID : string; no_TenantID : string; no_FolderID : string; no_NameEncrypted : bytes; no_MimeType : string;
  no_CreatedAt : Time; no_UpdatedAt : Time }.

Definition CreateNode (n : Node) : MDB unit := stmt (
  d ← gets id;
  fail_if (bool_decide (is_Some (nodes d !! no_ID n))) uniqueKey;;
  fail_if (negb (tenantExists d (no_TenantID n))) foreignKey;;
  fail_if (negb (refers (folders d) (Some (no_FolderID n)))) foreignKey;;
  modify (fun d => d <| nodes := <[no_ID n := mkNodeRow (no_TenantID n) (no_FolderID n) (no_NameEncrypted n)
    (no_MimeType n) (db_clock d) (db_clock d) None]> (nodes d) |>)).

Definition scanNode (x : string * nodeRow) : Node :=
  let r := x.2 in mkNode x.1 (nd_tenant_id r) (nd_folder_id r) (nd_name_encrypted r) (nd_mime_type r)
    (nd_created_at r) (nd_updated_at r).
Definition nodeIn (folderID tenantID : string) (r : nodeRow) : bool :=
  bool_decide (nd_tenant_id r = tenantID) && bool_decide (nd_folder_id r = folderID)
  && bool_decide (nd_deleted_at r = None).
Definition ListNodes (folderID tenantID : string) : MDB (list Node) :=
  listRows nodes (nodeIn folderID tenantID) nd_created_at scanNode.
Definition GetNode (ps : preparedStmts) (id : string) : MDB Node :=
  scanRow (getNode ps) (fun d => (fun r => scanNode (id, r)) <$> live nd_deleted_at (nodes d !! id)).

(** ** Encryption domains *)
Record EncryptionDomain := mkEncryptionDomain {
  e_ID : string; e_TenantID : string; e_FolderID : string; e_PrivacyMode : string; e_Generation : Z;
  e_PrevGeneration : option Z; e_PrevKeyEnvelope : bytes; e_CreatedAt : Time; e_RotatedAt : option Time }.

Definition CreateEncryptionDomain (e : EncryptionDomain) : MDB unit := stmt (
  d ← gets id;
  fail_if (negb (int32 (e_Generation e))) outOfRange;;
  fail_if (bool_decide (is_Some (encryption_domains d !! e_ID e))) uniqueKey;;
  fail_if (negb (tenantExists d (e_TenantID e))) foreignKey;;
  fail_if (negb (refers (folders d) (nullString (e_FolderID e)))) foreignKey;;
  modify (fun d => d <| encryption_domains := <[e_ID e := mkDomainRow (e_TenantID e) (nullString (e_FolderID e))
    (e_PrivacyMode e) (e_Generation e) None None (db_clock d) None]> (encryption_domains d) |>)).

Definition ownDomain (d : db) (id tenantID : string) : option domainRow :=
  match encryption_domains d !! id with
  | Some r => if bool_decide (ed_tenant_id r = tenantID) then Some r else None
  | None => None
  end.
Definition scanDomain (x : string * domainRow) : EncryptionDomain :=
  let r := x.2 in mkEncryptionDomain x.1 (ed_tenant_id r) (coalesce (ed_folder_id r)) (ed_privacy_mode r)
    (ed_generation r) (ed_prev_generation r) (default [] (ed_prev_key_envelope r)) (ed_created_at r) (ed_rotated_at r).
Definition GetEncryptionDomain (ps : preparedStmts) (id tenantID : string) : MDB EncryptionDomain :=
  scanRow (getEncryptionDomain ps) (fun d => (fun r => scanDomain (id, r)) <$> ownDomain d id tenantID).

Definition rotated (newGen curGen : Z) (prevKeyEnvelope : bytes) (d : db) (r : domainRow) : domainRow :=
  r <| ed_generation := newGen |> <| ed_prev_generation := Some curGen |>
    <| ed_prev_key_envelope := Some prevKeyEnvelope |> <| ed_rotated_at := Some (db_clock d) |>.
Definition updateDomain := updateAt encryption_domains (fun t d => d <| encryption_domains := t |>).
Definition RotateEncryptionDomain (id tenantID : string) (prevKeyEnvelope : bytes) : MDB unit := transaction (
  curGen ← stmt (
    d ← gets (fun d => d);
    match ownDomain d id tenantID with Some r => ret (ed_generation r) | None => throw (ErrSentinel SqlNoRows) end);
  let newGen := curGen + 1 in
  _ ← stmt (
    fail_if (negb (int32 newGen)) outOfRange;;
    updateDomain id (fun r => bool_decide (ed_tenant_id r = tenantID)) (rotated newGen curGen prevKeyEnvelope));
  ret tt).

(** ** Key envelopes *)
Record KeyEnvelope := mkKeyEnvelope {
  k_ID : string; k_DomainID : string; k_VersionID : string; k_TenantID : string; k_EnvelopeType : string;
  k_Ciphertext : bytes; k_Nonce : bytes; k_EncapsulatedKey : bytes; k_Metadata : RawMessage; k_CreatedAt : Time }.

Definition CreateKeyEnvelope (e : KeyEnvelope) : MDB unit := stmt (
  j ← jsonParam (k_Metadata e);
  d ← gets id;
  fail_if (bool_decide (is_Some (key_envelopes d !! k_ID e))) uniqueKey;;
  fail_if (negb (refers (encryption_domains d) (nullString (k_DomainID e)))) foreignKey;;
  fail_if (negb (tenantExists d (k_TenantID e))) foreignKey;;
  modify (fun d => d <| key_envelopes := <[k_ID e := mkEnvelopeRow (nullString (k_DomainID e)) (nullString (k_VersionID e))
    (k_TenantID e) (k_EnvelopeType e) (k_Ciphertext e) (k_Nonce e) (Some (k_EncapsulatedKey e)) j (db_clock d)]>
    (key_envelopes d) |>)).

Definition scanEnvelope (x : string * envelopeRow) : KeyEnvelope :=
  let r := x.2 in mkKeyEnvelope x.1 (coalesce (ke_domain_id r)) (coalesce (ke_version_id r)) (ke_tenant_id r)
    (ke_envelope_type r) (ke_ciphertext r) (ke_nonce r) (default [] (ke_encapsulated_key r)) (Some (ke_metadata r))
    (ke_created_at r).
Definition ofDomain (domainID tenantID : string) (r : envelopeRow) : bool :=
  bool_decide (ke_tenant_id r = tenantID) && bool_decide (ke_domain_id r = Some domainID).
Definition ListEnvelopesByDomain (domainID tenantID : string) : MDB (list KeyEnvelope) :=
  listRows key_envelopes (ofDomain domainID tenantID) ke_created_at scanEnvelope.
Definition ListEnvelopesByVersion (versionID : string) : MDB (list KeyEnvelope) := stmt (gets (fun d =>
  map scanEnvelope (orderBy (fun x y => ke_created_at x.2 <? ke_created_at y.2)
    (selectRows (key_envelopes d) (fun _ r => bool_decide (ke_version_id r = Some versionID)))))).

(** ** Share grants *)
Record ShareGrant := mkShareGrant {
  g_ID : string; g_TenantID : string; g_NodeID : string; g_GrantorUserID : string; g_GranteeUserID : string;
  g_Generation : Z; g_IsActive : bool; g_KeyEnvelopeID : string; g_CreatedAt : Time; g_RevokedAt : option Time }.

Definition CreateShareGrant (g : ShareGrant) : MDB unit := stmt (
  d ← gets id;
  fail_if (negb (int32 (g_Generation g))) outOfRange;;
  fail_if (bool_decide (is_Some (share_grants d !! g_ID g))) uniqueKey;;
  fail_if (negb (tenantExists d (g_TenantID g))) foreignKey;;
  fail_if (negb (refers (nodes d) (nullString (g_NodeID g)))) foreignKey;;
  fail_if (negb (refers (key_envelopes d) (nullString (g_KeyEnvelopeID g)))) foreignKey;;
  modify (fun d => d <| share_grants := <[g_ID g := mkGrantRow (g_TenantID g) (nullString (g_NodeID g))
    (g_GrantorUserID g) (g_GranteeUserID g) (g_Generation g) (g_IsActive g) (nullString (g_KeyEnvelopeID g))
    (db_clock d) None]> (share_grants d) |>)).

Definition scanGrant (x : string * grantRow) : ShareGrant :=
  let r := x.2 in mkShareGrant x.1 (sg_tenant_id r) (coalesce (sg_node_id r)) (sg_grantor_user_id r)
    (sg_grantee_user_id r) (sg_generation r) (sg_is_active r) (coalesce (sg_key_envelope_id r)) (sg_created_at r)
    (sg_revoked_at r).
Definition activeFor (granteeUserID tenantID : string) (r : grantRow) : bool :=
  bool_decide (sg_tenant_id r = tenantID) && bool_decide (sg_grantee_user_id r = granteeUserID) && sg_is_active r.
(** ORDER BY created_at DESC. *)
Definition ListActiveShareGrants (granteeUserID tenantID : string) : MDB (list ShareGrant) :=
  listRows share_grants (activeFor granteeUserID tenantID) (fun r => - sg_created_at r) scanGrant.

Definition updateGrant := updateAt share_grants (fun t d => d <| share_grants := t |>).
Definition RevokeShareGrant (id tenantID : string) : MDB unit :=
  n ← stmt (updateGrant id (fun r => bool_decide (sg_tenant_id r = tenantID) && sg_is_active r) (fun d r =>
        r <| sg_is_active := false |> <| sg_revoked_at := Some (db_clock d) |>));
  fail_if (n =? 0) (ErrSentinel MdNotFound).

(** ** Access snapshots *)
Record AccessContextSnapshot := mkAccessContextSnapshot {
  a_ID : string; a_TenantID : string; a_NodeID : string; a_Revision : Z; a_SnapshotHash : bytes;
  a_ACLCiphertext : bytes; a_CreatedAt : Time }.

Definition CreateAccessContextSnapshot (a : AccessContextSnapshot) : MDB unit := stmt (
  d ← gets id;
  fail_if (negb (int32 (a_Revision a))) outOfRange;;
  fail_if (bool_decide (is_Some (snapshots d !! a_ID a))) uniqueKey;;
  fail_if (negb (tenantExists d (a_TenantID a))) foreignKey;;
  fail_if (negb (refers (nodes d) (nullString (a_NodeID a)))) foreignKey;;
  modify (fun d => d <| snapshots := <[a_ID a := mkSnapshotRow (a_TenantID a) (nullString (a_NodeID a)) (a_Revision a)
    (a_SnapshotHash a) (a_ACLCiphertext a) (db_clock d)]> (snapshots d) |>)).

Definition scanSnapshot (x : string * snapshotRow) : AccessContextSnapshot :=
  let r := x.2 in mkAccessContextSnapshot x.1 (ac_tenant_id r) (coalesce (ac_node_id r)) (ac_revision r)
    (ac_snapshot_hash r) (ac_acl_ciphertext r) (ac_created_at r).
Definition ofNode (nodeID tenantID : string) (r : snapshotRow) : bool :=
  bool_decide (ac_tenant_id r = tenantID) && bool_decide (ac_node_id r = Some nodeID).
(** ORDER BY revision DESC LIMIT 1. *)
Definition GetLatestAccessContext (nodeID tenantID : string) : MDB AccessContextSnapshot :=
  scanRow false (fun d => scanSnapshot <$> head (orderBy (fun x y => ac_revision y.2 <? ac_revision x.2)
    (selectRows (snapshots d) (fun _ r => ofNode nodeID tenantID r)))).

(** ** Tenants with the drive columns *)
Record DriveTenant := mkDriveTenant {
  dt_ID : string; dt_PoolID : string; dt_PrivacyMode : string; dt_TenantType : string; dt_BucketName : string }.
Definition scanTenant (x : string * tenantRow) : DriveTenant :=
  let r := x.2 in mkDriveTenant x.1 (tn_pool_id r) (tn_privacy_mode r) (tn_tenant_type r) (tn_bucket_name r).
Definition GetDriveTenant (id : string) : MDB DriveTenant :=
  scanRow false (fun d => (fun r => scanTenant (id, r)) <$> tenants d !! id).
Definition ListDriveTenants : MDB (list DriveTenant) := stmt (gets (fun d =>
  map scanTenant (orderBy (fun x y => str_ltb x.1 y.1) (selectRows (tenants d) (fun _ _ => true))))).
