(* ===== verification/ContentStore.v ===== *)
(** * internal/metadata/content_store.go and upload_session_store.go

    Content entries with their chunks, the hashes a client asks about, and the
    upload sessions of KDRV1. *)
From S2P Require Import Prelude GoStd Db MetaStore DriveStore.
Local Open Scope Z_scope.

(** ** Content entries *)
Record ContentEntry := mkContentEntry {
  c_ContentID : string; c_TenantID : string; c_PlaintextSize : Z; c_ChunkCount : Z; c_ChunkSize : Z;
  c_ChunkPlanRoot : string; c_PepperGeneration : Z; c_CreatedAt : Time }.
Record ContentChunk := mkContentChunk {
  h_ChunkIndex : Z; h_ChunkContentHash : string; h_BlobKey : string; h_PlaintextLen : Z; h_CiphertextLen : Z }.
Record ChunkCheckResultEntry := mkChunkCheckResultEntry { r_Hash : string; r_Exists : bool; r_BlobKey : string }.

Definition scanEntry (x : string * entryRow) : ContentEntry :=
  let r := x.2 in mkContentEntry x.1 (ce_tenant_id r) (ce_plaintext_size r) (ce_chunk_count r) (ce_chunk_size r)
    (ce_chunk_plan_root r) (ce_pepper_generation r) (ce_created_at r).
Definition ownEntry (d : db) (contentID tenantID : string) : option entryRow :=
  match content_entries d !! contentID with
  | Some r => if bool_decide (ce_tenant_id r = tenantID) then Some r else None
  | None => None
  end.
Definition GetContentEntry (contentID tenantID : string) : MDB ContentEntry :=
  scanRow false (fun d => (fun r => scanEntry (contentID, r)) <$> ownEntry d contentID tenantID).
Definition GetContentEntryByContentID (contentID : string) : MDB ContentEntry :=
  scanRow false (fun d => (fun r => scanEntry (contentID, r)) <$> content_entries d !! contentID).

Definition CreateContentEntry (e : ContentEntry) : MDB unit := stmt (
  d ← gets id;
  fail_if (negb (int32 (c_PepperGeneration e))) outOfRange;;
  if bool_decide (is_Some (content_entries d !! c_ContentID e)) then ret tt else
  fail_if (negb (tenantExists d (c_TenantID e))) foreignKey;;
  modify (fun d => d <| content_entries := <[c_ContentID e := mkEntryRow (c_TenantID e) (c_PlaintextSize e)
    (c_ChunkCount e) (c_ChunkSize e) (c_ChunkPlanRoot e) (c_PepperGeneration e) (db_clock d)]> (content_entries d) |>)).

(** ** Chunks *)
Definition scanChunk (x : string * Z * chunkRow) : ContentChunk :=
  let r := x.2 in mkContentChunk x.1.2 (ck_chunk_content_hash r) (ck_blob_key r) (ck_plaintext_len r)
    (ck_ciphertext_len r).
Definition owns (d : db) (tenantID contentID : string) : bool := bool_decide (is_Some (ownEntry d contentID tenantID)).
Definition GetContentChunks (contentID tenantID : string) : MDB (list ContentChunk) := stmt (gets (fun d =>
  map scanChunk (orderBy (fun x y : string * Z * chunkRow => x.1.2 <? y.1.2)
    (selectRows (content_chunks d) (fun k _ => bool_decide (k.1 = contentID) && owns d tenantID k.1))))).

Definition maxChunksPerCall : Z := 10000.
Definition newChunk (c : ContentChunk) : chunkRow :=
  mkChunkRow (h_ChunkContentHash c) (h_BlobKey c) (h_PlaintextLen c) (h_CiphertextLen c).
Definition insertChunk (contentID : string) (c : ContentChunk) : MDB unit := stmt (
  d ← gets id;
  fail_if (negb (int32 (h_ChunkIndex c))) outOfRange;;
  if bool_decide (is_Some (content_chunks d !! (contentID, h_ChunkIndex c))) then ret tt else
  fail_if (negb (bool_decide (is_Some (content_entries d !! contentID)))) foreignKey;;
  modify (fun d => d <| content_chunks := <[(contentID, h_ChunkIndex c) := newChunk c]> (content_chunks d) |>)).
Fixpoint insertChunks (contentID : string) (chunks : list ContentChunk) : MDB unit :=
  match chunks with
  | [] => ret tt
  | c :: cs => insertChunk contentID c;; insertChunks contentID cs
  end.
Definition CreateContentChunks (contentID : string) (chunks : list ContentChunk) : MDB unit :=
  if len chunks =? 0 then ret tt else
  fail_if (maxChunksPerCall <? len chunks)
    (ErrNew "metadata: CreateContentChunks: %d chunks exceeds limit of %d");;
  transaction (prepare;; insertChunks contentID chunks).

(** [order]: the order in which the rows of SELECT DISTINCT come. *)
Definition CheckChunkHashes (order : list (string * string) -> list (string * string))
    (contentID tenantID : string) (hashes : list string) : MDB (list ChunkCheckResultEntry) :=
  rows ← stmt (gets (fun d => order (remove_dups (map (fun x : string * Z * chunkRow => (ck_chunk_content_hash x.2, ck_blob_key x.2))
    (selectRows (content_chunks d) (fun k r => owns d tenantID k.1 && bool_decide (ck_chunk_content_hash r ∈ hashes)))))));
  let knownHashes := foldl (fun (m : gmap string string) (x : string * string) => <[x.1 := x.2]> m) ∅ rows in
  ret (map (fun h => mkChunkCheckResultEntry h (bool_decide (is_Some (knownHashes !! h))) (default "" (knownHashes !! h)))
    hashes).

(** ** Upload sessions *)
Record KDRV1UploadSession := mkKDRV1UploadSession {
  s_ID : string; s_TenantID : string; s_NodeID : string; s_FolderID : string; s_ChunkPlan : RawMessage;
  s_Manifest : RawMessage; s_Header : RawMessage; s_WrappedDEK : string; s_WrapNonce : string; s_Chunks : RawMessage;
  s_State : string; s_CreatedAt : Time; s_UpdatedAt : Time }.

Definition CreateKDRV1UploadSession (sess : KDRV1UploadSession) : MDB unit := stmt (
  plan ← jsonParam (s_ChunkPlan sess); manifest ← jsonParam (s_Manifest sess); header ← jsonParam (s_Header sess);
  chunks ← jsonParam (s_Chunks sess);
  d ← gets id;
  fail_if (bool_decide (is_Some (sessions d !! s_ID sess))) uniqueKey;;
  fail_if (negb (tenantExists d (s_TenantID sess))) foreignKey;;
  modify (fun d => d <| sessions := <[s_ID sess := mkSessionRow (s_TenantID sess) (s_NodeID sess) (s_FolderID sess)
    plan manifest header (s_WrappedDEK sess) (s_WrapNonce sess) chunks (s_State sess) (db_clock d) (db_clock d)]>
    (sessions d) |>)).

Definition ownSession (d : db) (id tenantID : string) : option sessionRow :=
  match sessions d !! id with
  | Some r => if bool_decide (us_tenant_id r = tenantID) then Some r else None
  | None => None
  end.
Definition scanSession (x : string * sessionRow) : KDRV1UploadSession :=
  let r := x.2 in mkKDRV1UploadSession x.1 (us_tenant_id r) (us_node_id r) (us_folder_id r) (Some (us_chunk_plan r))
    (Some (us_manifest r)) (Some (us_header r)) (us_wrapped_dek r) (us_wrap_nonce r) (Some (us_chunks r)) (us_state r)
    (us_created_at r) (us_updated_at r).
Definition GetKDRV1UploadSession (id tenantID : string) : MDB KDRV1UploadSession :=
  scanRow false (fun d => (fun r => scanSession (id, r)) <$> ownSession d id tenantID).

(** [json.Unmarshal] into, and [json.Marshal] of, a [[]json.RawMessage]. *)
Definition unmarshalArray (j : json) : result (list RawMessage) :=
  match j with
  | JArr l => Ok (map Some l)
  | JNull => Ok []
  | _ => Err (ErrNew "json: cannot unmarshal into Go value of type []json.RawMessage")
  end.
Definition marshalArray (l : list RawMessage) : result json :=
  match mapM (fun m => m) l with
  | Some l' => Ok (JArr l')
  | None => Err (ErrNew "json: error calling MarshalJSON for type json.RawMessage")
  end.
Definition mergeChunks (existing : json) (chunk : RawMessage) : result json :=
  match unmarshalArray existing with
  | Err e => Err e
  | Ok chunks => marshalArray (chunks ++ [chunk])
  end.

Definition updateSession := updateAt sessions (fun t d => d <| sessions := t |>).
Definition ofTenant (tenantID : string) (r : sessionRow) : bool := bool_decide (us_tenant_id r = tenantID).
Definition AppendKDRV1UploadSessionChunk (id tenantID : string) (chunk : RawMessage) : MDB unit := transaction (
  existing ← scanRow false (fun d => us_chunks <$> ownSession d id tenantID);
  merged ← lift (mergeChunks existing chunk);
  _ ← stmt (updateSession id (ofTenant tenantID) (fun d r => r <| us_chunks := merged |> <| us_updated_at := db_clock d |>));
  ret tt).

Definition UpdateKDRV1UploadSessionState (id tenantID state : string) : MDB unit :=
  _ ← stmt (updateSession id (ofTenant tenantID) (fun d r => r <| us_state := state |> <| us_updated_at := db_clock d |>));
  ret tt.

Definition DeleteKDRV1UploadSession (id tenantID : string) : MDB unit := stmt (modify (fun d =>
  if bool_decide (is_Some (ownSession d id tenantID)) then d <| sessions := delete id (sessions d) |> else d)).

(** ** Creating chunks: all or nothing, the first writer of an index wins *)
Definition chunkMap (contentID : string) (chunks : list ContentChunk) : gmap (string * Z) chunkRow :=
  list_to_map (map (fun c => ((contentID, h_ChunkIndex c), newChunk c)) chunks).
(** Every chunk has a row already: inserting is a no-op. *)
Definition present (contentID : string) (d : db) (c : ContentChunk) : Prop :=
  int32 (h_ChunkIndex c) = true /\ is_Some (content_chunks d !! (contentID, h_ChunkIndex c)).

Lemma union_present {K R} `{Countable K} (m : gmap K R) k v : is_Some (m !! k) -> m ∪ {[k := v]} = m.
Proof.
  intros [x Hx]. apply map_eq. intros i. rewrite lookup_union. destruct (decide (k = i)) as [<-|Hi].
  - by rewrite Hx, lookup_singleton_eq.
  - rewrite lookup_singleton_ne by done. by destruct (m !! i).
Qed.

Lemma sameTables_chunks d d1 : content_chunks d1 = content_chunks d -> sameTables d d1 ->
  sameTables (d <| content_chunks := content_chunks d |>) d1.
Proof. intros _ Hs. rewrite Hs. by destruct d. Qed.

Lemma insertChunk_Ok contentID c d d1 u : insertChunk contentID c d = (d1, Ok u) ->
  sameTables (d <| content_chunks := content_chunks d ∪ {[(contentID, h_ChunkIndex c) := newChunk c]} |>) d1 /\
  present contentID d1 c.
Proof.
  intros [fs Hs]%stmt_Ok. revert Hs. unroll. unfold present. cbn [id]. destruct (int32 _) eqn:Hi; [|done]. cbn [negb].
  case_bool_decide as Hk; cbn [content_chunks content_entries upd eta_expand eta_db] in *.
  - intros [= <- _]. rewrite union_present by done. split; [|done]. by destruct d.
  - apply eq_None_not_Some in Hk. case_bool_decide as He; cbn [negb]; [|done]. intros [= <- _].
    rewrite <- insert_union_singleton_r by done. split; [by destruct d|]. split; [done|].
    cbn [content_chunks upd eta_expand eta_db]. by rewrite lookup_insert_eq.
Qed.

Lemma present_mono contentID d d1 c : content_chunks d ⊆ content_chunks d1 -> present contentID d c -> present contentID d1 c.
Proof. intros Hs [Hi [r Hr]]. split; [done|]. exists r. by eapply lookup_weaken. Qed.

Lemma insertChunks_Ok contentID cs d d1 u : insertChunks contentID cs d = (d1, Ok u) ->
  sameTables (d <| content_chunks := content_chunks d ∪ chunkMap contentID cs |>) d1 /\ Forall (present contentID d1) cs.
Proof.
  revert d. induction cs as [|c cs IH]; intros d; cbn [insertChunks].
  - intros [= <- _]. split; [|constructor]. unfold chunkMap. cbn. rewrite (right_id_L ∅ (∪)). by destruct d.
  - intros (u' & d2 & Hc & Hcs)%bind_Ok_inv. apply insertChunk_Ok in Hc as [Hs Hp]. apply IH in Hcs as [Hs1 Hp1].
    assert (Hsub : content_chunks d2 ⊆ content_chunks d1) by (rewrite Hs1; apply map_union_subseteq_l).
    split; [|constructor; [by eapply present_mono|done]]. rewrite Hs1, Hs. unfold chunkMap. cbn.
    rewrite insert_union_singleton_l, (assoc_L (∪)). by destruct d.
Qed.

Lemma insertChunks_present contentID cs d : db_faults d = [] -> Forall (present contentID d) cs ->
  insertChunks contentID cs d = (d, Ok tt).
Proof.
  intros Hf. induction 1 as [|c cs [Hi Hp] _ IH]; [done|]. cbn [insertChunks]. unfold insertChunk. unroll.
  unfold stmt. rewrite Hf. cbn [id]. rewrite Hi, bool_decide_true by done. exact IH.
Qed.

(** C30: A batch of chunks is stored as a whole or not at all, also when the
    link fails in the middle of the transaction; an index that has a chunk keeps
    it; a batch beyond the limit is refused; and a batch that was stored can be
    sent again with no effect. *)
Theorem create_chunks_atomic contentID chunks d d' r : CreateContentChunks contentID chunks d = (d', r) ->
  match r with
  | Ok _ => len chunks <= maxChunksPerCall /\
      sameTables (d <| content_chunks := content_chunks d ∪ chunkMap contentID chunks |>) d' /\
      (db_faults d' = [] -> CreateContentChunks contentID chunks d' = (d', Ok tt))
  | Err _ => sameTables d d' /\ chunks <> []
  end.
Proof.
  intros Hc. pose proof Hc as Hc0. unfold CreateContentChunks in Hc. destruct (len chunks =? 0) eqn:H0; bool_hyps.
  { injection Hc as <- <-. apply len_nil in H0 as ->. split; [done|]. split; [|done]. unfold chunkMap. cbn.
    rewrite (right_id_L ∅ (∪)). by destruct d. }
  assert (Hne : chunks <> []) by (by intros ->). revert Hc. unroll.
  destruct (maxChunksPerCall <? len chunks) eqn:Hm; bool_hyps; [by intros [= <- <-]|]. intros Hc.
  destruct r as [u|e]; [|split; [by eapply transaction_atomic|done]]. split; [done|].
  apply transaction_Ok in Hc as (fs & d1 & Hb & Hs1). cbv beta in Hb.
  destruct (prepare _) as [d0 [[]|]] eqn:Hp; [|done]. apply stmt_Ok in Hp as [fs0 [= <-]].
  apply insertChunks_Ok in Hb as [Hs Hpres]. split.
  { rewrite Hs1, Hs. by destruct d. }
  intros Hf. unfold CreateContentChunks. unroll. rewrite (proj2 (Z.eqb_neq _ _) H0), (proj2 (Z.ltb_ge _ _) Hm).
  apply healthy_transaction; [done| |done]. unfold prepare. rewrite healthy_stmt by done. cbn.
  apply insertChunks_present; [done|]. eapply Forall_impl; [exact Hpres|]. intros c. apply present_mono. by rewrite Hs1.
Qed.

(** ** Checking hashes *)
(** A chunk of the tenant with a hash, under a blob key. *)
Definition tenantChunk (d : db) (tenantID hash blobKey : string) : Prop :=
  exists contentID i r e, content_chunks d !! (contentID, i) = Some r /\ ck_chunk_content_hash r = hash /\
    ck_blob_key r = blobKey /\ content_entries d !! contentID = Some e /\ ce_tenant_id e = tenantID.

Lemma owns_spec d tenantID contentID : owns d tenantID contentID = true <->
  exists e, content_entries d !! contentID = Some e /\ ce_tenant_id e = tenantID.
Proof.
  unfold owns, ownEntry. rewrite bool_decide_eq_true. destruct (content_entries d !! contentID) as [e|].
  - case_bool_decide as Ht; split; [intros _; by exists e|by eexists|by intros []|by intros (? & [= <-] & ?)].
  - split; [by intros []|by intros (? & ? & _)].
Qed.

Lemma known_lookup (rows : list (string * string)) h k m :
  foldl (fun (m : gmap string string) (x : string * string) => <[x.1 := x.2]> m) m rows !! h = Some k ->
  (h, k) ∈ rows \/ m !! h = Some k.
Proof.
  revert m. induction rows as [|[h' k'] rows IH]; intros m; cbn; [by right|]. intros [Hin|Hm]%IH; [left; set_solver|].
  apply lookup_insert_Some in Hm as [[-> ->]|[_ Hm]]; [left; set_solver|by right].
Qed.

Lemma known_is_Some (rows : list (string * string)) h m :
  is_Some (m !! h) \/ (exists k, (h, k) ∈ rows) ->
  is_Some (foldl (fun (m : gmap string string) (x : string * string) => <[x.1 := x.2]> m) m rows !! h).
Proof.
  revert m. induction rows as [|[h' k'] rows IH]; intros m; cbn; [intros [?|[k ?%elem_of_nil]]; done|].
  intros Hm. apply IH. cbn. destruct (decide (h' = h)) as [->|Hn]; [left; rewrite lookup_insert_eq; by eexists|].
  rewrite lookup_insert_ne by done. destruct Hm as [Hm|[k [[= -> ->]|Hk]%elem_of_cons]]; [by left|done|right; by exists k].
Qed.

Definition hashRows (d : db) (tenantID : string) (hashes : list string) : list (string * string) :=
  remove_dups (map (fun x : string * Z * chunkRow => (ck_chunk_content_hash x.2, ck_blob_key x.2))
    (selectRows (content_chunks d) (fun k r => owns d tenantID k.1 && bool_decide (ck_chunk_content_hash r ∈ hashes)))).

Lemma elem_of_hashRows d tenantID hashes h k :
  (h, k) ∈ hashRows d tenantID hashes <-> h ∈ hashes /\ tenantChunk d tenantID h k.
Proof.
  unfold hashRows, tenantChunk. rewrite elem_of_remove_dups. split.
  - intros ([[c i] r] & [= -> ->] & [Hk Hb]%elem_of_selectRows)%list_elem_of_fmap. cbn in Hb.
    apply andb_true_iff in Hb as [(e & He & Ht)%owns_spec Hh%bool_decide_eq_true]. split; [done|]. by exists c, i, r, e.
  - intros (Hh & c & i & r & e & Hk & <- & <- & He & Ht). apply list_elem_of_fmap. exists (c, i, r).
    split; [done|]. apply elem_of_selectRows. split; [done|]. cbn. apply andb_true_iff.
    split; [apply owns_spec; by exists e|by apply bool_decide_eq_true].
Qed.

(** One answer per hash, in order: it exists exactly when some content of
    the tenant has a chunk with it, and the blob key is that of such a chunk;
    the chunks of other tenants are never revealed. *)
Lemma check_hashes order contentID tenantID hashes d d' out : (forall l, order l ≡ₚ l) ->
  CheckChunkHashes order contentID tenantID hashes d = (d', Ok out) ->
  sameTables d d' /\ map r_Hash out = hashes /\
  (forall e, e ∈ out -> r_Exists e = true <-> exists k, tenantChunk d tenantID (r_Hash e) k) /\
  (forall e, e ∈ out -> if r_Exists e then tenantChunk d tenantID (r_Hash e) (r_BlobKey e) else r_BlobKey e = "").
Proof.
  intros Hord. unfold CheckChunkHashes. intros (rows & d1 & Hs & [= <- <-])%bind_Ok_inv.
  apply stmt_Ok in Hs as [fs Hs]. unfold gets in Hs. injection Hs as <- Hrows.
  change (order (hashRows d tenantID hashes) = rows) in Hrows.
  set (known := foldl _ _ _).
  assert (Hsome : forall h, h ∈ hashes -> (exists k, tenantChunk d tenantID h k) -> is_Some (known !! h)).
  { intros h Hh [k Hk]. apply known_is_Some. right. exists k. rewrite <- Hrows, Hord. by apply elem_of_hashRows. }
  assert (Hkey : forall h k, known !! h = Some k -> tenantChunk d tenantID h k).
  { intros h k [Hin|Hin]%known_lookup; [|by rewrite lookup_empty in Hin]. rewrite <- Hrows, Hord in Hin.
    by apply elem_of_hashRows in Hin as [_ ?]. }
  split; [apply sameTables_faults|]. split; [rewrite map_map; apply map_id|]. split.
  - intros e (h & -> & Hh)%list_elem_of_fmap. cbn. rewrite bool_decide_eq_true. split; [|by apply Hsome].
    intros [k Hk]. exists k. by apply Hkey.
  - intros e (h & -> & Hh)%list_elem_of_fmap. cbn. destruct (known !! h) as [k|] eqn:Hk; cbn; [|done]. by apply Hkey.
Qed.

(** ** Upload sessions: no chunk is lost *)
Inductive sessionOp :=
| OpAppend (id tenantID : string) (chunk : RawMessage) | OpState (id tenantID state : string).
Definition runSession (o : sessionOp) : MDB unit :=
  match o with
  | OpAppend id t c => AppendKDRV1UploadSessionChunk id t c
  | OpState id t s => UpdateKDRV1UploadSessionState id t s
  end.
(** The chunks of the successful appends to a session, in order. *)
Fixpoint appended (id tenantID : string) (l : list (sessionOp * result unit)) : list json :=
  match l with
  | [] => []
  | (OpAppend i t (Some c), Ok _) :: l' =>
      if bool_decide (i = id) && bool_decide (t = tenantID) then c :: appended id tenantID l' else appended id tenantID l'
  | _ :: l' => appended id tenantID l'
  end.

Lemma scanRow_Ok {A} b (q : db -> option A) d d1 a : scanRow b q d = (d1, Ok a) ->
  exists fs, d1 = d <| db_faults := fs |> /\ q d1 = Some a.
Proof.
  unfold scanRow, queryRow, try. unroll. assert (Hb : forall X (m : X), (if b then m else m) = m) by by destruct b.
  rewrite Hb. destruct (stmt _ d) as [d2 [x|e]] eqn:Hs; intros [= <- <-].
  apply stmt_Ok in Hs as [fs Hs]. cbn [id] in Hs. exists fs. destruct (q _) as [y|] eqn:Hq; [|done].
  by injection Hs as <- <-.
Qed.

Lemma marshal_Some l : marshalArray (map Some l) = Ok (JArr l).
Proof.
  unfold marshalArray. enough (Hm : mapM (M := option) (fun m => m) (map Some l) = Some l) by by rewrite Hm.
  induction l as [|x l IH]; [done|]. cbn. by rewrite IH.
Qed.

Lemma marshal_Ok l j : marshalArray l = Ok j -> exists l', l = map Some l' /\ j = JArr l'.
Proof.
  unfold marshalArray. destruct (mapM _ _) as [l'|] eqn:Hm; [|done]. intros [= <-]. exists l'. split; [|done].
  apply mapM_Some_1 in Hm. induction Hm as [|x y l l' -> _ IH]; [done|]. cbn. by rewrite <- IH.
Qed.

Definition hasChunks (d : db) (id tenantID : string) (l : list json) : Prop :=
  exists r, sessions d !! id = Some r /\ us_tenant_id r = tenantID /\ us_chunks r = JArr l.

Lemma hasChunks_same d d1 id t l : sessions d1 = sessions d -> hasChunks d id t l -> hasChunks d1 id t l.
Proof. unfold hasChunks. by intros ->. Qed.

(** An append that succeeds. *)
Lemma Append_Ok i t' c d d1 u : AppendKDRV1UploadSessionChunk i t' c d = (d1, Ok u) ->
  exists r j clk, sessions d !! i = Some r /\ us_tenant_id r = t' /\ mergeChunks (us_chunks r) c = Ok j /\
    sessions d1 = <[i := r <| us_chunks := j |> <| us_updated_at := clk |>]> (sessions d).
Proof.
  intros (fs & d2 & Hb & Hsame)%transaction_Ok. apply bind_Ok_inv in Hb as (ex & d3 & Hscan & Hb).
  apply scanRow_Ok in Hscan as (fs' & -> & Hq). apply bind_Ok_inv in Hb as (j & d4 & [= <- Hm] & Hb).
  apply bind_Ok_inv in Hb as (n & d5 & Hu & [= <- _]). cbn [sessions upd eta_expand eta_db ownSession] in Hq.
  unfold ownSession in Hq. cbn [sessions upd eta_expand eta_db] in Hq.
  destruct (sessions d !! i) as [r|] eqn:Hr; [|done]. case_bool_decide as Ht; [|done]. cbn in Hq. injection Hq as <-.
  assert (Hs1 : sessions d1 = sessions d5) by by rewrite Hsame.
  apply update_stmt in Hu as [(e & [=] & _)|[(row & fs2 & _ & Hk & _ & Hd)|(_ & _ & Hn)]]; [|..|done|done].
  - change (sessions d !! i = Some row) in Hk. rewrite Hr in Hk. injection Hk as <-. eexists r, j, _.
    do 3 (split; [done|]). rewrite Hs1. exact Hd.
  - change (forall row, sessions d !! i = Some row -> ofTenant t' row = false) in Hn. specialize (Hn _ Hr).
    unfold ofTenant in Hn. by bool_hyps.
Qed.

Lemma session_step id t o d d1 r l : hasChunks d id t l -> runSession o d = (d1, r) ->
  hasChunks d1 id t (l ++ appended id t [(o, r)]).
Proof.
  intros Hl Ho. destruct o as [i t' c|i t' s]; cbn [runSession] in Ho.
  - destruct r as [u|e].
    2: { apply transaction_atomic in Ho. destruct c; cbn; rewrite app_nil_r; by rewrite Ho. }
    apply Append_Ok in Ho as (row & j & clk & Hr & Ht & Hm & Hd). destruct Hl as (row0 & Hr0 & Ht0 & Hc0).
    unfold hasChunks. rewrite Hd. destruct (decide (i = id)) as [->|Hi].
    + rewrite lookup_insert_eq. rewrite Hr in Hr0. injection Hr0 as <-. eexists. split; [done|].
      split; [done|]. cbn. unfold mergeChunks in Hm. rewrite Hc0 in Hm. cbn in Hm.
      apply marshal_Ok in Hm as (l' & Hl' & ->). destruct c as [c|].
      * rewrite bool_decide_true, (bool_decide_true (t' = t)) by congruence. cbn.
        change ([Some c]) with (map Some [c]) in Hl'. rewrite <- map_app in Hl'.
        f_equal. symmetry. by apply (inj (map Some)) in Hl'.
      * exfalso. assert (Hn : None ∈ map Some l') by (rewrite <- Hl'; set_solver).
        by apply list_elem_of_fmap in Hn as (? & [=] & _).
    + rewrite lookup_insert_ne by done. exists row0. split; [done|]. split; [done|]. rewrite Hc0. f_equal.
      cbn. destruct c; [rewrite (bool_decide_false (i = id)) by done|]; cbn; by rewrite app_nil_r.
  - assert (Ha : appended id t [(OpState i t' s, r)] = []) by by destruct r. rewrite Ha, app_nil_r. clear Ha.
    unfold UpdateKDRV1UploadSessionState in Ho. unfold mbind, M_bind, bind in Ho.
    destruct (stmt _ d) as [d2 r2] eqn:Hs. assert (Hd : sessions d1 = sessions d2) by (by destruct r2; injection Ho as <- <-).
    apply (hasChunks_same d2); [done|]. apply update_stmt in Hs as [(e & _ & Hd2)|[(row & fs & _ & Hk & _ & Hd2)|(_ & Hd2 & _)]];
      [by eapply hasChunks_same| |by eapply hasChunks_same|done|done].
    destruct Hl as (row0 & Hr0 & Ht0 & Hc0). unfold hasChunks. rewrite Hd2. destruct (decide (i = id)) as [->|Hi].
    + rewrite lookup_insert_eq. rewrite Hk in Hr0. injection Hr0 as <-. by eexists.
    + rewrite lookup_insert_ne by done. by exists row0.
Qed.

(** The chunks of an upload session are the ones it had followed by those
    of every append that reported success, in order: however the appends and
    state changes of any sessions are interleaved and fail, none is lost, stored
    twice, or stored by another tenant's call. *)
Lemma session_appends id tenantID l0 d l d' : runs runSession sessions d l d' -> hasChunks d id tenantID l0 ->
  hasChunks d' id tenantID (l0 ++ appended id tenantID l).
Proof.
  intros Hr. revert l0. induction Hr as [d|d d1 l d' Ht _ IH|o d d1 r l d' Ho _ IH]; intros l0 Hl.
  - by rewrite app_nil_r.
  - apply IH. by apply (hasChunks_same d).
  - assert (Ha : appended id tenantID ((o, r) :: l) = appended id tenantID [(o, r)] ++ appended id tenantID l).
    { destruct o as [? ? [|]|]; cbn; [destruct r; [by destruct (_ && _)|done]|by destruct r..]. }
    rewrite Ha, (assoc_L (++)). apply IH. by eapply session_step.
Qed.

(** ** Witnesses *)
Definition ex_db : db :=
  (emptyDb 1000) <| tenants := {["t" := mkTenantRow "p" "max" 0 JNull "b2b" ""; "u" := mkTenantRow "p" "max" 0 JNull "b2b" ""]} |>
    <| content_entries := {["c" := mkEntryRow "t" 4 2 2 "root" 1 0; "o" := mkEntryRow "u" 4 2 2 "root" 1 0]} |>
    <| content_chunks := {[("o", 0) := mkChunkRow "h1" "key_o" 2 18]} |>.
Definition ex_chunks : list ContentChunk := [mkContentChunk 0 "h0" "key0" 2 18; mkContentChunk 1 "h1" "key1" 2 18].
Definition ex_with_chunks : db := (CreateContentChunks "c" ex_chunks ex_db).1.

Lemma create_chunks_atomic_witness :
  sameTables (ex_db <| content_chunks := content_chunks ex_db ∪ chunkMap "c" ex_chunks |>) ex_with_chunks /\
  CreateContentChunks "c" ex_chunks ex_with_chunks = (ex_with_chunks, Ok tt).
Proof.
  destruct (create_chunks_atomic "c" ex_chunks ex_db ex_with_chunks (Ok tt)) as (_ & Hs & Hi).
  - apply run_eq. vm_compute. reflexivity.
  - exact (conj Hs (Hi eq_refl)).
Defined.

Definition ex_answers_t : list ChunkCheckResultEntry :=
  [mkChunkCheckResultEntry "h1" true "key1"; mkChunkCheckResultEntry "h9" false ""].
Lemma check_hashes_example : tenantChunk ex_with_chunks "t" "h1" "key1" /\ map r_Hash ex_answers_t = ["h1"; "h9"].
Proof.
  destruct (check_hashes id "c" "t" ["h1"; "h9"] ex_with_chunks ex_with_chunks ex_answers_t) as (_ & Hm & _ & Hk).
  - reflexivity.
  - assert (Hr : (CheckChunkHashes id "c" "t" ["h1"; "h9"] ex_with_chunks).2 = Ok ex_answers_t) by (vm_compute; reflexivity).
    apply run_eq in Hr. exact Hr.
  - exact (conj (Hk _ (list_elem_of_here _ _)) Hm).
Defined.

Definition ex_session : db := (CreateKDRV1UploadSession
  (mkKDRV1UploadSession "s" "t" "n" "" (Some JNull) (Some JNull) (Some JNull) "" "" (Some (JArr [])) "UPLOADING" 0 0) ex_db).1.
Definition ex_appends := runAll runSession
  [OpAppend "s" "t" (Some (JNum "1")); OpAppend "s" "u" (Some (JNum "2")); OpState "s" "t" "COMPLETING";
   OpAppend "s" "t" None; OpAppend "s" "t" (Some (JNum "3"))] ex_session.
Lemma session_appends_example : hasChunks ex_appends.1 "s" "t" [JNum "1"; JNum "3"].
Proof.
  apply (session_appends "s" "t" [] ex_session ex_appends.2 ex_appends.1).
  - exact (runAll_runs _ _ _ _).
  - eexists. split; [vm_compute; reflexivity|]. split; reflexivity.
Defined.
