(* ===== verification/TenantIsolation.v ===== *)
(** * The metadata stores keep the tenants apart

    What the tenant-scoped methods of [DriveStore] and [ContentStore] return
    depends on the rows of the tenant alone, and what they write for one tenant
    leaves the rows of every other as they are. *)
From S2P Require Import Prelude GoStd Db MetaStore DriveStore ContentStore.
Local Open Scope Z_scope.

(** ** The rows of a tenant *)
Definition rowsOf {K R} `{Countable K} (owner : R -> string) (t : string) (m : gmap K R) : gmap K R :=
  filter (fun kr : K * R => owner kr.2 = t) m.
Definition chunksOf (t : string) (d : db) : gmap (string * Z) chunkRow :=
  filter (fun kr : string * Z * chunkRow => owns d t kr.1.1 = true) (content_chunks d).

Record sameTenant (t : string) (d d' : db) : Prop := {
  sm_folders : rowsOf fd_tenant_id t (folders d) = rowsOf fd_tenant_id t (folders d');
  sm_nodes : rowsOf nd_tenant_id t (nodes d) = rowsOf nd_tenant_id t (nodes d');
  sm_domains : rowsOf ed_tenant_id t (encryption_domains d) = rowsOf ed_tenant_id t (encryption_domains d');
  sm_envelopes : rowsOf ke_tenant_id t (key_envelopes d) = rowsOf ke_tenant_id t (key_envelopes d');
  sm_grants : rowsOf sg_tenant_id t (share_grants d) = rowsOf sg_tenant_id t (share_grants d');
  sm_snapshots : rowsOf ac_tenant_id t (snapshots d) = rowsOf ac_tenant_id t (snapshots d');
  sm_entries : rowsOf ce_tenant_id t (content_entries d) = rowsOf ce_tenant_id t (content_entries d');
  sm_chunks : chunksOf t d = chunksOf t d';
  sm_sessions : rowsOf us_tenant_id t (sessions d) = rowsOf us_tenant_id t (sessions d')
}.

#[export] Instance sameTenant_equiv t : Equivalence (sameTenant t).
Proof.
  split.
  - by split.
  - intros x y []. by split.
  - intros x y z [] []. split; by etransitivity.
Qed.

Lemma sameTables_tenant t d d' : sameTables d d' -> sameTenant t d d'.
Proof. intros ->. by split. Qed.

(** ** Reads *)
Inductive read :=
| RFolders (parentFolderID : string)
| RNodes (folderID : string)
| RDomain (ps : preparedStmts) (id : string)
| REnvelopes (domainID : string)
| RGrants (granteeUserID : string)
| RAccess (nodeID : string)
| REntry (contentID : string)
| RChunks (contentID : string)
| RHashes (order : list (string * string) -> list (string * string)) (contentID : string) (hashes : list string)
| RSession (id : string).
Definition readType (r : read) : Type :=
  match r with
  | RFolders _ => list Folder | RNodes _ => list Node | RDomain _ _ => EncryptionDomain
  | REnvelopes _ => list KeyEnvelope | RGrants _ => list ShareGrant | RAccess _ => AccessContextSnapshot
  | REntry _ => ContentEntry | RChunks _ => list ContentChunk | RHashes _ _ _ => list ChunkCheckResultEntry
  | RSession _ => KDRV1UploadSession
  end.
Definition runRead (t : string) (r : read) : MDB (readType r) :=
  match r with
  | RFolders p => ListFolders t p
  | RNodes f => ListNodes f t
  | RDomain ps id => GetEncryptionDomain ps id t
  | REnvelopes dom => ListEnvelopesByDomain dom t
  | RGrants g => ListActiveShareGrants g t
  | RAccess n => GetLatestAccessContext n t
  | REntry c => GetContentEntry c t
  | RChunks c => GetContentChunks c t
  | RHashes order c hs => CheckChunkHashes order c t hs
  | RSession id => GetKDRV1UploadSession id t
  end.

(** A selection within the rows of a tenant sees only them. *)
Lemma selectRows_within {K R} `{Countable K} (P : K * R -> Prop) `{forall x, Decision (P x)} (m m' : gmap K R)
    (p q : K -> R -> bool) :
  filter P m = filter P m' ->
  (forall k r, m !! k = Some r -> p k r = true -> P (k, r)) ->
  (forall k r, m' !! k = Some r -> q k r = true -> P (k, r)) ->
  (forall k r, P (k, r) -> p k r = q k r) -> selectRows m p = selectRows m' q.
Proof.
  intros Hf Hp Hq Hpq. unfold selectRows. f_equal. apply map_eq. intros k. apply option_eq. intros r.
  rewrite !map_lookup_filter_Some. cbn.
  assert (Hl : forall r, m !! k = Some r /\ P (k, r) <-> m' !! k = Some r /\ P (k, r)).
  { intros r'. rewrite <- !map_lookup_filter_Some. by rewrite Hf. }
  split.
  - intros [Hk Hr]. pose proof (Hp _ _ Hk Hr) as HP. destruct (proj1 (Hl r) (conj Hk HP)) as [? _].
    split; [done|]. by rewrite <- Hpq.
  - intros [Hk Hr]. pose proof (Hq _ _ Hk Hr) as HP. destruct (proj2 (Hl r) (conj Hk HP)) as [? _].
    split; [done|]. by rewrite Hpq.
Qed.

Lemma select_owner {K R} `{Countable K} (owner : R -> string) t (m m' : gmap K R) (p : R -> bool) :
  rowsOf owner t m = rowsOf owner t m' -> (forall r, p r = true -> owner r = t) ->
  selectRows m (fun _ r => p r) = selectRows m' (fun _ r => p r).
Proof. intros Hm Hp. by eapply selectRows_within; [exact Hm|..]; cbn; intros; auto. Qed.

(** The guarded lookups of the methods. *)
Lemma own_lookup {R} (owner : R -> string) t (m : gmap string R) k :
  match m !! k with Some r => if bool_decide (owner r = t) then Some r else None | None => None end =
  rowsOf owner t m !! k.
Proof.
  unfold rowsOf. destruct (m !! k) as [r|] eqn:Hr.
  - case_bool_decide as Ht; symmetry.
    + by apply map_lookup_filter_Some.
    + apply map_lookup_filter_None. right. intros x Hx. rewrite Hr in Hx. by injection Hx as <-.
  - symmetry. apply map_lookup_filter_None. by left.
Qed.

(** A function of the rows of a tenant. *)
Definition tenantFn (t : string) {A} (f : db -> A) : Prop := forall d d', sameTenant t d d' -> f d = f d'.

Lemma stmt_tenant t {A} (m : MDB A) d d' : (forall d d', sameTenant t d d' -> (m d).2 = (m d').2) ->
  sameTenant t d d' -> db_faults d = db_faults d' -> (stmt m d).2 = (stmt m d').2.
Proof.
  intros Hm Hs Hf. unfold stmt. rewrite <- Hf. destruct (db_faults d) as [|[e|] fs]; [by apply Hm|done|].
  apply Hm. etransitivity; [symmetry; apply sameTables_tenant, sameTables_faults|].
  etransitivity; [exact Hs|apply sameTables_tenant, sameTables_faults].
Qed.

Lemma stmt_gets_tenant t {A} (f : db -> A) d d' : tenantFn t f ->
  sameTenant t d d' -> db_faults d = db_faults d' -> (stmt (gets f) d).2 = (stmt (gets f) d').2.
Proof. intros Hf. apply stmt_tenant. intros d0 d0' Hs. cbn. f_equal. by apply Hf. Qed.

Lemma scanRow_tenant t {A} b (q : db -> option A) d d' : tenantFn t q ->
  sameTenant t d d' -> db_faults d = db_faults d' -> (scanRow b q d).2 = (scanRow b q d').2.
Proof.
  intros Hq Hs Hf. unfold scanRow, queryRow, try. unroll.
  assert (Hb : forall X (m : X), (if b then m else m) = m) by by destruct b. rewrite !Hb.
  match goal with |- context [stmt ?m d] => pose proof (stmt_tenant t m d d') as Hst end.
  destruct (stmt _ d) as [d1 r1]. destruct (stmt _ d') as [d1' r1']. cbn [snd] in Hst.
  rewrite Hst; [by destruct r1'| |done..]. intros d0 d0' H0. cbn [id]. rewrite (Hq _ _ H0). by destruct (q d0').
Qed.

Lemma owns_tenant t c : tenantFn t (fun d => owns d t c).
Proof. intros d d' Hs. unfold owns, ownEntry. by rewrite !(own_lookup ce_tenant_id), (sm_entries _ _ _ Hs). Qed.

(** The rows a listing of a tenant selects. *)
Lemma rows_tenant t {R} (table : db -> gmap string R) owner (p : R -> bool) :
  (forall d d', sameTenant t d d' -> rowsOf owner t (table d) = rowsOf owner t (table d')) ->
  (forall r, p r = true -> owner r = t) -> tenantFn t (fun d => selectRows (table d) (fun _ r => p r)).
Proof. intros Ht Hp d d' Hs. eapply (select_owner owner); [by apply Ht|done]. Qed.

Lemma chunks_tenant t (p : string * Z -> chunkRow -> bool) :
  tenantFn t (fun d => selectRows (content_chunks d) (fun k r => owns d t k.1 && p k r)).
Proof.
  intros d d' Hs. pose proof (fun c => owns_tenant t c d d' Hs) as Ho.
  apply (selectRows_within (fun kr : string * Z * chunkRow => owns d t kr.1.1 = true)).
  - pose proof (sm_chunks _ _ _ Hs) as Hc. unfold chunksOf in Hc. rewrite Hc. apply map_filter_ext. intros k r _. cbn. by rewrite Ho.
  - cbn. intros k r _ Hp. by bool_hyps.
  - cbn. intros k r _ Hp. rewrite Ho. by bool_hyps.
  - cbn. intros k r _. by rewrite Ho.
Qed.

Lemma bind_ret_same {A B} (m : MDB A) (k : A -> B) d d' : (m d).2 = (m d').2 ->
  ((x ← m; ret (k x)) d).2 = ((x ← m; ret (k x)) d').2.
Proof. unroll. destruct (m d) as [d1 r1], (m d') as [d2 r2]. cbn. intros ->. by destruct r2. Qed.

Lemma select_chunks_of t c d d' : sameTenant t d d' ->
  selectRows (content_chunks d) (fun k _ => bool_decide (k.1 = c) && owns d t k.1) =
  selectRows (content_chunks d') (fun k _ => bool_decide (k.1 = c) && owns d' t k.1).
Proof.
  intros Hs. pose proof (chunks_tenant t (fun k _ => bool_decide (k.1 = c)) d d' Hs) as Hc.
  assert (Hcomm : forall d0, selectRows (content_chunks d0) (fun k _ => bool_decide (k.1 = c) && owns d0 t k.1) =
    selectRows (content_chunks d0) (fun k _ => owns d0 t k.1 && bool_decide (k.1 = c))).
  { intros d0. unfold selectRows. f_equal. apply map_filter_ext. intros k r _. cbn. by rewrite andb_comm. }
  by rewrite !Hcomm.
Qed.

Lemma listRows_tenant t {R A} (table : db -> gmap string R) owner (p : R -> bool) created (scan : string * R -> A) d d' :
  (forall d d', sameTenant t d d' -> rowsOf owner t (table d) = rowsOf owner t (table d')) ->
  (forall r, p r = true -> owner r = t) -> sameTenant t d d' -> db_faults d = db_faults d' ->
  (listRows table p created scan d).2 = (listRows table p created scan d').2.
Proof.
  intros Ht Hp. apply stmt_gets_tenant. intros d0 d0' H0. do 3 f_equal. by apply (rows_tenant t table owner).
Qed.

Ltac owner_of := let r := fresh in let Hr := fresh in
  intros r Hr; unfold inFolder, nodeIn, ofDomain, activeFor, ofNode in Hr; by bool_hyps.

(** What a tenant-scoped read returns is determined by the rows of the
    tenant: two databases that agree on them (and on the state of the link) give
    the same answer, whatever the rows of the other tenants are. *)
Lemma reads_tenant t (r : read) d d' : sameTenant t d d' -> db_faults d = db_faults d' ->
  (runRead t r d).2 = (runRead t r d').2.
Proof.
  intros Hs Hf. destruct r as [p|f|ps id|dom|g|n|c|c|order c hs|id]; cbn [runRead readType].
  - apply (listRows_tenant t folders fd_tenant_id); [apply sm_folders|owner_of|done..].
  - apply (listRows_tenant t nodes nd_tenant_id); [apply sm_nodes|owner_of|done..].
  - apply (scanRow_tenant t); [|done..]. intros d0 d0' H0. unfold ownDomain.
    by rewrite !(own_lookup ed_tenant_id), (sm_domains _ _ _ H0).
  - apply (listRows_tenant t key_envelopes ke_tenant_id); [apply sm_envelopes|owner_of|done..].
  - apply (listRows_tenant t share_grants sg_tenant_id); [apply sm_grants|owner_of|done..].
  - apply (scanRow_tenant t); [|done..]. intros d0 d0' H0. do 3 f_equal.
    apply (rows_tenant t snapshots ac_tenant_id); [apply sm_snapshots|owner_of|done].
  - apply (scanRow_tenant t); [|done..]. intros d0 d0' H0. unfold ownEntry.
    by rewrite !(own_lookup ce_tenant_id), (sm_entries _ _ _ H0).
  - apply (stmt_gets_tenant t); [|done..]. intros d0 d0' H0. do 2 f_equal. apply (select_chunks_of t); done.
  - apply bind_ret_same, (stmt_gets_tenant t); [|done..]. intros d0 d0' H0. do 3 f_equal. by apply (chunks_tenant t).
  - apply (scanRow_tenant t); [|done..]. intros d0 d0' H0. unfold ownSession.
    by rewrite !(own_lookup us_tenant_id), (sm_sessions _ _ _ H0).
Qed.

(** ** Writes *)
Inductive write :=
| WFolder (f : Folder) | WNode (n : Node) | WDomain (e : EncryptionDomain)
| WRotate (id : string) (prevKeyEnvelope : bytes) | WEnvelope (e : KeyEnvelope) | WGrant (g : ShareGrant)
| WRevoke (id : string) | WSnapshot (a : AccessContextSnapshot) | WEntry (e : ContentEntry)
| WChunks (contentID : string) (chunks : list ContentChunk) | WSession (s : KDRV1UploadSession)
| WAppend (id : string) (chunk : RawMessage) | WState (id state : string) | WDelete (id : string).
(** The tenant a row is created for is the caller's; chunks go to a content
    entry of the caller. *)
Definition writesFor (t : string) (w : write) (d : db) : bool :=
  match w with
  | WFolder f => bool_decide (fo_TenantID f = t) | WNode n => bool_decide (no_TenantID n = t)
  | WDomain e => bool_decide (e_TenantID e = t) | WEnvelope e => bool_decide (k_TenantID e = t)
  | WGrant g => bool_decide (g_TenantID g = t) | WSnapshot a => bool_decide (a_TenantID a = t)
  | WEntry e => bool_decide (c_TenantID e = t) | WChunks c _ => owns d t c
  | WSession s => bool_decide (s_TenantID s = t)
  | WRotate _ _ | WRevoke _ | WAppend _ _ | WState _ _ | WDelete _ => true
  end.
Definition runWrite (t : string) (w : write) : MDB unit :=
  match w with
  | WFolder f => CreateFolder f | WNode n => CreateNode n | WDomain e => CreateEncryptionDomain e
  | WRotate id k => RotateEncryptionDomain id t k | WEnvelope e => CreateKeyEnvelope e | WGrant g => CreateShareGrant g
  | WRevoke id => RevokeShareGrant id t | WSnapshot a => CreateAccessContextSnapshot a
  | WEntry e => CreateContentEntry e | WChunks c l => CreateContentChunks c l
  | WSession s => CreateKDRV1UploadSession s | WAppend id c => AppendKDRV1UploadSessionChunk id t c
  | WState id s => UpdateKDRV1UploadSessionState id t s | WDelete id => DeleteKDRV1UploadSession id t
  end.

(** A row that does not belong to the tenant, before or after. *)
Lemma rowsOf_insert {K R} `{Countable K} (owner : R -> string) t (m : gmap K R) k r :
  owner r <> t -> (forall r0, m !! k = Some r0 -> owner r0 <> t) -> rowsOf owner t m = rowsOf owner t (<[k := r]> m).
Proof. intros Hr H0. symmetry. by apply map_filter_insert_not'. Qed.
Lemma rowsOf_new {K R} `{Countable K} (owner : R -> string) t (m : gmap K R) k r :
  owner r <> t -> ~ is_Some (m !! k) -> rowsOf owner t m = rowsOf owner t (<[k := r]> m).
Proof. intros Hr Hn. apply rowsOf_insert; [done|]. intros r0 H0. destruct Hn. by exists r0. Qed.
Lemma rowsOf_delete {K R} `{Countable K} (owner : R -> string) t (m : gmap K R) k r :
  m !! k = Some r -> owner r <> t -> rowsOf owner t m = rowsOf owner t (delete k m).
Proof. intros Hk Hr. symmetry. apply map_filter_delete_not. intros y Hy. rewrite Hk in Hy. by injection Hy as <-. Qed.

(** A single statement, from its body on any state with the same tables. *)
Lemma stmt_isolated {A} t (m : MDB A) d d' r : stmt m d = (d', r) ->
  (forall d0 d1 r1, sameTables d d0 -> m d0 = (d1, r1) -> sameTenant t d0 d1) -> sameTenant t d d'.
Proof.
  intros Hs Hm. apply stmt_cases in Hs as [(e & fs & _ & -> & _)|(fs & Hs)].
  - apply sameTables_tenant, sameTables_faults.
  - etransitivity; [apply sameTables_tenant, (sameTables_faults d fs)|]. eapply Hm; [apply sameTables_faults|done].
Qed.

(** Run the checks of a statement: each that fails leaves the state as it is;
    and a new row of another tenant. *)
Ltac run_checks := let Hs := fresh "Hs" in
  intros d0 d1 r1 Hs; revert Hs; unroll; cbn [id]; unfold jsonParam;
  repeat match goal with
  | |- context [if ?b then _ else _] => destruct b eqn:?; cbn [negb]
  | |- context [match ?x with Some _ => _ | None => _ end] => destruct x eqn:?
  end; try (intros [= <- _]; reflexivity).
Ltac new_row := let Hr := fresh in
  intros [= <- _]; bool_hyps; split; try reflexivity; apply rowsOf_new; [cbn; congruence|assumption].

Lemma create_isolated t t' w d d' r : t <> t' -> writesFor t' w d = true -> runWrite t' w d = (d', r) ->
  match w with
  | WFolder _ | WNode _ | WDomain _ | WEnvelope _ | WGrant _ | WSnapshot _ | WSession _ => sameTenant t d d'
  | _ => True
  end.
Proof.
  intros Ht Hw Hr. destruct w; cbn [writesFor runWrite] in *; try exact I; bool_hyps;
    (eapply stmt_isolated; [exact Hr|]; intros d0 d1 r1 _; revert d0 d1 r1; run_checks; new_row).
Qed.

(** Computations that leave the rows of a tenant alone. *)
Definition keeps (t : string) {A} (m : MDB A) : Prop := forall d d' r, m d = (d', r) -> sameTenant t d d'.

Lemma keeps_pure t {A} (f : db -> result A) : keeps t (fun d => (d, f d)).
Proof. by intros d d' r [= <- _]. Qed.
Lemma keeps_bind t {A B} (m : MDB A) (k : A -> MDB B) : keeps t m -> (forall a, keeps t (k a)) -> keeps t (x ← m; k x).
Proof.
  intros Hm Hk d d' r [(e & He & _)|(a & d1 & Ha & Hb)]%bind_cases; [by eapply Hm|].
  etransitivity; [by eapply Hm|by eapply Hk].
Qed.
Lemma keeps_stmt t {A} (m : MDB A) : keeps t m -> keeps t (stmt m).
Proof. intros Hm d d' r Hs. eapply stmt_isolated; [exact Hs|]. intros d0 d1 r1 _. apply Hm. Qed.
Lemma keeps_fail_if t b e : keeps t (@fail_if db b e).
Proof. destruct b; apply keeps_pure. Qed.
Lemma keeps_transaction t {A} (m : MDB A) : keeps t m -> keeps t (transaction m).
Proof.
  intros Hm d d' [a|e] Ht; [|by eapply sameTables_tenant, transaction_atomic].
  apply transaction_Ok in Ht as (fs & d1 & Hb & Hs). etransitivity; [apply sameTables_tenant, (sameTables_faults d fs)|].
  etransitivity; [by eapply Hm|by apply sameTables_tenant].
Qed.
Lemma keeps_scanRow t {A} b (q : db -> option A) : keeps t (scanRow b q).
Proof.
  unfold scanRow, queryRow. assert (Hs : keeps t (stmt (d ← gets id; match q d with Some a => ret a | None => throw (ErrSentinel SqlNoRows) end))).
  { apply keeps_stmt, keeps_bind; [apply (keeps_pure t (fun d => Ok d))|]. intros d. destruct (q d); apply keeps_pure. }
  apply keeps_bind; [|intros [a|e]; apply keeps_pure]. intros d d' r. unfold try.
  assert (Hb : forall X (m : X), (if b then m else m) = m) by by destruct b. rewrite Hb.
  destruct (stmt _ d) as [d1 r1] eqn:H1. intros [= <- _]. by eapply Hs.
Qed.
Lemma keeps_update t {R} (get : db -> gmap string R) set (owner : R -> string) k p f :
  (forall m d, rowsOf owner t (get d) = rowsOf owner t m -> sameTenant t d (set m d)) ->
  (forall r, p r = true -> owner r <> t) -> (forall d r, owner (f d r) = owner r) -> keeps t (updateAt get set k p f).
Proof.
  intros Hset Hp Hf d d' r. unfold updateAt. destruct (get d !! k) as [row|] eqn:Hk; [|by intros [= <- _]].
  destruct (p row) eqn:Hr; [|by intros [= <- _]]. intros [= <- _]. apply Hset, rowsOf_insert.
  - rewrite Hf. by apply Hp.
  - intros r0 H0. rewrite Hk in H0. injection H0 as <-. by apply Hp.
Qed.
Create HintDb keeps.
#[export] Hint Resolve keeps_pure keeps_bind keeps_stmt keeps_fail_if keeps_transaction keeps_scanRow : keeps.

Lemma set_table_sessions t m d : rowsOf us_tenant_id t (sessions d) = rowsOf us_tenant_id t m ->
  sameTenant t d (d <| sessions := m |>).
Proof. by split. Qed.

Ltac keeps_row := intros; unfold ofTenant in *; bool_hyps; cbn; congruence.

Lemma update_isolated t t' w d d' r : t <> t' -> runWrite t' w d = (d', r) ->
  match w with WRotate _ _ | WRevoke _ | WAppend _ _ | WState _ _ | WDelete _ => sameTenant t d d' | _ => True end.
Proof.
  intros Ht. destruct w; cbn [runWrite]; try (intros _; exact I); revert d d' r;
    match goal with |- forall d d' r, ?m d = (d', r) -> _ => change (keeps t m) end.
  - apply keeps_transaction, keeps_bind; [apply keeps_stmt, keeps_bind|intros cur; apply keeps_bind; [apply keeps_stmt, keeps_bind|]];
      [apply (keeps_pure t (fun d => Ok d))|intros d; destruct (ownDomain _ _ _); apply keeps_pure|apply keeps_fail_if| |
       intros; apply keeps_pure]. intros _.
    apply (keeps_update t _ _ ed_tenant_id); [by split|keeps_row|done].
  - apply keeps_bind; [|intros; apply keeps_fail_if]. apply keeps_stmt.
    apply (keeps_update t _ _ sg_tenant_id); [by split|keeps_row|done].
  - apply keeps_transaction, keeps_bind; [apply keeps_scanRow|]. intros ex.
    apply keeps_bind; [apply keeps_pure|]. intros merged. apply keeps_bind; [|intros; apply keeps_pure].
    apply keeps_stmt, (keeps_update t _ _ us_tenant_id); [by split|keeps_row|done].
  - apply keeps_bind; [|intros; apply keeps_pure].
    apply keeps_stmt, (keeps_update t _ _ us_tenant_id); [by split|keeps_row|done].
  - apply keeps_stmt. intros d d' r [= <- _]. case_bool_decide as Ho; [|done]. destruct Ho as [row Ho].
    unfold ownSession in Ho. destruct (sessions d !! id) as [row0|] eqn:Hr; [|done].
    case_bool_decide as Hown; [|done]. split; try reflexivity. eapply rowsOf_delete; [exact Hr|congruence].
Qed.

(** An entry of another tenant brings no chunk to this one. *)
Lemma entry_isolated t t' e d d' r : t <> t' -> c_TenantID e = t' -> CreateContentEntry e d = (d', r) -> sameTenant t d d'.
Proof.
  intros Ht He Hr. eapply stmt_isolated; [exact Hr|]. intros d0 d1 r1 _. revert d0 d1 r1. run_checks.
  intros [= <- _]. bool_hyps. assert (Hrows : rowsOf ce_tenant_id t (content_entries d0) = rowsOf ce_tenant_id t
    (<[c_ContentID e := mkEntryRow (c_TenantID e) (c_PlaintextSize e) (c_ChunkCount e) (c_ChunkSize e) (c_ChunkPlanRoot e)
      (c_PepperGeneration e) (db_clock d0)]> (content_entries d0))) by (apply rowsOf_new; [cbn; congruence|assumption]).
  split; try reflexivity; [exact Hrows|]. unfold chunksOf. apply map_filter_ext. intros k row _. cbn.
  unfold owns, ownEntry. rewrite !(own_lookup ce_tenant_id). cbn. by rewrite Hrows.
Qed.

Lemma chunkMap_key contentID cs k row : chunkMap contentID cs !! k = Some row -> k.1 = contentID.
Proof.
  unfold chunkMap. intros Hk%elem_of_list_to_map_2. apply list_elem_of_fmap in Hk as (c & [= -> _] & _). done.
Qed.

Lemma owns_other d t t' c : t <> t' -> owns d t' c = true -> owns d t c = false.
Proof.
  intros Ht (e & He & Het)%owns_spec. destruct (owns d t c) eqn:Ho; [|done].
  apply owns_spec in Ho as (e' & He' & Het'). congruence.
Qed.

Lemma chunks_isolated t t' c cs d d' r : t <> t' -> owns d t' c = true -> CreateContentChunks c cs d = (d', r) ->
  sameTenant t d d'.
Proof.
  intros Ht Ho Hr. unfold CreateContentChunks in Hr. destruct (len cs =? 0); [by injection Hr as <- _|].
  revert Hr. unroll. destruct (maxChunksPerCall <? len cs); [by intros [= <- _]|]. intros Hr.
  destruct r as [u|e]; [|by eapply sameTables_tenant, transaction_atomic].
  apply transaction_Ok in Hr as (fs & d1 & Hb & Hs1). destruct (prepare _) as [d0 [[]|]] eqn:Hp; [|done].
  apply stmt_Ok in Hp as [fs0 [= <-]]. apply insertChunks_Ok in Hb as [Hs _].
  etransitivity; [|apply sameTables_tenant; exact Hs1]. etransitivity; [|apply sameTables_tenant; exact Hs].
  split; try reflexivity. unfold chunksOf. apply map_eq. intros k. apply option_eq. intros row.
  rewrite !map_lookup_filter_Some. cbn [fst snd].
  match goal with |- context [owns (upd _ _ _) t k.1] => change (owns (upd _ _ _) t k.1) with (owns d t k.1) | _ => idtac end.
  cbn [content_chunks upd eta_expand eta_db]. split; intros [Hk Hown]; split; try exact Hown.
  - rewrite lookup_union. by rewrite Hk; destruct (chunkMap c cs !! k).
  - rewrite lookup_union in Hk. destruct (content_chunks d !! k) as [x|]; destruct (chunkMap c cs !! k) as [y|] eqn:Hy;
      try done. apply chunkMap_key in Hy. rewrite <- Hy in Ho. change (owns d t k.1 = true) in Hown.
    pose proof (owns_other d t t' k.1 Ht Ho). congruence.
Qed.

(** A write made for one tenant - creating rows of its own, rotating its
    keys, revoking its grants, adding chunks to its contents, working on its
    upload sessions - leaves the rows of every other tenant as they are, whether
    it succeeds or fails; so by [reads_tenant] no other tenant can tell that
    it happened. *)
Lemma writes_tenant t t' w d d' r : t <> t' -> writesFor t' w d = true -> runWrite t' w d = (d', r) ->
  sameTenant t d d'.
Proof.
  intros Ht Hw Hr. pose proof (create_isolated t t' w d d' r Ht Hw Hr) as Hc.
  pose proof (update_isolated t t' w d d' r Ht Hr) as Hu. destruct w; cbn [writesFor runWrite] in *; try exact Hc; try exact Hu.
  - bool_hyps. by eapply entry_isolated.
  - by eapply chunks_isolated.
Qed.

(** ** Witnesses *)
(** Tenant [t] cannot see that tenant [u] has lost its chunks. *)
Definition ex_without_u : db := ex_with_chunks
  <| content_chunks := filter (fun kr : string * Z * chunkRow => kr.1.1 = "c") (content_chunks ex_with_chunks) |>.
Definition ex_read : read := RHashes id "c" ["h1"].

Lemma reads_tenant_example :
  (runRead "t" ex_read ex_with_chunks).2 = (runRead "t" ex_read ex_without_u).2 /\
  content_chunks ex_without_u !! ("o", 0) = None.
Proof.
  split; [|vm_compute; reflexivity].
  apply (reads_tenant "t" ex_read); [|reflexivity]. split; try reflexivity; vm_compute; reflexivity.
Defined.

Definition ex_write : write := WChunks "o" ex_chunks.
Lemma writes_tenant_example : sameTenant "t" ex_with_chunks (runWrite "u" ex_write ex_with_chunks).1 /\
  ck_blob_key <$> content_chunks (runWrite "u" ex_write ex_with_chunks).1 !! ("o", 1) = Some "key1".
Proof.
  destruct (runWrite "u" ex_write ex_with_chunks) as [d' r] eqn:H. split.
  - apply (writes_tenant "t" "u" ex_write ex_with_chunks d' r); [discriminate|vm_compute; reflexivity|exact H].
  - assert (Hd : d' = (runWrite "u" ex_write ex_with_chunks).1) by (rewrite H; reflexivity). rewrite Hd.
    vm_compute. reflexivity.
Defined.
