(* ===== verification/Promotion.v ===== *)
(** * internal/worker/jobs.go: [PromotionJob]

    One batch: the job lists the cached placements, feeds them to a pool of
    goroutines over a channel and collects their results over another. The pool
    is a machine with one step for each thing a goroutine does between two
    channel operations; a call of [Promote] is one step, so that any order in
    which the calls of the workers take effect is a run of it. [feed] and
    [collect] are the two loops of the job's own goroutine. *)
From S2P Require Import Prelude GoStd Sha256 BlobStore HotCache LruCore MemoryCache LocalFsDev LocalStore Db.
From S2P Require Import Pipeline PipelineSafety PgStatus MetaStore.
Local Open Scope Z_scope.

Record PromotionJob := mkPromotionJob {
  pj_interval : Z; pj_batchSize : Z; pj_parallelism : Z;
  pj_meta : bool; pj_statusStore : bool;
  pj_promotedTotal : Z; pj_failedTotal : Z; pj_batchCount : Z }.
#[export] Instance eta_PromotionJob : Eta PromotionJob := fun j =>
  mkPromotionJob (pj_interval j) (pj_batchSize j) (pj_parallelism j) (pj_meta j) (pj_statusStore j)
    (pj_promotedTotal j) (pj_failedTotal j) (pj_batchCount j).

Definition ctxCanceled : error := ErrSentinel CtxCanceled.

(** ** The pool *)
Inductive poolWorker :=
| PWait
| PHold (p : CachedPlacement)
| PReply (blobKey : string) (r : result unit)
| PExit.
#[export] Instance poolWorker_inhabited : Inhabited poolWorker := populate PWait.

Section pool.
Context {C St SS : Type} `{!Cache C} `{!Store St} `{!StatusStore SS}.

(** [po_calls]: the keys [Promote] was called with; [po_log]: the results
    collected. *)
Record pool := mkPool {
  po_pipe : Pipeline C St SS;
  po_clock : Time;
  po_cap : nat;
  po_feed : list CachedPlacement;
  po_work : list CachedPlacement;
  po_workers : list poolWorker;
  po_results : list (string * result unit);
  po_cancelled : bool;
  po_log : list (string * result unit);
  po_calls : list string
}.
#[local] Instance eta_pool : Eta pool := fun s =>
  mkPool (po_pipe s) (po_clock s) (po_cap s) (po_feed s) (po_work s) (po_workers s) (po_results s) (po_cancelled s)
    (po_log s) (po_calls s).

Inductive poolAct :=
| Feed | Collect | Cancel | Run (i : nat) (now finish : Time).

Definition setPoolWorker (i : nat) (w : poolWorker) (s : pool) : pool := s <| po_workers := <[i := w]> (po_workers s) |>.

(** A worker's step: receive, look at the context, promote, send. *)
Definition stepPoolWorker (i : nat) (now finish : Time) (s : pool) : option pool :=
  match po_workers s !! i with
  | Some PWait =>
      match po_work s, po_feed s with
      | p :: q, _ => Some (setPoolWorker i (PHold p) (s <| po_work := q |>))
      | [], [] => Some (setPoolWorker i PExit s)
      | [], _ => None
      end
  | Some (PHold p) =>
      let key := cp_BlobKey p in
      if po_cancelled s then Some (setPoolWorker i (PReply key (Err ctxCanceled)) s) else
      if po_clock s <? now then
        let (pipe, r) := Promote now finish key (po_pipe s) in
        Some (setPoolWorker i (PReply key r)
          (s <| po_pipe := pipe |> <| po_clock := now |> <| po_calls := po_calls s ++ [key] |>))
      else None
  | Some (PReply key r) =>
      if (length (po_results s) <? po_cap s)%nat
      then Some (setPoolWorker i PWait (s <| po_results := po_results s ++ [(key, r)] |>)) else None
  | _ => None
  end.

Definition stepPool (a : poolAct) (s : pool) : option pool :=
  match a with
  | Feed =>
      match po_feed s with
      | p :: q => if (length (po_work s) <? po_cap s)%nat
                  then Some (s <| po_feed := q |> <| po_work := po_work s ++ [p] |>) else None
      | [] => None
      end
  | Collect =>
      match po_feed s, po_results s with
      | [], r :: q => Some (s <| po_results := q |> <| po_log := po_log s ++ [r] |>)
      | _, _ => None
      end
  | Cancel => if po_cancelled s then None else Some (s <| po_cancelled := true |>)
  | Run i now finish => stepPoolWorker i now finish s
  end.

Definition isPExit (w : poolWorker) : bool := match w with PExit => true | _ => false end.
(** The loop over [resultCh] ends: it is closed and empty. *)
Definition poolDone (s : pool) : bool :=
  bool_decide (po_feed s = []) && bool_decide (po_results s = []) && forallb isPExit (po_workers s).

Definition poolSize (parallelism : Z) (n : nat) : nat :=
  let par := if parallelism <? 1 then 1 else parallelism in
  Z.to_nat (if Z.of_nat n <? par then Z.of_nat n else par).
Definition startPool (parallelism : Z) (clock : Time) (pipe : Pipeline C St SS) (cancelled : bool)
    (placements : list CachedPlacement) : pool :=
  mkPool pipe clock (length placements) placements [] (replicate (poolSize parallelism (length placements)) PWait)
    [] cancelled [] [].

Inductive poolRun : nat -> pool -> pool -> Prop :=
| pool_nil s : poolRun 0 s s
| pool_cons n a s s1 s' : stepPool a s = Some s1 -> poolRun n s1 s' -> poolRun (S n) s s'.

(** ** The outcome of a batch *)
Definition promotedIn (log : list (string * result unit)) : Z := len (List.filter (fun x : string * result unit => is_Ok x.2) log).
Definition failedIn (log : list (string * result unit)) : Z :=
  len (List.filter (fun x : string * result unit => negb (is_Ok x.2)) log).
Definition afterBatch (log : list (string * result unit)) (j : PromotionJob) : PromotionJob :=
  j <| pj_batchCount := wrap64 (pj_batchCount j + 1) |>
    <| pj_promotedTotal := wrap64 (pj_promotedTotal j + promotedIn log) |>
    <| pj_failedTotal := wrap64 (pj_failedTotal j + failedIn log) |>.

(** A schedule for execution: the first step there is, collecting first; the
    clock ticks. *)
Definition firstStep (s : pool) : option pool :=
  let now := po_clock s + 1 in
  fold_right (fun a rest => match stepPool a s with Some s' => Some s' | None => rest end) None
    ([Collect] ++ map (fun i => Run i now now) (seq 0 (length (po_workers s))) ++ [Feed]).
Fixpoint drivePool (fuel : nat) (s : pool) : option pool :=
  if poolDone s then Some s else
  match fuel with
  | O => None
  | S fuel' => match firstStep s with Some s' => drivePool fuel' s' | None => None end
  end.

(** ** No result is lost, none is made up *)
Definition occ (k : string) (l : list string) : Z := Z.of_nat (count_occ String.string_dec l k).
Definition hit (k x : string) : Z := if String.string_dec x k then 1 else 0.
Definition keysOf (l : list CachedPlacement) : list string := map cp_BlobKey l.
Definition heldBy (k : string) (w : poolWorker) : Z :=
  match w with PHold p => hit k (cp_BlobKey p) | PReply x _ => hit k x | _ => 0 end.
Definition repliesOf (k : string) (w : poolWorker) : Z := match w with PReply x _ => hit k x | _ => 0 end.
Definition busy (w : poolWorker) : Z := match w with PHold _ | PReply _ _ => 1 | _ => 0 end.

Lemma occ_cons k x l : occ k (x :: l) = hit k x + occ k l.
Proof. unfold occ, hit. cbn. destruct (String.string_dec x k); lia. Qed.
Lemma occ_app k l l' : occ k (l ++ l') = occ k l + occ k l'.
Proof. unfold occ. rewrite count_occ_app. lia. Qed.
Lemma occ_nonneg k l : 0 <= occ k l.
Proof. unfold occ. lia. Qed.
Lemma occ_Permutation l l' : (forall k, occ k l = occ k l') -> l ≡ₚ l'.
Proof. intros Hk. apply (Permutation_count_occ String.string_dec). intros k. specialize (Hk k). unfold occ in Hk. lia. Qed.

(** What holds of a key in every state of the pool. *)
Record poolInv (placements : list CachedPlacement) (k : string) (s : pool) : Prop := {
  pv_keys : occ k (keysOf (po_feed s)) + occ k (keysOf (po_work s)) + sumOver (heldBy k) (po_workers s)
    + occ k (map fst (po_results s)) + occ k (map fst (po_log s)) = occ k (keysOf placements);
  pv_calls : occ k (po_calls s) <=
    sumOver (repliesOf k) (po_workers s) + occ k (map fst (po_results s)) + occ k (map fst (po_log s));
  pv_all : po_cancelled s = false -> occ k (po_calls s) =
    sumOver (repliesOf k) (po_workers s) + occ k (map fst (po_results s)) + occ k (map fst (po_log s));
  pv_exit : PExit ∈ po_workers s -> po_feed s = [] /\ po_work s = [];
  pv_cap : len (po_feed s) + len (po_work s) + sumOver busy (po_workers s) + len (po_results s) + len (po_log s)
    = Z.of_nat (po_cap s)
}.

Lemma exit_insert (ws : list poolWorker) (i : nat) w : PExit ∈ <[i := w]> ws -> w <> PExit -> PExit ∈ ws.
Proof.
  intros [j Hj]%list_elem_of_lookup Hw. apply list_lookup_insert_Some in Hj as [(_ & -> & _)|[_ Hj]]; [by destruct Hw|].
  by eapply list_elem_of_lookup_2.
Qed.

Ltac pool_fields := cbn [po_pipe po_clock po_feed po_work po_workers po_results po_log po_calls po_cancelled po_cap
  setPoolWorker upd eta_expand eta_pool].
Ltac pool_count := unfold keysOf in *; cbn [map fst] in *;
  repeat first [rewrite map_app|rewrite occ_app|rewrite len_app|progress (cbn [map fst])|rewrite occ_cons|rewrite len_cons
    |erewrite sumOver_insert by eassumption];
  repeat match goal with H : context [occ _ (_ :: _)] |- _ => rewrite occ_cons in H
    | H : context [len (_ :: _)] |- _ => rewrite len_cons in H end;
  cbn [heldBy repliesOf busy fst]; change (occ _ []) with 0 in *; change (@len _ []) with 0 in *; try lia.

Lemma stepPool_inv pls k a s s' : poolInv pls k s -> stepPool a s = Some s' -> poolInv pls k s'.
Proof.
  intros [Hk Hc Ha He Hcap].
  assert (Hx : forall i w, w <> PExit -> PExit ∈ <[i := w]> (po_workers s) -> po_feed s = [] /\ po_work s = []).
  { intros i w Hw Hin. apply He. by eapply exit_insert. }
  destruct a as [| | |i now finish]; cbn [stepPool].
  - destruct (po_feed s) as [|p q] eqn:Hf; [done|]. destruct (_ <? _)%nat; [|done]. intros [= <-].
    split; pool_fields; try done; pool_count. intros Hin. by destruct (He Hin).
  - destruct (po_feed s) as [|p q] eqn:Hf; [|done]. destruct (po_results s) as [|r q] eqn:Hr; [done|]. intros [= <-].
    split; pool_fields; rewrite ?Hf; try done; pool_count; intros Hcn%Ha; pool_count.
  - destruct (po_cancelled s); [done|]. intros [= <-]. by split.
  - unfold stepPoolWorker. destruct (po_workers s !! i) as [[|p|key r|]|] eqn:Hi; [| | |done|done].
    + destruct (po_work s) as [|p q] eqn:Hw.
      * destruct (po_feed s) as [|] eqn:Hf; [|done]. intros [= <-].
        split; pool_fields; rewrite ?Hf, ?Hw; try done; pool_count; intros Hcn%Ha; pool_count.
      * intros [= <-]. split; pool_fields; try done; pool_count; [intros Hcn%Ha; pool_count|].
        intros Hin. by destruct (Hx i (PHold p) ltac:(done) Hin).
    + destruct (po_cancelled s) eqn:Hcn.
      { intros [= <-]. split; pool_fields; rewrite ?Hcn; try done; pool_count; [|by apply Hx].
        unfold hit. destruct (String.string_dec _ _); lia. }
      destruct (po_clock s <? now); [|done]. destruct (Promote _ _ _ _) as [pipe r]. intros [= <-].
      split; pool_fields; rewrite ?Hcn; try done; pool_count; by apply Hx.
    + destruct (_ <? _)%nat; [|done]. intros [= <-]. split; pool_fields; try done; pool_count; [|by apply Hx].
      intros Hcn%Ha; pool_count.
Qed.


Lemma startPool_inv par clock pipe cn pls k : poolInv pls k (startPool par clock pipe cn pls).
Proof.
  split; cbn [startPool po_feed po_work po_workers po_results po_log po_calls po_cancelled po_cap map];
    rewrite ?sumOver_replicate, ?Z.mul_0_r; try done.
  - unfold keysOf, occ. cbn. lia.
  - intros Hx. by apply elem_of_replicate in Hx as [? _].
  - unfold len. cbn. lia.
Qed.

Lemma poolRun_inv pls k n s s' : poolRun n s s' -> poolInv pls k s -> poolInv pls k s'.
Proof. induction 1 as [|n a s s1 s' Hs _ IH]; [done|]. intros Hi. apply IH. by eapply stepPool_inv. Qed.

Lemma done_sum f ws : forallb isPExit ws = true -> f PExit = 0 -> sumOver f ws = 0.
Proof.
  intros Hw Hf. induction ws as [|w ws IH]; [done|]. cbn in Hw. apply andb_true_iff in Hw as [He Hw].
  change (f w + sumOver f ws = 0). rewrite (IH Hw). destruct w; try done. lia.
Qed.

Lemma log_counts (log : list (string * result unit)) : promotedIn log + failedIn log = len log.
Proof.
  unfold promotedIn, failedIn, len. induction log as [|[k [u|e]] log IH]; cbn; [done| |]; lia.
Qed.

Lemma stepPool_workers a s s' : stepPool a s = Some s' -> length (po_workers s') = length (po_workers s).
Proof.
  destruct a as [| | |i now finish]; cbn [stepPool]; [..|unfold stepPoolWorker]; repeat case_match; try done;
    intros [= <-]; pool_fields; try done; apply length_insert.
Qed.

Lemma poolRun_workers n s s' : poolRun n s s' -> length (po_workers s') = length (po_workers s).
Proof. induction 1 as [|n a s s1 s' Hs _ IH]; [done|]. rewrite IH. by eapply stepPool_workers. Qed.

Lemma poolSize_pos par n : (0 < n)%nat -> (0 < poolSize par n)%nat.
Proof. unfold poolSize. intros Hn. destruct (Z.ltb_spec par 1); match goal with |- context [?a <? ?b] => destruct (Z.ltb_spec a b) end; lia. Qed.

(** What a finished batch has done. *)
Lemma pool_finished par clock pipe cn pls n s : pls <> [] ->
  poolRun n (startPool par clock pipe cn pls) s -> poolDone s = true ->
  map fst (po_log s) ≡ₚ keysOf pls /\ promotedIn (po_log s) + failedIn (po_log s) = len pls /\
  (forall k, occ k (po_calls s) <= occ k (keysOf pls)) /\ (po_cancelled s = false -> po_calls s ≡ₚ keysOf pls).
Proof.
  intros Hne Hr Hd. unfold poolDone in Hd. apply andb_true_iff in Hd as [[Hf Hrs]%andb_true_iff Hw].
  apply bool_decide_eq_true in Hf, Hrs.
  assert (Hi : forall k, poolInv pls k s) by (intros k; eapply poolRun_inv; [exact Hr|apply startPool_inv]).
  assert (Hwork : po_work s = []).
  { pose proof (poolRun_workers _ _ _ Hr) as Hlen. cbn [startPool po_workers] in Hlen. rewrite length_replicate in Hlen.
    pose proof (poolSize_pos par (length pls)) as Hp.
    assert (Hl : (0 < length pls)%nat) by (destruct pls; [done|cbn; lia]). specialize (Hp Hl).
    destruct (po_workers s) as [|w ws] eqn:Hws; [cbn in Hlen; lia|].
    destruct (pv_exit _ _ _ (Hi "")) as [_ ?]; [|done]. rewrite Hws. cbn in Hw. destruct w; try done. apply list_elem_of_here. }
  assert (Hk : forall k, occ k (map fst (po_log s)) = occ k (keysOf pls)).
  { intros k. destruct (Hi k) as [Hk _ _ _ _]. rewrite Hf, Hwork, Hrs, done_sum in Hk by done. exact Hk. }
  assert (Hp : map fst (po_log s) ≡ₚ keysOf pls) by by apply occ_Permutation.
  split; [done|]. split; [|split].
  - rewrite log_counts. apply Permutation_length in Hp. unfold keysOf in Hp. rewrite !length_map in Hp. unfold len. lia.
  - intros k. destruct (Hi k) as [_ Hc _ _ _]. rewrite Hrs, done_sum in Hc by done. rewrite <- Hk. exact Hc.
  - intros Hcn. apply occ_Permutation. intros k. destruct (Hi k) as [_ _ Ha _ _]. specialize (Ha Hcn).
    rewrite Hrs, done_sum in Ha by done. rewrite <- Hk. exact Ha.
Qed.

(** ** A batch ends *)
Definition workerLoad (w : poolWorker) : Z := match w with PWait => 1 | PHold _ => 4 | PReply _ _ => 3 | PExit => 0 end.
Definition poolLoad (s : pool) : Z :=
  5 * len (po_feed s) + 4 * len (po_work s) + sumOver workerLoad (po_workers s) + len (po_results s)
  + (if po_cancelled s then 0 else 1).


Lemma poolLoad_nonneg s : 0 <= poolLoad s.
Proof.
  unfold poolLoad. pose proof (sumOver_nonneg workerLoad (po_workers s) ltac:(by intros [])).
  pose proof (len_nonneg (po_feed s)). pose proof (len_nonneg (po_work s)). pose proof (len_nonneg (po_results s)).
  destruct (po_cancelled s); lia.
Qed.

Lemma stepPool_load a s s' : stepPool a s = Some s' -> poolLoad s' < poolLoad s.
Proof.
  unfold poolLoad. destruct a as [| | |i now finish]; cbn [stepPool].
  - destruct (po_feed s) as [|p q]; [done|]. destruct (_ <? _)%nat; [|done]. intros [= <-]. pool_fields. pool_count.
  - destruct (po_feed s) as [|p q] eqn:Hf; [|done]. destruct (po_results s) as [|r q]; [done|]. intros [= <-].
    pool_fields. rewrite Hf. pool_count.
  - destruct (po_cancelled s); [done|]. intros [= <-]. pool_fields. lia.
  - unfold stepPoolWorker. destruct (po_workers s !! i) as [[|p|key r|]|] eqn:Hi; [| | |done|done].
    + destruct (po_work s) as [|p q] eqn:Hw; [destruct (po_feed s) eqn:Hf; [|done]|]; intros [= <-]; pool_fields;
        rewrite ?Hw, ?Hf; erewrite sumOver_insert by eassumption; cbn [workerLoad]; pool_count.
    + destruct (po_cancelled s) eqn:Hcn.
      { intros [= <-]. pool_fields. rewrite ?Hcn. erewrite sumOver_insert by eassumption. cbn [workerLoad]. lia. }
      destruct (po_clock s <? now); [|done]. destruct (Promote _ _ _ _) as [pipe r]. intros [= <-]. pool_fields.
      rewrite ?Hcn. erewrite sumOver_insert by eassumption. cbn [workerLoad]. lia.
    + destruct (_ <? _)%nat; [|done]. intros [= <-]. pool_fields. erewrite sumOver_insert by eassumption.
      cbn [workerLoad]. pool_count.
Qed.

Lemma poolRun_bound n s s' : poolRun n s s' -> Z.of_nat n <= poolLoad s - poolLoad s'.
Proof. induction 1 as [|n a s s1 s' Hs _ IH]; [lia|]. apply stepPool_load in Hs. lia. Qed.

(** Until it is done, some goroutine can move. *)
Lemma pool_progress pls s : poolInv pls "" s -> poolDone s = false ->
  exists a s', stepPool a s = Some s' /\
    a ∈ [Collect] ++ map (fun i => Run i (po_clock s + 1) (po_clock s + 1)) (seq 0 (length (po_workers s))) ++ [Feed].
Proof.
  intros [_ _ _ _ Hcap] Hd. pose proof (sumOver_nonneg busy (po_workers s) ltac:(by intros [])) as Hb.
  pose proof (len_nonneg (po_log s)). destruct (po_feed s) as [|p q] eqn:Hf.
  - destruct (po_results s) as [|r q] eqn:Hr.
    2: { exists Collect. cbn [stepPool]. rewrite Hf, Hr. eexists. split; [done|]. set_solver. }
    unfold poolDone in Hd. rewrite Hf, Hr in Hd. cbn in Hd.
    assert (Hw : exists i w, po_workers s !! i = Some w /\ isPExit w = false).
    { clear -Hd. induction (po_workers s) as [|w ws IH]; [done|]. cbn in Hd. destruct (isPExit w) eqn:He.
      - destruct (IH Hd) as (i & w' & Hi & Hw'). by exists (S i), w'.
      - by exists O, w. }
    destruct Hw as (i & w & Hi & Hw). exists (Run i (po_clock s + 1) (po_clock s + 1)).
    assert (Hin : Run i (po_clock s + 1) (po_clock s + 1) ∈
      [Collect] ++ map (fun i => Run i (po_clock s + 1) (po_clock s + 1)) (seq 0 (length (po_workers s))) ++ [Feed]).
    { apply elem_of_app. right. apply elem_of_app. left. apply list_elem_of_fmap. exists i. split; [done|].
      apply list_elem_of_In, in_seq. apply lookup_lt_Some in Hi. lia. }
    cbn [stepPool]. unfold stepPoolWorker. rewrite Hi, Hf, Hr. destruct w as [|p|key r|]; [| | |done].
    + destruct (po_work s) as [|p q]; by eexists.
    + destruct (po_cancelled s); [by eexists|]. destruct (Z.ltb_spec (po_clock s) (po_clock s + 1)); [|lia].
      destruct (Promote _ _ _ _). by eexists.
    + pose proof (sumOver_member busy _ _ _ ltac:(by intros []) Hi) as Hm. cbn in Hm, Hcap.
      destruct (Nat.ltb_spec (length (@nil (string * result unit))) (po_cap s)) as [_|Hge]; [by eexists|]. cbn in Hge.
      unfold len in *. cbn in *. lia.
  - exists Feed. cbn [stepPool]. rewrite Hf. pose proof (len_nonneg (po_results s)). rewrite len_cons in Hcap.
    destruct (Nat.ltb_spec (length (po_work s)) (po_cap s)) as [_|Hge]; [eexists; split; [done|set_solver]|].
    unfold len in *. lia.
Qed.

Lemma firstStep_Some pls s : poolInv pls "" s -> poolDone s = false -> exists a s', stepPool a s = Some s' /\ firstStep s = Some s'.
Proof.
  intros Hi Hd. destruct (pool_progress pls s Hi Hd) as (a & s1 & Hs & Ha). unfold firstStep. revert Ha.
  generalize ([Collect] ++ map (fun i => Run i (po_clock s + 1) (po_clock s + 1)) (seq 0 (length (po_workers s))) ++ [Feed]).
  intros acts. induction acts as [|b acts IH]; [by intros ?%elem_of_nil|]. cbn [fold_right].
  destruct (stepPool b s) as [s2|] eqn:Hb; [by exists b, s2|]. intros [->|Ha]%elem_of_cons; [congruence|by apply IH].
Qed.

Lemma drivePool_ends pls fuel s : (forall k, poolInv pls k s) -> poolLoad s <= Z.of_nat fuel ->
  exists n s', drivePool fuel s = Some s' /\ poolRun n s s' /\ poolDone s' = true.
Proof.
  revert s. induction fuel as [|fuel IH]; intros s Hi Hl; cbn [drivePool]; destruct (poolDone s) eqn:Hd;
    try (exists O, s; by repeat constructor).
  - exfalso. destruct (firstStep_Some pls s (Hi "") Hd) as (a & s1 & Hs & _). apply stepPool_load in Hs.
    pose proof (poolLoad_nonneg s1). lia.
  - destruct (firstStep_Some pls s (Hi "") Hd) as (a & s1 & Hs & ->).
    destruct (IH s1) as (n & s' & Hdr & Hr & Hd').
    + intros k. by eapply stepPool_inv.
    + apply stepPool_load in Hs. lia.
    + exists (S n), s'. split; [done|]. split; [by econstructor|done].
Qed.
End pool.
Arguments pool : clear implicits.
#[export] Existing Instance eta_pool.

Ltac pool_fields := cbn [po_pipe po_clock po_feed po_work po_workers po_results po_log po_calls po_cancelled po_cap
  setPoolWorker upd eta_expand eta_pool].

(** ** No schedule loses a blob *)
Section safety.
Context {C St SS : Type} `{CacheLaws C} `{StoreLaws St} `{StatusLaws SS}.
Notation pool := (pool C St SS).

Definition recordedDurable (id : string) (p : Pipeline C St SS) : Prop :=
  exists st, view (pl_status p) id = Some st /\ bs_CommitState st = CommitDurable.
(** A promote of [id] has reported success. *)
Definition reported (id : string) (s : pool) : Prop :=
  (id, Ok tt) ∈ po_log s \/ (id, Ok tt) ∈ po_results s \/ PReply id (Ok tt) ∈ po_workers s.

Record poolSafe (id : string) (size : Z) (sum : string) (s : pool) : Prop := {
  ps_pinv : pinv (po_clock s) (po_pipe s);
  ps_safe : safe id size sum (po_pipe s);
  ps_reported : reported id s -> recordedDurable id (po_pipe s)
}.

Lemma reply_inserted (ws : list poolWorker) i w id : PReply id (Ok tt) ∈ <[i := w]> ws ->
  w = PReply id (Ok tt) \/ PReply id (Ok tt) ∈ ws.
Proof.
  intros [j Hj]%list_elem_of_lookup. apply list_lookup_insert_Some in Hj as [(_ & -> & _)|[_ Hj]]; [by left|right].
  by eapply list_elem_of_lookup_2.
Qed.

(** A step that leaves the pipeline alone reports nothing new. *)
Lemma poolSafe_quiet id size sum s s' : po_pipe s' = po_pipe s -> po_clock s' = po_clock s ->
  (reported id s' -> reported id s) -> poolSafe id size sum s -> poolSafe id size sum s'.
Proof. intros Hp Hc Hr [Hi Hs Hd]. split; rewrite ?Hp, ?Hc; auto. Qed.

Lemma stepPool_safe id size sum a s s' : head_sums ->
  (forall i p, po_workers s !! i = Some (PHold p) -> good_key (cp_BlobKey p)) ->
  stepPool a s = Some s' -> poolSafe id size sum s -> poolSafe id size sum s'.
Proof.
  intros Hh Hg Hs Hsafe.
  assert (Hq : forall i w, po_workers s !! i = Some w -> w = PReply id (Ok tt) -> reported id s).
  { intros i w Hi ->. right. right. by eapply list_elem_of_lookup_2. }
  destruct a as [| | |i now finish]; cbn [stepPool] in Hs.
  - destruct (po_feed s) as [|p q]; [done|]. destruct (_ <? _)%nat; [|done]. injection Hs as <-.
    by apply (poolSafe_quiet id size sum s).
  - destruct (po_feed s); [|done]. destruct (po_results s) as [|r q] eqn:Hr; [done|]. injection Hs as <-.
    apply (poolSafe_quiet id size sum s); [done|done| |done]. unfold reported. pool_fields. rewrite Hr. set_solver.
  - destruct (po_cancelled s); [done|]. injection Hs as <-. by apply (poolSafe_quiet id size sum s).
  - unfold stepPoolWorker in Hs. destruct (po_workers s !! i) as [[|p|key r|]|] eqn:Hi; [| | |done|done].
    + destruct (po_work s) as [|p q]; [destruct (po_feed s); [|done]|]; injection Hs as <-;
        (apply (poolSafe_quiet id size sum s); [done|done| |done]); unfold reported; pool_fields;
        (intros [?|[?|[?|?]%reply_inserted]]; [by left|by right; left|done|by right; right]).
    + destruct (po_cancelled s).
      { injection Hs as <-. apply (poolSafe_quiet id size sum s); [done|done| |done]. unfold reported. pool_fields.
        intros [?|[?|[?|?]%reply_inserted]]; [by left|by right; left|done|by right; right]. }
      destruct (Z.ltb_spec (po_clock s) now) as [Hnow|]; [|done].
      destruct (Promote now finish (cp_BlobKey p) (po_pipe s)) as [pipe r] eqn:Hp. injection Hs as <-.
      destruct Hsafe as [Hpi Hs Hd].
      destruct (Promote_keeps _ now finish _ _ pipe r Hpi Hnow (Hg _ _ Hi) Hp) as (Hpi' & Hu & Hsame).
      destruct (decide (id = cp_BlobKey p)) as [->|Hne].
      * destruct (promoted_safe _ now (cp_BlobKey p) _ _ _ pipe r Hh (pi_store _ _ Hpi) (Hg _ _ Hi) (Hsame _ _ Hs)) as [Hs' Hr].
        split; pool_fields; [done|done|]. unfold reported. pool_fields.
        intros Hrep. unfold recordedDurable in *. destruct r as [u|e]; [exact Hr|]. rewrite Hr. apply Hd.
        destruct Hrep as [?|[?|[?|?]%reply_inserted]]; [by left|by right; left|done|by right; right].
      * split; pool_fields; [done|by eapply safe_unaffected; [apply Hu|]|]. unfold reported. pool_fields.
        intros Hrep. unfold recordedDurable in *. rewrite (un_view _ _ _ (Hu id Hne)). apply Hd.
        destruct Hrep as [?|[?|[?|?]%reply_inserted]]; [by left|by right; left|congruence|by right; right].
    + destruct (_ <? _)%nat; [|done]. injection Hs as <-.
      apply (poolSafe_quiet id size sum s); [done|done| |done]. unfold reported. pool_fields.
      intros [?|[[?|?%list_elem_of_singleton]%elem_of_app|[?|?]%reply_inserted]]; [by left|by right; left| |done|by right; right].
      right. right. eapply list_elem_of_lookup_2. rewrite Hi. congruence.
Qed.

Lemma held_key pls (s : pool) i p : (forall k, poolInv pls k s) ->
  po_workers s !! i = Some (PHold p) -> cp_BlobKey p ∈ keysOf pls.
Proof.
  intros Hinv Hi. destruct (Hinv (cp_BlobKey p)) as [Hk _ _ _ _].
  pose proof (sumOver_member (heldBy (cp_BlobKey p)) _ _ _ ltac:(intros []; cbn; unfold hit; try destruct (String.string_dec _ _); lia) Hi) as Hm.
  cbn in Hm. unfold hit in Hm. destruct (String.string_dec _ _) as [_|]; [|done].
  apply list_elem_of_In. apply (count_occ_In String.string_dec).
  pose proof (occ_nonneg (cp_BlobKey p) (keysOf (po_feed s))). pose proof (occ_nonneg (cp_BlobKey p) (keysOf (po_work s))).
  pose proof (occ_nonneg (cp_BlobKey p) (map fst (po_results s))). pose proof (occ_nonneg (cp_BlobKey p) (map fst (po_log s))).
  unfold occ in *. lia.
Qed.

Lemma poolRun_safe pls id size sum n (s s' : pool) : head_sums -> (forall k, k ∈ keysOf pls -> good_key k) ->
  poolRun n s s' -> (forall k, poolInv pls k s) -> poolSafe id size sum s -> poolSafe id size sum s'.
Proof.
  intros Hh Hg. induction 1 as [|n a s s1 s' Hs _ IH]; [done|]. intros Hi Hsafe. apply IH.
  - intros k. by eapply stepPool_inv.
  - eapply stepPool_safe; [exact Hh| |exact Hs|exact Hsafe]. intros i p Hp. apply Hg. by eapply held_key.
Qed.
End safety.

(** ** The job *)
Section job.
Context {C St : Type} `{!Cache C} `{!Store St} `{!PgTime}.

Definition placementOf (v : FileVersion) : CachedPlacement :=
  mkCachedPlacement (v_BlobKey v) (v_SizeBytes v) (v_ChecksumSHA256 v) zeroTime.
Definition listBatch (j : PromotionJob) : MDB (list CachedPlacement) :=
  if pj_statusStore j then ListCachedPlacements (pj_batchSize j) else
  versions ← ListCachedVersions (pj_batchSize j); ret (map placementOf versions).

(** One [runOnce]: what it may do to the job and the pipeline. *)
Inductive runOnce (clock : Time) (j : PromotionJob) (p : Pipeline C St db) : PromotionJob -> Pipeline C St db -> Prop :=
| ro_skip : pj_meta j = false -> pj_statusStore j = false -> runOnce clock j p j p
| ro_error d e : pj_meta j || pj_statusStore j = true -> listBatch j (pl_status p) = (d, Err e) ->
    runOnce clock j p j (p <| pl_status := d |>)
| ro_empty d : pj_meta j || pj_statusStore j = true -> listBatch j (pl_status p) = (d, Ok []) ->
    runOnce clock j p j (p <| pl_status := d |>)
| ro_batch d pls cancelled n s : pj_meta j || pj_statusStore j = true -> listBatch j (pl_status p) = (d, Ok pls) ->
    pls <> [] -> poolRun n (startPool (pj_parallelism j) clock (p <| pl_status := d |>) cancelled pls) s ->
    poolDone s = true -> runOnce clock j p (afterBatch (po_log s) j) (po_pipe s).

(** A [runOnce] with the schedule of [firstStep]. *)
Definition driveOnce (clock : Time) (j : PromotionJob) (p : Pipeline C St db) : option (PromotionJob * Pipeline C St db) :=
  if negb (pj_meta j || pj_statusStore j) then Some (j, p) else
  let '(d, r) := listBatch j (pl_status p) in
  let p := p <| pl_status := d |> in
  match r with
  | Err _ => Some (j, p)
  | Ok [] => Some (j, p)
  | Ok pls =>
      let s := startPool (pj_parallelism j) clock p false pls in
      s' ← drivePool (Z.to_nat (poolLoad s)) s; Some (afterBatch (po_log s') j, po_pipe s')
  end.

Record PromotionStats := mkPromotionStats { PromotedTotal : Z; FailedTotal : Z; BatchCount : Z }.
Definition promotionStats (j : PromotionJob) : PromotionStats :=
  mkPromotionStats (pj_promotedTotal j) (pj_failedTotal j) (pj_batchCount j).
End job.

(** ** Properties *)
(** C34: A batch, whatever the schedule of its workers: it ends, and no schedule
    takes more steps than its load; every placement gets exactly one result,
    the promoted and the failed add up to the batch, [Promote] is called at most
    once for each and exactly once when the context is not cancelled. *)
Theorem batch_any_schedule {C St SS} `{Cache C} `{Store St} `{StatusStore SS}
    par clock (pipe : Pipeline C St SS) cancelled pls n s :
  pls <> [] -> poolRun n (startPool par clock pipe cancelled pls) s ->
  Z.of_nat n <= 5 * len pls + Z.of_nat (poolSize par (length pls)) + 1 /\
  (exists m s', poolRun m s s' /\ poolDone s' = true) /\
  (poolDone s = true -> map fst (po_log s) ≡ₚ keysOf pls /\ promotedIn (po_log s) + failedIn (po_log s) = len pls /\
     (forall k, occ k (po_calls s) <= occ k (keysOf pls)) /\ (po_cancelled s = false -> po_calls s ≡ₚ keysOf pls)).
Proof.
  intros Hne Hr. split; [|split].
  - pose proof (poolRun_bound _ _ _ Hr) as Hb. pose proof (poolLoad_nonneg s).
    assert (Hl : poolLoad (startPool par clock pipe cancelled pls) <= 5 * len pls + Z.of_nat (poolSize par (length pls)) + 1); [|lia].
    unfold poolLoad. cbn [startPool po_feed po_work po_workers po_results po_cancelled].
    rewrite sumOver_replicate, Z.mul_1_r. change (@len CachedPlacement []) with 0. change (len []) with 0. destruct cancelled; lia.
  - destruct (drivePool_ends pls (Z.to_nat (poolLoad s)) s) as (m & s' & _ & Hm & Hd).
    + intros k. eapply poolRun_inv; [exact Hr|apply startPool_inv].
    + pose proof (poolLoad_nonneg s). lia.
    + by exists m, s'.
  - intros Hd. by eapply pool_finished.
Qed.

(** C35: A batch loses no blob, over a store that keeps the laws and whose
    HEAD reports checksums (the local provider does; over the S3 adapter a
    promote can report a different object, [BlindPromote.blind_promote]) and a status
    store that answers its reads: a blob that was safe before - recorded, and
    either protected in the cache or stored durably - is safe afterwards, and
    if the batch reports it promoted, it is recorded durable and the store
    holds a body of its size and SHA-256. *)
Theorem batch_durable {C St SS} `{CacheLaws C} `{StoreLaws St} `{StatusLaws SS}
    par clock (pipe : Pipeline C St SS) cancelled pls n s id size sum :
  head_sums -> pinv clock pipe -> (forall k, k ∈ keysOf pls -> good_key k) -> safe id size sum pipe ->
  poolRun n (startPool par clock pipe cancelled pls) s ->
  pinv (po_clock s) (po_pipe s) /\ safe id size sum (po_pipe s) /\
  ((id, Ok tt) ∈ po_log s -> recordedDurable id (po_pipe s) /\ exists b, stored (po_pipe s).(pl_store) id b /\ len b = size /\ sha256_hex b = sum).
Proof.
  intros Hh Hpi Hg Hs Hr.
  destruct (poolRun_safe pls id size sum n _ s Hh Hg Hr (startPool_inv par clock pipe cancelled pls)) as [Hpi' Hs' Hd].
  { split; [done|done|]. intros [Hx|[Hx|Hx]]; cbn in Hx; [set_solver..|].
    by apply elem_of_replicate in Hx as [? _]. }
  split; [done|]. split; [done|]. intros Hlog. split; [by apply Hd; left|]. destruct Hd as (st & Hv & Hdur); [by left|].
  destruct (sf_view _ _ _ _ Hs') as (st' & Hv' & _ & _ & [(Hc & _)|(_ & b & Hst & Hb)]).
  - rewrite Hv in Hv'. injection Hv' as <-. by rewrite Hdur in Hc.
  - exists b. split; [done|]. exact Hb.
Qed.

(** ** Witnesses: one blob that was written, one that was not *)
#[local] Existing Instances ex_Store ex_StoreLaws.
Definition ex_batch : list CachedPlacement :=
  [mkCachedPlacement "a" 2 (sha256_hex ex_bytes) 10; mkCachedPlacement "b" 2 "" 10].
Definition ex_pool := startPool 4 10 ex_written false ex_batch.
Definition ex_drained := default ex_pool (drivePool 13 ex_pool).

Lemma ex_pool_run : exists n, poolRun n ex_pool ex_drained /\ poolDone ex_drained = true.
Proof.
  destruct (drivePool_ends ex_batch 13 ex_pool) as (n & s & Hd & Hr & He).
  - intros k. apply startPool_inv.
  - apply Z.leb_le. vm_compute. reflexivity.
  - exists n. unfold ex_drained. rewrite Hd. exact (conj Hr He).
Qed.

Lemma batch_any_schedule_witness : map fst (po_log ex_drained) ≡ₚ ["a"; "b"] /\
  promotedIn (po_log ex_drained) + failedIn (po_log ex_drained) = 2 /\ po_calls ex_drained ≡ₚ ["a"; "b"].
Proof.
  destruct ex_pool_run as (n & Hr & Hd).
  destruct (batch_any_schedule 4 10 ex_written false ex_batch n ex_drained ltac:(discriminate) Hr) as (_ & _ & Hall).
  destruct (Hall Hd) as (Hk & Hc & _ & Hcalls). split; [exact Hk|]. split; [exact Hc|].
  apply Hcalls. vm_compute. reflexivity.
Defined.

Lemma batch_durable_witness : exists b,
  stored (pl_store (po_pipe ex_drained)) "a" b /\ len b = 2 /\ sha256_hex b = sha256_hex ex_bytes.
Proof.
  destruct ex_pool_run as (n & Hr & _).
  destruct (batch_durable 4 10 ex_written false ex_batch n ex_drained "a" 2 (sha256_hex ex_bytes)) as (_ & _ & Hb).
  - exact ex_sums.
  - exact (proj1 ex_written_safe).
  - intros k [->|[->|[]%elem_of_nil]%elem_of_cons]%elem_of_cons; done.
  - exact (proj2 ex_written_safe).
  - exact Hr.
  - apply Hb. assert (Hl : ("a", Ok tt) = nth 0 (po_log ex_drained) ("", Err ctxCanceled) \/ ("a", Ok tt) = nth 1 (po_log ex_drained) ("", Err ctxCanceled)) by (vm_compute; auto).
    assert (Hn : length (po_log ex_drained) = 2%nat) by (vm_compute; reflexivity).
    destruct Hl as [->| ->]; apply list_elem_of_In, nth_In; lia.
Defined.

(** The in-memory cache over a Postgres database: the job itself. *)
#[local] Instance ex_micros : PgTime := fun t => t / 1000 * 1000.
Definition ex_pg_written := (Write 10 11 "a" ex_bytes ex_options
  (NewWithStatusStore (newLru (DefaultEvictionPolicy 1000)) ex_init (emptyDb 5000))).1.
Example driveOnce_counts :
  promotionStats <$> (fst <$> driveOnce 10 (mkPromotionJob 30 100 4 true true 0 0 0) ex_pg_written)
  = Some (mkPromotionStats 1 0 1).
Proof. vm_compute. reflexivity. Qed.
