(* ===== verification/Jobs.v ===== *)
(** * internal/worker/jobs.go: the other jobs

    [RepairJob], [PurgeJob], [GuardrailRollupJob], [BackupJob] and
    [verifyChecksum]: one [runOnce] each, with its counters and the alerts it
    logs. A cancellation of the context is a number: how many times the job
    looks at it before it is done ([None]: never). *)
From Stdlib Require Import Strings.Ascii.
From S2P Require Import Prelude GoStd Sha256 BlobStore HotCache LruCore MemoryCache Fs LocalFsDev LocalStore LocalDirs LocalVersions LocalUploads Db.
From S2P Require Import Pipeline PipelineSafety PgStatus.
Local Open Scope Z_scope.

(** ** [verifyChecksum] *)
Section verify.
Context {St : Type} `{!Store St}.

Definition verifyChecksum (now : Time) (key versionID expectedSHA : string) : M St unit :=
  rm ← wrap "repair: get %q: %w" (st_Get now (mkGetRequest (mkVersionedObjectRef key versionID) None));
  b ← wrap "repair: read %q: %w" (lift (ReadAll rm.1));
  fail_if (negb (bool_decide (sha256_hex b = expectedSHA))) (ErrNew "repair: checksum mismatch for %q: got %s, want %s").

Lemma verifyChecksum_Ok now key v sum s : is_Ok (verifyChecksum now key v sum s).2 = true <->
  exists r md, (st_Get now (mkGetRequest (mkVersionedObjectRef key v) None) s).2 = Ok (r, md) /\
    rd_err r = None /\ sha256_hex (rd_bytes r) = sum.
Proof.
  unfold verifyChecksum, wrap, ReadAll. unroll.
  destruct (st_Get _ _ _) as [s1 [[r md]|e]]; cbn; [|split; [done|by intros (? & ? & ? & _)]].
  destruct (rd_err r) eqn:Hr; [split; [done|intros (r' & md' & [= -> ->] & Hn & _); congruence]|].
  case_bool_decide as Hs; cbn; [split; [intros _; by exists r, md|done]|].
  split; [done|by intros (r' & md' & [= -> ->] & _ & ?)].
Qed.
End verify.

(** ** [RepairJob] *)
Record RepairJob := mkRepairJob {
  rj_interval : Z; rj_sampleCount : Z; rj_statusStore : bool;
  rj_checkedTotal : Z; rj_mismatchTotal : Z; rj_scanCount : Z }.
#[export] Instance eta_RepairJob : Eta RepairJob := fun j =>
  mkRepairJob (rj_interval j) (rj_sampleCount j) (rj_statusStore j) (rj_checkedTotal j) (rj_mismatchTotal j) (rj_scanCount j).

Record RepairStats := mkRepairStats { CheckedTotal : Z; MismatchTotal : Z; ScanCount : Z }.
Definition repairStats (j : RepairJob) : RepairStats :=
  mkRepairStats (rj_checkedTotal j) (rj_mismatchTotal j) (rj_scanCount j).

Section repair.
Context {St : Type} `{!Store St, !PgTime}.

(** The loop over the samples; [alarms] are the keys logged so far,
    [clock i] the time the i-th read takes place. *)
Fixpoint repairLoop (clock : nat -> Time) (cancel : option nat) (samples : list DurablePlacement)
    (j : RepairJob) (s : St) (alarms : list string) : RepairJob * St * list string :=
  match samples with
  | [] => (j, s, alarms)
  | p :: rest =>
      if bool_decide (cancel = Some O) then (j, s, alarms) else
      let (s, r) := verifyChecksum (clock O) (dp_BlobKey p) (dp_BlobVersionID p) (dp_ChecksumSHA256 p) s in
      let j := j <| rj_checkedTotal := wrap64 (rj_checkedTotal j + 1) |> in
      let clock := fun i => clock (S i) in
      match r with
      | Ok _ => repairLoop clock (pred <$> cancel) rest j s alarms
      | Err _ => repairLoop clock (pred <$> cancel) rest
                   (j <| rj_mismatchTotal := wrap64 (rj_mismatchTotal j + 1) |>) s (alarms ++ [dp_BlobKey p])
      end
  end.

(** [RepairJob.runOnce]. *)
Definition repairOnce (clock : nat -> Time) (shuffle : list (string * placementRow) -> list (string * placementRow))
    (cancel : option nat) (j : RepairJob) (s : St) (d : db) : RepairJob * St * db * list string :=
  if negb (rj_statusStore j) then (j, s, d, []) else
  let j := j <| rj_scanCount := wrap64 (rj_scanCount j + 1) |> in
  match SampleDurablePlacements shuffle (rj_sampleCount j) d with
  | (d, Err _) => (j, s, d, [])
  | (d, Ok samples) => let '(j, s, alarms) := repairLoop clock cancel samples j s [] in (j, s, d, alarms)
  end.
End repair.

(** ** [PurgeJob] *)
Inductive purgeEnd := PurgeNoInventory | PurgeCancelled | PurgeFailed (e : error) | PurgeFound (n : Z).

Section purge.
Context {St : Type}.

(** [inventory]: the store's [ListMultipartUploads], when it implements
    [BlobInventory]. [None]: the loop has not ended after [fuel] pages. *)
Fixpoint purgeLoop (list : ListUploadsRequest -> M St UploadPage) (fuel : nat) (cancel : option nat)
    (cursor : string) (total : Z) (s : St) : St * option purgeEnd :=
  match fuel with
  | O => (s, None)
  | S fuel' =>
      if bool_decide (cancel = Some O) then (s, Some PurgeCancelled) else
      match list (mkListUploadsRequest "" cursor 1000) s with
      | (s, Err e) => (s, Some (PurgeFailed e))
      | (s, Ok page) =>
          let total := wrap64 (total + len (ul_Uploads page)) in
          if bool_decide (ul_NextCursor page = "") then (s, Some (PurgeFound total))
          else purgeLoop list fuel' (pred <$> cancel) (ul_NextCursor page) total s
      end
  end.

(** [PurgeJob.runOnce]; what it found is only logged. *)
Definition purgeOnce (inventory : option (ListUploadsRequest -> M St UploadPage)) (fuel : nat) (cancel : option nat)
    (s : St) : St * option purgeEnd :=
  match inventory with
  | None => (s, Some PurgeNoInventory)
  | Some list => purgeLoop list fuel cancel "" 0 s
  end.
End purge.

(** ** [GuardrailRollupJob] *)
Record GuardrailRollupJob := mkGuardrailRollupJob {
  gj_interval : Z; gj_statusStore : bool; gj_queueDepthAlert : Z;
  gj_queueDepthSamples : Z; gj_queueDepthAlerts : Z }.
#[export] Instance eta_GuardrailRollupJob : Eta GuardrailRollupJob := fun j =>
  mkGuardrailRollupJob (gj_interval j) (gj_statusStore j) (gj_queueDepthAlert j) (gj_queueDepthSamples j)
    (gj_queueDepthAlerts j).

Record GuardrailStats := mkGuardrailStats { QueueDepthSamples : Z; QueueDepthAlerts : Z }.
Definition guardrailStats (j : GuardrailRollupJob) : GuardrailStats :=
  mkGuardrailStats (gj_queueDepthSamples j) (gj_queueDepthAlerts j).

(** The warnings a rollup logs. *)
Inductive alert := HitRatioBelowTarget (ratio : float64) | CountFailed (e : error) | QueueDepthAbove (depth : Z).

Definition hitRatioOf (s : HotCache.Stats) : float64 :=
  let total := wrapU64 (Hits s + Misses s) in
  if 0 <? total then f64_div (f64_of_Z (Hits s)) (f64_of_Z total) else f64_of_Z 0.
Definition cacheAlerts (stats : option HotCache.Stats) : list alert :=
  match stats with
  | None => []
  | Some s =>
      if (100 <? wrapU64 (Hits s + Misses s)) && f64_ltb (hitRatioOf s) (f64_lit 9 10)
      then [HitRatioBelowTarget (hitRatioOf s)] else []
  end.

(** [GuardrailRollupJob.runOnce]; [stats] are those of the cache, if any. *)
Definition rollupOnce `{!PgTime} (stats : option HotCache.Stats) (j : GuardrailRollupJob) (d : db)
  : GuardrailRollupJob * db * list alert :=
  let alerts := cacheAlerts stats in
  if negb (gj_statusStore j) then (j, d, alerts) else
  let (d, r) := CountCachedPlacements d in
  let j := j <| gj_queueDepthSamples := wrap64 (gj_queueDepthSamples j + 1) |> in
  match r with
  | Err e => (j, d, alerts ++ [CountFailed e])
  | Ok depth =>
      if (0 <? gj_queueDepthAlert j) && (gj_queueDepthAlert j <? depth)
      then (j <| gj_queueDepthAlerts := wrap64 (gj_queueDepthAlerts j + 1) |>, d, alerts ++ [QueueDepthAbove depth])
      else (j, d, alerts)
  end.

(** ** [BackupJob]: [runBackup] only logs *)
Record BackupJob := mkBackupJob { bj_cron : string; bj_retentionDays : Z }.
Definition runBackup (j : BackupJob) : string * Z := (bj_cron j, bj_retentionDays j).

(** ** What a scan reports *)
Lemma NoDup_map_inj {A B} (f : A -> B) l x y : NoDup (map f l) -> x ∈ l -> y ∈ l -> f x = f y -> x = y.
Proof.
  induction l as [|z l IH]; [by intros _ ?%elem_of_nil|]. intros [Hz Hl]%NoDup_cons.
  intros [->|Hx]%elem_of_cons [->|Hy]%elem_of_cons Hf; [done| | |by apply IH].
  - destruct Hz. apply list_elem_of_fmap. by exists y.
  - destruct Hz. apply list_elem_of_fmap. by exists x.
Qed.

Lemma take_sub {A} (x : A) n l : x ∈ take n l -> x ∈ l.
Proof. intros Hx. rewrite <- (take_drop n l). apply elem_of_app. by left. Qed.

(** Reading a store changes nothing, and its outcome does not depend on the
    time. *)
Class StableGet (St : Type) `{Store St} :=
  stable_Get : forall now now' req s, st_Get now req s = (s, (st_Get now' req s).2).

#[export] Instance Local_StableGet root : @StableGet Provider (Local_Store root).
Proof.
  intros now now' req s. cbn. destruct (Get root now req s) as [s1 r] eqn:Hg.
  assert (s1 = s) as -> by (by eapply Get_same). f_equal. change (Get root now req s = (s, r)) in Hg.
  change (Get root now' req s) with (Get root now req s). by rewrite Hg.
Qed.

Section scan.
Context {St : Type} `{StableGet St, !PgTime}.
Implicit Types (p : DurablePlacement) (s : St).

(** The recorded version reads back whole, with the recorded SHA-256. *)
Definition intact s p : Prop := exists r md,
  (st_Get 0 (mkGetRequest (mkVersionedObjectRef (dp_BlobKey p) (dp_BlobVersionID p)) None) s).2 = Ok (r, md) /\
  rd_err r = None /\ sha256_hex (rd_bytes r) = dp_ChecksumSHA256 p.
Definition flawed s p : bool :=
  negb (is_Ok (verifyChecksum 0 (dp_BlobKey p) (dp_BlobVersionID p) (dp_ChecksumSHA256 p) s).2).

Lemma flawed_spec s p : flawed s p = true <-> ~ intact s p.
Proof.
  unfold flawed. rewrite negb_true_iff. unfold intact.
  rewrite <- (verifyChecksum_Ok 0 (dp_BlobKey p) (dp_BlobVersionID p) (dp_ChecksumSHA256 p) s).
  by rewrite not_true_iff_false.
Qed.

Lemma verifyChecksum_stable now key v sum s :
  verifyChecksum now key v sum s = (s, (verifyChecksum 0 key v sum s).2).
Proof.
  unfold verifyChecksum, wrap. unroll. rewrite (stable_Get now 0).
  rewrite (stable_Get 0 0). cbn [snd]. destruct (st_Get 0 _ s).2 as [[r md]|e]; [|done].
  cbn [fst]. destruct (ReadAll r); [|done]. by destruct (negb _).
Qed.

(** A counter that has been incremented [n] times. *)
Definition counted (z n : Z) : Z := wrap64 (z + n).
Lemma counted_0 z : int64_range z -> z = counted z 0.
Proof. intros Hz. unfold counted. by rewrite Z.add_0_r, wrap64_small. Qed.
Lemma counted_S z n : counted (wrap64 (z + 1)) n = counted z (1 + n).
Proof. unfold counted. rewrite wrap64_add. f_equal. lia. Qed.

Definition scanned (j : RepairJob) (checked alarms : Z) : RepairJob :=
  j <| rj_checkedTotal := counted (rj_checkedTotal j) checked |>
    <| rj_mismatchTotal := counted (rj_mismatchTotal j) alarms |>.

Lemma repairLoop_spec clock cancel samples j s alarms :
  int64_range (rj_checkedTotal j) -> int64_range (rj_mismatchTotal j) ->
  let checked := take (default (length samples) cancel) samples in
  let found := map dp_BlobKey (List.filter (flawed s) checked) in
  repairLoop clock cancel samples j s alarms = (scanned j (len checked) (len found), s, alarms ++ found).
Proof.
  assert (Hstop : forall j s (al : list string), int64_range (rj_checkedTotal j) -> int64_range (rj_mismatchTotal j) ->
            (j, s, al) = (scanned j (len (@nil DurablePlacement)) (len (@nil string)), s : St, al ++ [])).
  { intros [] s0 al Hc Hm. rewrite app_nil_r. unfold scanned. cbn in *. change (len []) with 0. by rewrite <- !counted_0. }
  revert clock cancel j alarms. induction samples as [|p rest IH]; intros clock cancel j alarms Hc Hm; cbn zeta.
  { rewrite take_nil. by apply Hstop. }
  destruct (decide (cancel = Some O)) as [->|Hn]; [by apply Hstop|].
  assert (Htake : take (default (length (p :: rest)) cancel) (p :: rest)
                  = p :: take (default (length rest) (pred <$> cancel)) rest) by (by destruct cancel as [[|n]|]).
  rewrite Htake. cbn [repairLoop List.filter]. rewrite bool_decide_false by done. rewrite verifyChecksum_stable.
  pose proof (eq_refl (flawed s p)) as Hfl. unfold flawed at 1 in Hfl.
  destruct (verifyChecksum 0 _ _ _ s).2 as [u|e]; cbn [is_Ok negb] in Hfl; rewrite <- Hfl; cbn [map];
    rewrite IH by (cbn; done || apply wrap64_range); unfold scanned; cbn; rewrite ?len_cons.
  - do 2 f_equal. by rewrite counted_S.
  - rewrite !counted_S, <- app_assoc. done.
Qed.

(** C36: One repair scan, over a store whose reads have no effect: it changes
    neither the store nor the database; it looks at distinct durable placements,
    as many as asked for if there are that many, up to the cancellation; and it
    raises an alarm for exactly those of them whose recorded version cannot be
    read whole or no longer has the recorded SHA-256. The counters count them. *)
Theorem repair_scan clock shuffle cancel j s d j' s' d' alarms :
  (forall l, shuffle l ≡ₚ l) -> db_faults d = [] -> rj_statusStore j = true -> 0 <= rj_sampleCount j ->
  int64_range (rj_checkedTotal j) -> int64_range (rj_mismatchTotal j) ->
  repairOnce clock shuffle cancel j s d = (j', s', d', alarms) ->
  s' = s /\ d' = d /\ exists samples checked,
    checked = take (default (length samples) cancel) samples /\
    len samples = Z.min (rj_sampleCount j) (len (selectRows (blob_placements d) (fun _ r => isDurable r))) /\
    NoDup (map dp_BlobKey samples) /\
    (forall p, p ∈ samples -> exists r, blob_placements d !! dp_BlobKey p = Some r /\
       bp_commit_state r = "COMMITTED_DURABLE" /\ p = scanDurable (dp_BlobKey p, r)) /\
    (forall p, p ∈ checked -> (dp_BlobKey p ∈ alarms <-> ~ intact s p)) /\
    (forall k, k ∈ alarms -> k ∈ map dp_BlobKey checked) /\
    repairStats j' = mkRepairStats (counted (rj_checkedTotal j) (len checked)) (counted (rj_mismatchTotal j) (len alarms))
      (counted (rj_scanCount j) 1).
Proof.
  intros Hsh Hf Hss Hn Hc Hm. unfold repairOnce, SampleDurablePlacements, wrap. rewrite Hss. unroll.
  rewrite healthy_stmt by done. unfold limitTo. unroll. rewrite (proj2 (Z.ltb_ge _ _)) by (cbn; lia). cbn [id rj_sampleCount upd eta_expand eta_RepairJob].
  set (rows := limit _ _). rewrite repairLoop_spec by done. intros [= <- <- <- <-].
  split; [done|]. split; [done|]. exists (map scanDurable rows). eexists. split; [done|].
  assert (Hin : forall x, x ∈ rows -> x ∈ selectRows (blob_placements d) (fun _ r => isDurable r)).
  { intros x Hx. rewrite <- (Hsh (selectRows _ _)). by eapply take_sub. }
  assert (Hnd : NoDup (map dp_BlobKey (map scanDurable rows))).
  { rewrite map_map. apply (sublist_NoDup _ (shuffle (selectRows (blob_placements d) (fun _ r => isDurable r))).*1).
    - rewrite Hsh. apply NoDup_selectRows.
    - unfold rows, limit. rewrite fmap_take. apply sublist_take. }
  set (samples := map scanDurable rows) in *. set (checked := take _ samples).
  split; [|split; [exact Hnd|split; [|split; [|split; [|done]]]]].
  - unfold samples, rows, limit, len. rewrite length_map, length_take, (Permutation_length (Hsh _)). lia.
  - intros p ([k r] & -> & Hx)%list_elem_of_fmap. exists r. apply Hin, elem_of_selectRows in Hx as [Hk Hd].
    split; [exact Hk|]. split; [|done]. by apply bool_decide_eq_true in Hd.
  - intros p Hp. cbn [app]. rewrite <- flawed_spec. split.
    + intros (q & Hk & Hq)%list_elem_of_fmap. apply list_elem_of_In, filter_In in Hq as [Hq Hb].
      apply list_elem_of_In in Hq. assert (p = q) as ->; [|done].
      apply (NoDup_map_inj dp_BlobKey samples _ _ Hnd); [by eapply take_sub..|done].
    + intros Hb. apply list_elem_of_fmap. exists p. split; [done|]. apply list_elem_of_In, filter_In.
      split; [by apply list_elem_of_In|done].
  - intros k (q & -> & Hq)%list_elem_of_fmap. apply list_elem_of_fmap. exists q. split; [done|].
    apply list_elem_of_In, filter_In in Hq as [Hq _]. by apply list_elem_of_In.
Qed.
End scan.

(** ** The pages of a purge *)
Lemma str_ltb_total s t : s <> t -> str_ltb s t = false -> str_ltb t s = true.
Proof.
  revert t. induction s as [|c s IH]; intros [|d t]; cbn; try done. intros Hne.
  rewrite orb_false_iff, andb_false_iff, N.ltb_ge, N.eqb_neq, orb_true_iff, andb_true_iff, N.ltb_lt, N.eqb_eq.
  intros [Hle [Hd|Hs]]; [left; lia|]. destruct (decide (N_of_ascii c = N_of_ascii d)) as [Hcd|]; [|left; lia].
  right. split; [done|]. apply IH; [|done]. apply (f_equal ascii_of_N) in Hcd. rewrite !ascii_N_embedding in Hcd. congruence.
Qed.

Section sorting.
Context {A : Type} (less : A -> A -> bool) (R : A -> A -> Prop) `{!Transitive R}.
Lemma sort_insert_strongly x l : (forall y, y ∈ l -> if less x y then R x y else R y x) ->
  StronglySorted R l -> StronglySorted R (sort_insert less x l).
Proof.
  intros Hx. induction 1 as [|y l Hl IH Hy]; cbn; [by repeat constructor|]. pose proof (Hx y ltac:(set_solver)) as Hxy.
  destruct (less x y).
  - constructor; [by constructor|]. constructor; [done|]. eapply Forall_impl; [exact Hy|]. cbn. intros z Hz. by etransitivity.
  - constructor; [apply IH; intros z Hz; apply Hx; set_solver|]. rewrite sort_insert_perm. by constructor.
Qed.
Lemma sort_Slice_strongly l : NoDup l -> (forall x y, x ∈ l -> y ∈ l -> x <> y -> if less x y then R x y else R y x) ->
  StronglySorted R (sort_Slice less l).
Proof.
  unfold sort_Slice. intros Hn Hp.
  enough (Hacc : forall acc, NoDup (acc ++ l) -> (forall x y, x ∈ acc ++ l -> y ∈ acc ++ l -> x <> y -> if less x y then R x y else R y x) ->
    StronglySorted R acc -> StronglySorted R (foldl (fun acc x => sort_insert less x acc) acc l)).
  { apply Hacc; [done|done|constructor]. }
  clear Hn Hp. induction l as [|x l IH]; intros acc Hn Hp Hs; cbn; [done|].
  assert (Hperm : sort_insert less x acc ++ l ≡ₚ acc ++ x :: l) by (rewrite sort_insert_perm; apply Permutation_middle).
  apply IH; [by rewrite Hperm|intros y z; rewrite Hperm; apply Hp|]. apply sort_insert_strongly; [|done].
  intros y Hy. apply Hp; [set_solver..|]. intros ->. apply NoDup_app in Hn as (_ & Hd & _). by apply (Hd y Hy), elem_of_cons; left.
Qed.
End sorting.

Section pages.
Context (root : path).
Notation cursorOf := uploadCursor.

(** What [ListMultipartUploads] goes through: the directories two levels below
    the staging area; and the order they are listed in. *)
Definition twoLevel (p : Provider) : list MultipartUpload :=
  match readDir (lf_fs p) (root ++ ["_multipart"]) with Ok es => uploadsOf root (lf_fs p) "" es | Err _ => [] end.
Definition listedBefore (a b : MultipartUpload) : bool :=
  if bool_decide (mu_Key a = mu_Key b) then str_ltb (mu_UploadID a) (mu_UploadID b) else str_ltb (mu_Key a) (mu_Key b).
(** The order of the cursors is the order of the listing. *)
Definition cursorsInOrder (us : list MultipartUpload) : Prop :=
  NoDup (map cursorOf us) /\ forall a b, a ∈ us -> b ∈ us -> listedBefore a b = str_ltb (cursorOf a) (cursorOf b).

Definition after (c : string) (us : list MultipartUpload) : list MultipartUpload :=
  if bool_decide (c = "") then us else List.filter (fun u => str_ltb c (cursorOf u)) us.
Definition pageAt (c : string) (us : list MultipartUpload) : UploadPage :=
  if 1000 <? len (after c us)
  then mkUploadPage (takeZ 1000 (after c us)) (match last (takeZ 1000 (after c us)) with Some u => cursorOf u | None => "" end)
  else mkUploadPage (after c us) "".

Lemma local_page c p es : readDir (lf_fs p) (root ++ ["_multipart"]) = Ok es ->
  ListMultipartUploads root (mkListUploadsRequest "" c 1000) p
    = (p, Ok (pageAt c (sort_Slice listedBefore (twoLevel p)))).
Proof.
  intros He. unfold ListMultipartUploads, twoLevel. rewrite He. cbn [lu_Prefix lu_Cursor lu_MaxKeys].
  unfold pageAt, after. change (0 <? 1000) with true. cbn [andb]. fold listedBefore.
  match goal with |- (if ?b then _ else _) = _ => by destruct b end.
Qed.

Lemma cursorOf_nonempty u : cursorOf u <> "".
Proof. unfold uploadCursor. destruct (mu_Key u); discriminate. Qed.

Lemma after_step c us u : u ∈ after c us -> after (cursorOf u) us = List.filter (fun v => str_ltb (cursorOf u) (cursorOf v)) (after c us).
Proof.
  unfold after. rewrite (bool_decide_false (cursorOf u = "")) by apply cursorOf_nonempty. case_bool_decide as Hc; [done|].
  intros [Hu Hcu]%list_elem_of_In%filter_In. clear Hu. induction us as [|v us IH]; [done|]. cbn [List.filter].
  destruct (str_ltb (cursorOf u) (cursorOf v)) eqn:Huv.
  - rewrite (str_ltb_trans c _ _ Hcu Huv). cbn [List.filter]. by rewrite Huv, IH.
  - destruct (str_ltb c (cursorOf v)); cbn [List.filter]; by rewrite ?Huv.
Qed.

Lemma filter_shorter {A} (f : A -> bool) l x : x ∈ l -> f x = false -> (length (List.filter f l) < length l)%nat.
Proof.
  intros Hx Hf. induction l as [|y l IH]; [by apply elem_of_nil in Hx|]. cbn.
  apply elem_of_cons in Hx as [->|Hx]; [rewrite Hf; pose proof (List.filter_length_le f l); lia|].
  specialize (IH Hx). destruct (f y); cbn; lia.
Qed.

Definition inCursorOrder : MultipartUpload -> MultipartUpload -> Prop := fun a b => str_ltb (cursorOf a) (cursorOf b) = true.

Lemma after_sorted c us : StronglySorted inCursorOrder us -> StronglySorted inCursorOrder (after c us).
Proof.
  unfold after. case_bool_decide; [done|]. induction 1 as [|u us _ IH Hu]; [constructor|]. cbn.
  destruct (str_ltb c (cursorOf u)); [|done]. constructor; [done|]. rewrite Forall_forall in *. intros v Hv.
  apply Hu. apply list_elem_of_In, filter_In in Hv as [Hv _]. by apply list_elem_of_In.
Qed.

(** The rest of a sorted listing after its element [u]. *)
Lemma rest_of_sorted pre u post : StronglySorted inCursorOrder (pre ++ u :: post) ->
  List.filter (fun v => str_ltb (cursorOf u) (cursorOf v)) (pre ++ u :: post) = post.
Proof.
  induction pre as [|w pre IH]; cbn [app List.filter]; intros [Hs Hw]%StronglySorted_inv.
  - rewrite str_ltb_irrefl. induction post as [|v post IHp]; [done|]. apply Forall_cons in Hw as [Hv Hw]. cbn.
    rewrite Hv. f_equal. apply IHp; [by apply StronglySorted_inv in Hs as [? _]|done].
  - destruct (str_ltb (cursorOf u) (cursorOf w)) eqn:Huw; [|by apply IH].
    rewrite Forall_forall in Hw. specialize (Hw u ltac:(set_solver)).
    pose proof (str_ltb_trans _ _ _ Huw Hw) as Hx. by rewrite str_ltb_irrefl in Hx.
Qed.

Lemma pageAt_ends us : (len us < 2 ^ 63) -> forall fuel c total cancel p,
  (forall c', ListMultipartUploads root (mkListUploadsRequest "" c' 1000) p = (p, Ok (pageAt c' us))) ->
  (length (after c us) < fuel)%nat ->
  exists r, purgeLoop (ListMultipartUploads root) fuel cancel c total p = (p, Some r) /\
    (cancel <> None /\ r = PurgeCancelled \/ exists n, r = PurgeFound n /\
      (StronglySorted inCursorOrder us -> 0 <= total ->
       total + len (after c us) <= len us -> n = total + len (after c us))).
Proof.
  intros Hus fuel. induction fuel as [|fuel IH]; intros c total cancel p Hl Hf; [lia|]. cbn [purgeLoop].
  case_bool_decide as Hc; [exists PurgeCancelled; split; [done|left; by subst]|]. rewrite Hl. unfold pageAt.
  destruct (Z.ltb_spec 1000 (len (after c us))) as [Hbig|_]; cbn [ul_Uploads ul_NextCursor].
  2: { rewrite bool_decide_true by done. eexists. split; [done|]. right. eexists. split; [done|].
       intros _ Ht Hle. apply wrap64_small. unfold int64_range. pose proof (len_nonneg (after c us)). lia. }
  rewrite len_takeZ, Z.min_l by lia.
  destruct (last (takeZ 1000 (after c us))) as [u|] eqn:Hu.
  2: { apply last_None in Hu. apply (f_equal len) in Hu. rewrite len_takeZ in Hu by lia. change (len []) with 0 in Hu. lia. }
  rewrite bool_decide_false by apply cursorOf_nonempty. apply last_Some in Hu as [pre Hpre].
  pose proof (takeZ_dropZ 1000 (after c us)) as Hsplit. rewrite Hpre, <- app_assoc in Hsplit. cbn [app] in Hsplit.
  assert (Hin : u ∈ after c us) by (rewrite <- Hsplit; set_solver).
  assert (Hstep : after (cursorOf u) us = List.filter (fun v => str_ltb (cursorOf u) (cursorOf v)) (after c us)) by (by apply after_step).
  destruct (IH (cursorOf u) (wrap64 (total + 1000)) (pred <$> cancel) p Hl) as (r & Hr & Hn).
  { rewrite Hstep. pose proof (filter_shorter (fun v => str_ltb (cursorOf u) (cursorOf v)) _ _ Hin (str_ltb_irrefl _)). lia. }
  exists r. split; [exact Hr|]. destruct Hn as [[Hcn ->]|(n & -> & Hn')]; [left; by destruct cancel|].
  right. exists n. split; [done|]. intros Hs Ht Hle. pose proof (after_sorted c us Hs) as Hs'. rewrite <- Hsplit in Hs'.
  assert (Hrest : len (after (cursorOf u) us) = len (after c us) - 1000).
  { rewrite Hstep, <- Hsplit, rest_of_sorted by done. rewrite Hsplit, len_dropZ; lia. }
  rewrite wrap64_small in Hn' by (unfold int64_range; lia). rewrite Hn'; [lia|done|lia|lia].
Qed.

Lemma cursors_sorted us : cursorsInOrder us -> StronglySorted inCursorOrder (sort_Slice listedBefore us).
Proof.
  intros [Hn Ho]. apply sort_Slice_strongly.
  - intros a b c. apply str_ltb_trans.
  - by eapply NoDup_fmap_1.
  - intros a b Ha Hb Hab. unfold inCursorOrder. rewrite (Ho a b Ha Hb). destruct (str_ltb _ _) eqn:Hl; [done|].
    apply str_ltb_total; [|done]. intros Hc. by apply Hab, (NoDup_map_inj cursorOf us).
Qed.

(** *** The uploads that are staged

    Told by their documents: an "upload.json" in the directory that
    [CreateMultipart] makes for the key and identifier it names, however deep
    that is. *)
Definition stagedAt (qn : path * node doc) : option MultipartUpload :=
  match qn.2 with
  | JFile (DUpload m) =>
      if bool_decide (qn.1 = multipartDir root (mm_Key m) (mm_UploadID m) ++ ["upload.json"])
      then Some (mkMultipartUpload (mm_Key m) (mm_UploadID m)) else None
  | _ => None
  end.
Definition stagedUploads (p : Provider) : list MultipartUpload := omap stagedAt (map_to_list (lf_fs p)).
(** Keys of one component, and two levels below the staging area nothing but
    the directories of staged uploads. *)
Record tidy (p : Provider) : Prop := {
  ti_flat : forall u, u ∈ stagedUploads p -> flat (mu_Key u) /\ uidOk (mu_UploadID u) /\
    through (lf_fs p) (multipartDir root (mu_Key u) (mu_UploadID u));
  ti_dirs : forall k uid, lf_fs p !! (root ++ ["_multipart"; k; uid]) = Some Dir -> mkMultipartUpload k uid ∈ stagedUploads p
}.

Lemma elem_of_twoLevel p u : through (lf_fs p) (root ++ ["_multipart"]) ->
  u ∈ twoLevel p <-> lf_fs p !! (root ++ ["_multipart"; mu_Key u]) = Some Dir /\ lf_fs p !! (root ++ ["_multipart"; mu_Key u; mu_UploadID u]) = Some Dir.
Proof.
  intros Hm. unfold twoLevel, readDir. rewrite (stat_through _ _ Hm). unfold uploadsOf. rewrite list_elem_of_join. split.
  - intros (l & Hu & ([k nd] & -> & Hk)%list_elem_of_fmap). apply elem_of_children in Hk. rewrite <- app_assoc in Hk. cbn [app fst snd] in *.
    destruct nd; [|by apply elem_of_nil in Hu..]. rewrite (bool_decide_true ("" = "")) in Hu by done. cbn [negb andb] in Hu.
    unfold readDir in Hu. rewrite stat_nonnil, Hk in Hu by (by destruct root). apply list_elem_of_omap in Hu as ([x []] & Hx & [= <-]).
    apply elem_of_children in Hx. rewrite <- app_assoc in Hx. done.
  - destruct u as [k uid]. cbn [mu_Key mu_UploadID]. intros [Hk Hu]. eexists. split; [|apply list_elem_of_fmap; exists (k, Dir); split; [reflexivity|]].
    + cbn [fst snd]. rewrite (bool_decide_true ("" = "")) by done. cbn [negb andb]. unfold readDir. rewrite stat_nonnil, Hk by (by destruct root).
      apply list_elem_of_omap. exists (uid, Dir). split; [|done]. apply elem_of_children. by rewrite <- app_assoc.
    + apply elem_of_children. by rewrite <- app_assoc.
Qed.

Lemma NoDup_uploadsOf f es : NoDup (map fst es) -> NoDup (uploadsOf root f "" es).
Proof.
  unfold uploadsOf. induction es as [|[k nd] es IH]; [constructor|]. cbn [map fst]. rewrite NoDup_cons. intros [Hk Hes].
  change (NoDup ((match nd with Dir => if negb (bool_decide ("" = "")) && negb (HasPrefix k "") then [] else
    match readDir f (root ++ ["_multipart"; k]) with Err _ => [] | Ok ds =>
      omap (fun d : string * node doc => match d.2 with Dir => Some (mkMultipartUpload k d.1) | _ => None end) ds end | _ => [] end) ++
    uploadsOf root f "" es)).
  assert (Hkey : forall u, u ∈ uploadsOf root f "" es -> mu_Key u ∈ map fst es).
  { intros u Hu. apply list_elem_of_join in Hu as (l & Hu & ([k' nd'] & -> & Hk')%list_elem_of_fmap). apply list_elem_of_fmap. exists (k', nd'). split; [|done].
    cbn [fst snd] in *. destruct nd'; [|by apply elem_of_nil in Hu..]. destruct (negb _ && _); [by apply elem_of_nil in Hu|].
    destruct (readDir _ _); [|by apply elem_of_nil in Hu]. by apply list_elem_of_omap in Hu as ([x []] & _ & [= <-]). }
  destruct nd; [|by apply IH..]. rewrite (bool_decide_true ("" = "")) by done. cbn [negb andb]. unfold readDir.
  destruct (stat f _) as [[]|]; [|by apply IH..]. apply NoDup_app. split; [|split; [|by apply IH]].
  - apply NoDup_omap; [|apply children_NoDup]. intros [x []] [y []] u _ _; cbn; try done. congruence.
  - intros u ([x []] & _ & [= <-])%list_elem_of_omap Hu%Hkey. done.
Qed.
Lemma twoLevel_NoDup p : NoDup (twoLevel p).
Proof.
  unfold twoLevel, readDir. destruct (stat _ _) as [[]|]; try constructor. apply NoDup_uploadsOf. apply NoDup_fmap_2_strong; [|apply children_NoDup].
  intros [x n] [y m] Hx%elem_of_children Hy%elem_of_children. cbn. intros <-. congruence.
Qed.

Lemma elem_of_staged p u : u ∈ stagedUploads p <-> exists m, mm_Key m = mu_Key u /\ mm_UploadID m = mu_UploadID u /\
  lf_fs p !! (multipartDir root (mu_Key u) (mu_UploadID u) ++ ["upload.json"]) = Some (JFile (DUpload m)).
Proof.
  unfold stagedUploads. rewrite list_elem_of_omap. split.
  - intros ([q n] & Hin & Hs). apply elem_of_map_to_list in Hin. unfold stagedAt in Hs. cbn [fst snd] in Hs.
    destruct n as [| |[|m]]; try done. case_bool_decide as Hq; [|done]. injection Hs as <-. exists m. cbn [mu_Key mu_UploadID]. by rewrite <- Hq.
  - intros (m & Hk & Hid & Hf). exists (multipartDir root (mu_Key u) (mu_UploadID u) ++ ["upload.json"], JFile (DUpload m)).
    split; [by apply elem_of_map_to_list|]. unfold stagedAt. cbn [fst snd]. rewrite Hk, Hid, bool_decide_true by done. by destruct u.
Qed.
Lemma staged_NoDup p : NoDup (stagedUploads p).
Proof.
  apply NoDup_omap; [|apply NoDup_map_to_list]. intros [q n] [q' n'] u Hn Hn'. unfold stagedAt. cbn [fst snd].
  apply elem_of_map_to_list in Hn, Hn'.
  destruct n as [| |[|m]]; try done. destruct n' as [| |[|m']]; try done. case_bool_decide as Hq; [|done]. case_bool_decide as Hq'; [|done].
  intros <- [= Hk Hid]. subst q q'. rewrite Hk, Hid in *. congruence.
Qed.

(** The scan finds the staged uploads of a tidy staging area. *)
Lemma staged_twoLevel p : tidy p -> twoLevel p ≡ₚ stagedUploads p.
Proof.
  intros [Hf Hd]. assert (Hdir : forall u, u ∈ stagedUploads p ->
    through (lf_fs p) (root ++ ["_multipart"]) /\ u ∈ twoLevel p).
  { intros u Hu. destruct (Hf u Hu) as (Hk & Hid & Ht). rewrite (udir_eq root _ _ Hk Hid), flat_comps in Ht by done. cbn [app] in Ht.
    assert (Hm : through (lf_fs p) (root ++ ["_multipart"])) by (apply (through_prefix _ _ [mu_Key u; mu_UploadID u]); by rewrite <- app_assoc).
    assert (Hkd : through (lf_fs p) (root ++ ["_multipart"; mu_Key u])) by (apply (through_prefix _ _ [mu_UploadID u]); by rewrite <- app_assoc).
    split; [done|]. apply elem_of_twoLevel; [done|]. split; (apply through_at; [done|by destruct root]). }
  apply NoDup_Permutation; [apply twoLevel_NoDup|apply staged_NoDup|]. intros u. split; [|apply Hdir].
  intros Hu. destruct (readDir (lf_fs p) (root ++ ["_multipart"])) as [es|e] eqn:He; [|unfold twoLevel in Hu; rewrite He in Hu; by apply elem_of_nil in Hu].
  destruct u as [k uid]. apply Hd. unfold twoLevel in Hu. rewrite He in Hu.
  apply list_elem_of_join in Hu as (l & Hu & ([k' nd] & -> & Hk)%list_elem_of_fmap). cbn [fst snd] in Hu.
  destruct nd; [|by apply elem_of_nil in Hu..]. destruct (negb _ && _); [by apply elem_of_nil in Hu|].
  unfold readDir in Hu. destruct (stat _ _) as [[]|]; try by apply elem_of_nil in Hu.
  apply list_elem_of_omap in Hu as ([x []] & Hx & [= <- <-]). apply elem_of_children in Hx. by rewrite <- app_assoc in Hx.
Qed.

Lemma cursorsInOrder_decide us :
  bool_decide (NoDup (map cursorOf us)) && forallb (fun a => forallb (fun b => eqb (listedBefore a b) (str_ltb (cursorOf a) (cursorOf b))) us) us = true ->
  cursorsInOrder us.
Proof.
  intros [Hn Ho]%andb_true_iff. apply bool_decide_eq_true in Hn. split; [done|]. intros a b Ha Hb. rewrite forallb_forall in Ho.
  specialize (Ho a (proj1 (list_elem_of_In _ _) Ha)). rewrite forallb_forall in Ho. apply eqb_prop, Ho. by apply list_elem_of_In.
Qed.
Lemma cursorsInOrder_perm us us' : us ≡ₚ us' -> cursorsInOrder us -> cursorsInOrder us'.
Proof.
  intros Hp [Hn Ho]. split; [by rewrite <- Hp|]. intros a b. rewrite <- Hp. apply Ho.
Qed.

(** A test for [tidy]. *)
Definition throughb (f : fs doc) (q : path) : bool :=
  forallb (fun n => match f !! take n q with Some Dir => true | _ => false end) (seq 1 (length q)).
Definition plainUpload (u : MultipartUpload) : bool :=
  is_Ok (validateKey (mu_Key u)) && negb (ContainsRune (mu_Key u) "/"%char) &&
  (negb (ContainsRune (mu_UploadID u) "/"%char) && negb (bool_decide (mu_UploadID u ∈ [""; "."; ".."]))).
Definition tidyb (p : Provider) : bool :=
  forallb (fun u => plainUpload u && throughb (lf_fs p) (multipartDir root (mu_Key u) (mu_UploadID u))) (stagedUploads p) &&
  forallb (fun qn => match drop (length root) qn.1, qn.2 with
                     | [_; k; uid], Dir => bool_decide (mkMultipartUpload k uid ∈ stagedUploads p)
                     | _, _ => true end) (map_to_list (lf_fs p)).

Lemma throughb_ok f q : throughb f q = true -> through f q.
Proof.
  intros Hc p1 x p2 ->. unfold throughb in Hc. rewrite forallb_forall in Hc. specialize (Hc (S (length p1))). rewrite length_app in Hc.
  rewrite cons_middle, app_assoc, take_app_length' in Hc by (rewrite length_app; cbn; lia).
  assert (Hin : In (S (length p1)) (seq 1 (length p1 + length (x :: p2)))) by (apply in_seq; cbn; lia).
  specialize (Hc Hin). by destruct (f !! (p1 ++ [x])) as [[]|].
Qed.
Lemma tidyb_ok p : tidyb p = true -> tidy p.
Proof.
  intros [Hu Hd]%andb_true_iff. rewrite forallb_forall in Hu, Hd. split.
  - intros u Hin. specialize (Hu u (proj1 (list_elem_of_In _ _) Hin)). apply andb_true_iff in Hu as [Hp Ht]. unfold plainUpload in Hp. bool_hyps.
    split; [split; [by destruct (validateKey _) as [[]|]|done]|]. split; [|by apply throughb_ok].
    match goal with H : mu_UploadID u ∉ _ |- _ => revert H end. rewrite !not_elem_of_cons. intros (? & ? & ? & _). by split_and!.
  - intros k uid Hin. specialize (Hd (root ++ ["_multipart"; k; uid], Dir)). cbn [fst snd] in Hd. rewrite drop_app_length in Hd.
    apply bool_decide_eq_true in Hd; [done|]. by apply list_elem_of_In, elem_of_map_to_list.
Qed.

(** C37: a purge run over the local provider ends, whatever is staged and
    whenever it is cancelled, after at most one page more than there are
    directories two levels below the staging area, and touches nothing: it
    aborts no upload and removes no object. What it counts, provided that the
    cursors order them the way the listing does, are these directories; where
    the staged uploads - told by their documents - have keys of one component
    and nothing else lies there ([tidy]), these are the staged uploads.
    Uploads of nested keys are counted by the first two components of their
    directory: [nested_uploads_miscounted]. *)
Theorem purge_counts p cancel : len (twoLevel p) < 2 ^ 63 ->
  exists r, purgeOnce (Some (ListMultipartUploads root)) (S (length (twoLevel p))) cancel p = (p, Some r) /\
    (cancel <> None /\ r = PurgeCancelled \/
     (exists e e', r = PurgeFailed e /\ readDir (lf_fs p) (root ++ ["_multipart"]) = Err e' /\ errors_Is e' OsNotExist = false) \/
     exists n, r = PurgeFound n /\ (cursorsInOrder (twoLevel p) -> n = len (twoLevel p)) /\
       (tidy p -> cursorsInOrder (stagedUploads p) -> n = len (stagedUploads p))).
Proof.
  intros Hlen. cbn [purgeOnce].
  assert (Htidy : forall n, (cursorsInOrder (twoLevel p) -> n = len (twoLevel p)) -> tidy p -> cursorsInOrder (stagedUploads p) -> n = len (stagedUploads p)).
  { intros n Hn Ht Ho. pose proof (staged_twoLevel p Ht) as Hp. unfold len. rewrite <- Hp. apply Hn. by eapply cursorsInOrder_perm. }
  destruct (readDir (lf_fs p) (root ++ ["_multipart"])) as [es|e] eqn:He.
  - set (us := sort_Slice listedBefore (twoLevel p)).
    assert (Hp : len us = len (twoLevel p)) by (unfold us, len; by rewrite sort_Slice_perm).
    destruct (pageAt_ends us ltac:(lia) (S (length (twoLevel p))) "" 0 cancel p) as (r & Hr & Hn).
    + intros c. by apply local_page with (es := es).
    + unfold after. rewrite bool_decide_true by done. unfold len in Hp. lia.
    + exists r. split; [exact Hr|]. destruct Hn as [Hn|(n & -> & Hn)]; [by left|right; right]. exists n.
      assert (Hall : cursorsInOrder (twoLevel p) -> n = len (twoLevel p)); [|by eauto].
      intros Ho%cursors_sorted. rewrite Hn; [|done..|]; unfold after; rewrite bool_decide_true by done; lia.
  - assert (Hu : twoLevel p = []) by (unfold twoLevel; by rewrite He). rewrite Hu in *. cbn [purgeLoop length].
    case_bool_decide as Hc; [exists PurgeCancelled; split; [done|left; by subst]|].
    unfold ListMultipartUploads. rewrite He. destruct (errors_Is e OsNotExist) eqn:Hne.
    + cbn [ul_NextCursor ul_Uploads]. rewrite bool_decide_true by done. eexists. split; [done|]. right. right. eexists. by eauto.
    + eexists. split; [done|]. right. left. by exists (ErrWrap "local_fs_dev: list multipart: %w" e), e.
Qed.
End pages.

(** ** Witnesses: a promoted blob, intact and then overwritten on the disk *)
#[local] Existing Instance ex_Store.
#[local] Instance ex_StableGet : StableGet Provider := Local_StableGet ex_root.
#[local] Instance ex_micros : PgTime := fun t => t / 1000 * 1000.
Definition ex_job_pipe : Pipeline MemoryCache Provider db :=
  (Promote 20 21 "a" (Write 10 11 "a" ex_bytes ex_options
    (NewWithStatusStore (newLru (DefaultEvictionPolicy 1000)) ex_init (emptyDb 5000))).1).1.
Definition ex_db : db := pl_status ex_job_pipe.
Definition ex_sound : Provider := pl_store ex_job_pipe.
Definition ex_rotten : Provider := ex_sound <| lf_fs := (fun n => match n with File _ => File [xff] | n => n end) <$> lf_fs ex_sound |>.
Definition ex_repair : RepairJob := mkRepairJob 300 10 true 0 0 0.
Definition ex_run (s : Provider) := repairOnce (fun _ => 30) id None ex_repair s ex_db.

Lemma ex_run_split s : ex_run s = ((ex_run s).1.1.1, (ex_run s).1.1.2, (ex_run s).1.2, (ex_run s).2).
Proof. by destruct (ex_run s) as [[[? ?] ?] ?]. Qed.

Example ex_repairs : ((ex_run ex_sound).2, repairStats (ex_run ex_sound).1.1.1, (ex_run ex_rotten).2, repairStats (ex_run ex_rotten).1.1.1)
  = ([], mkRepairStats 1 0 1, ["a"], mkRepairStats 1 1 1).
Proof. vm_compute. reflexivity. Qed.

Lemma repair_scan_witness : exists p, p ∈ map scanDurable (selectRows (blob_placements ex_db) (fun _ r => isDurable r)) /\ ~ intact ex_rotten p.
Proof.
  destruct (repair_scan (fun _ => 30) id None ex_repair ex_rotten ex_db _ _ _ _ (fun l => reflexivity l) eq_refl eq_refl
              ltac:(discriminate) ltac:(split; [discriminate|reflexivity]) ltac:(split; [discriminate|reflexivity])
              (ex_run_split ex_rotten)) as (_ & _ & samples & checked & -> & _ & _ & Hs & Hi & Hk & _).
  assert (Ha : (ex_run ex_rotten).2 = ["a"]) by (vm_compute; reflexivity).
  destruct (proj1 (list_elem_of_fmap _ _ _) (Hk "a" ltac:(rewrite Ha; by apply elem_of_cons; left))) as (p & Hp & Hin).
  exists p. split.
  - apply take_sub in Hin. destruct (Hs p Hin) as (r & Hr & Hd & ->). apply list_elem_of_fmap.
    exists (dp_BlobKey p, r). split; [reflexivity|]. apply elem_of_selectRows. split; [exact Hr|]. by apply bool_decide_eq_true.
  - apply (Hi p Hin). rewrite Ha, <- Hp. by apply elem_of_cons; left.
Defined.

(** A page that ends between the keys "a" and "a-b" loses the upload of
    "a-b": its cursor "a-b/1" comes before the cursor "a/1". *)
Definition ex_staging (keys : list string) : Provider :=
  mkProvider (list_to_map ((["data"], Dir) :: (["data"; "_multipart"], Dir) ::
    mjoin (map (fun k => [(["data"; "_multipart"; k], Dir); (["data"; "_multipart"; k; "1"], Dir)]) keys))) 0.
Lemma paging_loses_uploads :
  let p := ex_staging ["a"; "a-b"] in
  twoLevel ex_root p = [mkMultipartUpload "a" "1"; mkMultipartUpload "a-b" "1"] /\
  ListMultipartUploads ex_root (mkListUploadsRequest "" "" 1) p = (p, Ok (mkUploadPage [mkMultipartUpload "a" "1"] "a/1")) /\
  ListMultipartUploads ex_root (mkListUploadsRequest "" "a/1" 1) p = (p, Ok (mkUploadPage [] "")).
Proof.
  cbn zeta. split; [vm_compute; reflexivity|].
  split; (rewrite (run_eq (ListMultipartUploads _ _ _) _ eq_refl); apply pair_eq; split; [|vm_compute; reflexivity]);
    unfold ListMultipartUploads; destruct (readDir _ _); repeat case_match; reflexivity.
Qed.

(** Uploads as [CreateMultipart] stages them. *)
Definition ex_create (p : Provider) (nk : Z * string) : Provider :=
  (CreateMultipart ex_root nk.1 (mkMultipartRequest nk.2 "" "" "" "" zeroRetentionSpec "") p).1.
Definition ex_staged (keys : list string) : Provider :=
  foldl ex_create (mkProvider {[["data"] := Dir]} 0) (imap (fun i k => (Z.of_nat i, k)) keys).

(** Two uploads of "a/b" are one directory of two levels, and are counted as
    one. *)
Example nested_uploads_miscounted :
  length (stagedUploads ex_root (ex_staged ["a/b"; "a/b"])) = 2%nat /\
  (purgeOnce (Some (ListMultipartUploads ex_root)) 5 None (ex_staged ["a/b"; "a/b"])).2 = Some (PurgeFound 1).
Proof. split; vm_compute; reflexivity. Qed.

Definition ex_area : Provider := ex_staged ["a"; "b"; "a"].
Lemma ex_area_tidy : tidy ex_root ex_area.
Proof. apply tidyb_ok. vm_compute. reflexivity. Qed.

Lemma ex_area_counts : length (twoLevel ex_root ex_area) = 3%nat /\ len (stagedUploads ex_root ex_area) = 3.
Proof. split; vm_compute; reflexivity. Qed.
Lemma ex_area_read : is_Ok (readDir (lf_fs ex_area) (ex_root ++ ["_multipart"])) = true.
Proof. vm_compute. reflexivity. Qed.
Lemma ex_area_order : cursorsInOrder (stagedUploads ex_root ex_area).
Proof. apply cursorsInOrder_decide. vm_compute. reflexivity. Qed.

Lemma purge_counts_witness :
  purgeOnce (Some (ListMultipartUploads ex_root)) 4 None ex_area = (ex_area, Some (PurgeFound 3)).
Proof.
  destruct ex_area_counts as [Hlen Hstaged].
  assert (Hsmall : len (twoLevel ex_root ex_area) < 2 ^ 63) by (unfold len; rewrite Hlen; reflexivity).
  destruct (purge_counts ex_root ex_area None Hsmall) as (r & Hr & Hn). rewrite Hlen in Hr. rewrite Hr.
  destruct Hn as [[Hc _]|[(e & e' & _ & He & _)|(n & -> & _ & Hn)]].
  - destruct (Hc eq_refl).
  - pose proof ex_area_read as Hok. rewrite He in Hok. discriminate Hok.
  - rewrite (Hn ex_area_tidy ex_area_order), Hstaged. reflexivity.
Defined.
