(* ===== verification/Worker.v ===== *)
(** * internal/worker/worker.go

    How the worker process is put together: its store, cache and jobs are
    built from the configuration. The parts the constructors reach outside for
    are arguments: the file systems below the two roots, and [Open], which
    connects to Postgres. A part of the worker is here when the field of the
    source is not nil. *)
From S2P Require Import Prelude GoStd BlobStore HotCache LruCore MemoryCache CircuitBreaker S3 Fs DiskCache Config.
From S2P Require Import LocalFsDev Db Pipeline PipelineSafety PgStatus Promotion Jobs.
Local Open Scope Z_scope.

(** ** The jobs *)
Record PurgeJob := mkPurgeJob { uj_interval : Z; uj_meta : bool }.
Inductive job :=
| JobPromotion (j : PromotionJob)
| JobRepair (j : RepairJob)
| JobPurge (j : PurgeJob)
| JobBackup (j : BackupJob)
| JobGuardrail (j : GuardrailRollupJob).

Definition Name (j : job) : string :=
  match j with
  | JobPromotion _ => "promotion" | JobRepair _ => "repair" | JobPurge _ => "purge" | JobBackup _ => "backup"
  | JobGuardrail _ => "guardrail_rollup"
  end.
(** The argument of [time.NewTicker] in [Run], which panics unless it is
    positive; whether the job also runs once before the first tick. *)
Definition tickerOf (j : job) : Z :=
  match j with
  | JobPromotion j => pj_interval j | JobRepair j => rj_interval j | JobPurge j => uj_interval j
  | JobBackup _ => 24 * Hour | JobGuardrail j => gj_interval j
  end.
Definition runsAtStart (j : job) : bool := match j with JobPromotion _ | JobBackup _ => true | _ => false end.

(** A knob of the configuration, when it is positive. *)
Definition knob (value dflt : Z) : Z := if 0 <? value then value else dflt.
(** [time.Duration(ms) * time.Millisecond]. *)
Definition millis (ms : Z) : Z := wrap64 (ms * 1000000).
Definition intervalOf (ms dflt : Z) : Z := if 0 <? ms then millis ms else dflt.

(** [buildJobs]; [db]: whether there is a database. *)
Definition buildJobs (c : WorkerConfig) (db : bool) : list job :=
  [ JobPromotion (mkPromotionJob (intervalOf (wk_PromoteIntervalMs c) (30 * Second)) (knob (wk_PromoteBatchSize c) 100)
      (knob (wk_PromoteParallelism c) 4) db db 0 0 0);
    JobRepair (mkRepairJob (intervalOf (wk_RepairIntervalMs c) (5 * Minute)) (knob (wk_RepairSampleCount c) 10) db 0 0 0);
    JobPurge (mkPurgeJob (1 * Hour) db);
    JobBackup (mkBackupJob (wk_BackupCron c) (wk_BackupRetentionDays c));
    JobGuardrail (mkGuardrailRollupJob (5 * Minute) db (knob (wk_QueueDepthAlert c) 1000) 0 0) ].

(** ** The store *)

(** [local_fs_dev.New]: an empty root is refused, the directory is created. *)
Definition local_New (root : option path) (f : fs doc) : result Provider :=
  match root with
  | None => Err (ErrNew "local_fs_dev: root path is required")
  | Some root =>
      match mkdirAll f root with
      | Err e => Err (ErrWrap "local_fs_dev: create root %q: %w" e)
      | Ok f => Ok (mkProvider f 0)
      end
  end.

(** [s3.New] and [s3.NewWithCircuitBreaker]: the configuration checked as in
    [NewWithClient], and the breaker. *)
Record s3Store := mkS3Store { s3_cfg : S3.Config; s3_breaker : option CircuitBreaker }.
Definition s3_New (cfg : S3.Config) : result s3Store :=
  match NewWithClient cfg with Err e => Err e | Ok cfg => Ok (mkS3Store cfg None) end.
Definition s3_NewWithCircuitBreaker (cfg : S3.Config) (th reset : Z) : result s3Store :=
  match s3_New cfg with
  | Err e => Err e
  | Ok p => Ok (mkS3Store (s3_cfg p) (Some (NewCircuitBreaker th reset)))
  end.

Definition s3ConfigOf (s : StorageConfig) : S3.Config :=
  S3.mkConfig (sc_Provider s) (sc_Endpoint s) (sc_Region s) (sc_Bucket s) (sc_AccessKey s) (sc_SecretKey s) (sc_UsePathStyle s).

(** [buildWorkerStore]. *)
Definition devRoot : path := ["tmp"; "kchat-drive-dev"].
Definition buildWorkerStore (c : WorkerConfig) (f : fs doc) : result (Provider + s3Store) :=
  if bool_decide (sc_Endpoint (wk_Storage c) = "") then
    match local_New (Some devRoot) f with Err e => Err e | Ok p => Ok (inl p) end
  else
    let s3cfg := s3ConfigOf (wk_Storage c) in
    match (if wk_StorageCircuitBreakerEnabled c then
             let th := wk_StorageCircuitBreakerThreshold c in
             s3_NewWithCircuitBreaker s3cfg (if th <=? 0 then 10 else th) (30 * Second)
           else s3_New s3cfg) with
    | Err e => Err e
    | Ok p => Ok (inr p)
    end.

(** ** The cache *)

(** [buildWorkerCache]; [pathOf] is the reading of the configured root. *)
Definition buildWorkerCache (order : list string -> list string) (now : Time) (pathOf : string -> path)
    (c : WorkerConfig) (f : fs metaFile) : result (DiskCache + MemoryCache) :=
  let cache := wk_Cache c in
  if bool_decide (cc_Type cache = "disk") && negb (bool_decide (cc_DiskRootPath cache = "")) then
    match (NewDiskCache order now (Some (pathOf (cc_DiskRootPath cache))) (DefaultEvictionPolicy (cc_MaxBytes cache)) f).2 with
    | Err e => Err e | Ok d => Ok (inl d)
    end
  else
    match NewMemoryCache (mkEvictionPolicy EvictionLRU (cc_MaxBytes cache) (f64_of_Z 0) 0 0) with
    | Err e => Err e | Ok m => Ok (inr m)
    end.

(** ** The worker *)
Section worker.
Context {DB : Type} (Open : string -> result DB).
Context (order : list string -> list string) (now : Time) (pathOf : string -> path).

(** [Deps] as [buildDeps] makes them; the pipeline is over these parts. *)
Record Deps := mkDeps { dp_Store : Provider + s3Store; dp_Cache : DiskCache + MemoryCache; dp_MetaDB : DB }.
Record Worker := mkWorker { w_cfg : WorkerConfig; w_jobs : list job; w_deps : option Deps }.

Definition buildDeps (c : WorkerConfig) (fd : fs doc) (fm : fs metaFile) : result Deps :=
  match buildWorkerStore c fd with
  | Err e => Err e
  | Ok store =>
      match buildWorkerCache order now pathOf c fm with
      | Err e => Err e
      | Ok cache => match Open (wk_PostgresDSN c) with Err e => Err e | Ok d => Ok (mkDeps store cache d) end
      end
  end.

(** [New]. *)
Definition New (cfg : option WorkerConfig) (fd : fs doc) (fm : fs metaFile) : result Worker :=
  match cfg with
  | None => Err (ErrNew "worker: config is required")
  | Some c =>
      if negb (bool_decide (wk_Env c = "production")) && bool_decide (wk_PostgresDSN c = "") then Ok (mkWorker c [] None)
      else match buildDeps c fd fm with
           | Err e => Err e
           | Ok deps => Ok (mkWorker c (buildJobs c true) (Some deps))
           end
  end.

(** [NewWithDeps]. *)
Definition NewWithDeps (cfg : option WorkerConfig) (db : bool) (deps : option Deps) : result Worker :=
  match cfg with
  | None => Err (ErrNew "worker: config is required")
  | Some c => Ok (mkWorker c (buildJobs c db) deps)
  end.
End worker.

(** [Close]: the pipeline, the cache and the database, each that is there,
    whatever the others answer; the first error is returned. *)
Definition firstErr (rs : list (result unit)) : result unit :=
  fold_right (fun r rest => match r with Err e => Err e | Ok _ => rest end) (Ok tt) rs.
Definition workerClose {C St SS DB} `{Cache C} `{Store St} `{StatusStore SS} (now : Time)
    (closeCache : M C unit) (closeDb : M DB unit) (p : Pipeline C St SS) (d : option DB)
  : Pipeline C St SS * option DB * result unit :=
  let (p, r1) := Pipeline.Close now p in
  let (p, r2) := onCache closeCache p in
  match d with
  | None => (p, None, firstErr [r1; r2])
  | Some d => let (d, r3) := closeDb d in (p, Some d, firstErr [r1; r2; r3])
  end.

(** ** Properties *)
Lemma interval_pos ms dflt : 0 < dflt -> ms * 1000000 < 2 ^ 63 -> 0 < intervalOf ms dflt /\
  intervalOf ms dflt = (if 0 <? ms then ms * 1000000 else dflt).
Proof.
  intros Hd Hm. unfold intervalOf, millis. destruct (Z.ltb_spec 0 ms); [|done]. rewrite wrap64_small; [lia|].
  unfold int64_range. lia.
Qed.

Lemma knob_pos value dflt : 0 < dflt -> 0 < knob value dflt.
Proof. unfold knob. destruct (Z.ltb_spec 0 value); lia. Qed.

Lemma lru_valid n : 0 <= n -> NewMemoryCache (mkEvictionPolicy EvictionLRU n (f64_of_Z 0) 0 0)
  = Ok (newLru (mkEvictionPolicy EvictionLRU n (f64_of_Z 0) 0 0)).
Proof.
  intros Hn. unfold NewMemoryCache, Validate. cbn [Kind MaxBytes HotRegionFraction HotDemotionHitCount TTL].
  rewrite (bool_decide_false (EvictionLRU = "")) by done. rewrite !(bool_decide_true (EvictionLRU = EvictionLRU)) by done.
  cbn [Kind MaxBytes HotRegionFraction HotDemotionHitCount TTL orb negb]. destruct (Z.ltb_spec n 0); [lia|]. reflexivity.
Qed.

Lemma s3_valid s : storage_ok s -> NewWithClient (s3ConfigOf s) = Ok (s3ConfigOf s).
Proof.
  intros (He & Hr & Hb & Ha & Hk & Hp). assert (Hn : sc_Provider s <> "") by (intros Hx; rewrite Hx in Hp; naive_solver).
  unfold NewWithClient. cbn [s3ConfigOf ProviderName]. rewrite bool_decide_false by done. unfold validate.
  cbn [Endpoint Region Bucket AccessKey SecretKey]. by rewrite !bool_decide_false by done.
Qed.

Lemma store_built c f : worker_ok c -> wk_Env c = "production" ->
  exists cb, buildWorkerStore c f = Ok (inr (mkS3Store (s3ConfigOf (wk_Storage c)) cb)) /\
    (forall b, cb = Some b -> cb_state b = CircuitClosed /\ 1 <= threshold b /\ 0 < resetTimeout b).
Proof.
  intros Hc [_ Hs]%(wo_production c Hc). unfold buildWorkerStore. rewrite bool_decide_false by apply Hs.
  unfold s3_NewWithCircuitBreaker, s3_New. rewrite (s3_valid _ Hs). destruct (wk_StorageCircuitBreakerEnabled c).
  - eexists. split; [done|]. intros b [= <-]. unfold NewCircuitBreaker. cbn [cb_state threshold resetTimeout].
    split; [done|]. split; [|done]. destruct (Z.leb_spec (wk_StorageCircuitBreakerThreshold c) 0); [done|].
    destruct (Z.ltb_spec (wk_StorageCircuitBreakerThreshold c) 1); lia.
  - by exists None.
Qed.

(** No job panics at its start, unless an interval overflows. *)
Lemma tickers_positive c db : wk_PromoteIntervalMs c <= 9223372036854 -> wk_RepairIntervalMs c <= 9223372036854 ->
  Forall (fun j => 0 < tickerOf j) (buildJobs c db).
Proof.
  intros Hp Hr. repeat constructor; cbn [tickerOf pj_interval rj_interval uj_interval gj_interval];
    apply interval_pos; (reflexivity || lia).
Qed.

(** The five jobs of a configuration, and the sizes they work with. *)
Definition fiveJobs (c : WorkerConfig) (jobs : list job) : Prop := exists p r u g,
  jobs = [JobPromotion p; JobRepair r; JobPurge u; JobBackup (mkBackupJob (wk_BackupCron c) (wk_BackupRetentionDays c)); JobGuardrail g] /\
  0 < pj_batchSize p /\ 1 <= pj_parallelism p <= 100 /\ 0 < rj_sampleCount r /\ 0 < gj_queueDepthAlert g.

Lemma jobs_five c db : worker_ok c -> fiveJobs c (buildJobs c db).
Proof.
  intros Hc. do 4 eexists. split; [reflexivity|]. cbn [pj_batchSize pj_parallelism rj_sampleCount gj_queueDepthAlert].
  split; [by apply knob_pos|]. split; [|split; by apply knob_pos].
  pose proof (wo_parallelism c Hc). unfold knob. destruct (Z.ltb_spec 0 (wk_PromoteParallelism c)); lia.
Qed.
Lemma jobs_tick c db : Forall (fun j => 0 < tickerOf j) (buildJobs c db) \/
  9223372036854 < wk_PromoteIntervalMs c \/ 9223372036854 < wk_RepairIntervalMs c.
Proof.
  destruct (Z.le_gt_cases (wk_PromoteIntervalMs c) 9223372036854); [|by right; left; lia].
  destruct (Z.le_gt_cases (wk_RepairIntervalMs c) 9223372036854); [|by right; right; lia]. left. by apply tickers_positive.
Qed.

(** C38: What [New] makes of a configuration that loads. Outside production and
    without a DSN it is a worker with no jobs and no parts, and nothing is opened.
    Otherwise [New] fails exactly when the store, the cache or the database does,
    with the first of their errors, and else it is a worker with these parts and
    five jobs, whose batch, pool, sample and alert sizes are positive and whose
    ticker intervals are, so that no job panics at its start, unless one of the two
    configured intervals exceeds 9223372036854 milliseconds. In production the
    store does not fail: it is the S3 store of the configuration, with a breaker,
    if any, that starts closed with a positive threshold and timeout; and the
    memory cache never fails. *)
Theorem worker_builds {DB} (Open : string -> result DB) readFile decode file c order now pathOf fd fm :
  LoadWorker readFile decode file = Ok c ->
  (wk_Env c <> "production" /\ wk_PostgresDSN c = "" -> New Open order now pathOf (Some c) fd fm = Ok (mkWorker c [] None)) /\
  (wk_Env c = "production" \/ wk_PostgresDSN c <> "" ->
     match New Open order now pathOf (Some c) fd fm with
     | Err e => buildWorkerStore c fd = Err e \/
         is_Ok (buildWorkerStore c fd) = true /\ (buildWorkerCache order now pathOf c fm = Err e \/
           is_Ok (buildWorkerCache order now pathOf c fm) = true /\ Open (wk_PostgresDSN c) = Err e)
     | Ok w => exists store cache d jobs, w = mkWorker c jobs (Some (mkDeps store cache d)) /\
         buildWorkerStore c fd = Ok store /\ buildWorkerCache order now pathOf c fm = Ok cache /\ Open (wk_PostgresDSN c) = Ok d /\
         fiveJobs c jobs /\
         (Forall (fun j => 0 < tickerOf j) jobs \/ 9223372036854 < wk_PromoteIntervalMs c \/ 9223372036854 < wk_RepairIntervalMs c)
     end) /\
  (wk_Env c = "production" -> exists cb, buildWorkerStore c fd = Ok (inr (mkS3Store (s3ConfigOf (wk_Storage c)) cb)) /\
     (forall b, cb = Some b -> cb_state b = CircuitClosed /\ 1 <= threshold b /\ 0 < resetTimeout b)) /\
  (cc_Type (wk_Cache c) <> "disk" \/ cc_DiskRootPath (wk_Cache c) = "" -> exists m, buildWorkerCache order now pathOf c fm = Ok (inr m)).
Proof.
  intros Hc%LoadWorker_ok. split; [|split; [|split]].
  - intros [He Hd]. unfold New. by rewrite (bool_decide_false (_ = "production")), (bool_decide_true (_ = "")) by done.
  - intros Hon. assert (Hb : negb (bool_decide (wk_Env c = "production")) && bool_decide (wk_PostgresDSN c = "") = false).
    { destruct Hon as [He|Hd]; [by rewrite (bool_decide_true (_ = "production"))|by rewrite (bool_decide_false (_ = "")), andb_false_r]. }
    unfold New, buildDeps. rewrite Hb. destruct (buildWorkerStore c fd) as [store|e]; [|by left].
    destruct (buildWorkerCache order now pathOf c fm) as [cache|e]; [|by right; split; [|left]].
    destruct (Open (wk_PostgresDSN c)) as [d|e]; [|by right; split; [|right]].
    exists store, cache, d, (buildJobs c true). do 4 (split; [done|]). split; [by apply jobs_five|apply jobs_tick].
  - intros. by apply store_built.
  - intros Ht. unfold buildWorkerCache. replace (bool_decide (_ = "disk") && _) with false.
    + rewrite lru_valid by (destruct (wo_cache c Hc); lia). by eexists.
    + destruct Ht as [Ht|Ht]; [by rewrite (bool_decide_false (_ = "disk"))|by rewrite (bool_decide_true (_ = "")), andb_false_r].
Qed.

(** An interval that passes the validation and makes [time.NewTicker] panic. *)
Lemma ticker_overflow : let c := devWorkerConfig <| wk_PromoteIntervalMs := 9223372036855 |> in
  validateWorker c = Ok tt /\ exists j, j ∈ buildJobs c true /\ Name j = "promotion" /\ tickerOf j < 0.
Proof. cbn zeta. split; [reflexivity|]. eexists. split; [apply elem_of_cons; left; reflexivity|]. by split. Qed.

(** [Close] tries all three parts. *)
Lemma firstErr_Ok rs : firstErr rs = Ok tt <-> Forall (fun r => r = Ok tt) rs.
Proof.
  induction rs as [|[[]|e] rs IH]; cbn; [by split|rewrite Forall_cons; tauto|split; [done|by intros [? _]%Forall_cons]].
Qed.

(** A production configuration, and the development one, which runs no job. *)
Lemma worker_builds_witness : exists c cb w,
  LoadWorker (fun _ => Ok []) (fun _ => Ok ex_config) "/etc/worker.json" = Ok c /\
  buildWorkerStore c ∅ = Ok (inr (mkS3Store (s3ConfigOf (wk_Storage c)) cb)) /\
  New (fun _ => Ok tt) id 0 (fun s => [s]) (Some c) ∅ ∅ = Ok w /\ fiveJobs c (w_jobs w) /\
  Forall (fun j => 0 < tickerOf j) (w_jobs w).
Proof.
  assert (Hl : LoadWorker (fun _ => Ok []) (fun _ => Ok ex_config) "/etc/worker.json" = Ok (workerDefaults (migrateWorker ex_config)))
    by (vm_compute; reflexivity).
  destruct (worker_builds (fun _ => Ok tt) _ _ _ _ id 0 (fun s => [s]) ∅ ∅ Hl) as (_ & Hn & Hs & _).
  destruct (Hs eq_refl) as (cb & Hcb & _). set (c := workerDefaults (migrateWorker ex_config)) in *.
  specialize (Hn (or_introl eq_refl)).
  assert (Hok : is_Ok (New (fun _ => Ok tt) id 0 (fun s => [s]) (Some c) ∅ ∅) = true) by (vm_compute; reflexivity).
  destruct (New _ _ _ _ (Some c) ∅ ∅) as [w|e] eqn:Hnew; [|discriminate Hok].
  destruct Hn as (st & ca & d & jobs & -> & _ & _ & _ & Hj & Ht). exists c, cb. eexists. split; [exact Hl|]. split; [exact Hcb|].
  split; [exact Hnew|]. split; [exact Hj|]. destruct Ht as [Ht|[Ht|Ht]]; [exact Ht|by vm_compute in Ht..].
Defined.
Example dev_runs_nothing : w_jobs <$> (match New (fun _ => Ok tt) id 0 (fun s => [s]) (Some devWorkerConfig) ∅ ∅ with Ok w => Some w | Err _ => None end)
  = Some [].
Proof. reflexivity. Qed.
