(* ===== verification/Http.v ===== *)
(** * internal/server: requests, responses and handlers

    What the handlers of the gateway read of a request and write to a response,
    the JSON documents of request bodies, and the monad the handlers are
    written in. A response value that is a struct of internal/metadata is kept
    as the struct; a map literal is the JSON object with its keys in order. *)
From Stdlib Require Import Strings.Ascii.
From S2P Require Import Prelude GoStd Db DriveStore.
Local Open Scope Z_scope.

(** ** Requests

    [rq_Header] and [rq_Query] are [r.Header.Get] and [r.URL.Query().Get];
    [rq_Path] is [r.URL.Path]. *)
Record Request := mkRequest {
  rq_Method : string; rq_Path : string; rq_Header : string -> string; rq_Query : string -> string; rq_Body : reader }.

(** ** Responses *)
Inductive payload :=
| Empty
| Raw (b : bytes)
| Json (j : json)
| Tenants (l : list DriveTenant)
| Folders (l : list Folder)
| Children (f : Folder) (l : list Folder) (ns : list Node)
| Envelopes (l : list KeyEnvelope)
| Grants (l : list ShareGrant)
| Domain (e : EncryptionDomain)
| Snapshot (a : AccessContextSnapshot).

(** [Aborted]: the handler panicked, and the connection is closed. *)
Inductive Response :=
| Replied (status : Z) (header : list (string * string)) (body : payload)
| Aborted.
Definition statusOf (r : Response) : option Z := match r with Replied s _ _ => Some s | Aborted => None end.
Definition payloadOf (r : Response) : payload := match r with Replied _ _ b => b | Aborted => Empty end.

(** [setCORS], which every handler of the two APIs calls first. *)
Definition corsHeader : list (string * string) :=
  [("Access-Control-Allow-Origin", "*");
   ("Access-Control-Allow-Methods", "GET, POST, PUT, DELETE, OPTIONS");
   ("Access-Control-Allow-Headers",
    "Content-Type, Authorization, X-Tenant-Id, X-User-Id, X-Demo-User, X-Demo-Tenant")].
Definition writeHeader (status : Z) : Response := Replied status corsHeader Empty.
(** [writeJSON] and [writeError]. *)
Definition writeJSON (status : Z) (v : payload) : Response :=
  Replied status (corsHeader ++ [("Content-Type", "application/json")]) v.
Definition writeError (status : Z) (msg : string) : Response := writeJSON status (Json (JObj [("error", JStr msg)])).
Definition writeBytes (b : bytes) : Response :=
  Replied 200 (corsHeader ++ [("Content-Type", "application/octet-stream")]) (Raw b).

(** ** Handlers: state, and a response that ends them *)
Definition H (S A : Type) : Type := S -> S * (Response + A).
#[export] Instance H_ret S : MRet (H S) := fun A a s => (s, inr a).
#[export] Instance H_bind S : MBind (H S) := fun A B k h s =>
  match h s with (s', inl r) => (s', inl r) | (s', inr a) => k a s' end.
Definition reply {S A} (r : Response) : H S A := fun s => (s, inl r).
Definition reply_if {S} (b : bool) (r : Response) : H S unit := if b then reply r else mret tt.
(** A call on a part of the state: its result, or an error. *)
Definition call {S T A} (get : S -> T) (put : T -> S -> S) (m : M T A) : H S (result A) := fun s =>
  let (t, r) := m (get s) in (put t s, inr r).
(** [if err != nil { ..; return }] with the response for the error. *)
Definition orElse {S A} (h : H S (result A)) (bad : error -> Response) : H S A :=
  r ← h; match r with Ok a => mret a | Err e => reply (bad e) end.
(** The whole handler: both ends are responses. *)
Definition serve {S} (h : H S Response) (s : S) : S * Response :=
  match h s with (s', inl r) => (s', r) | (s', inr r) => (s', r) end.

(** [OPTIONS] is answered without looking at anything else. *)
Definition onOptions {S} (r : Request) (status : Z) : H S unit :=
  reply_if (bool_decide (rq_Method r = "OPTIONS")) (writeHeader status).
Definition methodNotAllowed : Response := writeError 405 "method not allowed".
Definition onlyMethod {S} (r : Request) (m : string) : H S unit :=
  reply_if (negb (bool_decide (rq_Method r = m))) methodNotAllowed.

(** [getUserTenant]: the production headers when both are there, else the demo
    headers. *)
Definition getUserTenant (r : Request) : string * string :=
  let userID := rq_Header r "X-User-Id" in
  let tenantID := rq_Header r "X-Tenant-Id" in
  if negb (bool_decide (userID = "")) && negb (bool_decide (tenantID = "")) then (userID, tenantID)
  else (rq_Header r "X-Demo-User", rq_Header r "X-Demo-Tenant").
Definition needTenant {S} (r : Request) : H S string :=
  let tenantID := (getUserTenant r).2 in
  reply_if (bool_decide (tenantID = "")) (writeError 400 "missing X-Demo-Tenant header");;
  mret tenantID.

(** ** Request bodies: encoding/json into a struct

    The values a document gives to the field named [f], in their order: a
    name matches in any case. A null leaves a field as it is, save for a
    [json.RawMessage], which it is stored in. *)
Definition fieldsOf (j : json) (f : string) : option (list json) :=
  match j with
  | JObj l => Some (map snd (List.filter (fun kv => String.eqb (ToLower kv.1) f) l))
  | JNull => Some []
  | _ => None
  end.
Definition decodeWith {A} (one : A -> json -> option A) (zero : A) (f : string) (j : json) : option A :=
  vs ← fieldsOf j f; foldl (fun acc v => a ← acc; one a v) (Some zero) vs.
Definition decodeString : string -> json -> option string :=
  decodeWith (fun old v => match v with JStr s => Some s | JNull => Some old | _ => None end) "".
Definition decodeRaw : string -> json -> option RawMessage := decodeWith (fun _ v => Some (Some v)) None.

(** [strconv.ParseInt] of a number literal, into 64 bits. *)
Definition digitOf (c : ascii) : option Z :=
  let n := Z.of_N (N_of_ascii c) in if (48 <=? n) && (n <=? 57) then Some (n - 48) else None.
Fixpoint digits (s : string) (acc : Z) : option Z :=
  match s with
  | EmptyString => Some acc
  | String c s' => d ← digitOf c; digits s' (acc * 10 + d)
  end.
Definition parseInt (s : string) : option Z :=
  n ← (match s with
       | EmptyString => None
       | String "-" EmptyString => None
       | String "-" s' => Z.opp <$> digits s' 0
       | _ => digits s 0
       end);
  if (- 2 ^ 63 <=? n) && (n <? 2 ^ 63) then Some n else None.
Definition decodeInt : string -> json -> option Z :=
  decodeWith (fun old v => match v with JNum t => parseInt t | JNull => Some old | _ => None end) 0.
(** A slice: the elements one by one, null for none. *)
Definition decodeList {A} (one : json -> option A) : string -> json -> option (list A) :=
  decodeWith (fun _ v => match v with JArr l => mapM one l | JNull => Some [] | _ => None end) [].
Definition decodeElem (v : json) : option string :=
  match v with JStr s => Some s | JNull => Some "" | _ => None end.

(** [json.NewDecoder(r.Body).Decode(&body)]: [parse] finds the first document
    of the body. *)
Section decode.
Context (parse : reader -> option json).
Definition decodeBody {S A} (r : Request) (decode : json -> option A) : H S A :=
  match parse (rq_Body r) ≫= decode with
  | Some a => mret a
  | None => reply (writeError 400 "invalid body")
  end.
End decode.

(** A number and a list of strings in a response. *)
Definition jnum (z : Z) : json := JNum (pretty z).
Definition jstrs (l : list string) : json := JArr (map JStr l).

(** Runs a handler up to the next branch of its code. *)
Ltac handle := cbv beta iota delta [serve mbind H_bind mret H_ret reply reply_if call orElse].
Tactic Notation "handle" "in" hyp(h) := cbv beta iota delta [serve mbind H_bind mret H_ret reply reply_if call orElse] in h.

(** ** Lemmas *)
Lemma H_bind_inv {S A B} (h : H S A) (k : A -> H S B) s s' x : (h ≫= k) s = (s', x) ->
  (exists r, h s = (s', inl r) /\ x = inl r) \/ (exists a s1, h s = (s1, inr a) /\ k a s1 = (s', x)).
Proof.
  unfold mbind, H_bind. destruct (h s) as [s1 [r|a]]; [intros [= <- <-]; left; by exists r|]. intros Hk. right. by exists a, s1.
Qed.

Lemma H_bind_go {S A B} (h : H S A) (k : A -> H S B) s s1 a : h s = (s1, inr a) -> (h ≫= k) s = k a s1.
Proof. unfold mbind, H_bind. by intros ->. Qed.
Lemma H_ret_bind {S A B} (a : A) (k : A -> H S B) s : ((mret a : H S A) ≫= k) s = k a s.
Proof. reflexivity. Qed.
Lemma serve_go {S} (h : H S Response) s s' resp : h s = (s', inr resp) -> serve h s = (s', resp).
Proof. unfold serve. by intros ->. Qed.
Lemma H_bind_stop {S A B} (h : H S A) (k : A -> H S B) s s1 r : h s = (s1, inl r) -> (h ≫= k) s = (s1, inl r).
Proof. unfold mbind, H_bind. by intros ->. Qed.
Lemma H_bind_inr {S A B} (h : H S A) (k : A -> H S B) s s' b : (h ≫= k) s = (s', inr b) ->
  exists a s1, h s = (s1, inr a) /\ k a s1 = (s', inr b).
Proof. intros [(r & _ & [=])|(a & s1 & Ha & Hk)]%H_bind_inv. by exists a, s1. Qed.
Lemma reply_if_inr {S} b r (s s' : S) u : reply_if b r s = (s', inr u) -> s' = s /\ b = false.
Proof. unfold reply_if. destruct b; by intros [= <-]. Qed.
Lemma needTenant_inr {S} r (s s' : S) a : needTenant r s = (s', inr a) -> s' = s /\ a = (getUserTenant r).2.
Proof. unfold needTenant, reply_if. case_bool_decide; [by intros [=]|]. by intros [= <- <-]. Qed.
Lemma needTenant_go {S} r (s : S) : (getUserTenant r).2 <> "" -> needTenant r s = (s, inr (getUserTenant r).2).
Proof. intros Hne. unfold needTenant, reply_if. by rewrite bool_decide_false. Qed.
Lemma serve_inv {S} (h : H S Response) s s' resp : serve h s = (s', resp) -> h s = (s', inl resp) \/ h s = (s', inr resp).
Proof. unfold serve. destruct (h s) as [s1 [x|x]]; intros [= <- <-]; auto. Qed.
Lemma orElse_Ok {S A} (h : H S (result A)) bad s s1 a : h s = (s1, inr (Ok a)) -> orElse h bad s = (s1, inr a).
Proof. intros Hh. unfold orElse. by rewrite (H_bind_go _ _ _ _ _ Hh). Qed.
Lemma orElse_Err {S A} (h : H S (result A)) bad s s1 e : h s = (s1, inr (Err e)) -> orElse h bad s = (s1, inl (bad e)).
Proof. intros Hh. unfold orElse. by rewrite (H_bind_go _ _ _ _ _ Hh). Qed.

Example parse_numbers : map parseInt ["12"; "-7"; "9223372036854775808"; "1.0"; "-"] = [Some 12; Some (-7); None; None; None].
Proof. reflexivity. Qed.
Example decode_folds : decodeString "node_id" (JObj [("NODE_ID", JStr "a"); ("node_id", JNull)]) = Some "a".
Proof. reflexivity. Qed.
