(* ===== verification/ChatApi.v ===== *)
(** * internal/server/chat_storage_api.go

    The chat-storage endpoints: archive segments and manifests, search shards,
    backup manifests and segments, media blobs, message delivery. A handler
    talks to the durable store only. [Env] is what it meets outside: the clock,
    and whether the temporary file of an upload can be created, written and
    rewound. *)
From Stdlib Require Import Strings.Ascii.
From S2P Require Import Prelude GoStd Sha256 BlobStore Fs LocalFsDev LocalStore Db DriveStore Http.
Local Open Scope Z_scope.

Record Env := mkEnv { en_now : Time; en_create : bool; en_write : bool; en_seek : bool }.

(** ** Identity and keys *)

(** [requireAuth]. *)
Definition requireAuth (r : Request) : option string :=
  let tenant := rq_Header r "X-Tenant-Id" in
  let user := rq_Header r "X-User-Id" in
  let auth := rq_Header r "Authorization" in
  if negb (bool_decide (tenant = "")) && negb (bool_decide (user = "")) && negb (bool_decide (auth = "")) then Some tenant
  else
    let tenant := rq_Header r "X-Demo-Tenant" in
    let user := rq_Header r "X-Demo-User" in
    if negb (bool_decide (tenant = "")) && negb (bool_decide (user = "")) then Some tenant else None.

(** [tenantPrefix]. *)
Definition tenantPrefix (tenant : string) : string := "tenant/" +:+ tenant +:+ "/".

(** [sanitizeObjectID]. *)
Definition nulByte : ascii := ascii_of_N 0.
Definition sanitizeObjectID (id : string) : bool :=
  negb (bool_decide (id = "")) && (String.length id <=? 256)%nat
  && negb (ContainsRune id "/"%char) && negb (ContainsRune id "\"%char) && negb (ContainsRune id nulByte)
  && negb (ContainsRune id "."%char).

Section chat.
Context {St : Type} `{!Store St}.
Notation HC := (H St).

Definition needAuth (r : Request) : HC string :=
  match requireAuth r with Some t => mret t | None => reply (writeError 401 "authentication required") end.
Definition needID (id msg : string) : HC unit := reply_if (negb (sanitizeObjectID id)) (writeError 400 msg).
Definition onStore {A} (m : M St A) : HC (result A) := call (fun s => s) (fun s _ => s) m.

(** The upload of a body: to a temporary file, of at most [limit] bytes, and
    from there to the store. *)
Definition putRequest (key : string) (data : bytes) : PutRequest :=
  mkPutRequest key (Some (bytes_NewReader data)) (len data) "" "" "" "" "" "" zeroRetentionSpec false.
Definition upload (env : Env) (r : Request) (limit : Z) (key : string) : HC unit :=
  reply_if (negb (en_create env)) (writeError 500 "failed to create temp file");;
  data ← (match ReadAll (LimitReader (rq_Body r) limit) with
          | Ok data => if en_write env then mret data else reply (writeError 400 "failed to read body")
          | Err _ => reply (writeError 400 "failed to read body")
          end);
  reply_if (negb (en_seek env)) (writeError 500 "failed to seek temp file");;
  _ ← orElse (onStore (st_Put (en_now env) (putRequest key data))) (fun _ => writeError 500 "upload failed");
  mret tt.

(** The download of an object. *)
Definition download (env : Env) (key notFound : string) : HC Response :=
  got ← orElse (onStore (st_Get (en_now env) (mkGetRequest (mkVersionedObjectRef key "") None)))
    (fun e => if errors_Is e BsNotFound then writeError 404 notFound else writeError 500 "download failed");
  mret (writeBytes (rd_bytes got.1)).

Definition isUpload (r : Request) : bool := bool_decide (rq_Method r = "PUT") || bool_decide (rq_Method r = "POST").
Definition isGet (r : Request) : bool := bool_decide (rq_Method r = "GET").

(** ** The handlers *)
Definition handleMessages (r : Request) : HC Response :=
  onOptions r 204;;
  _ ← needAuth r;
  let path := TrimPrefix (rq_Path r) "/v1/chat/messages/" in
  let conversationID := default "" (head (SplitN2 path "/"%char)) in
  reply_if (bool_decide (conversationID = "")) (writeError 400 "conversation_id required");;
  needID conversationID "invalid conversation_id";;
  mret (if isGet r then writeJSON 200 (Json (JObj [("messages", JArr [])])) else methodNotAllowed).

Definition segmentKey (tenant id : string) : string := tenantPrefix tenant +:+ "chat-archive/segments/" +:+ id.
Definition handleArchiveSegment (env : Env) (r : Request) : HC Response :=
  onOptions r 204;;
  tenant ← needAuth r;
  let segmentID := TrimPrefix (rq_Path r) "/v1/chat/archive/segments/" in
  needID segmentID "invalid segment_id";;
  if isUpload r then
    upload env r (256 * 2 ^ 20) (segmentKey tenant segmentID);;
    mret (writeJSON 200 (Json (JObj [("segment_id", JStr segmentID)])))
  else if isGet r then download env (segmentKey tenant segmentID) "segment not found"
  else mret methodNotAllowed.

(** A manifest is named after the clock, in nanoseconds. *)
Definition manifestKey (tenant id : string) : string := tenantPrefix tenant +:+ "chat-archive/manifests/" +:+ id.
Definition handleArchiveManifests (env : Env) (r : Request) : HC Response :=
  onOptions r 204;;
  tenant ← needAuth r;
  if isUpload r then
    let manifestID := "manifest-" +:+ pretty (en_now env) in
    upload env r (16 * 2 ^ 20) (manifestKey tenant manifestID);;
    mret (writeJSON 200 (Json (JObj [("manifest_id", JStr manifestID)])))
  else if isGet r then mret (writeJSON 200 (Json (JObj [("manifests", JArr [])])))
  else mret methodNotAllowed.

Definition shardObject (tenant id : string) : string := tenantPrefix tenant +:+ "chat-search/shards/" +:+ id.
Definition handleSearchShard (env : Env) (r : Request) : HC Response :=
  onOptions r 204;;
  tenant ← needAuth r;
  let shardKey := TrimPrefix (rq_Path r) "/v1/chat/search/shards/" in
  needID shardKey "invalid shard_key";;
  if isUpload r then
    upload env r (64 * 2 ^ 20) (shardObject tenant shardKey);;
    mret (writeHeader 204)
  else if isGet r then download env (shardObject tenant shardKey) "shard not found"
  else mret methodNotAllowed.

Definition backupManifestKey (tenant id : string) : string := tenantPrefix tenant +:+ "chat-backup/manifests/" +:+ id.
Definition handleBackupManifests (env : Env) (r : Request) : HC Response :=
  onOptions r 204;;
  tenant ← needAuth r;
  if isUpload r then
    let manifestID := "backup-" +:+ pretty (en_now env) in
    upload env r (16 * 2 ^ 20) (backupManifestKey tenant manifestID);;
    mret (writeJSON 200 (Json (JObj [("manifest_id", JStr manifestID)])))
  else if isGet r then mret (writeJSON 200 (Json (JObj [("manifests", JArr [])])))
  else mret methodNotAllowed.

Definition backupSegmentKey (tenant id : string) : string := tenantPrefix tenant +:+ "chat-backup/segments/" +:+ id.
Definition handleBackupSegment (env : Env) (r : Request) : HC Response :=
  onOptions r 204;;
  tenant ← needAuth r;
  let segmentID := TrimPrefix (rq_Path r) "/v1/chat/backup/segment/" in
  needID segmentID "invalid segment_id";;
  if isUpload r then
    upload env r (256 * 2 ^ 20) (backupSegmentKey tenant segmentID);;
    mret (writeJSON 200 (Json (JObj [("segment_id", JStr segmentID)])))
  else if isGet r then download env (backupSegmentKey tenant segmentID) "segment not found"
  else mret methodNotAllowed.

Definition mediaKey (tenant id : string) : string := tenantPrefix tenant +:+ "chat-media/" +:+ id.
Definition handleMediaBlob (env : Env) (r : Request) : HC Response :=
  onOptions r 204;;
  tenant ← needAuth r;
  let blobID := TrimPrefix (rq_Path r) "/v1/chat/media/" in
  needID blobID "invalid blob_id";;
  if isUpload r then
    upload env r (256 * 2 ^ 20) (mediaKey tenant blobID);;
    mret (writeJSON 200 (Json (JObj [("blob_id", JStr blobID)])))
  else if isGet r then download env (mediaKey tenant blobID) "blob not found"
  else mret methodNotAllowed.

(** ** The endpoints: [registerChatStorageRoutes] *)
Inductive chatRoute :=
| Messages | ArchiveSegments | ArchiveManifests | SearchShards | BackupManifests | BackupSegments | MediaBlobs.
Definition chatRoutes : list (string * chatRoute) :=
  [("/v1/chat/messages/", Messages); ("/v1/chat/archive/segments/", ArchiveSegments);
   ("/v1/chat/archive/manifests", ArchiveManifests); ("/v1/chat/search/shards/", SearchShards);
   ("/v1/chat/backup/manifests", BackupManifests); ("/v1/chat/backup/segment/", BackupSegments);
   ("/v1/chat/media/", MediaBlobs)].
Definition chatHandler (rt : chatRoute) (env : Env) (r : Request) : HC Response :=
  match rt with
  | Messages => handleMessages r
  | ArchiveSegments => handleArchiveSegment env r
  | ArchiveManifests => handleArchiveManifests env r
  | SearchShards => handleSearchShard env r
  | BackupManifests => handleBackupManifests env r
  | BackupSegments => handleBackupSegment env r
  | MediaBlobs => handleMediaBlob env r
  end.
Definition chatServe (rt : chatRoute) (env : Env) (r : Request) : St -> St * Response := serve (chatHandler rt env r).
End chat.

(** ** Keys *)
Inductive kind := Segment | Manifest | Shard | BackupManifest | BackupSegment | Media.
Definition keyOf (k : kind) : string -> string -> string :=
  match k with
  | Segment => segmentKey | Manifest => manifestKey | Shard => shardObject | BackupManifest => backupManifestKey
  | BackupSegment => backupSegmentKey | Media => mediaKey
  end.

Lemma split_last s t s' t' : ContainsRune t "/"%char = false -> ContainsRune t' "/"%char = false ->
  s +:+ "/" +:+ t = s' +:+ "/" +:+ t' -> s = s' /\ t = t'.
Proof.
  intros Ht Ht'. revert s'. induction s as [|c s IH]; intros [|c' s'] Heq.
  - split; [done|]. by injection Heq.
  - exfalso. change (String "/" t = String c' (s' +:+ String "/" t')) in Heq. injection Heq as _ Heq. subst t.
    by rewrite ContainsRune_app, orb_true_r in Ht.
  - exfalso. change (String c (s +:+ String "/" t) = String "/" t') in Heq. injection Heq as _ Heq. subst t'.
    by rewrite ContainsRune_app, orb_true_r in Ht'.
  - change (String c (s +:+ String "/" t) = String c' (s' +:+ String "/" t')) in Heq. injection Heq as <- Heq.
    destruct (IH s' Heq) as [-> ->]. done.
Qed.

Lemma sanitize_noSlash id : sanitizeObjectID id = true -> ContainsRune id "/"%char = false.
Proof. unfold sanitizeObjectID. intros H. by bool_hyps. Qed.

Lemma sapp_inj_l (a b c : string) : a +:+ b = a +:+ c -> b = c.
Proof. induction a as [|x a IH]; [done|]. intros Heq. apply IH. by injection Heq. Qed.

(** The directory of a kind: its parent, and its last component. *)
Definition dirOf (k : kind) : string * string :=
  match k with
  | Segment => ("chat-archive", "segments") | Manifest => ("chat-archive", "manifests") | Shard => ("chat-search", "shards")
  | BackupManifest => ("chat-backup", "manifests") | BackupSegment => ("chat-backup", "segments") | Media => ("", "chat-media")
  end.

Definition basePath (k : kind) (t : string) : string :=
  match k with Media => "tenant/" +:+ t | _ => ("tenant/" +:+ t) +:+ "/" +:+ (dirOf k).1 end.
Lemma keyOf_path k t id : keyOf k t id = (basePath k t +:+ "/" +:+ (dirOf k).2) +:+ "/" +:+ id.
Proof.
  destruct k; cbn [keyOf dirOf basePath fst snd];
    unfold segmentKey, manifestKey, shardObject, backupManifestKey, backupSegmentKey, mediaKey, tenantPrefix;
    rewrite !sapp_assoc; reflexivity.
Qed.

(** Two endpoints never address the same object, whatever the tenant's name. *)
Lemma dirOf_noSlash k : ContainsRune (dirOf k).1 "/"%char = false /\ ContainsRune (dirOf k).2 "/"%char = false.
Proof. by destruct k. Qed.
Lemma base_inj t t' : "tenant/" +:+ t = "tenant/" +:+ t' -> t = t'.
Proof. apply sapp_inj_l. Qed.

Lemma keyOf_inj k k' t t' id id' : ContainsRune id "/"%char = false -> ContainsRune id' "/"%char = false ->
  keyOf k t id = keyOf k' t' id' -> k = k' /\ t = t' /\ id = id'.
Proof.
  intros Hid Hid'. rewrite !keyOf_path. intros Heq.
  apply split_last in Heq as [Heq ->]; [|done..].
  apply split_last in Heq as [Heq Hdir]; [|apply dirOf_noSlash..].
  destruct k, k'; cbn [dirOf basePath fst snd] in Hdir, Heq; try discriminate Hdir;
    first [apply base_inj in Heq as ->; done | apply split_last in Heq as [Heq Hd]; [|reflexivity..]];
    try discriminate Hd; apply base_inj in Heq as ->; done.
Qed.

(** ** What an endpoint does *)
Section endpoints.
Context {St : Type} `{!Store St}.

(** The three things an endpoint does: answer at once, or an upload and its
    answer, or a download. *)
Inductive action :=
| Answers (resp : Response)
| Uploads (key : string) (limit : Z) (resp : Response)
| Downloads (key notFound : string).
Definition perform (env : Env) (r : Request) (a : action) : H St Response :=
  match a with
  | Answers resp => mret resp
  | Uploads key limit resp => upload env r limit key;; mret resp
  | Downloads key notFound => download env key notFound
  end.

Definition created (field id : string) : Response := writeJSON 200 (Json (JObj [(field, JStr id)])).
Definition objectAction (r : Request) (key : string) (limit : Z) (resp : Response) (notFound : string) : action :=
  if isUpload r then Uploads key limit resp else if isGet r then Downloads key notFound else Answers methodNotAllowed.
Definition manifestAction (r : Request) (key : string) (limit : Z) (resp : Response) : action :=
  if isUpload r then Uploads key limit resp
  else if isGet r then Answers (writeJSON 200 (Json (JObj [("manifests", JArr [])])))
  else Answers methodNotAllowed.
Definition actionOf (rt : chatRoute) (env : Env) (r : Request) : action :=
  if bool_decide (rq_Method r = "OPTIONS") then Answers (writeHeader 204)
  else match requireAuth r with
  | None => Answers (writeError 401 "authentication required")
  | Some tenant =>
      let object (prefix bad : string) (key : string -> string -> string) limit (resp : string -> Response) notFound :=
        let id := TrimPrefix (rq_Path r) prefix in
        if sanitizeObjectID id then objectAction r (key tenant id) limit (resp id) notFound
        else Answers (writeError 400 bad) in
      match rt with
      | Messages =>
          let id := default "" (head (SplitN2 (TrimPrefix (rq_Path r) "/v1/chat/messages/") "/"%char)) in
          Answers (if bool_decide (id = "") then writeError 400 "conversation_id required"
                   else if sanitizeObjectID id then
                     (if isGet r then writeJSON 200 (Json (JObj [("messages", JArr [])])) else methodNotAllowed)
                   else writeError 400 "invalid conversation_id")
      | ArchiveSegments =>
          object "/v1/chat/archive/segments/" "invalid segment_id" segmentKey (256 * 2 ^ 20) (created "segment_id") "segment not found"
      | ArchiveManifests =>
          let id := "manifest-" +:+ pretty (en_now env) in
          manifestAction r (manifestKey tenant id) (16 * 2 ^ 20) (created "manifest_id" id)
      | SearchShards =>
          object "/v1/chat/search/shards/" "invalid shard_key" shardObject (64 * 2 ^ 20) (fun _ => writeHeader 204) "shard not found"
      | BackupManifests =>
          let id := "backup-" +:+ pretty (en_now env) in
          manifestAction r (backupManifestKey tenant id) (16 * 2 ^ 20) (created "manifest_id" id)
      | BackupSegments =>
          object "/v1/chat/backup/segment/" "invalid segment_id" backupSegmentKey (256 * 2 ^ 20) (created "segment_id") "segment not found"
      | MediaBlobs => object "/v1/chat/media/" "invalid blob_id" mediaKey (256 * 2 ^ 20) (created "blob_id") "blob not found"
      end
  end.

Lemma chatServe_action rt env r s : chatServe rt env r s = serve (perform env r (actionOf rt env r)) s.
Proof.
  unfold chatServe, chatHandler, actionOf.
  destruct rt;
    unfold handleMessages, handleArchiveSegment, handleArchiveManifests, handleSearchShard, handleBackupManifests,
      handleBackupSegment, handleMediaBlob, onOptions, needAuth, needID, reply_if, objectAction, manifestAction, created;
    destruct (bool_decide (rq_Method r = "OPTIONS")); try reflexivity;
    destruct (requireAuth r) as [tenant|]; try reflexivity; cbn zeta;
    try (destruct (bool_decide (default "" _ = "")); [reflexivity|]); try (destruct (sanitizeObjectID _); [|reflexivity]);
    destruct (isUpload r), (isGet r); reflexivity.
Qed.

(** The object an accepted upload writes: its kind, tenant and id. *)
Definition objectOf (rt : chatRoute) (env : Env) (r : Request) : option (kind * string * string) :=
  if negb (bool_decide (rq_Method r = "OPTIONS")) && isUpload r then
    tenant ← requireAuth r;
    let named (k : kind) (prefix : string) :=
      let id := TrimPrefix (rq_Path r) prefix in if sanitizeObjectID id then Some (k, tenant, id) else None in
    match rt with
    | Messages => None
    | ArchiveSegments => named Segment "/v1/chat/archive/segments/"
    | ArchiveManifests => Some (Manifest, tenant, "manifest-" +:+ pretty (en_now env))
    | SearchShards => named Shard "/v1/chat/search/shards/"
    | BackupManifests => Some (BackupManifest, tenant, "backup-" +:+ pretty (en_now env))
    | BackupSegments => named BackupSegment "/v1/chat/backup/segment/"
    | MediaBlobs => named Media "/v1/chat/media/"
    end
  else None.
Definition objectKey (o : kind * string * string) : string := keyOf o.1.1 o.1.2 o.2.
Definition limitOf (rt : chatRoute) : Z :=
  match rt with SearchShards => 64 * 2 ^ 20 | ArchiveManifests | BackupManifests => 16 * 2 ^ 20 | _ => 256 * 2 ^ 20 end.
Definition isManifest (rt : chatRoute) : bool := match rt with ArchiveManifests | BackupManifests => true | _ => false end.

Lemma pretty_noSlash (z : Z) : ContainsRune (pretty z) "/"%char = false.
Proof.
  unfold pretty, pretty_Z. destruct z as [|p|p]; [reflexivity|..]; unfold pretty, pretty_positive, pretty, pretty_N.
  all: repeat case_match; try reflexivity.
  all: rewrite ?ContainsRune_app, ?pretty_N_go_noSlash; reflexivity.
Qed.

Lemma objectOf_noSlash rt env r o : objectOf rt env r = Some o -> ContainsRune o.2 "/"%char = false.
Proof.
  unfold objectOf. intros Ho. destruct (negb _ && _); [|done]. destruct (requireAuth r) as [tenant|]; [|done]. cbn in Ho.
  destruct rt; try destruct (sanitizeObjectID _) eqn:Hid; simplify_eq; cbn [snd];
    first [by apply sanitize_noSlash | exact (pretty_noSlash (en_now env))].
Qed.
Lemma objectKey_inj rt rt' env env' r r' o o' : objectOf rt env r = Some o -> objectOf rt' env' r' = Some o' ->
  objectKey o = objectKey o' -> o = o'.
Proof.
  intros Ho%objectOf_noSlash Ho'%objectOf_noSlash. destruct o as [[k t] i], o' as [[k' t'] i'].
  unfold objectKey. cbn [fst snd] in *. intros (-> & -> & ->)%keyOf_inj; done.
Qed.

(** An endpoint uploads to the key of its object and to no other. *)
Definition writesKey (a : action) : option string := match a with Uploads k _ _ => Some k | _ => None end.
Lemma writes_object rt env r : writesKey (actionOf rt env r) = objectKey <$> objectOf rt env r.
Proof.
  unfold actionOf, objectOf, objectAction, manifestAction. destruct (bool_decide (rq_Method r = "OPTIONS")); [done|].
  destruct (requireAuth r) as [tenant|]; [|by destruct (isUpload r)]. cbn [negb andb].
  destruct rt; cbn zeta; try (destruct (sanitizeObjectID _)); destruct (isUpload r), (isGet r); reflexivity.
Qed.
Lemma upload_action rt env r o : objectOf rt env r = Some o ->
  exists resp, actionOf rt env r = Uploads (objectKey o) (limitOf rt) resp.
Proof.
  intros Ho. pose proof (writes_object rt env r) as Hw. rewrite Ho in Hw.
  unfold actionOf, objectAction, manifestAction in *.
  destruct (bool_decide (rq_Method r = "OPTIONS")); [done|]. destruct (requireAuth r) as [tenant|]; [|done].
  destruct rt; cbn zeta in *; try (destruct (sanitizeObjectID _)); destruct (isUpload r), (isGet r); try discriminate Hw;
    cbn in Hw; injection Hw as <-; eexists; reflexivity.
Qed.
(** A GET with the path and the headers of an upload reads its object. *)
Lemma download_action rt env env' put get o : objectOf rt env put = Some o -> isManifest rt = false ->
  requireAuth get = requireAuth put -> rq_Path get = rq_Path put -> rq_Method get = "GET" ->
  exists notFound, actionOf rt env' get = Downloads (objectKey o) notFound.
Proof.
  unfold objectOf, actionOf, objectAction, isGet, isUpload. intros Ho Hm Ha Hp Hg. rewrite Hg, Ha, Hp.
  destruct (negb _ && _); [|done]. destruct (requireAuth put) as [tenant|]; [|done]. cbn in Ho |- *.
  destruct rt; try discriminate Hm; try discriminate Ho; cbn zeta in *; destruct (sanitizeObjectID _); try discriminate Ho;
    injection Ho as <-; eexists; reflexivity.
Qed.
End endpoints.

(** ** The endpoints over a store that keeps its promise *)
Section laws.
Context {St : Type} `{StoreLaws St}.
Implicit Types (s : St) (env : Env) (r : Request).

Definition successful (resp : Response) : bool := match statusOf resp with Some c => c <? 300 | None => false end.

(** The cases of an upload: an error before the store is called, or a [Put]. *)
Lemma upload_cases env r limit key ok s s' resp : serve (perform env r (Uploads key limit ok)) s = (s', resp) ->
  (s' = s /\ successful resp = false) \/
  exists data res, ReadAll (LimitReader (rq_Body r) limit) = Ok data /\
    st_Put (en_now env) (putRequest key data) s = (s', res) /\
    (successful resp = true -> resp = ok /\ exists pr, res = Ok pr).
Proof.
  unfold perform, upload, onStore. handle. destruct (en_create env); [|intros [= <- <-]; by left].
  destruct (ReadAll _) as [data|e]; [|intros [= <- <-]; by left].
  destruct (en_write env); [|intros [= <- <-]; by left].
  destruct (en_seek env); [|intros [= <- <-]; by left]. cbn [negb].
  destruct (st_Put (en_now env) (putRequest key data) s) as [s1 res] eqn:Hp.
  destruct res as [pr|e]; intros [= <- <-]; right; exists data; eexists; (split; [done|split; [done|]]); [|done].
  intros _. split; [done|]. by exists pr.
Qed.

Lemma perform_keeps t env r a s s' resp : store_inv t s -> t < en_now env ->
  (forall k, writesKey a = Some k -> good_key k) -> serve (perform env r a) s = (s', resp) ->
  store_inv (en_now env) s' /\ forall k b, writesKey a <> Some k -> stored s k b -> stored s' k b.
Proof.
  intros Hi Ht Hk Hs. pose proof (store_time t (en_now env) s ltac:(lia) Hi) as Hi'. destruct a as [resp0|key limit ok|key nf].
  - injection Hs as <- <-. done.
  - apply upload_cases in Hs as [[-> _]|(data & res & _ & Hp & _)]; [done|].
    apply (store_Put t) in Hp as (Hi1 & Ho & _); [|done..|by apply Hk]. split; [done|].
    intros k b Hne. apply Ho. cbn in Hne |- *. congruence.
  - unfold perform, download, onStore in Hs. handle in Hs. destruct (st_Get (en_now env) (mkGetRequest (mkVersionedObjectRef key "") None) s) as [s1 res] eqn:Hg.
    apply (store_Get_any t) in Hg as [Hg1 Hg2]; [|done].
    assert (s' = s1) as ->. { destruct res as [x|e]; [by injection Hs|]. destruct (errors_Is e BsNotFound); by injection Hs. }
    split; [eapply store_time; [|exact Hg1]; lia|]. intros k b _. apply Hg2.
Qed.

Lemma upload_stores t env r limit key ok s s' resp data : store_inv t s -> t < en_now env -> good_key key ->
  rq_Body r = bytes_NewReader data -> serve (perform env r (Uploads key limit ok)) s = (s', resp) -> successful resp = true ->
  stored s' key (takeZ limit data).
Proof.
  intros Hi Ht Hk Hb Hs Hok. apply upload_cases in Hs as [[_ Hf]|(d & res & Hr & Hp & Hres)]; [congruence|].
  destruct (Hres Hok) as (_ & pr & ->).
  assert (d = takeZ limit data) as ->.
  { rewrite Hb in Hr. unfold LimitReader in Hr. cbn in Hr. destruct (limit <=? len data) eqn:Hl; injection Hr as <-; [done|].
    apply Z.leb_gt in Hl. symmetry. apply takeZ_ge. lia. }
  apply (store_Put t) in Hp as (_ & _ & Hst); [|done..]. by destruct (Hst pr (takeZ limit data) eq_refl eq_refl) as (Hst' & _).
Qed.

Lemma download_reads t env r key notFound s b : store_inv t s -> stored s key b ->
  exists s', serve (perform env r (Downloads key notFound)) s = (s', writeBytes b).
Proof.
  intros Hi Hs. destruct (store_Get t (en_now env) s key b Hi Hs) as (s' & md & Hg & _). exists s'.
  unfold perform, download, onStore. handle. by rewrite Hg.
Qed.

Lemma writes_other rt rt0 env env0 r r0 o : objectOf rt0 env0 r0 = Some o -> objectOf rt env r <> Some o ->
  writesKey (actionOf rt env r) <> Some (objectKey o).
Proof.
  intros Ho Hne. rewrite writes_object. destruct (objectOf rt env r) as [o'|] eqn:Ho'; [|done]. cbn. intros [= Heq].
  by rewrite (objectKey_inj _ _ _ _ _ _ _ _ Ho' Ho Heq) in Hne.
Qed.

End laws.

(** ** A media blob of tenant a, for examples *)
Definition ex_demo (tenant : string) (name : string) : string :=
  if String.eqb name "X-Demo-Tenant" then tenant else if String.eqb name "X-Demo-User" then "u" else "".
Definition ex_request (m tenant : string) (b : bytes) : Request :=
  mkRequest m "/v1/chat/media/m1" (ex_demo tenant) (fun _ => "") (bytes_NewReader b).
Definition ex_env (now : Time) : Env := mkEnv now true true true.
Definition ex_object : kind * string * string := (Media, "a", "m1").

Lemma good_media tenant : validateKey (objectKey (Media, tenant, "m1")) = Ok tt -> good (objectKey (Media, tenant, "m1")).
Proof. intros Hv. split; [exact Hv|]. intros q Hq. discriminate Hq. Qed.
