(* ===== verification/DriveApi.v ===== *)
(** * internal/server/drive_api.go

    The Drive API over the metadata database: tenants, folders, nodes, upload
    sessions, versions, encryption domains and share grants. The parts of a
    gateway a handler works on are one state, [Drive]; a method of a nil
    [metaDB] or a field of a nil pointer ends the request ([Aborted]). *)
From Stdlib Require Import Strings.Ascii.
From S2P Require Import Prelude GoStd BlobStore Db MetaStore DriveStore ContentStore Http.
Local Open Scope Z_scope.

(** ** State *)
Record registeredChunk := mkRegisteredChunk {
  rc_Index : Z; rc_BlobKey : string; rc_CiphertextHex : string; rc_CiphertextSHA : string; rc_PlaintextLen : Z;
  rc_CiphertextLen : Z }.
Record uploadSession := mkUploadSession {
  up_SessionID : string; up_TenantID : string; up_NodeID : string; up_FolderID : string; up_ChunkPlan : RawMessage;
  up_Manifest : RawMessage; up_Header : RawMessage; up_WrappedDEK : string; up_WrapNonce : string;
  up_Chunks : list registeredChunk; up_CreatedAt : Time }.
#[export] Instance eta_uploadSession : Eta uploadSession := fun s =>
  mkUploadSession (up_SessionID s) (up_TenantID s) (up_NodeID s) (up_FolderID s) (up_ChunkPlan s) (up_Manifest s)
    (up_Header s) (up_WrappedDEK s) (up_WrapNonce s) (up_Chunks s) (up_CreatedAt s).

(** Of drive_dedup_api.go: the in-memory contents. *)
Record memContentEntry := mkMemContentEntry {
  mc_ContentID : string; mc_TenantID : string; mc_PlaintextSize : Z; mc_ChunkCount : Z; mc_ChunkSize : Z;
  mc_ChunkPlanRoot : string; mc_BlobKeys : list string; mc_CiphertextHashes : list string; mc_CreatedAt : Time }.
Record memContentChunk := mkMemContentChunk {
  mk_ChunkIndex : Z; mk_ChunkContentHash : string; mk_BlobKey : string; mk_PlaintextLen : Z; mk_CiphertextLen : Z }.

(** [driveAPI] with the parts of [Gateway] it uses, and [idCounter]. *)
Record Drive (St : Type) := mkDrive {
  dr_metaDB : option db;
  dr_stmts : preparedStmts;
  dr_store : option St;
  dr_sessions : gmap string uploadSession;
  dr_memContentStore : gmap string memContentEntry;
  dr_memContentChunks : gmap string (list memContentChunk);
  dr_memContentStoreMax : Z;
  dr_idCounter : Z }.
Arguments mkDrive {St}.
Arguments dr_metaDB {St}. Arguments dr_stmts {St}. Arguments dr_store {St}. Arguments dr_sessions {St}.
Arguments dr_memContentStore {St}. Arguments dr_memContentChunks {St}. Arguments dr_memContentStoreMax {St}.
Arguments dr_idCounter {St}.
#[export] Instance eta_Drive St : Eta (Drive St) := fun d =>
  mkDrive (dr_metaDB d) (dr_stmts d) (dr_store d) (dr_sessions d) (dr_memContentStore d) (dr_memContentChunks d)
    (dr_memContentStoreMax d) (dr_idCounter d).

(** [newDriveAPI]. *)
Definition newDriveAPI {St} (metaDB : option db) (ps : preparedStmts) (store : option St) (idCounter : Z) : Drive St :=
  mkDrive metaDB ps store ∅ ∅ ∅ 10000 idCounter.

(** What a handler meets outside: two readings of the clock, the document a
    body starts with, the order of the rows of a SELECT DISTINCT and of the
    keys of the [n]-th ranged-over map, and the RFC 3339 text of a time. *)
Record Outside := mkOutside {
  ot_now : Time; ot_later : Time; ot_parse : reader -> option json;
  ot_rows : list (string * string) -> list (string * string);
  ot_range : nat -> list string -> list string; ot_RFC3339 : Time -> string }.

(** [fmt.Sscanf(s, "%d", &i)]: spaces, a sign, digits; what follows is left. *)
Definition bytesOf (l : list N) : string := foldr (fun n s => String (ascii_of_N n) s) "" l.
Definition spaces : list string := map bytesOf (
  [[9]; [11]; [12]; [13]; [32]; [194; 133]; [194; 160]; [225; 154; 128]; [226; 128; 168]; [226; 128; 169];
   [226; 128; 175]; [226; 129; 159]; [227; 128; 128]] ++ map (fun n => [226; 128; 128 + N.of_nat n]) (seq 0 11))%N.
Fixpoint skipSpace (fuel : nat) (s : string) : string :=
  match fuel, List.find (HasPrefix s) spaces with
  | S n, Some p => skipSpace n (TrimPrefix s p)
  | _, _ => s
  end.
Fixpoint leadingDigits (s : string) : string :=
  match s with
  | String c s' => match digitOf c with Some _ => String c (leadingDigits s') | None => "" end
  | EmptyString => ""
  end.
Definition sscanf_d (s : string) : option Z :=
  let s := skipSpace (String.length s) s in
  let signed (s' : string) := match leadingDigits s' with EmptyString => None | ds => Some ds end in
  match s with
  | String "-" s' => ds ← signed s'; parseInt ("-" +:+ ds)
  | String "+" s' => ds ← signed s'; parseInt ds
  | _ => ds ← signed s; parseInt ds
  end.

(** [hex.DecodeString] with its error dropped: the bytes before the error. *)
Fixpoint hex_prefix (s : string) : bytes :=
  match s with
  | String c (String d s') =>
      match unhex_digit c, unhex_digit d with
      | Some h, Some l => match Byte.of_N (h * 16 + l) with Some x => x :: hex_prefix s' | None => [] end
      | _, _ => []
      end
  | _ => []
  end.

Section drive.
Context {St : Type} `{!Store St}.
Notation D := (Drive St).
Notation HD := (H D).

(** ** Calls *)
Definition needDB : HD unit := fun s =>
  match dr_metaDB s with None => (s, inl (writeError 503 "postgres not configured")) | Some _ => (s, inr tt) end.
Definition onDB {A} (m : MDB A) : HD (result A) := fun s =>
  match dr_metaDB s with
  | Some d => let (d', r) := m d in (s <| dr_metaDB := Some d' |>, inr r)
  | None => (s, inl Aborted)
  end.
Definition onBlobs {A} (m : M St A) : HD (result A) := fun s =>
  match dr_store s with
  | Some st => let (st', r) := m st in (s <| dr_store := Some st' |>, inr r)
  | None => (s, inl Aborted)
  end.
Definition field {A} (f : D -> A) : HD A := fun s => (s, inr (f s)).
(** [generateID]. *)
Definition generateID (now : Time) (prefix : string) : HD string := fun s =>
  let n := wrap64 (dr_idCounter s + 1) in
  (s <| dr_idCounter := n |>, inr (prefix +:+ "_" +:+ pretty now +:+ "_" +:+ pretty n)).
Definition putSession (sid : string) (session : uploadSession) : HD unit := fun s =>
  (s <| dr_sessions := <[sid := session]> (dr_sessions s) |>, inr tt).
Definition decodeHex (s bad : string) : HD bytes :=
  match hex_decode s with Ok b => mret b | Err _ => reply (writeError 400 bad) end.
(** [http.StatusOK] for OPTIONS. *)
Definition start (r : Request) : HD unit := onOptions r 200.

(** ** Tenants *)
Definition handleTenants (r : Request) : HD Response :=
  start r;; onlyMethod r "GET";; needDB;;
  tenants ← orElse (onDB ListDriveTenants) (fun _ => writeError 500 "failed to list tenants");
  mret (writeJSON 200 (Tenants tenants)).

(** ** Folders *)
Definition handleFoldersRoot (o : Outside) (r : Request) : HD Response :=
  start r;;
  tenantID ← needTenant r;
  needDB;;
  if bool_decide (rq_Method r = "GET") then
    folders ← orElse (onDB (ListFolders tenantID (rq_Query r "parent"))) (fun _ => writeError 500 "failed to list folders");
    mret (writeJSON 200 (Folders folders))
  else if bool_decide (rq_Method r = "POST") then
    body ← decodeBody (ot_parse o) r (fun j =>
      name ← decodeString "name_encrypted_hex" j; parent ← decodeString "parent_folder_id" j;
      mode ← decodeString "privacy_mode" j; Some (name, parent, mode));
    let '(name, parent, mode) := body in
    nameBytes ← decodeHex name "invalid name_encrypted_hex";
    let mode := if bool_decide (mode = "") then "secured" else mode in
    folderID ← generateID (ot_now o) "folder";
    _ ← orElse (onDB (CreateFolder (mkFolder folderID tenantID parent nameBytes mode 0)))
      (fun _ => writeError 500 "failed to create folder");
    mret (writeJSON 201 (Json (JObj [("folder_id", JStr folderID)])))
  else mret methodNotAllowed.

(** The folder of a request, of the tenant that asks. *)
Definition ownFolder (folderID tenantID : string) : HD Folder :=
  ps ← field dr_stmts;
  folder ← orElse (onDB (GetFolder ps folderID)) (fun _ => writeError 404 "folder not found");
  reply_if (negb (bool_decide (fo_TenantID folder = tenantID))) (writeError 404 "folder not found");;
  mret folder.
Definition handleFolderChildren (o : Outside) (r : Request) : HD Response :=
  start r;;
  tenantID ← needTenant r;
  let parts := Split (TrimPrefix (rq_Path r) "/v1/folders/") "/"%char in
  reply_if (negb (bool_decide (parts !! 1%nat = Some "children"))) (writeError 400 "expected /v1/folders/{id}/children");;
  let folderID := default "" (head parts) in
  needDB;;
  if bool_decide (rq_Method r = "GET") then
    folder ← ownFolder folderID tenantID;
    subFolders ← orElse (onDB (ListFolders (fo_TenantID folder) folderID))
      (fun _ => writeError 500 "failed to list subfolders");
    nodes ← orElse (onDB (ListNodes folderID tenantID)) (fun _ => writeError 500 "failed to list nodes");
    mret (writeJSON 200 (Children folder subFolders nodes))
  else if bool_decide (rq_Method r = "POST") then
    body ← decodeBody (ot_parse o) r (fun j =>
      name ← decodeString "name_encrypted_hex" j; mime ← decodeString "mime_type" j; Some (name, mime));
    nameBytes ← decodeHex body.1 "invalid name_encrypted_hex";
    folder ← ownFolder folderID tenantID;
    nodeID ← generateID (ot_now o) "node";
    _ ← orElse (onDB (CreateNode (mkNode nodeID (fo_TenantID folder) folderID nameBytes body.2 0 0)))
      (fun _ => writeError 500 "failed to create node");
    mret (writeJSON 201 (Json (JObj [("node_id", JStr nodeID)])))
  else mret methodNotAllowed.

(** ** Nodes *)
Definition handleNode (o : Outside) (r : Request) : HD Response :=
  start r;;
  tenantID ← needTenant r;
  let parts := Split (TrimPrefix (rq_Path r) "/v1/nodes/") "/"%char in
  reply_if (length parts <? 2)%nat (writeError 400 "expected /v1/nodes/{id}/{action}");;
  let nodeID := default "" (head parts) in
  let action := default "" (parts !! 1%nat) in
  needDB;;
  if bool_decide (action = "accessContext") then
    onlyMethod r "GET";;
    snap ← orElse (onDB (GetLatestAccessContext nodeID tenantID)) (fun _ => writeError 404 "no access context");
    mret (writeJSON 200 (Snapshot snap))
  else if bool_decide (action = "shares") then
    onlyMethod r "POST";;
    let userID := (getUserTenant r).1 in let tenantID := (getUserTenant r).2 in
    body ← decodeBody (ot_parse o) r (fun j =>
      grantee ← decodeString "grantee_user_id" j; envelope ← decodeString "key_envelope_id" j; Some (grantee, envelope));
    grantID ← generateID (ot_now o) "grant";
    _ ← orElse (onDB (CreateShareGrant (mkShareGrant grantID tenantID nodeID userID body.1 1 true body.2 0 None)))
      (fun _ => writeError 500 "failed to create share grant");
    mret (writeJSON 201 (Json (JObj [("grant_id", JStr grantID)])))
  else reply (writeError 400 ("unknown action: " +:+ action)).

(** ** Uploads *)
Record initiateBody := mkInitiateBody {
  ib_NodeID : string; ib_FolderID : string; ib_ChunkPlan : RawMessage; ib_Manifest : RawMessage; ib_Header : RawMessage;
  ib_WrappedDEK : string; ib_WrapNonce : string }.
Definition decodeInitiate (j : json) : option initiateBody :=
  node ← decodeString "node_id" j; folder ← decodeString "folder_id" j; plan ← decodeRaw "chunk_plan" j;
  manifest ← decodeRaw "manifest" j; header ← decodeRaw "header" j; dek ← decodeString "wrapped_dek_hex" j;
  nonce ← decodeString "wrap_nonce_hex" j; Some (mkInitiateBody node folder plan manifest header dek nonce).
Definition handleUploadInitiate (o : Outside) (r : Request) : HD Response :=
  start r;; onlyMethod r "POST";;
  tenantID ← needTenant r;
  body ← decodeBody (ot_parse o) r decodeInitiate;
  sid ← generateID (ot_now o) "upload";
  metaDB ← field dr_metaDB;
  match metaDB with
  | Some _ =>
      _ ← orElse (onDB (CreateKDRV1UploadSession (mkKDRV1UploadSession sid tenantID (ib_NodeID body) (ib_FolderID body)
            (ib_ChunkPlan body) (ib_Manifest body) (ib_Header body) (ib_WrappedDEK body) (ib_WrapNonce body)
            (Some (JArr [])) "UPLOADING" 0 0)))
        (fun _ => writeError 500 "failed to create session");
      mret (writeJSON 200 (Json (JObj [("session_id", JStr sid)])))
  | None =>
      let session := mkUploadSession sid tenantID (ib_NodeID body) (ib_FolderID body) (ib_ChunkPlan body)
        (ib_Manifest body) (ib_Header body) (ib_WrappedDEK body) (ib_WrapNonce body) [] (ot_later o) in
      putSession sid session;;
      mret (writeJSON 200 (Json (JObj [("session_id", JStr sid)])))
  end.

(** The JSON text of a [registeredChunk], as stored in the session row. *)
Definition chunkJSON (c : registeredChunk) : json := JObj
  [("index", jnum (rc_Index c)); ("blob_key", JStr (rc_BlobKey c)); ("ciphertext_hex", JStr (rc_CiphertextHex c));
   ("ciphertext_sha256", JStr (rc_CiphertextSHA c)); ("plaintext_len", jnum (rc_PlaintextLen c));
   ("ciphertext_len", jnum (rc_CiphertextLen c))].
(** A blob of the API, written whole under a key of the client's. *)
Definition blobRequest (key : string) (data : bytes) (sum : string) : PutRequest :=
  mkPutRequest key (Some (bytes_NewReader data)) (len data) sum "application/octet-stream" "" "" "" "" zeroRetentionSpec
    false.
Definition storeBlob (o : Outside) (req : PutRequest) (msg : string) : HD unit :=
  store ← field dr_store;
  match store with
  | Some _ => _ ← orElse (onBlobs (st_Put (ot_now o) req)) (fun _ => writeError 500 msg); mret tt
  | None => mret tt
  end.
Definition chunkKey (sid : string) (ordinal : Z) : string := "blob_" +:+ sid +:+ "_" +:+ pretty ordinal.
Definition handleUploadChunks (o : Outside) (r : Request) : HD Response :=
  start r;;
  let parts := Split (TrimPrefix (rq_Path r) "/v1/uploads/") "/"%char in
  reply_if ((length parts <? 3)%nat || negb (bool_decide (parts !! 1%nat = Some "chunks")))
    (writeError 400 "expected /v1/uploads/{sid}/chunks/{ordinal}:register");;
  let sid := default "" (head parts) in
  let ordinalStr := default "" (head (SplitN2 (default "" (parts !! 2%nat)) ":"%char)) in
  tenantID ← needTenant r;
  body ← decodeBody (ot_parse o) r (fun j =>
    hex ← decodeString "ciphertext_hex" j; sha ← decodeString "ciphertext_sha256" j;
    plain ← decodeInt "plaintext_len" j; cipher ← decodeInt "ciphertext_len" j; Some (hex, sha, plain, cipher));
  let '(hex, sha, plain, cipher) := body in
  match sscanf_d ordinalStr with
  | None => reply (writeError 400 "invalid ordinal")
  | Some ordinal =>
      let blobKey := chunkKey sid ordinal in
      let chunk := mkRegisteredChunk ordinal blobKey hex sha plain cipher in
      ctBytes ← decodeHex hex "invalid ciphertext_hex";
      storeBlob o (blobRequest blobKey ctBytes "") "failed to store chunk";;
      metaDB ← field dr_metaDB;
      match metaDB with
      | Some _ =>
          _ ← orElse (onDB (AppendKDRV1UploadSessionChunk sid tenantID (Some (chunkJSON chunk))))
            (fun e => if errors_Is e MdNotFound then writeError 404 "upload session not found"
                      else writeError 500 "internal error");
          mret (writeJSON 200 (Json (JObj [("blob_key", JStr blobKey)])))
      | None =>
          sessions ← field dr_sessions;
          match sessions !! sid with
          | None => reply (writeError 404 "upload session not found")
          | Some session =>
              reply_if (negb (bool_decide (up_TenantID session = tenantID)))
                (writeError 403 "upload session belongs to another tenant");;
              putSession sid (session <| up_Chunks := up_Chunks session ++ [chunk] |>);;
              mret (writeJSON 200 (Json (JObj [("blob_key", JStr blobKey)])))
          end
      end
  end.

(** ** Versions *)
Definition handleVersion (o : Outside) (r : Request) : HD Response :=
  start r;;
  _ ← needTenant r;
  let parts := SplitN2 (TrimPrefix (rq_Path r) "/v1/versions/") ":"%char in
  let vid := default "" (head parts) in
  let action := default "" (parts !! 1%nat) in
  if bool_decide (action = "authorizeDownload") then
    onlyMethod r "POST";;
    mret (writeJSON 200 (Json (JObj
      [("capability", JStr ("cap_" +:+ vid +:+ "_" +:+ pretty (ot_now o / Second)));
       ("expires_at", JStr (ot_RFC3339 o (ot_later o + 15 * Minute))); ("version_id", JStr vid)])))
  else if bool_decide (action = "manifest") then
    onlyMethod r "GET";;
    mret (writeJSON 200 (Json (JObj [("manifest", JStr "manifest_not_yet_persisted"); ("version_id", JStr vid)])))
  else
    onlyMethod r "GET";;
    mret (writeJSON 200 (Json (JObj [("status", JStr "COMMITTED_DURABLE"); ("version_id", JStr vid)]))).

(** ** Domains

    After a rotation the error of the second read is dropped: if it failed,
    [dom] is nil. *)
Definition handleDomain (o : Outside) (r : Request) : HD Response :=
  start r;;
  tenantID ← needTenant r;
  let parts := Split (TrimPrefix (rq_Path r) "/v1/domains/") "/"%char in
  let domainID := default "" (head parts) in
  let sub := default "" (parts !! 1%nat) in
  reply_if (bool_decide (domainID = "")) (writeError 400 "missing domain_id");;
  needDB;;
  ps ← field dr_stmts;
  if bool_decide (sub = "envelopes") then
    onlyMethod r "GET";;
    envelopes ← orElse (onDB (ListEnvelopesByDomain domainID tenantID)) (fun _ => writeError 500 "failed to list envelopes");
    mret (writeJSON 200 (Envelopes envelopes))
  else if bool_decide (sub = "generations") then
    onlyMethod r "POST";;
    prev ← decodeBody (ot_parse o) r (decodeString "prev_key_envelope_hex");
    _ ← orElse (onDB (RotateEncryptionDomain domainID tenantID (hex_prefix prev)))
      (fun _ => writeError 500 "failed to rotate domain");
    dom ← onDB (GetEncryptionDomain ps domainID tenantID);
    match dom with
    | Ok dom => mret (writeJSON 200 (Json (JObj [("domain_id", JStr domainID); ("generation", jnum (e_Generation dom))])))
    | Err _ => reply Aborted
    end
  else
    onlyMethod r "GET";;
    dom ← orElse (onDB (GetEncryptionDomain ps domainID tenantID)) (fun _ => writeError 404 "domain not found");
    mret (writeJSON 200 (Domain dom)).

(** ** Shares *)
Definition handleSharesRoot (r : Request) : HD Response :=
  start r;; onlyMethod r "GET";;
  let userID := (getUserTenant r).1 in let tenantID := (getUserTenant r).2 in
  reply_if (bool_decide (userID = "")) (writeError 400 "missing X-Demo-User header");;
  reply_if (bool_decide (tenantID = "")) (writeError 400 "missing X-Demo-Tenant header");;
  needDB;;
  grants ← orElse (onDB (ListActiveShareGrants userID tenantID)) (fun _ => writeError 500 "failed to list grants");
  mret (writeJSON 200 (Grants grants)).

Definition handleShareRevoke (r : Request) : HD Response :=
  start r;;
  tenantID ← needTenant r;
  let grantID := TrimPrefix (rq_Path r) "/v1/shares/" in
  reply_if (bool_decide (grantID = "")) (writeError 400 "missing grant_id");;
  onlyMethod r "DELETE";;
  needDB;;
  _ ← orElse (onDB (RevokeShareGrant grantID tenantID)) (fun _ => writeError 404 "grant not found or already revoked");
  mret (writeJSON 200 (Json (JObj [("status", JStr "revoked")]))).

(** ** Vectors *)
Definition handleVectors (r : Request) : HD Response :=
  start r;; onlyMethod r "GET";;
  mret (writeJSON 200 (Json (JObj
    [("note", JStr "Cross-language test vectors — verify byte-equality with Rust SDK"); ("protocol", JStr "kdrv1");
     ("suite", jnum 1); ("version", jnum 1)]))).
End drive.

Example sscanf_examples : map sscanf_d ["12:register"; " +7x"; "-3"; ""; "x1"; bytesOf [226; 128; 137; 52]%N]
  = [Some 12; Some 7; Some (-3); None; None; Some 4].
Proof. reflexivity. Qed.
Example hex_prefix_stops : hex_prefix "0a0bzz0c" = [x0a; x0b] /\ hex_prefix "0a0" = [x0a].
Proof. split; reflexivity. Qed.
