(* ===== verification/DedupApi.v ===== *)
(** * internal/server/drive_dedup_api.go

    Content deduplication within a tenant: file-level and chunk-level checks,
    registration, commits, blob uploads. Contents are kept in the database, or
    in the two maps of [Drive] when there is none. *)
From Stdlib Require Import Strings.Ascii.
From S2P Require Import Prelude GoStd BlobStore Db MetaStore DriveStore ContentStore Http DriveApi.
Local Open Scope Z_scope.

Section dedup.
Context {St : Type} `{!Store St}.
Notation D := (Drive St).
Notation HD := (H D).

(** ** The in-memory contents *)
(** [for k := range m { delete ..; break }] over the keys of one of the maps. *)
Definition evictFirst (keys : list string) (s : D) : D :=
  match keys with
  | k :: _ => s <| dr_memContentStore := delete k (dr_memContentStore s) |>
                <| dr_memContentChunks := delete k (dr_memContentChunks s) |>
  | [] => s
  end.
Definition keysOf {A} (m : gmap string A) : list string := map fst (map_to_list m).
Definition evictEntry (o : Outside) (s : D) : D :=
  if dr_memContentStoreMax s <=? Z.of_nat (size (dr_memContentStore s))
  then evictFirst (ot_range o 0 (keysOf (dr_memContentStore s))) s else s.
Definition evictChunks (o : Outside) (s : D) : D :=
  if (0 <? dr_memContentStoreMax s) && (dr_memContentStoreMax s * 10 <? Z.of_nat (size (dr_memContentChunks s)))
  then evictFirst (ot_range o 1 (keysOf (dr_memContentChunks s))) s else s.
Definition putMemContent (o : Outside) (key : string) (entry : memContentEntry) (chunks : list memContentChunk) : HD unit :=
  fun s => let s := evictChunks o (evictEntry o s) in
    (s <| dr_memContentStore := <[key := entry]> (dr_memContentStore s) |>
       <| dr_memContentChunks := <[key := chunks]> (dr_memContentChunks s) |>, inr tt).
Definition getMemContent (key : string) : HD (option memContentEntry) := field (fun s => dr_memContentStore s !! key).

(** ** Checks *)
Definition internal : Response := writeError 500 "internal error".
Definition absent : Response := writeJSON 200 (Json (JObj [("exists", JBool false)])).
Definition found (blobKeys hashes : list string) (chunkCount plaintextSize : Z) : Response :=
  writeJSON 200 (Json (JObj [("blob_keys", jstrs blobKeys); ("chunk_count", jnum chunkCount);
    ("ciphertext_hashes", jstrs hashes); ("exists", JBool true); ("plaintext_size", jnum plaintextSize)])).

Definition handleContentCheck (o : Outside) (r : Request) : HD Response :=
  start r;; onlyMethod r "POST";;
  tenantID ← needTenant r;
  contentID ← decodeBody (ot_parse o) r (decodeString "content_id");
  metaDB ← field dr_metaDB;
  match metaDB with
  | Some _ =>
      entry ← orElse (onDB (GetContentEntry contentID tenantID))
        (fun e => if errors_Is e MdNotFound then absent else internal);
      chunks ← orElse (onDB (GetContentChunks contentID tenantID)) (fun _ => internal);
      mret (found (map h_BlobKey chunks) (map h_ChunkContentHash chunks) (c_ChunkCount entry) (c_PlaintextSize entry))
  | None =>
      entry ← getMemContent contentID;
      match entry with
      | Some entry =>
          reply_if (negb (bool_decide (mc_TenantID entry = tenantID))) absent;;
          mret (found (mc_BlobKeys entry) (mc_CiphertextHashes entry) (mc_ChunkCount entry) (mc_PlaintextSize entry))
      | None => reply absent
      end
  end.

(** One answer per hash asked, in that order. *)
Definition answer (hash : string) (blobKey : option string) : json :=
  JObj [("blob_key", match blobKey with Some k => JStr k | None => JNull end);
        ("exists", JBool (match blobKey with Some _ => true | None => false end)); ("hash", JStr hash)].
Definition answers (l : list json) : Response := writeJSON 200 (Json (JObj [("results", JArr l)])).
(** [knownHashes]: the chunks of the tenant's contents, the last one seen of
    a hash wins. *)
Definition knownHashes (o : Outside) (tenantID : string) (s : D) : gmap string string :=
  foldl (fun known cid =>
    match dr_memContentStore s !! cid with
    | Some entry =>
        if bool_decide (mc_TenantID entry = tenantID) then
          foldl (fun known c => <[mk_ChunkContentHash c := mk_BlobKey c]> known) known
            (default [] (dr_memContentChunks s !! cid))
        else known
    | None => known
    end) ∅ (ot_range o 0 (keysOf (dr_memContentStore s))).

Definition handleContentCheckChunks (o : Outside) (r : Request) : HD Response :=
  start r;; onlyMethod r "POST";;
  tenantID ← needTenant r;
  body ← decodeBody (ot_parse o) r (fun j =>
    contentID ← decodeString "content_id" j; hashes ← decodeList decodeElem "chunk_hashes" j; Some (contentID, hashes));
  metaDB ← field dr_metaDB;
  match metaDB with
  | Some _ =>
      results ← orElse (onDB (CheckChunkHashes (ot_rows o) body.1 tenantID body.2)) (fun _ => internal);
      mret (answers (map (fun x => answer (r_Hash x) (if r_Exists x then Some (r_BlobKey x) else None)) results))
  | None =>
      known ← field (knownHashes o tenantID);
      mret (answers (map (fun hash => answer hash (known !! hash)) body.2))
  end.

(** ** Registration *)
Record contentChunkEntry := mkContentChunkEntry {
  cc_ChunkIndex : Z; cc_ChunkContentHash : string; cc_BlobKey : string; cc_PlaintextLen : Z; cc_CiphertextLen : Z }.
Definition decodeChunk (j : json) : option contentChunkEntry :=
  index ← decodeInt "chunk_index" j; hash ← decodeString "chunk_content_hash" j; key ← decodeString "blob_key" j;
  plain ← decodeInt "plaintext_len" j; cipher ← decodeInt "ciphertext_len" j;
  Some (mkContentChunkEntry index hash key plain cipher).
Record registerBody := mkRegisterBody {
  rb_ContentID : string; rb_PlaintextSize : Z; rb_ChunkCount : Z; rb_ChunkSize : Z; rb_ChunkPlanRoot : string;
  rb_Chunks : list contentChunkEntry }.
Definition decodeRegister (j : json) : option registerBody :=
  contentID ← decodeString "content_id" j; plain ← decodeInt "plaintext_size" j; count ← decodeInt "chunk_count" j;
  size ← decodeInt "chunk_size" j; root ← decodeString "chunk_plan_root" j; chunks ← decodeList decodeChunk "chunks" j;
  Some (mkRegisterBody contentID plain count size root chunks).
Definition registered (contentID : string) (alreadyExisted : bool) : Response :=
  writeJSON 200 (Json (JObj [("already_existed", JBool alreadyExisted); ("content_id", JStr contentID);
    ("registered", JBool true)])).
Definition foreign : Response := writeError 403 "content_id owned by another tenant".

Definition dbChunk (c : contentChunkEntry) : ContentChunk :=
  mkContentChunk (cc_ChunkIndex c) (cc_ChunkContentHash c) (cc_BlobKey c) (cc_PlaintextLen c) (cc_CiphertextLen c).
Definition memChunk (c : contentChunkEntry) : memContentChunk :=
  mkMemContentChunk (cc_ChunkIndex c) (cc_ChunkContentHash c) (cc_BlobKey c) (cc_PlaintextLen c) (cc_CiphertextLen c).
Definition newEntry (body : registerBody) (tenantID : string) : ContentEntry :=
  mkContentEntry (rb_ContentID body) tenantID (rb_PlaintextSize body) (rb_ChunkCount body) (rb_ChunkSize body)
    (rb_ChunkPlanRoot body) 1 0.
Definition newMemEntry (o : Outside) (body : registerBody) (tenantID : string) : memContentEntry :=
  mkMemContentEntry (rb_ContentID body) tenantID (rb_PlaintextSize body) (rb_ChunkCount body) (rb_ChunkSize body)
    (rb_ChunkPlanRoot body) (map cc_BlobKey (rb_Chunks body)) (map cc_ChunkContentHash (rb_Chunks body)) (ot_now o).

(** The two steps of a registration in the database: who has the content, and
    the rows. The answer to the second query counts only if it came. *)
Definition checkOwner (contentID tenantID : string) : HD unit :=
  existing ← onDB (GetContentEntry contentID tenantID);
  match existing with
  | Ok _ => reply (registered contentID true)
  | Err e =>
      reply_if (negb (errors_Is e MdNotFound)) internal;;
      anyTenant ← onDB (GetContentEntryByContentID contentID);
      match anyTenant with
      | Ok entry => reply_if (negb (bool_decide (c_TenantID entry = tenantID))) foreign
      | Err _ => mret tt
      end
  end.
Definition registerRows (body : registerBody) (tenantID : string) : HD unit :=
  _ ← orElse (onDB (CreateContentEntry (newEntry body tenantID))) (fun _ => internal);
  _ ← orElse (onDB (CreateContentChunks (rb_ContentID body) (map dbChunk (rb_Chunks body)))) (fun _ => internal);
  mret tt.
Definition handleContentRegister (o : Outside) (r : Request) : HD Response :=
  start r;; onlyMethod r "POST";;
  tenantID ← needTenant r;
  body ← decodeBody (ot_parse o) r decodeRegister;
  metaDB ← field dr_metaDB;
  match metaDB with
  | Some _ =>
      checkOwner (rb_ContentID body) tenantID;;
      registerRows body tenantID;;
      mret (registered (rb_ContentID body) false)
  | None =>
      existing ← getMemContent (rb_ContentID body);
      match existing with
      | Some existing =>
          reply_if (negb (bool_decide (mc_TenantID existing = tenantID))) foreign;;
          mret (registered (rb_ContentID body) true)
      | None =>
          putMemContent o (rb_ContentID body) (newMemEntry o body tenantID) (map memChunk (rb_Chunks body));;
          mret (registered (rb_ContentID body) false)
      end
  end.

(** ** Commits *)
Record commitBody := mkCommitBody {
  cb_Protocol : string; cb_ContentID : string; cb_ReusedBlobKeys : list string; cb_NewBlobKeys : list string }.
(** The fields nothing reads are decoded all the same: a value of the wrong
    type is an invalid body. *)
Definition decodeCommit (j : json) : option commitBody :=
  protocol ← decodeString "protocol" j; contentID ← decodeString "content_id" j;
  _ ← mapM (fun f => decodeString f j) ["node_id"; "manifest_nonce_hex"; "manifest_ciphertext_sha256"; "wrapped_dek_hex";
    "wrap_nonce_hex"; "wrapped_content_key_hex"; "content_wrap_nonce_hex"];
  _ ← mapM (fun f => decodeRaw f j) ["manifest"; "header"];
  reused ← decodeList decodeElem "reused_blob_keys" j; new ← decodeList decodeElem "new_blob_keys" j;
  Some (mkCommitBody protocol contentID reused new).

Definition unregistered : Response := writeError 400 "content_id not registered".
(** The blob keys of a content of the tenant's. *)
Definition contentBlobs (contentID tenantID : string) : HD (list string) :=
  metaDB ← field dr_metaDB;
  match metaDB with
  | Some _ =>
      _ ← orElse (onDB (GetContentEntry contentID tenantID))
        (fun e => if errors_Is e MdNotFound then unregistered else internal);
      chunks ← orElse (onDB (GetContentChunks contentID tenantID)) (fun _ => internal);
      mret (map h_BlobKey chunks)
  | None =>
      entry ← getMemContent contentID;
      match entry with
      | Some entry =>
          reply_if (negb (bool_decide (mc_TenantID entry = tenantID))) unregistered;;
          mret (mc_BlobKeys entry)
      | None => reply unregistered
      end
  end.
Fixpoint checkReused (known : list string) (keys : list string) : HD unit :=
  match keys with
  | [] => mret tt
  | k :: keys => reply_if (negb (bool_decide (k ∈ known))) (writeError 400 "reused blob key not found");; checkReused known keys
  end.
Fixpoint checkUploaded (o : Outside) (keys : list string) : HD unit :=
  match keys with
  | [] => mret tt
  | k :: keys =>
      _ ← orElse (onBlobs (st_Head (ot_now o) (mkObjectRef k)))
        (fun e => if errors_Is e BsNotFound then writeError 400 ("new blob key not uploaded: " +:+ k) else internal);
      checkUploaded o keys
  end.
Definition verifyNew (o : Outside) (keys : list string) : HD unit :=
  store ← field dr_store;
  match store with Some _ => checkUploaded o keys | None => mret tt end.
Definition committed (versionID : string) (body : commitBody) : Response :=
  writeJSON 200 (Json (JObj [("committed", JBool true); ("deduped_chunks", jnum (len (cb_ReusedBlobKeys body)));
    ("new_chunks", jnum (len (cb_NewBlobKeys body))); ("version_id", JStr versionID)])).
Definition handleUploadCommitDedup (o : Outside) (r : Request) : HD Response :=
  start r;; onlyMethod r "POST";;
  tenantID ← needTenant r;
  body ← decodeBody (ot_parse o) r decodeCommit;
  reply_if (negb (bool_decide (cb_Protocol body = "KDRV1"))) (writeError 400 "expected protocol KDRV1");;
  known ← contentBlobs (cb_ContentID body) tenantID;
  checkReused known (cb_ReusedBlobKeys body);;
  verifyNew o (cb_NewBlobKeys body);;
  versionID ← generateID (ot_now o) "version";
  mret (committed versionID body).

(** ** Blobs *)
Definition handleBlobUpload (o : Outside) (r : Request) : HD Response :=
  start r;; onlyMethod r "POST";;
  _ ← needTenant r;
  body ← decodeBody (ot_parse o) r (fun j =>
    key ← decodeString "blob_key" j; hex ← decodeString "ciphertext_hex" j; sum ← decodeString "ciphertext_sha256" j;
    _ ← decodeInt "plaintext_len" j; _ ← decodeInt "ciphertext_len" j; Some (key, hex, sum));
  let '(key, hex, sum) := body in
  reply_if (bool_decide (key = "") || bool_decide (hex = "")) (writeError 400 "missing blob_key or ciphertext_hex");;
  ctBytes ← decodeHex hex "invalid ciphertext_hex";
  storeBlob o (blobRequest key ctBytes sum) "failed to store blob";;
  mret (writeJSON 200 (Json (JObj [("blob_key", JStr key); ("ciphertext_len", jnum (len ctBytes)); ("stored", JBool true)]))).

(** ** The routes: [registerDriveRoutes] *)
Inductive driveRoute :=
| RtTenants | RtFolders | RtFolderChildren | RtNode | RtUploadInitiate | RtUploadChunks | RtCommitDedup | RtVersion
| RtDomain | RtShares | RtShareRevoke | RtVectors | RtContentCheck | RtContentCheckChunks | RtContentRegister | RtBlobUpload.
Definition driveRoutes : list (string * driveRoute) :=
  [("/v1/tenants", RtTenants); ("/v1/folders", RtFolders); ("/v1/folders/", RtFolderChildren); ("/v1/nodes/", RtNode);
   ("/v1/uploads:initiate", RtUploadInitiate); ("/v1/uploads/", RtUploadChunks);
   ("/v1/uploads:commitDedup", RtCommitDedup); ("/v1/versions/", RtVersion); ("/v1/domains/", RtDomain);
   ("/v1/shares", RtShares); ("/v1/shares/", RtShareRevoke); ("/v1/vectors", RtVectors);
   ("/v1/content:check", RtContentCheck); ("/v1/content:checkChunks", RtContentCheckChunks);
   ("/v1/content:register", RtContentRegister); ("/v1/blobs:upload", RtBlobUpload)].
Definition driveHandler (rt : driveRoute) (o : Outside) (r : Request) : HD Response :=
  match rt with
  | RtTenants => handleTenants r | RtFolders => handleFoldersRoot o r | RtFolderChildren => handleFolderChildren o r
  | RtNode => handleNode o r | RtUploadInitiate => handleUploadInitiate o r | RtUploadChunks => handleUploadChunks o r
  | RtCommitDedup => handleUploadCommitDedup o r | RtVersion => handleVersion o r | RtDomain => handleDomain o r
  | RtShares => handleSharesRoot r | RtShareRevoke => handleShareRevoke r | RtVectors => handleVectors r
  | RtContentCheck => handleContentCheck o r | RtContentCheckChunks => handleContentCheckChunks o r
  | RtContentRegister => handleContentRegister o r | RtBlobUpload => handleBlobUpload o r
  end.
Definition driveServe (rt : driveRoute) (o : Outside) (r : Request) : D -> D * Response := serve (driveHandler rt o r).
End dedup.
