(* ===== verification/DriveIsolation.v ===== *)
(** * The gateway keeps the tenants apart

    A request to the Drive API made by one tenant leaves the rows of every
    other tenant as they are; and what a read of a tenant's answers is not
    changed by any requests of other tenants before it. *)
From S2P Require Import Prelude GoStd BlobStore Db MetaStore DriveStore ContentStore TenantIsolation Http DriveApi DedupApi.
Local Open Scope Z_scope.

(** ** A link that does not fail goes on not failing *)
Definition steady {A} (m : MDB A) : Prop := forall d d' r, m d = (d', r) -> db_faults d = [] -> db_faults d' = [].

Lemma steady_pure {A} (f : db -> result A) : steady (fun d => (d, f d)).
Proof. by intros d d' r [= <- _]. Qed.
Lemma steady_modify {A} (f : db -> db) (a : A) : (forall d, db_faults (f d) = db_faults d) -> steady (fun d => (f d, Ok a)).
Proof. intros Hf d d' r [= <- _]. by rewrite Hf. Qed.
Lemma steady_bind {A B} (m : MDB A) (k : A -> MDB B) : steady m -> (forall a, steady (k a)) -> steady (x ← m; k x).
Proof.
  intros Hm Hk d d' r [(e & He & _)|(a & d1 & Ha & Hb)]%bind_cases Hd; [by eapply Hm|]. eapply Hk; [done|]. by eapply Hm.
Qed.
Lemma steady_stmt {A} (m : MDB A) : steady m -> steady (stmt m).
Proof. intros Hm d d' r Hs Hd. rewrite healthy_stmt in Hs by done. by eapply Hm. Qed.
Lemma steady_transaction {A} (m : MDB A) : steady m -> steady (transaction m).
Proof.
  intros Hm d d' r Ht Hd. unfold transaction in Ht. rewrite healthy_stmt in Ht by done. cbn in Ht.
  destruct (m d) as [d1 [a|e]] eqn:H1; pose proof (Hm _ _ _ H1 Hd) as Hd1.
  - rewrite healthy_stmt in Ht by done. cbn in Ht. by injection Ht as <- _.
  - by injection Ht as <- _.
Qed.
Lemma steady_try {A} (m : MDB A) : steady m -> steady (try m).
Proof. intros Hm d d' r. unfold try. destruct (m d) as [d1 r1] eqn:H1. intros [= <- _]. by eapply Hm. Qed.
Lemma steady_fail_if b e : steady (@fail_if db b e).
Proof. destruct b; apply steady_pure. Qed.
Lemma steady_update {R} (get : db -> gmap string R) set k p f : (forall m d, db_faults (set m d) = db_faults d) ->
  steady (updateAt get set k p f).
Proof.
  intros Hs d d' r. unfold updateAt. destruct (get d !! k) as [row|]; [|by intros [= <- _]].
  destruct (p row); intros [= <- _]; [by rewrite Hs|done].
Qed.
Lemma steady_jsonParam m : steady (jsonParam m).
Proof. unfold jsonParam. destruct m; apply (steady_pure (fun _ => _)). Qed.
Ltac steady :=
  repeat first
    [ apply steady_stmt | apply steady_transaction | apply steady_try | apply steady_fail_if | apply steady_jsonParam
    | apply steady_bind; [|intros ?] | apply steady_update; [done] | apply steady_modify; [done] | apply steady_pure
    | match goal with |- steady (if ?b then _ else _) => destruct b | |- steady (match ?x with _ => _ end) => destruct x end ].
Lemma steady_scanRow {A} b (q : db -> option A) : steady (scanRow b q).
Proof. unfold scanRow, queryRow. steady. Qed.
Lemma steady_chunks c cs : steady (insertChunks c cs).
Proof. induction cs as [|x cs IH]; cbn [insertChunks]; [apply steady_pure|]. unfold insertChunk. steady. exact IH. Qed.
Lemma steady_write t w : steady (runWrite t w).
Proof.
  destruct w; cbn [runWrite]; unfold CreateFolder, CreateNode, CreateEncryptionDomain, RotateEncryptionDomain,
    CreateKeyEnvelope, CreateShareGrant, RevokeShareGrant, CreateAccessContextSnapshot, CreateContentEntry,
    CreateContentChunks, CreateKDRV1UploadSession, AppendKDRV1UploadSessionChunk, UpdateKDRV1UploadSessionState,
    DeleteKDRV1UploadSession, prepare; steady; try apply steady_chunks; try apply steady_scanRow.
  apply steady_modify. intros d. by case_bool_decide.
Qed.
Lemma steady_read t r : steady (runRead t r).
Proof.
  destruct r; cbn [runRead]; unfold ListFolders, ListNodes, ListEnvelopesByDomain, ListActiveShareGrants, GetContentChunks,
    CheckChunkHashes, listRows; try apply steady_scanRow; steady.
Qed.

(** A read leaves every row as it is. *)
Lemma keeps_read t t' r : keeps t (runRead t' r).
Proof.
  destruct r; cbn [runRead]; try apply keeps_scanRow; try (apply keeps_stmt, (keeps_pure t (fun d => Ok _))).
  apply keeps_bind; [apply keeps_stmt, (keeps_pure t (fun d => Ok _))|]. intros rows. apply (keeps_pure t (fun d => Ok _)).
Qed.

(** ** Handlers that isolate

    [isolates t P h Q]: from a database with [P], [h] keeps the rows of [t],
    keeps a sound link sound, and if it goes on with a value, then with [Q]. *)
Section isolation.
Context {St : Type} `{!Store St}.
Notation D := (Drive St).
Notation HD := (H D).

Record next (t : string) (s : D) (d : db) (s' : D) (d' : db) : Prop := {
  nx_db : dr_metaDB s' = Some d'; nx_same : sameTenant t d d'; nx_stmts : dr_stmts s' = dr_stmts s;
  nx_link : db_faults d = [] -> db_faults d' = [] }.
Definition isolates (t : string) {A} (P : db -> Prop) (h : HD A) (Q : A -> db -> Prop) : Prop :=
  forall s d s' x, dr_metaDB s = Some d -> P d -> h s = (s', x) ->
  exists d', next t s d s' d' /\ forall a, x = inr a -> Q a d'.
Definition anything {A} : A -> db -> Prop := fun _ _ => True.

Lemma next_refl t s d : dr_metaDB s = Some d -> next t s d s d.
Proof. by split. Qed.
Lemma next_trans t s d s1 d1 s2 d2 : next t s d s1 d1 -> next t s1 d1 s2 d2 -> next t s d s2 d2.
Proof. intros [? ? Hs ?] [? ? Hs1 ?]. split; [done|by etransitivity|by rewrite Hs1|auto]. Qed.

Lemma isolates_bind t {A B} P (h : HD A) Q (k : A -> HD B) R : isolates t P h Q ->
  (forall a, isolates t (Q a) (k a) R) -> isolates t P (x ← h; k x) R.
Proof.
  intros Hh Hk s d s' x Hs HP [(r & H1 & ->)|(a & s1 & H1 & H2)]%H_bind_inv.
  - destruct (Hh _ _ _ _ Hs HP H1) as (d' & Hn & _). exists d'. split; [done|]. intros a [=].
  - destruct (Hh _ _ _ _ Hs HP H1) as (d1 & Hn & Hq).
    destruct (Hk a _ _ _ _ (nx_db _ _ _ _ _ Hn) (Hq a eq_refl) H2) as (d' & Hn' & Hr).
    exists d'. split; [by eapply next_trans|done].
Qed.
Lemma isolates_weaken t {A} (P P' : db -> Prop) (h : HD A) (Q Q' : A -> db -> Prop) : isolates t P h Q ->
  (forall d, P' d -> P d) -> (forall a d, Q a d -> Q' a d) -> isolates t P' h Q'.
Proof.
  intros Hh Hp Hq s d s' x Hs HP Hr. destruct (Hh s d s' x Hs (Hp _ HP) Hr) as (d' & Hn & H). exists d'.
  split; [done|]. intros a Ha. by apply Hq, H.
Qed.

(** What does not touch the database. *)
Definition aside {A} (h : HD A) : Prop := forall s s' x, h s = (s', x) -> dr_metaDB s' = dr_metaDB s /\ dr_stmts s' = dr_stmts s.
Lemma isolates_aside t {A} P (h : HD A) : aside h -> isolates t P h (fun _ => P).
Proof. intros Hh s d s' x Hs HP [Hm Hst]%Hh. exists d. split; [|done]. split; [congruence|done|done|done]. Qed.
Lemma aside_bind {A B} (h : HD A) (k : A -> HD B) : aside h -> (forall a, aside (k a)) -> aside (x ← h; k x).
Proof.
  intros Hh Hk s s' x [(r & H1 & ->)|(a & s1 & H1 & H2)]%H_bind_inv; [by eapply Hh|].
  apply Hh in H1 as [H1 H1']. apply Hk in H2 as [H2 H2']. split; congruence.
Qed.
Lemma aside_ret {A} (a : A) : aside (mret a).
Proof. by intros s s' x [= <- _]. Qed.
Lemma aside_reply {A} r : aside (@reply D A r).
Proof. by intros s s' x [= <- _]. Qed.
Lemma aside_field {A} (f : D -> A) : aside (field f).
Proof. by intros s s' x [= <- _]. Qed.
Lemma aside_generateID now p : aside (@generateID St now p).
Proof. by intros s s' x [= <- _]. Qed.
Lemma aside_needDB : aside (@needDB St).
Proof. intros s s' x. unfold needDB. destruct (dr_metaDB s) eqn:Hd; intros [= <- _]; by rewrite Hd. Qed.
Lemma aside_onBlobs {A} (m : M St A) : aside (onBlobs m).
Proof. intros s s' x. unfold onBlobs. destruct (dr_store s) as [st|]; [destruct (m st)|]; by intros [= <- _]. Qed.
Lemma aside_orElse {A} (h : HD (result A)) bad : aside h -> aside (orElse h bad).
Proof. intros Hh. apply aside_bind; [done|]. intros [a|e]; [apply aside_ret|apply aside_reply]. Qed.
Lemma aside_putSession sid x : aside (@putSession St sid x).
Proof. by intros s s' y [= <- _]. Qed.
Lemma evictFirst_aside l (s : D) : dr_metaDB (evictFirst l s) = dr_metaDB s /\ dr_stmts (evictFirst l s) = dr_stmts s.
Proof. by destruct l. Qed.
Lemma aside_putMemContent o k e l : aside (@putMemContent St o k e l).
Proof.
  intros s s' x [= <- _]. cbn [dr_metaDB dr_stmts upd eta_expand eta_Drive]. unfold evictChunks, evictEntry.
  destruct (_ && _); destruct (_ <=? _); cbn; rewrite ?(proj1 (evictFirst_aside _ _)), ?(proj2 (evictFirst_aside _ _)); done.
Qed.
End isolation.

#[export] Hint Resolve aside_ret aside_reply aside_field aside_generateID aside_needDB aside_onBlobs aside_putSession
  aside_putMemContent : aside.
Ltac aside :=
  repeat first
    [ progress auto with aside nocore | apply aside_orElse | apply aside_bind; [|intros ?]
    | match goal with
      | |- aside (if ?b then _ else _) => destruct b
      | |- aside (match ?x with _ => _ end) => destruct x
      | |- aside (reply_if _ _) => unfold reply_if
      end ].

(** ** Requests of another tenant *)
Section requests.
Context {St : Type} `{!Store St}.
Notation D := (Drive St).
Notation HD := (H D).
Context (t : string).

Definition free {A} (h : HD A) : Prop := isolates t (fun _ => True) h anything.

Lemma free_aside {A} (h : HD A) : aside h -> free h.
Proof. intros Hh. by apply (isolates_weaken t (fun _ => True) _ h (fun _ _ => True)); [apply isolates_aside|..]. Qed.
Lemma free_bind {A B} (h : HD A) (k : A -> HD B) : free h -> (forall a, free (k a)) -> free (x ← h; k x).
Proof. intros Hh Hk. eapply isolates_bind; [exact Hh|]. intros a. eapply isolates_weaken; [apply Hk|done|done]. Qed.
Lemma free_orElse {A} (h : HD (result A)) bad : free h -> free (orElse h bad).
Proof. intros Hh. apply free_bind; [done|]. intros [a|e]; apply free_aside; aside. Qed.
Lemma isolates_onDB {A} P (m : MDB A) (Q : result A -> db -> Prop) :
  (forall d d' r, P d -> m d = (d', r) -> sameTenant t d d' /\ (db_faults d = [] -> db_faults d' = []) /\ Q r d') ->
  isolates t P (onDB (St := St) m) Q.
Proof.
  intros Hm s d s' x Hs HP. unfold onDB. rewrite Hs. destruct (m d) as [d' r] eqn:Hr. intros [= <- <-].
  destruct (Hm _ _ _ HP Hr) as (Hk & Hl & Hq). exists d'. split; [by split|]. by intros a [= <-].
Qed.
Lemma free_onDB {A} (m : MDB A) : keeps t m -> steady m -> free (onDB m).
Proof. intros Hk Hs. apply isolates_onDB. intros d d' r _ Hr. split; [by eapply Hk|]. split; [by eapply Hs|done]. Qed.
Lemma free_read t' r : free (onDB (runRead t' r)).
Proof. apply free_onDB; [apply keeps_read|apply steady_read]. Qed.
Lemma free_scan {A} b (q : db -> option A) : free (onDB (scanRow b q)).
Proof. apply free_onDB; [apply keeps_scanRow|apply steady_scanRow]. Qed.
Lemma free_write t' w : t <> t' -> (forall d, writesFor t' w d = true) -> free (onDB (runWrite t' w)).
Proof.
  intros Ht Hw. apply free_onDB; [|apply steady_write]. intros d d' r Hr. by eapply writes_tenant.
Qed.
Lemma isolates_tenant {A} P r (k : string -> HD A) Q : isolates t P (k (getUserTenant r).2) Q ->
  isolates t P (x ← needTenant r; k x) Q.
Proof.
  intros Hk s d s' x Hs HP. unfold needTenant, reply_if. case_bool_decide as He.
  - intros [= <- <-]. exists d. split; [by apply next_refl|]. intros a [=].
  - by apply Hk.
Qed.
Lemma free_tenant {A} r (k : string -> HD A) : free (k (getUserTenant r).2) -> free (x ← needTenant r; k x).
Proof. apply isolates_tenant. Qed.
Lemma isolates_orElse {A} P (h : HD (result A)) Q bad : isolates t P h Q -> isolates t P (orElse h bad) (fun a d => Q (Ok a) d).
Proof.
  intros Hh. eapply isolates_bind; [exact Hh|]. intros [a|e] s d s' x Hs HP [= <- <-];
    exists d; (split; [by apply next_refl|]); [by intros ? [= <-]|intros ? [=]].
Qed.
Lemma isolates_end {A} P (h : HD A) : aside h -> isolates t P h anything.
Proof. intros Hh s d s' x Hs HP [Hm Hst]%Hh. exists d. split; [|done]. split; [congruence|done|done|done]. Qed.
Lemma isolates_then {A B} P (h : HD A) (k : A -> HD B) : aside h -> (forall a, isolates t P (k a) anything) ->
  isolates t P (x ← h; k x) anything.
Proof. intros Hh Hk. eapply isolates_bind; [by apply isolates_aside|exact Hk]. Qed.
Lemma own_folder_isolates folderID t' : isolates t (fun _ => True) (ownFolder (St := St) folderID t')
  (fun folder _ => fo_TenantID folder = t').
Proof.
  unfold ownFolder. eapply isolates_bind; [apply isolates_aside; aside|]. intros ps.
  eapply isolates_bind; [apply free_orElse, free_scan|]. intros folder. unfold reply_if.
  case_bool_decide as Ht; cbn [negb]; intros s d s' x Hs _ [= <- <-]; exists d; (split; [by apply next_refl|]); intros a [= <-].
  exact Ht.
Qed.

Lemma free_ownFolder {A} folderID t' (k : Folder -> HD A) : (forall folder, fo_TenantID folder = t' -> free (k folder)) ->
  free (x ← ownFolder folderID t'; k x).
Proof.
  intros Hk. eapply isolates_bind; [apply own_folder_isolates|]. intros folder s d s' x Hs Ht. by eapply Hk.
Qed.
Lemma free_tenants : free (onDB ListDriveTenants).
Proof. apply free_onDB; [apply keeps_stmt, (keeps_pure t (fun d => Ok _))|unfold ListDriveTenants; steady]. Qed.
Lemma aside_getMemContent k : aside (getMemContent (St := St) k).
Proof. apply aside_field. Qed.
Lemma aside_checkReused known keys : aside (checkReused (St := St) known keys).
Proof. induction keys as [|k keys IH]; cbn [checkReused]; aside. Qed.
Lemma aside_checkUploaded o keys : aside (checkUploaded o keys).
Proof. induction keys as [|k keys IH]; cbn [checkUploaded]; aside. Qed.
Hint Resolve aside_getMemContent aside_checkReused aside_checkUploaded : aside.

Ltac free_read := lazymatch goal with
  | |- free (onDB (ListFolders ?t' ?p)) => exact (free_read t' (RFolders p))
  | |- free (onDB (ListNodes ?f ?t')) => exact (free_read t' (RNodes f))
  | |- free (onDB (GetLatestAccessContext ?n ?t')) => exact (free_read t' (RAccess n))
  | |- free (onDB (ListEnvelopesByDomain ?e ?t')) => exact (free_read t' (REnvelopes e))
  | |- free (onDB (ListActiveShareGrants ?g ?t')) => exact (free_read t' (RGrants g))
  | |- free (onDB (GetContentChunks ?c ?t')) => exact (free_read t' (RChunks c))
  | |- free (onDB (CheckChunkHashes ?o ?c ?t' ?h)) => exact (free_read t' (RHashes o c h))
  end.
Ltac free_write t' Ht :=
  let by_write w := (apply (free_write t' w Ht); intros ?; cbn; rewrite ?bool_decide_true by congruence; reflexivity) in
  lazymatch goal with
  | |- free (onDB (CreateFolder ?f)) => by_write (WFolder f)
  | |- free (onDB (CreateNode ?n)) => by_write (WNode n)
  | |- free (onDB (CreateShareGrant ?g)) => by_write (WGrant g)
  | |- free (onDB (CreateKDRV1UploadSession ?x)) => by_write (WSession x)
  | |- free (onDB (AppendKDRV1UploadSessionChunk ?i _ ?c)) => by_write (WAppend i c)
  | |- free (onDB (RotateEncryptionDomain ?i _ ?k)) => by_write (WRotate i k)
  | |- free (onDB (RevokeShareGrant ?i _)) => by_write (WRevoke i)
  end.
Ltac free :=
  repeat first
    [ apply free_ownFolder; intros ? ? | apply free_orElse | apply free_tenant | apply free_aside; solve [aside] | apply free_tenants | apply free_scan
    | match goal with
      | |- free (if ?b then _ else _) => destruct b
      | |- free (match ?x with _ => _ end) => destruct x
      end
    | apply free_bind; [|intros ?] ].

(** The name of a request's tenant, fixed for the handlers below. *)
Notation asker r := ((getUserTenant r).2).

Lemma chunks_write t' c cs : t <> t' ->
  isolates t (fun d => owns d t' c = true) (onDB (St := St) (CreateContentChunks c cs)) anything.
Proof.
  intros Ht. apply isolates_onDB. intros d d' r Ho Hr. split; [by eapply (writes_tenant t t' (WChunks c cs))|].
  split; [|done]. by eapply (steady_write t' (WChunks c cs)).
Qed.

(** Over a sound link, a content that passes the ownership check has no entry,
    or one of the asker's, so after the insertion it is the asker's. *)
Lemma scanRow_healthy {A} b (q : db -> option A) d : db_faults d = [] ->
  scanRow b q d = (d, match q d with Some a => Ok a | None => Err (ErrSentinel MdNotFound) end).
Proof.
  intros Hf. unfold scanRow, queryRow. assert (Hb : forall X (m : X), (if b then m else m) = m) by by destruct b. rewrite Hb.
  unroll. unfold stmt. rewrite Hf. cbn [id]. by destruct (q d).
Qed.
Lemma onDB_same {A} (m : MDB A) (s : D) d r : dr_metaDB s = Some d -> m d = (d, r) -> onDB m s = (s, inr r).
Proof. intros Hs Hm. unfold onDB. rewrite Hs, Hm. destruct s. cbn in *. by rewrite Hs. Qed.

Lemma checkOwner_isolates c t' : isolates t (fun d => db_faults d = []) (checkOwner (St := St) c t')
  (fun _ d => db_faults d = [] /\ forall e, content_entries d !! c = Some e -> ce_tenant_id e = t').
Proof.
  intros s d s' x Hs Hf Hr. enough (s' = s /\ forall a : unit, x = inr a -> forall e, content_entries d !! c = Some e -> ce_tenant_id e = t')
    as [-> Hx]. { exists d. split; [by apply next_refl|]. intros a Ha. split; [done|]. by eapply Hx. }
  revert Hr. unfold checkOwner. erewrite H_bind_go by (eapply onDB_same; [exact Hs|by apply scanRow_healthy]).
  unfold ownEntry. destruct (content_entries d !! c) as [e|] eqn:He; [case_bool_decide as Ht|]; cbn [fmap option_fmap option_map].
  - intros [= <- <-]. split; [done|]. by intros a [=].
  - change (reply_if (negb (errors_Is (ErrSentinel MdNotFound) MdNotFound)) internal) with (mret tt : HD unit).
    erewrite H_bind_go by reflexivity. erewrite H_bind_go by (eapply onDB_same; [exact Hs|by apply scanRow_healthy]).
    rewrite He. cbn [fmap option_fmap option_map scanEntry c_TenantID fst snd]. rewrite bool_decide_false by done.
    intros [= <- <-]. split; [done|]. by intros a [=].
  - change (reply_if (negb (errors_Is (ErrSentinel MdNotFound) MdNotFound)) internal) with (mret tt : HD unit).
    erewrite H_bind_go by reflexivity. erewrite H_bind_go by (eapply onDB_same; [exact Hs|by apply scanRow_healthy]).
    rewrite He. intros [= <- <-]. split; [done|]. intros a _ e. by rewrite ?He.
Qed.

Lemma entry_write body t' : t <> t' -> isolates t
  (fun d => db_faults d = [] /\ forall e, content_entries d !! rb_ContentID body = Some e -> ce_tenant_id e = t')
  (onDB (St := St) (CreateContentEntry (newEntry body t'))) (fun r d => is_Ok r = true -> owns d t' (rb_ContentID body) = true).
Proof.
  intros Ht. apply isolates_onDB. intros d d' r [Hf Ho] Hr. split; [|split].
  - by eapply (writes_tenant t t' (WEntry (newEntry body t'))); [|cbn; by apply bool_decide_true|].
  - by eapply (steady_write t' (WEntry (newEntry body t'))).
  - intros Hok. apply owns_spec. revert Hr Hok. unfold CreateContentEntry. rewrite healthy_stmt by done. unroll. cbn [id].
    change (int32 (c_PepperGeneration (newEntry body t'))) with true. cbn [negb].
    case_bool_decide as He; cbn [newEntry c_ContentID] in He.
    + intros [= <- <-] _. destruct He as [e He]. exists e. split; [done|]. by apply Ho.
    + destruct (negb _); intros [= <- <-]; [done|]. intros _. eexists. split; [apply lookup_insert_eq|done].
Qed.

Lemma registerRows_isolates body t' : t <> t' -> isolates t
  (fun d => db_faults d = [] /\ forall e, content_entries d !! rb_ContentID body = Some e -> ce_tenant_id e = t')
  (registerRows (St := St) body t') anything.
Proof.
  intros Ht. unfold registerRows. eapply isolates_bind; [by apply isolates_orElse, entry_write|]. intros u.
  eapply isolates_bind.
  - eapply isolates_weaken; [by apply isolates_orElse, chunks_write|intros d Hd; by apply Hd|]. intros a d H. exact H.
  - intros []. apply isolates_end. aside.
Qed.
Lemma register_isolates o r : t <> asker r ->
  isolates t (fun d => db_faults d = []) (driveHandler (St := St) RtContentRegister o r) anything.
Proof.
  intros Ht. cbn [driveHandler]. unfold handleContentRegister, start, onOptions, onlyMethod, decodeBody.
  do 2 (apply isolates_then; [aside|intros _]). apply isolates_tenant. apply isolates_then; [aside|intros body].
  apply isolates_then; [aside|intros [d|]].
  - eapply isolates_bind; [apply checkOwner_isolates|]. intros u0; cbn beta.
    eapply isolates_bind; [by apply registerRows_isolates|]. intros u. apply isolates_end. aside.
  - apply isolates_then; [unfold getMemContent; aside|intros existing].
    apply isolates_end. aside.
Qed.

(** A request of another tenant keeps the rows of [t]. *)
Definition sound (rt : driveRoute) (d : db) : Prop := match rt with RtContentRegister => db_faults d = [] | _ => True end.

Lemma request_isolates rt o r : t <> asker r -> isolates t (sound rt) (driveHandler (St := St) rt o r) anything.
Proof.
  intros Ht. destruct rt; [..|by apply register_isolates|];
    match goal with |- isolates _ _ ?h _ => change (free h) end; cbn [driveHandler];
    unfold handleTenants, handleFoldersRoot, handleFolderChildren, handleNode, handleUploadInitiate, handleUploadChunks,
      handleUploadCommitDedup, handleVersion, handleDomain, handleSharesRoot, handleShareRevoke, handleVectors,
      handleContentCheck, handleContentCheckChunks, handleBlobUpload, contentBlobs, verifyNew, start, onOptions, onlyMethod, decodeBody, decodeHex, storeBlob.
  all: free.
  all: first [free_read | free_write (asker r) Ht].
Qed.
End requests.

(** ** What a tenant is told *)
Section answers.
Context {St : Type} `{!Store St}.
Notation D := (Drive St).
Notation HD := (H D).
Notation asker r := ((getUserTenant r).2).
Context (t : string).

(** Two gateways that look alike to [t]: sound links, the same rows of [t]. *)
Record alike (s1 s2 : D) : Prop := {
  al_dbs : exists d1 d2, dr_metaDB s1 = Some d1 /\ dr_metaDB s2 = Some d2 /\ sameTenant t d1 d2 /\
    db_faults d1 = [] /\ db_faults d2 = [];
  al_stmts : dr_stmts s1 = dr_stmts s2 }.
Definition agrees {A} (h : HD A) : Prop := forall s1 s2, alike s1 s2 -> (h s1).2 = (h s2).2 /\ alike (h s1).1 (h s2).1.

Lemma agrees_ret {A} (a : A) : agrees (mret a).
Proof. by intros s1 s2 Ha. Qed.
Lemma agrees_reply {A} r : agrees (@reply D A r).
Proof. by intros s1 s2 Ha. Qed.
Lemma agrees_bind {A B} (h : HD A) (k : A -> HD B) : agrees h -> (forall a, agrees (k a)) -> agrees (x ← h; k x).
Proof.
  intros Hh Hk s1 s2 Ha. destruct (Hh _ _ Ha) as [Hx Hs]. unfold mbind, H_bind.
  destruct (h s1) as [s1' x1], (h s2) as [s2' x2]. cbn in Hx, Hs. subst x2. destruct x1 as [r|a]; [done|]. by apply Hk.
Qed.
Lemma agrees_orElse {A} (h : HD (result A)) bad : agrees h -> agrees (orElse h bad).
Proof. intros Hh. apply agrees_bind; [done|]. intros [a|e]; [apply agrees_ret|apply agrees_reply]. Qed.
Lemma agrees_stmts : agrees (field (St := St) dr_stmts).
Proof. intros s1 s2 Ha. split; [|done]. cbn. by rewrite (al_stmts _ _ Ha). Qed.
Lemma agrees_needDB : agrees (needDB (St := St)).
Proof. intros s1 s2 [(d1 & d2 & H1 & H2 & H3) Hs]. unfold needDB. rewrite H1, H2. split; [done|]. split; [by exists d1, d2|done]. Qed.
Lemma agrees_metaDB {A} (h k : HD A) : agrees h ->
  agrees (metaDB ← field dr_metaDB; match metaDB with Some _ => h | None => k end).
Proof.
  intros Hh s1 s2 Ha. pose proof Ha as [(d1 & d2 & H1 & H2 & _) _]. unfold mbind, H_bind, field. rewrite H1, H2. by apply Hh.
Qed.
Lemma agrees_read r : agrees (onDB (St := St) (runRead t r)).
Proof.
  intros s1 s2 [(d1 & d2 & H1 & H2 & Hs & Hf1 & Hf2) Hp]. unfold onDB. rewrite H1, H2.
  pose proof (reads_tenant t r d1 d2 Hs ltac:(congruence)) as Hr.
  destruct (runRead t r d1) as [d1' r1] eqn:E1, (runRead t r d2) as [d2' r2] eqn:E2. cbn in Hr |- *. subst r2.
  split; [done|]. split; [|done]. exists d1', d2'. do 2 (split; [done|]). split.
  - etransitivity; [symmetry; eapply (keeps_read t t r); exact E1|]. etransitivity; [exact Hs|]. by eapply (keeps_read t t r).
  - split; by eapply steady_read.
Qed.

(** Whether a folder is [t]'s own is seen in [t]'s rows. *)
Lemma agrees_ownFolder {A} folderID (k : Folder -> HD A) : (forall folder, fo_TenantID folder = t -> agrees (k folder)) ->
  agrees (x ← ownFolder folderID t; k x).
Proof.
  intros Hk s1 s2 Ha. pose proof Ha as [(d1 & d2 & H1 & H2 & Hs & Hf1 & Hf2) Hp].
  assert (Hown : forall s d, dr_metaDB s = Some d -> db_faults d = [] -> ownFolder (St := St) folderID t s = (s,
    match live fd_deleted_at (rowsOf fd_tenant_id t (folders d) !! folderID) with
    | Some row => inr (scanFolder (folderID, row)) | None => inl (writeError 404 "folder not found") end)).
  { intros s d Hd Hf. unfold ownFolder. rewrite (H_bind_go (field dr_stmts) _ s s (dr_stmts s) eq_refl), <- own_lookup.
    pose proof (onDB_same (GetFolder (dr_stmts s) folderID) s d _ Hd (scanRow_healthy _ _ d Hf)) as Hget.
    destruct (folders d !! folderID) as [row|] eqn:Hrow; cbn [live] in *; [destruct (bool_decide (fd_deleted_at row = None)) eqn:Hdel|].
    - cbn [fmap option_fmap option_map] in Hget.
      rewrite (H_bind_go _ _ _ _ _ (orElse_Ok _ _ _ _ _ Hget)). unfold reply_if. cbn [scanFolder fo_TenantID fst snd].
      destruct (bool_decide (fd_tenant_id row = t)); cbn [negb live]; [by rewrite Hdel|done].
    - rewrite (H_bind_stop _ _ _ _ _ (orElse_Err _ _ _ _ _ Hget)).
      destruct (bool_decide (fd_tenant_id row = t)); cbn [live]; [by rewrite Hdel|done].
    - by rewrite (H_bind_stop _ _ _ _ _ (orElse_Err _ _ _ _ _ Hget)). }
  pose proof (Hown _ _ H1 Hf1) as Ho1. pose proof (Hown _ _ H2 Hf2) as Ho2. rewrite <- (sm_folders _ _ _ Hs) in Ho2.
  destruct (rowsOf fd_tenant_id t (folders d1) !! folderID) as [row|] eqn:Hrow; cbn [live] in Ho1, Ho2;
    [destruct (bool_decide (fd_deleted_at row = None))|].
  - rewrite (H_bind_go _ _ _ _ _ Ho1), (H_bind_go _ _ _ _ _ Ho2). apply Hk; [|done].
    rewrite <- own_lookup in Hrow. destruct (folders d1 !! folderID) as [row0|]; [|done].
    case_bool_decide as Ht; [|done]. by injection Hrow as <-.
  - by rewrite (H_bind_stop _ _ _ _ _ Ho1), (H_bind_stop _ _ _ _ _ Ho2).
  - by rewrite (H_bind_stop _ _ _ _ _ Ho1), (H_bind_stop _ _ _ _ _ Ho2).
Qed.
Lemma agrees_tenant {A} r (k : string -> HD A) : asker r = t -> agrees (k t) -> agrees (x ← needTenant r; k x).
Proof.
  intros Hr Hk s1 s2 Ha. unfold needTenant, reply_if. rewrite Hr. case_bool_decide; [done|]. by apply Hk.
Qed.

(** The requests that only read. A PUT, POST or DELETE of the first four
    writes, or is refused. *)
Definition reads (rt : driveRoute) (r : Request) : bool :=
  match rt with
  | RtFolders | RtFolderChildren | RtNode | RtDomain => bool_decide (rq_Method r = "GET")
  | RtShares | RtVersion | RtVectors | RtContentCheck | RtContentCheckChunks => true
  | _ => false
  end.

Ltac agree Hr :=
  repeat first
    [ apply agrees_ret | apply agrees_reply | apply agrees_stmts | apply agrees_needDB | apply agrees_orElse
    | apply agrees_metaDB | apply agrees_tenant; [exact Hr|] | apply agrees_ownFolder; intros ? ?
    | match goal with
      | |- agrees (if ?b then _ else _) => destruct b
      | |- agrees (match ?x with _ => _ end) => destruct x
      end
    | apply agrees_bind; [|intros ?] ].
Ltac agree_read := lazymatch goal with
  | |- agrees (onDB (ListFolders _ ?p)) => exact (agrees_read (RFolders p))
  | |- agrees (onDB (ListNodes ?f _)) => exact (agrees_read (RNodes f))
  | |- agrees (onDB (GetLatestAccessContext ?n _)) => exact (agrees_read (RAccess n))
  | |- agrees (onDB (GetEncryptionDomain ?ps ?i _)) => exact (agrees_read (RDomain ps i))
  | |- agrees (onDB (ListEnvelopesByDomain ?e _)) => exact (agrees_read (REnvelopes e))
  | |- agrees (onDB (ListActiveShareGrants ?g _)) => exact (agrees_read (RGrants g))
  | |- agrees (onDB (GetContentEntry ?c _)) => exact (agrees_read (REntry c))
  | |- agrees (onDB (GetContentChunks ?c _)) => exact (agrees_read (RChunks c))
  | |- agrees (onDB (CheckChunkHashes ?o ?c _ ?h)) => exact (agrees_read (RHashes o c h))
  end.

Lemma request_agrees rt o r : reads rt r = true -> asker r = t -> agrees (driveHandler (St := St) rt o r).
Proof.
  intros Hreads Hr. destruct rt; try discriminate Hreads; cbn [reads] in Hreads; cbn [driveHandler];
    unfold handleFoldersRoot, handleFolderChildren, handleNode, handleVersion, handleDomain, handleSharesRoot, handleVectors,
      handleContentCheck, handleContentCheckChunks, start, onOptions, onlyMethod, decodeBody, reply_if.
  all: try (apply bool_decide_eq_true in Hreads; rewrite ?Hreads;
    change (bool_decide ("GET" = "POST")) with false; change (bool_decide ("GET" = "GET")) with true;
    change (bool_decide ("GET" = "OPTIONS")) with false; cbn [negb]).
  all: agree Hr.
  all: try match goal with H : fo_TenantID _ = t |- _ => rewrite H end; rewrite ?Hr; agree_read.
Qed.

(** Requests served one after the other. *)
Fixpoint driveRun (l : list (driveRoute * Outside * Request)) (s : D) : D :=
  match l with
  | [] => s
  | (rt, o, r) :: l => driveRun l (driveServe rt o r s).1
  end.

Lemma others_keep l s d : Forall (fun q : driveRoute * Outside * Request => asker q.2 <> t) l ->
  dr_metaDB s = Some d -> db_faults d = [] -> exists d', next t s d (driveRun l s) d' /\ db_faults d' = [].
Proof.
  revert s d. induction l as [|[[rt o] r] l IH]; intros s d Hl Hs Hf; [exists d; split; [by apply next_refl|done]|].
  apply Forall_cons in Hl as [Hr Hl]. cbn [driveRun]. unfold driveServe, serve. cbn [snd] in Hr.
  destruct (driveHandler rt o r s) as [s1 x] eqn:Hrun.
  destruct (request_isolates t rt o r ltac:(congruence) s d s1 x Hs) as (d1 & Hn & _); [by destruct rt|exact Hrun|].
  pose proof (nx_link _ _ _ _ _ Hn Hf) as Hf1. destruct (IH s1 d1 Hl (nx_db _ _ _ _ _ Hn) Hf1) as (d' & Hn' & Hf').
  exists d'. split; [|done]. destruct x; cbn [fst]; by eapply next_trans.
Qed.

Lemma answers_alike rt o r s1 s2 : reads rt r = true -> asker r = t -> alike s1 s2 ->
  (driveServe rt o r s1).2 = (driveServe rt o r s2).2.
Proof.
  intros Hr Hask Ha. destruct (request_agrees rt o r Hr Hask s1 s2 Ha) as [Hx _]. unfold driveServe, serve.
  destruct (driveHandler rt o r s1) as [s3 x3], (driveHandler rt o r s2) as [s4 x4]. cbn in Hx. subst x4. by destruct x3.
Qed.

(** C26: The Drive API keeps the tenants apart, over a database whose link does
    not fail and with the requests served one after another: after any number of
    requests, of any kinds, none of them made by tenant [t], the rows of [t] -
    folders, nodes, domains, envelopes, grants, snapshots, contents with their
    chunks, upload sessions - are what they were, and a request of [t]'s that
    reads (a listing, an access context, a domain, a file-level or chunk-level
    content check) is answered as it would have been before them, to the byte.
    With a failing statement or two registrations at the same time the tenants
    do meet: [failed_owner_check], [racing_registrations]. *)
Theorem no_interference l rt o r s d : dr_metaDB s = Some d -> db_faults d = [] ->
  Forall (fun q : driveRoute * Outside * Request => asker q.2 <> t) l -> reads rt r = true -> asker r = t ->
  (driveServe rt o r (driveRun l s)).2 = (driveServe rt o r s).2 /\
  exists d', dr_metaDB (driveRun l s) = Some d' /\ sameTenant t d d'.
Proof.
  intros Hs Hf Hl Hr Hask. destruct (others_keep l s d Hl Hs Hf) as (d' & [Hd' Hsame Hst _] & Hf'). split; [|by exists d'].
  apply answers_alike; [done..|]. split; [|done]. exists d', d. by split_and!.
Qed.
End answers.

(** ** Witness: tenant u registers a content between two checks of tenant t *)
Definition ex_headers (tenant name : string) : string :=
  if String.eqb name "X-Demo-Tenant" then tenant else if String.eqb name "X-Demo-User" then "user" else "".
Definition ex_post (tenant : string) : Request :=
  mkRequest "POST" "/" (ex_headers tenant) (fun _ => "") (bytes_NewReader []).
Definition ex_out (j : json) : Outside := mkOutside 7 8 (fun _ => Some j) id (fun _ l => l) pretty.
Definition ex_gateway (d : db) : Drive unit := newDriveAPI (Some d) noStmts None 0.
Definition ex_register (c : string) (index : Z) (key : string) : json := JObj [("content_id", JStr c); ("chunks",
  JArr [JObj [("chunk_index", jnum index); ("chunk_content_hash", JStr "h"); ("blob_key", JStr key)]])].
Definition ex_check (c : string) : json := JObj [("content_id", JStr c)].
#[local] Instance ex_NoStore : Store unit := {
  st_Put _ _ s := (s, Err (ErrNew "no store")); st_PutReads _ _ _ := 0; st_Get _ _ s := (s, Err (ErrNew "no store"));
  st_Head _ _ s := (s, Err (ErrNew "no store")); st_CreateMultipart _ _ s := (s, Err (ErrNew "no store"));
  st_UploadPart _ _ s := (s, Err (ErrNew "no store")); st_CompleteMultipart _ _ s := (s, Err (ErrNew "no store"));
  st_AbortMultipart _ s := (s, Err (ErrNew "no store")) }.
Definition ex_others : list (driveRoute * Outside * Request) :=
  [(RtContentRegister, ex_out (ex_register "n" 0 "keyN"), ex_post "u")].

Lemma no_interference_witness :
  (driveServe RtContentCheck (ex_out (ex_check "c")) (ex_post "t") (driveRun ex_others (ex_gateway ex_with_chunks))).2
    = found ["key0"; "key1"] ["h0"; "h1"] 2 4 /\
  bool_decide (is_Some (default ∅ (content_entries <$> dr_metaDB (driveRun ex_others (ex_gateway ex_with_chunks))) !! "n")) = true.
Proof.
  split; [|vm_compute; reflexivity].
  destruct (no_interference "t" ex_others RtContentCheck (ex_out (ex_check "c")) (ex_post "t") (ex_gateway ex_with_chunks)
    ex_with_chunks) as [Hsame _].
  - reflexivity.
  - vm_compute. reflexivity.
  - constructor; [|constructor]. intros [=].
  - reflexivity.
  - reflexivity.
  - rewrite Hsame. vm_compute. reflexivity.
Defined.

(** ** Where the tenants do meet

    The ownership query of a registration counts only if it came back: when it
    fails, tenant u adds a chunk to tenant t's content, and t's file-level check
    shows u's key. *)
Definition ex_flaky : db := ex_with_chunks <| db_faults := [None; Some (ErrNew "connection reset")] |>.
Definition ex_after : Drive unit :=
  (driveServe RtContentRegister (ex_out (ex_register "c" 2 "keyU")) (ex_post "u") (ex_gateway ex_flaky)).1.
Lemma failed_owner_check :
  (driveServe RtContentCheck (ex_out (ex_check "c")) (ex_post "t") ex_after).2 = found ["key0"; "key1"; "keyU"] ["h0"; "h1"; "h"] 2 4.
Proof. vm_compute. reflexivity. Qed.

(** And over a sound link, when two tenants register the same new content and
    both have passed the check before either has written: the entry is the
    first's, the second's chunk is in it. *)
Definition ex_body (key : string) (index : Z) : registerBody :=
  mkRegisterBody "n" 1 1 1 "" [mkContentChunkEntry index "h" key 1 17].
Definition ex_raced : Drive unit * (Response + unit) :=
  (checkOwner "n" "t";; checkOwner "n" "u";; registerRows (ex_body "keyT" 0) "t";; registerRows (ex_body "keyU" 1) "u")
    (ex_gateway ex_with_chunks).
Lemma racing_registrations : (driveServe RtContentCheck (ex_out (ex_check "n")) (ex_post "t") ex_raced.1).2
  = found ["keyT"; "keyU"] ["h"; "h"] 1 1.
Proof. vm_compute. reflexivity. Qed.
