(* ===== verification/DedupSafety.v ===== *)
(** * What the content endpoints promise

    A commit is answered with success only if every blob it names is there; and
    a content registered by a tenant is what the tenant's later checks find. *)
From S2P Require Import Prelude GoStd Sha256 BlobStore Fs LocalFsDev LocalStore Db MetaStore DriveStore.
From S2P Require Import ContentStore TenantIsolation Http DriveApi DedupApi DriveIsolation.
Local Open Scope Z_scope.

Section commits.
Context {St : Type} `{StoreLaws St}.
Notation D := (Drive St).
Notation HD := (H D).

(** A key is among the blobs of a content of the tenant's. *)
Definition contentHas (s : D) (tenant contentID key : string) : Prop :=
  match dr_metaDB s with
  | Some d => owns d tenant contentID = true /\
      exists i row, content_chunks d !! (contentID, i) = Some row /\ ck_blob_key row = key
  | None => exists e, dr_memContentStore s !! contentID = Some e /\ mc_TenantID e = tenant /\ key ∈ mc_BlobKeys e
  end.
(** The tenant has the content. *)
Definition hasContent (s : D) (tenant contentID : string) : Prop :=
  match dr_metaDB s with
  | Some d => owns d tenant contentID = true
  | None => exists e, dr_memContentStore s !! contentID = Some e /\ mc_TenantID e = tenant
  end.

(** The parts of the state these handlers read. *)
Record sameContents (s s' : D) : Prop := {
  sc_db : match dr_metaDB s, dr_metaDB s' with Some d, Some d' => sameTables d d' | None, None => True | _, _ => False end;
  sc_mem : dr_memContentStore s' = dr_memContentStore s;
  sc_store : dr_store s' = dr_store s }.

Lemma checkReused_inr known keys (s s' : D) u : checkReused known keys s = (s', inr u) -> s' = s /\ Forall (fun k => k ∈ known) keys.
Proof.
  revert s'. induction keys as [|k keys IH]; intros s'; cbn [checkReused].
  - by intros [= <- _].
  - unfold reply_if. case_bool_decide as Hk; cbn [negb]; [|by intros [=]].
    rewrite (H_bind_go (mret tt) _ s s tt eq_refl). intros [-> Hf]%IH. split; [done|]. by constructor.
Qed.

(** Every key that passed is the key of a stored object. *)
Lemma checkUploaded_inr o t keys (s s' : D) st u : dr_store s = Some st -> store_inv t st -> Forall good_key keys ->
  checkUploaded o keys s = (s', inr u) ->
  exists st', dr_store s' = Some st' /\ (forall k b, stored st k b -> stored st' k b) /\ Forall (fun k => exists b, stored st' k b) keys.
Proof.
  intros Hs Hi Hk. revert s st Hs Hi. induction Hk as [|k keys Hg Hk IH]; intros s st Hs Hi; cbn [checkUploaded].
  { intros [= <- _]. exists st. by split_and!. }
  intros [(r & _ & [=])|(a & s1 & Hhead & Hrest)]%H_bind_inv. unfold onBlobs in Hhead. handle in Hhead. rewrite Hs in Hhead.
  destruct (st_Head (ot_now o) (mkObjectRef k) st) as [st1 [md|e]] eqn:Hh; [|by destruct (errors_Is e BsNotFound)].
  injection Hhead as <- <-. destruct (store_Head t (ot_now o) st st1 k (Ok md) Hi Hg Hh) as (Hi1 & Hkeep & Hmd).
  destruct (Hmd md eq_refl) as (b & Hb & _).
  match type of Hrest with checkUploaded _ _ ?s1 = _ => destruct (IH s1 st1 eq_refl Hi1 Hrest) as (st' & Hst' & Hmono & Hall) end.
  exists st'.
  split; [done|]. split; [auto|]. constructor; [|done]. exists b. auto.
Qed.
Lemma checkUploaded_db o keys (s s' : D) x : checkUploaded o keys s = (s', x) -> dr_metaDB s' = dr_metaDB s.
Proof. intros Hc. exact (proj1 (aside_checkUploaded o keys s s' x Hc)). Qed.

(** The blobs of a content, as the state has them. *)
Lemma contentBlobs_inr c tenant (s s' : D) known : contentBlobs c tenant s = (s', inr known) ->
  dr_store s' = dr_store s /\ hasContent s tenant c /\ Forall (contentHas s tenant c) known.
Proof.
  unfold contentBlobs. rewrite (H_bind_go (field dr_metaDB) _ s s (dr_metaDB s) eq_refl).
  unfold hasContent, contentHas. destruct (dr_metaDB s) as [d|] eqn:Hs.
  - intros [(r & _ & [=])|(e & s1 & Hget & Hrest)]%H_bind_inv.
    apply H_bind_inv in Hrest as [(r & _ & [=])|(chunks & s2 & Hchunks & [= -> <-])].
    unfold onDB in Hget. handle in Hget. rewrite Hs in Hget.
    destruct (GetContentEntry c tenant d) as [d1 [e1|err]] eqn:Hd1; [|by destruct (errors_Is err MdNotFound)].
    injection Hget as <- <-. unfold onDB in Hchunks. handle in Hchunks. cbn [dr_metaDB upd eta_expand eta_Drive] in Hchunks.
    destruct (GetContentChunks c tenant d1) as [d2 [l|err]] eqn:Hd2; [|done]. injection Hchunks as <- <-.
    apply scanRow_Ok in Hd1 as (fs & -> & Hown). unfold GetContentChunks in Hd2. apply stmt_Ok in Hd2 as [fs' [= _ <-]]. split; [done|].
    assert (Ho : owns d tenant c = true) by (unfold owns; destruct (ownEntry d c tenant) eqn:Hd; [by apply bool_decide_true|]; unfold ownEntry in *;
      cbn in Hown; by rewrite Hd in Hown).
    split; [done|]. apply Forall_forall. intros k (x & -> & (row & -> & Hrow)%list_elem_of_fmap)%list_elem_of_fmap. split; [done|].
    rewrite (orderBy_perm (fun y : string * Z * chunkRow => y.1.2)) in Hrow. destruct row as [[c' i] row].
    apply elem_of_selectRows in Hrow as [Hrow Hc]. bool_hyps. cbn [fst snd] in *. subst c'. by exists i, row.
  - rewrite (H_bind_go (getMemContent c) _ s s (dr_memContentStore s !! c) eq_refl).
    destruct (dr_memContentStore s !! c) as [e|] eqn:He; [|done]. unfold reply_if. case_bool_decide as Ht; cbn [negb]; [|done].
    rewrite (H_bind_go (mret tt) _ s s tt eq_refl). intros [= <- <-]. split; [done|]. split; [by exists e|].
    apply Forall_forall. intros k Hk. by exists e.
Qed.

(** An error answer of a handler, as opposed to the 200 that ends it. *)
Definition fails {A} (h : HD A) : Prop := forall s s' x, h s = (s', inl x) -> statusOf x <> Some 200.
Lemma fails_bind {A B} (h : HD A) (k : A -> HD B) : fails h -> (forall a, fails (k a)) -> fails (x ← h; k x).
Proof.
  intros Hh Hk s s' x [(r & Hr & [= ->])|(a & s1 & _ & Hr)]%H_bind_inv; [by eapply Hh|by eapply Hk].
Qed.
Lemma fails_ret {A} (a : A) : fails (mret a).
Proof. by intros s s' x [=]. Qed.
Lemma fails_reply {A} r : statusOf r <> Some 200 -> fails (@reply D A r).
Proof. by intros Hr s s' x [= _ <-]. Qed.
Lemma fails_field {A} (f : D -> A) : fails (field f).
Proof. by intros s s' x [=]. Qed.
(** A tool for the calls: on nil, the handler is aborted. *)
Lemma fails_onDB {A} (m : MDB A) : fails (onDB m).
Proof.
  intros s s' x. unfold onDB. destruct (dr_metaDB s) as [d|]; [by destruct (m d); intros [=]|by intros [= _ <-]].
Qed.
Lemma fails_onBlobs {A} (m : M St A) : fails (onBlobs m).
Proof.
  intros s s' x. unfold onBlobs. destruct (dr_store s) as [st|]; [by destruct (m st); intros [=]|by intros [= _ <-]].
Qed.

Lemma fails_reply_if b r : statusOf r <> Some 200 -> fails (@reply_if D b r).
Proof. intros Hr. destruct b; [by apply fails_reply|apply fails_ret]. Qed.
Lemma fails_generateID now p : fails (@generateID St now p).
Proof. by intros s s' x [=]. Qed.
Ltac fails := repeat first
  [ apply fails_ret | apply fails_field | apply fails_reply; discriminate | apply fails_reply_if; discriminate
  | apply fails_onDB | apply fails_onBlobs | apply fails_generateID | assumption | apply fails_bind; [|intros ?]
  | match goal with
    | |- fails (if ?b then _ else _) => destruct b
    | |- fails (match ?x with _ => _ end) => destruct x
    | |- fails (reply (if ?b then _ else _)) => destruct b
    | |- fails (orElse _ _) => unfold orElse
    end ].
Lemma fails_checkReused known keys : fails (checkReused (St := St) known keys).
Proof. induction keys as [|k keys IH]; cbn [checkReused]; fails. Qed.
Lemma fails_checkUploaded o keys : fails (checkUploaded o keys).
Proof. induction keys as [|k keys IH]; cbn [checkUploaded]; fails. Qed.
Lemma fails_commit o r : rq_Method r = "POST" -> fails (driveHandler RtCommitDedup o r).
Proof.
  intros Hm. cbn [driveHandler].
  unfold handleUploadCommitDedup, start, onOptions, onlyMethod, needTenant, decodeBody, contentBlobs, getMemContent, verifyNew.
  rewrite Hm. change (bool_decide ("POST" = "OPTIONS")) with false. change (bool_decide ("POST" = "POST")) with true. cbn [negb].
  fails; [apply fails_checkReused|apply fails_checkUploaded].
Qed.

(** C28: A commit that is answered with 200 names blobs that are there. The body
    is a KDRV1 commit of a content the tenant of the request has; each reused
    key is the key of one of that content's chunks; and each new key is the key
    of an object of the blob store when the answer is sent - the store's [Head]
    has found it - and nothing stored was lost on the way. *)
Theorem commit_sound t o r (s s' : D) st resp : dr_store s = Some st -> store_inv t st -> rq_Method r = "POST" ->
  driveServe RtCommitDedup o r s = (s', resp) -> statusOf resp = Some 200 ->
  exists body, (ot_parse o (rq_Body r) ≫= decodeCommit) = Some body /\ cb_Protocol body = "KDRV1" /\
    hasContent s (getUserTenant r).2 (cb_ContentID body) /\
    Forall (contentHas s (getUserTenant r).2 (cb_ContentID body)) (cb_ReusedBlobKeys body) /\
    (Forall good_key (cb_NewBlobKeys body) -> exists st', dr_store s' = Some st' /\
      (forall k b, stored st k b -> stored st' k b) /\ Forall (fun k => exists b, stored st' k b) (cb_NewBlobKeys body)).
Proof.
  intros Hst Hi Hm [Hs|Hs]%serve_inv Hok; [by apply fails_commit in Hs|].
  cbn [driveHandler] in Hs. unfold handleUploadCommitDedup, start, onOptions, onlyMethod, decodeBody in Hs.
  apply H_bind_inr in Hs as (u1 & s1 & [-> _]%reply_if_inr & Hs). apply H_bind_inr in Hs as (u2 & s2 & [-> _]%reply_if_inr & Hs).
  apply H_bind_inr in Hs as (tenant & s3 & [-> ->]%needTenant_inr & Hs). apply H_bind_inr in Hs as (body & s4 & Hbody & Hs).
  destruct (ot_parse o (rq_Body r) ≫= decodeCommit) as [body0|] eqn:Hdec; [|done]. injection Hbody as <- <-. exists body0.
  apply H_bind_inr in Hs as (u3 & s5 & [-> Hp]%reply_if_inr & Hs). apply negb_false_iff, bool_decide_eq_true in Hp.
  apply H_bind_inr in Hs as (known & s6 & Hknown & Hs). apply H_bind_inr in Hs as (u4 & s7 & Hreused & Hs).
  apply H_bind_inr in Hs as (u5 & s8 & Hnew & Hs). apply H_bind_inr in Hs as (vid & s9 & [= <- _] & [= <- _]).
  apply contentBlobs_inr in Hknown as (Hst6 & Hhas & Hall). apply checkReused_inr in Hreused as [-> Hreused].
  do 3 (split; [done|]). split.
  - eapply Forall_impl; [exact Hreused|]. intros k Hk. rewrite Forall_forall in Hall. by apply Hall.
  - intros Hgood. cbn [dr_store upd eta_expand eta_Drive]. unfold verifyNew in Hnew.
    rewrite (H_bind_go (field dr_store) _ s6 s6 (dr_store s6) eq_refl) in Hnew. rewrite Hst6, Hst in Hnew.
    eapply checkUploaded_inr; [by rewrite Hst6|exact Hi|exact Hgood|exact Hnew].
Qed.
End commits.

(** ** Registering a content *)
Section registration.
Context {St : Type} `{!Store St}.
Notation D := (Drive St).
Notation HD := (H D).
Notation asker r := ((getUserTenant r).2).

(** The chunk rows have entries: content_chunks REFERENCES content_entries. *)
Definition chunksHaveEntries (d : db) : Prop := forall k, is_Some (content_chunks d !! k) -> is_Some (content_entries d !! k.1).

Lemma insertChunks_run c cs d : db_faults d = [] -> is_Some (content_entries d !! c) ->
  Forall (fun x => int32 (h_ChunkIndex x) = true) cs -> exists d', insertChunks c cs d = (d', Ok tt) /\ db_faults d' = [].
Proof.
  intros Hf He Hi. revert d Hf He. induction Hi as [|x cs Hx Hi IH]; intros d Hf He; [by exists d|]. cbn [insertChunks].
  assert (Hone : exists d1, insertChunk c x d = (d1, Ok tt) /\ db_faults d1 = [] /\ content_entries d1 = content_entries d).
  { unfold insertChunk. rewrite healthy_stmt by done. unroll. cbn [id]. rewrite Hx. cbn [negb].
    case_bool_decide; [by exists d|]. rewrite (bool_decide_true _ He). cbn [negb]. by eexists. }
  destruct Hone as (d1 & H1 & Hf1 & He1). destruct (IH d1 Hf1) as (d2 & H2 & Hf2); [by rewrite He1|].
  exists d2. split; [|done]. unroll. rewrite H1. exact H2.
Qed.

(** What the insertion leaves: the rows of the chunks, in front of what was there. *)
Lemma CreateContentChunks_run c cs d : db_faults d = [] -> is_Some (content_entries d !! c) ->
  Forall (fun x => int32 (h_ChunkIndex x) = true) cs -> len cs <= maxChunksPerCall ->
  CreateContentChunks c cs d = (d <| content_chunks := content_chunks d ∪ chunkMap c cs |>, Ok tt).
Proof.
  intros Hf He Hi Hl. unfold CreateContentChunks. destruct (len cs =? 0) eqn:H0.
  - destruct cs as [|x cs]; [|apply Z.eqb_eq in H0; rewrite len_cons in H0; pose proof (len_nonneg cs); lia].
    unfold chunkMap. cbn. rewrite (right_id_L ∅ (∪)). by destruct d.
  - unroll. rewrite (proj2 (Z.ltb_ge _ _) Hl). destruct (insertChunks_run c cs d Hf He Hi) as (d' & Hr & Hf').
    assert (Hd' : d' = d <| content_chunks := content_chunks d ∪ chunkMap c cs |>).
    { destruct (insertChunks_Ok _ _ _ _ _ Hr) as [Hs _]. rewrite Hs. cbn in *. rewrite Hf', <- Hf. by destruct d. }
    subst d'. apply healthy_transaction; [done| |done]. unfold prepare. rewrite healthy_stmt by done. exact Hr.
Qed.

Definition chunkItem (c : string) (x : ContentChunk) : string * Z * chunkRow := ((c, h_ChunkIndex x), newChunk x).
Lemma scan_item c x : scanChunk (chunkItem c x) = x.
Proof. by destruct x. Qed.

Notation key := (fun y : string * Z * chunkRow => y.1.2).
Lemma ordered_rows c (cs : list ContentChunk) (rows : list (string * Z * chunkRow)) :
  StronglySorted (fun x y => h_ChunkIndex x < h_ChunkIndex y) cs -> rows ≡ₚ map (chunkItem c) cs ->
  map scanChunk (orderBy (fun x y : string * Z * chunkRow => x.1.2 <? y.1.2) rows) = cs.
Proof.
  intros Hs Hp.
  assert (Hlt : forall x y, x ∈ cs -> y ∈ cs -> h_ChunkIndex x <= h_ChunkIndex y -> h_ChunkIndex y <= h_ChunkIndex x -> x = y).
  { clear -Hs. induction Hs as [|z cs Hs IH Hz]; [by intros x y Hx%not_elem_of_nil|]. rewrite Forall_forall in Hz.
    intros x y [->|Hx]%elem_of_cons [->|Hy]%elem_of_cons Hle Hge; [done| | |by apply IH].
    - specialize (Hz y Hy). lia.
    - specialize (Hz x Hx). lia. }
  assert (Ho : orderBy (fun x y : string * Z * chunkRow => x.1.2 <? y.1.2) rows = map (chunkItem c) cs).
  { apply (StronglySorted_unique_strong (fun y z => key y <= key z)).
    - intros x y Hx Hy Hxy Hyx. rewrite (orderBy_perm key), Hp in Hx. apply list_elem_of_fmap in Hx as (a & -> & Ha).
      apply list_elem_of_fmap in Hy as (b & -> & Hb). f_equal. by apply Hlt.
    - apply (orderBy_sorted key).
    - clear -Hs. induction Hs as [|z cs Hs IH Hz]; cbn [map]; [constructor|]. constructor; [exact IH|].
      apply Forall_fmap. eapply Forall_impl; [exact Hz|]. intros y Hy. unfold compose. cbn. cbn in Hy. lia.
    - rewrite (orderBy_perm key). exact Hp. }
  rewrite Ho, map_map. rewrite (map_ext _ id) by apply scan_item. apply map_id.
Qed.

Lemma strongly_sorted_NoDup c (cs : list ContentChunk) : StronglySorted (fun x y => h_ChunkIndex x < h_ChunkIndex y) cs ->
  NoDup (map fst (map (chunkItem c) cs)).
Proof.
  induction 1 as [|z cs Hs IH Hz]; cbn [map]; [constructor|]. constructor; [|exact IH]. rewrite map_map.
  intros (y & Heq & Hy)%list_elem_of_fmap. rewrite Forall_forall in Hz. specialize (Hz y Hy). injection Heq as Heq. lia.
Qed.

(** The chunks of a content that had none, read back in the order of their
    indices. *)
Lemma GetContentChunks_created c t cs d e : db_faults d = [] -> content_entries d !! c = Some e -> ce_tenant_id e = t ->
  (forall i, content_chunks d !! (c, i) = None) -> StronglySorted (fun x y => h_ChunkIndex x < h_ChunkIndex y) cs ->
  let d' := d <| content_chunks := content_chunks d ∪ chunkMap c cs |> in GetContentChunks c t d' = (d', Ok cs).
Proof.
  intros Hf He Ht Hnone Hs d'. unfold GetContentChunks. rewrite healthy_stmt by done. unfold gets. do 2 f_equal.
  apply (ordered_rows c); [done|]. unfold selectRows.
  assert (Hown : owns d' t c = true) by (apply owns_spec; by exists e).
  assert (Hrows : filter (fun kr : string * Z * chunkRow => bool_decide (kr.1.1 = c) && owns d' t kr.1.1 = true) (content_chunks d')
    = chunkMap c cs).
  { apply map_eq. intros k. apply option_eq. intros row. rewrite map_lookup_filter_Some. cbn [fst snd].
    change (content_chunks d') with (content_chunks d ∪ chunkMap c cs). split.
    - intros [Hk Hc]. bool_hyps. destruct k as [c' i]. cbn in *. subst c'. rewrite lookup_union, Hnone in Hk.
      by destruct (chunkMap c cs !! (c, i)).
    - intros Hk. pose proof (chunkMap_key _ _ _ _ Hk) as Hc. rewrite Hc, Hown, bool_decide_true by done. split; [|done].
      destruct k as [c' i]. cbn in Hc. subst c'. by rewrite lookup_union, Hnone, Hk. }
  rewrite Hrows. unfold chunkMap. apply map_to_list_to_map. by apply strongly_sorted_NoDup.
Qed.

(** A registration of a content nobody has. *)
Record registrable (d : db) (t : string) (body : registerBody) : Prop := {
  rg_new : content_entries d !! rb_ContentID body = None;
  rg_tenant : tenantExists d t = true;
  rg_indices : Forall (fun c => int32 (cc_ChunkIndex c) = true) (rb_Chunks body);
  rg_ordered : StronglySorted (fun x y => cc_ChunkIndex x < cc_ChunkIndex y) (rb_Chunks body);
  rg_size : len (rb_Chunks body) <= maxChunksPerCall }.
Definition entryOf (t : string) (body : registerBody) (d : db) : entryRow :=
  mkEntryRow t (rb_PlaintextSize body) (rb_ChunkCount body) (rb_ChunkSize body) (rb_ChunkPlanRoot body) 1 (db_clock d).
Definition withContent (t : string) (body : registerBody) (d : db) : db :=
  d <| content_entries := <[rb_ContentID body := entryOf t body d]> (content_entries d) |>
    <| content_chunks := content_chunks d ∪ chunkMap (rb_ContentID body) (map dbChunk (rb_Chunks body)) |>.

Lemma onDB_run {A} (m : MDB A) (s : D) d d' r : dr_metaDB s = Some d -> m d = (d', r) ->
  onDB m s = (s <| dr_metaDB := Some d' |>, inr r).
Proof. intros Hs Hm. unfold onDB. by rewrite Hs, Hm. Qed.

Lemma registers t body (s : D) d : dr_metaDB s = Some d -> db_faults d = [] -> registrable d t body ->
  (checkOwner (rb_ContentID body) t;; registerRows body t) s = (s <| dr_metaDB := Some (withContent t body d) |>, inr tt).
Proof.
  intros Hs Hf Hr. assert (Hown : checkOwner (rb_ContentID body) t s = (s, inr tt)).
  { unfold checkOwner. pose proof (onDB_same (GetContentEntry (rb_ContentID body) t) s d _ Hs (scanRow_healthy _ _ d Hf)) as H1.
    pose proof (onDB_same (GetContentEntryByContentID (rb_ContentID body)) s d _ Hs (scanRow_healthy _ _ d Hf)) as H2.
    unfold ownEntry in H1. rewrite (rg_new _ _ _ Hr) in H1, H2. cbn [fmap option_fmap option_map] in H1, H2.
    rewrite (H_bind_go _ _ _ _ _ H1).
    rewrite (H_bind_go (reply_if (negb (errors_Is (ErrSentinel MdNotFound) MdNotFound)) internal) _ s s tt eq_refl).
    by rewrite (H_bind_go _ _ _ _ _ H2). }
  rewrite (H_bind_go _ _ _ _ _ Hown). unfold registerRows.
  set (d1 := d <| content_entries := <[rb_ContentID body := entryOf t body d]> (content_entries d) |>).
  assert (H1 : CreateContentEntry (newEntry body t) d = (d1, Ok tt)).
  { unfold CreateContentEntry. rewrite healthy_stmt by done. unroll. cbn [id newEntry c_ContentID c_TenantID c_PepperGeneration].
    change (int32 1) with true. cbn [negb]. rewrite bool_decide_false by (rewrite (rg_new _ _ _ Hr); by intros [? ?]).
    by rewrite (rg_tenant _ _ _ Hr). }
  rewrite (H_bind_go _ _ _ _ _ (orElse_Ok _ _ _ _ _ (onDB_run _ _ _ _ _ Hs H1))).
  assert (H2 : CreateContentChunks (rb_ContentID body) (map dbChunk (rb_Chunks body)) d1 = (withContent t body d, Ok tt)).
  { apply CreateContentChunks_run; [done|exists (entryOf t body d); apply lookup_insert_eq| |].
    - apply Forall_fmap. eapply Forall_impl; [exact (rg_indices _ _ _ Hr)|]. by intros x Hx.
    - unfold len. rewrite length_map. exact (rg_size _ _ _ Hr). }
  pose proof (onDB_run _ (s <| dr_metaDB := Some d1 |>) d1 _ _ eq_refl H2) as H3.
  by rewrite (H_bind_go _ _ _ _ _ (orElse_Ok _ _ _ _ _ H3)).
Qed.

Lemma checks c t cs e (s : D) d : dr_metaDB s = Some d -> db_faults d = [] -> content_entries d !! c = Some e ->
  ce_tenant_id e = t -> GetContentChunks c t d = (d, Ok cs) -> forall o r, rq_Method r = "POST" -> asker r = t -> t <> "" ->
  (ot_parse o (rq_Body r) ≫= decodeString "content_id") = Some c ->
  driveServe RtContentCheck o r s = (s, found (map h_BlobKey cs) (map h_ChunkContentHash cs) (ce_chunk_count e) (ce_plaintext_size e)).
Proof.
  intros Hs Hf He Ht Hcs o r Hm Hask Hne Hbody. unfold driveServe. cbn [driveHandler].
  unfold handleContentCheck, start, onOptions, onlyMethod, decodeBody, reply_if. apply serve_go. rewrite Hm, Hbody.
  change (bool_decide ("POST" = "OPTIONS")) with false. change (bool_decide ("POST" = "POST")) with true.
  cbn [negb]. rewrite <- Hask in Hne. pose proof (needTenant_go r s Hne) as Hten. rewrite Hask in Hten.
  pose proof (onDB_same (GetContentEntry c t) s d _ Hs (scanRow_healthy _ _ d Hf)) as H1.
  unfold ownEntry in H1. rewrite He, (bool_decide_true _ Ht) in H1. cbn [fmap option_fmap option_map] in H1.
  rewrite !H_ret_bind, (H_bind_go _ _ _ _ _ Hten), H_ret_bind.
  rewrite (H_bind_go (field dr_metaDB) _ s s (Some d)) by (unfold field; by rewrite Hs).
  rewrite (H_bind_go _ _ _ _ _ (orElse_Ok _ _ _ _ _ H1)).
  by rewrite (H_bind_go _ _ _ _ _ (orElse_Ok _ _ _ _ _ (onDB_same _ s d _ Hs Hcs))).
Qed.

(** C29: A content registered is the content found, over a database link that
    does not fail and with the requests served one after another: a request to
    register a content id that nobody has, by a tenant that exists, with
    at most 10000 chunks numbered in increasing order, is answered as a new
    registration; and after any number of requests of other tenants - the same
    content id registered again among them - the tenant's file-level check
    answers that it exists, with the blob keys and the hashes of exactly those
    chunks, in their order, and the sizes it was registered with. Outside these
    conditions it can fail: [ex_too_many], [ex_chunks_lost],
    [DriveIsolation.failed_owner_check], [DriveIsolation.racing_registrations]. *)
Theorem register_then_check t body o r (s : D) d l o2 r2 : dr_metaDB s = Some d -> db_faults d = [] -> chunksHaveEntries d ->
  registrable d t body -> t <> "" -> rq_Method r = "POST" -> asker r = t -> (ot_parse o (rq_Body r) ≫= decodeRegister) = Some body ->
  Forall (fun q : driveRoute * Outside * Request => asker q.2 <> t) l ->
  rq_Method r2 = "POST" -> asker r2 = t -> (ot_parse o2 (rq_Body r2) ≫= decodeString "content_id") = Some (rb_ContentID body) ->
  (driveServe RtContentRegister o r s).2 = registered (rb_ContentID body) false /\
  (driveServe RtContentCheck o2 r2 (driveRun l (driveServe RtContentRegister o r s).1)).2 =
    found (map cc_BlobKey (rb_Chunks body)) (map cc_ChunkContentHash (rb_Chunks body)) (rb_ChunkCount body) (rb_PlaintextSize body).
Proof.
  intros Hs Hf Hfk Hreg Hne Hm Hask Hbody Hl Hm2 Hask2 Hbody2.
  assert (Hrun : driveServe RtContentRegister o r s =
    (s <| dr_metaDB := Some (withContent t body d) |>, registered (rb_ContentID body) false)).
  { unfold driveServe. cbn [driveHandler]. unfold handleContentRegister, start, onOptions, onlyMethod, decodeBody, reply_if.
    apply serve_go. rewrite Hm, Hbody. change (bool_decide ("POST" = "OPTIONS")) with false.
    change (bool_decide ("POST" = "POST")) with true. cbn [negb].
    rewrite <- Hask in Hne. pose proof (needTenant_go r s Hne) as Hten. rewrite Hask in Hten.
    rewrite !H_ret_bind, (H_bind_go _ _ _ _ _ Hten), H_ret_bind.
    rewrite (H_bind_go (field dr_metaDB) _ s s (Some d)) by (unfold field; by rewrite Hs).
    destruct (H_bind_inr _ _ _ _ _ (registers t body s d Hs Hf Hreg)) as ([] & s0 & Ho & Hrows).
    by rewrite (H_bind_go _ _ _ _ _ Ho), (H_bind_go _ _ _ _ _ Hrows). }
  rewrite Hrun. split; [done|]. cbn [fst].
  set (s1 := s <| dr_metaDB := Some (withContent t body d) |>). assert (Hs1 : dr_metaDB s1 = Some (withContent t body d)) by done.
  assert (Hf1 : db_faults (withContent t body d) = []) by done.
  assert (Hnone : forall i, content_chunks d !! (rb_ContentID body, i) = None).
  { intros i. apply eq_None_not_Some. intros Hc%Hfk. cbn in Hc. rewrite (rg_new _ _ _ Hreg) in Hc. by destruct Hc. }
  assert (Hget : GetContentChunks (rb_ContentID body) t (withContent t body d) = (withContent t body d, Ok (map dbChunk (rb_Chunks body)))).
  { pose proof (GetContentChunks_created (rb_ContentID body) t (map dbChunk (rb_Chunks body))
      (d <| content_entries := <[rb_ContentID body := entryOf t body d]> (content_entries d) |>) (entryOf t body d)) as Hget.
    apply Hget; [done|apply lookup_insert_eq|done|done|]. clear -Hreg. pose proof (rg_ordered _ _ _ Hreg) as Hord.
    induction Hord as [|c cs Hcs IH Hc]; cbn [map]; [constructor|]. constructor; [exact IH|].
    apply Forall_fmap. eapply Forall_impl; [exact Hc|]. by intros x Hx. }
  assert (Hcheck : driveServe RtContentCheck o2 r2 s1 = (s1, found (map cc_BlobKey (rb_Chunks body))
    (map cc_ChunkContentHash (rb_Chunks body)) (rb_ChunkCount body) (rb_PlaintextSize body))).
  { rewrite (checks (rb_ContentID body) t (map dbChunk (rb_Chunks body)) (entryOf t body d) s1 _ Hs1 Hf1
      (lookup_insert_eq _ _ _) eq_refl Hget o2 r2 Hm2 Hask2 Hne Hbody2). by rewrite !map_map. }
  destruct (others_keep t l s1 _ Hl Hs1 Hf1) as (d' & [Hd' Hsame Hst _] & Hf').
  rewrite (answers_alike t RtContentCheck o2 r2 (driveRun l s1) s1 eq_refl Hask2); [by rewrite Hcheck|].
  split; [|done]. exists d', (withContent t body d). by split_and!.
Qed.
End registration.

(** ** Witnesses *)
#[local] Instance ex_Store : Store Provider := Local_Store ex_root.
#[local] Instance ex_Laws : StoreLaws Provider := Local_StoreLaws ex_root.
#[local] Existing Instance ex_NoStore.

(** A commit of content "c" that reuses a chunk of it, with one new blob. *)
Definition ex_full : Drive Provider := newDriveAPI (Some ex_with_chunks) noStmts (Some ex_stored) 0.
Definition ex_commit (new : string) : json := JObj [("protocol", JStr "KDRV1"); ("content_id", JStr "c");
  ("reused_blob_keys", JArr [JStr "key0"]); ("new_blob_keys", JArr [JStr new])].
Definition ex_committed := driveServe RtCommitDedup (ex_out (ex_commit "a/b")) (ex_post "t") ex_full.
Lemma commit_sound_witness : statusOf ex_committed.2 = Some 200 /\ owns ex_with_chunks "t" "c" = true /\
  statusOf (driveServe RtCommitDedup (ex_out (ex_commit "a/c")) (ex_post "t") ex_full).2 = Some 400.
Proof.
  split; [vm_compute; reflexivity|]. split; [|vm_compute; reflexivity].
  destruct (commit_sound 10 (ex_out (ex_commit "a/b")) (ex_post "t") ex_full ex_committed.1 ex_stored ex_committed.2)
    as (body & Hbody & _ & Hhas & _).
  - reflexivity.
  - apply ex_stored_ok.
  - reflexivity.
  - apply surjective_pairing.
  - vm_compute. reflexivity.
  - assert (Hc : cb_ContentID body = "c") by (vm_compute in Hbody; injection Hbody as <-; reflexivity).
    rewrite Hc in Hhas. exact Hhas.
Defined.

Definition ex_two : json := JObj [("content_id", JStr "n"); ("chunk_count", jnum 2); ("plaintext_size", jnum 9);
  ("chunks", JArr [JObj [("chunk_index", jnum 0); ("chunk_content_hash", JStr "x"); ("blob_key", JStr "kx")];
                   JObj [("chunk_index", jnum 4); ("chunk_content_hash", JStr "y"); ("blob_key", JStr "ky")]])].
Definition ex_two_body : registerBody := mkRegisterBody "n" 9 2 0 ""
  [mkContentChunkEntry 0 "x" "kx" 0 0; mkContentChunkEntry 4 "y" "ky" 0 0].
Lemma register_then_check_witness :
  (driveServe RtContentCheck (ex_out (ex_check "n")) (ex_post "t")
    (driveRun ex_others (driveServe RtContentRegister (ex_out ex_two) (ex_post "t") (ex_gateway ex_with_chunks)).1)).2
    = found ["kx"; "ky"] ["x"; "y"] 2 9.
Proof.
  refine (proj2 (register_then_check "t" ex_two_body (ex_out ex_two) (ex_post "t") (ex_gateway ex_with_chunks) ex_with_chunks
    ex_others (ex_out (ex_check "n")) (ex_post "t") eq_refl _ _ _ _ eq_refl eq_refl _ _ eq_refl eq_refl _)).
  - vm_compute. reflexivity.
  - assert (Hall : forallb (fun kr : string * Z * chunkRow => bool_decide (is_Some (content_entries ex_with_chunks !! kr.1.1)))
      (map_to_list (content_chunks ex_with_chunks)) = true) by (vm_compute; reflexivity).
    rewrite forallb_forall in Hall. intros k [row Hk]. apply elem_of_map_to_list, list_elem_of_In in Hk.
    exact (proj1 (bool_decide_eq_true _) (Hall _ Hk)).
  - split.
    + vm_compute. reflexivity.
    + vm_compute. reflexivity.
    + repeat constructor.
    + repeat constructor.
    + apply Z.leb_le. vm_compute. reflexivity.
  - intros [=].
  - vm_compute. reflexivity.
  - constructor; [|constructor]. intros [=].
  - reflexivity.
Defined.

(** ** Registrations that lose their chunks

    The entry and the chunks are two statements and no transaction. A
    registration of too many chunks is refused only after its entry has been
    recorded, also over a sound link: what is sent again, with fewer chunks or
    the same, is answered as registered before, and the check says that the
    content exists and has no chunks. *)
Definition ex_chunks (n : nat) : json := JObj [("content_id", JStr "n"); ("chunk_count", jnum (Z.of_nat n));
  ("chunks", JArr (map (fun i => JObj [("chunk_index", jnum (Z.of_nat i)); ("blob_key", JStr "k")]) (seq 0 n)))].
Definition registerTwice (d : db) (n : nat) : list (option Z) * Response :=
  let register s := driveServe RtContentRegister (ex_out (ex_chunks n)) (ex_post "t") s in
  let x1 := register (ex_gateway d) in let x2 := register x1.1 in
  ([statusOf x1.2; statusOf x2.2], (driveServe RtContentCheck (ex_out (ex_check "n")) (ex_post "t") x2.1).2).
Example ex_too_many : registerTwice ex_with_chunks 10001 = ([Some 500; Some 200], found [] [] 10001 0).
Proof. vm_compute. reflexivity. Qed.

(** The same when the link fails at the chunks of a registration. *)
Example ex_chunks_lost :
  registerTwice (ex_with_chunks <| db_faults := [None; None; None; Some (ErrNew "connection reset")] |>) 2
    = ([Some 500; Some 200], found [] [] 2 0).
Proof. vm_compute. reflexivity. Qed.
