(* ===== verification/Gateway.v ===== *)
(** * internal/server/server.go and metrics.go

    The gateway process: what a configuration builds, the routes, the probes,
    the metrics and the end of the process. Requests are served one after the
    other on one state. *)
From Stdlib Require Import Strings.Ascii.
From S2P Require Import Prelude GoStd Sha256 BlobStore HotCache LruCore MemoryCache CircuitBreaker S3 Fs DiskCache.
From S2P Require Import Config LocalFsDev LocalStore Db MetaStore DriveStore Pipeline Worker Http ChatApi DriveApi.
From S2P Require Import DedupApi.
Local Open Scope Z_scope.

(** ** The store and the cache *)
(** [buildStore]. *)
Definition buildStore (c : GatewayConfig) (f : fs doc) : result (Provider + s3Store) :=
  if negb (bool_decide (gc_Env c = "production")) || bool_decide (sc_Endpoint (gc_Storage c) = "") then
    match local_New (Some devRoot) f with Err e => Err e | Ok p => Ok (inl p) end
  else
    let s3cfg := s3ConfigOf (gc_Storage c) in
    match (if gc_StorageCircuitBreakerEnabled c then
             let th := gc_StorageCircuitBreakerThreshold c in
             s3_NewWithCircuitBreaker s3cfg (if th <=? 0 then 10 else th) (30 * Second)
           else s3_New s3cfg) with
    | Err e => Err e
    | Ok p => Ok (inr p)
    end.

(** [buildCache]. *)
Definition buildCache (order : list string -> list string) (now : Time) (pathOf : string -> path) (c : GatewayConfig)
    (f : fs metaFile) : result (DiskCache + MemoryCache) :=
  let cache := gc_Cache c in
  if bool_decide (cc_Type cache = "disk") && negb (bool_decide (cc_DiskRootPath cache = "")) then
    match (NewDiskCache order now (Some (pathOf (cc_DiskRootPath cache))) (DefaultEvictionPolicy (cc_MaxBytes cache)) f).2 with
    | Err e => Err e | Ok d => Ok (inl d)
    end
  else
    match NewMemoryCache (mkEvictionPolicy EvictionLRU (cc_MaxBytes cache) (f64_of_Z 0) 0 0) with
    | Err e => Err e | Ok m => Ok (inr m)
    end.

(** ** The schema: [Store.Migrate] of internal/metadata/store.go

    [exec] runs the text of a migration, [record] inserts its version. A
    statement that fails inside a transaction makes the server refuse the
    following ones (25P02). *)
Record Migration := mkMigration { mg_Version : Z; mg_SQL : string }.
Definition isAlreadyExists (e : error) : bool := isPqCode e "42P07".
Section schema.
Context (exec : string -> MDB unit) (record : Z -> MDB unit).
Definition Apply (m : Migration) : MDB unit := transaction (
  r ← try (stmt (exec (mg_SQL m)));
  (match r with Err e => if isAlreadyExists e then ret tt else throw e | Ok _ => ret tt end);;
  stmt (fail_if (negb (is_Ok r)) (pqError "25P02");; record (mg_Version m))).
Fixpoint Migrate (ms : list Migration) : MDB unit :=
  match ms with
  | [] => ret tt
  | m :: ms => wrap "metadata: migration %d: %w" (Apply m);; Migrate ms
  end.
End schema.

(** ** The process *)
Section gateway.
Context {C St : Type} `{!Cache C} `{!Store St}.

(** The parts of a gateway. The handlers see of the pipeline its counters
    only; the database and the store are those of the Drive API. *)
Record Gateway := mkGateway {
  gw_cfg : GatewayConfig; gw_drive : Drive St; gw_cache : C; gw_stats : PipelineStats }.

(** [NewGateway]: the database when there is a DSN, migrated, with its
    statements prepared; an error of [InitStmts] is logged and dropped. *)
Definition NewGateway (buildStore : GatewayConfig -> result St) (buildCache : GatewayConfig -> result C)
    (Open : string -> result db) (autoMigrate : MDB unit) (idCounter : Z) (cfg : option GatewayConfig) : result Gateway :=
  match cfg with
  | None => Err (ErrNew "server: config is required")
  | Some c =>
      match buildStore c with
      | Err e => Err e
      | Ok store =>
          match buildCache c with
          | Err e => Err e
          | Ok cache =>
              let stats := mkPipelineStats 0 0 0 0 (f64_of_Z 0) in
              if bool_decide (gc_PostgresDSN c = "")
              then Ok (mkGateway c (newDriveAPI None noStmts (Some store) idCounter) cache stats)
              else
                match Open (gc_PostgresDSN c) with
                | Err e => Err (ErrWrap "server: open postgres: %w" e)
                | Ok d =>
                    match autoMigrate d with
                    | (_, Err e) => Err (ErrWrap "server: auto-migrate: %w" e)
                    | (d, Ok _) =>
                        let (d, ps) := InitStmts d in
                        let ps := match ps with Ok ps => ps | Err _ => noStmts end in
                        Ok (mkGateway c (newDriveAPI (Some d) ps (Some store) idCounter) cache stats)
                    end
                end
          end
      end
  end.

(** ** Routes: [Handler] and [http.ServeMux] *)
Inductive endpoint := Healthz | Readyz | Metrics | DriveEp (rt : driveRoute) | ChatEp (rt : chatRoute).
Definition fixedRoutes : list (string * endpoint) := [("/healthz", Healthz); ("/readyz", Readyz); ("/metrics", Metrics)].
Definition chatEndpoints : list (string * endpoint) := map (fun x => (x.1, ChatEp x.2)) chatRoutes.
Definition driveEndpoints : list (string * endpoint) := map (fun x => (x.1, DriveEp x.2)) driveRoutes.
Definition endpoints (db : bool) : list (string * endpoint) :=
  fixedRoutes ++ (if db then driveEndpoints else []) ++ chatEndpoints.

(** A pattern that ends in a slash matches the paths below it, and the longest
    pattern that matches wins. *)
Definition matches (pattern path : string) : bool :=
  if HasSuffix pattern "/" then HasPrefix path pattern else String.eqb path pattern.
Fixpoint longest (best : option (string * endpoint)) (table : list (string * endpoint)) (path : string) : option endpoint :=
  match table with
  | [] => snd <$> best
  | (p, e) :: table =>
      let better := match best with Some (q, _) => (String.length q <? String.length p)%nat | None => true end in
      longest (if matches p path && better then Some (p, e) else best) table path
  end.
Definition route (table : list (string * endpoint)) (path : string) : option endpoint := longest None table path.

(** [cleanPath]: the rooted path without empty, dot and dot-dot elements; a
    final slash is kept. *)
Definition cleanElem (acc : list string) (e : string) : list string :=
  if bool_decide (e = "") || bool_decide (e = ".") then acc
  else if bool_decide (e = "..") then tail acc else e :: acc.
Definition cleanPath (p : string) : string :=
  let elems := rev (foldl cleanElem [] (Split p "/"%char)) in
  let np := "/" +:+ String.concat "/" elems in
  if HasSuffix p "/" && negb (bool_decide (np = "/")) then np +:+ "/" else np.

(** What the mux does with a path: another one (with the same query), nothing,
    or a handler. The path is taken as it is written: nothing in it is
    percent-encoded. *)
Inductive dispatch := Moved (path : string) | Missing | To (e : endpoint).
Definition isPattern (table : list (string * endpoint)) (path : string) : bool := existsb (fun x => String.eqb x.1 path) table.
Definition mux (table : list (string * endpoint)) (path : string) : dispatch :=
  let clean := cleanPath path in
  if negb (isPattern table clean) && negb (HasSuffix clean "/") && isPattern table (clean +:+ "/") then Moved (clean +:+ "/")
  else if negb (bool_decide (clean = path)) then Moved clean
  else match route table clean with Some e => To e | None => Missing end.

(** [withWebHeaders]. *)
Definition webHeaders : list (string * string) :=
  [("Cross-Origin-Opener-Policy", "same-origin"); ("Cross-Origin-Embedder-Policy", "require-corp")].
Definition withWebHeaders (resp : Response) : Response :=
  match resp with Replied status header body => Replied status (webHeaders ++ header) body | Aborted => Aborted end.

(** ** Probes and metrics *)
Definition text (s : string) : payload := Raw (bytes_of_string s).
Definition newline : string := String "010"%char EmptyString.
Definition handleHealthz : Response := Replied 200 [] (text "ok").
(** [http.Error]. *)
Definition httpError (status : Z) (msg : string) : Response :=
  Replied status [("Content-Type", "text/plain; charset=utf-8"); ("X-Content-Type-Options", "nosniff")] (text (msg +:+ newline)).

(** [Store.Ping] and [checkStoreReady]; [inTime]: the probe answered before
    the deadline of the request. *)
Definition Ping : MDB unit := stmt (ret tt).
Definition probeKey : string := "__readyz_probe__".
Definition checkStoreReady (now : Time) (inTime : bool) (st : St) : St * bool :=
  let (st, r) := st_Head now (mkObjectRef probeKey) st in
  (st, inTime && match r with Ok _ => true | Err e => errors_Is e BsNotFound end).
Definition handleReadyz (now : Time) (inTime : bool) (d : Drive St) : Drive St * Response :=
  let (d, pg) := match dr_metaDB d with
                 | None => (d, Ok tt)
                 | Some b => let (b, r) := Ping b in (d <| dr_metaDB := Some b |>, r)
                 end in
  match pg with
  | Err _ => (d, httpError 503 "postgres: not ready")
  | Ok _ =>
      match dr_store d with
      | None => (d, Replied 200 [] (text "ready"))
      | Some st =>
          let (st, ready) := checkStoreReady now inTime st in
          (d <| dr_store := Some st |>,
           if ready then Replied 200 [] (text "ready") else httpError 503 "store: not ready")
      end
  end.

(** [writeMetric] and [writeMetricFloat]; [fmt_g] is the %g verb. *)
Definition writeMetric (name : string) (value : Z) : string :=
  "# TYPE " +:+ name +:+ " counter" +:+ newline +:+ name +:+ " " +:+ pretty value +:+ newline.
Definition writeMetricFloat (fmt_g : float64 -> string) (name : string) (value : float64) : string :=
  "# TYPE " +:+ name +:+ " gauge" +:+ newline +:+ name +:+ " " +:+ fmt_g value +:+ newline.
Definition cacheMetrics (fmt_g : float64 -> string) (s : HotCache.Stats) : string :=
  let total := wrapU64 (Hits s + Misses s) in
  writeMetric "kdrive_cache_entries" (Entries s) +:+ writeMetric "kdrive_cache_bytes_used" (BytesUsed s)
  +:+ writeMetric "kdrive_cache_bytes_limit" (BytesLimit s) +:+ writeMetric "kdrive_cache_hits_total" (wrap64 (Hits s))
  +:+ writeMetric "kdrive_cache_misses_total" (wrap64 (Misses s))
  +:+ writeMetric "kdrive_cache_evictions_total" (wrap64 (Evictions s))
  +:+ (if 0 <? total then writeMetricFloat fmt_g "kdrive_cache_hit_ratio" (f64_div (f64_of_Z (Hits s)) (f64_of_Z total)) else "").
Definition pipelineMetrics (fmt_g : float64 -> string) (s : PipelineStats) : string :=
  writeMetric "kdrive_promote_attempts_total" (PromoteAttempts s)
  +:+ writeMetric "kdrive_promote_successes_total" (PromoteSuccesses s)
  +:+ writeMetric "kdrive_promote_failures_total" (PromoteFailures s)
  +:+ writeMetric "kdrive_promote_skipped_total" (PromoteSkipped s)
  +:+ writeMetricFloat fmt_g "kdrive_promote_duration_avg_ms" (PromoteDurationAvgMs s).
Definition handleMetrics (fmt_g : float64 -> string) (g : Gateway) : Response :=
  Replied 200 [("Content-Type", "text/plain; version=0.0.4; charset=utf-8")]
    (text (cacheMetrics fmt_g (c_Stats (gw_cache g)) +:+ pipelineMetrics fmt_g (gw_stats g))).

(** ** A request *)
(** The chat endpoints work on the store of the gateway; on none, the first
    use of it ends the request. *)
Definition chatOn (rt : chatRoute) (env : Env) (r : Request) (d : Drive St) : Drive St * Response :=
  match dr_store d with
  | Some st => let (st, resp) := chatServe rt env r st in (d <| dr_store := Some st |>, resp)
  | None => (d, Aborted)
  end.
Record Moment := mkMoment { mo_out : Outside; mo_env : Env; mo_inTime : bool; mo_fmt_g : float64 -> string }.
Definition serveEndpoint (e : endpoint) (m : Moment) (r : Request) (g : Gateway) : Gateway * Response :=
  let on (x : Drive St * Response) := (mkGateway (gw_cfg g) x.1 (gw_cache g) (gw_stats g), x.2) in
  match e with
  | Healthz => (g, handleHealthz)
  | Readyz => on (handleReadyz (ot_now (mo_out m)) (mo_inTime m) (gw_drive g))
  | Metrics => (g, handleMetrics (mo_fmt_g m) g)
  | DriveEp rt => on (driveServe rt (mo_out m) r (gw_drive g))
  | ChatEp rt => on (chatOn rt (mo_env m) r (gw_drive g))
  end.
Definition hasDB (g : Gateway) : bool := match dr_metaDB (gw_drive g) with Some _ => true | None => false end.
(** The HTML body of a redirect is left out. *)
Definition Handler (m : Moment) (r : Request) (g : Gateway) : Gateway * Response :=
  match mux (endpoints (hasDB g)) (rq_Path r) with
  | To e => let (g, resp) := serveEndpoint e m r g in (g, withWebHeaders resp)
  | Moved path => (g, withWebHeaders (Replied 301 [("Location", path)] Empty))
  | Missing => (g, withWebHeaders (httpError 404 "404 page not found"))
  end.
End gateway.
Arguments Gateway : clear implicits.

(** [Close]: the same three steps as the worker's. *)
Definition gatewayClose {C St SS DB} `{Cache C} `{Store St} `{StatusStore SS} (now : Time)
    (closeCache : M C unit) (closeDb : M DB unit) (p : Pipeline C St SS) (d : option DB)
  : Pipeline C St SS * option DB * result unit := workerClose now closeCache closeDb p d.

(** ** Two processes, one store *)
(** The parts of the two configurations the stores are built from. *)
Record sameStorage (c : GatewayConfig) (w : WorkerConfig) : Prop := {
  ss_storage : gc_Storage c = wk_Storage w;
  ss_enabled : gc_StorageCircuitBreakerEnabled c = wk_StorageCircuitBreakerEnabled w;
  ss_threshold : gc_StorageCircuitBreakerThreshold c = wk_StorageCircuitBreakerThreshold w }.

(** A gateway and a worker configured with the same storage open the same
    store - the same S3 configuration with the same breaker, or the same local
    root, or the same error - exactly when the gateway is in production or no
    endpoint is given: in any other environment with an endpoint the worker goes
    to S3 and the gateway to the local directory. *)
Lemma same_store c w f : sameStorage c w ->
  (gc_Env c = "production" \/ sc_Endpoint (gc_Storage c) = "" -> buildStore c f = buildWorkerStore w f) /\
  (gc_Env c <> "production" -> sc_Endpoint (gc_Storage c) <> "" ->
    (forall p, buildStore c f <> Ok (inr p)) /\ (forall p, buildWorkerStore w f <> Ok (inl p))).
Proof.
  intros [Hs He Ht]. unfold buildStore, buildWorkerStore. rewrite <- Hs, <- He, <- Ht. split.
  - intros [Henv|Hep].
    + rewrite (bool_decide_true _ Henv). cbn [negb orb]. by case_bool_decide.
    + rewrite (bool_decide_true _ Hep), orb_true_r. done.
  - intros Henv Hep. rewrite (bool_decide_false _ Henv), (bool_decide_false _ Hep). cbn [negb orb]. split; intros p.
    + by destruct (local_New _ _).
    + by destruct (if gc_StorageCircuitBreakerEnabled c then _ else _).
Qed.

(** ** Every route is reached *)
Lemma HasPrefix_trans s p q : HasPrefix s p = true -> HasPrefix p q = true -> HasPrefix s q = true.
Proof.
  revert p q. induction s as [|c s IH]; intros [|d p] [|e q]; cbn; try done. rewrite !andb_true_iff, !Ascii.eqb_eq.
  intros [-> Hp] [-> Hq]. split; [done|by eapply IH].
Qed.
Lemma HasPrefix_len s p q : HasPrefix s p = true -> HasPrefix s q = true -> (String.length q <= String.length p)%nat ->
  HasPrefix p q = true.
Proof.
  revert p q. induction s as [|c s IH]; intros [|d p] [|e q]; cbn; try done; try lia. rewrite !andb_true_iff, !Ascii.eqb_eq.
  intros [-> Hp] [-> Hq] Hl. split; [done|]. apply IH; [done..|lia].
Qed.

(** The longest of the matching patterns is found. *)
Lemma longest_wins p e table path best :
  (forall q e', (q, e') ∈ table -> matches q path = true -> (q, e') = (p, e) \/ (String.length q < String.length p)%nat) ->
  match best with None => True | Some x => x = (p, e) \/ (String.length x.1 < String.length p)%nat end ->
  best = Some (p, e) \/ ((p, e) ∈ table /\ matches p path = true) -> longest best table path = Some e.
Proof.
  revert best. induction table as [|[q e'] table IH]; intros best Hall Hbest Hin; cbn [longest].
  { destruct Hin as [->|[Hin _]]; [done|by apply not_elem_of_nil in Hin]. }
  assert (Hrest : forall q0 e0, (q0, e0) ∈ table -> matches q0 path = true -> (q0, e0) = (p, e) \/ (String.length q0 < String.length p)%nat)
    by (intros q0 e0 Hq0; apply Hall; by right).
  destruct (matches q path) eqn:Hm; cbn [andb].
  - destruct (Hall q e' (list_elem_of_here _ _) Hm) as [Heq|Hlt].
    + injection Heq as -> ->. destruct best as [[b eb]|]; [|apply IH; auto].
      destruct Hbest as [Hb|Hb]; [injection Hb as -> ->; rewrite Nat.ltb_irrefl; apply IH; auto|].
      cbn [fst] in Hb. rewrite (proj2 (Nat.ltb_lt _ _) Hb). apply IH; auto.
    + assert (Hin' : best = Some (p, e) \/ ((p, e) ∈ table /\ matches p path = true)).
      { destruct Hin as [->|[Hin Hp]]; [by left|]. right. split; [|done]. apply elem_of_cons in Hin as [Heq|Hin]; [|done].
        injection Heq as -> ->. lia. }
      destruct best as [[b eb]|]; [|destruct Hin' as [[=]|Hin']; apply IH; auto].
      destruct (String.length b <? String.length q)%nat eqn:Hb; [|by apply IH]. apply Nat.ltb_lt in Hb.
      destruct Hin' as [[= -> ->]|Hin']; [lia|]. apply IH; auto.
  - apply IH; [done..|]. destruct Hin as [->|[Hin Hp]]; [by left|]. right. split; [|done].
    apply elem_of_cons in Hin as [Heq|Hin]; [|done]. injection Heq as -> ->. congruence.
Qed.

(** No pattern is below another, and none is there twice. *)
Definition apart (table : list (string * endpoint)) : bool :=
  forallb (fun x => HasPrefix x.1 "/" && forallb (fun y => String.eqb y.1 x.1 || negb (HasSuffix x.1 "/" && HasPrefix y.1 x.1)) table) table
  && bool_decide (NoDup (map fst table)).
Lemma endpoints_apart b : apart (endpoints b) = true.
Proof. destruct b; vm_compute; reflexivity. Qed.

Lemma HasPrefix_self p : HasPrefix p p = true.
Proof. rewrite <- (HasPrefix_app p ""). f_equal. induction p as [|c p IH]; [done|]. exact (f_equal (String c) IH). Qed.

Lemma key_unique {A} (table : list (string * A)) p e e' : NoDup (map fst table) -> (p, e) ∈ table -> (p, e') ∈ table -> e = e'.
Proof.
  induction table as [|[q x] table IH]; [by intros _ H%not_elem_of_nil|]. cbn [map fst]. intros [Hq Hnd]%NoDup_cons.
  intros [Heq|Hin]%elem_of_cons [Heq'|Hin']%elem_of_cons; [congruence| | |by apply IH].
  - injection Heq as -> ->. destruct Hq. by apply (list_elem_of_fmap_2 fst) in Hin'.
  - injection Heq' as -> ->. destruct Hq. by apply (list_elem_of_fmap_2 fst) in Hin.
Qed.

(** Every route of the gateway is reached, with and without a database: a
    path that is a pattern goes to that pattern's handler, and so does every
    path below a pattern that ends in a slash, whatever follows it; no pattern
    takes another's requests. *)
Lemma routes_reached b p e rest : (p, e) ∈ endpoints b ->
  route (endpoints b) p = Some e /\ (HasSuffix p "/" = true -> route (endpoints b) (p +:+ rest) = Some e).
Proof.
  intros Hin. pose proof (endpoints_apart b) as Ha. unfold apart in Ha. apply andb_true_iff in Ha as [Ha Hnd].
  apply bool_decide_eq_true in Hnd. rewrite forallb_forall in Ha.
  assert (Hother : forall q e', (q, e') ∈ endpoints b -> q = p -> (q, e') = (p, e)).
  { intros q e' Hq ->. f_equal. eapply key_unique; [exact Hnd|exact Hq|exact Hin]. }
  assert (Hbelow : forall x ex q e', (x, ex) ∈ endpoints b -> (q, e') ∈ endpoints b -> HasSuffix x "/" = true -> HasPrefix q x = true -> q = x).
  { intros x ex q e' Hx Hq Hs Hpre. specialize (Ha (x, ex) (proj1 (list_elem_of_In _ _) Hx)). apply andb_true_iff in Ha as [_ Ha].
    rewrite forallb_forall in Ha. specialize (Ha (q, e') (proj1 (list_elem_of_In _ _) Hq)). cbn [fst] in Ha.
    rewrite Hs, Hpre in Ha. cbn in Ha. rewrite orb_false_r in Ha. by apply String.eqb_eq in Ha. }
  assert (Hsub : forall path, HasSuffix p "/" = true -> HasPrefix path p = true -> route (endpoints b) path = Some e).
  { intros path Hs Hp. apply (longest_wins p e); [|done|right; split; [done|unfold matches; by rewrite Hs]].
    intros q e' Hq Hm. destruct (Nat.lt_ge_cases (String.length q) (String.length p)) as [Hlt|Hge]; [by right|]. left.
    apply Hother; [done|]. apply (Hbelow p e q e'); [done..|]. unfold matches in Hm. destruct (HasSuffix q "/").
    - by eapply HasPrefix_len.
    - apply String.eqb_eq in Hm. by subst. }
  split; [|intros Hs; apply Hsub; [done|apply HasPrefix_app]].
  destruct (HasSuffix p "/") eqn:Hs; [apply Hsub; [done|apply HasPrefix_self]|].
  apply (longest_wins p e); [|done|right; split; [done|unfold matches; rewrite Hs; apply String.eqb_refl]].
  intros q e' Hq Hm. unfold matches in Hm. destruct (HasSuffix q "/") eqn:Hsq.
  - rewrite (Hbelow q e' p e Hq Hin Hsq Hm) in Hs. congruence.
  - apply String.eqb_eq in Hm. left. by apply Hother.
Qed.

(** ** The probe *)
(** A gateway is ready when the database answers, if there is one, and the
    store answers in time, whether it has the probe's key or not. *)
Lemma readyz_iff {St} `{Store St} now inTime (d : Drive St) b st : dr_metaDB d = Some b -> dr_store d = Some st ->
  statusOf (handleReadyz now inTime d).2 = Some 200 <->
  is_Ok (Ping b).2 = true /\ inTime = true /\
  match (st_Head now (mkObjectRef probeKey) st).2 with Ok _ => True | Err e => errors_Is e BsNotFound = true end.
Proof.
  intros Hb Hst. unfold handleReadyz. rewrite Hb. destruct (Ping b) as [b' [u|e]]; [|cbn; naive_solver].
  cbn [dr_store upd eta_expand eta_Drive]. rewrite Hst. unfold checkStoreReady.
  destruct (st_Head now _ st) as [st' [md|e]]; cbn [snd is_Ok]; destruct inTime; cbn [andb]; try (destruct (errors_Is e BsNotFound));
    cbn; naive_solver.
Qed.

(** A migration whose tables exist is tolerated, but the transaction it ran in
    is not usable any more. *)
Lemma existing_fails exec record m d : db_faults d = [] -> (exec (mg_SQL m) d).2 = Err (pqError "42P07") ->
  db_faults (exec (mg_SQL m) d).1 = [] -> (Apply exec record m d).2 = Err (pqError "25P02").
Proof.
  intros Hf He Hf'. unfold Apply, transaction. rewrite healthy_stmt by done. unroll. rewrite healthy_stmt by done.
  destruct (exec (mg_SQL m) d) as [d1 r]. cbn in He, Hf'. subst r. change (isAlreadyExists (pqError "42P07")) with true.
  cbv iota beta. rewrite healthy_stmt by done. reflexivity.
Qed.

(** ** Where the two APIs meet

    Both work on the one store, and a blob upload names its key itself: tenant
    u's blob replaces tenant a's media. *)
#[local] Instance ex_Store : Store Provider := Local_Store ex_root.
Definition ex_gw : Gateway MemoryCache Provider :=
  mkGateway devGatewayConfig (newDriveAPI (Some (emptyDb 0)) noStmts (Some ex_init) 0)
    (newLru (DefaultEvictionPolicy 1000)) (mkPipelineStats 0 0 0 0 (f64_of_Z 0)).
Definition ex_moment (now : Time) (j : json) : Moment :=
  mkMoment (mkOutside now now (fun _ => Some j) id (fun _ l => l) pretty) (ex_env now) true (fun _ => "").
Definition ex_upload : json := JObj [("blob_key", JStr "tenant/a/chat-media/m1"); ("ciphertext_hex", JStr "ff")].
Definition ex_blob : Request := mkRequest "POST" "/v1/blobs:upload" (ex_demo "u") (fun _ => "") (bytes_NewReader []).
Definition ex_put_media := (Handler (ex_moment 10 JNull) (ex_request "PUT" "a" [x01; x02]) ex_gw).1.
Definition ex_put_blob := (Handler (ex_moment 20 ex_upload) ex_blob ex_put_media).1.
Lemma blob_replaces_media :
  payloadOf (Handler (ex_moment 30 JNull) (ex_request "GET" "a" []) ex_put_media).2 = Raw [x01; x02] /\
  payloadOf (Handler (ex_moment 30 JNull) (ex_request "GET" "a" []) ex_put_blob).2 = Raw [xff].
Proof. split; vm_compute; reflexivity. Qed.
