(* ===== verification/GatewaySafety.v ===== *)
(** * The store behind the gateway

    What is stored under a key stays there while the gateway serves requests
    that do not write that key, whichever API they come through; so an object
    put through the chat endpoints is read back through the whole gateway. *)
From Stdlib Require Import Strings.Ascii.
From S2P Require Import Prelude GoStd Sha256 BlobStore HotCache LruCore MemoryCache Fs Config LocalFsDev LocalStore.
From S2P Require Import Db MetaStore DriveStore ContentStore TenantIsolation Pipeline Http ChatApi DriveApi.
From S2P Require Import DedupApi DriveIsolation Gateway.
Local Open Scope Z_scope.

Section drive.
Context {St : Type} `{StoreLaws St}.
Notation D := (Drive St).
Notation HD := (H D).

(** ** Handlers that do not use the store *)
Definition storeless {A} (h : HD A) : Prop := forall s s' x, h s = (s', x) -> dr_store s' = dr_store s.

Lemma storeless_bind {A B} (h : HD A) (k : A -> HD B) : storeless h -> (forall a, storeless (k a)) -> storeless (x ← h; k x).
Proof.
  intros Hh Hk s s' x [(r & Hr & ->)|(a & s1 & Ha & Hb)]%H_bind_inv; [by eapply Hh|].
  apply Hh in Ha. apply Hk in Hb. congruence.
Qed.
Lemma storeless_ret {A} (a : A) : storeless (mret a).
Proof. by intros s s' x [= <- _]. Qed.
Lemma storeless_reply {A} r : storeless (@reply D A r).
Proof. by intros s s' x [= <- _]. Qed.
Lemma storeless_field {A} (f : D -> A) : storeless (field f).
Proof. by intros s s' x [= <- _]. Qed.
Lemma storeless_needDB : storeless (needDB (St := St)).
Proof. intros s s' x. unfold needDB. by destruct (dr_metaDB s); intros [= <- _]. Qed.
Lemma storeless_onDB {A} (m : MDB A) : storeless (onDB m).
Proof. intros s s' x. unfold onDB. destruct (dr_metaDB s) as [d|]; [destruct (m d)|]; by intros [= <- _]. Qed.
Lemma storeless_generateID now p : storeless (@generateID St now p).
Proof. by intros s s' x [= <- _]. Qed.
Lemma storeless_putSession sid u : storeless (@putSession St sid u).
Proof. by intros s s' x [= <- _]. Qed.
Lemma evictFirst_store l (s : D) : dr_store (evictFirst l s) = dr_store s.
Proof. by destruct l. Qed.
Lemma storeless_putMemContent o k e l : storeless (@putMemContent St o k e l).
Proof.
  intros s s' x [= <- _]. cbn [dr_store upd eta_expand eta_Drive]. unfold evictChunks, evictEntry.
  destruct (_ && _); destruct (_ <=? _); cbn; rewrite ?evictFirst_store; done.
Qed.
Lemma storeless_checkReused known keys : storeless (checkReused (St := St) known keys).
Proof.
  induction keys as [|k keys IH]; cbn [checkReused]; [apply storeless_ret|]. unfold reply_if.
  destruct (negb _); apply storeless_bind; auto using @storeless_ret, @storeless_reply.
Qed.
Hint Resolve storeless_ret storeless_reply storeless_field storeless_needDB storeless_onDB storeless_generateID
  storeless_putSession storeless_putMemContent storeless_checkReused : storeless.
Ltac storeless := repeat first
  [ progress auto with storeless nocore | apply storeless_bind; [|intros ?]
  | match goal with
    | |- storeless (if ?b then _ else _) => destruct b
    | |- storeless (match ?x with _ => _ end) => destruct x
    | |- storeless (orElse _ _) => unfold orElse
    | |- storeless (reply_if _ _) => unfold reply_if
    | |- storeless (needTenant _) => unfold needTenant
    | |- storeless (decodeBody _ _ _) => unfold decodeBody
    | |- storeless (getMemContent _) => unfold getMemContent
    end ].

(** ** Handlers that write at most once, and not [key] *)
Context (key : string) (now : Time).
Definition spares {A} (h : HD A) : Prop := forall t s st s' x, dr_store s = Some st -> store_inv t st -> t < now -> h s = (s', x) ->
  exists st', dr_store s' = Some st' /\ store_inv now st' /\ forall b, stored st key b -> stored st' key b.

Lemma spares_storeless {A} (h : HD A) : storeless h -> spares h.
Proof.
  intros Hh t s st s' x Hs Hi Ht Hr. exists st. split; [by rewrite (Hh _ _ _ Hr)|]. split; [|done].
  eapply store_time; [|exact Hi]. lia.
Qed.
Lemma spares_after {A B} (h : HD A) (k : A -> HD B) : storeless h -> (forall a, spares (k a)) -> spares (x ← h; k x).
Proof.
  intros Hh Hk t s st s' x Hs Hi Ht [(r & Hr & ->)|(a & s1 & Ha & Hb)]%H_bind_inv.
  - by eapply (spares_storeless h Hh).
  - eapply (Hk a); [|exact Hi|exact Ht|exact Hb]. by rewrite (Hh _ _ _ Ha).
Qed.
Lemma spares_before {A B} (h : HD A) (k : A -> HD B) : spares h -> (forall a, storeless (k a)) -> spares (x ← h; k x).
Proof.
  intros Hh Hk t s st s' x Hs Hi Ht [(r & Hr & ->)|(a & s1 & Ha & Hb)]%H_bind_inv; [by eapply Hh|].
  rewrite (Hk _ _ _ _ Hb). by eapply Hh.
Qed.
Lemma spares_decode {A B} parse r (decode : json -> option A) (k : A -> HD B) :
  (forall a, (parse (rq_Body r) ≫= decode) = Some a -> spares (k a)) -> spares (x ← decodeBody parse r decode; k x).
Proof.
  intros Hk. unfold decodeBody. destruct (parse (rq_Body r) ≫= decode) as [a|].
  - intros t s st s' x Hs Hi Ht Hr. rewrite H_ret_bind in Hr. by eapply Hk.
  - apply spares_storeless. by intros s s' x [= <- _].
Qed.

(** A blob stored under another key. *)
Lemma storeBlob_spares o req msg : ot_now o = now -> pq_Key req <> key -> good_key (pq_Key req) -> spares (storeBlob o req msg).
Proof.
  intros Ho Hne Hg t s st s' x Hs Hi Ht. unfold storeBlob.
  rewrite (H_bind_go (field dr_store) _ s s (dr_store s) eq_refl), Hs.
  assert (Hput : exists st1 res, st_Put (ot_now o) req st = (st1, res)) by (destruct (st_Put (ot_now o) req st); eauto).
  destruct Hput as (st1 & res & Hput). pose proof (store_Put t (ot_now o) req st st1 res Hi ltac:(lia) Hg Hput) as (Hi1 & Hk & _).
  assert (Hrun : onBlobs (st_Put (ot_now o) req) s = (s <| dr_store := Some st1 |>, inr res)) by (unfold onBlobs; by rewrite Hs, Hput).
  rewrite Ho in Hi1. intros Hr. exists st1. split; [|split; [done|intros b; by apply Hk]].
  destruct res as [pr|e].
  - rewrite (H_bind_go _ _ _ _ _ (orElse_Ok _ _ _ _ _ Hrun)) in Hr. by injection Hr as <- _.
  - rewrite (H_bind_stop _ _ _ _ _ (orElse_Err _ _ _ _ _ Hrun)) in Hr. by injection Hr as <- _.
Qed.

(** Looking for blobs. *)
Lemma checkUploaded_keeps o keys : Forall good_key keys -> forall t s st s' x, dr_store s = Some st -> store_inv t st ->
  checkUploaded o keys s = (s', x) ->
  exists st', dr_store s' = Some st' /\ store_inv t st' /\ forall b, stored st key b -> stored st' key b.
Proof.
  induction 1 as [|k keys Hg Hk IH]; intros t s st s' x Hs Hi; cbn [checkUploaded]; [intros [= <- _]; by exists st|].
  assert (Hhead : exists st1 res, st_Head (ot_now o) (mkObjectRef k) st = (st1, res)) by (destruct (st_Head _ _ st); eauto).
  destruct Hhead as (st1 & res & Hhead). destruct (store_Head t (ot_now o) st st1 k res Hi Hg Hhead) as (Hi1 & Hkeep & _).
  assert (Hrun : onBlobs (st_Head (ot_now o) (mkObjectRef k)) s = (s <| dr_store := Some st1 |>, inr res))
    by (unfold onBlobs; by rewrite Hs, Hhead).
  destruct res as [md|e].
  - rewrite (H_bind_go _ _ _ _ _ (orElse_Ok _ _ _ _ _ Hrun)). intros Hr.
    assert (Hs1 : dr_store (s <| dr_store := Some st1 |>) = Some st1) by done.
    destruct (IH t _ st1 s' x Hs1 Hi1 Hr) as (st' & Hst & Hi' & Hb). exists st'. split_and!; auto.
  - rewrite (H_bind_stop _ _ _ _ _ (orElse_Err _ _ _ _ _ Hrun)). intros [= <- _]. exists st1. split_and!; auto.
Qed.
Lemma verifyNew_spares o keys : Forall good_key keys -> spares (verifyNew o keys).
Proof.
  intros Hg t s st s' x Hs Hi Ht. unfold verifyNew. rewrite (H_bind_go (field dr_store) _ s s (dr_store s) eq_refl), Hs.
  intros Hr. destruct (checkUploaded_keeps o keys Hg t s st s' x Hs Hi Hr) as (st' & Hst & Hi' & Hb). exists st'.
  split; [done|]. split; [|done]. eapply store_time; [|exact Hi']. lia.
Qed.

(** The keys a request of the Drive API writes, and those it looks for. *)
Definition blobBody (j : json) : option (string * string * string) :=
  key ← decodeString "blob_key" j; hex ← decodeString "ciphertext_hex" j; sum ← decodeString "ciphertext_sha256" j;
  _ ← decodeInt "plaintext_len" j; _ ← decodeInt "ciphertext_len" j; Some (key, hex, sum).
Definition chunkOf (r : Request) : option string :=
  let parts := Split (TrimPrefix (rq_Path r) "/v1/uploads/") "/"%char in
  ordinal ← sscanf_d (default "" (head (SplitN2 (default "" (parts !! 2%nat)) ":"%char)));
  Some (chunkKey (default "" (head parts)) ordinal).
Definition writtenBy (rt : driveRoute) (o : Outside) (r : Request) : option string :=
  match rt with
  | RtUploadChunks => chunkOf r
  | RtBlobUpload => b ← ot_parse o (rq_Body r) ≫= blobBody; Some b.1.1
  | _ => None
  end.
Definition lookedFor (rt : driveRoute) (o : Outside) (r : Request) : list string :=
  match rt with
  | RtCommitDedup => default [] (cb_NewBlobKeys <$> (ot_parse o (rq_Body r) ≫= decodeCommit))
  | _ => []
  end.

Lemma spares_tenant {A} r (k : string -> HD A) : (forall t, spares (k t)) -> spares (x ← needTenant r; k x).
Proof. apply spares_after. storeless. Qed.

Lemma drive_spares rt o r : ot_now o = now -> writtenBy rt o r <> Some key ->
  (forall k, writtenBy rt o r = Some k -> good_key k) -> Forall good_key (lookedFor rt o r) -> spares (driveHandler rt o r).
Proof.
  intros Ho Hne Hg Hl. destruct rt; cbn [driveHandler].
  6: { unfold handleUploadChunks, start, onOptions. apply spares_after; [storeless|intros _].
    apply spares_after; [storeless|intros _]. apply spares_tenant. intros tenant. apply spares_after; [storeless|].
    intros [[[hex sha] plain] cipher]. unfold writtenBy, chunkOf in Hne, Hg. destruct (sscanf_d _) as [ordinal|]; [|apply spares_storeless; storeless].
    cbn [mbind option_bind] in Hne, Hg.
    apply spares_after; [unfold decodeHex; storeless|]. intros ct. apply spares_before; [|intros u; storeless].
    apply storeBlob_spares; [done| |]; cbn [blobRequest pq_Key]; [congruence|by apply Hg]. }
  6: { unfold handleUploadCommitDedup, start, onOptions, onlyMethod. do 2 (apply spares_after; [storeless|intros _]).
    apply spares_tenant. intros tenant. apply spares_decode. intros body Hbody. cbn [lookedFor] in Hl. rewrite Hbody in Hl.
    apply spares_after; [storeless|intros _]. apply spares_after; [unfold contentBlobs; storeless|intros known].
    apply spares_after; [storeless|intros _]. apply spares_before; [by apply verifyNew_spares|intros u; storeless]. }
  14: { unfold handleBlobUpload, start, onOptions, onlyMethod. do 2 (apply spares_after; [storeless|intros _]).
    apply spares_tenant. intros tenant. apply spares_decode. intros [[k hex] sum] Hbody.
    assert (Hw : writtenBy RtBlobUpload o r = Some k) by (unfold writtenBy, blobBody; by rewrite Hbody).
    apply spares_after; [storeless|intros _]. apply spares_after; [unfold decodeHex; storeless|]. intros ct.
    apply spares_before; [|intros u; storeless]. rewrite Hw in Hne, Hg.
    apply storeBlob_spares; [done| |]; cbn [blobRequest pq_Key]; [congruence|by apply Hg]. }
  all: apply spares_storeless; unfold handleTenants, handleFoldersRoot, handleFolderChildren, ownFolder, handleNode, handleUploadInitiate,
      handleVersion, handleDomain, handleSharesRoot, handleShareRevoke, handleVectors,
      handleContentCheck, handleContentCheckChunks, handleContentRegister, checkOwner, registerRows, decodeHex, start, onOptions, onlyMethod;
    storeless.
Qed.
End drive.

(** ** The whole gateway *)
Section gateway.
Context {C St : Type} `{!Cache C} `{StoreLaws St}.
Notation G := (Gateway C St).
Notation storeOf g := (dr_store (gw_drive g)).
Notation nowOf m := (ot_now (mo_out m)).
Implicit Types (o : kind * string * string) (g : G) (m : Moment).

(** A request that leaves the object [o] alone: a chat request that does not
    upload to it, a Drive request whose blob has another key. *)
Definition writesTo (e : endpoint) m (r : Request) : option string :=
  match e with
  | ChatEp rt => objectKey <$> objectOf rt (mo_env m) r
  | DriveEp rt => writtenBy rt (mo_out m) r
  | _ => None
  end.
Definition sparesObject o (e : endpoint) m (r : Request) : Prop :=
  match e with
  | ChatEp rt => objectOf rt (mo_env m) r <> Some o
  | _ => writesTo e m r <> Some (objectKey o)
  end.
(** The keys a request brings to the store. *)
Definition keysOf (e : endpoint) m (r : Request) : list string :=
  option_list (writesTo e m r) ++
  match e with Readyz => [probeKey] | DriveEp rt => lookedFor rt (mo_out m) r | _ => [] end.

(** Requests of any kinds, one after the other, each later than the last. *)
Inductive gatewayRun o : Time -> G -> Time -> G -> Prop :=
| run_end t g : gatewayRun o t g t g
| run_request t g m r g1 resp t' g' : t < nowOf m -> en_now (mo_env m) = nowOf m ->
    (forall e, mux (endpoints (hasDB g)) (rq_Path r) = To e -> sparesObject o e m r /\ Forall good_key (keysOf e m r)) ->
    Handler m r g = (g1, resp) -> gatewayRun o (nowOf m) g1 t' g' -> gatewayRun o t g t' g'.

Lemma readyz_spares t now inTime key (d d' : Drive St) st resp : dr_store d = Some st -> store_inv t st -> t < now ->
  good_key probeKey -> handleReadyz now inTime d = (d', resp) ->
  exists st', dr_store d' = Some st' /\ store_inv now st' /\ forall b, stored st key b -> stored st' key b.
Proof.
  intros Hs Hi Ht Hg. unfold handleReadyz.
  assert (Hst : forall b, dr_store (d <| dr_metaDB := b |>) = Some st) by done.
  assert (Hnow : store_inv now st) by (eapply store_time; [|exact Hi]; lia).
  assert (Hprobe : forall d0, dr_store d0 = Some st -> (let (st', ready) := checkStoreReady now inTime st in
     (d0 <| dr_store := Some st' |>, if ready then Replied 200 [] (text "ready") else httpError 503 "store: not ready")) = (d', resp) ->
     exists st', dr_store d' = Some st' /\ store_inv now st' /\ forall b, stored st key b -> stored st' key b).
  { intros d0 _. unfold checkStoreReady. destruct (st_Head now (mkObjectRef probeKey) st) as [st1 r1] eqn:Hh.
    destruct (store_Head t now st st1 probeKey r1 Hi Hg Hh) as (Hi1 & Hk & _). intros [= <- _]. exists st1.
    split; [done|]. split; [eapply store_time; [|exact Hi1]; lia|auto]. }
  destruct (dr_metaDB d) as [b|]; [destruct (Ping b) as [b' [u|e]]|]; rewrite ?Hst, ?Hs.
  - apply Hprobe. done.
  - intros [= <- _]. by exists st.
  - by apply Hprobe.
Qed.

Lemma chatOn_spares t rt env r o (d d' : Drive St) st resp : dr_store d = Some st -> store_inv t st -> t < en_now env ->
  (exists rt0 env0 r0, objectOf rt0 env0 r0 = Some o) -> objectOf rt env r <> Some o ->
  (forall o', objectOf rt env r = Some o' -> good_key (objectKey o')) -> chatOn rt env r d = (d', resp) ->
  exists st', dr_store d' = Some st' /\ store_inv (en_now env) st' /\ forall b, stored st (objectKey o) b -> stored st' (objectKey o) b.
Proof.
  intros Hs Hi Ht (rt0 & env0 & r0 & Ho) Hne Hg. unfold chatOn. rewrite Hs.
  destruct (chatServe rt env r st) as [st1 resp1] eqn:Hc. intros [= <- _]. rewrite chatServe_action in Hc.
  apply (perform_keeps t) in Hc as [Hi1 Hk]; [|done..|].
  - exists st1. split; [done|]. split; [done|]. intros b. apply Hk. by eapply writes_other.
  - intros k. rewrite writes_object. destruct (objectOf rt env r) as [o'|]; [|done]. intros [= <-]. by apply Hg.
Qed.

Lemma serve_spares t e m r o g g' st resp : storeOf g = Some st -> store_inv t st -> t < nowOf m -> en_now (mo_env m) = nowOf m ->
  (exists rt0 env0 r0, objectOf rt0 env0 r0 = Some o) -> sparesObject o e m r -> Forall good_key (keysOf e m r) ->
  serveEndpoint e m r g = (g', resp) ->
  exists st', storeOf g' = Some st' /\ store_inv (nowOf m) st' /\ forall b, stored st (objectKey o) b -> stored st' (objectKey o) b.
Proof.
  intros Hs Hi Ht Hnow Ho Hsp Hg. assert (Hi' : store_inv (nowOf m) st) by (eapply store_time; [|exact Hi]; lia).
  apply Forall_app in Hg as [Hg Hl]. destruct e as [| | |rt|rt]; cbn [serveEndpoint].
  - intros [= <- _]. by exists st.
  - destruct (handleReadyz _ _ _) as [d' resp'] eqn:Hr. intros [= <- _]. apply Forall_cons in Hl as [Hl _].
    exact (readyz_spares t _ _ (objectKey o) _ _ _ _ Hs Hi Ht Hl Hr).
  - intros [= <- _]. by exists st.
  - destruct (driveServe rt (mo_out m) r (gw_drive g)) as [d' resp'] eqn:Hr. intros [= <- _]. unfold driveServe in Hr.
    assert (Hsp' : spares (objectKey o) (nowOf m) (driveHandler rt (mo_out m) r)).
    { apply drive_spares; [done|exact Hsp| |exact Hl]. intros k Hk. cbn [writesTo] in Hg. rewrite Hk in Hg. by apply Forall_cons in Hg as [? _]. }
    apply serve_inv in Hr as [Hr|Hr]; exact (Hsp' t _ _ _ _ Hs Hi Ht Hr).
  - destruct (chatOn rt (mo_env m) r (gw_drive g)) as [d' resp'] eqn:Hr. intros [= <- _]. rewrite <- Hnow in Ht |- *.
    refine (chatOn_spares t rt _ r o _ _ _ _ Hs Hi Ht Ho Hsp _ Hr). intros o' Ho'. cbn [writesTo] in Hg. rewrite Ho' in Hg.
    by apply Forall_cons in Hg as [? _].
Qed.

Lemma run_keeps o t g t' g' st b : (exists rt0 env0 r0, objectOf rt0 env0 r0 = Some o) -> gatewayRun o t g t' g' ->
  storeOf g = Some st -> store_inv t st -> stored st (objectKey o) b ->
  exists st', storeOf g' = Some st' /\ store_inv t' st' /\ stored st' (objectKey o) b.
Proof.
  intros Ho Hrun. revert st. induction Hrun as [t g|t g m r g1 resp t' g' Ht Hnow Hsp Hh Hrun IH]; intros st Hs Hi Hst.
  { by exists st. }
  enough (exists st1, storeOf g1 = Some st1 /\ store_inv (nowOf m) st1 /\ stored st1 (objectKey o) b) as (st1 & Hs1 & Hi1 & Hst1)
    by by eapply IH.
  assert (Hi' : store_inv (nowOf m) st) by (eapply store_time; [|exact Hi]; lia).
  unfold Handler in Hh. destruct (mux _ _) as [p| |e] eqn:Hmux; [injection Hh as <- _; by exists st..|].
  destruct (serveEndpoint e m r g) as [g2 resp2] eqn:Hserve. injection Hh as <- _. destruct (Hsp e eq_refl) as [Hsp1 Hsp2].
  destruct (serve_spares _ _ _ _ _ _ _ _ _ Hs Hi Ht Hnow Ho Hsp1 Hsp2 Hserve) as (st1 & ? & ? & Hk). exists st1. auto.
Qed.

(** C27: An object put through the chat endpoints is read back through the
    gateway. A PUT or POST of [data] to the path of a segment, shard or media
    blob that is answered with success, then any number of requests of any
    tenants - to the chat and Drive endpoints, the probes, the metrics, paths
    that do not exist - and a GET with the same path and tenant: it is answered
    with 200 and the first [limitOf rt] bytes of [data], which are all of them
    unless the body is over the limit. The requests in between may upload any
    other objects: that of another kind, tenant or id never has the same key. A
    Drive request alone can name the key itself, and is required not to. *)
Theorem gateway_roundtrip rt o data t g st put m g1 resp t2 g2 m2 get :
  storeOf g = Some st -> store_inv t st -> t < nowOf m -> en_now (mo_env m) = nowOf m ->
  (forall b, mux (endpoints b) (rq_Path put) = To (ChatEp rt)) -> isManifest rt = false ->
  objectOf rt (mo_env m) put = Some o -> good_key (objectKey o) -> rq_Body put = bytes_NewReader data ->
  Handler m put g = (g1, resp) -> successful resp = true -> gatewayRun o (nowOf m) g1 t2 g2 ->
  requireAuth get = requireAuth put -> rq_Path get = rq_Path put -> rq_Method get = "GET" ->
  (exists g3, Handler m2 get g2 = (g3, withWebHeaders (writeBytes (takeZ (limitOf rt) data)))) /\
  (len data <= limitOf rt -> takeZ (limitOf rt) data = data).
Proof.
  intros Hs Hi Ht Hnow Hmux Hm Ho Hg Hb Hput Hok Hrun Ha Hp Hget.
  split; [|intros Hl; by apply takeZ_ge]. unfold Handler in Hput. rewrite Hmux in Hput. cbn [serveEndpoint] in Hput.
  unfold chatOn in Hput. rewrite Hs in Hput. destruct (chatServe rt (mo_env m) put st) as [st1 resp1] eqn:Hc.
  cbn [fst snd] in Hput. injection Hput as <- <-.
  assert (Hok1 : successful resp1 = true) by (destruct resp1; [exact Hok|discriminate Hok]).
  rewrite chatServe_action in Hc. destruct (upload_action _ _ _ _ Ho) as [ok Hact]. rewrite Hact in Hc.
  assert (Hst : stored st1 (objectKey o) (takeZ (limitOf rt) data)) by (eapply upload_stores; try eassumption; first [done|by rewrite Hnow]).
  apply (perform_keeps t) in Hc as [Hi1 _]; [|done|by rewrite Hnow|by intros k [= <-]]. rewrite Hnow in Hi1.
  destruct (run_keeps o _ _ _ _ st1 _ ltac:(by eexists _, _, _) Hrun eq_refl Hi1 Hst) as (st2 & Hs2 & Hi2 & Hst2).
  destruct (download_action _ _ (mo_env m2) _ _ _ Ho Hm Ha Hp Hget) as [nf Hd].
  destruct (download_reads t2 (mo_env m2) get _ nf st2 _ Hi2 Hst2) as [st3 Hread].
  unfold Handler. rewrite Hp, Hmux. cbn [serveEndpoint]. unfold chatOn. rewrite Hs2, chatServe_action, Hd, Hread. by eexists.
Qed.
End gateway.

(** ** Witness: between the PUT and the GET of a media blob of tenant a's,
    tenant u uploads a blob with a key of its own, and the probe is asked *)
#[local] Instance ex_Store : Store Provider := Local_Store ex_root.
#[local] Instance ex_Laws : StoreLaws Provider := Local_StoreLaws ex_root.
Definition ex_own_key : json := JObj [("blob_key", JStr "x"); ("ciphertext_hex", JStr "ff")].
Definition ex_probe : Request := mkRequest "GET" "/readyz" (fun _ => "") (fun _ => "") (bytes_NewReader []).
Definition ex_after_blob := (Handler (ex_moment 20 ex_own_key) ex_blob ex_put_media).1.
Definition ex_after_probe := (Handler (ex_moment 25 JNull) ex_probe ex_after_blob).1.

Lemma good_plain k : validateKey k = Ok tt -> ContainsRune k "/"%char = false -> k <> "_multipart" -> good k.
Proof. intros Hv Hk Hne. split; [done|]. intros r. rewrite Split_noSep by done. intros [= Heq _]. by apply Hne. Qed.

Lemma ex_between : gatewayRun ex_object 10 ex_put_media 25 ex_after_probe.
Proof.
  eapply (run_request _ 10 _ (ex_moment 20 ex_own_key) ex_blob); [reflexivity|reflexivity| |apply surjective_pairing|].
  - assert (Hm : mux (endpoints (hasDB ex_put_media)) (rq_Path ex_blob) = To (DriveEp RtBlobUpload)) by (vm_compute; reflexivity).
    rewrite Hm. intros e [= <-]. split; [intros [=]|]. repeat constructor. apply good_plain; [reflexivity|reflexivity|intros [=]].
  - eapply (run_request _ 20 _ (ex_moment 25 JNull) ex_probe); [reflexivity|reflexivity| |apply surjective_pairing|apply run_end].
    assert (Hm : mux (endpoints (hasDB ex_after_blob)) (rq_Path ex_probe) = To Readyz) by (vm_compute; reflexivity).
    intros e He. change (mux (endpoints (hasDB ex_after_blob)) (rq_Path ex_probe) = To e) in He. rewrite Hm in He. injection He as <-. split; [intros [=]|]. repeat constructor. apply good_plain; [reflexivity|reflexivity|intros [=]].
Qed.

Lemma gateway_roundtrip_witness :
  exists g3, Handler (ex_moment 30 JNull) (ex_request "GET" "a" []) ex_after_probe = (g3, withWebHeaders (writeBytes [x01; x02])).
Proof.
  destruct (gateway_roundtrip MediaBlobs ex_object [x01; x02] 5 ex_gw ex_init (ex_request "PUT" "a" [x01; x02]) (ex_moment 10 JNull)
    ex_put_media (Handler (ex_moment 10 JNull) (ex_request "PUT" "a" [x01; x02]) ex_gw).2 25 ex_after_probe (ex_moment 30 JNull)
    (ex_request "GET" "a" [])) as [Hread Hall].
  - reflexivity.
  - apply ex_init_sound.
  - reflexivity.
  - reflexivity.
  - intros [|]; vm_compute; reflexivity.
  - reflexivity.
  - reflexivity.
  - apply good_media. reflexivity.
  - reflexivity.
  - apply surjective_pairing.
  - vm_compute. reflexivity.
  - exact ex_between.
  - reflexivity.
  - reflexivity.
  - reflexivity.
  - rewrite Hall in Hread by (apply Z.leb_le; vm_compute; reflexivity). exact Hread.
Defined.
