(* ===== verification/Lifecycle.v ===== *)
(** * The two processes: cmd/drive-worker, cmd/drive-gateway and the loops of internal/worker

    The worker process from [main]: a goroutine per job with its ticker, the
    goroutine of [Start], and the one [Stop] leaves to wait for the jobs. A run
    of a job ([runOnce]) is entered and left by a step of its own, so that
    anything may happen while it lasts. The gateway process: the goroutine that
    serves, [main], and the requests under way. *)
From S2P Require Import Prelude GoStd Config Fs DiskCache Promotion Jobs Worker.
Local Open Scope Z_scope.

Definition ctxDeadlineExceeded : error := ErrSentinel CtxDeadlineExceeded.

(** ** The worker process *)

(** The goroutine of a job: not started, about to make its ticker, in
    [runOnce], in the [select] of [Run], returned. *)
Inductive loopPlace := Unlaunched | Launched | InRun | Selects | Returned.
#[export] Instance loopPlace_eq_dec : EqDecision loopPlace.
Proof. solve_decision. Defined.

(** [main]: in the loop of [Start], at its [<-ctx.Done()], in the [select] of
    [Stop], about to [Close] (with the error of [Stop]), gone; [Panics]: a
    goroutine has panicked, which ends the process. *)
Inductive mainPlace := Launching (i : nat) | AwaitsDone | InStop | InClose (e : option error) | Exits (r : result unit) | Panics.

(** [pr_ticks]: the channel of each ticker holds a tick; [pr_done]: [wg.Wait]
    has returned and closed [done]. *)
Record process := mkProcess {
  pr_jobs : list job; pr_places : list loopPlace; pr_ticks : list bool; pr_ctxDone : bool; pr_done : bool; pr_main : mainPlace }.
#[export] Instance eta_process : Eta process := fun s =>
  mkProcess (pr_jobs s) (pr_places s) (pr_ticks s) (pr_ctxDone s) (pr_done s) (pr_main s).

(** [Signal]: SIGINT or SIGTERM; [Tick i]: the ticker of job [i] fires;
    [Go i]: the next step of its goroutine that is not a choice of the
    [select]; [TakesTick i], [TakesDone i]: its choices; [Waiter]: the
    goroutine of [Stop]; [Main], [GivesUp]: [main], and the 15 seconds are over. *)
Inductive act := Signal | Tick (i : nat) | Go (i : nat) | TakesTick (i : nat) | TakesDone (i : nat) | Waiter | Main | GivesUp.
Inductive event := Quiet | Ticked (i : nat) | Begins (i : nat) | Ends (i : nat) | Closed.

Definition goesTo (i : nat) (p : loopPlace) (s : process) : process := s <| pr_places := <[i := p]> (pr_places s) |>.
Definition mainTo (m : mainPlace) (s : process) : process := s <| pr_main := m |>.

(** The wait group counts the goroutines started and not returned. *)
Definition counts (p : loopPlace) : bool := match p with Launched | InRun | Selects => true | _ => false end.
Definition idle (ps : list loopPlace) : bool := negb (existsb counts ps).

(** [Run] of the five jobs, which differ in [tickerOf] and [runsAtStart]. *)
Definition stepJob (s : process) (a : act) : option (process * event) :=
  match a with
  | Tick i =>
      match pr_places s !! i, pr_ticks s !! i with
      | Some InRun, Some false | Some Selects, Some false => Some (s <| pr_ticks := <[i := true]> (pr_ticks s) |>, Ticked i)
      | _, _ => None
      end
  | Go i =>
      match pr_places s !! i, pr_jobs s !! i with
      | Some Launched, Some j =>
          if tickerOf j <=? 0 then Some (mainTo Panics s, Quiet)
          else if runsAtStart j then Some (goesTo i InRun s, Begins i) else Some (goesTo i Selects s, Quiet)
      | Some InRun, _ => Some (goesTo i Selects s, Ends i)
      | _, _ => None
      end
  | TakesTick i =>
      match pr_places s !! i, pr_ticks s !! i with
      | Some Selects, Some true => Some (goesTo i InRun (s <| pr_ticks := <[i := false]> (pr_ticks s) |>), Begins i)
      | _, _ => None
      end
  | TakesDone i =>
      match pr_places s !! i with
      | Some Selects => if pr_ctxDone s then Some (goesTo i Returned s, Quiet) else None
      | _ => None
      end
  | _ => None
  end.

Section worker.
(** What [Close] answers. *)
Context (closed : result unit).

(** [Start] has returned: [run] goes on only if the error is a cancellation. *)
Definition afterStart (e : error) : mainPlace :=
  if errors_Is e CtxCanceled then InStop else Exits (Err (ErrWrap "worker: %w" e)).
Definition stepMain (s : process) (a : act) : option (process * event) :=
  match a, pr_main s with
  | Main, Launching i =>
      if (i <? length (pr_jobs s))%nat then Some (mainTo (Launching (S i)) (goesTo i Launched s), Quiet)
      else Some (mainTo AwaitsDone s, Quiet)
  | Main, AwaitsDone => if pr_ctxDone s then Some (mainTo (afterStart ctxCanceled) s, Quiet) else None
  | Main, InStop => if pr_done s then Some (mainTo (InClose None) s, Quiet) else None
  | Main, InClose e => Some (mainTo (Exits (match e with Some e => Err e | None => closed end)) s, Closed)
  | GivesUp, InStop => Some (mainTo (InClose (Some ctxDeadlineExceeded)) s, Quiet)
  | Waiter, InStop | Waiter, InClose _ =>
      if idle (pr_places s) && negb (pr_done s) then Some (s <| pr_done := true |>, Quiet) else None
  | Signal, _ => if pr_ctxDone s then None else Some (s <| pr_ctxDone := true |>, Quiet)
  | _, _ => None
  end.

Definition gone (m : mainPlace) : bool := match m with Exits _ | Panics => true | _ => false end.
Definition stepWorker (s : process) (a : act) : option (process * event) :=
  if gone (pr_main s) then None else
  match stepJob s a with Some r => Some r | None => stepMain s a end.

Inductive works : process -> list (act * event) -> process -> Prop :=
| works_nil s : works s [] s
| works_snoc s l s1 a e s2 : works s l s1 -> stepWorker s1 a = Some (s2, e) -> works s (l ++ [(a, e)]) s2.
End worker.

(** [run] up to [Start]: the configuration and the worker. *)
Definition startWorker (js : list job) : process :=
  mkProcess js (replicate (length js) Unlaunched) (replicate (length js) false) false false (Launching 0).
Definition workerMain {DB} (load : result WorkerConfig) (new : option WorkerConfig -> result (Worker (DB := DB))) : result process :=
  match load with
  | Err e => Err (ErrWrap "load config: %w" e)
  | Ok cfg =>
      match new (Some cfg) with
      | Err e => Err (ErrWrap "build worker: %w" e)
      | Ok w => Ok (startWorker (w_jobs w))
      end
  end.

(** ** The gateway process *)

(** [main]: at its [<-ctx.Done()], in [httpSrv.Shutdown], about to [Close], gone. *)
Inductive serverPlace := Serves | ShutsDown | Closes | Leaves (r : result unit).
(** [gp_listens]: the listener is open; [gp_active]: the requests under way. *)
Record gatewayProcess := mkGatewayProcess { gp_listens : bool; gp_active : Z; gp_ctxDone : bool; gp_main : serverPlace }.
#[export] Instance eta_gatewayProcess : Eta gatewayProcess := fun s =>
  mkGatewayProcess (gp_listens s) (gp_active s) (gp_ctxDone s) (gp_main s).
Inductive serverAct := SigTerm | ListenFails | Accept | Respond | Next | TimesOut.

(** [http.Server]: [Shutdown] closes the listener and returns when no request
    is under way or its context is done (here: 30 seconds). [ListenFails]: the
    goroutine that serves logs the error of [ListenAndServe] and calls
    [stop()]. The error of [Close] is logged. *)
Definition stepGateway (s : gatewayProcess) (a : serverAct) : option gatewayProcess :=
  match gp_main s, a with
  | Leaves _, _ => None
  | _, SigTerm => if gp_ctxDone s then None else Some (s <| gp_ctxDone := true |>)
  | _, ListenFails => if gp_listens s then Some (s <| gp_listens := false |> <| gp_ctxDone := true |>) else None
  | _, Accept => if gp_listens s then Some (s <| gp_active := gp_active s + 1 |>) else None
  | _, Respond => if 0 <? gp_active s then Some (s <| gp_active := gp_active s - 1 |>) else None
  | Serves, Next => if gp_ctxDone s then Some (s <| gp_listens := false |> <| gp_main := ShutsDown |>) else None
  | ShutsDown, Next => if gp_active s =? 0 then Some (s <| gp_main := Closes |>) else None
  | Closes, Next => Some (s <| gp_main := Leaves (Ok tt) |>)
  | ShutsDown, TimesOut => Some (s <| gp_main := Leaves (Err ctxDeadlineExceeded) |>)
  | _, _ => None
  end.

Definition startGateway : gatewayProcess := mkGatewayProcess true 0 false Serves.
Inductive gatewayWorks : gatewayProcess -> list serverAct -> gatewayProcess -> Prop :=
| gatewayWorks_nil s : gatewayWorks s [] s
| gatewayWorks_snoc s l s1 a s2 : gatewayWorks s l s1 -> stepGateway s1 a = Some s2 -> gatewayWorks s (l ++ [a]) s2.

(** ** The steps of the worker process *)
Inductive moves (closed : result unit) (s : process) : act -> process -> event -> Prop :=
| mv_signal : pr_ctxDone s = false -> moves closed s Signal (s <| pr_ctxDone := true |>) Quiet
| mv_tick i p : pr_places s !! i = Some p -> p = InRun \/ p = Selects -> pr_ticks s !! i = Some false ->
    moves closed s (Tick i) (s <| pr_ticks := <[i := true]> (pr_ticks s) |>) (Ticked i)
| mv_panic i j : pr_places s !! i = Some Launched -> pr_jobs s !! i = Some j -> tickerOf j <= 0 ->
    moves closed s (Go i) (mainTo Panics s) Quiet
| mv_begin i j : pr_places s !! i = Some Launched -> pr_jobs s !! i = Some j -> 0 < tickerOf j ->
    moves closed s (Go i) (goesTo i (if runsAtStart j then InRun else Selects) s) (if runsAtStart j then Begins i else Quiet)
| mv_end i : pr_places s !! i = Some InRun -> moves closed s (Go i) (goesTo i Selects s) (Ends i)
| mv_again i : pr_places s !! i = Some Selects -> pr_ticks s !! i = Some true ->
    moves closed s (TakesTick i) (goesTo i InRun (s <| pr_ticks := <[i := false]> (pr_ticks s) |>)) (Begins i)
| mv_return i : pr_places s !! i = Some Selects -> pr_ctxDone s = true -> moves closed s (TakesDone i) (goesTo i Returned s) Quiet
| mv_launch i : pr_main s = Launching i -> (i < length (pr_jobs s))%nat ->
    moves closed s Main (mainTo (Launching (S i)) (goesTo i Launched s)) Quiet
| mv_launched i : pr_main s = Launching i -> (length (pr_jobs s) <= i)%nat -> moves closed s Main (mainTo AwaitsDone s) Quiet
| mv_stop : pr_main s = AwaitsDone -> pr_ctxDone s = true -> moves closed s Main (mainTo InStop s) Quiet
| mv_waited : pr_main s = InStop \/ (exists e, pr_main s = InClose e) -> idle (pr_places s) = true -> pr_done s = false ->
    moves closed s Waiter (s <| pr_done := true |>) Quiet
| mv_stopped : pr_main s = InStop -> pr_done s = true -> moves closed s Main (mainTo (InClose None) s) Quiet
| mv_expired : pr_main s = InStop -> moves closed s GivesUp (mainTo (InClose (Some ctxDeadlineExceeded)) s) Quiet
| mv_close e : pr_main s = InClose e ->
    moves closed s Main (mainTo (Exits (match e with Some e => Err e | None => closed end)) s) Closed.

Lemma stepWorker_moves closed s a s' e : stepWorker closed s a = Some (s', e) -> moves closed s a s' e /\ gone (pr_main s) = false.
Proof.
  unfold stepWorker. destruct (gone (pr_main s)) eqn:Hg; [done|]. intros Hs. split; [|done].
  destruct a as [|i|i|i|i| | |]; cbn [stepJob stepMain] in Hs; repeat case_match; simplify_eq; bool_hyps;
    try match goal with H : (_ <? _)%nat = _ |- _ => apply Nat.ltb_lt in H || apply Nat.ltb_ge in H end;
    try (by econstructor; eauto).
  - pose proof (mv_begin closed s i j) as Hm. rewrite H4 in Hm. auto.
  - pose proof (mv_begin closed s i j) as Hm. rewrite H4 in Hm. auto.
  - by apply (mv_close closed s (Some e1)).
  - by apply (mv_close closed s None).
Qed.

(** ** The invariant *)
#[export] Instance event_eq_dec : EqDecision event.
Proof. solve_decision. Defined.
Definition times (e : event) (l : list (act * event)) : Z := len (filter (fun x => x.2 = e) l).
Definition acted (a : act) (l : list (act * event)) : Prop := a ∈ map fst l.
Definition one (b : bool) : Z := if b then 1 else 0.

Lemma times_snoc e l a e' : times e (l ++ [(a, e')]) = times e l + one (bool_decide (e' = e)).
Proof.
  unfold times. rewrite filter_app, len_app. f_equal. case_bool_decide.
  - by rewrite filter_cons_True.
  - by rewrite filter_cons_False.
Qed.
Lemma times_nonneg e l : 0 <= times e l. Proof. apply len_nonneg. Qed.
Lemma acted_snoc a l a' e : acted a (l ++ [(a', e)]) <-> acted a l \/ a = a'.
Proof. unfold acted. rewrite map_app. set_solver. Qed.

(** A job's goroutine is as far as its place says. *)
Definition started (p : loopPlace) : bool := match p with Unlaunched | Launched => false | _ => true end.
Record jobOk (s : process) (l : list (act * event)) (i : nat) (j : job) (p : loopPlace) (tick : bool) : Prop := {
  jo_open : times (Begins i) l = times (Ends i) l + one (bool_decide (p = InRun));
  jo_ticks : times (Begins i) l + one tick = times (Ticked i) l + one (started p && runsAtStart j);
  jo_returned : p = Returned -> pr_ctxDone s = true
}.

Definition launchedOk (m : mainPlace) (ps : list loopPlace) : Prop :=
  match m with
  | Launching k => forall i p, ps !! i = Some p -> (k <= i)%nat <-> p = Unlaunched
  | Panics => True
  | _ => forall i p, ps !! i = Some p -> p <> Unlaunched
  end.
(** What [main] knows where it is. *)
Definition mainOk (closed : result unit) (s : process) (l : list (act * event)) : Prop :=
  match pr_main s with
  | Launching _ | AwaitsDone => pr_done s = false /\ times Closed l = 0
  | InStop => pr_ctxDone s = true /\ times Closed l = 0
  | InClose None => pr_ctxDone s = true /\ pr_done s = true /\ times Closed l = 0
  | InClose (Some e) => pr_ctxDone s = true /\ e = ctxDeadlineExceeded /\ acted GivesUp l /\ times Closed l = 0
  | Exits r => pr_ctxDone s = true /\ (exists l', l = l' ++ [(Main, Closed)] /\ times Closed l' = 0) /\
      (r = Err ctxDeadlineExceeded /\ acted GivesUp l \/ r = closed /\ pr_done s = true)
  | Panics => times Closed l = 0
  end.

Record workInv (closed : result unit) (js : list job) (s : process) (l : list (act * event)) : Prop := {
  wi_jobs : pr_jobs s = js;
  wi_length : length (pr_places s) = length js /\ length (pr_ticks s) = length js;
  wi_ok : forall i j p t, pr_jobs s !! i = Some j -> pr_places s !! i = Some p -> pr_ticks s !! i = Some t -> jobOk s l i j p t;
  wi_launched : launchedOk (pr_main s) (pr_places s);
  wi_panics : Forall (fun j => 0 < tickerOf j) js -> pr_main s <> Panics;
  wi_signal : pr_ctxDone s = true <-> acted Signal l;
  wi_done : pr_done s = true -> forall i p, pr_places s !! i = Some p -> p = Returned;
  wi_main : mainOk closed s l
}.

Ltac process_fields := cbn [goesTo mainTo pr_jobs pr_places pr_ticks pr_ctxDone pr_done pr_main upd eta_expand eta_process] in *.

(** A step of something else leaves a job as it is. *)
Lemma jobOk_frame s l i j p t s' a e : jobOk s l i j p t -> (pr_ctxDone s = true -> pr_ctxDone s' = true) ->
  e <> Begins i -> e <> Ends i -> e <> Ticked i -> jobOk s' (l ++ [(a, e)]) i j p t.
Proof.
  intros [Ho Ht Hr] Hc Hb He Hk. split; [..|by auto]; rewrite !times_snoc, !bool_decide_false by done; cbn [one]; lia.
Qed.

(** The jobs after a step of the goroutine of job [i]. *)
Lemma moved_ok s l i j p0 t0 p' t' e a s' : (forall i0 j p t, pr_jobs s !! i0 = Some j -> pr_places s !! i0 = Some p -> pr_ticks s !! i0 = Some t -> jobOk s l i0 j p t) ->
  pr_places s !! i = Some p0 -> pr_ticks s !! i = Some t0 -> pr_jobs s !! i = Some j ->
  pr_ctxDone s' = pr_ctxDone s -> pr_jobs s' = pr_jobs s ->
  pr_places s' = <[i := p']> (pr_places s) -> pr_ticks s' = <[i := t']> (pr_ticks s) ->
  (forall i0, i0 <> i -> e <> Begins i0 /\ e <> Ends i0 /\ e <> Ticked i0) ->
  (jobOk s l i j p0 t0 -> jobOk s' (l ++ [(a, e)]) i j p' t') ->
  forall i0 j p t, pr_jobs s' !! i0 = Some j -> pr_places s' !! i0 = Some p -> pr_ticks s' !! i0 = Some t -> jobOk s' (l ++ [(a, e)]) i0 j p t.
Proof.
  intros Hok Hp Ht Hj Hc Hjs Hps Hts He Hi i0 j0 p t. rewrite Hjs, Hps, Hts. intros Hj0 Hp0 Ht0.
  destruct (decide (i0 = i)) as [->|Hn].
  - rewrite list_lookup_insert_eq in Hp0 by (by eapply lookup_lt_Some). rewrite list_lookup_insert_eq in Ht0 by (by eapply lookup_lt_Some). simplify_eq. by apply Hi, Hok.
  - rewrite list_lookup_insert_ne in Hp0 by done. rewrite list_lookup_insert_ne in Ht0 by done. destruct (He i0) as (? & ? & ?); [done|].
    eapply jobOk_frame; [by apply Hok|congruence|done..].
Qed.

(** Count the events of a job after a step of its own. *)
Ltac recount := intros [Ho Htk Hr]; split; rewrite ?times_snoc; process_fields; repeat case_bool_decide; try congruence;
  cbn [started andb one] in *; try lia; try done.

Lemma moves_ok closed s a s' e l : moves closed s a s' e ->
  length (pr_places s) = length (pr_jobs s) -> length (pr_ticks s) = length (pr_jobs s) ->
  (forall k p, pr_main s = Launching k -> pr_places s !! k = Some p -> p = Unlaunched) ->
  (forall i j p t, pr_jobs s !! i = Some j -> pr_places s !! i = Some p -> pr_ticks s !! i = Some t -> jobOk s l i j p t) ->
  forall i j p t, pr_jobs s' !! i = Some j -> pr_places s' !! i = Some p -> pr_ticks s' !! i = Some t -> jobOk s' (l ++ [(a, e)]) i j p t.
Proof.
  intros Hm Hlp Hlt Hun Hok.
  assert (Hsome : forall i, (i < length (pr_jobs s))%nat -> exists j p t, pr_jobs s !! i = Some j /\ pr_places s !! i = Some p /\ pr_ticks s !! i = Some t).
  { intros i Hi. destruct (lookup_lt_is_Some_2 (pr_jobs s) i Hi) as [j Hj].
    destruct (lookup_lt_is_Some_2 (pr_places s) i ltac:(lia)) as [p Hp].
    destruct (lookup_lt_is_Some_2 (pr_ticks s) i ltac:(lia)) as [t Ht]. by exists j, p, t. }
  assert (Hin : forall i p, pr_places s !! i = Some p -> exists j t, pr_jobs s !! i = Some j /\ pr_ticks s !! i = Some t).
  { intros i p Hp. destruct (Hsome i) as (j & p' & t & Hj & _ & Ht); [|by exists j, t]. apply lookup_lt_Some in Hp. lia. }
  destruct Hm as [Hd|i p Hp Hpp Ht|i j Hp Hj Hk|i j Hp Hj Hk|i Hp|i Hp Ht|i Hp Hd|i Hm Hi|i Hm Hi|Hm Hd|Hm Hi Hd|Hm Hd|Hm|e Hm];
    try (intros i0 j0 p0 t0 Hj0 Hp0 Ht0; process_fields; eapply jobOk_frame; [by apply Hok|done..]).
  - destruct (Hin _ _ Hp) as (j & t & Hj & _). eapply (moved_ok s l i j p false p true); try done; [|naive_solver|recount].
    cbn. by rewrite list_insert_id.
  - destruct (Hin _ _ Hp) as (j' & t & Hj' & Ht). eapply (moved_ok s l i j Launched t _ t); try done.
    + cbn. by rewrite list_insert_id.
    + destruct (runsAtStart j); naive_solver.
    + destruct (runsAtStart j) eqn:Hs; recount; rewrite ?Hs in *; cbn [one] in *; lia.
  - destruct (Hin _ _ Hp) as (j & t & Hj & Ht). eapply (moved_ok s l i j InRun t _ t); try done; [|naive_solver|recount].
    cbn. by rewrite list_insert_id.
  - destruct (Hin _ _ Hp) as (j & t & Hj & _). eapply (moved_ok s l i j Selects true _ false); try done; [naive_solver|recount].
  - destruct (Hin _ _ Hp) as (j & t & Hj & Ht). eapply (moved_ok s l i j Selects t _ t); try done; [|recount].
    cbn. by rewrite list_insert_id.
  - destruct (Hsome _ Hi) as (j & p & t & Hj & Hp & Ht). rewrite (Hun i p Hm Hp) in Hp.
    eapply (moved_ok s l i j Unlaunched t _ t); try done; [|recount]. cbn. by rewrite list_insert_id.
Qed.

Lemma workInv_start closed js : workInv closed js (startWorker js) [].
Proof.
  split; cbn [startWorker pr_jobs pr_places pr_ticks pr_ctxDone pr_done pr_main]; try done.
  - by rewrite !length_replicate.
  - intros i j p t _ [-> _]%lookup_replicate [-> _]%lookup_replicate. by split.
  - intros i p [-> _]%lookup_replicate. split; [done|lia].
  - unfold acted. split; [done|]. by intros ?%elem_of_nil.
Qed.

Lemma moves_signal closed s a s' e l : moves closed s a s' e ->
  (pr_ctxDone s = true <-> acted Signal l) -> (pr_ctxDone s' = true <-> acted Signal (l ++ [(a, e)])).
Proof. intros Hm Hs. rewrite acted_snoc, <- Hs. destruct Hm; process_fields; naive_solver. Qed.

(** The goroutine of a job that has begun and not returned, at a step. *)
Lemma launchedOk_insert m ps i p p' : launchedOk m ps -> ps !! i = Some p -> p <> Unlaunched -> p' <> Unlaunched ->
  launchedOk m (<[i := p']> ps).
Proof.
  intros Hl Hp Hn Hn'. destruct m as [k|k|k|k|k|]; [|..|done]; intros i0 p0 [(<- & <- & _)|[_ H0]]%list_lookup_insert_Some;
    try done; try (by eapply Hl). specialize (Hl _ _ Hp). tauto.
Qed.

Lemma moves_launched closed s a s' e : moves closed s a s' e -> launchedOk (pr_main s) (pr_places s) ->
  length (pr_places s) = length (pr_jobs s) -> launchedOk (pr_main s') (pr_places s').
Proof.
  intros Hm Hl Hlen.
  destruct Hm as [Hd|i p Hp Hpp Ht|i j Hp Hj Hk|i j Hp Hj Hk|i Hp|i Hp Ht|i Hp Hd|i Hm Hi|i Hm Hi|Hm Hd|Hm Hi Hd|Hm Hd|Hm|e Hm];
    process_fields; try done; try (rewrite Hm in Hl; done); try (eapply launchedOk_insert; [done|exact Hp|done|done]).
  - eapply launchedOk_insert; [done|exact Hp|done|by destruct (runsAtStart j)].
  - rewrite Hm in Hl. intros i0 p [(<- & <- & _)|[Hn Hp]]%list_lookup_insert_Some; [split; [lia|done]|].
    specialize (Hl _ _ Hp). rewrite <- Hl. lia.
  - rewrite Hm in Hl. intros i0 p Hp ->. pose proof (lookup_lt_Some _ _ _ Hp). apply Hl in Hp as [_ Hp]. specialize (Hp eq_refl). lia.
Qed.

Lemma idle_returned ps i p : idle ps = true -> (forall i p, ps !! i = Some p -> p <> Unlaunched) -> ps !! i = Some p -> p = Returned.
Proof.
  unfold idle. intros Hi%negb_true_iff Hu Hp. assert (Hc : counts p = false).
  { destruct (counts p) eqn:Hc; [|done]. rewrite <- not_true_iff_false, existsb_exists in Hi. destruct Hi. exists p.
    split; [|done]. apply list_elem_of_In. by eapply list_elem_of_lookup_2. }
  specialize (Hu _ _ Hp). by destruct p.
Qed.

Lemma moves_done closed s a s' e : moves closed s a s' e -> launchedOk (pr_main s) (pr_places s) ->
  (pr_main s = AwaitsDone \/ (exists k, pr_main s = Launching k) -> pr_done s = false) ->
  (pr_done s = true -> forall i p, pr_places s !! i = Some p -> p = Returned) ->
  pr_done s' = true -> forall i p, pr_places s' !! i = Some p -> p = Returned.
Proof.
  intros Hm Hl Hm0 Hd0.
  destruct Hm as [Hd|i p Hp Hpp Ht|i j Hp Hj Hk|i j Hp Hj Hk|i Hp|i Hp Ht|i Hp Hd|i Hm Hi|i Hm Hi|Hm Hd|Hm Hi Hd|Hm Hd|Hm|e Hm];
    process_fields; try done; try (intros Hdone; by specialize (Hd0 Hdone _ _ Hp)).
  - rewrite Hm0 by eauto. done.
  - intros _ i p. apply idle_returned; [done|]. by destruct Hm as [Hm|[x Hm]]; rewrite Hm in Hl.
Qed.

(** A step that leaves [main] where it is, and [Closed] alone. *)
Lemma mainOk_frame closed s l s' a e : mainOk closed s l -> gone (pr_main s) = false -> pr_main s' = pr_main s ->
  pr_done s' = pr_done s -> (pr_ctxDone s = true -> pr_ctxDone s' = true) -> e <> Closed -> mainOk closed s' (l ++ [(a, e)]).
Proof.
  unfold mainOk. intros Hm Hg -> -> Hc He. destruct (pr_main s) as [k| | |[e0|]|r|]; try done;
    rewrite !times_snoc, (bool_decide_false (e = Closed)), ?acted_snoc by done; cbn [one]; rewrite ?Z.add_0_r; tauto.
Qed.

Lemma moves_main closed s a s' e l : moves closed s a s' e -> gone (pr_main s) = false -> mainOk closed s l ->
  mainOk closed s' (l ++ [(a, e)]).
Proof.
  intros Hm Hg Hok.
  destruct Hm as [Hd|i p Hp Hpp Ht|i j Hp Hj Hk|i j Hp Hj Hk|i Hp|i Hp Ht|i Hp Hd|i Hm Hi|i Hm Hi|Hm Hd|Hm Hi Hd|Hm Hd|Hm|e Hm];
    try (eapply mainOk_frame; [exact Hok|done..|done || by destruct (runsAtStart j)]); unfold mainOk in *; process_fields; rewrite ?times_snoc, ?acted_snoc;
    rewrite ?(bool_decide_false (Quiet = Closed)) by done; cbn [one].
  - destruct (pr_main s) as [k| | |[e0|]|r|]; try done; destruct_and?; lia.
  - rewrite Hm in Hok. destruct Hok. split; [done|lia].
  - rewrite Hm in Hok. destruct Hok. split; [done|lia].
  - rewrite Hm in Hok. destruct Hok. split; [done|lia].
  - destruct Hm as [Hm|[[e0|] Hm]]; rewrite Hm in *; rewrite ?times_snoc, ?acted_snoc, ?(bool_decide_false (Quiet = Closed)) by done; cbn [one]; rewrite ?Z.add_0_r; tauto.
  - rewrite Hm in Hok. destruct Hok. split; [done|]. split; [done|lia].
  - rewrite Hm in Hok. destruct Hok. split; [done|]. split; [done|]. split; [by right|lia].
  - rewrite Hm in Hok. destruct e as [e|]; (split; [tauto|split; [exists l; split; [done|tauto]|]]).
    + left. destruct Hok as (_ & -> & Hg' & _). split; [done|by left].
    + right. tauto.
Qed.

Lemma moves_inv closed js s a s' e l : workInv closed js s l -> gone (pr_main s) = false -> moves closed s a s' e ->
  workInv closed js s' (l ++ [(a, e)]).
Proof.
  intros [Hj [Hlp Hlt] Hok Hla Hpa Hsi Hdo Hma] Hg Hm. subst js. split.
  - by destruct Hm.
  - destruct Hm; process_fields; by rewrite ?length_insert.
  - eapply moves_ok; try done. intros k p Hk Hp. rewrite Hk in Hla. specialize (Hla _ _ Hp). apply Hla. lia.
  - by eapply moves_launched.
  - destruct Hm as [Hd|i p Hp Hpp Ht|i j Hp Hj Hk|i j Hp Hj Hk|i Hp|i Hp Ht|i Hp Hd|i Hm Hi|i Hm Hi|Hm Hd|Hm Hi Hd|Hm Hd|Hm|e Hm]; process_fields; try done.
    rewrite Forall_forall. intros Hall. assert (0 < tickerOf j) by (apply Hall; by eapply list_elem_of_lookup_2). lia.
  - by eapply moves_signal.
  - eapply moves_done; [done..| |done]. unfold mainOk in Hma. intros [Hx|[k Hx]]; rewrite Hx in Hma; tauto.
  - by eapply moves_main.
Qed.

Lemma works_inv closed js l s : works closed (startWorker js) l s -> workInv closed js s l.
Proof.
  remember (startWorker js) as s0. induction 1 as [|s l s1 a e s2 _ IH Hs]; subst; [apply workInv_start|].
  destruct (stepWorker_moves _ _ _ _ _ Hs) as [Hm Hg]. eapply moves_inv; [by apply IH|done|done].
Qed.

Lemma launch_unlaunched closed js s l k p : workInv closed js s l -> pr_main s = Launching k -> pr_places s !! k = Some p -> p = Unlaunched.
Proof. intros Hi Hk Hp. pose proof (wi_launched _ _ _ _ Hi) as Hl. rewrite Hk in Hl. specialize (Hl _ _ Hp). apply Hl. lia. Qed.

(** ** What is left to do *)
Definition effort (p : loopPlace) : Z := match p with Returned => 0 | Selects => 1 | InRun => 2 | Launched => 3 | Unlaunched => 4 end.
Definition mainEffort (m : mainPlace) : Z :=
  match m with Launching _ => 5 | AwaitsDone => 4 | InStop => 3 | InClose _ => 1 | Exits _ | Panics => 0 end.
Definition workLoad (s : process) : Z :=
  sumOver effort (pr_places s) + sumOver (fun t => 2 * one t) (pr_ticks s) + mainEffort (pr_main s)
  + one (negb (pr_ctxDone s)) + one (negb (pr_done s)).
Definition isTick (a : act) : bool := match a with Tick _ => true | _ => false end.
Definition fired (l : list (act * event)) : Z := len (List.filter (fun x => isTick x.1) l).

Lemma fired_snoc l a e : fired (l ++ [(a, e)]) = fired l + one (isTick a).
Proof. unfold fired. rewrite List.filter_app, len_app. by destruct a. Qed.

Lemma workLoad_nonneg s : 0 <= workLoad s.
Proof.
  unfold workLoad. pose proof (sumOver_nonneg effort (pr_places s) ltac:(by intros [])).
  pose proof (sumOver_nonneg (fun t => 2 * one t) (pr_ticks s) ltac:(by intros [])).
  destruct (pr_main s), (pr_ctxDone s), (pr_done s); cbn [mainEffort negb one]; lia.
Qed.

Lemma moves_load closed js l s a s' e : workInv closed js s l -> moves closed s a s' e -> gone (pr_main s) = false ->
  workLoad s' + 1 <= workLoad s + 3 * one (isTick a).
Proof.
  intros Hi Hm Hg. assert (Hlen : length (pr_places s) = length (pr_jobs s)) by (by rewrite (wi_jobs _ _ _ _ Hi), (proj1 (wi_length _ _ _ _ Hi))).
  unfold workLoad.
  destruct Hm as [Hd|i p Hp Hpp Ht|i j Hp Hj Hk|i j Hp Hj Hk|i Hp|i Hp Ht|i Hp Hd|i Hm Hlt|i Hm Hlt|Hm Hd|Hm Hid Hd|Hm Hd|Hm|e Hm];
    process_fields; cbn [isTick one]; rewrite ?Hm;
    try (erewrite (sumOver_insert effort) by exact Hp); try (erewrite sumOver_insert by exact Ht); cbn [effort mainEffort one]; try lia.
  - rewrite Hd. cbn [negb one]. lia.
  - assert (1 <= mainEffort (pr_main s)); [by destruct (pr_main s)|lia].
  - destruct (runsAtStart j); cbn [effort]; lia.
  - destruct (lookup_lt_is_Some_2 (pr_places s) i ltac:(lia)) as [p Hp]. pose proof (launch_unlaunched _ _ _ _ _ _ Hi Hm Hp) as ->.
    erewrite (sumOver_insert effort) by exact Hp. cbn [effort]. lia.
  - rewrite Hd. cbn [negb one]. lia.
Qed.

Lemma works_load closed js l s : works closed (startWorker js) l s -> len l + workLoad s <= 4 * len js + 7 + 3 * fired l.
Proof.
  remember (startWorker js) as s0. induction 1 as [|s l s1 a e s2 Hr IH Hs]; subst.
  - unfold workLoad. cbn [startWorker pr_places pr_ticks pr_main pr_ctxDone pr_done]. rewrite !sumOver_replicate.
    cbn [effort mainEffort one negb]. change (fired []) with 0. change (@len (act * event) []) with 0. unfold len. lia.
  - specialize (IH eq_refl). destruct (stepWorker_moves _ _ _ _ _ Hs) as [Hm Hg].
    rewrite len_app, fired_snoc. change (len [(a, e)]) with 1. enough (workLoad s2 + 1 <= workLoad s1 + 3 * one (isTick a)) by lia.
    eapply moves_load; [by apply works_inv|done..].
Qed.

(** Once the signal is there, something other than a ticker, a signal and the
    end of the grace period can happen until the process is gone. *)
Definition orderly (a : act) : bool := match a with Tick _ | Signal | GivesUp => false | _ => true end.
Lemma work_progress closed js l s : workInv closed js s l -> pr_ctxDone s = true -> gone (pr_main s) = false ->
  exists a s' e, orderly a = true /\ stepWorker closed s a = Some (s', e).
Proof.
  intros Hi Hd Hg. unfold stepWorker. rewrite Hg. destruct (pr_main s) as [k| | |e|r|] eqn:Hm; try done.
  - exists Main. cbn [stepJob stepMain]. rewrite Hm. destruct (_ <? _)%nat; by do 2 eexists.
  - exists Main. cbn [stepJob stepMain]. rewrite Hm, Hd. by do 2 eexists.
  - destruct (pr_done s) eqn:Hdo.
    { exists Main. cbn [stepJob stepMain]. rewrite Hm, Hdo. by do 2 eexists. }
    destruct (idle (pr_places s)) eqn:Hid.
    { exists Waiter. cbn [stepJob stepMain]. rewrite Hm, Hid, Hdo. by do 2 eexists. }
    apply negb_false_iff, existsb_exists in Hid as (p & Hp & Hc). apply list_elem_of_In, list_elem_of_lookup in Hp as [i Hp].
    destruct p; try done.
    + assert (Hlt := lookup_lt_Some _ _ _ Hp). rewrite (proj1 (wi_length _ _ _ _ Hi)), <- (wi_jobs _ _ _ _ Hi) in Hlt.
      destruct (lookup_lt_is_Some_2 _ _ Hlt) as [j Hj]. exists (Go i). cbn [stepJob]. rewrite Hp, Hj.
      destruct (tickerOf j <=? 0); [by do 2 eexists|]. destruct (runsAtStart j); by do 2 eexists.
    + exists (Go i). cbn [stepJob]. rewrite Hp. by do 2 eexists.
    + exists (TakesDone i). cbn [stepJob]. rewrite Hp, Hd. by do 2 eexists.
  - exists Main. cbn [stepJob stepMain]. rewrite Hm. by do 2 eexists.
Qed.

Lemma works_app closed s l s1 l' s2 : works closed s l s1 -> works closed s1 l' s2 -> works closed s (l ++ l') s2.
Proof.
  intros H. induction 1 as [|s1 l1 s3 a e s4 _ IH Hs]; [by rewrite app_nil_r|]. rewrite app_assoc. econstructor; [by apply IH|done].
Qed.

Lemma work_ends closed js n l s : works closed (startWorker js) l s -> pr_ctxDone s = true -> workLoad s <= Z.of_nat n ->
  exists l' s', works closed (startWorker js) (l ++ l') s' /\ gone (pr_main s') = true /\ forallb (fun x => orderly x.1) l' = true.
Proof.
  revert l s. induction n as [|n IH]; intros l s Hr Hd Hn; destruct (gone (pr_main s)) eqn:Hg;
    try (exists [], s; rewrite app_nil_r; done); pose proof (works_inv _ _ _ _ Hr) as Hi;
    destruct (work_progress _ _ _ _ Hi Hd Hg) as (a & s1 & e & Ho & Hs); destruct (stepWorker_moves _ _ _ _ _ Hs) as [Hm _];
    pose proof (moves_load _ _ _ _ _ _ _ Hi Hm Hg) as Hload;
    assert (Hnt : isTick a = false) by (by destruct a); rewrite Hnt in Hload; cbn [one] in Hload.
  - pose proof (workLoad_nonneg s1). lia.
  - destruct (IH (l ++ [(a, e)]) s1) as (l' & s' & Hr' & Hg' & Ho').
    + by econstructor.
    + destruct (moves_signal _ _ _ _ _ l Hm (wi_signal _ _ _ _ Hi)) as [_ Hx]. apply Hx. apply acted_snoc. left. by apply (wi_signal _ _ _ _ Hi).
    + lia.
    + exists ((a, e) :: l'), s'. rewrite <- app_assoc in Hr'. split; [done|]. split; [done|]. cbn. by rewrite Ho.
Qed.

(** ** Properties *)

(** What [main] starts: the jobs of the configuration, none in development. *)
Lemma workerMain_jobs {DB} (Open : string -> result DB) order now pathOf readFile decode file fd fm s :
  workerMain (LoadWorker readFile decode file) (fun cfg => New Open order now pathOf cfg fd fm) = Ok s ->
  exists c js, LoadWorker readFile decode file = Ok c /\ s = startWorker js /\ (js = [] \/ js = buildJobs c true).
Proof.
  unfold workerMain. destruct (LoadWorker _ _ _) as [c|e]; [|done]. unfold New. destruct (negb _ && _); cbn [w_jobs].
  - intros [= <-]. exists c, []. split; [done|]. split; [done|by left].
  - destruct (buildDeps _ _ _ _ _ _ _) as [d|e]; [|done]. intros [= <-]. exists c, (buildJobs c true). split; [done|]. split; [done|by right].
Qed.

(** Every event of every job, between the start of the process and now. *)
Lemma runs_in_order closed js l s i j : works closed (startWorker js) l s -> js !! i = Some j ->
  times (Ends i) l <= times (Begins i) l <= times (Ends i) l + 1 /\ times (Begins i) l <= times (Ticked i) l + one (runsAtStart j) /\
  (pr_done s = true -> times (Begins i) l = times (Ends i) l).
Proof.
  intros Hr Hj. pose proof (works_inv _ _ _ _ Hr) as Hi. destruct (wi_length _ _ _ _ Hi) as [Hp Ht].
  pose proof (lookup_lt_Some _ _ _ Hj) as Hlt. rewrite <- Hp in Hlt at 1. destruct (lookup_lt_is_Some_2 _ _ Hlt) as [p Hpi].
  rewrite Hp, <- Ht in Hlt. destruct (lookup_lt_is_Some_2 _ _ Hlt) as [t Hti].
  destruct (wi_ok _ _ _ _ Hi i j p t) as [Ho Hk _]; [by rewrite (wi_jobs _ _ _ _ Hi)|done|done|].
  split; [case_bool_decide; cbn [one] in Ho; lia|]. split; [destruct t, (started p), (runsAtStart j); cbn [one andb] in *; lia|].
  intros Hd. rewrite (wi_done _ _ _ _ Hi Hd _ _ Hpi) in Ho. rewrite bool_decide_false in Ho by done. cbn [one] in Ho. lia.
Qed.

(** C39: The worker process, whatever the schedule of its goroutines: the runs
    of a job never overlap and there is one for each tick at most, besides the
    first; no goroutine panics unless a configured interval overflows; the
    process exits only after a signal and right after closing everything, once;
    and when it reports what [Close] answers - anything but the time-out of
    [Stop] - no run of a job is cut off by the closing. *)
Theorem worker_shutdown {DB} (Open : string -> result DB) order now pathOf readFile decode file fd fm closed s0 l s :
  workerMain (LoadWorker readFile decode file) (fun cfg => New Open order now pathOf cfg fd fm) = Ok s0 -> works closed s0 l s ->
  (forall i j, pr_jobs s0 !! i = Some j -> times (Ends i) l <= times (Begins i) l <= times (Ends i) l + 1 /\
     times (Begins i) l <= times (Ticked i) l + one (runsAtStart j)) /\
  (pr_main s = Panics -> exists c, LoadWorker readFile decode file = Ok c /\
     (9223372036854 < wk_PromoteIntervalMs c \/ 9223372036854 < wk_RepairIntervalMs c)) /\
  (forall r, pr_main s = Exits r -> acted Signal l /\ (exists l', l = l' ++ [(Main, Closed)] /\ times Closed l' = 0) /\
     (r = Err ctxDeadlineExceeded /\ acted GivesUp l \/
      r = closed /\ forall i j, pr_jobs s0 !! i = Some j -> times (Begins i) l = times (Ends i) l)).
Proof.
  intros (c & js & Hc & -> & Hjs)%workerMain_jobs Hr. pose proof (works_inv _ _ _ _ Hr) as Hi. cbn [startWorker pr_jobs].
  split; [|split].
  - intros i j Hj. destruct (runs_in_order _ _ _ _ _ _ Hr Hj) as (H1 & H2 & _). done.
  - intros Hp. exists c. split; [done|]. destruct (Z.le_gt_cases (wk_PromoteIntervalMs c) 9223372036854); [|left; lia].
    destruct (Z.le_gt_cases (wk_RepairIntervalMs c) 9223372036854); [|right; lia]. exfalso.
    apply (wi_panics _ _ _ _ Hi); [|done]. destruct Hjs as [->| ->]; [done|by apply tickers_positive].
  - intros r Hx. pose proof (wi_main _ _ _ _ Hi) as Hm. unfold mainOk in Hm. rewrite Hx in Hm.
    destruct Hm as (Hd & Hl & Hm). split; [by apply (wi_signal _ _ _ _ Hi)|]. split; [done|].
    destruct Hm as [Hm|[-> Hdone]]; [by left|right]. split; [done|]. intros i j Hj.
    destruct (runs_in_order _ _ _ _ _ _ Hr Hj) as (_ & _ & He). by apply He.
Qed.

(** C40: The worker process ends: its steps are bounded by the ticks of its
    tickers; after a signal, from wherever it is and without any tick or
    time-out, letting the runs under way end lets the process exit; and even
    with a run that never ends it exits when the grace period of [Stop] is over. *)
Theorem worker_ends closed js l s : works closed (startWorker js) l s ->
  len l <= 4 * len js + 7 + 3 * fired l /\
  (Forall (fun j => 0 < tickerOf j) js -> acted Signal l -> exists l' s' r, works closed (startWorker js) (l ++ l') s' /\
     forallb (fun x => orderly x.1) l' = true /\ pr_main s' = Exits r) /\
  (pr_main s = InStop -> exists s', works closed (startWorker js) (l ++ [(GivesUp, Quiet); (Main, Closed)]) s' /\
     pr_main s' = Exits (Err ctxDeadlineExceeded)).
Proof.
  intros Hr. pose proof (works_inv _ _ _ _ Hr) as Hi. split; [|split].
  - pose proof (works_load _ _ _ _ Hr). pose proof (workLoad_nonneg s). lia.
  - intros Hp Ha. destruct (work_ends closed js (Z.to_nat (workLoad s)) l s Hr) as (l' & s' & Hr' & Hg & Ho).
    + by apply (wi_signal _ _ _ _ Hi).
    + pose proof (workLoad_nonneg s). lia.
    + pose proof (wi_panics _ _ _ _ (works_inv _ _ _ _ Hr') Hp). destruct (pr_main s') as [| | | |r|] eqn:Hx; try done. by exists l', s', r.
  - intros Hs. eexists. split.
    + eapply (works_app _ _ l s); [done|]. eapply (works_snoc _ _ [_]); [eapply (works_snoc _ _ [])|]; [constructor| |].
      * unfold stepWorker. rewrite Hs. cbn [gone stepJob stepMain]. rewrite Hs. reflexivity.
      * unfold stepWorker. cbn. reflexivity.
    + reflexivity.
Qed.

(** ** The gateway process *)

(** Whenever [main] has left: without an error, the listener was closed, no
    request was under way and [Close] has run; with one, [Shutdown] timed out. *)
Lemma gateway_leaves l s : gatewayWorks startGateway l s -> 0 <= gp_active s /\
  match gp_main s with
  | Serves => True
  | ShutsDown => gp_listens s = false /\ gp_ctxDone s = true
  | Closes => gp_listens s = false /\ gp_ctxDone s = true /\ gp_active s = 0
  | Leaves (Ok _) => gp_listens s = false /\ gp_ctxDone s = true /\ gp_active s = 0
  | Leaves (Err e) => gp_listens s = false /\ gp_ctxDone s = true /\ e = ctxDeadlineExceeded /\ TimesOut ∈ l
  end.
Proof.
  remember startGateway as s0. induction 1 as [|s l s1 a s2 _ IH Hs]; subst; [done|]. specialize (IH eq_refl).
  unfold stepGateway in Hs. destruct IH as [Ha IH].
  destruct (gp_main s1) as [| | |r] eqn:Hm, a; cbn in Hs; try discriminate Hs;
    try (destruct (gp_ctxDone s1) eqn:Hc; cbn in Hs; try discriminate Hs); try (destruct (gp_listens s1) eqn:Hl; cbn in Hs; try discriminate Hs);
    try (destruct (0 <? gp_active s1) eqn:Hp; try discriminate Hs); try (destruct (gp_active s1 =? 0) eqn:H0; try discriminate Hs);
    injection Hs as <-; bool_hyps; cbn; rewrite ?Hm; repeat split; try tauto; try lia; naive_solver lia || set_solver.
Qed.

(** A run of the process along a list of actions. *)
Fixpoint perform (closed : result unit) (s : process) (acts : list act) : option (list (act * event) * process) :=
  match acts with
  | [] => Some ([], s)
  | a :: acts => '(s1, e) ← stepWorker closed s a; '(l, s') ← perform closed s1 acts; Some ((a, e) :: l, s')
  end.
Lemma perform_works closed s acts l s' : perform closed s acts = Some (l, s') -> works closed s l s'.
Proof.
  revert s l s'. induction acts as [|a acts IH]; cbn; intros s l s'; [intros [= <- <-]; constructor|].
  destruct (stepWorker closed s a) as [[s1 e]|] eqn:Hs; [|done]. cbn. destruct (perform closed s1 acts) as [[l1 s2]|] eqn:Hp; [|done].
  cbn. intros [= <- <-]. apply (works_app _ _ [(a, e)] s1 l1); [|by apply IH]. by eapply (works_snoc _ _ []); [constructor|].
Qed.
Fixpoint performGateway (s : gatewayProcess) (acts : list serverAct) : option gatewayProcess :=
  match acts with [] => Some s | a :: acts => s1 ← stepGateway s a; performGateway s1 acts end.

(** A gateway that cannot listen exits as if all were well. *)
Example listen_failure_exits_ok : gp_main <$> performGateway startGateway [ListenFails; Next; Next; Next] = Some (Leaves (Ok tt)).
Proof. reflexivity. Qed.
(** A request longer than the grace period: the gateway exits without [Close]. *)
Example long_request_skips_close :
  gp_main <$> performGateway startGateway [Accept; SigTerm; Next; TimesOut] = Some (Leaves (Err ctxDeadlineExceeded)).
Proof. reflexivity. Qed.

(** ** Witnesses *)
Definition ex_main := workerMain (LoadWorker (fun _ => Ok []) (fun _ => Ok ex_config) "/etc/worker.json")
  (fun cfg => New (fun _ => Ok tt) id 0 (fun s => [s]) cfg ∅ ∅).
Definition ex_process := startWorker (buildJobs (workerDefaults (migrateWorker ex_config)) true).
Definition launches : list act := [Main; Main; Main; Main; Main; Main; Go 0; Go 1; Go 2; Go 3; Go 4].
(** The promotion job runs at the start and at a tick; then the signal. *)
Definition ex_day : list act := launches ++ [Go 0; Go 3; Tick 0; TakesTick 0; Signal; Main; Go 0] ++
  map TakesDone (seq 0 5) ++ [Waiter; Main; Main].

(** Without an end of the run the grace period passes, and all is closed under it. *)
Example closed_under_a_run : (fun x => (pr_main x.2, pr_places x.2 !! 0%nat)) <$>
  perform (Ok tt) ex_process (launches ++ [Signal; Main; GivesUp; Main]) = Some (Exits (Err ctxDeadlineExceeded), Some InRun).
Proof. vm_compute. reflexivity. Qed.

Lemma worker_shutdown_witness : exists l s, works (Ok tt) ex_process l s /\ pr_main s = Exits (Ok tt) /\
  times (Begins 0) l = 2 /\ times (Ends 0) l = 2.
Proof.
  assert (Hm : ex_main = Ok ex_process) by (vm_compute; reflexivity).
  assert (Hp : exists l s, perform (Ok tt) ex_process ex_day = Some (l, s)) by (vm_compute; by do 2 eexists).
  destruct Hp as (l & s & Hp). exists l, s. pose proof (perform_works _ _ _ _ _ Hp) as Hr.
  assert (Hx : pr_main s = Exits (Ok tt) /\ times (Begins 0) l = 2) by (revert Hp; vm_compute; intros [= <- <-]; done).
  destruct Hx as [Hx Hb]. split; [exact Hr|]. split; [exact Hx|]. split; [exact Hb|].
  destruct (worker_shutdown _ _ _ _ _ _ _ _ _ (Ok tt) _ l s Hm Hr) as (_ & _ & He).
  destruct (He _ Hx) as (_ & _ & [[Hc _]|[_ Hc]]); [discriminate|].
  rewrite <- (Hc 0%nat _ eq_refl). exact Hb.
Defined.

(** In [Stop], the promotion job in a run. *)
Lemma worker_ends_witness : exists l s, works (Ok tt) ex_process l s /\ pr_main s = InStop /\ len l <= 27 /\
  (exists l' s' r, works (Ok tt) ex_process (l ++ l') s' /\ forallb (fun x => orderly x.1) l' = true /\ pr_main s' = Exits r) /\
  (exists s', works (Ok tt) ex_process (l ++ [(GivesUp, Quiet); (Main, Closed)]) s' /\ pr_main s' = Exits (Err ctxDeadlineExceeded)).
Proof.
  assert (Hp : exists l s, perform (Ok tt) ex_process (launches ++ [Signal; Main]) = Some (l, s)) by (vm_compute; by do 2 eexists).
  destruct Hp as (l & s & Hp). exists l, s. pose proof (perform_works _ _ _ _ _ Hp) as Hr.
  assert (Hx : pr_main s = InStop /\ fired l = 0 /\ acted Signal l).
  { revert Hp. vm_compute. intros [= <- <-]. do 2 (split; [done|]). apply list_elem_of_In. cbn. tauto. }
  destruct Hx as (Hx & Hf & Ha). destruct (worker_ends (Ok tt) _ l s Hr) as (Hl & He & Hg).
  split; [exact Hr|]. split; [exact Hx|]. split; [rewrite Hf in Hl; exact Hl|]. split; [|exact (Hg Hx)].
  apply He; [|exact Ha]. repeat constructor.
Defined.
