(* ===== verification/Entry.v ===== *)
(** * cmd/drive-gateway/main.go, cmd/drive-worker/main.go, metadata.Open and the embedded migrations

    The way from a command line to a process: the flags of package [flag], the
    environment, the configuration, the pool of connections and the schema. *)
From Stdlib Require Import Strings.Ascii.
From S2P Require Import Prelude GoStd Fs DiskCache LocalFsDev Config Db Worker Gateway Lifecycle.
Local Open Scope Z_scope.

(** ** [flag.FlagSet] with flags of type string *)
Definition ErrHelp : error := ErrNew "flag: help requested".
Inductive argument := Operand | Terminator | BadSyntax | FlagArg (name : string) (value : option string).
(** The name and, after the first equals sign, the value. *)
Fixpoint cutEq (s : string) : string * option string :=
  match s with
  | EmptyString => (EmptyString, None)
  | String c s => if Ascii.eqb c "="%char then (EmptyString, Some s) else (String c (cutEq s).1, (cutEq s).2)
  end.
Definition readName (s : string) : argument :=
  match s with
  | EmptyString => BadSyntax
  | String c _ => if Ascii.eqb c "-"%char || Ascii.eqb c "="%char then BadSyntax else FlagArg (cutEq s).1 (cutEq s).2
  end.
Definition readArg (s : string) : argument :=
  match s with
  | String "-" EmptyString => Operand
  | String "-" (String "-" EmptyString) => Terminator
  | String "-" (String "-" name) => readName name
  | String "-" name => readName name
  | _ => Operand
  end.
(** [Parse]: the flags of [formal] that are set, up to the first operand. *)
Fixpoint parseFlags (formal : list string) (vals : gmap string string) (args : list string) : result (gmap string string) :=
  match args with
  | [] => Ok vals
  | arg :: args =>
      match readArg arg with
      | Operand | Terminator => Ok vals
      | BadSyntax => Err (ErrNew "bad flag syntax: %s")
      | FlagArg name value =>
          if negb (bool_decide (name ∈ formal))
          then Err (if bool_decide (name = "help") || bool_decide (name = "h") then ErrHelp
                    else ErrNew "flag provided but not defined: -%s")
          else match value, args with
               | Some v, _ => parseFlags formal (<[name := v]> vals) args
               | None, v :: args => parseFlags formal (<[name := v]> vals) args
               | None, [] => Err (ErrNew "flag needs an argument: -%s")
               end
      end
  end.

(** ** The two commands *)
Section commands.
Context (getenv : string -> string) (readFile : string -> result bytes).

(** [os.Getenv] with a default. *)
Definition envOr (key def : string) : string := let v := getenv key in if bool_decide (v = "") then def else v.
Definition configPath (vals : gmap string string) (key : string) : string :=
  let p := default "" (vals !! "config") in if bool_decide (p = "") then envOr key "" else p.

(** [http.Server] as [run] sets it. *)
Record httpServer := mkHttpServer {
  hs_Addr : string; hs_MaxHeaderBytes : Z; hs_ReadTimeout : Z; hs_ReadHeaderTimeout : Z; hs_WriteTimeout : Z; hs_IdleTimeout : Z }.

(** [run] of the gateway up to the start of its goroutine. *)
Definition gatewayRun {G} (decode : bytes -> result GatewayConfig) (newGateway : option GatewayConfig -> result G)
    (args : list string) : result (httpServer * G * gatewayProcess) :=
  match parseFlags ["config"; "addr"] ∅ args with
  | Err e => Err e
  | Ok vals =>
      match LoadGateway readFile decode (configPath vals "DRIVE_GATEWAY_CONFIG") with
      | Err e => Err (ErrWrap "load config: %w" e)
      | Ok cfg =>
          match newGateway (Some cfg) with
          | Err e => Err (ErrWrap "build server: %w" e)
          | Ok srv =>
              Ok (mkHttpServer (default ":8080" (vals !! "addr")) (Z.shiftl 1 20) (30 * Second) (10 * Second) (60 * Second) (120 * Second),
                  srv, startGateway)
          end
      end
  end.

(** [run] of the worker up to [Start]. *)
Definition workerRun {DB} (decode : bytes -> result WorkerConfig) (newWorker : option WorkerConfig -> result (Worker (DB := DB)))
    (args : list string) : result process :=
  match parseFlags ["config"] ∅ args with
  | Err e => Err e
  | Ok vals => workerMain (LoadWorker readFile decode (configPath vals "DRIVE_WORKER_CONFIG")) newWorker
  end.
End commands.

(** [main]: the exit status. *)
Definition exitStatus (r : result unit) : Z := match r with Ok _ => 0 | Err _ => 1 end.

(** ** [sql.DB] and [metadata.Open]

    The pools opened so far, with their limits; zero is no limit. [sql_Open] is
    the driver: it reads the data source name. *)
Record pool := mkPool {
  po_db : db; po_maxOpen : Z; po_maxIdle : Z; po_maxLifetime : Z; po_maxIdleTime : Z; po_closed : bool }.
#[export] Instance eta_pool : Eta pool := fun p =>
  mkPool (po_db p) (po_maxOpen p) (po_maxIdle p) (po_maxLifetime p) (po_maxIdleTime p) (po_closed p).
Definition newPool (d : db) : pool := mkPool d 0 2 0 0 false.
(** No more idle connections than open ones. *)
Definition idleCap (maxOpen n : Z) : Z := if (0 <? maxOpen) && (maxOpen <? n) then maxOpen else n.
Definition SetMaxOpenConns (n : Z) (p : pool) : pool :=
  p <| po_maxOpen := Z.max n 0 |> <| po_maxIdle := idleCap (Z.max n 0) (po_maxIdle p) |>.
Definition SetMaxIdleConns (n : Z) (p : pool) : pool := p <| po_maxIdle := idleCap (po_maxOpen p) (Z.max n 0) |>.
Definition SetConnMaxLifetime (t : Z) (p : pool) : pool := p <| po_maxLifetime := Z.max t 0 |>.
Definition SetConnMaxIdleTime (t : Z) (p : pool) : pool := p <| po_maxIdleTime := Z.max t 0 |>.
Definition closePool (p : pool) : pool := p <| po_closed := true |>.
Definition pingPool (p : pool) : pool * result unit := let (d, r) := Ping (po_db p) in (p <| po_db := d |>, r).

Section pools.
Context (sql_Open : string -> result db).
(** [Open]: the number of the new pool. *)
Definition Open (dsn : string) (ps : list pool) : list pool * result nat :=
  match sql_Open dsn with
  | Err e => (ps, Err (ErrWrap "metadata: open: %w" e))
  | Ok d =>
      let p := SetConnMaxIdleTime (5 * Minute) (SetConnMaxLifetime (30 * Minute) (SetMaxIdleConns 10 (SetMaxOpenConns 20 (newPool d)))) in
      let (p, r) := pingPool p in
      match r with
      | Err e => (ps ++ [closePool p], Err (ErrWrap "metadata: ping: %w" e))
      | Ok _ => (ps ++ [p], Ok (length ps))
      end
  end.
(** The database the gateway and the worker go on with. *)
Definition openDb (dsn : string) : result db :=
  match Open dsn [] with
  | (ps, Ok i) => match ps !! i with Some p => Ok (po_db p) | None => Err (ErrNew "sql: database is closed") end
  | (_, Err e) => Err e
  end.
End pools.

(** ** The embedded migrations

    The texts are the files of internal/metadata/migrations. *)
Section embedded.
Context (migration001SQL migration002SQL migration003SQL migration004SQL migration005SQL migration006SQL : string).
Definition EmbeddedMigrations : list Migration :=
  [mkMigration 1 migration001SQL; mkMigration 2 migration002SQL; mkMigration 3 migration003SQL;
   mkMigration 4 migration004SQL; mkMigration 5 migration005SQL; mkMigration 6 migration006SQL].
Definition AutoMigrate (exec : string -> MDB unit) (record : Z -> MDB unit) : MDB unit := Migrate exec record EmbeddedMigrations.
End embedded.

(** ** Lemmas *)

(** A command line that sets flags is read as it was written, the last setting
    of a flag counting; operands end it. *)
Inductive spelling := Dash | DashDash | TwoArgs.
Definition wellNamed (name : string) : Prop :=
  match name with EmptyString => False | String c _ => c <> "-"%char /\ c <> "="%char end /\ (cutEq name) = (name, None).
Definition render (x : string * string * spelling) : list string :=
  match x with
  | (n, v, Dash) => ["-" +:+ n +:+ "=" +:+ v]
  | (n, v, DashDash) => ["--" +:+ n +:+ "=" +:+ v]
  | (n, v, TwoArgs) => ["-" +:+ n; v]
  end.

Lemma cutEq_app n v : cutEq n = (n, None) -> cutEq (n +:+ "=" +:+ v) = (n, Some v).
Proof.
  induction n as [|c n IH]; [done|]. pose (s := n +:+ "=" +:+ v).
  change (cutEq (String c n +:+ "=" +:+ v)) with (if Ascii.eqb c "="%char then (EmptyString, Some s) else (String c (cutEq s).1, (cutEq s).2)).
  cbn [cutEq]. destruct (Ascii.eqb c "="); [done|]. intros [= Hn Hv]. unfold s.
  rewrite IH; [done|]. destruct (cutEq n); cbn in *; congruence.
Qed.
Lemma readName_wellNamed n s : wellNamed n -> (exists t, s = n +:+ t) -> readName s = FlagArg (cutEq s).1 (cutEq s).2.
Proof.
  intros [Hn _] [t ->]. destruct n as [|c n]; [done|]. destruct Hn as [H1 H2]. apply Ascii.eqb_neq in H1, H2.
  set (s := String c n +:+ t). assert (Hs : readName s = if Ascii.eqb c "-"%char || Ascii.eqb c "="%char then BadSyntax
    else FlagArg (cutEq s).1 (cutEq s).2) by done. by rewrite Hs, H1, H2.
Qed.
Lemma readArg_dash n : match n with EmptyString => False | String c _ => c <> "-"%char end -> readArg (String "-" n) = readName n.
Proof. destruct n as [|c n]; [done|]. intros Hc. destruct c as [[] [] [] [] [] [] [] []]; done. Qed.
Lemma readArg_dashes n : n <> "" -> readArg (String "-" (String "-" n)) = readName n.
Proof. by destruct n. Qed.

Lemma sapp_empty (s : string) : s +:+ "" = s.
Proof. induction s as [|c s IH]; [done|]. exact (f_equal (String c) IH). Qed.

Lemma parse_flag formal vals n v sp rest : wellNamed n -> n ∈ formal ->
  parseFlags formal vals (render (n, v, sp) ++ rest) = parseFlags formal (<[n := v]> vals) rest.
Proof.
  intros Hw Hin. pose proof Hw as [Hc Hn]. assert (Hne : forall s, n +:+ s <> "") by (by destruct n).
  assert (Hd : forall s, match n +:+ s with EmptyString => False | String c _ => c <> "-"%char end) by (intros s; destruct n; [done|apply Hc]).
  destruct sp; cbn [render app parseFlags].
  - change ("-" +:+ n +:+ "=" +:+ v) with (String "-" (n +:+ "=" +:+ v)).
    rewrite readArg_dash, (readName_wellNamed n), cutEq_app by (apply Hd || done || by eexists). cbn [fst snd]. by rewrite bool_decide_true.
  - change ("--" +:+ n +:+ "=" +:+ v) with (String "-" (String "-" (n +:+ "=" +:+ v))).
    rewrite readArg_dashes, (readName_wellNamed n), cutEq_app by (apply Hne || done || by eexists). cbn [fst snd]. by rewrite bool_decide_true.
  - change ("-" +:+ n) with (String "-" n). specialize (Hd ""). rewrite sapp_empty in Hd.
    rewrite readArg_dash, (readName_wellNamed n), Hn by (done || (exists ""; by rewrite sapp_empty)). cbn [fst snd]. by rewrite bool_decide_true.
Qed.

Lemma parse_flags formal settings operands vals : Forall wellNamed formal -> Forall (fun x => x.1.1 ∈ formal) settings ->
  match operands with [] => True | a :: _ => readArg a = Operand \/ readArg a = Terminator end ->
  parseFlags formal vals (concat (map render settings) ++ operands) = Ok (foldl (fun m x => <[x.1.1 := x.1.2]> m) vals settings).
Proof.
  intros Hw. revert vals. induction settings as [|[[n v] sp] settings IH]; intros vals Hs Ho.
  - destruct operands as [|a operands]; [done|]. cbn. by destruct Ho as [-> | ->].
  - apply Forall_cons in Hs as [Hn Hs]. cbn [map concat foldl fst snd] in *. rewrite <- app_assoc, parse_flag; [by apply IH| |done].
    rewrite Forall_forall in Hw. by apply Hw.
Qed.

(** Flags after an operand are not read: this one is taken for no flag at all. *)
Example operand_hides_flags : parseFlags ["config"; "addr"] ∅ ["serve"; "-config"; "/etc/gateway.json"] = Ok ∅.
Proof. reflexivity. Qed.

(** A process starts only from flags that parse, a configuration that loads -
    the flag's file, else the environment's, else the defaults - and parts that
    build. *)
Lemma gateway_starts {G} getenv readFile decode (new : option GatewayConfig -> result G) args hs g gp :
  gatewayRun getenv readFile decode new args = Ok (hs, g, gp) ->
  exists vals cfg, parseFlags ["config"; "addr"] ∅ args = Ok vals /\
    LoadGateway readFile decode (configPath getenv vals "DRIVE_GATEWAY_CONFIG") = Ok cfg /\ new (Some cfg) = Ok g /\ gp = startGateway.
Proof.
  unfold gatewayRun. destruct (parseFlags _ _ _) as [vals|]; [|done]. destruct (LoadGateway _ _ _) as [cfg|] eqn:Hl; [|done].
  destruct (new (Some cfg)) as [g'|] eqn:Hn; [|done]. intros [= <- <- <-]. by exists vals, cfg.
Qed.

(** [Open] leaves no pool open when it fails; when it succeeds the new pool has
    its limits and its server has answered. *)
Lemma Open_closes sql_Open dsn ps :
  match Open sql_Open dsn ps with
  | (ps', Ok i) => i = length ps /\ exists d, sql_Open dsn = Ok d /\ is_Ok (Ping d).2 = true /\
      ps' = ps ++ [mkPool (Ping d).1 20 10 (30 * Minute) (5 * Minute) false]
  | (ps', Err _) => ps' = ps \/ exists p, ps' = ps ++ [p] /\ po_closed p = true
  end.
Proof.
  unfold Open. destruct (sql_Open dsn) as [d|e]; [|by left]. unfold pingPool. cbn [po_db SetConnMaxIdleTime SetConnMaxLifetime SetMaxIdleConns SetMaxOpenConns newPool upd eta_expand eta_pool].
  destruct (Ping d) as [d' [[]|e]] eqn:Hp.
  - split; [done|]. exists d. rewrite Hp. done.
  - right. by eexists.
Qed.

Lemma Migrate_cons exec record m ms d : Migrate exec record (m :: ms) d =
  match Apply exec record m d with
  | (d1, Ok _) => Migrate exec record ms d1
  | (d1, Err e) => (d1, Err (ErrWrap "metadata: migration %d: %w" e))
  end.
Proof. cbn [Migrate]. unroll. unfold wrap. by destruct (Apply exec record m d) as [d1 [u|e]]. Qed.

(** The migrations run in order up to the first that fails, which leaves the
    tables as the ones before it made them. *)
Lemma Migrate_prefix exec record ms d d' r : Migrate exec record ms d = (d', r) ->
  let run := foldl (fun d m => (Apply exec record m d).1) d in
  (r = Ok tt /\ d' = run ms) \/
  exists before m after e, ms = before ++ m :: after /\ r = Err (ErrWrap "metadata: migration %d: %w" e) /\
    sameTables (run before) d' /\ Migrate exec record before d = (run before, Ok tt).
Proof.
  cbv zeta. revert d. induction ms as [|m ms IH]; intros d; [intros [= <- <-]; by left|]. rewrite Migrate_cons. cbn [foldl].
  destruct (Apply exec record m d) as [d1 [u|e]] eqn:Ha.
  - intros Hm. destruct (IH _ Hm) as [[-> ->]|(before & m' & rest & e & -> & -> & Hs & Hb)]; [by left|right].
    exists (m :: before), m', rest, e. split; [done|]. split; [done|]. cbn [foldl]. by rewrite Migrate_cons, Ha.
  - intros [= <- <-]. right. exists [], m, ms, e. split; [done|]. split; [done|]. split; [|done]. cbn [foldl].
    unfold Apply in Ha. by apply transaction_atomic in Ha.
Qed.

Lemma EmbeddedMigrations_ordered s1 s2 s3 s4 s5 s6 : map mg_Version (EmbeddedMigrations s1 s2 s3 s4 s5 s6) = seqZ 1 6.
Proof. reflexivity. Qed.
